(* ===== verification/_CoqProject ===== *)
-Q . S2P
Prelude.v
BootInfo.v
Pmm.v
Memory.v
Paging.v
AddressSpace.v
AddressOps.v
AddressLife.v
AddressClone.v
AddressProps.v
PagingInit.v
Kalloc.v
KallocRep.v
KallocOps.v
KallocProps.v
KallocLarge.v
KallocFree.v
KernelVm.v
Arrays.v
Klib.v
Path.v
VmArea.v
VmTable.v
VmOps.v
VmProps.v
VmSpec.v
Fault.v
FaultProps.v
FaultSpec.v
MemCalls.v
MemCallsProps.v
MemCallsSpec.v
Task.v
Wait.v
WaitProps.v
Sched.v
SchedProps.v
SleepProps.v
Input.v
CompilerRt.v
LibcTime.v
Unicode.v
Terminal.v
Screen.v
Net.v
NetChecksum.v
NetProps.v
NetSpec.v
NetText.v
UserHeap.v
UserHeapRep.v
UserHeapOps.v
UserHeapProps.v
UserHeapCopy.v
UserHeapSpec.v
