(* ===== verification/Prelude.v ===== *)
(** * SmallOS: verification library

    SmallOS is a 32-bit x86 operating system in C: a kernel with paging, processes, a
    scheduler, a virtual file system, drivers and a network stack ([src/src/kernel],
    [src/src/drivers], [src/src/exec]), and a user land with its own C library
    ([src/src/user]).  This library models the memory side of the kernel from the boot
    information up to page faults and the memory system calls, the wait queues, the
    scheduler and the timer, the input queue, the text console, path resolution, the
    ARP and IPv4 layers of the network stack, and three parts of the C library, the heap of
    user programs among them, and proves them correct.

    ** How the code is modelled

    Pure C functions are functions, code that changes state is written in the monad [M]
    of this file: a state goes in, a result and a state come out, and [None] means that
    the machine has halted ([paging_panic], a jump through a null pointer) or has left an
    array (the received frames of [Net.v]) or the heap ([UserHeap.v]).  [runs m s Q]
    is total correctness: [m] does not halt from [s] and its result satisfies [Q].
    Unsigned integers are [Z] with the wrap-around written out ([u8], [u32], ...), arrays
    are lists, loops are folds over [up_to] where the bounds are known and recursion on
    fuel otherwise.  Names are those of the source wherever it has one.

    ** Files

    Physical memory.
    - [BootInfo.v]: [boot_info.c], the validation of the block of the boot loader.
    - [Pmm.v]: [pmm.c], the frame allocator (bitmap, reference counts, free counter) as
      the record [pmm]; its refinement of a map from frames to reference counts.
    - [Memory.v]: [memory.c], the bump heap, and the boot of the frame allocator.

    Virtual memory.
    - [Paging.v]: [paging.c] over physical memory as words ([machine]): creation, clone
      and destruction of address spaces, mapping, unmapping, copy-on-write faults.
    - [AddressSpace.v], [AddressOps.v], [AddressLife.v], [AddressClone.v]: the invariant
      [vm_rep] (page tables form trees, every reference count equals the number of its
      holders) and the operations on it; [AddressProps.v]: the theorems.
    - [PagingInit.v]: the tables built at boot, read by the page walk of the processor.

    Kernel allocator.
    - [Kalloc.v]: [kalloc.c], slabs and large blocks in the frames of the model;
      [KallocRep.v], [KallocOps.v], [KallocProps.v], [KallocLarge.v], [KallocFree.v]: the
      heap as a set of disjoint blocks; [KernelVm.v]: heap and address spaces together.

    Process memory.
    - [VmArea.v]: the memory areas of [process.c]; [VmTable.v]: what a table of areas
      says about an address; [VmOps.v], [VmProps.v], [VmSpec.v]: the operations refine
      operations on a map from addresses to attributes and file bytes.
    - [Fault.v]: the page-fault path of [process.c] over a file system that satisfies
      the class [FileSystem]; [FaultProps.v], [FaultSpec.v]: its contract.
    - [MemCalls.v]: [brk], [mmap], [munmap] and [mprotect] of [syscall_proc.c] on the
      state [caller] of the calling process, with the handle and file lookups they use;
      [MemCallsProps.v], [MemCallsSpec.v]: each call and every sequence of them.

    Processes and time.
    - [Task.v]: the state of processes, wait queues, scheduler and timer ([sys]).
    - [Wait.v]: [wait.c]; [WaitProps.v]: the queues refine lists of processes.
    - [Sched.v]: [scheduler.c], [timer.c], the timer interrupt of [idt.c], the sleep call
      of [syscall_time.c] and the helpers of [process.c] they use; [SchedProps.v]:
      bounded waiting; [SleepProps.v]: sleeping processes wake in time.
    - [Input.v]: [input.c], the ring of input events and the process that waits for it.

    Network.
    - [Net.v]: [arp.c], [ipv4.c] and [net.c] as the state [net] over a record
      [environment] of what they call (the card, the clock, the log file, the other
      protocols); [NetChecksum.v]: the checksum; [NetProps.v]: the fields of frames and
      one poll of the card, for an environment that satisfies [NetworkLaws];
      [NetSpec.v]: packets as their standards define them, and the theorems;
      [NetText.v]: dotted addresses.

    Console and libraries.
    - [Klib.v]: [klib.c]; [Path.v]: [path_build_from] of [syscall_user.c];
      [Arrays.v]: shifting elements of an array.
    - [Unicode.v], [Terminal.v], [Screen.v]: [unicode.c], [terminal.c] over a class
      [Backend], and [screen.c], the back end on the VGA text page.
    - [LibcTime.v]: [user/libc/time.c]; [CompilerRt.v]: [user/libc/compiler_rt.c].
    - [UserHeap.v]: [user/libc/malloc.c] as the state [uheap] over bytes of memory and a
      kernel that satisfies the class [BrkService], with [memcpy] and [memset] of
      [user/libc/stdio.c]; [UserHeapRep.v]: the list of blocks in memory;
      [UserHeapOps.v], [UserHeapProps.v], [UserHeapCopy.v]: the operations on it;
      [UserHeapSpec.v]: the heap as a map from pointers to blocks, also on the [brk]
      of [MemCalls.v] ([kernel_brk]).

    ** What the theorems show

    - Frames: every call sequence of the allocator follows its specification; boot frees
      exactly the usable memory; first fit; frames the kernel has reserved are not handed
      out, except those in use when the heap grew over them.
    - Address spaces: reference counts are exact in every reachable state; a fork
      isolates parent and child; copy-on-write faults; nothing leaks on destruction; the
      tables of the boot translate as the kernel assumes.
    - Kernel heap: blocks are fresh, disjoint, zeroed and keep their contents.
    - Memory areas: adding, removing and protecting a range, in the areas and in the
      page tables; page faults give a page the bytes its area prescribes; the memory
      calls of a process, in any sequence and with any arguments, leave every other
      address space alone as long as the table of areas has room when the break moves
      down, and [mmap] and [brk] do what they promise, with the error of each refusal.
    - Scheduling: wait queues as lists; a runnable process runs after a bounded number
      of events; a sleep ends at its tick; milliseconds are converted without overflow.
    - Input: the ring behaves as a list of events with merged mouse motion.
    - Network: the checksum is that of RFC 1071; a poll of the card stays inside the
      received frame, hands the sockets exactly the data in it, and changes the ARP cache
      and the awaited ping exactly as the frame says; the ARP exchange of two hosts; ping; the frames of outgoing datagrams;
      addresses are printed and parsed back.
    - Console: arbitrary bytes never make the terminal write outside of the text page;
      UTF-8 text appears as its glyphs.
    - User heap: [malloc], [calloc], [realloc] and [free] act on a map of disjoint blocks,
      and an allocation fails only when no free block fits and the kernel refuses to
      move the break; sizes close to [2^32] are the exception.
    - Paths, dates and 64-bit division: canonical paths, calendar round trips, exact
      quotients and remainders.
    - Where the code departs from its intent the departure is a theorem too:
      [split_at_growth_overlaps], [split_at_shifts_file], [kalloc_size_wraps],
      [kmalloc_can_overlap_allocated_frame], [malloc_size_wraps], and the exceptional
      cases of [sys_sleep_on_time], [strftime_correct], [process_vm_handle_fault_correct] and
      [net_poll_once_correct].

    ** Fuel and bounds

    A loop on fuel returns a failure when the fuel is used up, and the theorems show
    that this does not happen: [walk_fuel] exceeds the number of frames that can hold
    slabs, [pool_fuel] the number of nodes of the wait-queue pool, [year_fuel] the years
    of a 32-bit time, [loop_fuel] the bits of a 64-bit word, [search_fuel] the pages of
    the region [mmap] searches; the loops over memory areas have the number of areas as
    fuel, the checksum the length of the frame, which it cannot read more often, and
    [list_fuel] exceeds the number of blocks of the user heap.

    ** What is not modelled

    - The translation cache of the processor: [paging_invalidate] and reloads of CR3
      have no effect on it here, and interrupts occur only between the modelled calls.
    - Messages on the terminal and the serial port from kernel code.
    - The file system, sockets and the handles of processes; where modelled code calls
      them they are parameters with their laws ([FileSystem], [ExitResources],
      [NetworkLaws]).  A program is assumed to move its break only through [malloc.c].
    - Process creation, the program loader and signals; the system call dispatcher and
      the system calls other than those above.
    - TCP, DHCP and NTP, and the loop of [ipv4_ping_via_gateway], which waits for the
      clock.
    - Device drivers other than the text console, and assembly code: they are hardware
      protocols, port and memory-mapped input and output.
    - User programs, the graphical interface, ports of third-party programs, and the C
      library outside of the files above. *)
From Stdlib Require Import ZArith Lia ZifyBool Bool.
From stdpp Require Import base numbers gmap list.
Local Open Scope Z_scope.

(** ** Machine integers

    A [w]-bit unsigned value is a [Z]; every operation that can leave its range
    is wrapped at the point where C converts it. *)
Definition u8 (z : Z) : Z := z mod 2 ^ 8.
Definition u16 (z : Z) : Z := z mod 2 ^ 16.
Definition u32 (z : Z) : Z := z mod 2 ^ 32.
Definition u64 (z : Z) : Z := z mod 2 ^ 64.

(** [(int) z] for a 32-bit [z]: two's complement. *)
Definition i32 (z : Z) : Z := if u32 z <? 2 ^ 31 then u32 z else u32 z - 2 ^ 32.

(** ** Arrays and loops

    An array [T a[n]] is a list; [a[i]] is read with the default [d] outside of
    its bounds, and a write outside of its bounds is dropped.  The theorems that
    need an access to be in bounds prove it from the component's invariant. *)
Definition zget {A} (d : A) (l : list A) (i : Z) : A := default d (l !! Z.to_nat i).
Definition zset {A} (l : list A) (i : Z) (v : A) : list A := <[Z.to_nat i := v]> l.
Definition zlen {A} (l : list A) : Z := Z.of_nat (length l).

(** The successive values of [i] in [for (i = start; i < stop; i += step)]. *)
Definition up_to (start stop step : Z) : list Z :=
  (fun k => start + k * step) <$> seqZ 0 ((stop - start + step - 1) / step).

(** Number of [i] in [0, n) with [f i]. *)
Fixpoint count_below (f : Z -> bool) (n : nat) : Z :=
  match n with
  | O => 0
  | S n' => count_below f n' + (if f (Z.of_nat n') then 1 else 0)
  end.

(** ** Automation *)

(** Splits on every boolean comparison of integers in the goal. *)
Ltac zcase :=
  repeat match goal with
  | |- context [?a <? ?b] => destruct (Z.ltb_spec a b)
  | |- context [?a <=? ?b] => destruct (Z.leb_spec a b)
  | |- context [?a =? ?b] => destruct (Z.eqb_spec a b)
  | |- context [?a >? ?b] => rewrite (Z.gtb_ltb a b)
  | |- context [?a >=? ?b] => rewrite (Z.geb_leb a b)
  end.

(** Linear arithmetic with division and modulo by constants. *)
Ltac dlia := Z.to_euclidean_division_equations; lia.

Create HintDb smallos.

(** ** Effects

    Kernel code that reads and updates global state, and may stop the machine
    ([paging_panic], the [cli; hlt] loops), is a function from the state to an
    optional result and new state; [None] is the halted machine. *)
Definition M (S A : Type) : Type := S -> option (A * S).

Declare Scope kernel_scope.
Delimit Scope kernel_scope with K.

Section Monad.
Context {S : Type}.

Definition ret {A} (a : A) : M S A := fun s => Some (a, s).
Definition bind {A B} (m : M S A) (f : A -> M S B) : M S B :=
  fun s => match m s with Some (a, s') => f a s' | None => None end.
Definition halt {A} : M S A := fun _ => None.
Definition gets {A} (f : S -> A) : M S A := fun s => Some (f s, s).
Definition modify (f : S -> S) : M S unit := fun s => Some (tt, f s).
Definition lift {A} (f : S -> A * S) : M S A := fun s => Some (f s).

(** [for (x in l) body]. *)
Fixpoint for_each {X} (l : list X) (body : X -> M S unit) : M S unit :=
  match l with
  | [] => ret tt
  | x :: l' => bind (body x) (fun _ => for_each l' body)
  end.

(** A loop that updates a local variable. *)
Fixpoint for_acc {X A} (l : list X) (a : A) (body : A -> X -> M S A) : M S A :=
  match l with
  | [] => ret a
  | x :: l' => bind (body a x) (fun a' => for_acc l' a' body)
  end.

(** A loop whose body may execute [return r], given as [Some r]. *)
Fixpoint for_return {X R} (l : list X) (body : X -> M S (option R)) : M S (option R) :=
  match l with
  | [] => ret None
  | x :: l' => bind (body x) (fun o =>
      match o with Some r => ret (Some r) | None => for_return l' body end)
  end.
End Monad.

Notation "x <- m ;; k" := (bind m (fun x => k))
  (at level 100, m at next level, right associativity) : kernel_scope.
Notation "m ;;; k" := (bind m (fun _ => k)) (at level 100, right associativity) : kernel_scope.

(** ** Lemmas on wrapped integers *)

Lemma u8_small z : 0 <= z < 256 -> u8 z = z.
Proof. apply Z.mod_small. Qed.

Lemma u16_small z : 0 <= z < 65536 -> u16 z = z.
Proof. apply Z.mod_small. Qed.

Lemma u32_small z : 0 <= z < 2 ^ 32 -> u32 z = z.
Proof. apply Z.mod_small. Qed.

Lemma u64_small z : 0 <= z < 2 ^ 64 -> u64 z = z.
Proof. apply Z.mod_small. Qed.

(** A value of [unsigned char]. *)
Definition is_byte (b : Z) : Prop := 0 <= b < 256.

Lemma u8_range z : 0 <= u8 z < 256.
Proof. apply Z.mod_pos_bound. lia. Qed.

Lemma u32_range z : 0 <= u32 z < 2 ^ 32.
Proof. apply Z.mod_pos_bound. lia. Qed.

Lemma u64_range z : 0 <= u64 z < 2 ^ 64.
Proof. apply Z.mod_pos_bound. lia. Qed.

(** [a & ~(2^k - 1)] clears the low [k] bits. *)
Lemma land_low_mask a k w :
  0 <= k <= w -> 0 <= a < 2 ^ w ->
  Z.land a (Z.lnot (Z.ones k) mod 2 ^ w) = a - a mod 2 ^ k.
Proof.
  intros Hk Ha.
  rewrite <- (Z.land_ones (Z.lnot (Z.ones k))) by lia.
  rewrite (Z.land_comm (Z.lnot _)), Z.land_assoc, Z.land_ones by lia.
  rewrite (Z.mod_small a) by lia.
  rewrite <- Z.ldiff_land, Z.ldiff_ones_r by lia.
  rewrite Z.shiftr_div_pow2, Z.shiftl_mul_pow2 by lia.
  pose proof (Z.div_mod a (2 ^ k) ltac:(lia)). lia.
Qed.

Lemma land_page_mask a :
  0 <= a < 2 ^ 32 -> Z.land a (u32 (Z.lnot 4095)) = a - a mod 4096.
Proof. intros H. exact (land_low_mask a 12 32 ltac:(lia) H). Qed.

Lemma land_page_offset a : Z.land a 4095 = a mod 4096.
Proof. exact (Z.land_ones a 12 ltac:(lia)). Qed.

Lemma land_word_mask a :
  0 <= a < 2 ^ 32 -> Z.land a (u32 (Z.lnot 3)) = a - a mod 4.
Proof. intros H. exact (land_low_mask a 2 32 ltac:(lia) H). Qed.

Lemma land_word_offset a : Z.land a 3 = a mod 4.
Proof. exact (Z.land_ones a 2 ltac:(lia)). Qed.

(** ** Lemmas on arrays *)
Section Arrays.
Context {A : Type}.
Implicit Types (l : list A) (d v : A) (i j : Z).

Lemma zlen_zset l i v : zlen (zset l i v) = zlen l.
Proof. unfold zlen, zset. by rewrite length_insert. Qed.

Lemma zget_zset_eq d l i v : 0 <= i < zlen l -> zget d (zset l i v) i = v.
Proof.
  unfold zlen, zget, zset. intros. by rewrite list_lookup_insert_eq by lia.
Qed.

Lemma zget_zset_ne d l i j v : 0 <= i -> 0 <= j -> i <> j -> zget d (zset l i v) j = zget d l j.
Proof.
  unfold zget, zset. intros. by rewrite list_lookup_insert_ne by lia.
Qed.

Lemma zget_zset d l i j v :
  0 <= i < zlen l -> 0 <= j ->
  zget d (zset l i v) j = if i =? j then v else zget d l j.
Proof.
  intros. zcase; subst; [apply zget_zset_eq | apply zget_zset_ne]; lia.
Qed.

Lemma zget_lookup d l i v : 0 <= i -> l !! Z.to_nat i = Some v -> zget d l i = v.
Proof. unfold zget. by intros _ ->. Qed.

Lemma lookup_zget d l i : 0 <= i < zlen l -> l !! Z.to_nat i = Some (zget d l i).
Proof.
  unfold zlen, zget. intros.
  destruct (lookup_lt_is_Some_2 l (Z.to_nat i)) as [x Hx]; [lia|]. by rewrite Hx.
Qed.

Lemma zget_out d l i : zlen l <= i -> zget d l i = d.
Proof.
  unfold zlen, zget. intros. rewrite lookup_ge_None_2; [done|lia].
Qed.

Lemma Forall_zset (P : A -> Prop) l i v : Forall P l -> P v -> Forall P (zset l i v).
Proof. intros. unfold zset. by apply Forall_insert. Qed.

Lemma Forall_zget (P : A -> Prop) d l i : Forall P l -> P d -> P (zget d l i).
Proof.
  intros Hl Hd. unfold zget. destruct (l !! Z.to_nat i) eqn:E; [|done].
  by eapply Forall_lookup_1 in E.
Qed.

Lemma zget_replicate d v n i : 0 <= i < Z.of_nat n -> zget d (replicate n v) i = v.
Proof. intros. unfold zget. rewrite lookup_replicate_2; [done|lia]. Qed.

Lemma zlen_replicate n v : zlen (replicate n v) = Z.of_nat n.
Proof. unfold zlen. by rewrite length_replicate. Qed.
End Arrays.

(** ** Lemmas on counting *)

Lemma count_below_bounds f n : 0 <= count_below f n <= Z.of_nat n.
Proof. induction n; simpl; [lia|]. destruct (f _); lia. Qed.

Lemma count_below_ext f g n :
  (forall i, 0 <= i < Z.of_nat n -> f i = g i) -> count_below f n = count_below g n.
Proof.
  induction n as [|n IH]; intros H; simpl; [done|].
  rewrite IH, H by (intros; try apply H; lia). done.
Qed.

Lemma count_below_none f n :
  (forall i, 0 <= i < Z.of_nat n -> f i = false) -> count_below f n = 0.
Proof.
  induction n as [|n IH]; intros H; simpl; [done|].
  rewrite IH, H by (intros; try apply H; lia). done.
Qed.

Lemma count_below_update f g n i :
  0 <= i < Z.of_nat n ->
  (forall j, 0 <= j < Z.of_nat n -> j <> i -> f j = g j) ->
  count_below f n - (if f i then 1 else 0) = count_below g n - (if g i then 1 else 0).
Proof.
  induction n as [|n IH]; intros Hi H; [lia|]. simpl.
  destruct (Z.eq_dec i (Z.of_nat n)) as [->|Hne].
  - rewrite (count_below_ext f g n) by (intros; apply H; lia). lia.
  - rewrite (H (Z.of_nat n)) by lia.
    specialize (IH ltac:(lia) ltac:(intros; apply H; lia)). lia.
Qed.

Lemma count_below_set f g n i :
  0 <= i < Z.of_nat n -> f i = false -> g i = true ->
  (forall j, 0 <= j < Z.of_nat n -> j <> i -> f j = g j) ->
  count_below g n = count_below f n + 1.
Proof.
  intros Hi Hf Hg H. pose proof (count_below_update f g n i Hi H) as E.
  rewrite Hf, Hg in E. lia.
Qed.

Lemma count_below_pos f n i : 0 <= i < Z.of_nat n -> f i = true -> 1 <= count_below f n.
Proof.
  intros Hi Hf. induction n as [|n IH]; [lia|]. simpl.
  destruct (Z.eq_dec i (Z.of_nat n)) as [->|].
  - rewrite Hf. pose proof (count_below_bounds f n). lia.
  - specialize (IH ltac:(lia)). destruct (f (Z.of_nat n)); lia.
Qed.

Lemma count_below_exists f n :
  1 <= count_below f n -> exists i, 0 <= i < Z.of_nat n /\ f i = true.
Proof.
  induction n as [|n IH]; simpl; [lia|]. destruct (f (Z.of_nat n)) eqn:E.
  - intros _. exists (Z.of_nat n). split; [lia|done].
  - intros H. destruct IH as (i & ? & ?); [lia|]. exists i. split; [lia|done].
Qed.

Lemma count_below_segment f n s len :
  0 <= s -> 0 <= len -> s + len <= Z.of_nat n ->
  (forall k, s <= k < s + len -> f k = true) -> len <= count_below f n.
Proof.
  intros Hs. revert len. induction n as [|n IH]; intros len Hl Hle Hf; [simpl; lia|]. simpl.
  destruct (Z.le_gt_cases (s + len) (Z.of_nat n)).
  - specialize (IH len Hl ltac:(lia) Hf). destruct (f (Z.of_nat n)); lia.
  - destruct (Z.eq_dec len 0) as [->|].
    + pose proof (count_below_bounds f n). destruct (f (Z.of_nat n)); lia.
    + specialize (IH (len - 1) ltac:(lia) ltac:(lia) ltac:(intros; apply Hf; lia)).
      rewrite (Hf (Z.of_nat n)) by lia. lia.
Qed.

(** ** Wrap-around *)

(** Equality modulo 2^32, under which reductions inside sums, differences and products
    can be dropped by rewriting. *)
Record cong32 (a b : Z) : Prop := Cong32 { cong32_eq : u32 a = u32 b }.

#[export] Instance cong32_equivalence : Equivalence cong32.
Proof.
  split.
  - by split.
  - intros a b [H]. by split.
  - intros a b c [H] [H']. split. congruence.
Qed.

#[export] Instance cong32_add : Proper (cong32 ==> cong32 ==> cong32) Z.add.
Proof.
  intros a a' [H] b b' [H']. split. unfold u32 in *.
  rewrite Z.add_mod, H, H' by lia. symmetry. by apply Z.add_mod.
Qed.

#[export] Instance cong32_sub : Proper (cong32 ==> cong32 ==> cong32) Z.sub.
Proof. intros a a' [H] b b' [H']. split. unfold u32 in *. by rewrite Zminus_mod, H, H', <- Zminus_mod. Qed.

#[export] Instance cong32_mul : Proper (cong32 ==> cong32 ==> cong32) Z.mul.
Proof.
  intros a a' [H] b b' [H']. split. unfold u32 in *.
  rewrite Z.mul_mod, H, H' by lia. symmetry. by apply Z.mul_mod.
Qed.

Lemma cong32_u32 a : cong32 (u32 a) a.
Proof. split. apply Zmod_mod. Qed.

Lemma cong32_of_eq a b : a = b -> cong32 a b.
Proof. by intros ->. Qed.

(** Proves [u32 a = u32 b] by dropping the inner reductions; what remains is [a = b]
    without them. *)
Ltac u32_norm :=
  apply cong32_eq; repeat setoid_rewrite cong32_u32; apply cong32_of_eq.

(** ** Lemmas on loops *)

Lemma elem_of_up_to start stop step a :
  0 < step ->
  a ∈ up_to start stop step <-> exists k, 0 <= k /\ a = start + k * step /\ a < stop.
Proof.
  intros Hs. unfold up_to. rewrite list_elem_of_fmap. setoid_rewrite elem_of_seqZ.
  split.
  - intros (k & -> & Hk). exists k. split_and!; [lia|done|].
    assert (k < (stop - start + step - 1) / step) as Hlt by lia.
    pose proof (Z.mul_div_le (stop - start + step - 1) step Hs). nia.
  - intros (k & Hk & -> & Hlt). exists k. split; [done|]. split; [lia|].
    assert (k + 1 <= (stop - start + step - 1) / step)
      by (apply Z.div_le_lower_bound; nia). lia.
Qed.

(** Loop rule: [P k s] holds after [k] iterations. *)
Lemma foldl_up_to {S} (P : Z -> S -> Prop) (f : S -> Z -> S) start stop step s :
  0 < step -> P 0 s ->
  (forall k t, 0 <= k -> start + k * step < stop -> P k t -> P (k + 1) (f t (start + k * step))) ->
  P (Z.max 0 ((stop - start + step - 1) / step)) (foldl f s (up_to start stop step)).
Proof.
  intros Hs H0 Hstep. unfold up_to. set (n := (stop - start + step - 1) / step).
  assert (forall m : nat, Z.of_nat m <= Z.max 0 n ->
    P (Z.of_nat m) (foldl f s ((fun k => start + k * step) <$> seqZ 0 (Z.of_nat m)))) as Hm.
  { induction m as [|m IH]; intros Hle; [done|].
    rewrite seqZ_S, fmap_app, foldl_app. simpl.
    replace (Z.of_nat (Datatypes.S m)) with (Z.of_nat m + 1) by lia.
    apply Hstep; [lia| |apply IH; lia].
    assert (Z.of_nat m + 1 <= n) by lia.
    pose proof (Z.mul_div_le (stop - start + step - 1) step Hs). fold n in H1. nia. }
  destruct (Z.le_gt_cases 0 n).
  - rewrite Z.max_r by lia. specialize (Hm (Z.to_nat n) ltac:(lia)).
    by rewrite Z2Nat.id in Hm by lia.
  - rewrite Z.max_l by lia. rewrite seqZ_nil by lia. done.
Qed.

Lemma up_to_snoc k : 0 <= k -> up_to 0 (k + 1) 1 = up_to 0 k 1 ++ [k].
Proof.
  intros Hk. unfold up_to. rewrite !Z.div_1_r.
  replace (k + 1 - 0 + 1 - 1) with (Z.of_nat (S (Z.to_nat k))) by lia.
  replace (k - 0 + 1 - 1) with (Z.of_nat (Z.to_nat k)) by lia.
  rewrite seqZ_S, fmap_app. do 2 f_equal. simpl. f_equal. lia.
Qed.

Lemma up_to_nil start stop step : 0 < step -> stop <= start -> up_to start stop step = [].
Proof.
  intros Hs Hle. unfold up_to. rewrite seqZ_nil; [done|].
  apply Z.lt_succ_r, Z.div_lt_upper_bound; lia.
Qed.

(** The common case [for (i = 0; i < n; i++)]. *)
Lemma foldl_count {S} (P : Z -> S -> Prop) (f : S -> Z -> S) n s :
  0 <= n -> P 0 s -> (forall k t, 0 <= k < n -> P k t -> P (k + 1) (f t k)) ->
  P n (foldl f s (up_to 0 n 1)).
Proof.
  intros Hn H0 Hstep.
  pose proof (foldl_up_to P f 0 n 1 s ltac:(lia) H0) as H.
  replace (Z.max 0 ((n - 0 + 1 - 1) / 1)) with n in H by (rewrite Z.div_1_r; lia).
  apply H. intros k t Hk Hlt HP. replace (0 + k * 1) with k by lia. apply Hstep; [lia|done].
Qed.

(** A loop [for (i = a; i < b; i++)] from any start. *)
Lemma foldl_range {S} (P : Z -> S -> Prop) (f : S -> Z -> S) a b s :
  a <= b -> P a s -> (forall k t, a <= k < b -> P k t -> P (k + 1) (f t k)) ->
  P b (foldl f s (up_to a b 1)).
Proof.
  intros Hab H0 Hstep.
  pose proof (foldl_up_to (fun k => P (a + k)) f a b 1 s ltac:(lia)) as H. cbv beta in H.
  rewrite Z.add_0_r in H. replace (a + Z.max 0 ((b - a + 1 - 1) / 1)) with b in H
    by (rewrite Z.div_1_r; lia).
  apply H; [done|]. intros k t Hk Hlt HP. replace (a + k * 1) with (a + k) in * by lia.
  replace (a + (k + 1)) with (a + k + 1) by lia. apply Hstep; [lia|done].
Qed.

Lemma up_to_cons a b : a < b -> up_to a b 1 = a :: up_to (a + 1) b 1.
Proof.
  intros H. unfold up_to. rewrite !Z.div_1_r.
  replace (b - a + 1 - 1) with (b - a) by lia. replace (b - (a + 1) + 1 - 1) with (b - a - 1) by lia.
  rewrite (seqZ_cons 0) by lia. simpl. f_equal; [lia|].
  replace (Z.pred (b - a)) with (b - a - 1) by lia.
  change (Z.succ 0) with (1 + 0). rewrite <- (fmap_add_seqZ 1 0), <- list_fmap_compose.
  apply list_fmap_ext. intros; simpl; lia.
Qed.

(** ** Total correctness of kernel code

    [runs m s Q]: from state [s] the code [m] does not halt the machine, and its
    result and final state satisfy [Q]. *)
Definition runs {S A} (m : M S A) (s : S) (Q : A -> S -> Prop) : Prop :=
  match m s with Some (a, s') => Q a s' | None => False end.

(** [m] gives a result that satisfies [Q], or halts and [P] holds. *)
Definition runs_or {S A} (P : Prop) (m : M S A) (s : S) (Q : A -> S -> Prop) : Prop :=
  match m s with Some (a, s') => Q a s' | None => P end.

Lemma runs_or_bind {S A B} (P : Prop) (m : M S A) (f : A -> M S B) s Q :
  runs m s (fun a s' => runs_or P (f a) s' Q) -> runs_or P (bind m f) s Q.
Proof. unfold runs, runs_or, bind. by destruct (m s) as [[]|]. Qed.

(** Either part may halt. *)
Lemma runs_or_bind_or {S A B} (P : Prop) (m : M S A) (f : A -> M S B) s Q :
  runs_or P m s (fun a s' => runs_or P (f a) s' Q) -> runs_or P (bind m f) s Q.
Proof. unfold runs_or, bind. by destruct (m s) as [[]|]. Qed.

Lemma runs_or_mono {S A} (P P' : Prop) (m : M S A) s (Q Q' : A -> S -> Prop) :
  runs_or P m s Q -> (P -> P') -> (forall a s', Q a s' -> Q' a s') -> runs_or P' m s Q'.
Proof. unfold runs_or. destruct (m s) as [[]|]; auto. Qed.

Lemma runs_runs_or {S A} (P : Prop) (m : M S A) s Q : runs m s Q -> runs_or P m s Q.
Proof. unfold runs, runs_or. by destruct (m s) as [[]|]. Qed.

Section Runs.
Context {S : Type}.

Lemma runs_ret {A} (a : A) (s : S) Q : Q a s -> runs (ret a) s Q.
Proof. done. Qed.

Lemma runs_bind {A B} (m : M S A) (f : A -> M S B) s (Q : B -> S -> Prop) :
  runs m s (fun a s' => runs (f a) s' Q) -> runs (bind m f) s Q.
Proof. unfold runs, bind. by destruct (m s) as [[a s']|]. Qed.

Lemma runs_mono {A} (m : M S A) s (P Q : A -> S -> Prop) :
  runs m s P -> (forall a s', P a s' -> Q a s') -> runs m s Q.
Proof. unfold runs. destruct (m s) as [[a s']|]; auto. Qed.

Lemma runs_gets {A} (f : S -> A) s Q : Q (f s) s -> runs (gets f) s Q.
Proof. done. Qed.

Lemma runs_modify (f : S -> S) s Q : Q tt (f s) -> runs (modify f) s Q.
Proof. done. Qed.

Lemma runs_lift {A} (f : S -> A * S) s (Q : A -> S -> Prop) :
  Q (fst (f s)) (snd (f s)) -> runs (lift f) s Q.
Proof. unfold runs, lift. by destruct (f s). Qed.

Lemma runs_elim {A} (m : M S A) s Q :
  runs m s Q -> exists a s', m s = Some (a, s') /\ Q a s'.
Proof. unfold runs. destruct (m s) as [[a s']|]; [|done]. intros. by exists a, s'. Qed.

(** What is known of a call and of its result. *)
Lemma runs_call {A} (m : M S A) s (Q R : A -> S -> Prop) :
  runs m s Q -> (forall a s', m s = Some (a, s') -> Q a s' -> R a s') -> runs m s R.
Proof. unfold runs. destruct (m s) as [[a s']|]; [|done]. auto. Qed.

Lemma runs_for_each_app (body : Z -> M S unit) l1 l2 s Q :
  runs (for_each l1 body) s (fun _ s' => runs (for_each l2 body) s' Q) ->
  runs (for_each (l1 ++ l2) body) s Q.
Proof.
  revert s. induction l1 as [|i l1 IH]; intros s H; simpl in *; [done|].
  unfold runs, bind in *. destruct (body i s) as [[[] s']|]; [|done]. by apply IH.
Qed.

(** [m] runs to completion from every state with the invariant [P] and keeps it. *)
Definition keeps {A} (P : S -> Prop) (m : M S A) : Prop :=
  forall s, P s -> runs m s (fun _ s' => P s').

Lemma keeps_ret {A} P (a : A) : keeps P (ret a).
Proof. by intros s. Qed.

Lemma keeps_gets {A} P (f : S -> A) : keeps P (gets f).
Proof. by intros s. Qed.

Lemma keeps_modify P (f : S -> S) : (forall s, P s -> P (f s)) -> keeps P (modify f).
Proof. intros H s Hs. by apply H. Qed.

Lemma keeps_bind {A B} P (m : M S A) (f : A -> M S B) :
  keeps P m -> (forall a, keeps P (f a)) -> keeps P (bind m f).
Proof. intros Hm Hf s Hs. apply runs_bind. eapply runs_mono; [by apply Hm|]. intros a s'. apply Hf. Qed.

Lemma keeps_for_each P (l : list Z) (body : Z -> M S unit) :
  (forall i, i ∈ l -> keeps P (body i)) -> keeps P (for_each l body).
Proof.
  induction l as [|i l IH]; intros Hb; [apply keeps_ret|]. simpl. apply keeps_bind.
  - apply Hb. by left.
  - intros _. apply IH. intros j Hj. apply Hb. by right.
Qed.

Lemma keeps_runs {A} P (m : M S A) s (Q : A -> S -> Prop) :
  keeps P m -> P s -> (forall a s', P s' -> Q a s') -> runs m s Q.
Proof. intros Hm Hs HQ. eapply runs_mono; [by apply Hm|]. intros a s'. apply HQ. Qed.

(** Loop rules: [P i] holds before iteration [i]. *)
Lemma runs_for_each (P : Z -> S -> Prop) (body : Z -> M S unit) a b s Q :
  a <= b -> P a s ->
  (forall i t, a <= i < b -> P i t -> runs (body i) t (fun _ => P (i + 1))) ->
  (forall t, P b t -> Q tt t) ->
  runs (for_each (up_to a b 1) body) s Q.
Proof.
  intros Hab HP Hstep HQ. remember (Z.to_nat (b - a)) as n eqn:E.
  revert a s Hab HP Hstep E. induction n as [|n IH]; intros a s Hab HP Hstep E.
  - assert (a = b) as -> by lia. rewrite up_to_nil by lia. by apply HQ.
  - rewrite up_to_cons by lia. simpl. apply runs_bind.
    eapply runs_mono; [apply Hstep; [lia|done]|]. intros ? t Ht.
    apply IH; [lia|done| |lia]. intros i u Hi. apply Hstep. lia.
Qed.

Lemma runs_for_acc {A} (P : Z -> A -> S -> Prop) (body : A -> Z -> M S A) a b x s Q :
  a <= b -> P a x s ->
  (forall i y t, a <= i < b -> P i y t -> runs (body y i) t (P (i + 1))) ->
  (forall y t, P b y t -> Q y t) ->
  runs (for_acc (up_to a b 1) x body) s Q.
Proof.
  intros Hab HP Hstep HQ. remember (Z.to_nat (b - a)) as n eqn:E.
  revert a x s Hab HP Hstep E. induction n as [|n IH]; intros a x s Hab HP Hstep E.
  - assert (a = b) as -> by lia. rewrite up_to_nil by lia. by apply HQ.
  - rewrite up_to_cons by lia. simpl. apply runs_bind.
    eapply runs_mono; [apply Hstep; [lia|done]|]. intros y t Ht.
    apply IH; [lia|done| |lia]. intros i z u Hi. apply Hstep. lia.
Qed.

Lemma runs_for_return {R} (P : Z -> S -> Prop) (body : Z -> M S (option R)) a b s
    (Q : option R -> S -> Prop) :
  a <= b -> P a s ->
  (forall i t, a <= i < b -> P i t ->
     runs (body i) t (fun o u => match o with None => P (i + 1) u | Some r => Q (Some r) u end)) ->
  (forall t, P b t -> Q None t) ->
  runs (for_return (up_to a b 1) body) s Q.
Proof.
  intros Hab HP Hstep HQ. remember (Z.to_nat (b - a)) as n eqn:E.
  revert a s Hab HP Hstep E. induction n as [|n IH]; intros a s Hab HP Hstep E.
  - assert (a = b) as -> by lia. rewrite up_to_nil by lia. by apply HQ.
  - rewrite up_to_cons by lia. simpl. apply runs_bind.
    eapply runs_mono; [apply Hstep; [lia|done]|]. intros [r|] t Ht; [by apply runs_ret|].
    apply IH; [lia|done| |lia]. intros i u Hi. apply Hstep. lia.
Qed.
End Runs.

(** ** Page-table words: a frame address and 12 flag bits *)

Lemma land_aligned_small f fl : f mod 4096 = 0 -> 0 <= fl < 4096 -> Z.land f fl = 0.
Proof.
  intros Hf Hfl. replace fl with (Z.land 4095 fl)
    by (rewrite Z.land_comm, land_page_offset; apply Z.mod_small; lia).
  by rewrite Z.land_assoc, land_page_offset, Hf.
Qed.

Lemma lor_aligned f fl : f mod 4096 = 0 -> 0 <= fl < 4096 -> Z.lor f fl = f + fl.
Proof.
  intros Hf Hfl. pose proof (land_aligned_small f fl Hf Hfl) as H0.
  rewrite <- Z.lxor_lor by done. symmetry. by apply Z.add_nocarry_lxor.
Qed.

(** Only the flag bits matter for a mask below 4096. *)
Lemma land_flags e b : 0 <= b < 4096 -> Z.land e b = Z.land (e mod 4096) b.
Proof.
  intros Hb. rewrite <- land_page_offset, <- Z.land_assoc. f_equal.
  rewrite Z.land_comm, land_page_offset. by rewrite Z.mod_small.
Qed.

(** [P] holds of every word whose leading part is [a] and that has [n] more bits. *)
Fixpoint forall_bits (n : nat) (a : Z) (P : Z -> bool) : bool :=
  match n with
  | O => P a
  | S n => forall_bits n (Z.double a) P && forall_bits n (Z.succ_double a) P
  end.

Lemma forall_bits_spec (P : Z -> bool) n a :
  forall_bits n a P = true ->
  forall x, a * 2 ^ Z.of_nat n <= x < (a + 1) * 2 ^ Z.of_nat n -> P x = true.
Proof.
  revert a. induction n as [|n IH]; intros a H x Hx; cbn [forall_bits] in H.
  - rewrite Z.pow_0_r in Hx. by replace x with a by lia.
  - rewrite Nat2Z.inj_succ, Z.pow_succ_r in Hx by lia.
    apply andb_prop in H as [H0 H1]. rewrite Z.double_spec in H0.
    rewrite Z.succ_double_spec in H1.
    destruct (decide (x < (2 * a + 1) * 2 ^ Z.of_nat n)).
    + apply (IH _ H0). lia.
    + apply (IH _ H1). lia.
Qed.

(** A boolean fact about flag words is decided by trying all of them. *)
Lemma flags_forall (P : Z -> bool) :
  forall_bits 12 0 P = true -> forall fl, 0 <= fl < 4096 -> P fl = true.
Proof. intros H fl Hfl. apply (forall_bits_spec P 12 0 H). lia. Qed.

#[export] Hint Resolve u32_range u64_range u8_range : smallos.
