(* ===== verification/BootInfo.v ===== *)
(** * Boot information block

    Models [src/src/kernel/boot_info.h] and [src/src/kernel/boot_info.c]: the
    structure loader2 leaves at [BOOT_INFO_PHYS] and the predicates the kernel
    uses to decide which parts of it may be trusted.  The block is read-only for
    the kernel, so it is an argument of the functions that read it. *)
From S2P Require Import Prelude.
From Stdlib Require Import ZArith Lia ZifyBool Bool.
From stdpp Require Import base numbers list.
Local Open Scope Z_scope.

Definition BOOT_INFO_PHYS : Z := 0x90000.
Definition BOOT_FONT_PHYS : Z := 0x91000.
Definition BOOT_INFO_MAGIC : Z := 0x534D4F53.
Definition BOOT_INFO_VERSION : Z := 3.
Definition BOOT_E820_MAX : Z := 32.

(** [sizeof(boot_info_t)]: 12 words, 32 entries of 24 bytes, 4 words. *)
Definition SIZEOF_BOOT_INFO : Z := 12 * 4 + 32 * 24 + 4 * 4.

Record boot_e820_entry := BootE820 {
  e820_base : Z;
  e820_length : Z;
  e820_type : Z;
  e820_attr : Z
}.

Record boot_info := BootInfo {
  bi_magic : Z;
  bi_version : Z;
  bi_size : Z;
  framebuffer_phys : Z;
  framebuffer_width : Z;
  framebuffer_height : Z;
  framebuffer_pitch : Z;
  framebuffer_bpp : Z;
  framebuffer_format : Z;
  framebuffer_valid : Z;
  e820_count : Z;
  e820_valid : Z;
  e820 : list boot_e820_entry;
  ramdisk_phys : Z;
  ramdisk_size : Z;
  ramdisk_valid : Z;
  bi_reserved : Z
}.

Definition e820_default : boot_e820_entry := BootE820 0 0 0 0.

(** The entries the loops [for (i = 0; i < e820_count; i++)] visit. *)
Definition e820_entries (info : boot_info) : list boot_e820_entry :=
  zget e820_default (e820 info) <$> up_to 0 (e820_count info) 1.

Definition boot_info_header_valid (info : boot_info) : bool :=
  (bi_magic info =? BOOT_INFO_MAGIC) && (bi_version info =? BOOT_INFO_VERSION)
  && (SIZEOF_BOOT_INFO <=? bi_size info).

Definition e820_entry_sane (ent : boot_e820_entry) : bool :=
  negb (e820_length ent =? 0)
  && negb (u64 (e820_base ent + e820_length ent) <? e820_base ent).

Definition boot_info_validate (info : boot_info) : bool :=
  boot_info_header_valid info && negb (BOOT_E820_MAX <? e820_count info).

Definition boot_info_framebuffer_valid (info : boot_info) : bool :=
  boot_info_header_valid info
  && negb (framebuffer_valid info =? 0) && negb (framebuffer_phys info =? 0)
  && negb (framebuffer_width info =? 0) && negb (framebuffer_height info =? 0)
  && negb (framebuffer_pitch info =? 0) && negb (framebuffer_bpp info =? 0).

Definition boot_info_e820_valid (info : boot_info) : bool :=
  boot_info_validate info && negb (e820_valid info =? 0)
  && negb (e820_count info =? 0) && negb (BOOT_E820_MAX <? e820_count info)
  && forallb e820_entry_sane (e820_entries info).

Definition boot_info_e820_count (info : boot_info) : Z :=
  if boot_info_e820_valid info then e820_count info else 0.

Definition boot_info_ramdisk_valid (info : boot_info) : bool :=
  boot_info_header_valid info
  && negb (ramdisk_valid info =? 0) && negb (ramdisk_phys info =? 0)
  && negb (ramdisk_size info =? 0).

Definition boot_info_ramdisk_phys (info : boot_info) : Z :=
  if boot_info_ramdisk_valid info then ramdisk_phys info else 0.

Definition boot_info_ramdisk_size (info : boot_info) : Z :=
  if boot_info_ramdisk_valid info then ramdisk_size info else 0.

(** The value ranges of the C types of the fields the memory manager reads. *)
Definition e820_entry_typed (ent : boot_e820_entry) : Prop :=
  0 <= e820_base ent < 2 ^ 64 /\ 0 <= e820_length ent < 2 ^ 64.

Definition boot_info_typed (info : boot_info) : Prop :=
  0 <= e820_count info < 2 ^ 32 /\ Forall e820_entry_typed (e820 info) /\
  0 <= framebuffer_phys info < 2 ^ 32 /\ 0 <= framebuffer_pitch info < 2 ^ 32 /\
  0 <= framebuffer_height info < 2 ^ 32 /\
  0 <= ramdisk_phys info < 2 ^ 32 /\ 0 <= ramdisk_size info < 2 ^ 32.

Lemma e820_entries_typed info :
  boot_info_typed info -> Forall e820_entry_typed (e820_entries info).
Proof.
  intros (_ & He & _). unfold e820_entries. apply Forall_fmap, Forall_forall.
  intros i _. apply (Forall_zget e820_entry_typed); [done|]. split; simpl; lia.
Qed.

(** In a map that passed [boot_info_e820_valid] no entry is empty and the end
    [base + length] of an entry does not wrap around. *)
Lemma e820_valid_no_wrap info ent :
  boot_info_typed info -> boot_info_e820_valid info = true -> ent ∈ e820_entries info ->
  0 < e820_length ent /\ u64 (e820_base ent + e820_length ent) = e820_base ent + e820_length ent.
Proof.
  intros Ht Hv Hin. pose proof (e820_entries_typed _ Ht) as Hty.
  apply list_elem_of_In in Hin.
  rewrite List.Forall_forall in Hty. destruct (Hty _ Hin) as [Hb Hl].
  unfold boot_info_e820_valid in Hv. rewrite !andb_true_iff in Hv. destruct Hv as [_ Hs].
  rewrite forallb_forall in Hs. specialize (Hs _ Hin).
  unfold e820_entry_sane in Hs. rewrite andb_true_iff in Hs. destruct Hs as [H1 H2].
  split; [lia|].
  assert (~ (u64 (e820_base ent + e820_length ent) < e820_base ent)) as H3 by lia.
  unfold u64 in *. pose proof (Z.mod_pos_bound (e820_base ent + e820_length ent) (2^64) ltac:(lia)).
  destruct (Z.lt_ge_cases (e820_base ent + e820_length ent) (2 ^ 64)).
  - apply Z.mod_small. lia.
  - exfalso. apply H3. rewrite <- (Z.mod_unique _ (2^64) 1 (e820_base ent + e820_length ent - 2^64)); lia.
Qed.
