(* ===== verification/Pmm.v ===== *)
(** * Physical memory manager

    Models [src/src/kernel/pmm.h] and [src/src/kernel/pmm.c]: the bitmap and
    reference-count frame allocator.  The file-scope variables of pmm.c are the
    record [pmm]; every function of the file is one definition that takes the
    record and returns its new value.  [pmm_init] and [pmm_metadata_init], which
    also use the bump heap, are in [Memory.v].  Terminal diagnostics are not
    modelled. *)
From S2P Require Import Prelude BootInfo.
From Stdlib Require Import ZArith Lia ZifyBool Bool.
From stdpp Require Import base numbers gmap list.
Local Open Scope Z_scope.

Definition PMM_BASE : Z := 0x200000.
Definition PMM_LIMIT : Z := 0x10000000.
Definition PMM_SIZE : Z := PMM_LIMIT - PMM_BASE.
Definition PMM_FALLBACK_SIZE : Z := 0x1E00000.
Definition PMM_FRAME_SIZE : Z := 4096.
Definition PMM_NUM_FRAMES : Z := PMM_SIZE / PMM_FRAME_SIZE.

Record pmm := Pmm {
  s_bitmap : list Z;        (* unsigned char* *)
  s_refcount : list Z;      (* unsigned short* *)
  s_bitmap_bytes : Z;
  s_managed_frames : Z;
  s_max_phys : Z;
  s_free_count : Z;
  s_total_count : Z;
  s_next_free : Z;
  s_ready : bool
}.

(** Assignments to single variables. *)
Definition set_bitmap (b : list Z) (p : pmm) : pmm :=
  Pmm b (s_refcount p) (s_bitmap_bytes p) (s_managed_frames p) (s_max_phys p)
      (s_free_count p) (s_total_count p) (s_next_free p) (s_ready p).
Definition set_refcount (i v : Z) (p : pmm) : pmm :=
  Pmm (s_bitmap p) (zset (s_refcount p) i v) (s_bitmap_bytes p) (s_managed_frames p)
      (s_max_phys p) (s_free_count p) (s_total_count p) (s_next_free p) (s_ready p).
Definition set_free_count (n : Z) (p : pmm) : pmm :=
  Pmm (s_bitmap p) (s_refcount p) (s_bitmap_bytes p) (s_managed_frames p) (s_max_phys p)
      n (s_total_count p) (s_next_free p) (s_ready p).
Definition set_next_free (n : Z) (p : pmm) : pmm :=
  Pmm (s_bitmap p) (s_refcount p) (s_bitmap_bytes p) (s_managed_frames p) (s_max_phys p)
      (s_free_count p) (s_total_count p) n (s_ready p).

(** ** Bitmap helpers *)

Definition frame_is_used (p : pmm) (idx : Z) : bool :=
  negb (Z.land (Z.shiftr (zget 0 (s_bitmap p) (idx / 8)) (idx mod 8)) 1 =? 0).

Definition frame_mark_used (idx : Z) (p : pmm) : pmm :=
  let b := zget 0 (s_bitmap p) (idx / 8) in
  set_bitmap (zset (s_bitmap p) (idx / 8) (u8 (Z.lor b (u8 (Z.shiftl 1 (idx mod 8)))))) p.

Definition frame_mark_free (idx : Z) (p : pmm) : pmm :=
  let b := zget 0 (s_bitmap p) (idx / 8) in
  set_bitmap (zset (s_bitmap p) (idx / 8)
                (u8 (Z.land b (u8 (Z.lnot (Z.shiftl 1 (idx mod 8))))))) p.

Definition addr_to_idx (addr : Z) : Z := u32 (addr - PMM_BASE) / PMM_FRAME_SIZE.

Definition idx_to_addr (idx : Z) : Z := u32 (PMM_BASE + idx * PMM_FRAME_SIZE).

Definition refcount (p : pmm) (idx : Z) : Z := zget 0 (s_refcount p) idx.

Definition pmm_mark_idx_used (idx : Z) (p : pmm) : pmm :=
  let p1 :=
    if negb (frame_is_used p idx) then
      let q := frame_mark_used idx p in
      if 0 <? s_free_count q then set_free_count (s_free_count q - 1) q else q
    else p in
  if refcount p1 idx =? 0 then set_refcount idx 1 p1 else p1.

Definition pmm_mark_idx_free (idx : Z) (p : pmm) : pmm :=
  let p1 :=
    if frame_is_used p idx then
      let q := frame_mark_free idx p in
      let q := set_free_count (u32 (s_free_count q + 1)) q in
      if idx <? s_next_free q then set_next_free idx q else q
    else p in
  set_refcount idx 0 p1.

Definition round_down_frame (addr : Z) : Z := Z.land addr (u32 (Z.lnot (PMM_FRAME_SIZE - 1))).

Definition round_up_frame (addr : Z) : Z :=
  Z.land (u32 (addr + PMM_FRAME_SIZE - 1)) (u32 (Z.lnot (PMM_FRAME_SIZE - 1))).

Definition pmm_mark_range_free (start stop : Z) (p : pmm) : pmm :=
  if (stop <=? PMM_BASE) || (s_max_phys p <=? start) then p else
  let start := if start <? PMM_BASE then PMM_BASE else start in
  let stop := if s_max_phys p <? stop then s_max_phys p else stop in
  let start := round_up_frame start in
  let stop := round_down_frame stop in
  if stop <=? start then p else
  foldl (fun q addr => pmm_mark_idx_free (addr_to_idx addr) q) p
        (up_to start stop PMM_FRAME_SIZE).

Definition pmm_mark_range_used (start stop : Z) (p : pmm) : pmm :=
  if (stop <=? PMM_BASE) || (s_max_phys p <=? start) then p else
  let start := if start <? PMM_BASE then PMM_BASE else start in
  let stop := if s_max_phys p <? stop then s_max_phys p else stop in
  let start := round_down_frame start in
  let stop := round_up_frame stop in
  if stop <=? start then p else
  foldl (fun q addr => pmm_mark_idx_used (addr_to_idx addr) q) p
        (up_to start stop PMM_FRAME_SIZE).

(** One iteration of the loop of [pmm_free_e820_usable_ranges]. *)
Definition pmm_free_e820_entry (p : pmm) (ent : boot_e820_entry) : pmm :=
  if negb (e820_type ent =? 1) || (e820_length ent =? 0) then p else
  let end64 := u64 (e820_base ent + e820_length ent) in
  if (end64 <=? PMM_BASE) || (s_max_phys p <=? e820_base ent) then p else
  let start := if e820_base ent <? PMM_BASE then PMM_BASE else u32 (e820_base ent) in
  let stop := if s_max_phys p <? end64 then s_max_phys p else u32 end64 in
  pmm_mark_range_free start stop p.

Definition pmm_free_e820_usable_ranges (info : boot_info) (p : pmm) : pmm :=
  foldl pmm_free_e820_entry p (e820_entries info).

Definition pmm_free_fixed_range (p : pmm) : pmm :=
  pmm_mark_range_free PMM_BASE (PMM_BASE + PMM_FALLBACK_SIZE) p.

(** One iteration of the loop of [pmm_detect_max_phys]. *)
Definition pmm_detect_entry (max_phys : Z) (ent : boot_e820_entry) : Z :=
  if negb (e820_type ent =? 1) || (e820_length ent =? 0) then max_phys else
  let end64 := u64 (e820_base ent + e820_length ent) in
  if end64 <=? PMM_BASE then max_phys else
  if PMM_LIMIT <=? e820_base ent then max_phys else
  let end64 := if PMM_LIMIT <? end64 then PMM_LIMIT else end64 in
  if max_phys <? u32 end64 then u32 end64 else max_phys.

Definition pmm_detect_max_phys (info : boot_info) : Z :=
  let max_phys :=
    if boot_info_e820_valid info then
      let m := foldl pmm_detect_entry PMM_BASE (e820_entries info) in
      if m <=? PMM_BASE then PMM_BASE + PMM_FALLBACK_SIZE else m
    else PMM_BASE + PMM_FALLBACK_SIZE in
  let max_phys := if PMM_LIMIT <? max_phys then PMM_LIMIT else max_phys in
  let max_phys := Z.land max_phys (u32 (Z.lnot (PMM_FRAME_SIZE - 1))) in
  if max_phys <=? PMM_BASE then PMM_BASE + PMM_FRAME_SIZE else max_phys.

(** ** Public API *)

Definition pmm_reserve_range (start stop : Z) (p : pmm) : pmm :=
  if negb (s_ready p) then p else pmm_mark_range_used start stop p.

(** The scan of [pmm_alloc_frame]: [i] counts up while [fuel] iterations are left. *)
Fixpoint alloc_scan (fuel : nat) (i : Z) (p : pmm) : option Z :=
  match fuel with
  | O => None
  | S fuel' =>
      let idx := u32 (s_next_free p + i) mod s_managed_frames p in
      if negb (frame_is_used p idx) then Some idx else alloc_scan fuel' (i + 1) p
  end.

Definition pmm_alloc_frame (p : pmm) : Z * pmm :=
  if s_free_count p =? 0 then (0, p) else
  match alloc_scan (Z.to_nat (s_managed_frames p)) 0 p with
  | Some idx =>
      let q := frame_mark_used idx p in
      let q := set_refcount idx 1 q in
      let q := set_free_count (u32 (s_free_count q - 1)) q in
      let q := set_next_free ((idx + 1) mod s_managed_frames q) q in
      (idx_to_addr idx, q)
  | None => (0, p)
  end.

(** [for (off = 0; off < count; off++) if (frame_is_used(start + off)) ...]: the
    first used offset. *)
Fixpoint first_used (fuel : nat) (start off : Z) (p : pmm) : option Z :=
  match fuel with
  | O => None
  | S fuel' => if frame_is_used p (start + off) then Some off
               else first_used fuel' start (off + 1) p
  end.

(** The outer loop of [pmm_alloc_contiguous_frames]: on a used frame at offset
    [off] the scan continues after it ([start += off; start++]). *)
Fixpoint run_scan (fuel : nat) (start count : Z) (p : pmm) : option Z :=
  match fuel with
  | O => None
  | S fuel' =>
      if start + count <=? s_managed_frames p then
        match first_used (Z.to_nat count) start 0 p with
        | Some off => run_scan fuel' (start + off + 1) count p
        | None => Some start
        end
      else None
  end.

Definition pmm_alloc_contiguous_frames (count : Z) (p : pmm) : Z * pmm :=
  if (count =? 0) || (s_free_count p <? count) || (s_managed_frames p <? count) then (0, p) else
  match run_scan (S (Z.to_nat (s_managed_frames p))) 0 count p with
  | Some start =>
      let q := foldl (fun q off => set_refcount (start + off) 1 (frame_mark_used (start + off) q))
                     p (up_to 0 count 1) in
      let q := set_free_count (u32 (s_free_count q - count)) q in
      let q := set_next_free ((start + count) mod s_managed_frames q) q in
      (idx_to_addr start, q)
  | None => (0, p)
  end.

Definition pmm_retain_frame (addr : Z) (p : pmm) : bool * pmm :=
  if (addr <? PMM_BASE) || (s_max_phys p <=? addr) then (false, p) else
  let idx := addr_to_idx addr in
  if negb (frame_is_used p idx) then (false, p) else
  if refcount p idx =? 0xFFFF then (false, p) else
  (true, set_refcount idx (u16 (refcount p idx + 1)) p).

Definition pmm_release_frame (addr : Z) (p : pmm) : pmm :=
  if (addr <? PMM_BASE) || (s_max_phys p <=? addr) then p else
  let idx := addr_to_idx addr in
  if negb (frame_is_used p idx) || (refcount p idx =? 0) then p else
  let q := set_refcount idx (u16 (refcount p idx - 1)) p in
  if refcount q idx =? 0 then
    let q := frame_mark_free idx q in
    let q := set_free_count (u32 (s_free_count q + 1)) q in
    if idx <? s_next_free q then set_next_free idx q else q
  else q.

Definition pmm_free_frame (addr : Z) (p : pmm) : pmm := pmm_release_frame addr p.

Definition pmm_free_contiguous_frames (addr count : Z) (p : pmm) : pmm :=
  if count =? 0 then p else
  foldl (fun q off => pmm_free_frame (u32 (addr + off * PMM_FRAME_SIZE)) q) p (up_to 0 count 1).

Definition pmm_frame_refcount (addr : Z) (p : pmm) : Z :=
  if (addr <? PMM_BASE) || (s_max_phys p <=? addr) then 0 else refcount p (addr_to_idx addr).

Definition pmm_free_count (p : pmm) : Z := s_free_count p.
Definition pmm_total_count (p : pmm) : Z := s_total_count p.

Definition pmm_used_count (p : pmm) : Z :=
  if s_free_count p <=? s_total_count p then s_total_count p - s_free_count p else 0.

Definition pmm_refcounted_count (p : pmm) : Z := pmm_used_count p.

Definition pmm_shared_count (p : pmm) : Z :=
  foldl (fun count i => if frame_is_used p i && (1 <? refcount p i) then count + 1 else count)
        0 (up_to 0 (s_managed_frames p) 1).

(** Loop state of [pmm_largest_free_run]: the pair of [best] and [cur]. *)
Definition largest_run_step (p : pmm) (bc : Z * Z) (i : Z) : Z * Z :=
  let '(best, cur) := bc in
  if negb (frame_is_used p i) then
    let cur := cur + 1 in (if best <? cur then cur else best, cur)
  else (best, 0).

Definition pmm_largest_free_run (p : pmm) : Z :=
  fst (foldl (largest_run_step p) (0, 0) (up_to 0 (s_managed_frames p) 1)).

Definition pmm_max_physical_addr (p : pmm) : Z := s_max_phys p.
Definition pmm_managed_frame_count (p : pmm) : Z := s_managed_frames p.

(** ** Invariant and abstract view *)

(** What every reachable state of the allocator satisfies: the arrays have the
    sizes [pmm_metadata_init] gave them, a frame is marked used exactly when its
    reference count is positive, and the free counter is exact. *)
Record pmm_wf (p : pmm) : Prop := PmmWf {
  wf_managed : 0 < s_managed_frames p <= PMM_NUM_FRAMES;
  wf_max_phys : s_max_phys p = PMM_BASE + s_managed_frames p * PMM_FRAME_SIZE;
  wf_bitmap_bytes : s_bitmap_bytes p = (s_managed_frames p + 7) / 8;
  wf_bitmap_len : zlen (s_bitmap p) = s_bitmap_bytes p;
  wf_bitmap_range : Forall (fun b => 0 <= b < 256) (s_bitmap p);
  wf_refcount_len : zlen (s_refcount p) = s_managed_frames p;
  wf_refcount_range : Forall (fun r => 0 <= r < 65536) (s_refcount p);
  wf_used_refcount : forall i, 0 <= i < s_managed_frames p ->
    frame_is_used p i = negb (refcount p i =? 0);
  wf_free_count : s_free_count p =
    count_below (fun i => negb (frame_is_used p i)) (Z.to_nat (s_managed_frames p));
  wf_next_free : 0 <= s_next_free p < s_managed_frames p
}.

(** A frame base address the allocator manages. *)
Definition managed_frame (p : pmm) (a : Z) : Prop :=
  exists i, 0 <= i < s_managed_frames p /\ a = PMM_BASE + i * PMM_FRAME_SIZE.

(** The frame that contains a physical address. *)
Definition frame_base (a : Z) : Z := a - a mod PMM_FRAME_SIZE.

(** The abstract state: allocated frames, by base address, with their reference
    counts. *)
Definition pmm_table (p : pmm) : gmap Z Z :=
  list_to_map ((fun i => (PMM_BASE + i * PMM_FRAME_SIZE, refcount p i))
    <$> filter (fun i => Is_true (frame_is_used p i)) (seqZ 0 (s_managed_frames p))).

(** [q] is [p] with the use of frame [i] replaced: its count is [v] and its bit
    says whether [v] is positive. *)
Definition frame_updated (p q : pmm) (i v : Z) : Prop :=
  s_managed_frames q = s_managed_frames p /\ s_max_phys q = s_max_phys p /\
  s_bitmap_bytes q = s_bitmap_bytes p /\ zlen (s_bitmap q) = zlen (s_bitmap p) /\
  zlen (s_refcount q) = zlen (s_refcount p) /\
  Forall (fun b => 0 <= b < 256) (s_bitmap q) /\
  Forall (fun r => 0 <= r < 65536) (s_refcount q) /\
  (forall j, 0 <= j < s_managed_frames p ->
     frame_is_used q j = (if i =? j then negb (v =? 0) else frame_is_used p j) /\
     refcount q j = (if i =? j then v else refcount p j)).

(** ** Bit-level lemmas *)

Lemma frame_is_used_testbit p i :
  frame_is_used p i = Z.testbit (zget 0 (s_bitmap p) (i / 8)) (i mod 8).
Proof.
  unfold frame_is_used.
  assert (0 <= i mod 8) by (apply Z.mod_pos_bound; lia).
  rewrite (Z.land_ones _ 1), Z.shiftr_div_pow2 by lia.
  change (2 ^ 1) with 2. rewrite <- Z.testbit_spec' by lia.
  by destruct (Z.testbit _ _).
Qed.

Lemma testbit_u8_lor b k m :
  0 <= k < 8 -> 0 <= m < 8 ->
  Z.testbit (u8 (Z.lor b (u8 (Z.shiftl 1 k)))) m = (k =? m) || Z.testbit b m.
Proof.
  intros. unfold u8. rewrite Z.mod_pow2_bits_low, Z.lor_spec, Z.mod_pow2_bits_low by lia.
  rewrite Z.shiftl_1_l, Z.pow2_bits_eqb by lia. apply orb_comm.
Qed.

Lemma testbit_u8_land b k m :
  0 <= k < 8 -> 0 <= m < 8 ->
  Z.testbit (u8 (Z.land b (u8 (Z.lnot (Z.shiftl 1 k))))) m = negb (k =? m) && Z.testbit b m.
Proof.
  intros. unfold u8. rewrite Z.mod_pow2_bits_low, Z.land_spec, Z.mod_pow2_bits_low by lia.
  rewrite Z.lnot_spec, Z.shiftl_1_l, Z.pow2_bits_eqb by lia. apply andb_comm.
Qed.

(** Writing byte [i / 8] with [f] on bit [i mod 8]. *)
Lemma used_set_byte p i j b (g : bool -> bool) :
  0 <= i < 8 * zlen (s_bitmap p) -> 0 <= j ->
  (forall m, 0 <= m < 8 -> Z.testbit b m =
     if i mod 8 =? m then g (Z.testbit (zget 0 (s_bitmap p) (i / 8)) m)
     else Z.testbit (zget 0 (s_bitmap p) (i / 8)) m) ->
  frame_is_used (set_bitmap (zset (s_bitmap p) (i / 8) b) p) j =
  if i =? j then g (frame_is_used p j) else frame_is_used p j.
Proof.
  intros Hi Hj Hb. rewrite !frame_is_used_testbit. simpl.
  assert (0 <= i / 8 < zlen (s_bitmap p)) by dlia.
  rewrite zget_zset by dlia.
  destruct (Z.eqb_spec (i / 8) (j / 8)) as [E|E].
  - rewrite Hb by dlia. rewrite E. zcase; subst; try done; exfalso; dlia.
  - zcase; subst; done.
Qed.

Lemma used_mark_used p i j :
  0 <= i < 8 * zlen (s_bitmap p) -> 0 <= j ->
  frame_is_used (frame_mark_used i p) j = if i =? j then true else frame_is_used p j.
Proof.
  intros. unfold frame_mark_used. apply (used_set_byte p i j _ (fun _ => true)); [done..|].
  intros m Hm. rewrite testbit_u8_lor by dlia. by destruct (_ =? m).
Qed.

Lemma used_mark_free p i j :
  0 <= i < 8 * zlen (s_bitmap p) -> 0 <= j ->
  frame_is_used (frame_mark_free i p) j = if i =? j then false else frame_is_used p j.
Proof.
  intros. unfold frame_mark_free. apply (used_set_byte p i j _ (fun _ => false)); [done..|].
  intros m Hm. rewrite testbit_u8_land by dlia. by destruct (_ =? m).
Qed.

(** Assignments to the other variables do not change the bitmap or the counts. *)
Lemma used_set_refcount p i v j : frame_is_used (set_refcount i v p) j = frame_is_used p j.
Proof. done. Qed.

Lemma used_set_free_count p n j : frame_is_used (set_free_count n p) j = frame_is_used p j.
Proof. done. Qed.

Lemma used_set_next_free p n j : frame_is_used (set_next_free n p) j = frame_is_used p j.
Proof. done. Qed.

Lemma refcount_set_free_count p n j : refcount (set_free_count n p) j = refcount p j.
Proof. done. Qed.

Lemma refcount_set_next_free p n j : refcount (set_next_free n p) j = refcount p j.
Proof. done. Qed.

Create Rewrite HintDb pmm.
#[export] Hint Rewrite used_set_refcount used_set_free_count used_set_next_free
  refcount_set_free_count refcount_set_next_free : pmm.

(** ** The abstract table *)

Lemma idx_to_addr_eq p i :
  pmm_wf p -> 0 <= i < s_managed_frames p -> idx_to_addr i = PMM_BASE + i * PMM_FRAME_SIZE.
Proof.
  intros [Hm _ _ _ _ _ _ _ _ _] Hi. unfold idx_to_addr. apply u32_small.
  unfold PMM_NUM_FRAMES, PMM_SIZE, PMM_LIMIT, PMM_BASE, PMM_FRAME_SIZE in *. dlia.
Qed.

Lemma pmm_table_lookup p a n :
  pmm_table p !! a = Some n <->
  exists i, 0 <= i < s_managed_frames p /\ a = PMM_BASE + i * PMM_FRAME_SIZE /\
            frame_is_used p i = true /\ n = refcount p i.
Proof.
  unfold pmm_table. rewrite <- elem_of_list_to_map.
  - rewrite list_elem_of_fmap. split.
    + intros (i & [= -> ->] & Hi). apply list_elem_of_filter in Hi as [Hu Hi].
      apply elem_of_seqZ in Hi. exists i. split_and!; [lia..| |done].
      by apply Is_true_true.
    + intros (i & Hi & -> & Hu & ->). exists i. split; [done|].
      apply list_elem_of_filter. split; [by apply Is_true_true|].
      apply elem_of_seqZ. lia.
  - rewrite <- list_fmap_compose.
    apply NoDup_fmap_2; [|apply NoDup_filter, NoDup_seqZ].
    intros x y. simpl. unfold PMM_FRAME_SIZE. lia.
Qed.

Lemma pmm_table_idx p i :
  0 <= i < s_managed_frames p ->
  pmm_table p !! (PMM_BASE + i * PMM_FRAME_SIZE) =
  if frame_is_used p i then Some (refcount p i) else None.
Proof.
  intros Hi. destruct (pmm_table p !! _) as [n|] eqn:E.
  - apply pmm_table_lookup in E as (j & Hj & Ej & Hu & ->).
    assert (i = j) as -> by (unfold PMM_FRAME_SIZE in Ej; lia). by rewrite Hu.
  - destruct (frame_is_used p i) eqn:Hu; [|done].
    assert (pmm_table p !! (PMM_BASE + i * PMM_FRAME_SIZE) = Some (refcount p i)) as E2.
    { apply pmm_table_lookup. by exists i. }
    congruence.
Qed.

Lemma pmm_table_unmanaged p a : ~ managed_frame p a -> pmm_table p !! a = None.
Proof.
  intros H. destruct (pmm_table p !! a) as [n|] eqn:E; [|done].
  apply pmm_table_lookup in E as (i & Hi & -> & _). destruct H. by exists i.
Qed.

Lemma frame_updated_table p q i v :
  0 <= i < s_managed_frames p -> frame_updated p q i v ->
  pmm_table q =
    if v =? 0 then delete (PMM_BASE + i * PMM_FRAME_SIZE) (pmm_table p)
    else <[PMM_BASE + i * PMM_FRAME_SIZE := v]> (pmm_table p).
Proof.
  intros Hi (Hm & _ & _ & _ & _ & _ & _ & Hj). apply map_eq. intros a.
  destruct (decide (a = PMM_BASE + i * PMM_FRAME_SIZE)) as [->|Hne].
  - rewrite pmm_table_idx by (rewrite Hm; lia). destruct (Hj i Hi) as [-> ->].
    rewrite Z.eqb_refl. destruct (v =? 0); simpl.
    + by rewrite lookup_delete_eq.
    + by rewrite lookup_insert_eq.
  - trans (pmm_table p !! a).
    + apply option_eq. intros n. rewrite !pmm_table_lookup, Hm.
      split; intros (j & Hjr & -> & Hu & ->); exists j; destruct (Hj j Hjr) as [E1 E2];
        assert ((i =? j) = false) as Eij by (apply Z.eqb_neq; congruence);
        rewrite Eij in E1, E2; split_and!; congruence || lia.
    + destruct (v =? 0).
      * by rewrite lookup_delete_ne.
      * by rewrite lookup_insert_ne.
Qed.

Lemma frame_updated_wf p q i v :
  pmm_wf p -> 0 <= i < s_managed_frames p -> 0 <= v < 65536 -> frame_updated p q i v ->
  s_free_count q = s_free_count p + (if frame_is_used p i then 1 else 0)
                                  - (if v =? 0 then 0 else 1) ->
  0 <= s_next_free q < s_managed_frames p ->
  pmm_wf q.
Proof.
  intros Hp Hi Hv (Hm & Hx & Hb & Hbl & Hrl & Hbr & Hrr & Hj) Hf Hn.
  destruct Hp as [H1 H2 H3 H4 H5 H6 H7 H8 H9 H10].
  constructor; rewrite ?Hm, ?Hx, ?Hb, ?Hbl, ?Hrl; try done.
  - intros j Hjr. destruct (Hj j Hjr) as [-> ->]. rewrite H8 by done. by destruct (i =? j).
  - rewrite Hf, H9.
    pose proof (count_below_update (fun i => negb (frame_is_used q i))
      (fun i => negb (frame_is_used p i)) (Z.to_nat (s_managed_frames p)) i ltac:(lia)) as E.
    lapply E; clear E.
    + intros E. destruct (Hj i Hi) as [Hu _]. rewrite Z.eqb_refl in Hu. rewrite Hu in E.
      destruct (frame_is_used p i), (v =? 0); simpl in *; lia.
    + intros j Hjr Hne. destruct (Hj j ltac:(lia)) as [-> _].
      rewrite (proj2 (Z.eqb_neq i j)) by lia. done.
Qed.

Lemma frame_updated_used p i v :
  pmm_wf p -> 0 <= i < s_managed_frames p -> 0 < v < 65536 ->
  frame_updated p (set_refcount i v (frame_mark_used i p)) i v.
Proof.
  intros [H1 H2 H3 H4 H5 H6 H7 H8 H9 H10] Hi Hv.
  assert (0 <= i < 8 * zlen (s_bitmap p)) by dlia.
  repeat split; simpl; rewrite ?zlen_zset; auto.
  - apply Forall_zset; [done|apply u8_range].
  - apply Forall_zset; [done|lia].
  - rewrite used_set_refcount, used_mark_used by lia. zcase; done || lia.
  - unfold refcount. simpl. rewrite zget_zset by lia. done.
Qed.

Lemma frame_updated_count p i v :
  pmm_wf p -> 0 <= i < s_managed_frames p -> 0 < v < 65536 -> frame_is_used p i = true ->
  frame_updated p (set_refcount i v p) i v.
Proof.
  intros [H1 H2 H3 H4 H5 H6 H7 H8 H9 H10] Hi Hv Hu.
  repeat split; simpl; rewrite ?zlen_zset; auto.
  - apply Forall_zset; [done|lia].
  - rewrite used_set_refcount. zcase; subst; simpl; congruence || lia.
  - unfold refcount. simpl. rewrite zget_zset by lia. done.
Qed.

Lemma frame_updated_free p i :
  pmm_wf p -> 0 <= i < s_managed_frames p ->
  frame_updated p (set_refcount i 0 (frame_mark_free i p)) i 0.
Proof.
  intros [H1 H2 H3 H4 H5 H6 H7 H8 H9 H10] Hi.
  assert (0 <= i < 8 * zlen (s_bitmap p)) by dlia.
  repeat split; simpl; rewrite ?zlen_zset; auto.
  - apply Forall_zset; [done|apply u8_range].
  - apply Forall_zset; [done|lia].
  - rewrite used_set_refcount, used_mark_free by lia. by zcase.
  - unfold refcount. simpl. rewrite zget_zset by lia. done.
Qed.

(** ** Specification of the operations on the abstract table *)

Definition spec_retain (a : Z) (t : gmap Z Z) : bool * gmap Z Z :=
  match t !! a with
  | Some n => if n =? 0xFFFF then (false, t) else (true, <[a := n + 1]> t)
  | None => (false, t)
  end.

Definition spec_release (a : Z) (t : gmap Z Z) : gmap Z Z :=
  match t !! a with
  | Some n => if n =? 1 then delete a t else <[a := n - 1]> t
  | None => t
  end.

(** The variables no operation after [pmm_init] assigns. *)
Definition same_window (p q : pmm) : Prop :=
  s_managed_frames q = s_managed_frames p /\ s_max_phys q = s_max_phys p /\
  s_total_count q = s_total_count p /\ s_ready q = s_ready p.

Lemma same_window_refl p : same_window p p.
Proof. done. Qed.

Lemma same_window_trans p q r : same_window p q -> same_window q r -> same_window p r.
Proof. unfold same_window. intuition congruence. Qed.
#[export] Hint Resolve same_window_refl same_window_trans : smallos.

Lemma same_window_managed p q a : same_window p q -> managed_frame q a <-> managed_frame p a.
Proof. unfold same_window, managed_frame. intros (-> & _). done. Qed.

(** ** Addresses *)

Ltac pmm_consts :=
  unfold PMM_NUM_FRAMES, PMM_SIZE, PMM_LIMIT, PMM_FALLBACK_SIZE, PMM_BASE, PMM_FRAME_SIZE in *.

Lemma addr_to_idx_spec p a :
  pmm_wf p -> PMM_BASE <= a < s_max_phys p ->
  0 <= addr_to_idx a < s_managed_frames p /\
  frame_base a = PMM_BASE + addr_to_idx a * PMM_FRAME_SIZE.
Proof.
  intros [Hm Hx _ _ _ _ _ _ _ _] Ha. unfold addr_to_idx, frame_base. rewrite Hx in Ha.
  pmm_consts. rewrite u32_small by dlia. split; dlia.
Qed.

Lemma frame_base_managed p a :
  pmm_wf p -> PMM_BASE <= a < s_max_phys p -> managed_frame p (frame_base a).
Proof.
  intros Hp Ha. destruct (addr_to_idx_spec p a Hp Ha) as [Hi E].
  exists (addr_to_idx a). split; done.
Qed.

Lemma frame_base_outside p a :
  pmm_wf p -> ~ (PMM_BASE <= a < s_max_phys p) -> ~ managed_frame p (frame_base a).
Proof.
  intros [Hm Hx _ _ _ _ _ _ _ _] Ha (i & Hi & E). unfold frame_base in E. rewrite Hx in Ha.
  pmm_consts. apply Ha. dlia.
Qed.

Lemma managed_frame_range p a :
  pmm_wf p -> managed_frame p a ->
  PMM_BASE <= a /\ a + PMM_FRAME_SIZE <= s_max_phys p /\ s_max_phys p <= PMM_LIMIT /\
  a mod PMM_FRAME_SIZE = 0 /\ frame_base a = a.
Proof.
  intros [Hm Hx _ _ _ _ _ _ _ _] (i & Hi & ->). rewrite Hx. unfold frame_base.
  pmm_consts. split_and!; dlia.
Qed.

Lemma table_frame_base p a :
  pmm_wf p -> PMM_BASE <= a < s_max_phys p ->
  pmm_table p !! frame_base a =
  if frame_is_used p (addr_to_idx a) then Some (refcount p (addr_to_idx a)) else None.
Proof.
  intros Hp Ha. destruct (addr_to_idx_spec p a Hp Ha) as [Hi ->]. by apply pmm_table_idx.
Qed.

Lemma refcount_range p i : pmm_wf p -> 0 <= refcount p i < 65536.
Proof.
  intros [_ _ _ _ _ _ Hr _ _ _]. apply (Forall_zget (fun r => 0 <= r < 65536)); [done|lia].
Qed.

Lemma refcount_used p i :
  pmm_wf p -> 0 <= i < s_managed_frames p -> frame_is_used p i = true -> 0 < refcount p i.
Proof.
  intros Hp Hi Hu. pose proof (refcount_range p i Hp).
  rewrite (wf_used_refcount p Hp i Hi) in Hu. lia.
Qed.

Lemma free_count_bounds p : pmm_wf p -> 0 <= s_free_count p <= s_managed_frames p.
Proof.
  intros Hp. rewrite (wf_free_count p Hp).
  pose proof (count_below_bounds (fun i => negb (frame_is_used p i)) (Z.to_nat (s_managed_frames p))).
  pose proof (wf_managed p Hp). lia.
Qed.

Lemma free_count_u32 p d : pmm_wf p -> 0 <= s_free_count p + d <= 65536 ->
  u32 (s_free_count p + d) = s_free_count p + d.
Proof. intros. apply u32_small. lia. Qed.

Lemma free_count_zero p i :
  pmm_wf p -> s_free_count p = 0 -> 0 <= i < s_managed_frames p -> frame_is_used p i = true.
Proof.
  intros Hp Hf Hi. rewrite (wf_free_count p Hp) in Hf.
  destruct (frame_is_used p i) eqn:E; [done|].
  pose proof (count_below_pos (fun i => negb (frame_is_used p i))
    (Z.to_nat (s_managed_frames p)) i ltac:(lia) ltac:(cbn beta; by rewrite E)). lia.
Qed.

(** ** Single-frame operations against the specification *)

Lemma alloc_scan_some fuel i p idx :
  0 < s_managed_frames p -> alloc_scan fuel i p = Some idx ->
  0 <= idx < s_managed_frames p /\ frame_is_used p idx = false.
Proof.
  intros Hm. revert i. induction fuel as [|fuel IH]; intros i; simpl; [done|].
  destruct (frame_is_used p (u32 _ mod _)) eqn:E; simpl; [apply IH|]. intros [= <-].
  split; [apply Z.mod_pos_bound; lia|done].
Qed.

Lemma alloc_scan_none fuel i p k :
  alloc_scan fuel i p = None -> i <= k < i + Z.of_nat fuel ->
  frame_is_used p (u32 (s_next_free p + k) mod s_managed_frames p) = true.
Proof.
  revert i. induction fuel as [|fuel IH]; intros i H Hk; [lia|]. simpl in H.
  destruct (frame_is_used p (u32 (_ + i) mod _)) eqn:E; simpl in H; [|done].
  destruct (Z.eq_dec k i) as [->|]; [done|]. apply (IH (i + 1)); [done|lia].
Qed.

(** The circular scan visits every managed frame. *)
Lemma alloc_scan_complete p :
  pmm_wf p -> 0 < s_free_count p ->
  exists idx, alloc_scan (Z.to_nat (s_managed_frames p)) 0 p = Some idx.
Proof.
  intros Hp Hf. destruct (alloc_scan _ 0 p) as [idx|] eqn:E; [by exists idx|].
  rewrite (wf_free_count p Hp) in Hf.
  apply Z.le_succ_l, count_below_exists in Hf as (j & Hj & Hu).
  pose proof (wf_managed p Hp). pose proof (wf_next_free p Hp).
  set (m := s_managed_frames p) in *.
  pose proof (Z.mod_pos_bound (j - s_next_free p) m ltac:(lia)).
  pose proof (alloc_scan_none _ _ _ ((j - s_next_free p) mod m) E ltac:(lia)) as Hk.
  rewrite u32_small in Hk by (pmm_consts; dlia).
  rewrite Zplus_mod_idemp_r in Hk.
  replace (s_next_free p + (j - s_next_free p)) with j in Hk by lia.
  fold m in Hk. rewrite Z.mod_small in Hk by lia. by rewrite Hk in Hu.
Qed.

Lemma pmm_alloc_frame_some p :
  pmm_wf p -> 0 < s_free_count p ->
  exists a q, pmm_alloc_frame p = (a, q) /\ managed_frame p a /\ pmm_table p !! a = None /\
    pmm_table q = <[a := 1]> (pmm_table p) /\ s_free_count q = s_free_count p - 1 /\
    same_window p q /\ pmm_wf q.
Proof.
  intros Hp Hf. destruct (alloc_scan_complete p Hp Hf) as [idx Hs].
  pose proof (wf_managed p Hp) as Hm.
  destruct (alloc_scan_some _ _ _ _ (proj1 Hm) Hs) as [Hi Hu].
  unfold pmm_alloc_frame. rewrite (proj2 (Z.eqb_neq _ _)) by lia. rewrite Hs.
  rewrite (idx_to_addr_eq p idx Hp Hi). simpl.
  pose proof (free_count_bounds p Hp). rewrite u32_small by (pmm_consts; dlia).
  set (q := set_next_free _ _).
  assert (frame_updated p q idx 1) as Hq
    by exact (frame_updated_used p idx 1 Hp Hi ltac:(lia)).
  exists (PMM_BASE + idx * PMM_FRAME_SIZE), q. split_and!; [done| |..].
  - by exists idx.
  - by rewrite (pmm_table_idx p idx Hi), Hu.
  - exact (frame_updated_table p q idx 1 Hi Hq).
  - done.
  - done.
  - apply (frame_updated_wf p q idx 1 Hp Hi ltac:(lia) Hq); [rewrite Hu; simpl; lia|].
    apply Z.mod_pos_bound. lia.
Qed.

Lemma pmm_alloc_frame_none p : s_free_count p = 0 -> pmm_alloc_frame p = (0, p).
Proof. intros H. unfold pmm_alloc_frame. by rewrite H. Qed.

Lemma pmm_retain_frame_table p a b q :
  pmm_wf p -> pmm_retain_frame a p = (b, q) ->
  (b, pmm_table q) = spec_retain (frame_base a) (pmm_table p) /\
  s_free_count q = s_free_count p /\ same_window p q /\ pmm_wf q.
Proof.
  intros Hp. unfold pmm_retain_frame, spec_retain.
  destruct ((a <? PMM_BASE) || (s_max_phys p <=? a)) eqn:Ea.
  { intros [= <- <-]. by rewrite pmm_table_unmanaged by (apply frame_base_outside; [done|lia]). }
  assert (PMM_BASE <= a < s_max_phys p) as Ha by lia.
  destruct (addr_to_idx_spec p a Hp Ha) as [Hi Eb]. rewrite table_frame_base by done.
  destruct (frame_is_used p (addr_to_idx a)) eqn:Hu; simpl; [|by intros [= <- <-]].
  destruct (refcount p (addr_to_idx a) =? 65535) eqn:E; [by intros [= <- <-]|].
  intros [= <- <-]. pose proof (refcount_range p (addr_to_idx a) Hp).
  rewrite u16_small by lia. set (v := refcount p (addr_to_idx a) + 1).
  assert (frame_updated p (set_refcount (addr_to_idx a) v p) (addr_to_idx a) v) as Hq
    by (apply frame_updated_count; try done; lia).
  split_and!; try done.
  - rewrite (frame_updated_table _ _ _ _ Hi Hq), Eb.
    rewrite (proj2 (Z.eqb_neq v 0)) by lia. done.
  - apply (frame_updated_wf p _ _ v Hp Hi ltac:(lia) Hq); simpl;
      [rewrite Hu; zcase; lia|apply Hp].
Qed.

Lemma pmm_release_frame_table p a :
  pmm_wf p ->
  pmm_table (pmm_release_frame a p) = spec_release (frame_base a) (pmm_table p) /\
  same_window p (pmm_release_frame a p) /\ pmm_wf (pmm_release_frame a p).
Proof.
  intros Hp. unfold pmm_release_frame, spec_release.
  destruct ((a <? PMM_BASE) || (s_max_phys p <=? a)) eqn:Ea.
  { by rewrite pmm_table_unmanaged by (apply frame_base_outside; [done|lia]). }
  assert (PMM_BASE <= a < s_max_phys p) as Ha by lia.
  destruct (addr_to_idx_spec p a Hp Ha) as [Hi Eb]. rewrite table_frame_base by done.
  set (i := addr_to_idx a) in *.
  destruct (frame_is_used p i) eqn:Hu; simpl; [|done].
  pose proof (refcount_used p i Hp Hi Hu). pose proof (refcount_range p i Hp).
  rewrite (proj2 (Z.eqb_neq (refcount p i) 0)) by lia.
  assert (refcount (set_refcount i (u16 (refcount p i - 1)) p) i = refcount p i - 1) as Er.
  { unfold refcount at 1. simpl. rewrite zget_zset_eq by (rewrite (wf_refcount_len p Hp); lia).
    apply u16_small. lia. }
  rewrite Er. replace (refcount p i - 1 =? 0) with (refcount p i =? 1) by lia.
  destruct (Z.eqb_spec (refcount p i) 1) as [E1|E1].
  - rewrite E1. change (u16 (1 - 1)) with 0.
    pose proof (free_count_bounds p Hp). pose proof (wf_managed p Hp).
    rewrite u32_small by (simpl; pmm_consts; dlia).
    set (q := if _ <? _ then _ else _).
    assert (frame_updated p q i 0) as Hq.
    { pose proof (frame_updated_free p i Hp Hi) as F. subst q. case_match; exact F. }
    split_and!.
    + rewrite (frame_updated_table _ _ _ _ Hi Hq), Eb. done.
    + subst q. by case_match.
    + apply (frame_updated_wf p q i 0 Hp Hi ltac:(lia) Hq);
        subst q; case_match; simpl in *; rewrite ?Hu; try lia; apply Hp.
  - rewrite u16_small by lia. set (v := refcount p i - 1).
    assert (frame_updated p (set_refcount i v p) i v) as Hq
      by (apply frame_updated_count; try done; lia).
    split_and!; [|done|].
    + rewrite (frame_updated_table _ _ _ _ Hi Hq), Eb.
      rewrite (proj2 (Z.eqb_neq v 0)) by lia. done.
    + apply (frame_updated_wf p _ i v Hp Hi ltac:(lia) Hq); simpl;
        [rewrite Hu; zcase; lia|apply Hp].
Qed.

(** ** Contiguous runs *)

(** [count] free frames starting at index [s]. *)
Definition free_run (p : pmm) (s count : Z) : Prop :=
  0 <= s /\ s + count <= s_managed_frames p /\
  forall k, s <= k < s + count -> frame_is_used p k = false.

Definition spec_alloc_run (a count : Z) (t : gmap Z Z) : gmap Z Z :=
  foldl (fun t k => <[a + k * PMM_FRAME_SIZE := 1]> t) t (up_to 0 count 1).

Definition spec_release_run (a count : Z) (t : gmap Z Z) : gmap Z Z :=
  foldl (fun t k => spec_release (a + k * PMM_FRAME_SIZE) t) t (up_to 0 count 1).

Lemma first_used_none fuel start off p k :
  first_used fuel start off p = None -> off <= k < off + Z.of_nat fuel ->
  frame_is_used p (start + k) = false.
Proof.
  revert off. induction fuel as [|fuel IH]; intros off H Hk; [lia|]. simpl in H.
  destruct (frame_is_used p (start + off)) eqn:E; [done|].
  destruct (Z.eq_dec k off) as [->|]; [done|]. apply (IH (off + 1)); [done|lia].
Qed.

Lemma first_used_some fuel start off p o :
  first_used fuel start off p = Some o ->
  off <= o < off + Z.of_nat fuel /\ frame_is_used p (start + o) = true.
Proof.
  revert off. induction fuel as [|fuel IH]; intros off H; [done|]. simpl in H.
  destruct (frame_is_used p (start + off)) eqn:E.
  - injection H as <-. split; [lia|done].
  - apply IH in H as [? ?]. split; [lia|done].
Qed.

Lemma run_scan_some fuel start count p s :
  0 <= start -> 0 < count -> run_scan fuel start count p = Some s ->
  start <= s /\ free_run p s count /\
  forall s', start <= s' < s -> ~ free_run p s' count.
Proof.
  intros H0 Hc. revert start H0. induction fuel as [|fuel IH]; intros start H0 Hr; [done|].
  simpl in Hr. destruct (Z.leb_spec (start + count) (s_managed_frames p)); [|done].
  destruct (first_used _ start 0 p) as [o|] eqn:E.
  - apply first_used_some in E as [Ho Hu]. apply IH in Hr as (H1 & H2 & H3); [|lia].
    split_and!; [lia|done|]. intros s' Hs' (Ha & Hb & Hf).
    destruct (Z.le_gt_cases s' (start + o)).
    + rewrite Hf in Hu by lia. done.
    + apply (H3 s'); [lia|]. done.
  - injection Hr as <-. split_and!; [lia| |lia]. split_and!; [lia|lia|].
    intros k Hk. replace k with (start + (k - start)) by lia.
    apply (first_used_none _ _ _ _ _ E). lia.
Qed.

Lemma run_scan_none fuel start count p s :
  0 < count -> s_managed_frames p < start + Z.of_nat fuel -> start <= s ->
  run_scan fuel start count p = None -> ~ free_run p s count.
Proof.
  intros Hc. revert start. induction fuel as [|fuel IH]; intros start Hfuel Hs Hr (H1 & H2 & H3).
  { lia. }
  simpl in Hr. destruct (Z.leb_spec (start + count) (s_managed_frames p)); [|lia].
  destruct (first_used _ start 0 p) as [o|] eqn:E; [|done].
  apply first_used_some in E as [Ho Hu].
  destruct (Z.le_gt_cases s (start + o)).
  - rewrite H3 in Hu by lia. done.
  - apply (IH (start + o + 1)); [lia|lia|done|]. done.
Qed.

(** Marking the [count] frames from [s]; the free counter is adjusted after the
    loop, so the invariant of the loop is stated with it already adjusted. *)
Lemma mark_run_table p s count :
  pmm_wf p -> 0 < count -> free_run p s count ->
  let q := foldl (fun q off => set_refcount (s + off) 1 (frame_mark_used (s + off) q))
                 p (up_to 0 count 1) in
  s_free_count q = s_free_count p /\ same_window p q /\
  pmm_wf (set_free_count (s_free_count p - count) q) /\
  pmm_table q = spec_alloc_run (PMM_BASE + s * PMM_FRAME_SIZE) count (pmm_table p).
Proof.
  intros Hp Hc (Hs & Hle & Hfree).
  refine (proj1 (foldl_count (fun k q =>
    (s_free_count q = s_free_count p /\ same_window p q /\
     pmm_wf (set_free_count (s_free_count p - k) q) /\
     pmm_table q = spec_alloc_run (PMM_BASE + s * PMM_FRAME_SIZE) k (pmm_table p)) /\
    forall j, s + k <= j < s + count -> frame_is_used q j = false)
    (fun q off => set_refcount (s + off) 1 (frame_mark_used (s + off) q)) count p _ _ _)).
  - lia.
  - replace (s + 0) with s by lia. rewrite Z.sub_0_r. split_and!; try done.
    by destruct p.
  - intros k q Hk ((Hf & Hw & Hq & Ht) & Hu). set (r := set_free_count _ q) in *.
    assert (0 <= s + k < s_managed_frames r) as Hi by (destruct Hw as (Hm & _); simpl; lia).
    pose proof (frame_updated_used r (s + k) 1 Hq Hi ltac:(lia)) as Hup.
    split_and!; simpl; try done.
    + refine (frame_updated_wf r _ (s + k) 1 Hq Hi ltac:(lia) _ _ _); [exact Hup| |apply Hq].
      assert (frame_is_used r (s + k) = false) as -> by (apply Hu; lia). simpl. lia.
    + unfold spec_alloc_run. rewrite up_to_snoc, foldl_app by lia. simpl.
      change (pmm_table (set_refcount (s + k) 1 (frame_mark_used (s + k) r)) =
        <[PMM_BASE + s * PMM_FRAME_SIZE + k * PMM_FRAME_SIZE := 1]>
          (spec_alloc_run (PMM_BASE + s * PMM_FRAME_SIZE) k (pmm_table p))).
      rewrite (frame_updated_table r _ (s + k) 1 Hi Hup), <- Ht.
      simpl. f_equal. unfold PMM_FRAME_SIZE. lia.
    + intros j Hj. rewrite used_set_refcount, used_mark_used.
      * rewrite (proj2 (Z.eqb_neq _ _)) by lia. apply Hu. lia.
      * destruct Hq as [? ? E1 E2]. simpl in *. rewrite E2, E1. dlia.
      * lia.
Qed.

(** A free run is at most as long as the number of free frames. *)
Lemma free_run_count p s count :
  pmm_wf p -> 0 <= count -> free_run p s count -> count <= s_free_count p.
Proof.
  intros Hp Hc (Hs & Hle & Hf). rewrite (wf_free_count p Hp).
  apply (count_below_segment _ _ s count); [lia..|]. intros k Hk. by rewrite Hf.
Qed.

Lemma pmm_alloc_contiguous_frames_some p count s :
  pmm_wf p -> 0 < count -> free_run p s count ->
  exists s' q, free_run p s' count /\ (forall t, 0 <= t < s' -> ~ free_run p t count) /\
    pmm_alloc_contiguous_frames count p = (PMM_BASE + s' * PMM_FRAME_SIZE, q) /\
    pmm_table q = spec_alloc_run (PMM_BASE + s' * PMM_FRAME_SIZE) count (pmm_table p) /\
    s_free_count q = s_free_count p - count /\ same_window p q /\ pmm_wf q.
Proof.
  intros Hp Hc Hrun. pose proof (free_run_count p s count Hp ltac:(lia) Hrun) as Hfc.
  pose proof (free_count_bounds p Hp). pose proof (wf_managed p Hp) as Hm.
  unfold pmm_alloc_contiguous_frames.
  rewrite (proj2 (Z.eqb_neq _ _)), !(proj2 (Z.ltb_ge _ _)) by lia. simpl orb.
  destruct (run_scan _ 0 count p) as [s'|] eqn:E.
  - apply run_scan_some in E as (Hs' & Hrun' & Hmin); [|lia..].
    destruct (mark_run_table p s' count Hp Hc Hrun') as (Hf & Hw & Hq & Ht).
    set (r := foldl _ p _) in *.
    rewrite (idx_to_addr_eq p s' Hp) by (destruct Hrun' as (? & ? & _); lia).
    exists s'. eexists. split_and!; [done|done|done| | | |].
    + exact Ht.
    + simpl. rewrite Hf, u32_small; [done|pmm_consts; dlia].
    + exact Hw.
    + simpl. rewrite Hf, u32_small by (pmm_consts; dlia).
      destruct Hq as [H1 H2 H3 H4 H5 H6 H7 H8 H9 H10]. constructor; try assumption.
      simpl. apply Z.mod_pos_bound. simpl in H1. lia.
  - exfalso. refine (run_scan_none _ 0 count p s Hc _ _ E Hrun); [lia|].
    by destruct Hrun.
Qed.

Lemma pmm_alloc_contiguous_frames_none p count :
  pmm_wf p -> 0 <= count -> (forall s, ~ free_run p s count) ->
  pmm_alloc_contiguous_frames count p = (0, p).
Proof.
  intros Hp Hc Hno. unfold pmm_alloc_contiguous_frames.
  destruct (_ || _) eqn:E; [done|]. destruct (run_scan _ 0 count p) as [s|] eqn:Es; [|done].
  apply run_scan_some in Es as (_ & Hrun & _); [|lia..]. by destruct (Hno s).
Qed.

Lemma pmm_free_contiguous_frames_table p a count :
  pmm_wf p -> 0 <= count -> 0 <= a -> a mod PMM_FRAME_SIZE = 0 ->
  a + count * PMM_FRAME_SIZE <= 2 ^ 32 ->
  let q := pmm_free_contiguous_frames a count p in
  pmm_table q = spec_release_run a count (pmm_table p) /\ same_window p q /\ pmm_wf q.
Proof.
  intros Hp Hc Ha Hal Hle. unfold pmm_free_contiguous_frames.
  destruct (Z.eqb_spec count 0) as [->|Hne]; [done|].
  apply (foldl_count (fun k q =>
    pmm_table q = spec_release_run a k (pmm_table p) /\ same_window p q /\ pmm_wf q)); [lia|done|].
  intros k q Hk (Ht & Hw & Hq). unfold pmm_free_frame.
  pmm_consts. rewrite u32_small by lia.
  destruct (pmm_release_frame_table q (a + k * 4096) Hq) as (E & Hw' & Hq').
  split_and!; [|by eapply same_window_trans|done].
  unfold spec_release_run in *. rewrite up_to_snoc, foldl_app, <- Ht by lia. simpl.
  rewrite E. f_equal. unfold frame_base. pmm_consts. dlia.
Qed.

(** ** Marking ranges *)

Lemma pmm_mark_idx_used_table p i :
  pmm_wf p -> 0 <= i < s_managed_frames p ->
  pmm_table (pmm_mark_idx_used i p) =
    partial_alter (fun o => Some (default 1 o)) (PMM_BASE + i * PMM_FRAME_SIZE) (pmm_table p) /\
  same_window p (pmm_mark_idx_used i p) /\ pmm_wf (pmm_mark_idx_used i p).
Proof.
  intros Hp Hi. pose proof (pmm_table_idx p i Hi) as Hl. unfold pmm_mark_idx_used.
  destruct (frame_is_used p i) eqn:Hu; simpl.
  - pose proof (refcount_used p i Hp Hi Hu).
    rewrite (proj2 (Z.eqb_neq _ _)) by lia. split_and!; [|done..].
    apply map_eq. intros a. destruct (decide (a = PMM_BASE + i * PMM_FRAME_SIZE)) as [->|].
    + by rewrite lookup_partial_alter_eq, Hl.
    + by rewrite lookup_partial_alter_ne.
  - assert (0 < s_free_count p).
    { destruct (Z.lt_ge_cases 0 (s_free_count p)); [done|].
      pose proof (free_count_bounds p Hp).
      rewrite (free_count_zero p i) in Hu by (done || lia). done. }
    assert (refcount p i = 0).
    { rewrite (wf_used_refcount p Hp i Hi) in Hu. lia. }
    rewrite (proj2 (Z.ltb_lt _ _)) by done.
    rewrite refcount_set_free_count. change (refcount (frame_mark_used i p) i) with (refcount p i).
    rewrite (proj2 (Z.eqb_eq _ _)) by done.
    pose proof (frame_updated_used p i 1 Hp Hi ltac:(lia)) as Hq. split_and!; [|done|].
    + pose proof (frame_updated_table _ _ _ _ Hi Hq) as E.
      etrans; [exact E|]. simpl. apply map_eq. intros a. destruct (decide (a = PMM_BASE + i * PMM_FRAME_SIZE)) as [->|].
      * by rewrite lookup_partial_alter_eq, Hl, lookup_insert_eq.
      * by rewrite lookup_partial_alter_ne, lookup_insert_ne.
    + refine (frame_updated_wf p _ i 1 Hp Hi ltac:(lia) _ _ _); [exact Hq| |apply Hp].
      rewrite Hu. simpl. lia.
Qed.

Lemma pmm_mark_idx_free_table p i :
  pmm_wf p -> 0 <= i < s_managed_frames p ->
  pmm_table (pmm_mark_idx_free i p) =
    partial_alter (fun _ => None) (PMM_BASE + i * PMM_FRAME_SIZE) (pmm_table p) /\
  same_window p (pmm_mark_idx_free i p) /\ pmm_wf (pmm_mark_idx_free i p).
Proof.
  intros Hp Hi. pose proof (pmm_table_idx p i Hi) as Hl. unfold pmm_mark_idx_free.
  pose proof (free_count_bounds p Hp). pose proof (wf_managed p Hp).
  rewrite u32_small by (simpl; pmm_consts; dlia).
  set (q := set_refcount i 0 _).
  assert (frame_updated p q i 0) as Hq.
  { pose proof (frame_updated_free p i Hp Hi) as F. subst q.
    destruct (frame_is_used p i) eqn:Hu; [case_match; exact F|].
    destruct F as (F1 & F2 & F3 & F4 & F5 & F6 & F7 & F8).
    repeat split; simpl; rewrite ?zlen_zset; try done; try apply Hp.
    - rewrite used_set_refcount. zcase; subst; done.
    - by destruct (F8 j ltac:(done)) as [_ ?]. }
  split_and!.
  - rewrite (frame_updated_table _ _ _ _ Hi Hq). done.
  - subst q. destruct (frame_is_used p i); [case_match|]; done.
  - apply (frame_updated_wf p q i 0 Hp Hi ltac:(lia) Hq); subst q;
      destruct (frame_is_used p i) eqn:Hu; try case_match; simpl in *; try lia; apply Hp.
Qed.

(** The loop both range functions end with: [op] applies [g] to the entries of
    the frames from [start] (inclusive) to [stop] (exclusive). *)
Lemma mark_loop_table (op : Z -> pmm -> pmm) (g : option Z -> option Z) p start stop :
  (forall q i, pmm_wf q -> 0 <= i < s_managed_frames q ->
     pmm_table (op i q) = partial_alter g (PMM_BASE + i * PMM_FRAME_SIZE) (pmm_table q) /\
     same_window q (op i q) /\ pmm_wf (op i q)) ->
  pmm_wf p -> PMM_BASE <= start -> start mod PMM_FRAME_SIZE = 0 ->
  start < stop <= s_max_phys p -> stop mod PMM_FRAME_SIZE = 0 ->
  let q := foldl (fun q addr => op (addr_to_idx addr) q) p (up_to start stop PMM_FRAME_SIZE) in
  (forall a, managed_frame p a ->
     pmm_table q !! a = if (start <=? a) && (a <? stop) then g (pmm_table p !! a)
                        else pmm_table p !! a) /\
  same_window p q /\ pmm_wf q.
Proof.
  intros Hop Hp Hs Hsa Hstop Hsto.
  pose proof (foldl_up_to (fun k q =>
    (forall a, managed_frame p a ->
       pmm_table q !! a = if (start <=? a) && (a <? start + k * PMM_FRAME_SIZE)
                          then g (pmm_table p !! a) else pmm_table p !! a) /\
    same_window p q /\ pmm_wf q)
    (fun q addr => op (addr_to_idx addr) q) start stop PMM_FRAME_SIZE p) as L.
  simpl in L. rewrite Z.max_r in L by (pmm_consts; dlia).
  replace (start + (stop - start + PMM_FRAME_SIZE - 1) / PMM_FRAME_SIZE * PMM_FRAME_SIZE)
    with stop in L by (pmm_consts; dlia).
  apply L; clear L.
  - done.
  - split_and!; try done. intros a _. rewrite andb_comm. by zcase; try lia.
  - intros k q Hk Hlt (Ht & Hw & Hq).
    assert (PMM_BASE <= start + k * PMM_FRAME_SIZE < s_max_phys q) as Ha
      by (destruct Hw as (_ & -> & _); pmm_consts; lia).
    destruct (addr_to_idx_spec q _ Hq Ha) as [Hi Eb].
    destruct (Hop q _ Hq Hi) as (Et & Hw' & Hq').
    split_and!; [|by eapply same_window_trans|done].
    rewrite <- Eb in Et. intros a Hm. rewrite Et.
    assert (frame_base (start + k * PMM_FRAME_SIZE) = start + k * PMM_FRAME_SIZE) as ->
      by (unfold frame_base; pmm_consts; dlia).
    pose proof (managed_frame_range p a Hp Hm) as (Hr1 & Hr2 & Hr3 & Hr4 & _).
    destruct (decide (a = start + k * PMM_FRAME_SIZE)) as [->|Hne].
    + rewrite lookup_partial_alter_eq, Ht by done. f_equal.
      rewrite (proj2 (Z.ltb_ge _ _)) by lia. rewrite andb_false_r.
      pmm_consts. zcase; simpl; done || lia.
    + rewrite lookup_partial_alter_ne, Ht by done.
      pmm_consts. assert ((a <? start + k * 4096) = (a <? start + (k + 1) * 4096)) as ->; [|done].
      zcase; try done; exfalso; apply Hne; dlia.
Qed.

Lemma round_down_frame_eq a : 0 <= a < 2 ^ 32 -> round_down_frame a = a - a mod 4096.
Proof. exact (land_page_mask a). Qed.

Lemma round_up_frame_eq a :
  0 <= a <= PMM_LIMIT -> round_up_frame a = (a + 4095) - (a + 4095) mod 4096.
Proof.
  intros Ha. unfold round_up_frame. pmm_consts.
  rewrite u32_small by lia. replace (a + 4096 - 1) with (a + 4095) by lia.
  apply land_page_mask. lia.
Qed.

(** [pmm_mark_range_used] allocates exactly the free frames that intersect the
    range; the counts of frames already in use do not change. *)
Lemma pmm_mark_range_used_table p start stop :
  pmm_wf p -> 0 <= start < 2 ^ 32 -> 0 <= stop < 2 ^ 32 ->
  let q := pmm_mark_range_used start stop p in
  (forall a, managed_frame p a ->
     pmm_table q !! a = if (start <? a + PMM_FRAME_SIZE) && (a <? stop)
                        then Some (default 1 (pmm_table p !! a)) else pmm_table p !! a) /\
  same_window p q /\ pmm_wf q.
Proof.
  intros Hp Hs He. unfold pmm_mark_range_used.
  assert (Hsame : (forall a, managed_frame p a ->
      (start <? a + PMM_FRAME_SIZE) && (a <? stop) = false) ->
    (forall a, managed_frame p a ->
     pmm_table p !! a = if (start <? a + PMM_FRAME_SIZE) && (a <? stop)
                        then Some (default 1 (pmm_table p !! a)) else pmm_table p !! a) /\
    same_window p p /\ pmm_wf p).
  { intros Hno. split_and!; [|done..]. intros a Ha. by rewrite Hno. }
  pose proof (wf_managed p Hp) as Hm. pose proof (wf_max_phys p Hp) as Hx.
  destruct (_ || _) eqn:E.
  { apply Hsame. intros a Ha. pose proof (managed_frame_range p a Hp Ha). pmm_consts. lia. }
  set (s1 := if start <? PMM_BASE then _ else _). set (e1 := if s_max_phys p <? stop then _ else _).
  assert (PMM_BASE <= s1 < s_max_phys p) by (subst s1; pmm_consts; case_match; lia).
  assert (PMM_BASE < e1 <= s_max_phys p) by (subst e1; pmm_consts; case_match; lia).
  rewrite round_down_frame_eq, round_up_frame_eq by (pmm_consts; dlia).
  set (s2 := s1 - _). set (e2 := _ + 4095 - _).
  assert (PMM_BASE <= s2 < s_max_phys p /\ e2 <= s_max_phys p) as [Hs2 He2]
    by (pmm_consts; subst s2 e2; dlia).
  assert (forall a, managed_frame p a ->
    (start <? a + PMM_FRAME_SIZE) && (a <? stop) = (s2 <=? a) && (a <? e2)) as Hcond.
  { intros a Ha. pose proof (managed_frame_range p a Hp Ha) as (? & ? & ? & Hal & _).
    subst s1 e1 s2 e2. pmm_consts. apply eq_iff_eq_true. rewrite !andb_true_iff.
    repeat case_match; dlia. }
  destruct (Z.leb_spec e2 s2).
  - apply Hsame. intros a Ha. rewrite Hcond by done. lia.
  - destruct (mark_loop_table pmm_mark_idx_used (fun o => Some (default 1 o)) p s2 e2)
      as (Ht & Hw & Hq); try done; try (subst s2 e2; pmm_consts; dlia).
    { intros. by apply pmm_mark_idx_used_table. }
    split_and!; [|done..]. intros a Ha. by rewrite Ht, Hcond.
Qed.

(** [pmm_mark_range_free] frees exactly the frames that lie inside the range. *)
Lemma pmm_mark_range_free_table p start stop :
  pmm_wf p -> 0 <= start < 2 ^ 32 -> 0 <= stop < 2 ^ 32 ->
  let q := pmm_mark_range_free start stop p in
  (forall a, managed_frame p a ->
     pmm_table q !! a = if (start <=? a) && (a + PMM_FRAME_SIZE <=? stop)
                        then None else pmm_table p !! a) /\
  same_window p q /\ pmm_wf q.
Proof.
  intros Hp Hs He. unfold pmm_mark_range_free.
  assert (Hsame : (forall a, managed_frame p a ->
      (start <=? a) && (a + PMM_FRAME_SIZE <=? stop) = false) ->
    (forall a, managed_frame p a ->
     pmm_table p !! a = if (start <=? a) && (a + PMM_FRAME_SIZE <=? stop)
                        then None else pmm_table p !! a) /\
    same_window p p /\ pmm_wf p).
  { intros Hno. split_and!; [|done..]. intros a Ha. by rewrite Hno. }
  pose proof (wf_managed p Hp) as Hm. pose proof (wf_max_phys p Hp) as Hx.
  destruct (_ || _) eqn:E.
  { apply Hsame. intros a Ha. pose proof (managed_frame_range p a Hp Ha). pmm_consts. lia. }
  set (s1 := if start <? PMM_BASE then _ else _). set (e1 := if s_max_phys p <? stop then _ else _).
  assert (PMM_BASE <= s1 < s_max_phys p) by (subst s1; pmm_consts; case_match; lia).
  assert (PMM_BASE < e1 <= s_max_phys p) by (subst e1; pmm_consts; case_match; lia).
  rewrite round_down_frame_eq, round_up_frame_eq by (pmm_consts; dlia).
  set (s2 := _ + 4095 - _). set (e2 := e1 - _).
  assert (PMM_BASE <= s2 /\ e2 <= s_max_phys p) as [Hs2 He2]
    by (pmm_consts; subst s2 e2; dlia).
  assert (forall a, managed_frame p a ->
    (start <=? a) && (a + PMM_FRAME_SIZE <=? stop) = (s2 <=? a) && (a <? e2)) as Hcond.
  { intros a Ha. pose proof (managed_frame_range p a Hp Ha) as (? & ? & ? & Hal & _).
    subst s1 e1 s2 e2. pmm_consts. apply eq_iff_eq_true. rewrite !andb_true_iff.
    repeat case_match; dlia. }
  destruct (Z.leb_spec e2 s2).
  - apply Hsame. intros a Ha. rewrite Hcond by done. lia.
  - destruct (mark_loop_table pmm_mark_idx_free (fun _ => None) p s2 e2)
      as (Ht & Hw & Hq); try done; try (subst s2 e2; pmm_consts; dlia).
    { intros. by apply pmm_mark_idx_free_table. }
    split_and!; [|done..]. intros a Ha. by rewrite Ht, Hcond.
Qed.

(** ** Counting *)

Lemma filter_seqZ_count (f : Z -> bool) n :
  Z.of_nat (length (filter (fun i => Is_true (f i)) (seqZ 0 (Z.of_nat n)))) = count_below f n.
Proof.
  induction n as [|n IH]; [done|].
  rewrite seqZ_S, filter_app, length_app, Nat2Z.inj_add, IH, Z.add_0_l.
  cbn [count_below]. f_equal. rewrite filter_cons.
  by destruct (f (Z.of_nat n)).
Qed.

Lemma count_below_negb f n : count_below f n + count_below (fun i => negb (f i)) n = Z.of_nat n.
Proof. induction n as [|n IH]; simpl; [done|]. destruct (f _); simpl; lia. Qed.

(** The free counter and the abstract table account for every managed frame. *)
Lemma pmm_table_size p :
  pmm_wf p -> s_free_count p + Z.of_nat (size (pmm_table p)) = s_managed_frames p.
Proof.
  intros Hp. unfold pmm_table. rewrite map_size_list_to_map.
  - rewrite length_fmap. pose proof (wf_managed p Hp).
    replace (s_managed_frames p) with (Z.of_nat (Z.to_nat (s_managed_frames p))) at 1 by lia.
    rewrite filter_seqZ_count, (wf_free_count p Hp).
    pose proof (count_below_negb (frame_is_used p) (Z.to_nat (s_managed_frames p))). lia.
  - rewrite <- list_fmap_compose.
    apply NoDup_fmap_2; [|apply NoDup_filter, NoDup_seqZ].
    intros x y. simpl. unfold PMM_FRAME_SIZE. lia.
Qed.

(** Loop invariant of [pmm_largest_free_run] after the frames below [k]: [cur] is
    the length of the free run that ends at [k], [best] the longest run below [k]. *)
Definition largest_inv (p : pmm) (k : Z) (bc : Z * Z) : Prop :=
  let '(best, cur) := bc in
  0 <= cur <= k /\ cur <= best /\
  (forall j, k - cur <= j < k -> frame_is_used p j = false) /\
  (cur < k -> frame_is_used p (k - cur - 1) = true) /\
  (exists s, 0 <= s /\ s + best <= k /\ forall j, s <= j < s + best -> frame_is_used p j = false) /\
  (forall s c, 0 <= s -> 0 <= c -> s + c <= k ->
     (forall j, s <= j < s + c -> frame_is_used p j = false) -> c <= best).

Lemma largest_run_step_inv p k bc :
  0 <= k -> largest_inv p k bc -> largest_inv p (k + 1) (largest_run_step p bc k).
Proof.
  destruct bc as [best cur]. intros Hk (H1 & H2 & H3 & H4 & (s & Hs & Hse & Hsf) & H6).
  unfold largest_run_step. destruct (frame_is_used p k) eqn:Hu; simpl.
  - split_and!; [lia..| | |].
    + intros _. replace (k + 1 - 0 - 1) with k by lia. done.
    + exists s. split_and!; [lia..|done].
    + intros s' c Hs' Hc Hle Hf. destruct (Z.le_gt_cases (s' + c) k).
      * by apply (H6 s').
      * destruct (Z.eq_dec c 0); [lia|]. rewrite Hf in Hu by lia. done.
  - assert (forall j, k + 1 - (cur + 1) <= j < k + 1 -> frame_is_used p j = false) as Hrun.
    { intros j Hj. destruct (Z.eq_dec j k) as [->|]; [done|]. apply H3. lia. }
    split_and!.
    + lia.
    + lia.
    + destruct (_ <? _) eqn:E; lia.
    + exact Hrun.
    + intros Hlt. replace (k + 1 - (cur + 1) - 1) with (k - cur - 1) by lia. apply H4. lia.
    + destruct (_ <? _) eqn:E.
      * exists (k - cur). split_and!; [lia..|]. intros j Hj. apply Hrun. lia.
      * exists s. split_and!; [lia..|done].
    + intros s' c Hs' Hc Hle Hf. destruct (Z.le_gt_cases (s' + c) k) as [Hk'|Hk'].
      * specialize (H6 s' c Hs' Hc Hk' Hf). destruct (_ <? _) eqn:E; lia.
      * assert (c <= cur + 1); [|destruct (_ <? _) eqn:E; lia].
        destruct (Z.le_gt_cases c (cur + 1)); [done|].
        assert (frame_is_used p (k - cur - 1) = true) as Hx by (apply H4; lia).
        rewrite Hf in Hx by lia. done.
Qed.

Lemma pmm_largest_free_run_spec p :
  pmm_wf p ->
  (exists s, free_run p s (pmm_largest_free_run p)) /\
  (forall s count, 0 <= count -> free_run p s count -> count <= pmm_largest_free_run p).
Proof.
  intros Hp. pose proof (wf_managed p Hp) as Hm.
  assert (largest_inv p (s_managed_frames p)
    (foldl (largest_run_step p) (0, 0) (up_to 0 (s_managed_frames p) 1))) as Hinv.
  { apply (foldl_count (largest_inv p)); [lia| |intros; apply largest_run_step_inv; [lia|done]].
    split_and!; try lia. exists 0. split_and!; lia. }
  unfold pmm_largest_free_run.
  destruct (foldl (largest_run_step p) (0, 0) _) as [best cur]. simpl.
  destruct Hinv as (_ & _ & _ & _ & (s & ? & ? & ?) & Hmax). split.
  - exists s. split_and!; done.
  - intros s' c Hc (? & ? & ?). by apply (Hmax s' c).
Qed.

(** ** The allocator as a transition system *)

Inductive pmm_op :=
  | OpAlloc
  | OpAllocRun (count : Z)
  | OpRetain (addr : Z)
  | OpRelease (addr : Z)
  | OpFreeRun (addr count : Z)
  | OpReserve (start stop : Z).

(** One call of the public interface: its result and the new state. *)
Definition pmm_step (op : pmm_op) (p : pmm) : Z * pmm :=
  match op with
  | OpAlloc => pmm_alloc_frame p
  | OpAllocRun count => pmm_alloc_contiguous_frames count p
  | OpRetain addr => let '(b, q) := pmm_retain_frame addr p in (Z.b2z b, q)
  | OpRelease addr => (0, pmm_free_frame addr p)
  | OpFreeRun addr count => (0, pmm_free_contiguous_frames addr count p)
  | OpReserve start stop => (0, pmm_reserve_range start stop p)
  end.

(** Arguments of the C types; a run that is freed is frame-aligned. *)
Definition op_ok (op : pmm_op) : Prop :=
  match op with
  | OpAlloc => True
  | OpAllocRun count => 0 <= count < 2 ^ 32
  | OpRetain addr | OpRelease addr => 0 <= addr < 2 ^ 32
  | OpFreeRun addr count => 0 <= addr /\ addr mod PMM_FRAME_SIZE = 0 /\ 0 <= count /\
                            addr + count * PMM_FRAME_SIZE <= 2 ^ 32
  | OpReserve start stop => 0 <= start < 2 ^ 32 /\ 0 <= stop < 2 ^ 32
  end.

(** [count] consecutive frames from address [a], all managed and all free. *)
Definition spec_run_free (managed : Z -> Prop) (t : gmap Z Z) (a count : Z) : Prop :=
  forall k, 0 <= k < count ->
    managed (a + k * PMM_FRAME_SIZE) /\ t !! (a + k * PMM_FRAME_SIZE) = None.

(** The contract: what each call may return and do to the set of allocated
    frames.  Which free frame or run is taken is left open. *)
Inductive spec_step (managed : Z -> Prop) (ready : bool) :
    pmm_op -> gmap Z Z -> Z -> gmap Z Z -> Prop :=
  | SpecAlloc t a : managed a -> t !! a = None -> spec_step managed ready OpAlloc t a (<[a := 1]> t)
  | SpecAllocFail t : (forall a, managed a -> is_Some (t !! a)) ->
      spec_step managed ready OpAlloc t 0 t
  | SpecAllocRun t a count : 0 < count -> spec_run_free managed t a count ->
      spec_step managed ready (OpAllocRun count) t a (spec_alloc_run a count t)
  | SpecAllocRunFail t count :
      count = 0 \/ (forall a, ~ (spec_run_free managed t a count)) ->
      spec_step managed ready (OpAllocRun count) t 0 t
  | SpecRetain t addr b t' : spec_retain (frame_base addr) t = (b, t') ->
      spec_step managed ready (OpRetain addr) t (Z.b2z b) t'
  | SpecRelease t addr :
      spec_step managed ready (OpRelease addr) t 0 (spec_release (frame_base addr) t)
  | SpecFreeRun t addr count :
      spec_step managed ready (OpFreeRun addr count) t 0 (spec_release_run addr count t)
  | SpecReserve t start stop t' :
      (forall a, managed a -> t' !! a =
         if ready && (start <? a + PMM_FRAME_SIZE) && (a <? stop)
         then Some (default 1 (t !! a)) else t !! a) ->
      spec_step managed ready (OpReserve start stop) t 0 t'.

Fixpoint pmm_run (ops : list pmm_op) (p : pmm) : list Z * pmm :=
  match ops with
  | [] => ([], p)
  | op :: ops' =>
      let '(r, q) := pmm_step op p in
      let '(rs, q') := pmm_run ops' q in (r :: rs, q')
  end.

Inductive spec_run (managed : Z -> Prop) (ready : bool) :
    list pmm_op -> gmap Z Z -> list Z -> gmap Z Z -> Prop :=
  | SpecNil t : spec_run managed ready [] t [] t
  | SpecCons op ops t r t' rs t'' :
      spec_step managed ready op t r t' -> spec_run managed ready ops t' rs t'' ->
      spec_run managed ready (op :: ops) t (r :: rs) t''.

Lemma free_run_spec p s count :
  pmm_wf p -> 0 < count ->
  free_run p s count <->
  spec_run_free (managed_frame p) (pmm_table p) (PMM_BASE + s * PMM_FRAME_SIZE) count.
Proof.
  intros Hp Hc. unfold PMM_FRAME_SIZE. split.
  - intros (H1 & H2 & H3) k Hk.
    replace (PMM_BASE + s * 4096 + k * PMM_FRAME_SIZE) with
      (PMM_BASE + (s + k) * PMM_FRAME_SIZE) by (unfold PMM_FRAME_SIZE; lia).
    split; [exists (s + k); split; [lia|done]|].
    rewrite pmm_table_idx by lia. by rewrite H3 by lia.
  - intros H. assert (forall k, 0 <= k < count -> 0 <= s + k < s_managed_frames p /\
      frame_is_used p (s + k) = false) as Hk.
    { intros k Hk. destruct (H k Hk) as [(i & Hi & E) Hn].
      assert (i = s + k) as -> by (unfold PMM_FRAME_SIZE in E; lia). split; [done|].
      rewrite E, pmm_table_idx in Hn by done. by destruct (frame_is_used p (s + k)). }
    pose proof (Hk 0 ltac:(lia)). pose proof (Hk (count - 1) ltac:(lia)).
    split_and!; [lia..|]. intros k Hkr. replace k with (s + (k - s)) by lia. apply Hk. lia.
Qed.

Lemma no_free_run_spec p count a :
  pmm_wf p -> 0 < count -> (forall s, ~ free_run p s count) ->
  ~ spec_run_free (managed_frame p) (pmm_table p) a count.
Proof.
  intros Hp Hc Hno H. destruct (H 0 ltac:(lia)) as [(s & Hs & E) _].
  apply (Hno s). apply free_run_spec; [done..|].
  replace (PMM_BASE + s * PMM_FRAME_SIZE) with a by lia. done.
Qed.

Lemma free_run_dec p count :
  (exists s, free_run p s count) \/ (forall s, ~ free_run p s count) \/ count <= 0.
Proof.
  destruct (Z.le_gt_cases count 0); [auto|].
  destruct (run_scan (S (Z.to_nat (s_managed_frames p))) 0 count p) as [s|] eqn:E.
  - left. exists s. apply run_scan_some in E; [tauto|lia..].
  - right; left. intros s Hr. refine (run_scan_none _ 0 count p s _ _ _ E Hr); [lia|lia|].
    by destruct Hr.
Qed.

Lemma pmm_step_spec op p :
  pmm_wf p -> op_ok op ->
  let '(r, q) := pmm_step op p in
  spec_step (managed_frame p) (s_ready p) op (pmm_table p) r (pmm_table q) /\
  same_window p q /\ pmm_wf q.
Proof.
  intros Hp Hok. destruct op as [|count|addr|addr|addr count|start stop]; simpl in *.
  - destruct (Z.lt_ge_cases 0 (s_free_count p)) as [Hf|Hf].
    + destruct (pmm_alloc_frame_some p Hp Hf) as (a & q & -> & Hm & Hn & -> & _ & Hw & Hq).
      split_and!; [by constructor|done..].
    + pose proof (free_count_bounds p Hp). rewrite pmm_alloc_frame_none by lia.
      split_and!; [|done..]. apply SpecAllocFail. intros a (i & Hi & ->).
      rewrite pmm_table_idx, free_count_zero by (done || lia). done.
  - destruct (free_run_dec p count) as [[s Hs]|[Hno|Hc]].
    + destruct (Z.eq_dec count 0) as [->|].
      { split_and!; [|done..]. apply SpecAllocRunFail. by left. }
      destruct (pmm_alloc_contiguous_frames_some p count s Hp ltac:(lia) Hs)
        as (s' & q & Hr & _ & -> & -> & _ & Hw & Hq).
      split_and!; [|done..]. constructor; [lia|]. apply free_run_spec; [done|lia|done].
    + rewrite pmm_alloc_contiguous_frames_none by (done || lia). split_and!; [|done..].
      apply SpecAllocRunFail. destruct (Z.eq_dec count 0) as [->|]; [by left|right].
      intros a. apply no_free_run_spec; [done|lia|done].
    + assert (count = 0) as -> by lia. split_and!; [|done..]. apply SpecAllocRunFail. by left.
  - destruct (pmm_retain_frame addr p) as [b q] eqn:E.
    apply pmm_retain_frame_table in E as (Et & _ & Hw & Hq); [|done].
    split_and!; [by constructor|done..].
  - destruct (pmm_release_frame_table p addr Hp) as (E & Hw & Hq).
    unfold pmm_free_frame. rewrite E. split_and!; [constructor|done..].
  - destruct Hok as (H1 & H2 & H3 & H4).
    destruct (pmm_free_contiguous_frames_table p addr count Hp H3 H1 H2 H4) as (E & Hw & Hq).
    rewrite E. split_and!; [constructor|done..].
  - unfold pmm_reserve_range. destruct (s_ready p) eqn:Hr; simpl.
    + destruct (pmm_mark_range_used_table p start stop Hp ltac:(lia) ltac:(lia)) as (E & Hw & Hq).
      split_and!; [|done..]. constructor. intros a Ha. by rewrite E.
    + split_and!; [|done..]. by constructor.
Qed.

(** ** A decision procedure for the invariant, used on concrete states *)

Definition pmm_wfb (p : pmm) : bool :=
  (0 <? s_managed_frames p) && (s_managed_frames p <=? PMM_NUM_FRAMES)
  && (s_max_phys p =? PMM_BASE + s_managed_frames p * PMM_FRAME_SIZE)
  && (s_bitmap_bytes p =? (s_managed_frames p + 7) / 8)
  && (zlen (s_bitmap p) =? s_bitmap_bytes p)
  && forallb (fun b => (0 <=? b) && (b <? 256)) (s_bitmap p)
  && (zlen (s_refcount p) =? s_managed_frames p)
  && forallb (fun r => (0 <=? r) && (r <? 65536)) (s_refcount p)
  && forallb (fun i => Bool.eqb (frame_is_used p i) (negb (refcount p i =? 0)))
       (up_to 0 (s_managed_frames p) 1)
  && (s_free_count p =?
      count_below (fun i => negb (frame_is_used p i)) (Z.to_nat (s_managed_frames p)))
  && (0 <=? s_next_free p) && (s_next_free p <? s_managed_frames p).

Lemma pmm_wfb_sound p : pmm_wfb p = true -> pmm_wf p.
Proof.
  unfold pmm_wfb. rewrite !andb_true_iff, !forallb_forall.
  intros [[[[[[[[[[[H1 H2] H3] H4] H5] H6] H7] H8] H9] H10] H11] H12].
  constructor; try lia.
  - apply List.Forall_forall. intros b Hb. specialize (H6 b Hb). lia.
  - apply List.Forall_forall. intros r Hr. specialize (H8 r Hr). lia.
  - intros i Hi. apply eqb_prop, H9, list_elem_of_In, elem_of_up_to; [lia|].
    exists i. lia.
Qed.

(** ** Allocating and freeing the same run *)

Definition in_run (a count x : Z) : bool :=
  (a <=? x) && (x <? a + count * PMM_FRAME_SIZE) && ((x - a) mod PMM_FRAME_SIZE =? 0).

Lemma in_run_0 a x : in_run a 0 x = false.
Proof. unfold in_run. lia. Qed.

Lemma in_run_snoc a k x :
  0 <= k -> in_run a (k + 1) x = in_run a k x || (x =? a + k * PMM_FRAME_SIZE).
Proof.
  intros Hk. unfold in_run, PMM_FRAME_SIZE. apply eq_iff_eq_true.
  rewrite !orb_true_iff, !andb_true_iff. dlia.
Qed.

Lemma spec_alloc_run_lookup a count t x :
  0 <= count -> spec_alloc_run a count t !! x = if in_run a count x then Some 1 else t !! x.
Proof.
  intros Hc. unfold spec_alloc_run.
  apply (foldl_count (fun k t' => t' !! x = if in_run a k x then Some 1 else t !! x)); [done| |].
  - by rewrite in_run_0.
  - intros k t' Hk IH. rewrite in_run_snoc by lia.
    destruct (Z.eqb_spec x (a + k * PMM_FRAME_SIZE)) as [->|Hne].
    + by rewrite lookup_insert_eq, orb_true_r.
    + by rewrite lookup_insert_ne, IH, orb_false_r by done.
Qed.

Lemma spec_release_run_alloc a count t :
  0 <= count -> (forall x, in_run a count x = true -> t !! x = None) ->
  spec_release_run a count (spec_alloc_run a count t) = t.
Proof.
  intros Hc Hn. apply map_eq. intros x.
  assert (spec_release_run a count (spec_alloc_run a count t) !! x =
    if in_run a count x then None else spec_alloc_run a count t !! x) as ->.
  { unfold spec_release_run.
    apply (foldl_count (fun k t' => forall x, t' !! x =
      if in_run a k x then None else spec_alloc_run a count t !! x)); [done| |].
    - intros y. by rewrite in_run_0.
    - intros k t' Hk IH y. rewrite in_run_snoc by lia. unfold spec_release.
      assert (in_run a k (a + k * PMM_FRAME_SIZE) = false) as E1
        by (unfold in_run, PMM_FRAME_SIZE; lia).
      assert (in_run a count (a + k * PMM_FRAME_SIZE) = true) as E2
        by (unfold in_run, PMM_FRAME_SIZE; rewrite !andb_true_iff; dlia).
      rewrite (IH (a + k * PMM_FRAME_SIZE)), E1, spec_alloc_run_lookup, E2 by done. simpl.
      destruct (Z.eqb_spec y (a + k * PMM_FRAME_SIZE)) as [->|Hne].
      + by rewrite lookup_delete_eq, orb_true_r.
      + by rewrite lookup_delete_ne, IH, orb_false_r by done. }
  rewrite spec_alloc_run_lookup by done. destruct (in_run a count x) eqn:E; [|done].
  by rewrite Hn.
Qed.

(** ** Properties *)

(** A small concrete allocator: 16 frames, frames 0-3 and 15 in use. *)
Definition pmm_example : pmm :=
  Pmm [0x0F; 0x80] [1; 1; 2; 1; 0; 0; 0; 0; 0; 0; 0; 0; 0; 0; 0; 1]
      2 16 (PMM_BASE + 16 * PMM_FRAME_SIZE) 11 16 4 true.

(** C1: the allocator refines its specification.  Whatever sequence of calls is
    made from a well-formed state, the results and the successive sets of
    allocated frames are ones the specification allows (a frame is handed out
    only while it is free, a reference is dropped only where one is held, the
    allocator refuses only when nothing fits), the invariant holds at the end,
    and the free counter plus the allocated frames is the managed total. *)
Theorem pmm_refines_spec ops p rs q :
  pmm_wf p -> Forall op_ok ops -> pmm_run ops p = (rs, q) ->
  spec_run (managed_frame p) (s_ready p) ops (pmm_table p) rs (pmm_table q) /\
  pmm_wf q /\ s_free_count q + Z.of_nat (size (pmm_table q)) = s_managed_frames p.
Proof.
  intros Hp Hops. revert p rs Hp. induction Hops as [|op ops Hop _ IH]; intros p rs Hp Hrun; simpl in Hrun.
  - injection Hrun as <- <-. split_and!; [constructor|done|by apply pmm_table_size].
  - pose proof (pmm_step_spec op p Hp Hop) as Hs. destruct (pmm_step op p) as [r p1].
    destruct (pmm_run ops p1) as [rs1 q1] eqn:E. injection Hrun as <- <-.
    destruct Hs as (Hs & Hw & Hp1). destruct (IH p1 rs1 Hp1 E) as (H1 & H2 & H3).
    pose proof Hw as (Em & _ & _ & Er). rewrite Em in H3. rewrite Er in H1.
    split_and!; [|done..]. econstructor; [exact Hs|].
    unfold managed_frame in H1 |- *. by rewrite Em in H1.
Qed.

Lemma pmm_refines_spec_witness :
  let ops := [OpAlloc; OpRetain 0x204000; OpAllocRun 4; OpRelease 0x204000; OpFreeRun 0x205000 4] in
  exists rs q, pmm_run ops pmm_example = (rs, q) /\ rs = [0x204000; 1; 0x205000; 0; 0] /\
  s_free_count q + Z.of_nat (size (pmm_table q)) = 16.
Proof.
  simpl. eexists. eexists. split; [vm_compute; reflexivity|]. split; [reflexivity|].
  refine (proj2 (proj2 (pmm_refines_spec
    [OpAlloc; OpRetain 0x204000; OpAllocRun 4; OpRelease 0x204000; OpFreeRun 0x205000 4]
    pmm_example _ _ _ _ _))).
  - apply pmm_wfb_sound. vm_compute. reflexivity.
  - repeat (apply Forall_cons_2; [vm_compute; intuition congruence|]). apply Forall_nil_2.
  - vm_compute. reflexivity.
Defined.

(** [pmm_alloc_frame] returns 0 and changes nothing exactly when no frame is
    free; otherwise it returns the page-aligned address of a managed frame that
    was free, which then has one reference, and no other frame changes. *)
Theorem pmm_alloc_frame_correct p :
  pmm_wf p ->
  (s_free_count p = 0 /\ pmm_alloc_frame p = (0, p) /\
     forall a, managed_frame p a -> is_Some (pmm_table p !! a)) \/
  (exists a q, pmm_alloc_frame p = (a, q) /\ PMM_BASE <= a < s_max_phys p /\
     a mod PMM_FRAME_SIZE = 0 /\ pmm_table p !! a = None /\
     pmm_table q = <[a := 1]> (pmm_table p) /\ pmm_frame_refcount a q = 1 /\
     s_free_count q = s_free_count p - 1 /\ pmm_wf q).
Proof.
  intros Hp. destruct (Z.lt_ge_cases 0 (s_free_count p)) as [Hf|Hf].
  - right. destruct (pmm_alloc_frame_some p Hp Hf) as (a & q & E & Hm & Hn & Ht & Hc & Hw & Hq).
    pose proof (managed_frame_range p a Hp Hm) as (H1 & H2 & _ & H4 & H5).
    assert (PMM_BASE <= a < s_max_phys q) as Ha
      by (destruct Hw as (_ & -> & _); unfold PMM_FRAME_SIZE in *; lia).
    exists a, q. split_and!; try done; [unfold PMM_FRAME_SIZE in *; lia|].
    unfold pmm_frame_refcount. rewrite (proj2 (orb_false_iff _ _)) by lia.
    pose proof (table_frame_base q a Hq Ha) as E1. rewrite H5, Ht, lookup_insert_eq in E1.
    destruct (frame_is_used q _); congruence.
  - left. pose proof (free_count_bounds p Hp).
    split_and!; [lia|apply pmm_alloc_frame_none; lia|].
    intros a (i & Hi & ->). rewrite pmm_table_idx, free_count_zero by (done || lia). done.
Qed.

Lemma pmm_alloc_frame_correct_witness :
  fst (pmm_alloc_frame pmm_example) = 0x204000 /\
  (s_free_count pmm_example = 0 /\ pmm_alloc_frame pmm_example = (0, pmm_example) /\
     (forall a, managed_frame pmm_example a -> is_Some (pmm_table pmm_example !! a)) \/
   exists a q, pmm_alloc_frame pmm_example = (a, q) /\ PMM_BASE <= a < s_max_phys pmm_example /\
     a mod PMM_FRAME_SIZE = 0 /\ pmm_table pmm_example !! a = None /\
     pmm_table q = <[a := 1]> (pmm_table pmm_example) /\ pmm_frame_refcount a q = 1 /\
     s_free_count q = s_free_count pmm_example - 1 /\ pmm_wf q).
Proof.
  split; [vm_compute; reflexivity|].
  apply (pmm_alloc_frame_correct pmm_example). apply pmm_wfb_sound. vm_compute. reflexivity.
Defined.

(** C27: [pmm_alloc_contiguous_frames] is an exact first-fit search, although its
    scan skips ahead over used frames: for a positive [count] it returns the
    lowest run of [count] free frames if there is one, with one reference on
    each of its frames and nothing else changed, and otherwise 0 with the state
    unchanged; it succeeds exactly when [pmm_largest_free_run] is at least
    [count]. *)
Theorem pmm_alloc_contiguous_first_fit p count :
  pmm_wf p -> 0 < count ->
  (count <= pmm_largest_free_run p /\
   exists s q, pmm_alloc_contiguous_frames count p = (PMM_BASE + s * PMM_FRAME_SIZE, q) /\
     free_run p s count /\ (forall s', 0 <= s' < s -> ~ free_run p s' count) /\
     (forall x, pmm_table q !! x =
        if in_run (PMM_BASE + s * PMM_FRAME_SIZE) count x then Some 1 else pmm_table p !! x) /\
     s_free_count q = s_free_count p - count /\ pmm_wf q) \/
  (pmm_largest_free_run p < count /\ pmm_alloc_contiguous_frames count p = (0, p)).
Proof.
  intros Hp Hc. destruct (pmm_largest_free_run_spec p Hp) as [(m & Hm1 & Hm2 & Hm3) Hmax].
  destruct (Z.le_gt_cases count (pmm_largest_free_run p)) as [Hle|Hgt]; [left|right]; (split; [done|]).
  - assert (free_run p m count) as Hrun by (split_and!; [lia..|intros; apply Hm3; lia]).
    destruct (pmm_alloc_contiguous_frames_some p count m Hp Hc Hrun)
      as (s & q & Hr & Hmin & E & Ht & Hf & _ & Hq).
    exists s, q. split_and!; try done. intros x. rewrite Ht. apply spec_alloc_run_lookup. lia.
  - apply pmm_alloc_contiguous_frames_none; [done|lia|]. intros s Hs.
    specialize (Hmax s count ltac:(lia) Hs). lia.
Qed.

Lemma pmm_alloc_contiguous_first_fit_witness :
  pmm_largest_free_run pmm_example = 11 /\
  (6 <= pmm_largest_free_run pmm_example /\
   (exists s q, pmm_alloc_contiguous_frames 6 pmm_example = (PMM_BASE + s * PMM_FRAME_SIZE, q) /\
     free_run pmm_example s 6 /\ (forall s', 0 <= s' < s -> ~ free_run pmm_example s' 6) /\
     (forall x, pmm_table q !! x =
        if in_run (PMM_BASE + s * PMM_FRAME_SIZE) 6 x then Some 1 else pmm_table pmm_example !! x) /\
     s_free_count q = s_free_count pmm_example - 6 /\ pmm_wf q) \/
   (pmm_largest_free_run pmm_example < 6 /\
      pmm_alloc_contiguous_frames 6 pmm_example = (0, pmm_example))).
Proof.
  split; [vm_compute; reflexivity|].
  apply (pmm_alloc_contiguous_first_fit pmm_example 6); [|lia].
  apply pmm_wfb_sound. vm_compute. reflexivity.
Defined.

(** Freeing a run that [pmm_alloc_contiguous_frames] returned gives every
    frame back: the set of allocated frames with their counts and the number of
    free frames are again what they were before the allocation. *)
Theorem pmm_alloc_free_run_roundtrip p count a q :
  pmm_wf p -> 0 < count -> pmm_alloc_contiguous_frames count p = (a, q) -> a <> 0 ->
  pmm_table (pmm_free_contiguous_frames a count q) = pmm_table p /\
  s_free_count (pmm_free_contiguous_frames a count q) = s_free_count p.
Proof.
  intros Hp Hc E Ha.
  destruct (free_run_dec p count) as [[m Hm]|[Hno|?]]; [| |lia].
  2:{ rewrite pmm_alloc_contiguous_frames_none in E by (done || lia). congruence. }
  destruct (pmm_alloc_contiguous_frames_some p count m Hp Hc Hm)
    as (s & q' & Hr & _ & E' & Ht & Hf & Hw & Hq). rewrite E in E'. injection E' as -> <-.
  pose proof Hr as (Hs1 & Hs2 & Hs3). pose proof (wf_managed p Hp).
  destruct (pmm_free_contiguous_frames_table q (PMM_BASE + s * PMM_FRAME_SIZE) count Hq)
    as (Et & Hw' & Hq'); try lia; try (pmm_consts; dlia).
  assert (pmm_table (pmm_free_contiguous_frames (PMM_BASE + s * PMM_FRAME_SIZE) count q)
    = pmm_table p) as E1.
  { rewrite Et, Ht. apply spec_release_run_alloc; [lia|]. intros x Hx.
    unfold in_run in Hx. rewrite !andb_true_iff in Hx.
    apply free_run_spec in Hr; [|done..].
    specialize (Hr ((x - (PMM_BASE + s * PMM_FRAME_SIZE)) / PMM_FRAME_SIZE)).
    replace (PMM_BASE + s * PMM_FRAME_SIZE +
      (x - (PMM_BASE + s * PMM_FRAME_SIZE)) / PMM_FRAME_SIZE * PMM_FRAME_SIZE) with x in Hr
      by (pmm_consts; dlia).
    apply Hr. pmm_consts. dlia. }
  split; [exact E1|].
  pose proof (pmm_table_size p Hp). pose proof (pmm_table_size _ Hq') as Hz. rewrite E1 in Hz.
  destruct (same_window_trans _ _ _ Hw Hw') as (Em & _). lia.
Qed.

Lemma pmm_alloc_free_run_roundtrip_witness :
  let '(a, q) := pmm_alloc_contiguous_frames 5 pmm_example in
  pmm_table (pmm_free_contiguous_frames a 5 q) = pmm_table pmm_example /\
  s_free_count (pmm_free_contiguous_frames a 5 q) = s_free_count pmm_example.
Proof.
  destruct (pmm_alloc_contiguous_frames 5 pmm_example) as [a q] eqn:E.
  apply (pmm_alloc_free_run_roundtrip pmm_example 5 a q); [|lia|done|].
  - apply pmm_wfb_sound. vm_compute. reflexivity.
  - vm_compute in E. injection E as <- _. lia.
Defined.
