(* ===== verification/Memory.v ===== *)
(** * Bump heap and boot-time initialisation of physical memory

    Models [src/src/kernel/memory.c] (the permanent kernel heap) and the part of
    [src/src/kernel/pmm.c] that uses it: [pmm_metadata_init],
    [pmm_reserve_boot_ranges] and [pmm_init].  The two files call each other, so
    their variables form one record [kmem]. *)
From S2P Require Import Prelude BootInfo Pmm.
From Stdlib Require Import ZArith Lia ZifyBool Bool.
From stdpp Require Import base numbers gmap list.
Local Open Scope Z_scope.

Definition KERNEL_BOOT_STACK_TOP : Z := 0x3FF000.

Record kmem := Kmem {
  heap_base : Z;
  heap_current : Z;
  km_pmm : pmm
}.

Definition set_heap_current (h : Z) (k : kmem) : kmem := Kmem (heap_base k) h (km_pmm k).
Definition map_pmm (f : pmm -> pmm) (k : kmem) : kmem :=
  Kmem (heap_base k) (heap_current k) (f (km_pmm k)).

Definition memory_init (start : Z) (k : kmem) : kmem := Kmem start start (km_pmm k).

Definition kmalloc (size : Z) (k : kmem) : Z * kmem :=
  if size =? 0 then (0, k) else
  let old_top := heap_current k in
  let addr := old_top in
  let h := u32 (heap_current k + size) in
  let h := if negb (Z.land h 3 =? 0) then u32 (Z.land h (u32 (Z.lnot 3)) + 4) else h in
  (addr, map_pmm (pmm_reserve_range old_top h) (set_heap_current h k)).

Definition kmalloc_page (k : kmem) : Z * kmem :=
  let h := heap_current k in
  let h := if negb (Z.land h 4095 =? 0)
           then Z.land (u32 (h + 4096 - 1)) (u32 (Z.lnot 4095)) else h in
  let old_top := h in
  let addr := old_top in
  let h := u32 (h + 4096) in
  (addr, map_pmm (pmm_reserve_range old_top h) (set_heap_current h k)).

Definition memory_get_heap_top (k : kmem) : Z := heap_current k.
Definition memory_get_heap_base (k : kmem) : Z := heap_base k.

(** The static initial values of the variables of pmm.c. *)
Definition pmm_static : pmm := Pmm [] [] 0 0 PMM_BASE 0 0 0 false.

(** [pmm_metadata_init]: [ram] gives the bytes and half-words the fresh metadata
    arrays happen to contain; [None] is the [cli; hlt] loop. *)
Definition pmm_metadata_init (info : boot_info) (ram : Z -> Z) (k : kmem) : option kmem :=
  let p := km_pmm k in
  let max_phys := pmm_detect_max_phys info in
  let managed := u32 (max_phys - PMM_BASE) / PMM_FRAME_SIZE in
  let '(managed, max_phys) :=
    if PMM_NUM_FRAMES <? managed
    then (PMM_NUM_FRAMES, u32 (PMM_BASE + PMM_NUM_FRAMES * PMM_FRAME_SIZE))
    else (managed, max_phys) in
  let bytes := u32 (managed + 7) / 8 in
  let k := map_pmm (fun p => Pmm (s_bitmap p) (s_refcount p) bytes managed max_phys
                       (s_free_count p) (s_total_count p) (s_next_free p) (s_ready p)) k in
  let '(bitmap, k) := kmalloc bytes k in
  let '(refs, k) := kmalloc (u32 (managed * 2)) k in
  if (bitmap =? 0) || (refs =? 0) then None else
  Some (map_pmm (fun p => Pmm
          ((fun i => u8 (ram (bitmap + i))) <$> seqZ 0 bytes)
          ((fun i => u16 (ram (refs + 2 * i))) <$> seqZ 0 managed)
          (s_bitmap_bytes p) (s_managed_frames p) (s_max_phys p)
          (s_free_count p) (s_total_count p) (s_next_free p) (s_ready p)) k).

Definition pmm_reserve_boot_ranges (info : boot_info) (k : kmem) : kmem :=
  let k := map_pmm (pmm_mark_range_used 0x00000000 0x00001000) k in
  let k := map_pmm (pmm_mark_range_used 0x00007C00 0x00007E00) k in
  let k := map_pmm (pmm_mark_range_used 0x00080000 0x00082000) k in
  let k := map_pmm (pmm_mark_range_used BOOT_INFO_PHYS (BOOT_INFO_PHYS + SIZEOF_BOOT_INFO)) k in
  let k := map_pmm (pmm_mark_range_used BOOT_FONT_PHYS (BOOT_FONT_PHYS + 0x1000)) k in
  let k := map_pmm (pmm_mark_range_used (KERNEL_BOOT_STACK_TOP - PMM_FRAME_SIZE)
                      KERNEL_BOOT_STACK_TOP) k in
  let k := map_pmm (pmm_mark_range_used 0x00100000 (memory_get_heap_top k)) k in
  let k :=
    if boot_info_framebuffer_valid info then
      let fb_bytes := u32 (framebuffer_pitch info * framebuffer_height info) in
      map_pmm (pmm_mark_range_used (framebuffer_phys info)
                 (u32 (framebuffer_phys info + fb_bytes))) k
    else k in
  if boot_info_ramdisk_valid info then
    map_pmm (pmm_mark_range_used (ramdisk_phys info)
               (u32 (ramdisk_phys info + ramdisk_size info))) k
  else k.

(** The two loops of [pmm_init] that mark every frame used, and the counters. *)
Definition pmm_fill_metadata (p : pmm) : pmm :=
  Pmm (foldl (fun b i => zset b i 0xFF) (s_bitmap p) (up_to 0 (s_bitmap_bytes p) 1))
      (foldl (fun r i => zset r i 1) (s_refcount p) (up_to 0 (s_managed_frames p) 1))
      (s_bitmap_bytes p) (s_managed_frames p) (s_max_phys p) 0 0 0 false.

Definition pmm_init (info : boot_info) (ram : Z -> Z) (k : kmem) : option kmem :=
  match pmm_metadata_init info ram k with
  | None => None
  | Some k =>
      let k := map_pmm pmm_fill_metadata k in
      let k := if boot_info_e820_valid info
               then map_pmm (pmm_free_e820_usable_ranges info) k
               else map_pmm pmm_free_fixed_range k in
      let k := pmm_reserve_boot_ranges info k in
      Some (map_pmm (fun p => Pmm (s_bitmap p) (s_refcount p) (s_bitmap_bytes p)
              (s_managed_frames p) (s_max_phys p) (s_free_count p) (s_free_count p)
              (s_next_free p) true) k)
  end.

(** ** What boot promises about every managed frame *)

(** The physical ranges SmallOS keeps for itself, as [pmm_reserve_boot_ranges]
    lists them. *)
Definition boot_ranges (info : boot_info) (heap_top : Z) : list (Z * Z) :=
  [(0x0, 0x1000); (0x7C00, 0x7E00); (0x80000, 0x82000);
   (BOOT_INFO_PHYS, BOOT_INFO_PHYS + SIZEOF_BOOT_INFO);
   (BOOT_FONT_PHYS, BOOT_FONT_PHYS + 0x1000);
   (KERNEL_BOOT_STACK_TOP - PMM_FRAME_SIZE, KERNEL_BOOT_STACK_TOP);
   (0x100000, heap_top)]
  ++ (if boot_info_framebuffer_valid info
      then [(framebuffer_phys info,
             u32 (framebuffer_phys info + u32 (framebuffer_pitch info * framebuffer_height info)))]
      else [])
  ++ (if boot_info_ramdisk_valid info
      then [(ramdisk_phys info, u32 (ramdisk_phys info + ramdisk_size info))] else []).

(** The frame at [a] intersects the range. *)
Definition touches (a : Z) (r : Z * Z) : bool := (fst r <? a + PMM_FRAME_SIZE) && (a <? snd r).

Definition frame_reserved (info : boot_info) (heap_top a : Z) : bool :=
  existsb (touches a) (boot_ranges info heap_top).

(** The frame at [a] lies in RAM the firmware reports as usable. *)
Definition entry_usable (a : Z) (ent : boot_e820_entry) : bool :=
  (e820_type ent =? 1) && (e820_base ent <=? a)
  && (a + PMM_FRAME_SIZE <=? e820_base ent + e820_length ent).

Definition frame_usable (info : boot_info) (a : Z) : bool :=
  if boot_info_e820_valid info then existsb (entry_usable a) (e820_entries info)
  else a + PMM_FRAME_SIZE <=? PMM_BASE + PMM_FALLBACK_SIZE.

(** ** Bump allocation *)

(** A non-empty bump allocation that fits below 4 GiB starts at the old top of the
    heap and ends, aligned to 4 bytes, at the new one. *)
Lemma kmalloc_spec size k :
  0 <= heap_current k -> 0 < size -> heap_current k + size + 3 < 2 ^ 32 ->
  exists h, kmalloc size k =
      (heap_current k, map_pmm (pmm_reserve_range (heap_current k) h) (set_heap_current h k)) /\
    heap_current k + size <= h <= heap_current k + size + 3 /\ h mod 4 = 0.
Proof.
  intros Hc Hs Hb. unfold kmalloc. rewrite (proj2 (Z.eqb_neq size 0)) by lia.
  rewrite (u32_small (heap_current k + size)) by lia.
  rewrite land_word_mask, land_word_offset by lia.
  eexists. split; [reflexivity|].
  destruct (Z.eqb_spec ((heap_current k + size) mod 4) 0); simpl; [dlia|].
  rewrite u32_small by dlia. dlia.
Qed.

Lemma pmm_reserve_unready a b k :
  s_ready (km_pmm k) = false -> map_pmm (pmm_reserve_range a b) k = k.
Proof. intros Hr. unfold map_pmm, pmm_reserve_range. rewrite Hr. by destruct k. Qed.

Lemma kmalloc_page_spec k :
  0 <= heap_current k -> heap_current k + 8192 < 2 ^ 32 ->
  exists a, kmalloc_page k =
      (a, map_pmm (pmm_reserve_range a (a + 4096)) (set_heap_current (a + 4096) k)) /\
    heap_current k <= a < heap_current k + 4096 /\ a mod 4096 = 0.
Proof.
  intros Hc Hb. unfold kmalloc_page. rewrite land_page_offset.
  rewrite (u32_small (heap_current k + 4096 - 1)), land_page_mask by lia.
  set (a := if negb _ then _ else _).
  assert (heap_current k <= a < heap_current k + 4096 /\ a mod 4096 = 0) as [H1 H2].
  { subst a. destruct (Z.eqb_spec (heap_current k mod 4096) 0); simpl; dlia. }
  exists a. rewrite u32_small by lia. done.
Qed.

(** ** Initialisation *)

Lemma pmm_detect_fold_range ents m :
  PMM_BASE <= m <= PMM_LIMIT -> PMM_BASE <= foldl pmm_detect_entry m ents <= PMM_LIMIT.
Proof.
  revert m. induction ents as [|ent ents IH]; intros m Hm; [done|]. simpl. apply IH.
  unfold pmm_detect_entry. case_match; [done|].
  pose proof (u64_range (e820_base ent + e820_length ent)).
  set (e := u64 (e820_base ent + e820_length ent)) in *. pmm_consts.
  repeat case_match; rewrite ?u32_small in * by lia; lia.
Qed.

Lemma pmm_detect_max_phys_spec info :
  let m := pmm_detect_max_phys info in
  PMM_BASE < m <= PMM_LIMIT /\ m mod PMM_FRAME_SIZE = 0.
Proof.
  unfold pmm_detect_max_phys.
  set (m0 := if boot_info_e820_valid info then _ else _).
  assert (PMM_BASE <= m0 <= PMM_LIMIT) as H0.
  { subst m0. pose proof (pmm_detect_fold_range (e820_entries info) PMM_BASE).
    pmm_consts. repeat case_match; lia. }
  rewrite (proj2 (Z.ltb_ge _ _)) by lia.
  change (Z.land m0 _) with (round_down_frame m0).
  rewrite round_down_frame_eq by (pmm_consts; lia).
  pmm_consts. case_match; dlia.
Qed.

Lemma fill_loop {A} (d v : A) l n :
  zlen l = n -> foldl (fun b i => zset b i v) l (up_to 0 n 1) = replicate (Z.to_nat n) v.
Proof.
  intros Hl.
  assert (0 <= n) by (unfold zlen in Hl; lia).
  pose proof (foldl_count (fun k b => zlen b = n /\ forall i, 0 <= i < k -> zget d b i = v)
    (fun b i => zset b i v) n l) as [L1 L2].
  - lia.
  - split; [done|lia].
  - intros k t Hk [Ht Hz]. split; [by rewrite zlen_zset|]. intros i Hi.
    rewrite zget_zset by lia. zcase; [done|]. apply Hz. lia.
  - set (r := foldl _ _ _) in *. apply list_eq. intros i.
    destruct (Nat.lt_ge_cases i (Z.to_nat n)).
    + rewrite lookup_replicate_2 by done.
      pose proof (lookup_zget d r (Z.of_nat i) ltac:(lia)) as E.
      rewrite Nat2Z.id, L2 in E by lia. done.
    + rewrite !lookup_ge_None_2; [done|rewrite length_replicate; lia|unfold zlen in *; lia].
Qed.

(** The state [pmm_init] frees the usable ranges from: every frame in use once. *)
Definition pmm_all_used (managed : Z) : pmm :=
  Pmm (replicate (Z.to_nat ((managed + 7) / 8)) 0xFF) (replicate (Z.to_nat managed) 1)
      ((managed + 7) / 8) managed (PMM_BASE + managed * PMM_FRAME_SIZE) 0 0 0 false.

Lemma pmm_all_used_used m i :
  0 <= i < m -> frame_is_used (pmm_all_used m) i = true /\ refcount (pmm_all_used m) i = 1.
Proof.
  intros Hi. split.
  - rewrite frame_is_used_testbit by lia. simpl. rewrite zget_replicate by dlia.
    apply (Z.ones_spec_low 8). dlia.
  - apply zget_replicate. lia.
Qed.

Lemma pmm_all_used_wf m : 0 < m <= PMM_NUM_FRAMES -> pmm_wf (pmm_all_used m).
Proof.
  intros Hm. split; simpl; try done.
  - rewrite zlen_replicate. dlia.
  - by apply Forall_replicate.
  - rewrite zlen_replicate. lia.
  - by apply Forall_replicate.
  - intros i Hi. by destruct (pmm_all_used_used m i Hi) as [-> ->].
  - rewrite count_below_none; [done|].
    intros i Hi. by destruct (pmm_all_used_used m i) as [-> _]; [lia|].
  - lia.
Qed.

Lemma pmm_all_used_table m a :
  managed_frame (pmm_all_used m) a -> pmm_table (pmm_all_used m) !! a = Some 1.
Proof.
  intros (i & Hi & ->). rewrite pmm_table_idx by done.
  by destruct (pmm_all_used_used m i Hi) as [-> ->].
Qed.

(** A sequence of range updates: each step applies [g] to the frames [c] selects,
    and [g] is idempotent, so the sequence applies it where some step does. *)
Lemma range_steps_table {X} (step : pmm -> X -> pmm) (c : Z -> X -> bool)
    (g : option Z -> option Z) xs p :
  (forall o, g (g o) = g o) ->
  (forall q x, x ∈ xs -> pmm_wf q -> s_max_phys q = s_max_phys p ->
     (forall a, managed_frame q a ->
        pmm_table (step q x) !! a = if c a x then g (pmm_table q !! a) else pmm_table q !! a) /\
     same_window q (step q x) /\ pmm_wf (step q x)) ->
  pmm_wf p ->
  (forall a, managed_frame p a ->
     pmm_table (foldl step p xs) !! a =
     if existsb (c a) xs then g (pmm_table p !! a) else pmm_table p !! a) /\
  same_window p (foldl step p xs) /\ pmm_wf (foldl step p xs).
Proof.
  intros Hg. revert p. induction xs as [|x xs IH]; intros p Hstep Hp; [done|].
  destruct (Hstep p x) as (Ht & Hw & Hq); [left|done|done|].
  destruct (IH (step p x)) as (Ht' & Hw' & Hq').
  { intros q y Hy Hwf Hx. apply Hstep; [by right|done|]. destruct Hw as (_ & ? & _). congruence. }
  { done. }
  simpl. split_and!; [|by eapply same_window_trans|done].
  intros a Ha. rewrite Ht' by (by apply (same_window_managed p)). rewrite Ht by done.
  destruct (c a x), (existsb (c a) xs); simpl; rewrite ?Hg; done.
Qed.

Lemma pmm_free_e820_usable_ranges_table info p :
  boot_info_typed info -> boot_info_e820_valid info = true -> pmm_wf p ->
  let q := pmm_free_e820_usable_ranges info p in
  (forall a, managed_frame p a ->
     pmm_table q !! a = if existsb (entry_usable a) (e820_entries info) then None
                        else pmm_table p !! a) /\
  same_window p q /\ pmm_wf q.
Proof.
  intros Hty Hv Hp. unfold pmm_free_e820_usable_ranges.
  apply (range_steps_table pmm_free_e820_entry entry_usable (fun _ => None)); [done| |done].
  intros q ent Hin Hq _.
  destruct (e820_valid_no_wrap info ent Hty Hv Hin) as [Hl Hw].
  pose proof (e820_entries_typed _ Hty) as Hall. rewrite Forall_forall in Hall.
  destruct (Hall _ Hin) as [Hb _].
  assert (Hsame : (forall a, managed_frame q a -> entry_usable a ent = false) ->
    (forall a, managed_frame q a -> pmm_table q !! a =
       if entry_usable a ent then None else pmm_table q !! a) /\ same_window q q /\ pmm_wf q).
  { intros Hno. split_and!; [|done..]. intros a Ha. by rewrite Hno. }
  pose proof (wf_managed q Hq). pose proof (wf_max_phys q Hq).
  unfold pmm_free_e820_entry. rewrite Hw.
  destruct (_ || (e820_length ent =? 0)) eqn:E1.
  { apply Hsame. intros a _. unfold entry_usable. lia. }
  destruct (_ || _) eqn:E2 in |- *.
  { apply Hsame. intros a Ha. pose proof (managed_frame_range q a Hq Ha).
    unfold entry_usable. pmm_consts. lia. }
  rewrite (u32_small (e820_base ent)) by (pmm_consts; dlia).
  set (s := if e820_base ent <? PMM_BASE then _ else _).
  set (e := if s_max_phys q <? _ then _ else _).
  assert (e = Z.min (s_max_phys q) (e820_base ent + e820_length ent)) as Ee.
  { subst e. case_match; [lia|]. rewrite u32_small; [lia|pmm_consts; dlia]. }
  destruct (pmm_mark_range_free_table q s e Hq) as (Ht & Hw' & Hq').
  { subst s. pmm_consts. case_match; dlia. }
  { rewrite Ee. pmm_consts. dlia. }
  split_and!; [|done..]. intros a Ha. rewrite Ht by done.
  pose proof (managed_frame_range q a Hq Ha).
  assert ((s <=? a) && (a + PMM_FRAME_SIZE <=? e) = entry_usable a ent) as ->; [|done].
  unfold entry_usable. rewrite Ee. clear Ht Hw' Hq'. subst s. clear e Ee. pmm_consts. case_match; lia.
Qed.

Lemma pmm_free_usable_table info p :
  boot_info_typed info -> pmm_wf p ->
  let q := if boot_info_e820_valid info then pmm_free_e820_usable_ranges info p
           else pmm_free_fixed_range p in
  (forall a, managed_frame p a ->
     pmm_table q !! a = if frame_usable info a then None else pmm_table p !! a) /\
  same_window p q /\ pmm_wf q.
Proof.
  intros Hty Hp. unfold frame_usable. destruct (boot_info_e820_valid info) eqn:Hv.
  - by apply pmm_free_e820_usable_ranges_table.
  - destruct (pmm_mark_range_free_table p PMM_BASE (PMM_BASE + PMM_FALLBACK_SIZE) Hp)
      as (Ht & Hw & Hq); [pmm_consts; lia..|].
    split_and!; [|done..]. intros a Ha. unfold pmm_free_fixed_range. rewrite Ht by done.
    pose proof (managed_frame_range p a Hp Ha). pmm_consts. by zcase; try lia.
Qed.

Lemma map_pmm_comp f g k : map_pmm f (map_pmm g k) = map_pmm (fun p => f (g p)) k.
Proof. done. Qed.

Lemma memory_get_heap_top_map f k : memory_get_heap_top (map_pmm f k) = heap_current k.
Proof. done. Qed.

Lemma pmm_reserve_boot_ranges_fold info k :
  pmm_reserve_boot_ranges info k =
  map_pmm (fun p => foldl (fun q r => pmm_mark_range_used (fst r) (snd r) q) p
                      (boot_ranges info (heap_current k))) k.
Proof.
  unfold pmm_reserve_boot_ranges, boot_ranges. cbv zeta.
  rewrite !map_pmm_comp, !memory_get_heap_top_map.
  destruct (boot_info_framebuffer_valid info), (boot_info_ramdisk_valid info);
    rewrite ?map_pmm_comp; reflexivity.
Qed.

Ltac boot_consts :=
  unfold BOOT_INFO_PHYS, SIZEOF_BOOT_INFO, BOOT_FONT_PHYS, KERNEL_BOOT_STACK_TOP, PMM_FRAME_SIZE in *.

Lemma boot_ranges_typed info h r :
  boot_info_typed info -> 0 <= h < 2 ^ 32 -> r ∈ boot_ranges info h ->
  0 <= fst r < 2 ^ 32 /\ 0 <= snd r < 2 ^ 32.
Proof.
  intros (_ & _ & Hf & _ & _ & Hr & _) Hh Hin. revert r Hin. apply Forall_forall.
  unfold boot_ranges. rewrite !Forall_app. split_and!.
  - repeat (apply Forall_cons_2; [cbn [fst snd]; boot_consts; lia|]). apply Forall_nil_2.
  - case_match; [apply Forall_singleton|apply Forall_nil_2]. split; [done|apply u32_range].
  - case_match; [apply Forall_singleton|apply Forall_nil_2]. split; [done|apply u32_range].
Qed.

(** Metadata placement: both arrays are bump allocations, so the heap grows by at
    most 6 bytes more than they need, and memory is found at any boot heap address. *)
Lemma pmm_metadata_init_spec info ram k :
  s_ready (km_pmm k) = false -> 0 < heap_current k < 0xF0000000 ->
  exists m h bm rc,
    0 < m <= PMM_NUM_FRAMES /\ pmm_detect_max_phys info = PMM_BASE + m * PMM_FRAME_SIZE /\
    heap_current k + (m + 7) / 8 + 2 * m <= h <= heap_current k + (m + 7) / 8 + 2 * m + 6 /\
    zlen bm = (m + 7) / 8 /\ zlen rc = m /\
    pmm_metadata_init info ram k = Some (Kmem (heap_base k) h
      (Pmm bm rc ((m + 7) / 8) m (PMM_BASE + m * PMM_FRAME_SIZE) (s_free_count (km_pmm k))
         (s_total_count (km_pmm k)) (s_next_free (km_pmm k)) false)).
Proof.
  intros Hr Hh. destruct (pmm_detect_max_phys_spec info) as [Hm Hal].
  unfold pmm_metadata_init. set (mx := pmm_detect_max_phys info) in *.
  rewrite (u32_small (mx - PMM_BASE)) by (pmm_consts; lia).
  set (m := (mx - PMM_BASE) / PMM_FRAME_SIZE).
  assert (0 < m <= PMM_NUM_FRAMES /\ mx = PMM_BASE + m * PMM_FRAME_SIZE) as [Hmr Emx]
    by (subst m; pmm_consts; dlia).
  rewrite (proj2 (Z.ltb_ge PMM_NUM_FRAMES m)) by lia.
  assert (m < 70000) by (pmm_consts; dlia).
  rewrite (u32_small (m + 7)), (u32_small (m * 2)) by lia.
  set (k1 := map_pmm _ k).
  destruct (kmalloc_spec ((m + 7) / 8) k1) as (h1 & -> & Hh1 & _); [subst k1; simpl; dlia..|].
  rewrite pmm_reserve_unready by done.
  set (k2 := set_heap_current h1 k1).
  assert (heap_current k2 = h1) as Ek2 by done.
  assert (heap_current k1 = heap_current k) as Ek1 by done.
  destruct (kmalloc_spec (m * 2) k2) as (h2 & -> & Hh2 & _); [dlia..|].
  rewrite pmm_reserve_unready by done.
  rewrite (proj2 (Z.eqb_neq (heap_current k1) 0)), (proj2 (Z.eqb_neq (heap_current k2) 0)) by dlia.
  exists m, h2, ((fun i => u8 (ram (heap_current k1 + i))) <$> seqZ 0 ((m + 7) / 8)),
    ((fun i => u16 (ram (heap_current k2 + 2 * i))) <$> seqZ 0 m).
  unfold zlen. rewrite !length_fmap, !length_seqZ.
  split_and!; try done; try dlia.
  rewrite <- Emx. cbn [orb]. rewrite <- Hr. reflexivity.
Qed.

(** Everything [pmm_init] establishes, for any boot information. *)
Lemma pmm_init_spec info ram k :
  boot_info_typed info -> s_ready (km_pmm k) = false -> 0 < heap_current k < 0xF0000000 ->
  exists k', pmm_init info ram k = Some k' /\
    let p := km_pmm k' in
    pmm_wf p /\ s_ready p = true /\ s_total_count p = s_free_count p /\
    s_max_phys p = pmm_detect_max_phys info /\
    heap_base k' = heap_base k /\ heap_current k < heap_current k' < 0xF0030000 /\
    forall a, managed_frame p a ->
      pmm_table p !! a =
      if frame_usable info a && negb (frame_reserved info (heap_current k') a)
      then None else Some 1.
Proof.
  intros Hty Hr Hh.
  destruct (pmm_metadata_init_spec info ram k Hr Hh) as (m & h & bm & rc & Hm & Hx & Hh' & Hb & Hrc & E).
  assert (m < 70000) by (pmm_consts; dlia).
  unfold pmm_init. rewrite E. eexists. split; [reflexivity|]. cbv zeta.
  set (k0 := map_pmm pmm_fill_metadata _).
  assert (k0 = Kmem (heap_base k) h (pmm_all_used m)) as -> by
    (subst k0; unfold map_pmm, pmm_fill_metadata; simpl;
     by rewrite (fill_loop 0 255 bm _ Hb), (fill_loop 0 1 rc _ Hrc)).
  destruct (pmm_free_usable_table info (pmm_all_used m) Hty (pmm_all_used_wf m Hm)) as (Ht1 & Hw1 & Hq1).
  set (k1 := if boot_info_e820_valid info then _ else _).
  set (q1 := if boot_info_e820_valid info then _ else _) in Ht1, Hw1, Hq1.
  assert (k1 = Kmem (heap_base k) h q1) as -> by (subst k1 q1; by case_match).
  rewrite pmm_reserve_boot_ranges_fold. cbn [heap_current km_pmm heap_base map_pmm].
  destruct (range_steps_table (fun q r => pmm_mark_range_used r.1 r.2 q) touches
    (fun o => Some (default 1 o)) (boot_ranges info h) q1) as (Ht2 & Hw2 & Hq2); [done| |done|].
  { intros q r Hr' Hq _. destruct (boot_ranges_typed info h r Hty) as [? ?]; [dlia|done|].
    by apply pmm_mark_range_used_table. }
  set (q2 := foldl _ _ _) in *. clearbody q1 q2. clear E.
  destruct (same_window_trans _ _ _ Hw1 Hw2) as (W1 & W2 & W3 & W4).
  split_and!; try done; try dlia.
  - by destruct Hq2.
  - simpl. by rewrite W2, Hx.
  - intros a Ha. assert (managed_frame (pmm_all_used m) a) as Ha0 
      by (unfold managed_frame in *; simpl in *; by rewrite <- W1).
    change (pmm_table (Pmm _ _ _ _ _ _ _ _ _)) with (pmm_table q2).
    rewrite Ht2, Ht1, pmm_all_used_table by (done || by apply (same_window_managed _ _ _ Hw1)).
    unfold frame_reserved. by destruct (frame_usable info a), (existsb _ _).
Qed.

(** ** The heap and the frame allocator together *)

Inductive mem_op :=
  | MKmalloc (size : Z)
  | MKmallocPage
  | MPmm (op : pmm_op).

Definition mem_step (op : mem_op) (k : kmem) : Z * kmem :=
  match op with
  | MKmalloc size => kmalloc size k
  | MKmallocPage => kmalloc_page k
  | MPmm op => let '(r, p) := pmm_step op (km_pmm k) in
               (r, Kmem (heap_base k) (heap_current k) p)
  end.

(** The kernel image and the bump heap. *)
Definition kernel_range (k : kmem) : Z * Z := (0x100000, heap_current k).

(** Frames that were in use, by the owner of a frame or otherwise, when the heap grew
    over them: those of [over], and those the step from [k] to [k'] adds. *)
Definition overgrown (over : Z -> Prop) (k k' : kmem) (a : Z) : Prop :=
  over a \/ managed_frame (km_pmm k) a /\ is_Some (pmm_table (km_pmm k) !! a)
    /\ touches a (kernel_range k) = false /\ touches a (kernel_range k') = true.

(** A caller may give back the frame [a]: it is not a frame of the kernel range, or it
    was in use before the heap grew over it. *)
Definition may_return (over : Z -> Prop) (k : kmem) (a : Z) : Prop := touches a (kernel_range k) = false \/ over a.

(** Arguments of the C types, a heap that does not reach the end of the address
    space, and callers that give back no frame that only the kernel range held. *)
Definition mem_ok (over : Z -> Prop) (op : mem_op) (k : kmem) : Prop :=
  match op with
  | MKmalloc size => 0 < size /\ heap_current k + size + 3 < 2 ^ 32
  | MKmallocPage => heap_current k + 8192 < 2 ^ 32
  | MPmm op => op_ok op /\
      match op with
      | OpRelease a => may_return over k (frame_base a)
      | OpFreeRun a n => forall i, 0 <= i < n -> may_return over k (a + i * PMM_FRAME_SIZE)
      | _ => True
      end
  end.

(** The states after [k], with the frames that have been overgrown since. *)
Inductive mem_reach (k : kmem) : kmem -> (Z -> Prop) -> Prop :=
  | MemStart : mem_reach k k (fun _ => False)
  | MemStep k1 over op r k2 :
      mem_reach k k1 over -> mem_ok over op k1 -> mem_step op k1 = (r, k2) -> mem_reach k k2 (overgrown over k1 k2).

(** Every managed frame of the kernel range is marked in use, unless it was overgrown. *)
Record mem_inv (over : Z -> Prop) (k : kmem) : Prop := MemInv {
  inv_pmm : pmm_wf (km_pmm k);
  inv_ready : s_ready (km_pmm k) = true;
  inv_top : 0 <= heap_current k < 2 ^ 32;
  inv_kernel : forall a, managed_frame (km_pmm k) a -> touches a (kernel_range k) = true ->
    over a \/ is_Some (pmm_table (km_pmm k) !! a)
}.

Lemma spec_alloc_run_mono a n t x : is_Some (t !! x) -> is_Some (spec_alloc_run a n t !! x).
Proof.
  unfold spec_alloc_run. revert t. induction (up_to 0 n 1) as [|i l IH]; intros t Ht; [done|].
  simpl. apply IH. rewrite lookup_insert_is_Some. destruct (decide (a + i * PMM_FRAME_SIZE = x)); auto.
Qed.

Lemma spec_release_ne a t x : a <> x -> spec_release a t !! x = t !! x.
Proof.
  intros Hne. unfold spec_release. case_match; [|done].
  case_match; [by rewrite lookup_delete_ne|by rewrite lookup_insert_ne].
Qed.

Lemma spec_retain_mono a t b t' x :
  spec_retain a t = (b, t') -> is_Some (t !! x) -> is_Some (t' !! x).
Proof.
  unfold spec_retain. intros E Hx. repeat case_match; simplify_eq; try done.
  rewrite lookup_insert_is_Some. destruct (decide (a = x)); auto.
Qed.

(** A frame of the kernel range stays in use, unless it was overgrown. *)
Lemma spec_step_kernel over k op r t' a :
  mem_ok over (MPmm op) k ->
  spec_step (managed_frame (km_pmm k)) (s_ready (km_pmm k)) op (pmm_table (km_pmm k)) r t' ->
  managed_frame (km_pmm k) a -> touches a (kernel_range k) = true ->
  is_Some (pmm_table (km_pmm k) !! a) -> over a \/ is_Some (t' !! a).
Proof.
  intros [Hop Hok] Hs Ha Ht Hi. unfold may_return in Hok. destruct Hs; try by right.
  - right. rewrite lookup_insert_is_Some. destruct (decide (a0 = a)); auto.
  - right. by apply spec_alloc_run_mono.
  - right. by eapply spec_retain_mono.
  - destruct (decide (frame_base addr = a)) as [<-|Hne]; [|right; by rewrite spec_release_ne].
    simpl in Hok. destruct Hok as [Hf|]; [congruence|by left].
  - simpl in Hop. unfold spec_release_run.
    apply (foldl_count (fun _ t' => over a \/ is_Some (t' !! a))); [lia|by right|].
    intros i t' Hi' [|IH]; [by left|]. destruct (decide (addr + i * PMM_FRAME_SIZE = a)) as [<-|Hne].
    + destruct (Hok i Hi') as [Hf|]; [congruence|by left].
    + right. by rewrite spec_release_ne.
  - right. rewrite H by done. case_match; [by eexists|done].
Qed.

(** A bump allocation reserves the frames it grows over. *)
Lemma heap_grow_inv over k lo h :
  mem_inv over k -> heap_current k <= lo < heap_current k + PMM_FRAME_SIZE -> lo <= h < 2 ^ 32 ->
  let k' := map_pmm (pmm_reserve_range lo h) (set_heap_current h k) in mem_inv (overgrown over k k') k'.
Proof.
  intros [Hp Hr Ht Hk] Hlo Hh k'. unfold k' at 2. unfold map_pmm, pmm_reserve_range. simpl. rewrite Hr. simpl.
  destruct (pmm_mark_range_used_table (km_pmm k) lo h Hp) as (E & Hw & Hq); [lia..|].
  split; simpl; [done|by destruct Hw as (_ & _ & _ & ->)|lia|].
  intros a Ha Hin. apply (same_window_managed _ _ _ Hw) in Ha. rewrite E by done.
  destruct (_ && _) eqn:Ec; [right; by eexists|].
  destruct (Hk a Ha) as [Ho|Hs]; [|left; by left|by right].
  unfold touches, kernel_range in *. simpl in *. pmm_consts. lia.
Qed.

Lemma mem_step_inv over op k r k' :
  mem_inv over k -> mem_ok over op k -> mem_step op k = (r, k') ->
  mem_inv (overgrown over k k') k' /\ heap_current k <= heap_current k'.
Proof.
  intros Hk Hok Hs. pose proof Hk as [Hp Hr Ht Hin]. destruct op as [size| |op]; simpl in *.
  - destruct (kmalloc_spec size k) as (h & E & Hh & _); [lia..|].
    rewrite E in Hs. simplify_eq. split; [apply heap_grow_inv; [done|unfold PMM_FRAME_SIZE; lia|lia]|simpl; lia].
  - destruct (kmalloc_page_spec k) as (a & E & Ha & _); [lia..|].
    rewrite E in Hs. simplify_eq. split; [apply heap_grow_inv; [done|unfold PMM_FRAME_SIZE; lia|lia]|simpl; lia].
  - pose proof (pmm_step_spec op (km_pmm k) Hp (proj1 Hok)) as Hst.
    destruct (pmm_step op (km_pmm k)) as [r' p]. destruct Hst as (Hst & Hw & Hq). simplify_eq.
    split; [|done]. split; simpl; [done|by destruct Hw as (_ & _ & _ & ->)|done|].
    intros a Ha Hin'. apply (same_window_managed _ _ _ Hw) in Ha.
    destruct (Hin a Ha Hin') as [|Hs]; [left; by left|].
    destruct (spec_step_kernel over k op r (pmm_table p) a) as [|]; try done; [left; by left|by right].
Qed.

Lemma pmm_init_mem_inv info ram k k' :
  boot_info_typed info -> s_ready (km_pmm k) = false -> 0 < heap_current k < 0xF0000000 ->
  pmm_init info ram k = Some k' -> mem_inv (fun _ => False) k'.
Proof.
  intros Hty Hr Hh E. destruct (pmm_init_spec info ram k Hty Hr Hh)
    as (k1 & E' & Hp & Hrd & _ & _ & _ & Hh' & Ht).
  rewrite E in E'. simplify_eq. split; [done|done|lia|].
  intros a Ha Hin. rewrite Ht by done.
  assert (frame_reserved info (heap_current k1) a = true) as ->.
  { unfold frame_reserved. apply existsb_exists. exists (kernel_range k1). split; [|done].
    unfold boot_ranges. simpl. tauto. }
  rewrite andb_false_r. right. by eexists.
Qed.

(** Only memory that the heap has taken since [k] is overgrown. *)
Lemma mem_reach_inv k k' over :
  mem_inv (fun _ => False) k -> mem_reach k k' over ->
  mem_inv over k' /\ heap_current k <= heap_current k' /\ forall a, over a -> touches a (kernel_range k) = false.
Proof.
  intros Hk. induction 1 as [|k1 over op r k2 Hr (IH1 & IH2 & IH3) Hok Hs]; [by split_and!; [|lia|]|].
  destruct (mem_step_inv _ _ _ _ _ IH1 Hok Hs) as [Hinv Hle]. split_and!; [done|lia|].
  intros a [Ho|(_ & _ & Hf & _)]; [by apply IH3|]. unfold touches, kernel_range in *. simpl in *. lia.
Qed.

(** ** Properties *)

(** A 31-frame machine: one usable region with a hole at its end, a ramdisk in
    the middle, no framebuffer. *)
Definition boot_info_example : boot_info :=
  BootInfo BOOT_INFO_MAGIC BOOT_INFO_VERSION SIZEOF_BOOT_INFO 0 0 0 0 0 0 0 2 1
    [BootE820 0 0x9F000 1 0; BootE820 0x100000 0x11F800 1 0] 0x203000 0x1800 1 0.

Definition kmem_boot : kmem := Kmem 0x1FF000 0x1FF000 pmm_static.

Lemma boot_info_example_typed : boot_info_typed boot_info_example.
Proof.
  unfold boot_info_typed. simpl. split_and!; try lia.
  repeat (apply Forall_cons_2; [unfold e820_entry_typed; simpl; lia|]). apply Forall_nil_2.
Qed.

(** C2: booting the frame allocator.  For any contents of the boot information
    block and any prior contents of RAM, [pmm_init] returns (the metadata always
    fits), the allocator state is well formed, and a managed frame is free after
    boot exactly when it lies inside one usable E820 region (or the fallback
    range, without a valid E820 map) and touches none of the ranges the kernel
    keeps: boot data, stack, kernel image and heap, framebuffer, ramdisk.  All
    other managed frames hold exactly one reference. *)
Theorem pmm_init_correct info ram k :
  boot_info_typed info -> s_ready (km_pmm k) = false -> 0 < heap_current k < 0xF0000000 ->
  exists k', pmm_init info ram k = Some k' /\ pmm_wf (km_pmm k') /\
    s_ready (km_pmm k') = true /\ s_total_count (km_pmm k') = s_free_count (km_pmm k') /\
    s_max_phys (km_pmm k') = pmm_detect_max_phys info /\
    forall a, managed_frame (km_pmm k') a ->
      pmm_table (km_pmm k') !! a =
      if frame_usable info a && negb (frame_reserved info (heap_current k') a)
      then None else Some 1.
Proof.
  intros Hty Hr Hh. destruct (pmm_init_spec info ram k Hty Hr Hh)
    as (k' & E & Hp & Hrd & Htot & Hx & _ & _ & Ht). exists k'. by split_and!.
Qed.

Lemma pmm_init_correct_witness :
  match pmm_init boot_info_example (fun a => a) kmem_boot with
  | Some k' => s_free_count (km_pmm k') = 29 /\ pmm_wf (km_pmm k')
  | None => False
  end.
Proof.
  destruct (pmm_init_correct boot_info_example (fun a => a) kmem_boot
    boot_info_example_typed eq_refl) as (k' & E & Hp & _).
  - split; reflexivity.
  - rewrite E. split; [|exact Hp]. vm_compute in E. injection E as <-. reflexivity.
Defined.

(** C28: frames of the kernel range.  After boot, along any sequence of heap allocations
    and frame operations whose callers give back no frame that only the kernel held, a
    frame or a run of frames the allocator returns contains no frame of the kernel image
    and of the heap at boot, and a frame the heap has taken since only if that frame was
    already in use when the heap grew over it (see [kmalloc_can_overlap_allocated_frame]
    for such a frame). *)
Theorem kernel_range_allocation info ram k0 k1 k2 over op count a k3 :
  boot_info_typed info -> s_ready (km_pmm k0) = false -> 0 < heap_current k0 < 0xF0000000 ->
  pmm_init info ram k0 = Some k1 -> mem_reach k1 k2 over ->
  (op = OpAlloc /\ count = 1 \/ op = OpAllocRun count) -> mem_ok over (MPmm op) k2 ->
  mem_step (MPmm op) k2 = (a, k3) -> a <> 0 ->
  forall i, 0 <= i < count -> let f := a + i * PMM_FRAME_SIZE in
    touches f (kernel_range k1) = false /\ (touches f (kernel_range k2) = true -> over f).
Proof.
  intros Hty Hr Hh E Hreach Hop Hok Hs Ha i Hi f.
  destruct (mem_reach_inv _ _ _ (pmm_init_mem_inv _ _ _ _ Hty Hr Hh E) Hreach) as ([Hp _ _ Hin] & Hle & Hover).
  simpl in Hs. pose proof (pmm_step_spec op (km_pmm k2) Hp (proj1 Hok)) as Hst.
  destruct (pmm_step op (km_pmm k2)) as [r p]. destruct Hst as (Hst & _ & _). simplify_eq.
  assert (managed_frame (km_pmm k2) f /\ pmm_table (km_pmm k2) !! f = None) as [Hm Hn].
  { destruct Hop as [[-> ->]| ->]; inversion Hst; subst; try done.
    - unfold f. assert (i = 0) as -> by lia. by rewrite Z.mul_0_l, Z.add_0_r.
    - match goal with H : spec_run_free _ _ _ _ |- _ => by apply H end. }
  assert (Ho : touches f (kernel_range k2) = true -> over f).
  { intros Ht. destruct (Hin f Hm Ht) as [|[x Hx]]; [done|congruence]. }
  split; [|done]. destruct (touches f (kernel_range k1)) eqn:Et; [|done].
  rewrite <- Et. apply Hover, Ho. unfold touches, kernel_range in *. simpl in *. lia.
Qed.

(** The boot state of the example and the state after the heap has grown by two pages. *)
Definition mem_example (word : Z) : kmem := default kmem_boot (pmm_init boot_info_example (fun _ => word) kmem_boot).
Definition mem_example_grown : kmem := snd (mem_step (MKmalloc 0x2000) (mem_example 7)).

Lemma kernel_range_allocation_witness :
  pmm_init boot_info_example (fun _ => 7) kmem_boot = Some (mem_example 7) /\
  (exists over, mem_reach (mem_example 7) mem_example_grown over) /\
  fst (mem_step (MPmm OpAlloc) mem_example_grown) = 0x202000 /\
  touches (0x202000 + 0 * PMM_FRAME_SIZE) (kernel_range (mem_example 7)) = false.
Proof.
  set (over := overgrown (fun _ => False) (mem_example 7) mem_example_grown).
  assert (Hb : pmm_init boot_info_example (fun _ => 7) kmem_boot = Some (mem_example 7)) by (vm_compute; reflexivity).
  assert (Hreach : mem_reach (mem_example 7) mem_example_grown over).
  { apply (MemStep _ _ _ (MKmalloc 0x2000) (fst (mem_step (MKmalloc 0x2000) (mem_example 7)))); [apply MemStart| |apply surjective_pairing].
    vm_compute. split; reflexivity. }
  assert (Ha : fst (mem_step (MPmm OpAlloc) mem_example_grown) = 0x202000) by (vm_compute; reflexivity).
  split; [exact Hb|]. split; [exists over; exact Hreach|]. split; [exact Ha|].
  apply (kernel_range_allocation boot_info_example (fun _ => 7) kmem_boot (mem_example 7) mem_example_grown over OpAlloc 1 0x202000
    (snd (mem_step (MPmm OpAlloc) mem_example_grown)) boot_info_example_typed eq_refl).
  - split; reflexivity.
  - exact Hb.
  - exact Hreach.
  - left. split; reflexivity.
  - split; exact I.
  - rewrite <- Ha. apply surjective_pairing.
  - discriminate.
  - split; reflexivity || discriminate.
Defined.

(** The reservation is one-way.  [pmm_reserve_range] leaves frames that are
    already in use as they are, so a bump allocation made after boot can return
    memory that overlaps a frame the allocator handed out before; when its owner gives
    the frame back the allocator hands it out again, although it is heap memory. *)
Theorem kmalloc_can_overlap_allocated_frame :
  exists a k2 b k3 k4 k5, mem_step (MPmm OpAlloc) (mem_example 0) = (a, k2) /\ a <> 0 /\
    mem_step (MKmalloc 0x2000) k2 = (b, k3) /\ b < a + PMM_FRAME_SIZE /\ a < b + 0x2000 /\
    pmm_table (km_pmm k3) !! a = Some 1 /\
    mem_step (MPmm (OpRelease a)) k3 = (0, k4) /\ mem_step (MPmm OpAlloc) k4 = (a, k5) /\
    touches a (kernel_range k5) = true.
Proof.
  do 6 eexists. split; [vm_compute; reflexivity|]. split; [discriminate|].
  split; [vm_compute; reflexivity|]. split; [vm_compute; reflexivity|]. split; [vm_compute; reflexivity|].
  split; [vm_compute; reflexivity|]. split; [vm_compute; reflexivity|]. split; vm_compute; reflexivity.
Qed.
