(* ===== verification/Paging.v ===== *)
(** * Paging

    Models [src/src/kernel/paging.c]: the two-level page tables of the kernel and of
    the processes, held in physical memory.

    Physical memory is a function from a frame's base address and a word index to
    the 32-bit word stored there.  Kernel pointers are virtual addresses: a
    dereference goes through [kernel_translate], the identity below the alias window
    and the window's translation inside it; [paging_init_walk] shows that the page
    tables [paging_init] builds implement exactly this translation.  TLB
    invalidation has no effect on the model (a changed entry is visible at once).
    [paging_panic] is [halt]. *)
From S2P Require Import Prelude BootInfo Pmm Memory.
From Stdlib Require Import ZArith Lia ZifyBool Bool.
From stdpp Require Import base numbers gmap list.
Local Open Scope Z_scope.
Local Open Scope kernel_scope.

Definition PAGE_PRESENT : Z := 0x001.
Definition PAGE_WRITE : Z := 0x002.
Definition PAGE_USER : Z := 0x004.
Definition PAGE_SHARED_RO_FILE : Z := 0x200.
Definition PAGE_COW : Z := 0x400.
Definition PAGE_SIZE : Z := 4096.
Definition PAGE_ALIGN (a : Z) : Z := Z.land (u32 (a + PAGE_SIZE - 1)) (u32 (Z.lnot (PAGE_SIZE - 1))).

Definition KERNEL_PMM_MAP_BASE : Z := 0xE0000000.
Definition KERNEL_PMM_MAP_SIZE : Z := PMM_SIZE.
Definition KERNEL_PMM_MAP_END : Z := KERNEL_PMM_MAP_BASE + KERNEL_PMM_MAP_SIZE.
Definition USER_CODE_BASE : Z := 0x400000.
Definition USER_STACK_TOP : Z := 0xC0000000.

Definition PD_ENTRIES : Z := 1024.
Definition PT_ENTRIES : Z := 1024.
Definition KERNEL_PMM_MAP_PD_INDEX : Z := Z.shiftr KERNEL_PMM_MAP_BASE 22.
Definition KERNEL_PMM_MAP_TABLES : Z := Z.shiftr (KERNEL_PMM_MAP_SIZE + 0x3FFFFF) 22.
Definition KERNEL_FB_MAP_PD_INDEX : Z := Z.shiftr 0xD0000000 22.
Definition KERNEL_HIGH_MMIO_PD_INDEX : Z := Z.shiftr 0xFE000000 22.
Definition KERNEL_HIGH_MMIO_TABLES : Z := 8.
Definition USER_PD_FIRST_INDEX : Z := Z.shiftr USER_CODE_BASE 22.
Definition USER_PD_LIMIT_INDEX : Z := Z.shiftr USER_STACK_TOP 22.

(** Where the linker places the static, page-aligned tables. *)
Record layout := Layout {
  kernel_page_directory : Z;
  low_page_table_0 : Z;
  low_page_table_1 : Z;
  framebuffer_page_table : Z;
  high_mmio_page_tables : Z;
  pmm_map_page_tables : Z
}.

Record machine := Machine {
  m_kmem : kmem;
  m_mem : Z -> Z -> Z;
  m_cr3 : Z;
  m_paging : bool
}.

Definition set_kmem (k : kmem) (s : machine) : machine :=
  Machine k (m_mem s) (m_cr3 s) (m_paging s).
Definition set_pmm (p : pmm) (s : machine) : machine :=
  set_kmem (map_pmm (fun _ => p) (m_kmem s)) s.
Definition set_mem (mem : Z -> Z -> Z) (s : machine) : machine :=
  Machine (m_kmem s) mem (m_cr3 s) (m_paging s).
Definition m_pmm (s : machine) : pmm := km_pmm (m_kmem s).

(** Calls into the allocators. *)
Definition alloc_frame : M machine Z :=
  lift (fun s => let '(a, p) := pmm_alloc_frame (m_pmm s) in (a, set_pmm p s)).
Definition retain_frame (a : Z) : M machine bool :=
  lift (fun s => let '(b, p) := pmm_retain_frame a (m_pmm s) in (b, set_pmm p s)).
Definition release_frame (a : Z) : M machine unit :=
  modify (fun s => set_pmm (pmm_release_frame a (m_pmm s)) s).
Definition free_frame (a : Z) : M machine unit :=
  modify (fun s => set_pmm (pmm_free_frame a (m_pmm s)) s).
Definition kmalloc_page_ : M machine Z :=
  lift (fun s => let '(a, k) := kmalloc_page (m_kmem s) in (a, set_kmem k s)).

(** ** Memory accesses *)

(** The physical address the kernel's permanent mappings give a kernel pointer. *)
Definition kernel_translate (virt : Z) : Z :=
  if (KERNEL_PMM_MAP_BASE <=? virt) && (virt <? KERNEL_PMM_MAP_END)
  then PMM_BASE + (virt - KERNEL_PMM_MAP_BASE) else virt.

Definition page_of (a : Z) : Z := a - a mod 4096.

(** [ptr[i]] for a [u32* ptr]. *)
Definition read_word (ptr i : Z) : M machine Z :=
  gets (fun s => let a := kernel_translate (u32 (ptr + 4 * i)) in
                 m_mem s (page_of a) (a mod 4096 / 4)).

Definition mem_write (f i v : Z) (mem : Z -> Z -> Z) : Z -> Z -> Z :=
  fun f' i' => if (f' =? f) && (i' =? i) then v else mem f' i'.

(** [ptr[i] = v]. *)
Definition write_word (ptr i v : Z) : M machine unit :=
  modify (fun s => let a := kernel_translate (u32 (ptr + 4 * i)) in
                   set_mem (mem_write (page_of a) (a mod 4096 / 4) v (m_mem s)) s).

Definition mem_copy_page (dst src : Z) (mem : Z -> Z -> Z) : Z -> Z -> Z :=
  fun f' i' => if f' =? dst then mem src i' else mem f' i'.
Definition mem_zero_page (f : Z) (mem : Z -> Z -> Z) : Z -> Z -> Z :=
  fun f' i' => if f' =? f then 0 else mem f' i'.

(** [k_memset(ptr, 0, PAGE_SIZE)] and [k_memcpy(dst, src, PAGE_SIZE)] on
    page-aligned pointers. *)
Definition zero_page (ptr : Z) : M machine unit :=
  modify (fun s => set_mem (mem_zero_page (page_of (kernel_translate ptr)) (m_mem s)) s).
Definition copy_page (dst src : Z) : M machine unit :=
  modify (fun s => set_mem (mem_copy_page (page_of (kernel_translate dst))
                              (page_of (kernel_translate src)) (m_mem s)) s).

Definition flush_cr3 (pd_phys : Z) : M machine unit :=
  modify (fun s => Machine (m_kmem s) (m_mem s) pd_phys (m_paging s)).
Definition enable_paging : M machine unit :=
  modify (fun s => Machine (m_kmem s) (m_mem s) (m_cr3 s) true).
Definition paging_panic {A} : M machine A := halt.

Definition when (c : bool) (m : M machine unit) : M machine unit := if c then m else ret tt.

(** [(e & mask) == mask] and [e & bit]. *)
Definition has_all (e mask : Z) : bool := Z.land e mask =? mask.
Definition has (e bit : Z) : bool := negb (Z.land e bit =? 0).
(** [e & ~0xFFF], [e & 0xFFF] and [e & ~bit]. *)
Definition pte_frame (e : Z) : Z := Z.land e (u32 (Z.lnot 0xFFF)).
Definition pte_flags (e : Z) : Z := Z.land e 0xFFF.
Definition clear (e bits : Z) : Z := Z.land e (u32 (Z.lnot bits)).

(** ** Internal helpers *)

Definition paging_phys_is_pmm_frame (phys : Z) : bool :=
  (PMM_BASE <=? phys) && (phys <? PMM_BASE + PMM_SIZE).

Definition paging_virt_is_pmm_alias (virt : Z) : bool :=
  (KERNEL_PMM_MAP_BASE <=? virt) && (virt <? KERNEL_PMM_MAP_END).

Definition paging_phys_to_kernel_virt (phys : Z) : M machine Z :=
  if negb (paging_phys_is_pmm_frame phys) then paging_panic
  else ret (u32 (KERNEL_PMM_MAP_BASE + u32 (phys - PMM_BASE))).

Definition paging_kernel_virt_to_phys (virt : Z) : M machine Z :=
  if negb (paging_virt_is_pmm_alias virt) then paging_panic
  else ret (u32 (PMM_BASE + u32 (virt - KERNEL_PMM_MAP_BASE))).

Definition paging_pt_virt (phys : Z) : M machine Z :=
  if paging_phys_is_pmm_frame phys then paging_phys_to_kernel_virt phys else ret phys.

Definition paging_pd_index_is_user (index : Z) : bool :=
  (USER_PD_FIRST_INDEX <=? index) && (index <? USER_PD_LIMIT_INDEX).

Definition paging_invalidate (virt : Z) : M machine unit := ret tt.

Section Paging.
Variable L : layout.
Local Abbreviation kpd := (kernel_page_directory L).

Definition paging_pd_virt (pd : Z) : M machine Z :=
  if pd =? kpd then ret pd else paging_phys_to_kernel_virt pd.

(** ** Public interface *)

Definition paging_init : M machine unit :=
  for_each (up_to 0 PT_ENTRIES 1) (fun i =>
    write_word (low_page_table_0 L) i (Z.lor (Z.lor (u32 (i * PAGE_SIZE)) PAGE_PRESENT) PAGE_WRITE)) ;;;
  write_word kpd 0 (Z.lor (Z.lor (low_page_table_0 L) PAGE_PRESENT) PAGE_WRITE) ;;;
  for_each (up_to 0 PT_ENTRIES 1) (fun i =>
    write_word (low_page_table_1 L) i
      (Z.lor (Z.lor (u32 (0x400000 + i * PAGE_SIZE)) PAGE_PRESENT) PAGE_WRITE)) ;;;
  write_word kpd 1 (Z.lor (Z.lor (low_page_table_1 L) PAGE_PRESENT) PAGE_WRITE) ;;;
  write_word kpd KERNEL_FB_MAP_PD_INDEX
    (Z.lor (Z.lor (framebuffer_page_table L) PAGE_PRESENT) PAGE_WRITE) ;;;
  for_each (up_to 0 KERNEL_HIGH_MMIO_TABLES 1) (fun t =>
    write_word kpd (KERNEL_HIGH_MMIO_PD_INDEX + t)
      (Z.lor (Z.lor (high_mmio_page_tables L + t * 4096) PAGE_PRESENT) PAGE_WRITE)) ;;;
  for_each (up_to 0 KERNEL_PMM_MAP_TABLES 1) (fun t =>
    for_each (up_to 0 PT_ENTRIES 1) (fun i =>
      let page := u32 (t * PT_ENTRIES + i) in
      when (page <? PMM_NUM_FRAMES)
        (write_word (pmm_map_page_tables L + t * 4096) i
          (Z.lor (Z.lor (u32 (PMM_BASE + page * PAGE_SIZE)) PAGE_PRESENT) PAGE_WRITE))) ;;;
    write_word kpd (KERNEL_PMM_MAP_PD_INDEX + t)
      (Z.lor (Z.lor (pmm_map_page_tables L + t * 4096) PAGE_PRESENT) PAGE_WRITE)) ;;;
  flush_cr3 kpd ;;;
  enable_paging.

Definition paging_map_page (pd virt phys flags : Z) : M machine unit :=
  let pd_index := Z.shiftr virt 22 in
  let pt_index := Z.land (Z.shiftr virt 12) 0x3FF in
  pd_virt <- paging_pd_virt pd ;;
  let flags := Z.lor flags PAGE_PRESENT in
  pde <- read_word pd_virt pd_index ;;
  pt <- (if has pde PAGE_PRESENT then paging_pt_virt (pte_frame pde)
         else
           r <- (if pd =? kpd then
               pt <- kmalloc_page_ ;;
               if pt =? 0 then paging_panic else ret (pt, pt)
             else
               frame <- alloc_frame ;;
               if frame =? 0 then paging_panic else
               pt <- paging_phys_to_kernel_virt frame ;;
               ret (frame, pt)) ;;
           let '(pt_phys, pt) := r in
           zero_page pt ;;;
           write_word pd_virt pd_index
             (Z.lor (Z.lor (Z.lor pt_phys PAGE_PRESENT) PAGE_WRITE) PAGE_USER) ;;;
           ret pt) ;;
  old <- read_word pt pt_index ;;
  when (negb (pd =? kpd) && has_all old (Z.lor PAGE_PRESENT PAGE_USER)
        && paging_phys_is_pmm_frame (pte_frame old))
    (free_frame (pte_frame old)) ;;;
  write_word pt pt_index (Z.lor (pte_frame phys) flags) ;;;
  paging_invalidate virt.

Definition paging_map_kernel_range (virt phys size flags : Z) : M machine unit :=
  if size =? 0 then ret tt else
  let virt_start := clear virt (PAGE_SIZE - 1) in
  let phys_start := clear phys (PAGE_SIZE - 1) in
  let offset := u32 (virt - virt_start) in
  let total := PAGE_ALIGN (u32 (size + offset)) in
  for_each (up_to 0 total PAGE_SIZE) (fun mapped =>
    paging_map_page kpd (u32 (virt_start + mapped)) (u32 (phys_start + mapped)) flags).

Definition paging_get_kernel_pd : Z := kpd.

Definition process_pd_create : M machine Z :=
  frame <- alloc_frame ;;
  if frame =? 0 then paging_panic else
  pd <- paging_phys_to_kernel_virt frame ;;
  zero_page pd ;;;
  for_each (up_to 0 PD_ENTRIES 1) (fun i =>
    if paging_pd_index_is_user i then ret tt else
    e <- read_word kpd i ;;
    write_word pd i e) ;;;
  ret frame.

(** [process_pd_destroy], one page directory entry. *)
Definition destroy_entry (pd_virt i : Z) : M machine unit :=
  e <- read_word pd_virt i ;;
  ke <- read_word kpd i ;;
  if e =? ke then ret tt else
  if negb (has e PAGE_PRESENT) then ret tt else
  let pt_phys := pte_frame e in
  pt <- paging_pt_virt pt_phys ;;
  for_each (up_to 0 PT_ENTRIES 1) (fun j =>
    pte <- read_word pt j ;;
    when (has_all pte (Z.lor PAGE_PRESENT PAGE_USER)
          && paging_phys_is_pmm_frame (pte_frame pte))
      (free_frame (pte_frame pte))) ;;;
  free_frame pt_phys ;;;
  write_word pd_virt i 0.

Definition process_pd_destroy (pd : Z) : M machine unit :=
  if pd =? 0 then ret tt else
  pd_virt <- paging_pd_virt pd ;;
  for_each (up_to USER_PD_FIRST_INDEX USER_PD_LIMIT_INDEX 1) (destroy_entry pd_virt) ;;;
  free_frame pd.

(** The sharing steps of [process_pd_clone_user] that take a reference first and
    give the whole clone up when the count is saturated: [Some 0] is [return 0]. *)
Definition clone_retain (dst_pd src_frame : Z) (k : M machine unit) : M machine (option Z) :=
  ok <- retain_frame src_frame ;;
  if negb ok then process_pd_destroy dst_pd ;;; ret (Some 0) else
  k ;;; ret None.

(** [process_pd_clone_user], one page table entry. *)
Definition clone_pte (may_write : option (Z -> bool)) (dst_pd src_pt i j : Z) : M machine (option Z) :=
  pte <- read_word src_pt j ;;
  if negb (has_all pte (Z.lor PAGE_PRESENT PAGE_USER)) then ret None else
  let src_frame := pte_frame pte in
  let src_flags := pte_flags pte in
  let virt := Z.lor (Z.shiftl i 22) (Z.shiftl j 12) in
  if negb (paging_phys_is_pmm_frame src_frame) then
    paging_map_page dst_pd virt src_frame src_flags ;;; ret None
  else if has src_flags PAGE_SHARED_RO_FILE then
    clone_retain dst_pd src_frame
      (paging_map_page dst_pd virt src_frame (clear src_flags PAGE_WRITE))
  else
    let can_write := match may_write with Some f => f virt | None => false end in
    if has src_flags PAGE_COW then
      clone_retain dst_pd src_frame
        (paging_map_page dst_pd virt src_frame (clear src_flags PAGE_WRITE))
    else if has src_flags PAGE_WRITE || can_write then
      clone_retain dst_pd src_frame
        (write_word src_pt j
           (Z.lor src_frame (Z.lor (Z.lor (clear src_flags PAGE_WRITE) PAGE_COW) PAGE_PRESENT)) ;;;
         paging_invalidate virt ;;;
         paging_map_page dst_pd virt src_frame (Z.lor (clear src_flags PAGE_WRITE) PAGE_COW))
    else
      clone_retain dst_pd src_frame
        (paging_map_page dst_pd virt src_frame (clear src_flags PAGE_WRITE)).

(** [process_pd_clone_user], one page directory entry. *)
Definition clone_pde (may_write : option (Z -> bool)) (dst_pd src i : Z) : M machine (option Z) :=
  e <- read_word src i ;;
  ke <- read_word kpd i ;;
  if e =? ke then ret None else
  if negb (has e PAGE_PRESENT) then ret None else
  src_pt <- paging_pt_virt (pte_frame e) ;;
  for_return (up_to 0 PT_ENTRIES 1) (clone_pte may_write dst_pd src_pt i).

Definition process_pd_clone_user (src_pd : Z) (may_write : option (Z -> bool)) : M machine Z :=
  if src_pd =? 0 then ret 0 else
  dst_pd <- process_pd_create ;;
  if dst_pd =? 0 then ret 0 else
  src <- paging_pd_virt src_pd ;;
  r <- for_return (up_to USER_PD_FIRST_INDEX USER_PD_LIMIT_INDEX 1) (clone_pde may_write dst_pd src) ;;
  match r with Some v => ret v | None => ret dst_pd end.

(** [paging_user_page_get]: [Some (phys, flags)] is a return value of 1. *)
Definition paging_user_page_get (pd virt : Z) : M machine (option (Z * Z)) :=
  if pd =? 0 then ret None else
  let page := clear virt (PAGE_SIZE - 1) in
  let pd_index := Z.shiftr page 22 in
  let pt_index := Z.land (Z.shiftr page 12) 0x3FF in
  if negb (paging_pd_index_is_user pd_index) then ret None else
  pd_virt <- paging_pd_virt pd ;;
  pde <- read_word pd_virt pd_index ;;
  if negb (has_all pde (Z.lor PAGE_PRESENT PAGE_USER)) then ret None else
  pt <- paging_pt_virt (pte_frame pde) ;;
  pte <- read_word pt pt_index ;;
  if negb (has_all pte (Z.lor PAGE_PRESENT PAGE_USER)) then ret None else
  ret (Some (pte_frame pte, pte_flags pte)).

Definition paging_user_page_present (pd virt : Z) : M machine bool :=
  r <- paging_user_page_get pd virt ;;
  ret (match r with Some _ => true | None => false end).

Definition paging_user_page_set_flags (pd virt clear_flags set_flags : Z) : M machine bool :=
  if pd =? 0 then ret false else
  let page := clear virt (PAGE_SIZE - 1) in
  let pd_index := Z.shiftr page 22 in
  let pt_index := Z.land (Z.shiftr page 12) 0x3FF in
  if negb (paging_pd_index_is_user pd_index) then ret false else
  pd_virt <- paging_pd_virt pd ;;
  pde <- read_word pd_virt pd_index ;;
  if negb (has_all pde (Z.lor PAGE_PRESENT PAGE_USER)) then ret false else
  pt <- paging_pt_virt (pte_frame pde) ;;
  pte <- read_word pt pt_index ;;
  if negb (has_all pte (Z.lor PAGE_PRESENT PAGE_USER)) then ret false else
  write_word pt pt_index
    (Z.lor (Z.lor (Z.lor (clear pte clear_flags) set_flags) PAGE_PRESENT) PAGE_USER) ;;;
  paging_invalidate page ;;;
  ret true.

Definition paging_pt_empty (pt : Z) : M machine bool :=
  r <- for_return (up_to 0 PT_ENTRIES 1) (fun i =>
    e <- read_word pt i ;;
    if has e PAGE_PRESENT then ret (Some false) else ret None) ;;
  match r with Some b => ret b | None => ret true end.

Definition paging_unmap_user_page (pd virt : Z) : M machine bool :=
  if pd =? 0 then ret false else
  let page := clear virt (PAGE_SIZE - 1) in
  let pd_index := Z.shiftr page 22 in
  let pt_index := Z.land (Z.shiftr page 12) 0x3FF in
  if negb (paging_pd_index_is_user pd_index) then ret false else
  pd_virt <- paging_pd_virt pd ;;
  pde <- read_word pd_virt pd_index ;;
  if negb (has pde PAGE_PRESENT) then ret false else
  ke <- read_word kpd pd_index ;;
  if pde =? ke then ret false else
  let pt_phys := pte_frame pde in
  pt <- paging_pt_virt pt_phys ;;
  pte <- read_word pt pt_index ;;
  if negb (has pte PAGE_PRESENT) then ret false else
  when (has pte PAGE_USER && paging_phys_is_pmm_frame (pte_frame pte))
    (release_frame (pte_frame pte)) ;;;
  write_word pt pt_index 0 ;;;
  paging_invalidate page ;;;
  empty <- paging_pt_empty pt ;;
  when empty
    (write_word pd_virt pd_index 0 ;;;
     when (paging_phys_is_pmm_frame pt_phys) (release_frame pt_phys)) ;;;
  ret true.

Definition paging_resolve_cow_fault (pd fault_addr : Z) : M machine bool :=
  if pd =? 0 then ret false else
  let virt := clear fault_addr (PAGE_SIZE - 1) in
  let pd_index := Z.shiftr virt 22 in
  let pt_index := Z.land (Z.shiftr virt 12) 0x3FF in
  if negb (paging_pd_index_is_user pd_index) then ret false else
  pd_virt <- paging_pd_virt pd ;;
  pde <- read_word pd_virt pd_index ;;
  if negb (has pde PAGE_PRESENT) then ret false else
  pt <- paging_pt_virt (pte_frame pde) ;;
  pte <- read_word pt pt_index ;;
  if negb (has_all pte (Z.lor (Z.lor PAGE_PRESENT PAGE_USER) PAGE_COW)) then ret false else
  if has pte PAGE_WRITE then ret false else
  let old_frame := pte_frame pte in
  if negb (paging_phys_is_pmm_frame old_frame) then ret false else
  let flags := pte_flags pte in
  refs <- gets (fun s => pmm_frame_refcount old_frame (m_pmm s)) ;;
  let new_flags := clear (clear (Z.lor flags PAGE_WRITE) PAGE_COW) PAGE_SHARED_RO_FILE in
  if refs <=? 1 then
    write_word pt pt_index (Z.lor old_frame new_flags) ;;;
    paging_invalidate virt ;;;
    ret true
  else
  new_frame <- alloc_frame ;;
  if new_frame =? 0 then ret false else
  dst <- paging_phys_to_kernel_virt new_frame ;;
  src <- paging_phys_to_kernel_virt old_frame ;;
  copy_page dst src ;;;
  write_word pt pt_index (Z.lor new_frame new_flags) ;;;
  paging_invalidate virt ;;;
  release_frame old_frame ;;;
  ret true.

(** [process_pd_count_private_frames], one page directory entry. *)
Definition count_entry (pd_virt frames i : Z) : M machine Z :=
  e <- read_word pd_virt i ;;
  ke <- read_word kpd i ;;
  if e =? ke then ret frames else
  if negb (has e PAGE_PRESENT) then ret frames else
  pt <- paging_pt_virt (pte_frame e) ;;
  for_acc (up_to 0 PT_ENTRIES 1) (u32 (frames + 1)) (fun frames j =>
    pte <- read_word pt j ;;
    refs <- gets (fun s => pmm_frame_refcount (pte_frame pte) (m_pmm s)) ;;
    ret (if has_all pte (Z.lor PAGE_PRESENT PAGE_USER)
            && paging_phys_is_pmm_frame (pte_frame pte) && (refs <=? 1)
         then u32 (frames + 1) else frames)).

Definition process_pd_count_private_frames (pd : Z) : M machine Z :=
  if pd =? 0 then ret 0 else
  pd_virt <- paging_pd_virt pd ;;
  for_acc (up_to 0 PD_ENTRIES 1) 1 (count_entry pd_virt).

Definition paging_switch (pd : Z) : M machine unit :=
  if pd =? kpd then flush_cr3 pd
  else if paging_virt_is_pmm_alias pd then
    phys <- paging_kernel_virt_to_phys pd ;; flush_cr3 phys
  else flush_cr3 pd.
End Paging.
