(* ===== verification/AddressSpace.v ===== *)
(** * Process address spaces: ownership, reference counts and isolation

    Proofs about [Paging]: the invariant that relates the page directories and page
    tables in physical memory to the reference counts of the frame allocator, and
    what each operation on an address space does to it. *)
From S2P Require Import Prelude BootInfo Pmm Memory Paging.
From Stdlib Require Import ZArith Lia ZifyBool Bool.
From stdpp Require Import base numbers gmap list fin_maps.
Local Open Scope Z_scope.
Local Open Scope kernel_scope.

Ltac paging_consts :=
  unfold KERNEL_PMM_MAP_END, KERNEL_PMM_MAP_BASE, KERNEL_PMM_MAP_SIZE, PAGE_SIZE, PD_ENTRIES,
    PT_ENTRIES in *; pmm_consts.

(** ** Entries *)

Lemma pte_frame_eq e : 0 <= e < 2 ^ 32 -> pte_frame e = e - e mod 4096.
Proof. apply land_page_mask. Qed.

Lemma pte_flags_eq e : pte_flags e = e mod 4096.
Proof. apply land_page_offset. Qed.

Lemma has_flags e b : 0 <= b < 4096 -> has e b = has (e mod 4096) b.
Proof. intros. unfold has. by rewrite land_flags. Qed.

Lemma has_all_flags e b : 0 <= b < 4096 -> has_all e b = has_all (e mod 4096) b.
Proof. intros. unfold has_all. by rewrite land_flags. Qed.

Section Entry.
Context (f fl : Z).
Hypothesis Hf : f mod 4096 = 0.
Hypothesis Hr : 0 <= f < 2 ^ 32.
Hypothesis Hfl : 0 <= fl < 4096.

Lemma entry_mod : (f + fl) mod 4096 = fl.
Proof. dlia. Qed.

Lemma entry_range : 0 <= f + fl < 2 ^ 32.
Proof. dlia. Qed.

Lemma entry_frame : pte_frame (f + fl) = f.
Proof. rewrite pte_frame_eq by apply entry_range. rewrite entry_mod. lia. Qed.

Lemma entry_flags : pte_flags (f + fl) = fl.
Proof. rewrite pte_flags_eq. apply entry_mod. Qed.

Lemma entry_has b : 0 <= b < 4096 -> has (f + fl) b = has fl b.
Proof. intros. rewrite has_flags by done. by rewrite entry_mod. Qed.

Lemma entry_has_all b : 0 <= b < 4096 -> has_all (f + fl) b = has_all fl b.
Proof. intros. rewrite has_all_flags by done. by rewrite entry_mod. Qed.
End Entry.

Lemma pte_frame_spec e :
  0 <= e < 2 ^ 32 -> pte_frame e mod 4096 = 0 /\ 0 <= pte_frame e < 2 ^ 32 /\
  0 <= pte_flags e < 4096 /\ e = pte_frame e + pte_flags e.
Proof. intros He. rewrite pte_frame_eq, pte_flags_eq by done. split_and!; dlia. Qed.

(** ** Pointers *)

(** The kernel pointer [ptr] addresses the frame at [f]. *)
Record kptr (ptr f : Z) : Prop := Kptr {
  kptr_aligned : ptr mod 4096 = 0;
  kptr_range : 0 <= ptr /\ ptr + 4096 <= 2 ^ 32;
  kptr_frame : f mod 4096 = 0;
  kptr_translate : forall o, 0 <= o < 4096 -> kernel_translate (ptr + o) = f + o
}.

Lemma kptr_word ptr f i :
  kptr ptr f -> 0 <= i < 1024 ->
  let a := kernel_translate (u32 (ptr + 4 * i)) in page_of a = f /\ a mod 4096 / 4 = i.
Proof.
  intros [Ha Hr Hf Ht] Hi. rewrite u32_small by lia. rewrite Ht by lia. unfold page_of. split; dlia.
Qed.

Lemma kptr_page ptr f : kptr ptr f -> page_of (kernel_translate ptr) = f.
Proof.
  intros [Ha Hr Hf Ht]. replace ptr with (ptr + 0) by lia. rewrite Ht by lia. unfold page_of. dlia.
Qed.

Lemma kptr_identity f : 0 <= f -> f + 4096 <= KERNEL_PMM_MAP_BASE -> f mod 4096 = 0 -> kptr f f.
Proof.
  intros H1 H2 H3. unfold KERNEL_PMM_MAP_BASE in *. split; try lia. intros o Ho.
  unfold kernel_translate. paging_consts. rewrite (proj2 (andb_false_iff _ _)); [done|left; lia].
Qed.

Definition alias (f : Z) : Z := KERNEL_PMM_MAP_BASE + (f - PMM_BASE).

Lemma kptr_alias f : paging_phys_is_pmm_frame f = true -> f mod 4096 = 0 -> kptr (alias f) f.
Proof.
  unfold paging_phys_is_pmm_frame, alias. intros Hp Hf. paging_consts. split; try dlia.
  intros o Ho. unfold kernel_translate. paging_consts.
  rewrite (proj2 (andb_true_iff _ _)); [lia|]. split; dlia.
Qed.

Lemma phys_to_virt_alias f :
  paging_phys_is_pmm_frame f = true -> paging_phys_to_kernel_virt f = ret (alias f).
Proof.
  intros Hp. unfold paging_phys_to_kernel_virt. rewrite Hp. simpl. f_equal. unfold alias.
  unfold paging_phys_is_pmm_frame in Hp. paging_consts. rewrite (u32_small (f - _)) by lia. by rewrite u32_small by lia.
Qed.

Section Access.
Context (ptr f : Z).
Hypothesis Hp : kptr ptr f.

Lemma runs_read i s (Q : Z -> machine -> Prop) :
  0 <= i < 1024 -> Q (m_mem s f i) s -> runs (read_word ptr i) s Q.
Proof. intros Hi HQ. apply runs_gets. cbv beta zeta. by destruct (kptr_word ptr f i Hp Hi) as [-> ->]. Qed.

Lemma runs_write i v s (Q : unit -> machine -> Prop) :
  0 <= i < 1024 -> Q tt (set_mem (mem_write f i v (m_mem s)) s) -> runs (write_word ptr i v) s Q.
Proof. intros Hi HQ. apply runs_modify. cbv beta zeta. by destruct (kptr_word ptr f i Hp Hi) as [-> ->]. Qed.

Lemma runs_zero s (Q : unit -> machine -> Prop) :
  Q tt (set_mem (mem_zero_page f (m_mem s)) s) -> runs (zero_page ptr) s Q.
Proof. intros HQ. apply runs_modify. by rewrite (kptr_page ptr f Hp). Qed.
End Access.

(** ** References held by page tables *)

(** The entry is a user mapping of the allocator's frame [f]. *)
Definition pte_maps (e f : Z) : bool :=
  has_all e (Z.lor PAGE_PRESENT PAGE_USER) && paging_phys_is_pmm_frame (pte_frame e)
  && (pte_frame e =? f).

Definition pt_refs (mem : Z -> Z -> Z) (pt f : Z) : Z :=
  count_below (fun j => pte_maps (mem pt j) f) (Z.to_nat PT_ENTRIES).

(** Page tables by page directory and index. *)
Definition refs (mem : Z -> Z -> Z) (pts : gmap (Z * Z) Z) (f : Z) : Z :=
  map_fold (fun _ pt n => pt_refs mem pt f + n) 0 pts.

Lemma refs_insert mem pts k pt f :
  pts !! k = None -> refs mem (<[k := pt]> pts) f = pt_refs mem pt f + refs mem pts f.
Proof.
  intros Hk. unfold refs. rewrite map_fold_insert_L; [done| |done].
  intros. lia.
Qed.

Lemma refs_delete mem pts k pt f :
  pts !! k = Some pt -> refs mem pts f = pt_refs mem pt f + refs mem (delete k pts) f.
Proof.
  intros Hk. rewrite <- (insert_delete_id pts k pt Hk) at 1.
  apply refs_insert, lookup_delete_eq.
Qed.

Lemma pt_refs_ext mem mem' pt f :
  (forall j, 0 <= j < 1024 -> mem pt j = mem' pt j) -> pt_refs mem pt f = pt_refs mem' pt f.
Proof. intros H. apply count_below_ext. unfold PT_ENTRIES. intros j Hj. by rewrite H by lia. Qed.

Lemma refs_ext mem mem' pts f :
  (forall k pt j, pts !! k = Some pt -> 0 <= j < 1024 -> mem pt j = mem' pt j) ->
  refs mem pts f = refs mem' pts f.
Proof.
  induction pts as [|k pt pts Hk IH] using map_ind; intros H; [done|].
  rewrite !refs_insert by done. f_equal.
  - apply pt_refs_ext. intros j Hj. apply (H k); [apply lookup_insert_eq|done].
  - apply IH. intros k' pt' j Hk'. apply (H k'). rewrite lookup_insert_ne; [done|congruence].
Qed.

Lemma refs_maps_ext mem mem' pts f :
  (forall k pt j, pts !! k = Some pt -> 0 <= j < 1024 ->
     pte_maps (mem pt j) f = pte_maps (mem' pt j) f) ->
  refs mem pts f = refs mem' pts f.
Proof.
  induction pts as [|k pt pts Hk IH] using map_ind; intros H; [done|].
  rewrite !refs_insert by done. f_equal.
  - apply count_below_ext. unfold PT_ENTRIES. intros j Hj.
    apply (H k); [apply lookup_insert_eq|lia].
  - apply IH. intros k' pt' j Hk'. apply (H k'). rewrite lookup_insert_ne; [done|congruence].
Qed.

Lemma refs_nonneg mem pts f : 0 <= refs mem pts f.
Proof.
  induction pts as [|k pt pts Hk IH] using map_ind; [done|].
  rewrite refs_insert by done. pose proof (count_below_bounds (fun j => pte_maps (mem pt j) f) (Z.to_nat PT_ENTRIES)).
  unfold pt_refs. lia.
Qed.

Lemma refs_pos mem pts k pt j f :
  pts !! k = Some pt -> 0 <= j < 1024 -> pte_maps (mem pt j) f = true -> 0 < refs mem pts f.
Proof.
  intros Hk Hj Hm. rewrite (refs_delete _ _ k pt) by done.
  pose proof (refs_nonneg mem (delete k pts) f).
  pose proof (count_below_pos (fun j => pte_maps (mem pt j) f) (Z.to_nat PT_ENTRIES) j ltac:(unfold PT_ENTRIES; lia) Hm).
  unfold pt_refs. lia.
Qed.

Lemma refs_zero mem pts f :
  (forall k pt j, pts !! k = Some pt -> 0 <= j < 1024 -> pte_maps (mem pt j) f = false) ->
  refs mem pts f = 0.
Proof.
  induction pts as [|k pt pts Hk IH] using map_ind; intros H; [done|].
  rewrite refs_insert by done. rewrite IH.
  - unfold pt_refs. rewrite count_below_none; [done|]. unfold PT_ENTRIES. intros j Hj.
    apply (H k); [apply lookup_insert_eq|lia].
  - intros k' pt' j Hk'. apply (H k'). rewrite lookup_insert_ne; [done|congruence].
Qed.

(** Tables of [A] correspond, injectively, to tables of [B] with as many references. *)
Lemma refs_inject (memA memB : Z -> Z -> Z) (A B : gmap (Z * Z) Z) (g : Z * Z -> Z * Z) f :
  (forall k k', g k = g k' -> k = k') ->
  (forall k pt, A !! k = Some pt -> exists pt' : Z, B !! g k = Some pt' /\
     pt_refs memA pt f <= pt_refs memB pt' f) ->
  refs memA A f <= refs memB B f.
Proof.
  intros Hg. revert B. induction A as [|k pt A Hk IH] using map_ind; intros B H.
  - apply refs_nonneg.
  - destruct (H k pt (lookup_insert_eq _ _ _)) as (pt' & HB & Hle).
    rewrite refs_insert, (refs_delete memB B (g k) pt') by done.
    enough (refs memA A f <= refs memB (delete (g k) B) f) by lia.
    apply IH. intros k2 pt2 Hk2. destruct (H k2 pt2) as (pt2' & HB2 & Hle2).
    { rewrite lookup_insert_ne; [done|congruence]. }
    exists pt2'. split; [|done]. rewrite lookup_delete_ne; [done|].
    intros E%Hg. congruence.
Qed.

Lemma refs_union (mem : Z -> Z -> Z) (A B : gmap (Z * Z) Z) (f : Z) :
  A ##ₘ B -> refs mem (A ∪ B) f = refs mem A f + refs mem B f.
Proof.
  induction A as [|k pt A Hk IH] using map_ind; intros Hd.
  - by rewrite map_empty_union.
  - apply map_disjoint_insert_l in Hd as [HBk Hd].
    rewrite <- insert_union_l, !refs_insert, IH by (done || by apply lookup_union_None). lia.
Qed.

Lemma count_below_le f g n :
  (forall i, 0 <= i < Z.of_nat n -> f i = true -> g i = true) -> count_below f n <= count_below g n.
Proof.
  induction n as [|n IH]; intros H; simpl; [lia|].
  specialize (IH ltac:(intros; apply H; [lia|done])).
  pose proof (H (Z.of_nat n) ltac:(lia)). destruct (f (Z.of_nat n)); [|destruct (g _); lia].
  rewrite H0 by done. lia.
Qed.

Lemma mem_write_eq f i v mem : mem_write f i v mem f i = v.
Proof. unfold mem_write. by rewrite !Z.eqb_refl. Qed.

Lemma mem_write_ne f i v mem f' i' : f' <> f \/ i' <> i -> mem_write f i v mem f' i' = mem f' i'.
Proof. intros H. unfold mem_write. zcase; try done. lia. Qed.

Lemma pt_refs_write mem pt j e f :
  0 <= j < 1024 ->
  pt_refs (mem_write pt j e mem) pt f =
  pt_refs mem pt f - Z.b2z (pte_maps (mem pt j) f) + Z.b2z (pte_maps e f).
Proof.
  intros Hj. unfold pt_refs.
  pose proof (count_below_update (fun i => pte_maps (mem_write pt j e mem pt i) f)
    (fun i => pte_maps (mem pt i) f) (Z.to_nat PT_ENTRIES) j ltac:(unfold PT_ENTRIES; lia)) as H.
  cbv beta in H. rewrite mem_write_eq in H. unfold Z.b2z.
  assert (forall i, 0 <= i < Z.of_nat (Z.to_nat PT_ENTRIES) -> i <> j ->
    pte_maps (mem_write pt j e mem pt i) f = pte_maps (mem pt i) f) as Hi
    by (intros i _ Hne; by rewrite mem_write_ne by auto).
  specialize (H Hi). lia.
Qed.

Lemma refs_write mem pts k pt j e f :
  pts !! k = Some pt -> (forall k', pts !! k' = Some pt -> k' = k) -> 0 <= j < 1024 ->
  refs (mem_write pt j e mem) pts f =
  refs mem pts f - Z.b2z (pte_maps (mem pt j) f) + Z.b2z (pte_maps e f).
Proof.
  intros Hk Hinj Hj. rewrite !(refs_delete _ pts k pt f) by done.
  rewrite pt_refs_write by done.
  rewrite (refs_ext (mem_write pt j e mem) mem (delete k pts)); [lia|].
  intros k' pt' j' Hk' _. apply lookup_delete_Some in Hk' as [Hne Hk'].
  apply mem_write_ne. left. intros ->. by apply Hne, eq_sym, Hinj.
Qed.

(** ** The invariant *)

Definition user_index (i : Z) : Prop := USER_PD_FIRST_INDEX <= i < USER_PD_LIMIT_INDEX.

(** [f] is a page directory or a page table of some process. *)
Definition is_table (pds : gset Z) (pts : gmap (Z * Z) Z) (f : Z) : Prop :=
  f ∈ pds \/ exists k, pts !! k = Some f.

Lemma is_table_dec pds pts f : is_table pds pts f \/ ~ is_table pds pts f.
Proof.
  unfold is_table. destruct (decide (f ∈ pds)); [by left; left|].
  destruct (decide (map_Exists (fun _ pt => pt = f) pts)) as [He|Hn].
  - left. right. destruct He as (k & pt & Hk & <-). eauto.
  - right. intros [?|(k & Hk)]; [done|]. apply Hn. by exists k, f.
Qed.

(** A word a page table may hold: a user mapping of an allocator frame names a
    managed frame that is neither a paging structure of a process nor [kpd]. *)
Definition pte_ok (kpd : Z) (pds : gset Z) (pts : gmap (Z * Z) Z) (p : pmm) (e : Z) : Prop :=
  0 <= e < 2 ^ 32 /\
  forall f, pte_maps e f = true -> managed_frame p f /\ ~ is_table pds pts f /\ f <> kpd.

(** References to [f] recorded by the allocator. *)
Definition frame_refs (p : pmm) (f : Z) : Z := default 0 (pmm_table p !! f).

(** [pds] are the page directories of the live processes, [pts] their page tables
    and [ext f] the references to [f] held outside of page tables (page cache,
    kernel stacks, frames in the hands of the caller).  Paging structures have one
    owner, and every other count is the number of mappings plus [ext]. *)
Record vm_rep (kpd : Z) (pds : gset Z) (pts : gmap (Z * Z) Z) (ext : Z -> Z)
    (p : pmm) (mem : Z -> Z -> Z) : Prop := VmRep {
  vr_pmm : pmm_wf p;
  vr_pde : forall pd i, pd ∈ pds -> user_index i ->
    mem pd i = match pts !! (pd, i) with Some pt => pt + 7 | None => 0 end;
  vr_dom : forall pd i pt, pts !! (pd, i) = Some pt -> pd ∈ pds /\ user_index i;
  vr_table : forall f, is_table pds pts f ->
    managed_frame p f /\ pmm_table p !! f = Some 1 /\ ext f = 0 /\ f <> kpd;
  vr_sep : forall k pt, pts !! k = Some pt -> pt ∉ pds;
  vr_inj : forall k k' pt, pts !! k = Some pt -> pts !! k' = Some pt -> k' = k;
  vr_pte : forall k pt j, pts !! k = Some pt -> 0 <= j < 1024 -> pte_ok kpd pds pts p (mem pt j);
  vr_refs : forall f, managed_frame p f -> ~ is_table pds pts f ->
    frame_refs p f = ext f + refs mem pts f;
  vr_ext : forall f, 0 <= ext f;
  vr_kpd : managed_frame p kpd -> 0 < ext kpd;
  vr_kpd_user : forall i, user_index i -> 0 <= mem kpd i < 2 ^ 32 /\ has (mem kpd i) PAGE_USER = false
}.

(** The entry the processor finds for virtual page [v] of directory [pd]; 0 when
    there is no page table. *)
Definition user_pte (mem : Z -> Z -> Z) (pd v : Z) : Z :=
  let pde := mem pd (v / 1024) in
  if has pde PAGE_PRESENT then mem (pte_frame pde) (v mod 1024) else 0.

Definition user_page (v : Z) : Prop := user_index (v / 1024).

Section Rep.
Context {kpd : Z} {pds : gset Z} {pts : gmap (Z * Z) Z} {ext : Z -> Z} {p : pmm} {mem : Z -> Z -> Z}.
Hypothesis R : vm_rep kpd pds pts ext p mem.

Lemma table_frame f :
  is_table pds pts f -> paging_phys_is_pmm_frame f = true /\ f mod 4096 = 0 /\ 0 <= f < 2 ^ 32.
Proof.
  intros Hf. destruct (vr_table _ _ _ _ _ _ R f Hf) as [Hm _].
  destruct (managed_frame_range p f (vr_pmm _ _ _ _ _ _ R) Hm) as (H1 & H2 & H3 & H4 & _).
  unfold paging_phys_is_pmm_frame. pmm_consts. lia.
Qed.

Lemma table_kptr f : is_table pds pts f -> kptr (alias f) f.
Proof. intros Hf. destruct (table_frame f Hf) as (H1 & H2 & _). by apply kptr_alias. Qed.

Lemma is_table_pd pd : pd ∈ pds -> is_table pds pts pd.
Proof. by left. Qed.

Lemma is_table_pt k pt : pts !! k = Some pt -> is_table pds pts pt.
Proof. right. by exists k. Qed.

(** A directory entry for a page table is present, a user entry, and names it. *)
Lemma pde_decode k pt :
  pts !! k = Some pt ->
  has (pt + 7) PAGE_PRESENT = true /\ has_all (pt + 7) (Z.lor PAGE_PRESENT PAGE_USER) = true /\
  has (pt + 7) PAGE_USER = true /\ pte_frame (pt + 7) = pt.
Proof.
  intros Hk. destruct (table_frame pt (is_table_pt k pt Hk)) as (_ & Ha & Hr).
  rewrite !entry_has, entry_has_all, entry_frame by (done || by vm_compute). done.
Qed.

Lemma user_pte_rep pd v :
  pd ∈ pds -> user_page v ->
  user_pte mem pd v =
  match pts !! (pd, v / 1024) with Some pt => mem pt (v mod 1024) | None => 0 end.
Proof.
  intros Hpd Hv. unfold user_pte. rewrite (vr_pde _ _ _ _ _ _ R) by done.
  destruct (pts !! (pd, v / 1024)) as [pt|] eqn:E; [|done].
  by destruct (pde_decode _ _ E) as (-> & _ & _ & ->).
Qed.

(** An entry that maps a frame keeps it allocated. *)
Lemma pte_maps_allocated k pt j f :
  pts !! k = Some pt -> 0 <= j < 1024 -> pte_maps (mem pt j) f = true ->
  managed_frame p f /\ ~ is_table pds pts f /\ f <> kpd /\ 0 < frame_refs p f /\
  pmm_table p !! f = Some (frame_refs p f).
Proof.
  intros Hk Hj Hm. destruct (vr_pte _ _ _ _ _ _ R k pt j Hk Hj) as [_ Hok].
  destruct (Hok f Hm) as (H1 & H2 & H3).
  pose proof (vr_refs _ _ _ _ _ _ R f H1 H2) as E. pose proof (vr_ext _ _ _ _ _ _ R f).
  pose proof (refs_pos mem pts k pt j f Hk Hj Hm).
  assert (0 < frame_refs p f) as Hpos by lia. split_and!; try done.
  unfold frame_refs in *. destruct (pmm_table p !! f); [done|simpl in *; lia].
Qed.

(** A free frame is not a paging structure, is not mapped and has no other owner. *)
Lemma free_frame_unused a :
  managed_frame p a -> pmm_table p !! a = None ->
  ~ is_table pds pts a /\ ext a = 0 /\ refs mem pts a = 0 /\ a <> kpd.
Proof.
  intros Ha Hn. assert (~ is_table pds pts a) as Ht.
  { intros Ht. destruct (vr_table _ _ _ _ _ _ R a Ht) as (_ & E & _). congruence. }
  pose proof (vr_refs _ _ _ _ _ _ R a Ha Ht) as E. unfold frame_refs in E. rewrite Hn in E.
  pose proof (vr_ext _ _ _ _ _ _ R a). pose proof (refs_nonneg mem pts a). simpl in E.
  split_and!; try done; try lia. intros ->. pose proof (vr_kpd _ _ _ _ _ _ R Ha). lia.
Qed.

Lemma pte_ok_same_window p' e :
  same_window p p' -> pte_ok kpd pds pts p e -> pte_ok kpd pds pts p' e.
Proof.
  intros Hw [Hr Hok]. split; [done|]. intros f Hf. destruct (Hok f Hf) as (H1 & H2).
  split; [|done]. by apply (same_window_managed p).
Qed.

(** Replacing one entry of one page table. *)
Lemma vm_rep_set_pte k pt j e p' ext' :
  pts !! k = Some pt -> 0 <= j < 1024 -> pte_ok kpd pds pts p e ->
  pmm_wf p' -> same_window p p' ->
  (forall f, is_table pds pts f -> pmm_table p' !! f = pmm_table p !! f /\ ext' f = ext f) ->
  (forall f, managed_frame p f -> ~ is_table pds pts f ->
     frame_refs p' f + Z.b2z (pte_maps (mem pt j) f) - Z.b2z (pte_maps e f) - ext' f =
     frame_refs p f - ext f) ->
  (forall f, 0 <= ext' f) -> (managed_frame p kpd -> 0 < ext' kpd) ->
  vm_rep kpd pds pts ext' p' (mem_write pt j e mem).
Proof.
  intros Hk Hj He Hp' Hw Htab Hcnt Hext Hkpd.
  assert (forall f i, f <> pt -> mem_write pt j e mem f i = mem f i) as Hmem
    by (intros; apply mem_write_ne; auto).
  pose proof (vr_table _ _ _ _ _ _ R pt (is_table_pt k pt Hk)) as (_ & _ & _ & Hptk).
  split; try apply R; try done.
  - intros pd i Hpd Hi. rewrite Hmem by (intros ->; by apply (vr_sep _ _ _ _ _ _ R k pt)).
    by apply R.
  - intros f Hf. destruct (vr_table _ _ _ _ _ _ R f Hf) as (H1 & H2 & H3 & H4).
    destruct (Htab f Hf) as [-> ->]. split_and!; try done. by apply (same_window_managed p).
  - intros k' pt' i Hk' Hi. apply pte_ok_same_window; [done|].
    unfold mem_write. case_match; [done|]. by apply (vr_pte _ _ _ _ _ _ R k').
  - intros f Hf Hnt. apply (same_window_managed p p' f Hw) in Hf.
    rewrite (refs_write mem pts k) by (done || intros; by eapply (vr_inj _ _ _ _ _ _ R)).
    pose proof (vr_refs _ _ _ _ _ _ R f Hf Hnt). pose proof (Hcnt f Hf Hnt). lia.
  - intros Hm. apply Hkpd. by apply (same_window_managed p p').
  - intros i Hi. rewrite Hmem by auto. by apply R.
Qed.

Lemma is_table_insert_pt k a f :
  pts !! k = None -> is_table pds (<[k := a]> pts) f <-> f = a \/ is_table pds pts f.
Proof.
  intros Hk. unfold is_table. setoid_rewrite lookup_insert_Some. split.
  - intros [?|(k' & [[_ ->]|[_ ?]])]; eauto.
  - intros [->|[?|(k' & Hk')]]; eauto. right. exists k'. right. split; [congruence|done].
Qed.

(** A new, empty page table in a directory. *)
Lemma vm_rep_add_pt pd i a p' :
  pd ∈ pds -> user_index i -> pts !! (pd, i) = None ->
  managed_frame p a -> pmm_table p !! a = None ->
  pmm_wf p' -> same_window p p' -> pmm_table p' = <[a := 1]> (pmm_table p) ->
  vm_rep kpd pds (<[(pd, i) := a]> pts) ext p' (mem_write pd i (a + 7) (mem_zero_page a mem)).
Proof.
  intros Hpd Hi Hn Ha Hfree Hp' Hw Ht.
  destruct (free_frame_unused a Ha Hfree) as (Hat & Hae & Har & Hak).
  pose proof (is_table_insert_pt (pd, i) a) as Htab.
  set (mem' := mem_write pd i (a + 7) (mem_zero_page a mem)).
  assert (pd <> a) as Hpa by (intros ->; apply Hat; by left).
  assert (forall f j, f <> a -> f <> pd \/ j <> i -> mem' f j = mem f j) as Hmem.
  { intros f j Hf Hne. unfold mem'. rewrite mem_write_ne by done. unfold mem_zero_page. by zcase. }
  assert (forall j, mem' a j = 0) as Hzero.
  { intros j. unfold mem'. rewrite mem_write_ne by auto. unfold mem_zero_page. by zcase. }
  assert (forall k pt j, pts !! k = Some pt -> mem' pt j = mem pt j) as Hpt.
  { intros k pt j Hk. apply Hmem; [intros ->; apply Hat; right; by exists k|].
    left. intros ->. by apply (vr_sep _ _ _ _ _ _ R k pd). }
  split; try done.
  - intros pd' i' Hpd' Hi'. destruct (decide ((pd', i') = (pd, i))) as [[= -> ->]|Hne].
    + rewrite lookup_insert_eq. apply mem_write_eq.
    + rewrite lookup_insert_ne by congruence. rewrite Hmem; [by apply R| |].
      * intros ->. apply Hat. by left.
      * destruct (decide (pd' = pd)) as [->|]; [right; congruence|by left].
  - intros pd' i' pt. rewrite lookup_insert_Some. intros [[[= <- <-] <-]|[_ E]]; [done|].
    by apply (vr_dom _ _ _ _ _ _ R) in E.
  - intros f. rewrite Htab by done. intros [->|Hf].
    + split_and!; try done; [by apply (same_window_managed p)|by rewrite Ht, lookup_insert_eq].
    + destruct (vr_table _ _ _ _ _ _ R f Hf) as (H1 & H2 & H3 & H4).
      rewrite Ht, lookup_insert_ne by (intros ->; done).
      split_and!; try done. by apply (same_window_managed p).
  - intros k pt. rewrite lookup_insert_Some. intros [[_ <-]|[_ E]]; [|by apply (vr_sep _ _ _ _ _ _ R) in E].
    intros Hin. apply Hat. by left.
  - intros k k' pt. rewrite !lookup_insert_Some. intros [[<- <-]|[Hk E]] [[<- E2]|[Hk' E']]; try done.
    + exfalso. apply Hat. right. by exists k'.
    + subst. exfalso. apply Hat. right. by exists k.
    + by eapply (vr_inj _ _ _ _ _ _ R).
  - intros k pt j. rewrite lookup_insert_Some. intros [[_ <-]|[_ E]] Hj.
    + rewrite Hzero. split; [lia|]. intros f Hf. discriminate.
    + rewrite (Hpt k) by done. destruct (vr_pte _ _ _ _ _ _ R k pt j E Hj) as [Hr Hok].
      split; [done|]. intros f Hf. destruct (Hok f Hf) as (H1 & H2 & H3).
      split_and!; [by apply (same_window_managed p)| |done].
      rewrite Htab by done. intros [->|?]; [|done].
      pose proof (refs_pos mem pts k pt j a E Hj Hf). lia.
  - intros f Hf Hnt. rewrite Htab in Hnt by done.
    apply (same_window_managed p p' f Hw) in Hf.
    rewrite refs_insert by done. rewrite (refs_ext mem' mem pts) by (intros; by eapply Hpt).
    assert (pt_refs mem' a f = 0) as ->.
    { apply count_below_none. intros j _. by rewrite Hzero. }
    unfold frame_refs. rewrite Ht, lookup_insert_ne by (intros ->; tauto).
    apply (vr_refs _ _ _ _ _ _ R); tauto.
  - apply R.
  - intros Hm. apply R. by apply (same_window_managed p p').
  - intros j Hj. rewrite Hmem; [by apply R|done|].
    left. intros ->. by destruct (vr_table _ _ _ _ _ _ R pd (is_table_pd pd Hpd)) as (_ & _ & _ & ?).
Qed.

Lemma is_table_delete_pt k pt f :
  pts !! k = Some pt -> is_table pds (delete k pts) f <-> f <> pt /\ is_table pds pts f.
Proof.
  intros Hk. unfold is_table. setoid_rewrite lookup_delete_Some. split.
  - intros [Hf|(k' & Hne & Hk')]; (split; [|eauto]).
    + intros ->. by apply (vr_sep _ _ _ _ _ _ R k pt).
    + intros ->. by apply Hne, (vr_inj _ _ _ _ _ _ R k' k pt).
  - intros [Hne [?|(k' & Hk')]]; [by left|]. right. exists k'. split; [congruence|done].
Qed.

(** Giving up a page table together with the references of its entries. *)
Lemma vm_rep_drop_pt pd i pt p' :
  pts !! (pd, i) = Some pt -> pmm_wf p' -> same_window p p' ->
  pmm_table p' !! pt = None ->
  (forall f, f <> pt -> is_table pds pts f -> pmm_table p' !! f = pmm_table p !! f) ->
  (forall f, managed_frame p f -> ~ is_table pds pts f ->
     frame_refs p' f = frame_refs p f - pt_refs mem pt f) ->
  vm_rep kpd pds (delete (pd, i) pts) ext p' (mem_write pd i 0 mem).
Proof.
  intros Hk Hp' Hw Hpt Htab Hcnt.
  destruct (vr_dom _ _ _ _ _ _ R pd i pt Hk) as [Hpd Hi].
  pose proof (is_table_delete_pt (pd, i) pt) as Hdel.
  assert (forall f j, f <> pd \/ j <> i -> mem_write pd i 0 mem f j = mem f j) as Hmem
    by (intros; by apply mem_write_ne).
  assert (forall k pt' j, pts !! k = Some pt' -> mem_write pd i 0 mem pt' j = mem pt' j) as Hpts.
  { intros k pt' j Hk'. apply Hmem. left. intros ->. by apply (vr_sep _ _ _ _ _ _ R k pd). }
  split; try done.
  - intros pd' i' Hpd' Hi'. destruct (decide ((pd', i') = (pd, i))) as [[= -> ->]|Hne].
    + by rewrite lookup_delete_eq, mem_write_eq.
    + rewrite lookup_delete_ne by congruence. rewrite Hmem; [by apply R|].
      destruct (decide (pd' = pd)) as [->|]; [right; congruence|by left].
  - intros pd' i' pt'. rewrite lookup_delete_Some. intros [_ E]. by apply (vr_dom _ _ _ _ _ _ R) in E.
  - intros f. rewrite Hdel by done. intros [Hne Hf].
    destruct (vr_table _ _ _ _ _ _ R f Hf) as (H1 & H2 & H3 & H4).
    rewrite Htab by done. split_and!; try done. by apply (same_window_managed p).
  - intros k pt'. rewrite lookup_delete_Some. intros [_ E]. by apply (vr_sep _ _ _ _ _ _ R) in E.
  - intros k k' pt'. rewrite !lookup_delete_Some. intros [_ E] [_ E']. by eapply (vr_inj _ _ _ _ _ _ R).
  - intros k pt' j. rewrite lookup_delete_Some. intros [_ E] Hj. rewrite (Hpts k) by done.
    destruct (vr_pte _ _ _ _ _ _ R k pt' j E Hj) as [Hr Hok].
    split; [done|]. intros f Hf. destruct (Hok f Hf) as (H1 & H2 & H3).
    split_and!; [by apply (same_window_managed p)| |done]. rewrite Hdel by done. tauto.
  - intros f Hf Hnt. rewrite Hdel in Hnt by done. apply (same_window_managed p p' f Hw) in Hf.
    rewrite (refs_ext _ mem (delete (pd, i) pts))
      by (intros k' pt' j E _; apply lookup_delete_Some in E as [_ E]; by eapply Hpts).
    destruct (decide (f = pt)) as [->|Hne].
    + pose proof (is_table_pt (pd, i) pt Hk) as Hpt'.
      destruct (vr_table _ _ _ _ _ _ R pt Hpt') as (_ & _ & He & _).
      unfold frame_refs. rewrite Hpt, He. simpl.
      destruct (Z.eq_dec (refs mem (delete (pd, i) pts) pt) 0) as [->|Hnz]; [done|exfalso].
      apply Hnz, refs_zero. intros k pt' j E Hj. apply lookup_delete_Some in E as [_ E].
      destruct (vr_pte _ _ _ _ _ _ R k pt' j E Hj) as [_ Hok].
      destruct (pte_maps (mem pt' j) pt) eqn:Em; [|done]. by destruct (Hok pt Em) as (_ & ? & _).
    + assert (~ is_table pds pts f) as Hnt' by tauto.
      rewrite Hcnt by done. rewrite (vr_refs _ _ _ _ _ _ R f Hf Hnt').
      rewrite (refs_delete mem pts (pd, i) pt f Hk). lia.
  - apply R.
  - intros Hm. apply R. by apply (same_window_managed p p').
  - intros j Hj. rewrite Hmem; [by apply R|].
    left. intros ->. by destruct (vr_table _ _ _ _ _ _ R pd (is_table_pd pd Hpd)) as (_ & _ & _ & ?).
Qed.

(** A new page directory, empty in the user range. *)
Lemma vm_rep_add_pd a p' mem' :
  managed_frame p a -> pmm_table p !! a = None ->
  pmm_wf p' -> same_window p p' -> pmm_table p' = <[a := 1]> (pmm_table p) ->
  (forall i, user_index i -> mem' a i = 0) -> (forall f i, f <> a -> mem' f i = mem f i) ->
  vm_rep kpd ({[a]} ∪ pds) pts ext p' mem'.
Proof.
  intros Ha Hfree Hp' Hw Ht Hz Hmem.
  destruct (free_frame_unused a Ha Hfree) as (Hat & Hae & Har & Hak).
  assert (forall f, is_table ({[a]} ∪ pds) pts f <-> f = a \/ is_table pds pts f) as Htab
    by (intros f; unfold is_table; rewrite elem_of_union, elem_of_singleton; tauto).
  assert (forall k pt, pts !! k = Some pt -> pt <> a) as Hpta
    by (intros k pt Hk ->; apply Hat; right; by exists k).
  split; try done.
  - intros pd i Hpd Hi. apply elem_of_union in Hpd as [->%elem_of_singleton|Hpd].
    + rewrite Hz by done. destruct (pts !! (a, i)) as [pt|] eqn:E; [|done].
      apply (vr_dom _ _ _ _ _ _ R) in E as [? _]. exfalso. apply Hat. by left.
    + rewrite Hmem by (intros ->; apply Hat; by left). by apply R.
  - intros pd i pt E. apply (vr_dom _ _ _ _ _ _ R) in E as [? ?]. split; [set_solver|done].
  - intros f. rewrite Htab. intros [->|Hf].
    + split_and!; try done; [by apply (same_window_managed p)|by rewrite Ht, lookup_insert_eq].
    + destruct (vr_table _ _ _ _ _ _ R f Hf) as (H1 & H2 & H3 & H4).
      rewrite Ht, lookup_insert_ne by (intros ->; done).
      split_and!; try done. by apply (same_window_managed p).
  - intros k pt E. pose proof (vr_sep _ _ _ _ _ _ R k pt E). pose proof (Hpta k pt E). set_solver.
  - apply R.
  - intros k pt j E Hj. rewrite Hmem by (by eapply Hpta).
    destruct (vr_pte _ _ _ _ _ _ R k pt j E Hj) as [Hr Hok].
    split; [done|]. intros f Hf. destruct (Hok f Hf) as (H1 & H2 & H3).
    split_and!; [by apply (same_window_managed p)| |done].
    rewrite Htab. intros [->|?]; [|done].
    pose proof (refs_pos mem pts k pt j a E Hj Hf). lia.
  - intros f Hf Hnt. rewrite Htab in Hnt. apply (same_window_managed p p' f Hw) in Hf.
    rewrite (refs_ext mem' mem pts) by (intros; apply Hmem; by eapply Hpta).
    unfold frame_refs. rewrite Ht, lookup_insert_ne by (intros ->; tauto).
    apply (vr_refs _ _ _ _ _ _ R); tauto.
  - apply R.
  - intros Hm. apply R. by apply (same_window_managed p p').
  - intros j Hj. rewrite Hmem by auto. by apply R.
Qed.

(** Giving up a directory without page tables. *)
Lemma vm_rep_drop_pd pd p' :
  pd ∈ pds -> (forall i, pts !! (pd, i) = None) ->
  pmm_wf p' -> same_window p p' -> pmm_table p' = delete pd (pmm_table p) ->
  vm_rep kpd (pds ∖ {[pd]}) pts ext p' mem.
Proof.
  intros Hpd Hno Hp' Hw Ht.
  assert (forall f, is_table (pds ∖ {[pd]}) pts f <-> f <> pd /\ is_table pds pts f) as Htab.
  { intros f. unfold is_table. rewrite elem_of_difference, elem_of_singleton. split; [|tauto].
    intros [?|(k & Hk)]; [tauto|]. split; [|eauto]. intros ->.
    by apply (vr_sep _ _ _ _ _ _ R k pd). }
  split; try done.
  - intros pd' i [Hpd' _]%elem_of_difference Hi. by apply R.
  - intros pd' i pt E. pose proof (vr_dom _ _ _ _ _ _ R pd' i pt E) as [? ?].
    split; [|done]. apply elem_of_difference. split; [done|].
    intros ->%elem_of_singleton. by rewrite Hno in E.
  - intros f. rewrite Htab. intros [Hne Hf].
    destruct (vr_table _ _ _ _ _ _ R f Hf) as (H1 & H2 & H3 & H4).
    rewrite Ht, lookup_delete_ne by auto. split_and!; try done. by apply (same_window_managed p).
  - intros k pt E. pose proof (vr_sep _ _ _ _ _ _ R k pt E). set_solver.
  - apply R.
  - intros k pt j E Hj. destruct (vr_pte _ _ _ _ _ _ R k pt j E Hj) as [Hr Hok].
    split; [done|]. intros f Hf. destruct (Hok f Hf) as (H1 & H2 & H3).
    split_and!; [by apply (same_window_managed p)| |done]. rewrite Htab. tauto.
  - intros f Hf Hnt. rewrite Htab in Hnt. apply (same_window_managed p p' f Hw) in Hf.
    unfold frame_refs. rewrite Ht. destruct (decide (f = pd)) as [->|Hne].
    + destruct (vr_table _ _ _ _ _ _ R pd (is_table_pd pd Hpd)) as (_ & _ & -> & _).
      rewrite lookup_delete_eq. simpl. symmetry. apply refs_zero. intros k pt j E Hj.
      destruct (vr_pte _ _ _ _ _ _ R k pt j E Hj) as [_ Hok].
      destruct (pte_maps (mem pt j) pd) eqn:Em; [|done].
      destruct (Hok pd Em) as (_ & Hn & _). exfalso. apply Hn. by left.
    + rewrite lookup_delete_ne by auto. apply (vr_refs _ _ _ _ _ _ R); tauto.
  - apply R.
  - intros Hm. apply R. by apply (same_window_managed p p').
  - apply R.
Qed.

(** Memory outside of paging structures is free to change. *)
Lemma vm_rep_mem mem' :
  (forall f i, is_table pds pts f \/ f = kpd -> mem' f i = mem f i) ->
  vm_rep kpd pds pts ext p mem'.
Proof.
  intros Hmem. split; try apply R.
  - intros pd i Hpd Hi. rewrite Hmem by (left; by left). by apply R.
  - intros k pt j Hk Hj. rewrite Hmem by (left; right; eauto). by apply (vr_pte _ _ _ _ _ _ R k).
  - intros f Hf Hnt. rewrite (refs_ext mem' mem) by (intros; apply Hmem; left; right; eauto).
    by apply R.
  - intros i Hi. rewrite Hmem by auto. by apply R.
Qed.

(** A frame allocated for data belongs to the caller. *)
Lemma vm_rep_alloc a p' :
  managed_frame p a -> pmm_table p !! a = None ->
  pmm_wf p' -> same_window p p' -> pmm_table p' = <[a := 1]> (pmm_table p) ->
  vm_rep kpd pds pts (fun x => ext x + Z.b2z (x =? a)) p' mem.
Proof.
  intros Ha Hfree Hp' Hw Ht.
  destruct (free_frame_unused a Ha Hfree) as (Hat & Hae & Har & Hak).
  split; try apply R; try done.
  - intros f Hf. destruct (vr_table _ _ _ _ _ _ R f Hf) as (H1 & H2 & H3 & H4).
    assert (f <> a) by (intros ->; done).
    rewrite Ht, lookup_insert_ne, (proj2 (Z.eqb_neq f a)) by auto.
    split_and!; try done; [by apply (same_window_managed p)|simpl; lia].
  - intros k pt j Hk Hj. eapply pte_ok_same_window; [done|]. by apply (vr_pte _ _ _ _ _ _ R k).
  - intros f Hf Hnt. apply (same_window_managed p p' f Hw) in Hf.
    pose proof (vr_refs _ _ _ _ _ _ R f Hf Hnt) as E. unfold frame_refs in *. rewrite Ht.
    destruct (Z.eqb_spec f a) as [->|Hne]; simpl.
    + rewrite lookup_insert_eq. simpl. lia.
    + rewrite lookup_insert_ne by auto. lia.
  - intros f. pose proof (vr_ext _ _ _ _ _ _ R f). destruct (f =? a); simpl; lia.
  - intros Hm. apply (same_window_managed p p' kpd Hw) in Hm.
    pose proof (vr_kpd _ _ _ _ _ _ R Hm). destruct (kpd =? a); simpl; lia.
Qed.

(** The allocator may change counts together with the references outside. *)
Lemma vm_rep_counts ext' p' :
  pmm_wf p' -> same_window p p' ->
  (forall f, is_table pds pts f -> pmm_table p' !! f = pmm_table p !! f /\ ext' f = ext f) ->
  (forall f, managed_frame p f -> ~ is_table pds pts f ->
     frame_refs p' f - ext' f = frame_refs p f - ext f) ->
  (forall f, 0 <= ext' f) -> (managed_frame p kpd -> 0 < ext' kpd) ->
  vm_rep kpd pds pts ext' p' mem.
Proof.
  intros Hp' Hw Htab Hcnt Hext Hkpd. split; try apply R; try done.
  - intros f Hf. destruct (vr_table _ _ _ _ _ _ R f Hf) as (H1 & H2 & H3 & H4).
    destruct (Htab f Hf) as [-> ->]. split_and!; try done. by apply (same_window_managed p).
  - intros k pt j Hk Hj. eapply pte_ok_same_window; [done|]. by apply (vr_pte _ _ _ _ _ _ R k).
  - intros f Hf Hnt. apply (same_window_managed p p' f Hw) in Hf.
    pose proof (vr_refs _ _ _ _ _ _ R f Hf Hnt). pose proof (Hcnt f Hf Hnt). lia.
  - intros Hm. apply Hkpd. by apply (same_window_managed p p').
Qed.

(** References outside of page tables may be recounted. *)
Lemma vm_rep_ext ext' : (forall f, ext' f = ext f) -> vm_rep kpd pds pts ext' p mem.
Proof.
  intros E. split; try apply R.
  - intros f Hf. rewrite E. by apply R.
  - intros f Hf Hnt. rewrite E. by apply R.
  - intros f. rewrite E. apply R.
  - rewrite E. apply R.
Qed.
End Rep.

(** ** Reference counts *)

Lemma frame_refs_some p f :
  0 < frame_refs p f -> pmm_table p !! f = Some (frame_refs p f).
Proof. unfold frame_refs. destruct (pmm_table p !! f); simpl; [done|lia]. Qed.

Lemma release_refs p f :
  pmm_wf p -> managed_frame p f -> 0 < frame_refs p f ->
  let p' := pmm_release_frame f p in
  pmm_wf p' /\ same_window p p' /\
  (forall x, frame_refs p' x = frame_refs p x - Z.b2z (x =? f)) /\
  (forall x, x <> f -> pmm_table p' !! x = pmm_table p !! x) /\
  (frame_refs p f = 1 -> pmm_table p' = delete f (pmm_table p)) /\
  s_free_count p <= s_free_count p'.
Proof.
  intros Hp Hm Hpos p'. destruct (pmm_release_frame_table p f Hp) as (Et & Hw & Hp').
  destruct (managed_frame_range p f Hp Hm) as (_ & _ & _ & _ & Ef). rewrite Ef in Et.
  fold p' in Et, Hw, Hp'. pose proof (frame_refs_some p f Hpos) as Hs.
  unfold spec_release in Et. rewrite Hs in Et.
  assert (forall x, x <> f -> pmm_table p' !! x = pmm_table p !! x) as Hx.
  { intros x Hne. rewrite Et. case_match; [by rewrite lookup_delete_ne|by rewrite lookup_insert_ne]. }
  split_and!; try done.
  - intros x. destruct (Z.eqb_spec x f) as [->|Hne]; simpl.
    + unfold frame_refs at 1. rewrite Et. destruct (Z.eqb_spec (frame_refs p f) 1) as [E|E].
      * rewrite lookup_delete_eq. simpl. lia.
      * by rewrite lookup_insert_eq.
    + unfold frame_refs. rewrite Hx by done. lia.
  - intros E. by rewrite Et, E.
  - pose proof (pmm_table_size p Hp). pose proof (pmm_table_size p' Hp').
    destruct Hw as (Ew & _).
    assert (size (pmm_table p') <= size (pmm_table p))%nat; [|lia].
    rewrite Et. case_match; [rewrite map_size_delete, Hs; lia|].
    by rewrite map_size_insert, Hs.
Qed.

Lemma retain_refs p f b p' :
  pmm_wf p -> managed_frame p f -> 0 < frame_refs p f -> pmm_retain_frame f p = (b, p') ->
  pmm_wf p' /\ same_window p p' /\ s_free_count p' = s_free_count p /\
  (forall x, x <> f -> pmm_table p' !! x = pmm_table p !! x) /\
  b = negb (frame_refs p f =? 0xFFFF) /\
  (forall x, frame_refs p' x = frame_refs p x + (if b then Z.b2z (x =? f) else 0)).
Proof.
  intros Hp Hm Hpos E. destruct (pmm_retain_frame_table p f b p' Hp E) as (Et & Hc & Hw & Hp').
  destruct (managed_frame_range p f Hp Hm) as (_ & _ & _ & _ & Ef). rewrite Ef in Et.
  pose proof (frame_refs_some p f Hpos) as Hs. unfold spec_retain in Et. rewrite Hs in Et.
  destruct (Z.eqb_spec (frame_refs p f) 65535) as [E1|E1]; injection Et as -> Et; split_and!; try done.
  - intros x _. by rewrite Et.
  - intros x. unfold frame_refs. rewrite Et. lia.
  - intros x Hne. by rewrite Et, lookup_insert_ne.
  - intros x. unfold frame_refs. rewrite Et. destruct (Z.eqb_spec x f) as [->|Hne]; simpl.
    + by rewrite lookup_insert_eq, Hs.
    + rewrite lookup_insert_ne by done. lia.
Qed.

Lemma alloc_refs p :
  pmm_wf p -> 0 < s_free_count p ->
  exists a q, pmm_alloc_frame p = (a, q) /\ a <> 0 /\ managed_frame p a /\ pmm_table p !! a = None /\
    pmm_table q = <[a := 1]> (pmm_table p) /\ s_free_count q = s_free_count p - 1 /\
    same_window p q /\ pmm_wf q /\ paging_phys_is_pmm_frame a = true /\ a mod 4096 = 0 /\
    0 <= a < 2 ^ 32.
Proof.
  intros Hp Hf. destruct (pmm_alloc_frame_some p Hp Hf) as (a & q & E & Hm & Hn & Ht & Hc & Hw & Hq).
  destruct (managed_frame_range p a Hp Hm) as (H1 & H2 & H3 & H4 & _).
  exists a, q. unfold paging_phys_is_pmm_frame. pmm_consts. split_and!; try done; lia.
Qed.

(** ** What an operation on one page leaves alone *)

(** Only the entry of page [v] of directory [pd] changed, to [e]; no memory outside
    of paging structures changed. *)
Record pte_updated (pds : gset Z) (pts pts' : gmap (Z * Z) Z) (mem mem' : Z -> Z -> Z)
    (pd v e : Z) : Prop := PteUpdated {
  pu_pts : forall k, k <> (pd, v / 1024) -> pts' !! k = pts !! k;
  pu_data : forall x i, ~ is_table pds pts x -> ~ is_table pds pts' x -> mem' x i = mem x i;
  pu_pte : user_pte mem' pd v = e;
  pu_other : forall pd' v', pd' ∈ pds -> user_page v' -> (pd', v') <> (pd, v) ->
    user_pte mem' pd' v' = user_pte mem pd' v'
}.

Section Update.
Context {kpd : Z} {pds : gset Z} {pts : gmap (Z * Z) Z} {ext ext' : Z -> Z} {p p' : pmm}
  {mem : Z -> Z -> Z}.
Hypothesis R : vm_rep kpd pds pts ext p mem.

Lemma pte_updated_write pd v pt e :
  pd ∈ pds -> user_page v -> pts !! (pd, v / 1024) = Some pt ->
  vm_rep kpd pds pts ext' p' (mem_write pt (v mod 1024) e mem) ->
  pte_updated pds pts pts mem (mem_write pt (v mod 1024) e mem) pd v e.
Proof.
  intros Hpd Hv Hk R'. split.
  - done.
  - intros x i _ Hx. apply mem_write_ne. left. intros ->. apply Hx. right. eauto.
  - rewrite (user_pte_rep R') by done. rewrite Hk. apply mem_write_eq.
  - intros pd' v' Hpd' Hv' Hne. rewrite (user_pte_rep R'), (user_pte_rep R) by done.
    destruct (pts !! (pd', v' / 1024)) as [pt'|] eqn:E; [|done]. apply mem_write_ne.
    destruct (decide (pt' = pt)) as [->|]; [right|by left].
    pose proof (vr_inj _ _ _ _ _ _ R _ _ pt Hk E) as [= -> Ei].
    intros Ej. apply Hne. f_equal. dlia.
Qed.

Lemma user_pte_add_pt pd i a pd' v' :
  pts !! (pd, i) = None -> ~ is_table pds pts a -> pd ∈ pds ->
  vm_rep kpd pds (<[(pd, i) := a]> pts) ext' p' (mem_write pd i (a + 7) (mem_zero_page a mem)) ->
  pd' ∈ pds -> user_page v' ->
  user_pte (mem_write pd i (a + 7) (mem_zero_page a mem)) pd' v' = user_pte mem pd' v'.
Proof.
  intros Hn Ha Hpd R' Hpd' Hv'. rewrite (user_pte_rep R'), (user_pte_rep R) by done.
  assert (pd <> a) as Hpa by (intros ->; apply Ha; by left).
  destruct (decide ((pd', v' / 1024) = (pd, i))) as [[= -> ->]|Hne].
  - rewrite lookup_insert_eq, Hn, mem_write_ne by auto. unfold mem_zero_page. by zcase.
  - rewrite lookup_insert_ne by congruence.
    destruct (pts !! (pd', v' / 1024)) as [pt|] eqn:E; [|done].
    rewrite mem_write_ne by (left; intros ->; by apply (vr_sep _ _ _ _ _ _ R _ _ E)).
    unfold mem_zero_page. zcase; [subst|done]. exfalso. apply Ha. right. eauto.
Qed.
End Update.
