(* ===== verification/AddressOps.v ===== *)
(** * Operations on process address spaces

    Each operation of [Paging] on the address space of a process, against the
    ownership invariant of [AddressSpace]: it does not halt the machine when memory
    is left, keeps the invariant, and changes only the entry it is about. *)
From S2P Require Import Prelude BootInfo Pmm Memory Paging AddressSpace.
From Stdlib Require Import ZArith Lia ZifyBool Bool Btauto.
From stdpp Require Import base numbers gmap list fin_maps.
Local Open Scope Z_scope.
Local Open Scope kernel_scope.

(** ** Mapping a page *)

Lemma pte_maps_frame e f :
  pte_maps e f = true -> f = pte_frame e /\ paging_phys_is_pmm_frame f = true /\
  has_all e (Z.lor PAGE_PRESENT PAGE_USER) = true.
Proof. unfold pte_maps. rewrite !andb_true_iff. intros [[? ?] ?%Z.eqb_eq]. by subst. Qed.

Lemma pte_maps_eqb e f :
  has_all e (Z.lor PAGE_PRESENT PAGE_USER) && paging_phys_is_pmm_frame (pte_frame e) = true ->
  pte_maps e f = (f =? pte_frame e).
Proof. unfold pte_maps. intros ->. simpl. apply Z.eqb_sym. Qed.

Lemma pte_maps_none e f :
  has_all e (Z.lor PAGE_PRESENT PAGE_USER) && paging_phys_is_pmm_frame (pte_frame e) = false ->
  pte_maps e f = false.
Proof. unfold pte_maps. by intros ->. Qed.

Lemma page_indices virt :
  0 <= virt -> Z.shiftr virt 22 = virt / 4096 / 1024 /\
  Z.land (Z.shiftr virt 12) 0x3FF = virt / 4096 mod 1024.
Proof.
  intros Hv. rewrite !Z.shiftr_div_pow2 by lia. split; [rewrite Z.div_div by lia; done|].
  exact (Z.land_ones (virt / 4096) 10 ltac:(lia)).
Qed.

Lemma user_index_range i : user_index i -> 1 <= i < 768.
Proof. done. Qed.

(** The references outside of page tables after one of them was moved into the
    entry [e]. *)
Definition ext_to_pte (ext : Z -> Z) (e : Z) : Z -> Z := fun x => ext x - Z.b2z (pte_maps e x).

Section Ops.
Context (L : layout) (kpd_ok : kptr (kernel_page_directory L) (kernel_page_directory L)).
Local Abbreviation kpd := (kernel_page_directory L).

Lemma runs_alloc s (Q : Z -> machine -> Prop) :
  pmm_wf (m_pmm s) -> 0 < s_free_count (m_pmm s) ->
  (forall a q, a <> 0 -> managed_frame (m_pmm s) a -> pmm_table (m_pmm s) !! a = None ->
     pmm_table q = <[a := 1]> (pmm_table (m_pmm s)) -> s_free_count q = s_free_count (m_pmm s) - 1 ->
     same_window (m_pmm s) q -> pmm_wf q -> paging_phys_is_pmm_frame a = true -> a mod 4096 = 0 ->
     0 <= a < 2 ^ 32 -> Q a (set_pmm q s)) ->
  runs alloc_frame s Q.
Proof.
  intros Hp Hf HQ. destruct (alloc_refs _ Hp Hf) as (a & q & E & H). apply runs_lift. rewrite E.
  simpl. destruct_and! H. by apply HQ.
Qed.

(** A table of a process is reached through the alias window. *)
Lemma paging_pd_virt_table pds pts ext s pd :
  vm_rep kpd pds pts ext (m_pmm s) (m_mem s) -> pd ∈ pds -> paging_pd_virt L pd = ret (alias pd).
Proof.
  intros R Hpd. unfold paging_pd_virt.
  destruct (vr_table _ _ _ _ _ _ R pd (is_table_pd pd Hpd)) as (_ & _ & _ & Hne).
  rewrite (proj2 (Z.eqb_neq pd _)) by done.
  apply phys_to_virt_alias. by destruct (table_frame R pd (is_table_pd pd Hpd)).
Qed.

Lemma paging_pt_virt_table pds pts ext s k pt :
  vm_rep kpd pds pts ext (m_pmm s) (m_mem s) -> pts !! k = Some pt -> paging_pt_virt pt = ret (alias pt).
Proof.
  intros R Hk. unfold paging_pt_virt. destruct (table_frame R pt (is_table_pt k pt Hk)) as (E & _).
  rewrite E. by apply phys_to_virt_alias.
Qed.

Section MapPage.
Context (pds : gset Z) (pd v phys flags : Z).
Hypothesis Hpd : pd ∈ pds.
Hypothesis Hv : user_page v.
Hypothesis Hphys : 0 <= phys < 2 ^ 32.
Hypothesis Hflags : 0 <= flags < 4096.
Hypothesis Huser : has flags PAGE_USER = true.
Let new_pte : Z := pte_frame phys + Z.lor flags PAGE_PRESENT.

Lemma new_pte_eq : Z.lor (pte_frame phys) (Z.lor flags PAGE_PRESENT) = new_pte.
Proof.
  apply lor_aligned; [by apply pte_frame_spec|].
  pose proof (flags_forall (fun fl => (0 <=? Z.lor fl PAGE_PRESENT) && (Z.lor fl PAGE_PRESENT <? 4096))
    ltac:(vm_compute; reflexivity) flags Hflags). lia.
Qed.

Lemma new_flags_range : 0 <= Z.lor flags PAGE_PRESENT < 4096.
Proof.
  pose proof (flags_forall (fun fl => (0 <=? Z.lor fl PAGE_PRESENT) && (Z.lor fl PAGE_PRESENT <? 4096))
    ltac:(vm_compute; reflexivity) flags Hflags). lia.
Qed.

Lemma new_pte_user :
  has_all new_pte (Z.lor PAGE_PRESENT PAGE_USER) = true /\ pte_frame new_pte = pte_frame phys /\
  0 <= new_pte < 2 ^ 32.
Proof.
  destruct (pte_frame_spec phys Hphys) as (H1 & H2 & _). pose proof new_flags_range.
  unfold new_pte. rewrite entry_has_all, entry_frame by (done || by vm_compute).
  split_and!; [|done|by apply entry_range..].
  pose proof (flags_forall (fun fl => negb (has fl PAGE_USER)
    || has_all (Z.lor fl PAGE_PRESENT) (Z.lor PAGE_PRESENT PAGE_USER))
    ltac:(vm_compute; reflexivity) flags Hflags) as Hf. cbv beta in Hf. by rewrite Huser in Hf.
Qed.

(** The caller owns a reference to the frame it maps. *)
Definition map_pre (pts : gmap (Z * Z) Z) (ext : Z -> Z) (p : pmm) : Prop :=
  paging_phys_is_pmm_frame (pte_frame phys) = true ->
  managed_frame p (pte_frame phys) /\ ~ is_table pds pts (pte_frame phys) /\
  pte_frame phys <> kpd /\ 0 < ext (pte_frame phys).

Lemma map_tail pts ext s pt :
  vm_rep kpd pds pts ext (m_pmm s) (m_mem s) -> map_pre pts ext (m_pmm s) ->
  pts !! (pd, v / 1024) = Some pt ->
  runs (old <- read_word (alias pt) (v mod 1024) ;;
        when (has_all old (Z.lor PAGE_PRESENT PAGE_USER)
              && paging_phys_is_pmm_frame (pte_frame old)) (free_frame (pte_frame old)) ;;;
        write_word (alias pt) (v mod 1024) (Z.lor (pte_frame phys) (Z.lor flags PAGE_PRESENT)) ;;;
        paging_invalidate (v * 4096)) s
    (fun _ s' => vm_rep kpd pds pts (ext_to_pte ext new_pte) (m_pmm s') (m_mem s') /\
       pte_updated pds pts pts (m_mem s) (m_mem s') pd v new_pte /\
       same_window (m_pmm s) (m_pmm s') /\ s_free_count (m_pmm s) <= s_free_count (m_pmm s')).
Proof.
  intros R Hpre Hk. pose proof (table_kptr R pt (is_table_pt _ pt Hk)) as Hptr.
  assert (0 <= v mod 1024 < 1024) as Hj by (apply Z.mod_pos_bound; lia).
  destruct new_pte_user as (Hn1 & Hn2 & Hn3).
  apply runs_bind, (runs_read _ _ Hptr); [done|]. set (old := m_mem s pt (v mod 1024)).
  (* the reference of the old entry is dropped *)
  assert (exists q, pmm_wf q /\ same_window (m_pmm s) q /\
    (forall x, frame_refs q x = frame_refs (m_pmm s) x - Z.b2z (pte_maps old x)) /\
    (forall x, is_table pds pts x -> pmm_table q !! x = pmm_table (m_pmm s) !! x) /\
    s_free_count (m_pmm s) <= s_free_count q /\
    forall Q, Q tt (set_pmm q s) ->
      runs (when (has_all old (Z.lor PAGE_PRESENT PAGE_USER) && paging_phys_is_pmm_frame (pte_frame old))
              (free_frame (pte_frame old))) s Q) as (q & Hq & Hw & Hrefs & Htab & Hfc & Hrun).
  { destruct (has_all old _ && _) eqn:Eo.
    - assert (pte_maps old (pte_frame old) = true) as Hm by (rewrite pte_maps_eqb by done; lia).
      destruct (pte_maps_allocated R _ pt _ _ Hk Hj Hm) as (Hmg & Hnt & _ & Hpos & _).
      destruct (release_refs _ _ (vr_pmm _ _ _ _ _ _ R) Hmg Hpos) as (H1 & H2 & H3 & H4 & _ & H6).
      eexists. split_and!; [exact H1|exact H2| | |exact H6|].
      + intros x. rewrite H3, pte_maps_eqb by done. done.
      + intros x Hx. apply H4. intros ->. done.
      + intros Q HQ. by apply runs_modify.
    - exists (m_pmm s). split_and!; try done; try apply R.
      + intros x. rewrite pte_maps_none by done. simpl. lia.
      + intros Q HQ. apply runs_ret. by destruct s as [[] ? ? ?]. }
  apply runs_bind, Hrun, runs_bind, (runs_write _ _ Hptr); [done|]. apply runs_ret.
  rewrite new_pte_eq by done. cbn [m_mem m_pmm set_mem].
  assert (forall x, pte_maps new_pte x = true -> managed_frame (m_pmm s) x /\
    ~ is_table pds pts x /\ x <> kpd /\ 0 < ext x) as Hnew.
  { intros x Hx. apply pte_maps_frame in Hx as (-> & Hx & _). rewrite Hn2 in *. by apply Hpre. }
  assert (vm_rep kpd pds pts (ext_to_pte ext new_pte) q (mem_write pt (v mod 1024) new_pte (m_mem s))) as R'.
  { apply (vm_rep_set_pte R (pd, v / 1024)); try done.
    - split; [done|]. intros x Hx. destruct (Hnew x Hx) as (? & ? & ? & _). done.
    - intros x Hx. split; [by apply Htab|]. unfold ext_to_pte.
      destruct (pte_maps new_pte x) eqn:Ex; [|simpl; lia]. by destruct (Hnew x Ex) as (_ & ? & _).
    - intros x Hx Hnt. rewrite Hrefs. unfold ext_to_pte. fold old. lia.
    - intros x. unfold ext_to_pte. pose proof (vr_ext _ _ _ _ _ _ R x).
      destruct (pte_maps new_pte x) eqn:Ex; simpl; [|lia]. destruct (Hnew x Ex) as (_ & _ & _ & ?). lia.
    - intros Hkm. unfold ext_to_pte. pose proof (vr_kpd _ _ _ _ _ _ R Hkm).
      destruct (pte_maps new_pte kpd) eqn:Ex; simpl; [|lia]. by destruct (Hnew _ Ex) as (_ & _ & ? & _). }
  split_and!; try done. eapply pte_updated_write; done.
Qed.

(** [paging_map_page] on a process: the page is mapped, everything else is as before,
    and one of the caller's references now belongs to the page table. *)
Definition map_post (pts : gmap (Z * Z) Z) (ext : Z -> Z) (s s' : machine) : Prop :=
  exists pts',
    vm_rep kpd pds pts' (ext_to_pte ext new_pte) (m_pmm s') (m_mem s') /\
    pte_updated pds pts pts' (m_mem s) (m_mem s') pd v new_pte /\
    (forall k pt, pts !! k = Some pt -> pts' !! k = Some pt) /\
    (forall f, 0 < frame_refs (m_pmm s) f -> is_table pds pts' f -> is_table pds pts f) /\
    same_window (m_pmm s) (m_pmm s') /\
    s_free_count (m_pmm s) - (match pts !! (pd, v / 1024) with Some _ => 0 | None => 1 end) <= s_free_count (m_pmm s').

Lemma map_page_runs pts ext s virt :
  vm_rep kpd pds pts ext (m_pmm s) (m_mem s) -> map_pre pts ext (m_pmm s) ->
  0 <= virt -> v = virt / 4096 ->
  (pts !! (pd, v / 1024) = None -> 0 < s_free_count (m_pmm s)) ->
  runs (paging_map_page L pd virt phys flags) s (fun _ => map_post pts ext s).
Proof.
  intros R Hpre Hvirt Ev Hfree. unfold paging_map_page.
  destruct (page_indices virt Hvirt) as [-> ->]. rewrite <- Ev.
  rewrite (paging_pd_virt_table pds pts ext s pd R Hpd).
  assert (0 <= v / 1024 < 1024) as Hi by (pose proof (user_index_range _ Hv); lia).
  pose proof (table_kptr R pd (is_table_pd pd Hpd)) as Hptr.
  pose proof (vr_table _ _ _ _ _ _ R pd (is_table_pd pd Hpd)) as (_ & _ & _ & Hne).
  apply runs_bind, runs_ret. cbv zeta. apply runs_bind, (runs_read _ _ Hptr); [done|].
  rewrite (vr_pde _ _ _ _ _ _ R), (proj2 (Z.eqb_neq pd _)) by done. cbn [negb andb].
  destruct (pts !! (pd, v / 1024)) as [pt|] eqn:Hk.
  - destruct (pde_decode R _ _ Hk) as (-> & _ & _ & ->).
    rewrite (paging_pt_virt_table pds pts ext s _ pt R Hk). apply runs_bind, runs_ret.
    eapply runs_mono; [exact (map_tail pts ext s pt R Hpre Hk)|].
    intros _ s' (R' & Hu & Hw & Hc). exists pts. rewrite Hk. split_and!; try done. lia.
  - change (has 0 PAGE_PRESENT) with false. cbv iota.
    apply runs_bind, runs_bind, runs_bind, runs_alloc; [apply R|by apply Hfree|].
    intros a q Ha0 Hm Hn Ht Hc Hw Hq Hpa Hal Har.
    destruct (free_frame_unused R a Hm Hn) as (Hat & Hae & _ & Hak).
    rewrite (proj2 (Z.eqb_neq a 0)), phys_to_virt_alias by done.
    apply runs_bind, runs_ret, runs_ret, runs_bind, (runs_zero _ _ (kptr_alias a Hpa Hal)).
    apply runs_bind, (runs_write _ _ Hptr); [done|]. apply runs_ret.
    replace (Z.lor (Z.lor (Z.lor a PAGE_PRESENT) PAGE_WRITE) PAGE_USER) with (a + 7)
      by (rewrite <- !Z.lor_assoc; symmetry; by apply lor_aligned).
    pose proof (vm_rep_add_pt R pd (v / 1024) a q Hpd Hv Hk Hm Hn Hq Hw Ht) as R1.
    set (s1 := set_mem _ _).
    assert (map_pre (<[(pd, v / 1024) := a]> pts) ext q) as Hpre1.
    { intros Hf. destruct (Hpre Hf) as (H1 & H2 & H3 & H4).
      split_and!; [by apply (same_window_managed (m_pmm s))| |done..].
      rewrite is_table_insert_pt by done. intros [E|?]; [|done]. rewrite E in H4. lia. }
    eapply runs_mono; [exact (map_tail _ ext s1 a R1 Hpre1 (lookup_insert_eq _ _ _))|].
    intros _ s' (R' & [Hu1 Hu2 Hu3 Hu4] & Hw' & Hc'). exists (<[(pd, v / 1024) := a]> pts).
    rewrite Hk. split_and!; try done.
    + split; [intros k Hkn; by rewrite lookup_insert_ne| |done|].
      * intros x i Hx1 Hx2. rewrite Hu2 by done. rewrite is_table_insert_pt in Hx2 by done.
        cbn [m_mem set_mem s1]. rewrite mem_write_ne by (left; intros ->; apply Hx1; by left).
        unfold mem_zero_page. zcase; [tauto|done].
      * intros pd' v' Hpd' Hv' Hne'. rewrite Hu4 by done.
        by apply (user_pte_add_pt R pd (v / 1024) a pd' v' Hk Hat Hpd R1).
    + intros k pt Hkp. rewrite lookup_insert_ne; congruence.
    + intros f Hf. rewrite is_table_insert_pt by done. intros [->|?]; [|done].
      unfold frame_refs in Hf. rewrite Hn in Hf. simpl in Hf. lia.
    + by apply (same_window_trans _ _ _ Hw).
    + cbn [m_pmm set_mem s1] in Hc'. unfold m_pmm, set_pmm in *. simpl in *. lia.
Qed.
End MapPage.

(** ** Copy-on-write faults *)

Lemma pmm_frame_refcount_refs p f :
  pmm_wf p -> managed_frame p f -> pmm_frame_refcount f p = frame_refs p f.
Proof.
  intros Hp Hm. destruct (managed_frame_range p f Hp Hm) as (H1 & H2 & _ & _ & Ef).
  assert (PMM_BASE <= f < s_max_phys p) as Hr by (unfold PMM_FRAME_SIZE in *; lia).
  unfold pmm_frame_refcount, frame_refs. rewrite (proj2 (orb_false_iff _ _)) by lia.
  rewrite <- Ef at 2. rewrite table_frame_base by done.
  destruct (addr_to_idx_spec p f Hp Hr) as [Hi _].
  rewrite (wf_used_refcount p Hp _ Hi). destruct (Z.eqb_spec (refcount p (addr_to_idx f)) 0); simpl; lia.
Qed.

Lemma page_clear virt :
  0 <= virt < 2 ^ 32 ->
  let page := clear virt (PAGE_SIZE - 1) in
  Z.shiftr page 22 = virt / 4096 / 1024 /\ Z.land (Z.shiftr page 12) 0x3FF = virt / 4096 mod 1024.
Proof.
  intros Hv page. assert (page = virt - virt mod 4096) as E by (by apply land_page_mask).
  assert (page / 4096 = virt / 4096) as E2 by (rewrite E; dlia).
  destruct (page_indices page) as [-> ->]; [rewrite E; dlia|]. by rewrite E2.
Qed.

Lemma pd_index_is_user i : paging_pd_index_is_user i = true <-> user_index i.
Proof. unfold paging_pd_index_is_user, user_index. lia. Qed.

(** The write fault of an entry [e] is a copy-on-write fault. *)
Definition cow_entry (e : Z) : bool :=
  has_all e (Z.lor (Z.lor PAGE_PRESENT PAGE_USER) PAGE_COW) && negb (has e PAGE_WRITE)
  && paging_phys_is_pmm_frame (pte_frame e).

(** The flags of the entry after the fault. *)
Definition cow_flags (fl : Z) : Z :=
  clear (clear (Z.lor fl PAGE_WRITE) PAGE_COW) PAGE_SHARED_RO_FILE.

Lemma cow_flags_spec fl :
  0 <= fl < 4096 -> has_all fl (Z.lor (Z.lor PAGE_PRESENT PAGE_USER) PAGE_COW) = true ->
  0 <= cow_flags fl < 4096 /\
  has_all (cow_flags fl) (Z.lor (Z.lor PAGE_PRESENT PAGE_USER) PAGE_WRITE) = true /\
  has_all (cow_flags fl) (Z.lor PAGE_PRESENT PAGE_USER) = true /\
  has (cow_flags fl) PAGE_COW = false.
Proof.
  intros Hfl H. pose proof (flags_forall (fun fl =>
    implb (has_all fl (Z.lor (Z.lor PAGE_PRESENT PAGE_USER) PAGE_COW))
     ((0 <=? cow_flags fl) && (cow_flags fl <? 4096)
      && has_all (cow_flags fl) (Z.lor (Z.lor PAGE_PRESENT PAGE_USER) PAGE_WRITE)
      && has_all (cow_flags fl) (Z.lor PAGE_PRESENT PAGE_USER)
      && negb (has (cow_flags fl) PAGE_COW))) ltac:(vm_compute; reflexivity) fl Hfl) as E.
  cbv beta in E. rewrite H in E. simpl in E. rewrite !andb_true_iff, negb_true_iff in E.
  destruct_and! E. split_and!; try done; lia.
Qed.

(** The faulting page of [pd] is now a private writable frame [f] with the old
    contents; no other mapping and no other frame of data changed. *)
Record cow_resolved (pds : gset Z) (pts : gmap (Z * Z) Z) (s s' : machine) (pd v f : Z) : Prop := {
  cr_pte : user_pte (m_mem s') pd v = f + cow_flags (pte_flags (user_pte (m_mem s) pd v));
  cr_contents : forall i, m_mem s' f i = m_mem s (pte_frame (user_pte (m_mem s) pd v)) i;
  cr_private : frame_refs (m_pmm s') f = 1;
  cr_fresh : f = pte_frame (user_pte (m_mem s) pd v) \/ pmm_table (m_pmm s) !! f = None;
  cr_other : forall pd' v', pd' ∈ pds -> user_page v' -> (pd', v') <> (pd, v) ->
    user_pte (m_mem s') pd' v' = user_pte (m_mem s) pd' v';
  cr_data : forall x i, x <> f -> ~ is_table pds pts x -> m_mem s' x i = m_mem s x i
}.

Section Cow.
Context (pds : gset Z) (pts : gmap (Z * Z) Z) (ext : Z -> Z) (s : machine) (pd v pt : Z).
Hypothesis R : vm_rep kpd pds pts ext (m_pmm s) (m_mem s).
Hypothesis Hpd : pd ∈ pds.
Hypothesis Hv : user_page v.
Hypothesis Hk : pts !! (pd, v / 1024) = Some pt.
Let e : Z := m_mem s pt (v mod 1024).
Hypothesis Hcow : cow_entry e = true.

Lemma cow_entry_facts :
  0 <= e < 2 ^ 32 /\ has_all (pte_flags e) (Z.lor (Z.lor PAGE_PRESENT PAGE_USER) PAGE_COW) = true /\
  paging_phys_is_pmm_frame (pte_frame e) = true /\
  forall f, pte_maps e f = (f =? pte_frame e).
Proof.
  assert (0 <= v mod 1024 < 1024) as Hj by (apply Z.mod_pos_bound; lia).
  destruct (vr_pte _ _ _ _ _ _ R _ pt (v mod 1024) Hk Hj) as [Hr _].
  unfold cow_entry in Hcow. rewrite !andb_true_iff in Hcow. destruct Hcow as [[H1 H2] H3].
  rewrite has_all_flags, <- pte_flags_eq in H1 by (by vm_compute). split_and!; try done; try apply Hr.
  intros f. apply pte_maps_eqb. rewrite H3, andb_true_r, has_all_flags, <- pte_flags_eq by (by vm_compute).
  pose proof (flags_forall (fun fl =>
    implb (has_all fl (Z.lor (Z.lor PAGE_PRESENT PAGE_USER) PAGE_COW))
      (has_all fl (Z.lor PAGE_PRESENT PAGE_USER))) ltac:(vm_compute; reflexivity) (pte_flags e)) as E.
  cbv beta in E. rewrite H1 in E. apply E. by apply pte_frame_spec.
Qed.

(** Installing the private frame [f]: [q] is the allocator state and [mem1] the
    memory then, the old reference is dropped unless [f] is the old frame. *)
Lemma cow_install f ext1 q p1 mem1 :
  paging_phys_is_pmm_frame f = true -> f mod 4096 = 0 ->
  vm_rep kpd pds pts ext1 p1 mem1 -> m_mem s pt (v mod 1024) = mem1 pt (v mod 1024) ->
  managed_frame p1 f -> ~ is_table pds pts f -> f <> kpd ->
  pmm_wf q -> same_window (m_pmm s) p1 -> same_window p1 q ->
  (forall x, is_table pds pts x -> pmm_table q !! x = pmm_table p1 !! x /\ ext1 x = ext x) ->
  (forall x, frame_refs q x + Z.b2z (x =? pte_frame e) - Z.b2z (x =? f) - ext x =
             frame_refs p1 x - ext1 x) ->
  vm_rep kpd pds pts ext q (mem_write pt (v mod 1024) (f + cow_flags (pte_flags e)) mem1).
Proof.
  intros Hf Hal R1 Hmem Hm Hnt Hne Hq Hw0 Hw Htab Hcnt.
  assert (0 <= v mod 1024 < 1024) as Hj by (apply Z.mod_pos_bound; lia).
  destruct cow_entry_facts as (Hr & Hfl & Hpf & Hmaps).
  destruct (cow_flags_spec (pte_flags e)) as (Hc1 & Hc2 & Hc3 & Hc4); [by apply pte_frame_spec|done|].
  assert (0 <= f < 2 ^ 32) as Hfr by (unfold paging_phys_is_pmm_frame in Hf; pmm_consts; lia).
  assert (forall x, pte_maps (f + cow_flags (pte_flags e)) x = (x =? f)) as Hnew.
  { intros x. rewrite pte_maps_eqb; rewrite entry_frame by done; [done|].
    by rewrite Hf, entry_has_all, Hc3 by (done || by vm_compute). }
  apply (vm_rep_set_pte R1 (pd, v / 1024)); try done.
  - split; [by apply entry_range|]. intros x. rewrite Hnew. intros ->%Z.eqb_eq. done.
  - intros x Hx. by destruct (Htab x Hx) as [-> ->].
  - intros x Hx Hnx. rewrite Hnew, <- Hmem. fold e. rewrite Hmaps. apply Hcnt.
  - apply R.
  - intros Hkm. apply R. by apply (same_window_managed (m_pmm s) p1).
Qed.

Lemma cow_private_runs :
  frame_refs (m_pmm s) (pte_frame e) <= 1 ->
  vm_rep kpd pds pts ext (m_pmm s)
    (mem_write pt (v mod 1024) (pte_frame e + cow_flags (pte_flags e)) (m_mem s)) /\
  cow_resolved pds pts s
    (set_mem (mem_write pt (v mod 1024) (pte_frame e + cow_flags (pte_flags e)) (m_mem s)) s)
    pd v (pte_frame e).
Proof.
  intros Hone. assert (0 <= v mod 1024 < 1024) as Hj by (apply Z.mod_pos_bound; lia).
  destruct cow_entry_facts as (Hr & Hfl & Hpf & Hmaps).
  assert (pte_maps e (pte_frame e) = true) as Hm by (rewrite Hmaps; lia).
  destruct (pte_maps_allocated R _ pt _ _ Hk Hj Hm) as (Hmg & Hnt & Hnk & Hpos & _).
  assert (vm_rep kpd pds pts ext (m_pmm s)
    (mem_write pt (v mod 1024) (pte_frame e + cow_flags (pte_flags e)) (m_mem s))) as R'.
  { apply (cow_install _ ext _ (m_pmm s)); try done; try apply R; [by apply pte_frame_spec|].
    intros x. lia. }
  assert (user_pte (m_mem s) pd v = e) as Ee by (by rewrite (user_pte_rep R), Hk by done).
  destruct (pte_updated_write R pd v pt _ Hpd Hv Hk R') as [_ Hu2 Hu3 Hu4].
  split; [done|]. split; rewrite ?Ee; cbn [m_mem m_pmm set_mem]; try done.
  - intros i. apply Hu2; done.
  - change (m_pmm (set_mem _ s)) with (m_pmm s). lia.
  - by left.
  - intros x i _ Hx. by apply Hu2.
Qed.

Lemma cow_copy_runs a q :
  managed_frame (m_pmm s) a -> pmm_table (m_pmm s) !! a = None ->
  pmm_table q = <[a := 1]> (pmm_table (m_pmm s)) -> same_window (m_pmm s) q -> pmm_wf q ->
  paging_phys_is_pmm_frame a = true -> a mod 4096 = 0 -> 1 < frame_refs (m_pmm s) (pte_frame e) ->
  let q' := pmm_release_frame (pte_frame e) q in
  let mem' := mem_write pt (v mod 1024) (a + cow_flags (pte_flags e))
                (mem_copy_page a (pte_frame e) (m_mem s)) in
  vm_rep kpd pds pts ext q' mem' /\ same_window (m_pmm s) q' /\
  cow_resolved pds pts s (set_pmm q' (set_mem mem' s)) pd v a.
Proof.
  intros Ha Hn Ht Hw Hq Hpa Hal Hmany q' mem'.
  assert (0 <= v mod 1024 < 1024) as Hj by (apply Z.mod_pos_bound; lia).
  destruct cow_entry_facts as (Hr & Hfl & Hpf & Hmaps).
  assert (pte_maps e (pte_frame e) = true) as Hm by (rewrite Hmaps; lia).
  destruct (pte_maps_allocated R _ pt _ _ Hk Hj Hm) as (Hmg & Hnt & Hnk & Hpos & Hfe).
  destruct (free_frame_unused R a Ha Hn) as (Hat & Hae & Har & Hak).
  assert (a <> pte_frame e) as Hane by (intros ->; congruence).
  pose proof (vm_rep_alloc R a q Ha Hn Hq Hw Ht) as Rq.
  assert (forall x, frame_refs q x = if x =? a then 1 else frame_refs (m_pmm s) x) as Hrq.
  { intros x. unfold frame_refs. rewrite Ht. destruct (Z.eqb_spec x a) as [->|];
      [by rewrite lookup_insert_eq|by rewrite lookup_insert_ne]. }
  destruct (release_refs q (pte_frame e) Hq) as (Hq1 & Hq2 & Hq3 & Hq4 & _ & _).
  { by apply (same_window_managed (m_pmm s)). }
  { rewrite Hrq. zcase; [done|lia]. }
  fold q' in Hq1, Hq2, Hq3, Hq4.
  set (mem1 := mem_copy_page a (pte_frame e) (m_mem s)) in *.
  assert (forall x i, x <> a -> mem1 x i = m_mem s x i) as Hm1
    by (intros x i Hx; unfold mem1, mem_copy_page; by zcase).
  assert (forall x i, is_table pds pts x -> mem1 x i = m_mem s x i) as Hm1t
    by (intros x i Hx; apply Hm1; by intros ->).
  assert (vm_rep kpd pds pts (fun x => ext x + Z.b2z (x =? a)) q mem1) as Rc.
  { apply (vm_rep_mem Rq). intros x i [Hx| ->]; [by apply Hm1t|by apply Hm1]. }
  assert (vm_rep kpd pds pts ext q' mem') as R'.
  { apply (cow_install a (fun x => ext x + Z.b2z (x =? a)) q' q mem1); try done.
    - symmetry. apply Hm1t. right. eauto.
    - by apply (same_window_managed (m_pmm s)).
    - intros x Hx. rewrite Hq4 by (intros ->; done). split; [done|].
      rewrite (proj2 (Z.eqb_neq x a)) by (intros ->; done). simpl. lia.
    - intros x. rewrite Hq3. lia. }
  assert (user_pte (m_mem s) pd v = e) as Ee by (by rewrite (user_pte_rep R), Hk by done).
  destruct (pte_updated_write Rc pd v pt _ Hpd Hv Hk R') as [_ Hu2 Hu3 Hu4].
  assert (forall pd' v', pd' ∈ pds -> user_page v' -> user_pte mem1 pd' v' = user_pte (m_mem s) pd' v') as Hsame.
  { intros pd' v' Hpd' Hv'. rewrite (user_pte_rep Rc), (user_pte_rep R) by done.
    case_match; [|done]. apply Hm1t. right. eauto. }
  split; [done|]. split; [by apply (same_window_trans _ _ _ Hw)|].
  split; rewrite ?Ee; cbn [m_mem set_pmm set_kmem set_mem]; try done.
  - intros i. fold mem'. unfold mem'. rewrite Hu2 by done. unfold mem1, mem_copy_page. by zcase.
  - change (m_pmm (set_pmm q' _)) with q'. rewrite Hq3, Hrq. zcase; simpl; try done; lia.
  - by right.
  - intros pd' v' Hpd' Hv' Hne. fold mem'. rewrite Hu4 by done. by apply Hsame.
  - intros x i Hx Hxt. fold mem'. unfold mem'. rewrite Hu2 by done. by apply Hm1.
Qed.
End Cow.

(** [paging_resolve_cow_fault] handles the fault exactly when it is one of a user
    page marked copy-on-write and, for a shared frame, a free frame is left. *)
Lemma resolve_cow_runs pds pts ext s pd va :
  vm_rep kpd pds pts ext (m_pmm s) (m_mem s) -> pd ∈ pds -> 0 <= va < 2 ^ 32 ->
  let v := va / 4096 in let e := user_pte (m_mem s) pd v in
  runs (paging_resolve_cow_fault L pd va) s (fun b s' =>
    b = paging_pd_index_is_user (v / 1024) && cow_entry e
        && ((frame_refs (m_pmm s) (pte_frame e) <=? 1) || (0 <? s_free_count (m_pmm s))) /\
    if b then vm_rep kpd pds pts ext (m_pmm s') (m_mem s') /\
              same_window (m_pmm s) (m_pmm s') /\ exists f, cow_resolved pds pts s s' pd v f
    else s' = s).
Proof.
  intros R Hpd Hva v e. unfold paging_resolve_cow_fault.
  destruct (page_clear va Hva) as [-> ->]. fold v.
  destruct (table_frame R pd (is_table_pd pd Hpd)) as (Hpf & _ & Hr).
  rewrite (proj2 (Z.eqb_neq pd 0)) by (unfold paging_phys_is_pmm_frame in Hpf; pmm_consts; lia).
  destruct (paging_pd_index_is_user (v / 1024)) eqn:Hu; [|by apply runs_ret].
  cbn [negb andb]. apply pd_index_is_user in Hu. pose proof (user_index_range _ Hu).
  assert (0 <= v mod 1024 < 1024) as Hj by (apply Z.mod_pos_bound; lia).
  rewrite (paging_pd_virt_table pds pts ext s pd R Hpd).
  apply runs_bind, runs_ret, runs_bind, (runs_read _ _ (table_kptr R pd (is_table_pd pd Hpd))); [lia|].
  subst e. rewrite (user_pte_rep R), (vr_pde _ _ _ _ _ _ R) by done.
  destruct (pts !! (pd, v / 1024)) as [pt|] eqn:Hk; [|by apply runs_ret].
  destruct (pde_decode R _ _ Hk) as (-> & _ & _ & ->). cbn [negb].
  rewrite (paging_pt_virt_table pds pts ext s _ pt R Hk).
  pose proof (table_kptr R pt (is_table_pt _ pt Hk)) as Hptr.
  apply runs_bind, runs_ret, runs_bind, (runs_read _ _ Hptr); [done|].
  set (e := m_mem s pt (v mod 1024)).
  unfold cow_entry. destruct (has_all e _) eqn:E1; [|by apply runs_ret]. cbn [negb andb].
  destruct (has e PAGE_WRITE) eqn:E2; [by apply runs_ret|]. cbn [negb andb].
  destruct (paging_phys_is_pmm_frame (pte_frame e)) eqn:E3; [|by apply runs_ret]. cbn [negb andb].
  assert (cow_entry e = true) as Hcow by (unfold cow_entry; by rewrite E1, E2, E3).
  destruct (cow_entry_facts pds pts ext s pd v pt R Hk Hcow) as (Her & Hfl & _ & Hmaps). fold e in Her, Hfl, Hmaps.
  assert (pte_maps e (pte_frame e) = true) as Hm by (rewrite Hmaps; lia).
  destruct (pte_maps_allocated R _ pt _ _ Hk Hj Hm) as (Hmg & Hnt & Hnk & Hpos & _).
  destruct (cow_flags_spec (pte_flags e)) as (Hc1 & _); [by apply pte_frame_spec|done|].
  apply runs_bind, runs_gets. rewrite pmm_frame_refcount_refs by (done || apply R).
  fold (cow_flags (pte_flags e)).
  destruct (Z.leb_spec (frame_refs (m_pmm s) (pte_frame e)) 1) as [Hle|Hgt]; cbn [orb].
  - apply runs_bind, (runs_write _ _ Hptr); [done|]. apply runs_bind, runs_ret, runs_ret.
    rewrite lor_aligned by (done || by apply pte_frame_spec).
    destruct (cow_private_runs pds pts ext s pd v pt R Hpd Hu Hk Hcow Hle) as [R' Hc].
    split_and!; [done|done|done|by eexists].
  - destruct (Z.ltb_spec 0 (s_free_count (m_pmm s))) as [Hf|Hf].
    + apply runs_bind, runs_alloc; [apply R|done|].
      intros a q Ha0 Ha Hn Ht Hc Hw Hq Hpa Hal Har.
      rewrite (proj2 (Z.eqb_neq a 0)), !phys_to_virt_alias by done.
      apply runs_bind, runs_ret, runs_bind, runs_ret, runs_bind, runs_modify.
      rewrite !(kptr_page _ _ (kptr_alias _ Hpa Hal)), !(kptr_page (alias (pte_frame e)) (pte_frame e))
        by (apply kptr_alias; [done|by apply pte_frame_spec]).
      apply runs_bind, (runs_write _ _ Hptr); [done|].
      apply runs_bind, runs_ret, runs_bind, runs_modify, runs_ret.
      rewrite lor_aligned by done.
      destruct (cow_copy_runs pds pts ext s pd v pt R Hpd Hu Hk Hcow a q Ha Hn Ht Hw Hq Hpa Hal Hgt)
        as (R' & Hw' & Hc').
      split_and!; [done|exact R'|exact Hw'|]. exists a. exact Hc'.
    + pose proof (free_count_bounds _ (vr_pmm _ _ _ _ _ _ R)).
      apply runs_bind, runs_lift. rewrite pmm_alloc_frame_none by lia. apply runs_ret.
      split; [done|]. by destruct s as [[] ? ? ?].
Qed.

(** ** Looking up a page and changing its flags *)

Lemma table_not_null pds pts ext s f :
  vm_rep kpd pds pts ext (m_pmm s) (m_mem s) -> is_table pds pts f -> (f =? 0) = false.
Proof.
  intros R Hf. destruct (table_frame R f Hf) as (Hp & _).
  unfold paging_phys_is_pmm_frame in Hp. pmm_consts. lia.
Qed.

Lemma page_get_runs pds pts ext s pd va (Q : option (Z * Z) -> machine -> Prop) :
  vm_rep kpd pds pts ext (m_pmm s) (m_mem s) -> pd ∈ pds -> 0 <= va < 2 ^ 32 ->
  (let v := va / 4096 in let e := user_pte (m_mem s) pd v in
   Q (if paging_pd_index_is_user (v / 1024) && has_all e (Z.lor PAGE_PRESENT PAGE_USER)
      then Some (pte_frame e, pte_flags e) else None) s) ->
  runs (paging_user_page_get L pd va) s Q.
Proof.
  intros R Hpd Hva. set (v := va / 4096). cbv zeta. intros HQ. unfold paging_user_page_get.
  destruct (page_clear va Hva) as [-> ->]. fold v.
  rewrite (table_not_null pds pts ext s pd R (is_table_pd pd Hpd)).
  destruct (paging_pd_index_is_user (v / 1024)) eqn:Hu; [|by apply runs_ret].
  cbn [negb andb] in *. apply pd_index_is_user in Hu. pose proof (user_index_range _ Hu).
  rewrite (user_pte_rep R) in HQ by done.
  rewrite (paging_pd_virt_table pds pts ext s pd R Hpd).
  apply runs_bind, runs_ret, runs_bind, (runs_read _ _ (table_kptr R pd (is_table_pd pd Hpd))); [lia|].
  rewrite (vr_pde _ _ _ _ _ _ R) by done.
  destruct (pts !! (pd, v / 1024)) as [pt|] eqn:Hk; [|by apply runs_ret].
  destruct (pde_decode R _ _ Hk) as (_ & -> & _ & ->). cbn [negb].
  rewrite (paging_pt_virt_table pds pts ext s _ pt R Hk).
  apply runs_bind, runs_ret, runs_bind, (runs_read _ _ (table_kptr R pt (is_table_pt _ pt Hk)));
    [apply Z.mod_pos_bound; lia|].
  destruct (has_all (m_mem s pt (v mod 1024)) _); by apply runs_ret.
Qed.

Lemma clear_entry f fl c :
  f mod 4096 = 0 -> 0 <= f < 2 ^ 32 -> 0 <= fl < 4096 -> 0 <= c < 4096 ->
  clear (f + fl) c = f + clear fl c /\ 0 <= clear fl c < 4096.
Proof.
  intros Hf Hr Hfl Hc. unfold clear.
  assert (forall x, 0 <= x < 2 ^ 32 -> Z.land x (u32 (Z.lnot c)) = Z.ldiff x c) as Hm.
  { intros x Hx. unfold u32. rewrite <- (Z.land_ones (Z.lnot c)) by lia.
    rewrite (Z.land_comm (Z.lnot c)), Z.land_assoc, Z.land_ones, Z.mod_small by lia.
    symmetry. apply Z.ldiff_land. }
  rewrite !Hm by dlia.
  assert (0 <= Z.ldiff fl c < 4096) as Hl.
  { split; [apply Z.ldiff_nonneg; lia|].
    assert (Z.land (Z.ldiff fl c) (Z.land fl c) = 0) as E0.
    { apply Z.bits_inj. intros k. rewrite !Z.land_spec, Z.ldiff_spec, Z.bits_0. btauto. }
    pose proof (Z.add_nocarry_lxor _ _ E0) as E. rewrite Z.lxor_lor, Z.lor_ldiff_and in E by done.
    pose proof (proj2 (Z.land_nonneg fl c) ltac:(lia)). lia. }
  split; [|done].
  rewrite <- (lor_aligned f fl), <- (lor_aligned f (Z.ldiff fl c)) by done.
  assert (Z.ldiff (Z.lor f fl) c = Z.lor (Z.ldiff f c) (Z.ldiff fl c)) as ->
    by (apply Z.bits_inj; intros k; rewrite !Z.ldiff_spec, !Z.lor_spec, !Z.ldiff_spec; btauto).
  f_equal. pose proof (Z.lor_ldiff_and f c) as E. rewrite land_aligned_small, Z.lor_0_r in E by done. done.
Qed.
End Ops.
