(* ===== verification/AddressLife.v ===== *)
(** * Life cycle of address spaces

    Creation, unmapping and destruction of process address spaces ([process_pd_create],
    [paging_user_page_set_flags], [paging_unmap_user_page], [process_pd_destroy] of
    [Paging]) against the ownership invariant of [AddressSpace]. *)
From S2P Require Import Prelude BootInfo Pmm Memory Paging AddressSpace AddressOps.
From Stdlib Require Import ZArith Lia ZifyBool Bool.
From stdpp Require Import base numbers gmap list fin_maps.
Local Open Scope Z_scope.
Local Open Scope kernel_scope.

Lemma has_present_user e :
  has e PAGE_PRESENT && has e PAGE_USER = has_all e (Z.lor PAGE_PRESENT PAGE_USER).
Proof.
  rewrite !(has_flags e), (has_all_flags e) by (by vm_compute).
  pose proof (flags_forall (fun fl => eqb (has fl PAGE_PRESENT && has fl PAGE_USER)
    (has_all fl (Z.lor PAGE_PRESENT PAGE_USER))) ltac:(vm_compute; reflexivity) (e mod 4096)) as E.
  apply eqb_prop, E, Z.mod_pos_bound. lia.
Qed.

Section Life.
Context (L : layout) (kpd_ok : kptr (kernel_page_directory L) (kernel_page_directory L)).
Local Abbreviation kpd := (kernel_page_directory L).

(** ** Creation *)

(** The state after [i] iterations of the copy loop of [process_pd_create]. *)
Definition copied (s : machine) (a i : Z) (t : machine) : Prop :=
  t = set_mem (m_mem t) s /\ (forall x j, x <> a -> m_mem t x j = m_mem s x j) /\
  (forall j, m_mem t a j =
     if (0 <=? j) && (j <? i) && negb (paging_pd_index_is_user j) then m_mem s kpd j else 0).

Lemma pd_create_runs pds pts ext s (Q : Z -> machine -> Prop) :
  vm_rep kpd pds pts ext (m_pmm s) (m_mem s) -> 0 < s_free_count (m_pmm s) ->
  (forall pd s', managed_frame (m_pmm s) pd -> pmm_table (m_pmm s) !! pd = None -> pd <> 0 ->
     vm_rep kpd ({[pd]} ∪ pds) pts ext (m_pmm s') (m_mem s') ->
     pmm_table (m_pmm s') = <[pd := 1]> (pmm_table (m_pmm s)) ->
     s_free_count (m_pmm s') = s_free_count (m_pmm s) - 1 -> same_window (m_pmm s) (m_pmm s') ->
     (forall i, 0 <= i < 1024 -> m_mem s' pd i =
        if paging_pd_index_is_user i then 0 else m_mem s kpd i) ->
     (forall x i, x <> pd -> m_mem s' x i = m_mem s x i) -> Q pd s') ->
  runs (process_pd_create L) s Q.
Proof.
  intros R Hf HQ. unfold process_pd_create. apply runs_bind, runs_alloc; [apply R|done|].
  intros a q Ha0 Ha Hn Ht Hc Hw Hq Hpa Hal Har.
  destruct (free_frame_unused R a Ha Hn) as (Hat & Hae & Hre & Hak).
  rewrite (proj2 (Z.eqb_neq a 0)), phys_to_virt_alias by done.
  pose proof (kptr_alias a Hpa Hal) as Hptr.
  apply runs_bind, runs_ret, runs_bind, (runs_zero _ _ Hptr).
  set (s1 := set_pmm q s). set (s2 := set_mem _ s1).
  apply runs_bind, (runs_for_each (copied s1 a)); [by vm_compute|..].
  - split_and!; [done| |]; intros x; cbn [m_mem set_mem s2]; unfold mem_zero_page.
    + intros j Hx. by zcase.
    + rewrite Z.eqb_refl. zcase; simpl; try done; lia.
  - unfold PD_ENTRIES. intros i t Hi (Et & Ho & Hc').
    destruct (paging_pd_index_is_user i) eqn:Hu.
    + apply runs_ret. split_and!; try done. intros j. rewrite Hc'.
      destruct (Z.eq_dec j i) as [->|]; [rewrite Hu, !andb_false_r; done|]. by zcase; try lia.
    + apply runs_bind, (runs_read _ _ kpd_ok); [done|].
      rewrite Ho by auto. apply (runs_write _ _ Hptr); [done|].
      split_and!; cbn [m_mem set_mem].
      * rewrite Et. done.
      * intros x j Hx. rewrite mem_write_ne by auto. by apply Ho.
      * intros j. destruct (Z.eq_dec j i) as [->|].
        -- rewrite mem_write_eq, Hu. by zcase; try lia.
        -- rewrite mem_write_ne, Hc' by auto. by zcase; try lia.
  - intros t (Et & Ho & Hc'). apply runs_ret.
    assert (m_pmm t = q) as Eq by (rewrite Et; done).
    assert (forall x i, x <> a -> m_mem t x i = m_mem s x i) as Ho' by (intros; by rewrite Ho).
    assert (forall i, 0 <= i < 1024 ->
      m_mem t a i = if paging_pd_index_is_user i then 0 else m_mem s kpd i) as Ha'.
    { intros i Hi. rewrite Hc'. unfold PD_ENTRIES.
      rewrite (proj2 (Z.leb_le 0 i)), (proj2 (Z.ltb_lt i 1024)) by lia.
      by destruct (paging_pd_index_is_user i). }
    apply HQ; rewrite ?Eq; try done.
    apply (vm_rep_add_pd R a q); try done. intros i Hi. pose proof (user_index_range i Hi).
    rewrite Ha' by lia. apply pd_index_is_user in Hi. by rewrite Hi.
Qed.

(** ** Changing protection flags *)

Lemma set_flags_runs pds pts ext s pd va c fl :
  vm_rep kpd pds pts ext (m_pmm s) (m_mem s) -> pd ∈ pds -> 0 <= va < 2 ^ 32 ->
  0 <= c < 4096 -> 0 <= fl < 4096 ->
  let v := va / 4096 in let e := user_pte (m_mem s) pd v in
  runs (paging_user_page_set_flags L pd va c fl) s (fun b s' =>
    b = paging_pd_index_is_user (v / 1024) && has_all e (Z.lor PAGE_PRESENT PAGE_USER) /\
    if b then vm_rep kpd pds pts ext (m_pmm s') (m_mem s') /\ m_pmm s' = m_pmm s /\
      pte_updated pds pts pts (m_mem s) (m_mem s') pd v
        (pte_frame e + Z.lor (Z.lor (Z.lor (clear (pte_flags e) c) fl) PAGE_PRESENT) PAGE_USER)
    else s' = s).
Proof.
  intros R Hpd Hva Hc Hfl v e. unfold paging_user_page_set_flags.
  destruct (page_clear va Hva) as [-> ->]. fold v.
  rewrite (table_not_null L pds pts ext s pd R (is_table_pd pd Hpd)).
  destruct (paging_pd_index_is_user (v / 1024)) eqn:Hu; [|by apply runs_ret].
  cbn [negb andb]. apply pd_index_is_user in Hu. pose proof (user_index_range _ Hu).
  subst e. rewrite (user_pte_rep R) by done.
  rewrite (paging_pd_virt_table L pds pts ext s pd R Hpd).
  apply runs_bind, runs_ret, runs_bind, (runs_read _ _ (table_kptr R pd (is_table_pd pd Hpd))); [lia|].
  rewrite (vr_pde _ _ _ _ _ _ R) by done.
  destruct (pts !! (pd, v / 1024)) as [pt|] eqn:Hk; [|by apply runs_ret].
  destruct (pde_decode R _ _ Hk) as (_ & -> & _ & ->). cbn [negb].
  rewrite (paging_pt_virt_table L pds pts ext s _ pt R Hk).
  assert (0 <= v mod 1024 < 1024) as Hj by (apply Z.mod_pos_bound; lia).
  pose proof (table_kptr R pt (is_table_pt _ pt Hk)) as Hptr.
  apply runs_bind, runs_ret, runs_bind, (runs_read _ _ Hptr); [done|].
  set (e := m_mem s pt (v mod 1024)).
  destruct (has_all e (Z.lor PAGE_PRESENT PAGE_USER)) eqn:He; [|by apply runs_ret]. cbn [negb].
  apply runs_bind, (runs_write _ _ Hptr); [done|]. apply runs_bind, runs_ret, runs_ret.
  split; [done|].
  destruct (vr_pte _ _ _ _ _ _ R _ pt (v mod 1024) Hk Hj) as [Her Hok]. fold e in Her, Hok.
  destruct (pte_frame_spec e Her) as (Hf1 & Hf2 & Hf3 & Ee).
  destruct (clear_entry (pte_frame e) (pte_flags e) c) as [Ec Hcr]; try done. rewrite <- Ee in Ec.
  set (fl' := Z.lor (Z.lor (Z.lor (clear (pte_flags e) c) fl) PAGE_PRESENT) PAGE_USER).
  assert (Z.lor (Z.lor (Z.lor (clear e c) fl) PAGE_PRESENT) PAGE_USER = Z.lor (pte_frame e) fl') as ->.
  { rewrite Ec, <- (lor_aligned (pte_frame e) (clear (pte_flags e) c)) by done.
    unfold fl'. by rewrite !Z.lor_assoc. }
  assert (0 <= fl' < 4096 /\ has_all fl' (Z.lor PAGE_PRESENT PAGE_USER) = true) as [Hr' Hpu].
  { set (x := Z.lor (clear (pte_flags e) c) fl).
    assert (0 <= x < 4096) as Hx.
    { unfold x. split; [apply Z.lor_nonneg; lia|]. apply (Z.log2_lt_cancel _ (2 ^ 12)).
      rewrite Z.log2_lor by lia. change (Z.log2 (2 ^ 12)) with 12.
      assert (forall y, 0 <= y < 4096 -> Z.log2 y < 12) as Hl.
      { intros y Hy. destruct (Z.eq_dec y 0) as [->|]; [done|]. apply Z.log2_lt_pow2; lia. }
      pose proof (Hl _ Hcr). pose proof (Hl _ Hfl). lia. }
    pose proof (flags_forall (fun x => let y := Z.lor (Z.lor x PAGE_PRESENT) PAGE_USER in
      (0 <=? y) && (y <? 4096) && has_all y (Z.lor PAGE_PRESENT PAGE_USER))
      ltac:(vm_compute; reflexivity) x Hx) as E. cbv beta zeta in E. fold fl' in E.
    rewrite !andb_true_iff in E. destruct E as [[E1 E2] ?]. apply Z.leb_le in E1. apply Z.ltb_lt in E2. done. }
  rewrite lor_aligned by done.
  assert (forall x, pte_maps (pte_frame e + fl') x = pte_maps e x) as Hsame.
  { intros x. unfold pte_maps. rewrite entry_frame, entry_has_all by (done || by vm_compute).
    by rewrite Hpu, He. }
  assert (vm_rep kpd pds pts ext (m_pmm s) (mem_write pt (v mod 1024) (pte_frame e + fl') (m_mem s))) as R'.
  { apply (vm_rep_set_pte R (pd, v / 1024)); try done; try apply R.
    - split; [by apply entry_range|]. intros x Hx. rewrite Hsame in Hx. by apply Hok.
    - intros x Hx Hnt. rewrite Hsame. fold e. lia. }
  split_and!; try done. exact (pte_updated_write R pd v pt _ Hpd Hu Hk R').
Qed.

(** ** Unmapping a page *)

Lemma pt_empty_runs pt s (Q : bool -> machine -> Prop) :
  kptr (alias pt) pt ->
  (forall b, (b = true -> forall j, 0 <= j < 1024 -> has (m_mem s pt j) PAGE_PRESENT = false) -> Q b s) ->
  runs (paging_pt_empty (alias pt)) s Q.
Proof.
  intros Hptr HQ. unfold paging_pt_empty. apply runs_bind.
  apply (runs_for_return (fun i t => t = s /\
    forall j, 0 <= j < i -> has (m_mem s pt j) PAGE_PRESENT = false)); [by vm_compute|split; [done|lia]| |].
  - unfold PT_ENTRIES. intros i t Hi [-> Hj]. apply runs_bind, (runs_read _ _ Hptr); [done|].
    destruct (has (m_mem s pt i) PAGE_PRESENT) eqn:E; apply runs_ret.
    + by apply runs_ret, HQ.
    + split; [done|]. intros j Hj'. destruct (Z.eq_dec j i) as [->|]; [done|]. apply Hj. lia.
  - intros t [-> Hj]. apply runs_ret, HQ. intros _. apply Hj.
Qed.

(** The entry of page [v] of [pd] is gone, and so is its page table if it was the
    last one; nothing else changed. *)
Record unmapped (pds : gset Z) (pts pts' : gmap (Z * Z) Z) (s s' : machine) (pd v : Z) : Prop := {
  un_pts : pts' = pts \/ pts' = delete (pd, v / 1024) pts;
  un_pte : user_pte (m_mem s') pd v = 0;
  un_other : forall pd' v', pd' ∈ pds -> user_page v' -> (pd', v') <> (pd, v) ->
    has_all (user_pte (m_mem s) pd' v') (Z.lor PAGE_PRESENT PAGE_USER) = true ->
    user_pte (m_mem s') pd' v' = user_pte (m_mem s) pd' v';
  un_data : forall x i, ~ is_table pds pts x -> m_mem s' x i = m_mem s x i;
  un_either : forall pd' v', pd' ∈ pds -> user_page v' ->
    user_pte (m_mem s') pd' v' = 0 \/ user_pte (m_mem s') pd' v' = user_pte (m_mem s) pd' v'
}.

Lemma has_user_present e :
  has_all e (Z.lor PAGE_PRESENT PAGE_USER) = true -> has e PAGE_PRESENT = true.
Proof. rewrite <- has_present_user. intros [? _]%andb_true_iff. done. Qed.

Lemma unmap_pte_rep pds pts ext s pd v pt :
  vm_rep kpd pds pts ext (m_pmm s) (m_mem s) -> pd ∈ pds -> user_page v ->
  pts !! (pd, v / 1024) = Some pt ->
  let e := m_mem s pt (v mod 1024) in
  exists q, pmm_wf q /\ same_window (m_pmm s) q /\
    vm_rep kpd pds pts ext q (mem_write pt (v mod 1024) 0 (m_mem s)) /\
    (has e PAGE_PRESENT = true -> forall Q, Q tt (set_pmm q s) ->
     runs (when (has e PAGE_USER && paging_phys_is_pmm_frame (pte_frame e))
             (release_frame (pte_frame e))) s Q).
Proof.
  intros R Hpd Hv Hk e. assert (0 <= v mod 1024 < 1024) as Hj by (apply Z.mod_pos_bound; lia).
  destruct (has_all e (Z.lor PAGE_PRESENT PAGE_USER) && paging_phys_is_pmm_frame (pte_frame e)) eqn:Eo.
  - assert (pte_maps e (pte_frame e) = true) as Hm by (rewrite pte_maps_eqb by done; lia).
    destruct (pte_maps_allocated R _ pt _ _ Hk Hj Hm) as (Hmg & Hnt & _ & Hpos & _).
    destruct (release_refs _ _ (vr_pmm _ _ _ _ _ _ R) Hmg Hpos) as (H1 & H2 & H3 & H4 & _ & _).
    exists (pmm_release_frame (pte_frame e) (m_pmm s)). split_and!; try done.
    + apply (vm_rep_set_pte R (pd, v / 1024)); try done; try apply R.
      * intros x Hx. split; [apply H4; by intros ->|done].
      * intros x Hx Hn. rewrite H3. fold e. rewrite (pte_maps_eqb e) by done.
        change (pte_maps 0 x) with false. simpl. lia.
    + intros Hp Q HQ. apply andb_true_iff in Eo as [E1 E2].
      rewrite <- has_present_user, Hp in E1. simpl in E1. rewrite E1, E2. by apply runs_modify.
  - exists (m_pmm s). split_and!; try done; try apply R.
    + apply (vm_rep_set_pte R (pd, v / 1024)); try done; try apply R.
      intros x Hx Hn. fold e. rewrite (pte_maps_none e) by done.
      change (pte_maps 0 x) with false. simpl. lia.
    + intros Hp Q HQ. rewrite <- has_present_user, Hp in Eo. simpl in Eo. rewrite Eo.
      apply runs_ret. by destruct s as [[] ? ? ?].
Qed.

(** Freeing a page table without present entries. *)
Lemma drop_empty_pt pds pts ext p mem pd i pt :
  vm_rep kpd pds pts ext p mem -> pts !! (pd, i) = Some pt ->
  (forall j, 0 <= j < 1024 -> has (mem pt j) PAGE_PRESENT = false) ->
  let q := pmm_release_frame pt p in
  vm_rep kpd pds (delete (pd, i) pts) ext q (mem_write pd i 0 mem) /\ same_window p q /\
  (forall pd' v', pd' ∈ pds -> user_page v' ->
     has_all (user_pte mem pd' v') (Z.lor PAGE_PRESENT PAGE_USER) = true ->
     user_pte (mem_write pd i 0 mem) pd' v' = user_pte mem pd' v') /\
  (forall v', user_page v' -> v' / 1024 = i -> user_pte (mem_write pd i 0 mem) pd v' = 0) /\
  (forall pd' v', pd' ∈ pds -> user_page v' ->
     user_pte (mem_write pd i 0 mem) pd' v' = 0 \/ user_pte (mem_write pd i 0 mem) pd' v' = user_pte mem pd' v').
Proof.
  intros R Hk Hemp q. destruct (vr_dom _ _ _ _ _ _ R pd i pt Hk) as [Hpd Hi].
  pose proof (is_table_pt (pds := pds) _ pt Hk) as Hpt.
  destruct (vr_table _ _ _ _ _ _ R pt Hpt) as (Hm & Ht & He & Hne).
  assert (frame_refs p pt = 1) as H1 by (unfold frame_refs; by rewrite Ht).
  destruct (release_refs p pt (vr_pmm _ _ _ _ _ _ R) Hm ltac:(lia)) as (Hq & Hw & Hr & Ho & Hd & _).
  fold q in Hq, Hw, Hr, Ho, Hd.
  assert (vm_rep kpd pds (delete (pd, i) pts) ext q (mem_write pd i 0 mem)) as R'.
  { apply (vm_rep_drop_pt R pd i pt); try done.
    - by rewrite Hd, lookup_delete_eq.
    - intros f Hf _. by apply Ho.
    - intros f Hf Hnt. rewrite Hr, (proj2 (Z.eqb_neq f pt)) by (intros ->; done).
      unfold pt_refs. rewrite count_below_none; [simpl; lia|]. unfold PT_ENTRIES. intros j Hj.
      unfold pte_maps. rewrite <- has_present_user, Hemp by lia. done. }
  split_and!; try done.
  - intros pd' v' Hpd' Hv'. rewrite (user_pte_rep R'), (user_pte_rep R) by done.
    destruct (decide ((pd', v' / 1024) = (pd, i))) as [[= -> ->]|Hn].
    + rewrite Hk, lookup_delete_eq. intros Hpres%has_user_present.
      rewrite Hemp in Hpres by (apply Z.mod_pos_bound; lia). done.
    + rewrite lookup_delete_ne by congruence. intros _.
      destruct (pts !! (pd', v' / 1024)) as [pt'|] eqn:E; [|done].
      apply mem_write_ne. left. intros ->. by apply (vr_sep _ _ _ _ _ _ R _ _ E).
  - intros v' Hv' <-. rewrite (user_pte_rep R') by done. by rewrite lookup_delete_eq.
  - intros pd' v' Hpd' Hv'. rewrite (user_pte_rep R'), (user_pte_rep R) by done.
    destruct (decide ((pd', v' / 1024) = (pd, i))) as [[= -> ->]|Hn]; [left; by rewrite lookup_delete_eq|right].
    rewrite lookup_delete_ne by congruence. destruct (pts !! (pd', v' / 1024)) as [pt'|] eqn:E; [|done].
    apply mem_write_ne. left. intros ->. by apply (vr_sep _ _ _ _ _ _ R _ _ E).
Qed.

(** A directory entry of a process is never the kernel's entry. *)
Lemma pde_not_kernel pds pts ext p mem k pt i :
  vm_rep kpd pds pts ext p mem -> pts !! k = Some pt -> user_index i -> (pt + 7 =? mem kpd i) = false.
Proof.
  intros R Hk Hi. apply Z.eqb_neq. intros E. destruct (pde_decode R k pt Hk) as (_ & _ & Hu & _).
  destruct (vr_kpd_user _ _ _ _ _ _ R i Hi) as [_ Hn]. congruence.
Qed.

Lemma unmap_runs pds pts ext s pd va :
  vm_rep kpd pds pts ext (m_pmm s) (m_mem s) -> pd ∈ pds -> 0 <= va < 2 ^ 32 ->
  let v := va / 4096 in
  runs (paging_unmap_user_page L pd va) s (fun b s' =>
    b = paging_pd_index_is_user (v / 1024) && has (user_pte (m_mem s) pd v) PAGE_PRESENT /\
    if b then exists pts', vm_rep kpd pds pts' ext (m_pmm s') (m_mem s') /\
      same_window (m_pmm s) (m_pmm s') /\ unmapped pds pts pts' s s' pd v
    else s' = s).
Proof.
  intros R Hpd Hva v. unfold paging_unmap_user_page.
  destruct (page_clear va Hva) as [-> ->]. fold v.
  rewrite (table_not_null L pds pts ext s pd R (is_table_pd pd Hpd)).
  destruct (paging_pd_index_is_user (v / 1024)) eqn:Hu; [|by apply runs_ret].
  cbn [negb andb]. apply pd_index_is_user in Hu. pose proof (user_index_range _ Hu).
  rewrite (paging_pd_virt_table L pds pts ext s pd R Hpd).
  pose proof (table_kptr R pd (is_table_pd pd Hpd)) as Hdptr.
  apply runs_bind, runs_ret, runs_bind, (runs_read _ _ Hdptr); [lia|].
  rewrite (user_pte_rep R), (vr_pde _ _ _ _ _ _ R) by done.
  destruct (pts !! (pd, v / 1024)) as [pt|] eqn:Hk; [|by apply runs_ret].
  destruct (pde_decode R _ _ Hk) as (-> & _ & _ & ->). cbn [negb].
  apply runs_bind, (runs_read _ _ kpd_ok); [lia|].
  rewrite (pde_not_kernel pds pts ext _ _ _ pt _ R Hk Hu).
  rewrite (paging_pt_virt_table L pds pts ext s _ pt R Hk).
  assert (0 <= v mod 1024 < 1024) as Hj by (apply Z.mod_pos_bound; lia).
  pose proof (table_kptr R pt (is_table_pt _ pt Hk)) as Hptr.
  apply runs_bind, runs_ret, runs_bind, (runs_read _ _ Hptr); [done|].
  destruct (unmap_pte_rep pds pts ext s pd v pt R Hpd Hu Hk) as (q & Hq & Hw & R1 & Hrun).
  set (e := m_mem s pt (v mod 1024)) in *.
  destruct (has e PAGE_PRESENT) eqn:Hp; [|by apply runs_ret]. cbn [negb].
  apply runs_bind, Hrun; [done|]. apply runs_bind, (runs_write _ _ Hptr); [done|].
  apply runs_bind, runs_ret. set (s1 := set_mem _ (set_pmm q s)).
  destruct (pte_updated_write R pd v pt 0 Hpd Hu Hk R1) as [_ Hu2 Hu3 Hu4].
  assert (Hkeep : forall pd' v', pd' ∈ pds -> user_page v' ->
    user_pte (m_mem s1) pd' v' = 0 \/ user_pte (m_mem s1) pd' v' = user_pte (m_mem s) pd' v').
  { intros pd' v' Hpd' Hv'. change (m_mem s1) with (mem_write pt (v mod 1024) 0 (m_mem s)).
    destruct (decide ((pd', v') = (pd, v))) as [[= -> ->]|Hne]; [by left|right; by apply Hu4]. }
  apply runs_bind, (pt_empty_runs pt s1); [done|]. intros b Hb.
  apply runs_bind. destruct b; cbn [when].
  - destruct (drop_empty_pt pds pts ext q (m_mem s1) pd (v / 1024) pt R1 Hk (Hb eq_refl)) as (R2 & Hw2 & Ho & Hz & Hall').
    destruct (table_frame R pt (is_table_pt _ pt Hk)) as (Hpf & _). rewrite Hpf. cbn [when].
    apply runs_bind, (runs_write _ _ Hdptr); [lia|]. apply runs_modify, runs_ret.
    split; [done|]. exists (delete (pd, v / 1024) pts). split_and!; [exact R2| |].
    + by apply (same_window_trans _ _ _ Hw).
    + split; cbn [m_mem set_pmm set_kmem set_mem]; [by right|by apply Hz| | |].
      * intros pd' v' Hpd' Hv' Hne Hall. fold s1. etrans; [apply Ho; try done|by apply Hu4].
        change (m_mem s1) with (mem_write pt (v mod 1024) 0 (m_mem s)). by rewrite Hu4.
      * intros x i Hx. rewrite mem_write_ne by (left; intros ->; apply Hx; by left). by apply Hu2.
      * intros pd' v' Hpd' Hv'. destruct (Hall' pd' v' Hpd' Hv') as [E|E]; fold s1; rewrite E; [by left|].
        by apply Hkeep.
  - apply runs_ret, runs_ret. split; [done|]. exists pts. split_and!; [exact R1|exact Hw|].
    split; cbn [m_mem s1 set_mem]; [by left|done| | |done].
    + intros pd' v' Hpd' Hv' Hne _. by apply Hu4.
    + intros x i Hx. by apply Hu2.
Qed.

(** ** Destruction *)

Lemma count_below_mono f n m : (n <= m)%nat -> count_below f n <= count_below f m.
Proof. induction 1; simpl; [lia|]. destruct (f _); lia. Qed.

(** The references of the first [j] entries of a page table have been dropped. *)
Definition dropped (mem : Z -> Z -> Z) (pds : gset Z) (pts : gmap (Z * Z) Z) (pt j : Z)
    (s t : machine) : Prop :=
  t = set_pmm (m_pmm t) s /\ pmm_wf (m_pmm t) /\ same_window (m_pmm s) (m_pmm t) /\
  (forall f, is_table pds pts f -> pmm_table (m_pmm t) !! f = pmm_table (m_pmm s) !! f) /\
  s_free_count (m_pmm s) <= s_free_count (m_pmm t) /\
  forall f, frame_refs (m_pmm t) f =
    frame_refs (m_pmm s) f - count_below (fun i => pte_maps (mem pt i) f) (Z.to_nat j).

Lemma drop_step pds pts ext s t k pt j :
  vm_rep kpd pds pts ext (m_pmm s) (m_mem s) -> pts !! k = Some pt -> 0 <= j < 1024 ->
  dropped (m_mem s) pds pts pt j s t ->
  runs (pte <- read_word (alias pt) j ;;
        when (has_all pte (Z.lor PAGE_PRESENT PAGE_USER) && paging_phys_is_pmm_frame (pte_frame pte))
          (free_frame (pte_frame pte))) t
    (fun _ => dropped (m_mem s) pds pts pt (j + 1) s).
Proof.
  intros R Hk Hj (Et & Hp & Hw & Htab & Hfc & Hr).
  pose proof (table_kptr R pt (is_table_pt _ pt Hk)) as Hptr.
  apply runs_bind, (runs_read _ _ Hptr); [done|].
  replace (m_mem t pt j) with (m_mem s pt j) by (by rewrite Et). set (e := m_mem s pt j).
  assert (forall f, count_below (fun i => pte_maps (m_mem s pt i) f) (Z.to_nat (j + 1)) =
    count_below (fun i => pte_maps (m_mem s pt i) f) (Z.to_nat j) + Z.b2z (pte_maps e f)) as Hcnt.
  { intros f. replace (Z.to_nat (j + 1)) with (S (Z.to_nat j)) by lia. simpl.
    rewrite Z2Nat.id by lia. unfold e, Z.b2z. done. }
  destruct (has_all e _ && _) eqn:Eo; cbn [when].
  - assert (pte_maps e (pte_frame e) = true) as Hm by (rewrite pte_maps_eqb by done; lia).
    destruct (pte_maps_allocated R k pt j _ Hk Hj Hm) as (Hmg & Hnt & _ & _ & _).
    assert (0 < frame_refs (m_pmm t) (pte_frame e)) as Hpos.
    { rewrite Hr, (vr_refs _ _ _ _ _ _ R _ Hmg Hnt), (refs_delete _ _ k pt _ Hk).
      pose proof (vr_ext _ _ _ _ _ _ R (pte_frame e)).
      pose proof (refs_nonneg (m_mem s) (delete k pts) (pte_frame e)). unfold pt_refs.
      pose proof (count_below_mono (fun i => pte_maps (m_mem s pt i) (pte_frame e))
        (Z.to_nat (j + 1)) (Z.to_nat PT_ENTRIES) ltac:(unfold PT_ENTRIES; lia)) as Hmono.
      rewrite Hcnt, Hm in Hmono. cbn [Z.b2z] in Hmono. lia. }
    destruct (release_refs (m_pmm t) (pte_frame e) Hp) as (H1 & H2 & H3 & H4 & _ & H6);
      [by apply (same_window_managed (m_pmm s))|done|].
    apply runs_modify. unfold dropped. split_and!.
    + rewrite Et. done.
    + exact H1.
    + by apply (same_window_trans _ _ _ Hw).
    + intros f Hf. etrans; [apply H4; by intros ->|by apply Htab].
    + etrans; [exact Hfc|exact H6].
    + intros f. etrans; [apply H3|]. rewrite Hr, Hcnt, (pte_maps_eqb e) by done. lia.
  - apply runs_ret. split_and!; try done.
    intros f. rewrite Hr, Hcnt, (pte_maps_none e) by done. simpl. lia.
Qed.

(** The page tables of [pd] below index [i] have been given up. *)
Definition destroyed (pds : gset Z) (pts : gmap (Z * Z) Z) (ext : Z -> Z) (s : machine) (pd i : Z)
    (pts' : gmap (Z * Z) Z) (t : machine) : Prop :=
  vm_rep kpd pds pts' ext (m_pmm t) (m_mem t) /\ same_window (m_pmm s) (m_pmm t) /\
  (forall k, pts' !! k = if (fst k =? pd) && (snd k <? i) then None else pts !! k) /\
  (forall x j, x <> pd -> m_mem t x j = m_mem s x j) /\
  s_free_count (m_pmm s) <= s_free_count (m_pmm t).

Lemma destroyed_skip pds pts ext s pd i pts' t :
  pts !! (pd, i) = None -> destroyed pds pts ext s pd i pts' t ->
  destroyed pds pts ext s pd (i + 1) pts' t.
Proof.
  intros Hn (R & Hw & Hp & Hm & Hf). split_and!; try done. intros [a b]. rewrite Hp. simpl.
  destruct (Z.eqb_spec a pd) as [->|]; [|done]. simpl. zcase; try done; try lia.
  assert (b = i) as -> by lia. done.
Qed.

Lemma destroy_entry_runs pds pts ext s pd i pts' t :
  pd ∈ pds -> user_index i -> destroyed pds pts ext s pd i pts' t ->
  runs (destroy_entry L (alias pd) i) t (fun _ t' => exists pts'', destroyed pds pts ext s pd (i + 1) pts'' t').
Proof.
  intros Hpd Hi D. pose proof D as (R & Hw & Hpts & Hmem & Hfc). pose proof (user_index_range _ Hi).
  unfold destroy_entry. pose proof (table_kptr R pd (is_table_pd pd Hpd)) as Hdptr.
  apply runs_bind, (runs_read _ _ Hdptr); [lia|]. apply runs_bind, (runs_read _ _ kpd_ok); [lia|].
  rewrite (vr_pde _ _ _ _ _ _ R) by done.
  assert (pts' !! (pd, i) = pts !! (pd, i)) as Hsame
    by (rewrite Hpts; simpl; rewrite Z.eqb_refl, Z.ltb_irrefl; done).
  destruct (pts' !! (pd, i)) as [pt|] eqn:Hk.
  2: { destruct (0 =? m_mem t kpd i); apply runs_ret; exists pts'; by apply destroyed_skip. }
  rewrite (pde_not_kernel pds pts' ext _ _ _ pt _ R Hk Hi).
  destruct (pde_decode R _ _ Hk) as (-> & _ & _ & ->). cbn [negb].
  rewrite (paging_pt_virt_table L pds pts' ext t _ pt R Hk). apply runs_bind, runs_ret, runs_bind.
  apply (runs_for_each (fun j u => dropped (m_mem t) pds pts' pt j t u)); [by vm_compute| |..].
  { split_and!; try done; try apply R; [by destruct t as [[] ? ? ?]|]. intros f. simpl. lia. }
  { intros j u Hj Hu. by apply (drop_step pds pts' ext t u (pd, i)). }
  intros u (Eu & Hp & Hw' & Htab & Hfc' & Hr).
  pose proof (is_table_pt (pds := pds) _ pt Hk) as Hpt.
  destruct (vr_table _ _ _ _ _ _ R pt Hpt) as (Hm & Ht & He & Hne).
  assert (frame_refs (m_pmm u) pt = 1) as H1 by (unfold frame_refs; by rewrite Htab, Ht).
  destruct (release_refs (m_pmm u) pt Hp) as (Q1 & Q2 & Q3 & Q4 & Q5 & Q6);
    [by apply (same_window_managed (m_pmm t))|lia|].
  apply runs_bind, runs_modify, (runs_write _ _ Hdptr); [lia|].
  exists (delete (pd, i) pts'). split_and!.
  - cbn [m_mem set_mem]. replace (m_mem (set_pmm _ u)) with (m_mem t) by (by rewrite Eu).
    apply (vm_rep_drop_pt R pd i pt); try done.
    + exact (same_window_trans _ _ _ Hw' Q2).
    + change (pmm_table (pmm_release_frame pt (m_pmm u)) !! pt = None).
      by rewrite Q5, lookup_delete_eq.
    + intros f Hf Hft. etrans; [by apply Q4|by apply Htab].
    + intros f Hf Hnt. etrans; [apply Q3|]. rewrite Hr, (proj2 (Z.eqb_neq f pt)) by (intros ->; done).
      unfold pt_refs. cbn [Z.b2z]. lia.
  - exact (same_window_trans _ _ _ Hw (same_window_trans _ _ _ Hw' Q2)).
  - intros [a b]. destruct (decide ((a, b) = (pd, i))) as [[= -> ->]|Hne'].
    + rewrite lookup_delete_eq. cbn [fst snd]. by rewrite Z.eqb_refl, (proj2 (Z.ltb_lt i (i + 1))) by lia.
    + rewrite lookup_delete_ne, Hpts by congruence. cbn [fst snd].
      destruct (Z.eqb_spec a pd) as [->|]; [|done]. cbn [andb]. zcase; try done; try lia.
      exfalso. apply Hne'. f_equal. lia.
  - intros x j Hx. cbn [m_mem set_mem]. rewrite mem_write_ne by auto.
    replace (m_mem (set_pmm _ u)) with (m_mem t) by (by rewrite Eu). by apply Hmem.
  - etrans; [exact Hfc|]. etrans; [exact Hfc'|]. exact Q6.
Qed.

(** [process_pd_destroy] gives back every reference the address space holds, its
    page tables and its directory, and touches nothing else. *)
Lemma pd_destroy_runs pds pts ext s pd :
  vm_rep kpd pds pts ext (m_pmm s) (m_mem s) -> pd ∈ pds ->
  runs (process_pd_destroy L pd) s (fun _ s' => exists pts',
    vm_rep kpd (pds ∖ {[pd]}) pts' ext (m_pmm s') (m_mem s') /\
    (forall k, pts' !! k = if fst k =? pd then None else pts !! k) /\
    same_window (m_pmm s) (m_pmm s') /\
    (forall x j, x <> pd -> m_mem s' x j = m_mem s x j) /\
    pmm_table (m_pmm s') !! pd = None /\ s_free_count (m_pmm s) <= s_free_count (m_pmm s')).
Proof.
  intros R Hpd. unfold process_pd_destroy.
  rewrite (table_not_null L pds pts ext s pd R (is_table_pd pd Hpd)).
  rewrite (paging_pd_virt_table L pds pts ext s pd R Hpd).
  apply runs_bind, runs_ret, runs_bind.
  apply (runs_for_each (fun i t => exists pts', destroyed pds pts ext s pd i pts' t)); [by vm_compute| |..].
  { exists pts. split_and!; try done. intros [a b]. cbn [fst snd].
    destruct (Z.eqb_spec a pd) as [->|]; [|done]. cbn [andb].
    destruct (Z.ltb_spec b USER_PD_FIRST_INDEX); [|done].
    destruct (pts !! (pd, b)) eqn:E; [|done].
    apply (vr_dom _ _ _ _ _ _ R) in E as [_ [? _]]. lia. }
  { intros i t Hi (pts' & D). by apply (destroy_entry_runs pds pts ext s pd i pts'). }
  intros t (pts' & R' & Hw & Hp & Hm & Hfc).
  assert (forall i, pts' !! (pd, i) = None) as Hno.
  { intros i. destruct (pts' !! (pd, i)) eqn:E; [|done].
    pose proof (vr_dom _ _ _ _ _ _ R' _ _ _ E) as [_ [_ Hlt]].
    rewrite Hp in E. cbn [fst snd] in E. rewrite Z.eqb_refl, (proj2 (Z.ltb_lt _ _) Hlt) in E. done. }
  destruct (vr_table _ _ _ _ _ _ R' pd (is_table_pd pd Hpd)) as (Hmg & Ht & _ & _).
  assert (frame_refs (m_pmm t) pd = 1) as H1 by (unfold frame_refs; by rewrite Ht).
  destruct (release_refs (m_pmm t) pd (vr_pmm _ _ _ _ _ _ R') Hmg ltac:(lia)) as (Q1 & Q2 & Q3 & Q4 & Q5 & Q6).
  apply runs_modify. exists pts'. split_and!.
  - apply (vm_rep_drop_pd R' pd); try done. by apply Q5.
  - intros [a b]. cbn [fst snd].
    destruct (Z.eqb_spec a pd) as [->|Hne]; [apply Hno|].
    rewrite Hp. cbn [fst snd]. by rewrite (proj2 (Z.eqb_neq a pd)) by done.
  - by apply (same_window_trans _ _ _ Hw).
  - done.
  - etrans; [apply f_equal, Q5; done|]. apply lookup_delete_eq.
  - by etrans.
Qed.
End Life.
