(* ===== verification/AddressClone.v ===== *)
(** * Copying an address space

    [process_pd_clone_user] of [Paging], the memory half of fork: both address
    spaces see the same frames, and no frame of the allocator stays writable in
    either unless it was already shared that way. *)
From S2P Require Import Prelude BootInfo Pmm Memory Paging AddressSpace AddressOps AddressLife.
From Stdlib Require Import ZArith Lia ZifyBool Bool.
From stdpp Require Import base numbers gmap list fin_maps.
Local Open Scope Z_scope.
Local Open Scope kernel_scope.

(** ** What the clone does to one entry *)

(** [page_may_write] of the caller; the entry is made copy-on-write. *)
Definition may_write_at (may_write : option (Z -> bool)) (v : Z) : bool :=
  match may_write with Some f => f (v * 4096) | None => false end.

Definition made_cow (can : bool) (fl : Z) : bool :=
  negb (has fl PAGE_SHARED_RO_FILE) && negb (has fl PAGE_COW) && (has fl PAGE_WRITE || can).

(** Flags of the child's mapping of a frame of the allocator. *)
Definition child_flags (can : bool) (fl : Z) : Z :=
  if made_cow can fl then Z.lor (clear fl PAGE_WRITE) PAGE_COW else clear fl PAGE_WRITE.

Definition user_present (e : Z) : bool := has_all e (Z.lor PAGE_PRESENT PAGE_USER).

(** The child's entry and the parent's entry after the clone. *)
Definition clone_dst (can : bool) (e : Z) : Z :=
  if negb (user_present e) then 0 else
  pte_frame e + Z.lor (if paging_phys_is_pmm_frame (pte_frame e)
                       then child_flags can (pte_flags e) else pte_flags e) PAGE_PRESENT.

Definition clone_src (can : bool) (e : Z) : Z :=
  if user_present e && paging_phys_is_pmm_frame (pte_frame e) && made_cow can (pte_flags e)
  then pte_frame e + Z.lor (Z.lor (clear (pte_flags e) PAGE_WRITE) PAGE_COW) PAGE_PRESENT
  else e.

Lemma user_present_flags e : user_present e = user_present (pte_flags e).
Proof. unfold user_present. rewrite pte_flags_eq. by apply has_all_flags. Qed.

(** What a mapping of the child needs of its flags. *)
Record good_flags (fl' : Z) : Prop := {
  gf_range : 0 <= fl' < 4096;
  gf_user : has fl' PAGE_USER = true;
  gf_range_p : 0 <= Z.lor fl' PAGE_PRESENT < 4096;
  gf_user_p : user_present (Z.lor fl' PAGE_PRESENT) = true
}.

Definition good_flagsb (fl' : Z) : bool :=
  (0 <=? fl') && (fl' <? 4096) && has fl' PAGE_USER
  && (0 <=? Z.lor fl' PAGE_PRESENT) && (Z.lor fl' PAGE_PRESENT <? 4096)
  && user_present (Z.lor fl' PAGE_PRESENT).

Lemma good_flagsb_sound fl' : good_flagsb fl' = true -> good_flags fl'.
Proof.
  unfold good_flagsb. rewrite !andb_true_iff, !Z.leb_le, !Z.ltb_lt.
  intros [[[[[? ?] ?] ?] ?] ?]. by split.
Qed.

Lemma flags_good_spec fl can :
  0 <= fl < 4096 -> user_present fl = true ->
  good_flags fl /\ good_flags (child_flags can fl) /\
  good_flags (Z.lor (clear fl PAGE_WRITE) PAGE_COW).
Proof.
  intros Hfl Hu. pose proof (flags_forall (fun fl => implb (user_present fl)
    (good_flagsb fl && good_flagsb (child_flags true fl) && good_flagsb (child_flags false fl)
     && good_flagsb (Z.lor (clear fl PAGE_WRITE) PAGE_COW)))
    ltac:(vm_compute; reflexivity) fl Hfl) as E.
  cbv beta in E. rewrite Hu in E. cbn [implb] in E. rewrite !andb_true_iff in E.
  destruct E as [[[E1 E2] E3] E4]. split_and!; apply good_flagsb_sound; try done. by destruct can.
Qed.

Section Entry.
Context (e : Z) (can : bool).
Hypothesis He : 0 <= e < 2 ^ 32.

Lemma clone_dst_maps f : pte_maps (clone_dst can e) f = pte_maps e f.
Proof.
  unfold clone_dst. destruct (user_present e) eqn:Hu; simpl.
  2: { unfold pte_maps. fold (user_present e). by rewrite Hu. }
  destruct (pte_frame_spec e He) as (H1 & H2 & H3 & _). pose proof Hu as Hu'. rewrite user_present_flags in Hu'.
  destruct (flags_good_spec (pte_flags e) can H3 Hu') as (G1 & G2 & _).
  unfold pte_maps. fold (user_present e). rewrite Hu.
  destruct (paging_phys_is_pmm_frame (pte_frame e)) eqn:Hp.
  - destruct G2. rewrite entry_frame, entry_has_all by (done || by vm_compute).
    unfold user_present in *. by rewrite gf_user_p0, Hp.
  - destruct G1. rewrite entry_frame, Hp by done. by rewrite andb_false_r.
Qed.

Lemma clone_src_maps f : pte_maps (clone_src can e) f = pte_maps e f.
Proof.
  unfold clone_src. destruct (_ && _) eqn:E; [|done]. rewrite !andb_true_iff in E. destruct E as [[Hu Hp] _].
  destruct (pte_frame_spec e He) as (H1 & H2 & H3 & _). pose proof Hu as Hu'. rewrite user_present_flags in Hu'.
  destruct (flags_good_spec (pte_flags e) can H3 Hu') as (_ & _ & [_ _ G1 G2]).
  unfold pte_maps. rewrite entry_frame, entry_has_all by (done || by vm_compute).
  fold (user_present e). unfold user_present in *. by rewrite Hu, G2.
Qed.

Lemma clone_src_range : 0 <= clone_src can e < 2 ^ 32.
Proof.
  unfold clone_src. destruct (_ && _) eqn:E; [|done]. rewrite !andb_true_iff in E. destruct E as [[Hu Hp] _].
  destruct (pte_frame_spec e He) as (H1 & H2 & H3 & _). rewrite user_present_flags in Hu.
  destruct (flags_good_spec (pte_flags e) can H3 Hu) as (_ & _ & [_ _ G1 _]). by apply entry_range.
Qed.
End Entry.

Lemma clone_virt i j :
  0 <= i -> 0 <= j < 1024 -> Z.lor (Z.shiftl i 22) (Z.shiftl j 12) = (i * 1024 + j) * 4096.
Proof.
  intros Hi Hj. rewrite !Z.shiftl_mul_pow2 by lia.
  assert (Z.land (i * 2 ^ 22) (j * 2 ^ 12) = 0) as H0.
  { replace (i * 2 ^ 22) with (Z.shiftl (Z.shiftl i 10) 12)
      by (rewrite Z.shiftl_shiftl, Z.shiftl_mul_pow2 by lia; done).
    rewrite <- (Z.shiftl_mul_pow2 j), <- Z.shiftl_land by lia.
    replace (Z.land (Z.shiftl i 10) j) with 0; [done|]. symmetry.
    apply Z.bits_inj'. intros k Hk. rewrite Z.bits_0, Z.land_spec.
    destruct (Z.lt_ge_cases k 10); [by rewrite Z.shiftl_spec_low|].
    rewrite (Z.bits_above_log2 j), andb_false_r; [done|lia|].
    destruct (Z.eq_dec j 0) as [->|]; [simpl; lia|].
    pose proof (Z.log2_lt_pow2 j 10). lia. }
  rewrite <- Z.lxor_lor, <- Z.add_nocarry_lxor by done. lia.
Qed.

Create HintDb clone.

Section Clone.
Context (L : layout) (kpd_ok : kptr (kernel_page_directory L) (kernel_page_directory L)).
Local Abbreviation kpd := (kernel_page_directory L).
Context (may_write : option (Z -> bool)) (pds : gset Z) (pts : gmap (Z * Z) Z) (ext : Z -> Z)
  (s : machine) (src dst : Z).
Local Abbreviation D := ({[dst]} ∪ pds).
Local Abbreviation can := (may_write_at may_write).

(** [s] is the state just after [process_pd_create] made [dst]. *)
Hypothesis R : vm_rep kpd D pts ext (m_pmm s) (m_mem s).
Hypothesis Hsrc : src ∈ pds.
Hypothesis Hdst : dst ∉ pds.
Hypothesis Hfresh : forall i, pts !! (dst, i) = None.
Local Abbreviation e0 := (user_pte (m_mem s) src).

(** All pages below [n] have been cloned. *)
Record clone_inv (n : Z) (pts' : gmap (Z * Z) Z) (t : machine) : Prop := CloneInv {
  ci_rep : vm_rep kpd D pts' ext (m_pmm t) (m_mem t);
  ci_win : same_window (m_pmm s) (m_pmm t);
  ci_pts : forall k, fst k <> dst -> pts' !! k = pts !! k;
  ci_dst_pts : forall i pt, pts' !! (dst, i) = Some pt -> is_Some (pts !! (src, i)) /\ i * 1024 < n;
  ci_dst : forall v, user_page v ->
    user_pte (m_mem t) dst v = if v <? n then clone_dst (can v) (e0 v) else 0;
  ci_src : forall v, user_page v ->
    user_pte (m_mem t) src v = if v <? n then clone_src (can v) (e0 v) else e0 v;
  ci_other : forall pd v, pd ∈ pds -> pd <> src -> user_page v ->
    user_pte (m_mem t) pd v = user_pte (m_mem s) pd v;
  ci_data : forall x i, ~ is_table D pts' x -> m_mem t x i = m_mem s x i;
  ci_new : forall x, 0 < frame_refs (m_pmm s) x -> is_table D pts' x -> is_table D pts x
}.

Lemma src_dst : src <> dst.
Proof. intros ->. done. Qed.

Lemma dst_in_D : dst ∈ D.
Proof. apply elem_of_union_l. by apply elem_of_singleton. Qed.

Lemma pds_in_D pd : pd ∈ pds -> pd ∈ D.
Proof. apply elem_of_union_r. Qed.

Lemma D_not_dst pd : pd ∈ D -> pd <> dst -> pd ∈ pds.
Proof. rewrite elem_of_union, elem_of_singleton. by intros [?|?]. Qed.
#[local] Hint Resolve dst_in_D pds_in_D D_not_dst src_dst : clone.

Lemma e0_range v : user_page v -> 0 <= e0 v < 2 ^ 32.
Proof.
  intros Hv. rewrite (user_pte_rep R) by (done || auto with clone).
  destruct (pts !! (src, v / 1024)) eqn:E; [|lia].
  apply (vr_pte _ _ _ _ _ _ R _ _ (v mod 1024) E). apply Z.mod_pos_bound. lia.
Qed.

Lemma clone_inv_init n : n <= 1024 -> clone_inv n pts s.
Proof.
  intros Hn. assert (forall v, user_page v -> (v <? n) = false) as Hlt.
  { intros v Hv. pose proof (user_index_range _ Hv). dlia. }
  split; try done.
  - intros i pt E. by rewrite Hfresh in E.
  - intros v Hv. rewrite (user_pte_rep R), Hfresh by (done || auto with clone). by rewrite Hlt.
  - intros v Hv. by rewrite Hlt.
Qed.

Lemma clone_inv_skip n m pts' t :
  n <= m -> (forall v, n <= v < m -> user_page v -> user_present (e0 v) = false) ->
  clone_inv n pts' t -> clone_inv m pts' t.
Proof.
  intros Hnm Hsk [H1 H2 H3 H4 H5 H6 H7 H8 H9].
  assert (forall v, n <= v < m -> user_page v ->
    clone_dst (can v) (e0 v) = 0 /\ clone_src (can v) (e0 v) = e0 v) as Hs.
  { intros v Hv Hu. unfold clone_dst, clone_src. by rewrite (Hsk v Hv Hu). }
  split; try done.
  - intros i pt E. destruct (H4 i pt E). split; [done|lia].
  - intros v Hv. rewrite H5 by done. zcase; try done; try lia.
    by destruct (Hs v ltac:(lia) Hv) as [-> _].
  - intros v Hv. rewrite H6 by done. zcase; try done; try lia.
    by destruct (Hs v ltac:(lia) Hv) as [_ ->].
Qed.

Lemma page_number i j : user_index i -> 0 <= j < 1024 ->
  user_page (i * 1024 + j) /\ (i * 1024 + j) / 1024 = i /\ (i * 1024 + j) mod 1024 = j.
Proof.
  intros Hi Hj. assert ((i * 1024 + j) / 1024 = i) as E by dlia.
  unfold user_page. rewrite E. split_and!; [done|done|dlia].
Qed.

(** A word of a page table is the entry of its page. *)
Lemma table_word p mem ext' Q pts' pd i pt j :
  vm_rep kpd Q pts' ext' p mem -> pts' !! (pd, i) = Some pt -> 0 <= j < 1024 ->
  mem pt j = user_pte mem pd (i * 1024 + j).
Proof.
  intros R' Hk Hj. destruct (vr_dom _ _ _ _ _ _ R' pd i pt Hk) as [Hpd Hi].
  destruct (page_number i j Hi Hj) as (Hv & Ed & Em).
  by rewrite (user_pte_rep R'), Ed, Em, Hk by done.
Qed.

Lemma old_table_refs n pts' t f :
  clone_inv n pts' t -> refs (m_mem t) pts f = refs (m_mem s) pts f.
Proof.
  intros C. apply refs_maps_ext.
  intros [pd i] pt j Hk Hj.
  destruct (vr_dom _ _ _ _ _ _ R pd i pt Hk) as [Hpd Hi].
  destruct (page_number i j Hi Hj) as (Hv & _).
  assert (pd <> dst) as Hne by (intros ->; by rewrite Hfresh in Hk).
  assert (pts' !! (pd, i) = Some pt) as Hk' by (by rewrite (ci_pts _ _ _ C)).
  rewrite (table_word _ _ _ _ _ _ _ _ _ (ci_rep _ _ _ C) Hk' Hj).
  rewrite (table_word _ _ _ _ _ _ _ _ _ R Hk Hj).
  destruct (decide (pd = src)) as [->|Hns].
  - rewrite (ci_src _ _ _ C) by done. case_match; [|done].
    by rewrite clone_src_maps by (by apply e0_range).
  - rewrite (ci_other _ _ _ C) by (done || auto with clone). done.
Qed.

Lemma new_table_refs n pts' t f :
  clone_inv n pts' t ->
  refs (m_mem t) (filter (fun kv => fst (fst kv) = dst) pts') f <= refs (m_mem s) pts f.
Proof.
  intros C. apply (refs_inject _ _ _ _ (fun k =>
    (if decide (fst k = dst) then src else if decide (fst k = src) then dst else fst k, snd k))).
  { intros [a b] [a' b']. simpl. pose proof src_dst. repeat case_decide; intros ?; simplify_eq; congruence. }
  intros [pd i] pt [Hk Ed]%map_lookup_filter_Some. simpl in Ed. subst pd. simpl.
  rewrite decide_True by done.
  destruct (ci_dst_pts _ _ _ C i pt Hk) as [[pt' Hk'] _]. exists pt'. split; [done|].
  apply count_below_le. unfold PT_ENTRIES. intros j Hj Hm. assert (0 <= j < 1024) as Hj' by lia.
  destruct (vr_dom _ _ _ _ _ _ R _ _ _ Hk') as [_ Hi]. destruct (page_number i j Hi Hj') as (Hv & _).
  rewrite (table_word _ _ _ _ _ _ _ _ _ (ci_rep _ _ _ C) Hk Hj'), (ci_dst _ _ _ C) in Hm by done.
  rewrite (table_word _ _ _ _ _ _ _ _ _ R Hk' Hj').
  case_match; [|done]. by rewrite clone_dst_maps in Hm by (by apply e0_range).
Qed.

Definition dst_tables (pts' : gmap (Z * Z) Z) : gmap (Z * Z) Z :=
  filter (fun kv => fst (fst kv) = dst) pts'.

Lemma clone_refs_split n pts' t f :
  clone_inv n pts' t -> managed_frame (m_pmm s) f -> ~ is_table D pts' f ->
  frame_refs (m_pmm t) f = frame_refs (m_pmm s) f + refs (m_mem t) (dst_tables pts') f.
Proof.
  intros C Hm Hnt. pose proof (old_table_refs n pts' t f C) as Ho.
  set (A := dst_tables pts') in *.
  assert (pts' = A ∪ pts) as E.
  { apply map_eq. intros [pd i]. unfold A, dst_tables. destruct (decide (pd = dst)) as [->|Hne].
    - rewrite lookup_union, Hfresh, (right_id_L None _), map_lookup_filter.
      destruct (pts' !! (dst, i)) as [x|]; simpl; [|done].
      rewrite option_guard_True by done. done.
    - rewrite lookup_union, map_lookup_filter, (ci_pts _ _ _ C) by done.
      destruct (pts !! (pd, i)); simpl; [|done]. rewrite option_guard_False; [done|]. done. }
  assert (A ##ₘ pts) as Hd.
  { apply map_disjoint_spec. intros [pd i] x y [_ Ed]%map_lookup_filter_Some Hy.
    simpl in Ed. subst pd. by rewrite Hfresh in Hy. }
  assert (~ is_table D pts f) as Hnt'.
  { intros [?|([pd i] & Hk)]; apply Hnt; [by left|right]. exists (pd, i).
    rewrite (ci_pts _ _ _ C); [done|]. simpl. intros ->. by rewrite Hfresh in Hk. }
  assert (managed_frame (m_pmm t) f) as Hmt by (by apply (same_window_managed _ _ _ (ci_win _ _ _ C))).
  rewrite (vr_refs _ _ _ _ _ _ (ci_rep _ _ _ C) f Hmt Hnt), (vr_refs _ _ _ _ _ _ R f Hm Hnt').
  rewrite E at 1. rewrite refs_union by done. lia.
Qed.

(** The reference counts during the clone: never below, and at most twice, the
    initial ones. *)
Lemma clone_refs_bound n pts' t f :
  clone_inv n pts' t -> managed_frame (m_pmm s) f -> ~ is_table D pts' f ->
  frame_refs (m_pmm s) f <= frame_refs (m_pmm t) f <= 2 * frame_refs (m_pmm s) f.
Proof.
  intros C Hm Hnt. pose proof (new_table_refs n pts' t f C) as Hn.
  rewrite (clone_refs_split n pts' t f C Hm Hnt).
  pose proof (refs_nonneg (m_mem t) (dst_tables pts') f). fold (dst_tables pts') in Hn.
  assert (~ is_table D pts f) as Hnt'.
  { intros [?|([pd i] & Hk)]; apply Hnt; [by left|right]. exists (pd, i).
    rewrite (ci_pts _ _ _ C); [done|]. simpl. intros ->. by rewrite Hfresh in Hk. }
  rewrite (vr_refs _ _ _ _ _ _ R f Hm Hnt') in *. pose proof (vr_ext _ _ _ _ _ _ R f). lia.
Qed.

Lemma frame_refs_managed p f : 0 < frame_refs p f -> managed_frame p f.
Proof.
  intros Hf. apply frame_refs_some in Hf. apply pmm_table_lookup in Hf as (i & Hi & E & _).
  by exists i.
Qed.

(** ** One entry *)

Section Step.
Context (i j : Z) (spt : Z) (pts' : gmap (Z * Z) Z) (t : machine).
Hypothesis Hi : user_index i.
Hypothesis Hj : 0 <= j < 1024.
Hypothesis Hspt : pts !! (src, i) = Some spt.
Let n : Z := i * 1024 + j.
Hypothesis C : clone_inv n pts' t.
Let e : Z := e0 n.
Let f : Z := pte_frame e.

Lemma step_page : user_page n /\ n / 1024 = i /\ n mod 1024 = j.
Proof. exact (page_number i j Hi Hj). Qed.

Lemma step_word : m_mem t spt j = e.
Proof.
  destruct step_page as (Hv & _).
  assert (pts' !! (src, i) = Some spt) as Hk by (rewrite (ci_pts _ _ _ C); [done|apply src_dst]).
  rewrite (table_word _ _ _ _ _ _ _ _ _ (ci_rep _ _ _ C) Hk Hj), (ci_src _ _ _ C) by done.
  by rewrite (proj2 (Z.ltb_ge _ _)) by (unfold n; lia).
Qed.

Hypothesis Hu : user_present e = true.

(** Ready to map the page in the child: the parent's entry is final, and [f] has one
    more reference if it belongs to the allocator. *)
Record clone_ready (t2 : machine) : Prop := CloneReady {
  cy_rep : vm_rep kpd D pts' (fun x => ext x + Z.b2z (pte_maps e x)) (m_pmm t2) (m_mem t2);
  cy_win : same_window (m_pmm t) (m_pmm t2);
  cy_free : s_free_count (m_pmm t2) = s_free_count (m_pmm t);
  cy_src : user_pte (m_mem t2) src n = clone_src (can n) e;
  cy_other : forall pd v, pd ∈ D -> user_page v -> (pd, v) <> (src, n) ->
    user_pte (m_mem t2) pd v = user_pte (m_mem t) pd v;
  cy_data : forall x k, ~ is_table D pts' x -> m_mem t2 x k = m_mem t x k;
  cy_refs : forall x, frame_refs (m_pmm t) x <= frame_refs (m_pmm t2) x
}.

Definition step_free (N : Z) (m : gmap (Z * Z) Z) (u : machine) : Prop :=
  N + (match m !! (dst, i) with Some _ => 0 | None => 1 end) <= s_free_count (m_pmm u).

Lemma clone_map_runs t2 fl N :
  clone_ready t2 -> good_flags fl -> f + Z.lor fl PAGE_PRESENT = clone_dst (can n) e ->
  0 <= N -> step_free N pts' t ->
  runs (paging_map_page L dst (n * 4096) f fl) t2 (fun _ t' =>
    exists pts'', clone_inv (n + 1) pts'' t' /\ step_free N pts'' t').
Proof.
  intros [Y1 Y2 Y3 Y4 Y5 Y6 Y7] [G1 G2 G3 G4] Hnew HN Hfree. destruct step_page as (Hv & Ed & Em).
  pose proof (e0_range n Hv) as Her. fold e in Her.
  destruct (pte_frame_spec e Her) as (F1 & F2 & F3 & Fe). fold f in F1, F2, Fe.
  assert (pte_frame f = f) as Eff by (pose proof (entry_frame f 0 F1 F2 ltac:(lia)) as E; by rewrite Z.add_0_r in E).
  pose proof dst_in_D as HdD.
  assert (map_pre L D f pts' (fun x => ext x + Z.b2z (pte_maps e x)) (m_pmm t2)) as Hpre.
  { unfold map_pre. rewrite Eff. intros Hpm.
    assert (pte_maps e f = true) as Hm by (unfold user_present in Hu; rewrite pte_maps_eqb by (by rewrite Hu); fold f; lia).
    rewrite Hm. assert (pts' !! (src, i) = Some spt) as Hk by (rewrite (ci_pts _ _ _ C); [done|apply src_dst]).
    rewrite <- step_word in Hm.
    destruct (pte_maps_allocated (ci_rep _ _ _ C) _ _ j f Hk Hj Hm) as (M1 & M2 & M3 & _).
    pose proof (vr_ext _ _ _ _ _ _ R f). simpl.
    split_and!; try done; [by apply (same_window_managed _ _ _ Y2)|lia]. }
  eapply runs_mono; [apply (map_page_runs L D dst n f fl HdD Hv F2 G1 G2 pts' _ t2 (n * 4096) Y1 Hpre)|].
  - pose proof (user_index_range _ Hi). unfold n. lia.
  - by rewrite Z.div_mul by lia.
  - rewrite Ed. intros E. rewrite Y3. unfold step_free in Hfree. rewrite E in Hfree. lia.
  - intros _ t' (pts'' & R' & [U1 U2 U3 U4] & Hsub & Hnt & Hw & Hfc). rewrite Eff, Hnew in *.
    assert (forall k, fst k <> dst -> pts'' !! k = pts' !! k) as Hpp.
    { intros k Hk. apply U1. intros ->. done. }
    assert (is_Some (pts'' !! (dst, i))) as [dpt Hdpt].
    { destruct (pts'' !! (dst, i)) eqn:E; [done|]. exfalso.
      rewrite (user_pte_rep R'), Ed, E in U3 by done. symmetry in U3. revert U3. rewrite <- Hnew. intros E0.
      assert (f = 0 /\ Z.lor fl PAGE_PRESENT = 0) as [_ E1] by lia. rewrite E1 in G4. done. }
    exists pts''. split.
    + split.
      * apply (vm_rep_ext R'). intros x. unfold ext_to_pte. rewrite clone_dst_maps by done. lia.
      * exact (same_window_trans _ _ _ (ci_win _ _ _ C) (same_window_trans _ _ _ Y2 Hw)).
      * intros k Hk. rewrite Hpp by done. by apply (ci_pts _ _ _ C).
      * intros i' pt E. destruct (decide (i' = i)) as [->|Hne].
        -- split; [by eexists|unfold n; lia].
        -- rewrite U1 in E by (rewrite Ed; congruence).
           destruct (ci_dst_pts _ _ _ C i' pt E). split; [done|lia].
      * intros v Hvv. destruct (decide (v = n)) as [->|Hne].
        -- rewrite U3, (proj2 (Z.ltb_lt _ _)) by lia. done.
        -- rewrite U4, Y5, (ci_dst _ _ _ C) by (done || pose proof src_dst; congruence).
           by zcase; try lia.
      * intros v Hvv. rewrite U4 by (done || auto with clone || pose proof src_dst; congruence).
        destruct (decide (v = n)) as [->|Hne].
        -- rewrite Y4, (proj2 (Z.ltb_lt _ _)) by lia. done.
        -- rewrite Y5, (ci_src _ _ _ C) by (done || auto with clone || congruence). by zcase; try lia.
      * intros pd v Hpd Hpne Hvv.
        rewrite U4, Y5, (ci_other _ _ _ C) by (done || auto with clone || congruence). done.
      * intros x k Hx.
        assert (~ is_table D pts' x) as Hx' by (intros [?|([] & ?)]; apply Hx; [by left|right; eauto]).
        rewrite U2, Y6 by done. by apply (ci_data _ _ _ C).
      * intros x Hx Hxt. destruct (is_table_dec D pts' x) as [Hx'|Hx']; [by apply (ci_new _ _ _ C)|].
        apply (ci_new _ _ _ C); [done|]. apply Hnt; [|done].
        pose proof (clone_refs_bound n pts' t x C (frame_refs_managed _ _ Hx) Hx').
        pose proof (Y7 x). lia.
    + unfold step_free in *. rewrite Hdpt. rewrite Ed, Y3 in Hfc.
      destruct (pts' !! (dst, i)); lia.
Qed.

Lemma step_pt : pts' !! (src, i) = Some spt.
Proof. rewrite (ci_pts _ _ _ C); [done|apply src_dst]. Qed.

(** Before the parent's entry is written, with the new allocator state [q]. *)
Definition retained (q : pmm) : Prop :=
  pmm_wf q /\ same_window (m_pmm t) q /\ s_free_count q = s_free_count (m_pmm t) /\
  (forall x, is_table D pts' x -> pmm_table q !! x = pmm_table (m_pmm t) !! x) /\
  (forall x, frame_refs q x = frame_refs (m_pmm t) x + Z.b2z (pte_maps e x)).

Lemma retained_rep q :
  retained q -> vm_rep kpd D pts' (fun x => ext x + Z.b2z (pte_maps e x)) q (m_mem t).
Proof.
  intros (Q1 & Q2 & Q3 & Q4 & Q5).
  assert (forall x, is_table D pts' x -> pte_maps e x = false) as Hno.
  { intros x Hx. destruct (pte_maps e x) eqn:E; [|done]. rewrite <- step_word in E.
    by destruct (pte_maps_allocated (ci_rep _ _ _ C) _ _ j x step_pt Hj E) as (_ & ? & _). }
  apply (vm_rep_counts (ci_rep _ _ _ C)); try done.
  - intros x Hx. rewrite Hno by done. split; [by apply Q4|]. simpl. lia.
  - intros x Hx Hnt. rewrite Q5. lia.
  - intros x. pose proof (vr_ext _ _ _ _ _ _ R x). destruct (pte_maps e x); simpl; lia.
  - intros Hm. pose proof (vr_kpd _ _ _ _ _ _ (ci_rep _ _ _ C) Hm). destruct (pte_maps e kpd); simpl; lia.
Qed.

Lemma clone_ready_keep q : retained q -> clone_src (can n) e = e -> clone_ready (set_pmm q t).
Proof.
  intros Hq He. pose proof (retained_rep q Hq) as R'. destruct Hq as (Q1 & Q2 & Q3 & Q4 & Q5).
  destruct step_page as (Hv & Ed & Em). split; try done.
  - rewrite He. change (user_pte (m_mem t) src n = e).
    rewrite (ci_src _ _ _ C) by done. by rewrite Z.ltb_irrefl.
  - intros x. change (m_pmm (set_pmm q t)) with q. rewrite Q5. destruct (pte_maps e x); simpl; lia.
Qed.

Lemma clone_ready_cow q :
  retained q -> clone_ready (set_mem (mem_write spt j (clone_src (can n) e) (m_mem t)) (set_pmm q t)).
Proof.
  intros Hq. pose proof (retained_rep q Hq) as R'. destruct Hq as (Q1 & Q2 & Q3 & Q4 & Q5).
  destruct step_page as (Hv & Ed & Em). pose proof (e0_range n Hv) as Her. fold e in Her.
  assert (vm_rep kpd D pts' (fun x => ext x + Z.b2z (pte_maps e x)) q
    (mem_write spt j (clone_src (can n) e) (m_mem t))) as R2.
  { apply (vm_rep_set_pte R' (src, i)); try done; try apply R'.
    - exact step_pt.
    - split; [by apply clone_src_range|]. intros x Hx. rewrite clone_src_maps, <- step_word in Hx by done.
      destruct (vr_pte _ _ _ _ _ _ R' _ spt j step_pt Hj) as [_ Hok]. by apply Hok.
    - intros x Hx Hnt. rewrite clone_src_maps, step_word by done. lia. }
  assert (src ∈ D) as HsD by (by apply pds_in_D).
  rewrite <- Em in R2 |- *.
  destruct (pte_updated_write R' src n spt _ HsD Hv ltac:(rewrite Ed; exact step_pt) R2) as [_ U2 U3 U4].
  split; try done.
  - intros x k Hx. by apply U2.
  - intros x. change (m_pmm (set_mem _ (set_pmm q t))) with q. rewrite Q5.
    destruct (pte_maps e x); simpl; lia.
Qed.

(** The parent has run out of references: the child is destroyed and 0 returned. *)
Definition clone_failed (r : Z) (t' : machine) : Prop :=
  r = 0 /\ (exists x, 0xFFFF <= 2 * frame_refs (m_pmm s) x) /\
  vm_rep kpd pds pts ext (m_pmm t') (m_mem t') /\ same_window (m_pmm s) (m_pmm t') /\
  (forall v, user_page v -> user_pte (m_mem t') src v = e0 v \/
     user_pte (m_mem t') src v = clone_src (can v) (e0 v)) /\
  (forall pd v, pd ∈ pds -> pd <> src -> user_page v ->
     user_pte (m_mem t') pd v = user_pte (m_mem s) pd v) /\
  (forall x k, 0 < frame_refs (m_pmm s) x -> ~ is_table D pts x -> m_mem t' x k = m_mem s x k).

Definition step_done (N : Z) (o : option Z) (t' : machine) : Prop :=
  match o with
  | None => exists pts'', clone_inv (n + 1) pts'' t' /\ step_free N pts'' t'
  | Some r => clone_failed r t'
  end.

Lemma clone_abort_runs x :
  0xFFFF <= 2 * frame_refs (m_pmm s) x ->
  runs (process_pd_destroy L dst ;;; ret (Some 0)) t
    (fun o t' => exists r, o = Some r /\ clone_failed r t').
Proof.
  intros Hx. apply runs_bind.
  eapply runs_mono; [apply (pd_destroy_runs L kpd_ok D pts' ext t dst (ci_rep _ _ _ C) dst_in_D)|].
  intros _ t' (p3 & R3 & Hp3 & Hw & Hmem & _ & _). apply runs_ret. exists 0. split; [done|].
  assert (p3 = pts) as ->.
  { apply map_eq. intros [pd k]. rewrite Hp3. cbn [fst]. destruct (Z.eqb_spec pd dst) as [->|Hne]; [done|].
    by apply (ci_pts _ _ _ C). }
  assert (D ∖ {[dst]} = pds) as ED by set_solver. rewrite ED in R3.
  assert (forall pd v, pd ∈ pds -> user_page v -> user_pte (m_mem t') pd v = user_pte (m_mem t) pd v) as Hsame.
  { intros pd v Hpd Hv. assert (pd <> dst) by (intros ->; done).
    rewrite (user_pte_rep R3), (user_pte_rep (ci_rep _ _ _ C)), (ci_pts _ _ _ C) by (done || auto with clone).
    destruct (pts !! (pd, v / 1024)) as [pt|] eqn:E; [|done]. apply Hmem. intros ->.
    by apply (vr_sep _ _ _ _ _ _ R _ _ E), dst_in_D. }
  split_and!; try done; [by exists x|..].
  - exact (same_window_trans _ _ _ (ci_win _ _ _ C) Hw).
  - intros v Hv. rewrite Hsame, (ci_src _ _ _ C) by done. case_match; auto.
  - intros pd v Hpd Hne Hv. rewrite Hsame by done. by apply (ci_other _ _ _ C).
  - intros y k Hy Hny. rewrite Hmem by (intros ->; apply Hny; left; apply dst_in_D).
    apply (ci_data _ _ _ C). intros [Hyd|([pd a] & Hk)].
    { apply Hny. by left. }
    destruct (decide (pd = dst)) as [->|Hne].
    2: { apply Hny. right. exists (pd, a). by rewrite <- (ci_pts _ _ _ C). }
    apply Hny, (ci_new _ _ _ C); [done|]. right. eauto.
Qed.

Lemma clone_retain_runs (k : M machine unit) N :
  paging_phys_is_pmm_frame f = true ->
  (forall q, retained q -> runs k (set_pmm q t) (fun _ t' => step_done N None t')) ->
  runs (clone_retain L dst f k) t (step_done N).
Proof.
  intros Hp Hk. unfold clone_retain.
  assert (forall x, pte_maps e x = (x =? f)) as Hmaps.
  { intros x. apply pte_maps_eqb. unfold user_present in Hu. fold f. by rewrite Hu, Hp. }
  assert (pte_maps (m_mem t spt j) f = true) as Hm by (rewrite step_word, Hmaps; lia).
  destruct (pte_maps_allocated (ci_rep _ _ _ C) _ _ j f step_pt Hj Hm) as (M1 & M2 & _ & M4 & _).
  apply runs_bind, runs_lift. destruct (pmm_retain_frame f (m_pmm t)) as [b q] eqn:E.
  destruct (retain_refs _ f b q (vr_pmm _ _ _ _ _ _ (ci_rep _ _ _ C)) M1 M4 E) as (Q1 & Q2 & Q3 & Q4 & Eb & Q6).
  cbn [fst snd]. destruct b; cbn [negb].
  - apply runs_bind. eapply runs_mono; [apply Hk|intros ? t' Ht'; by apply runs_ret].
    split_and!; try done.
    + intros x Hx. apply Q4. intros ->. done.
    + intros x. by rewrite Q6, Hmaps.
  - assert (q = m_pmm t) as ->.
    { unfold pmm_retain_frame in E. repeat case_match; congruence. }
    replace (set_pmm (m_pmm t) t) with t by (by destruct t as [[] ? ? ?]).
    eapply runs_mono; [apply (clone_abort_runs f)|].
    + assert (frame_refs (m_pmm t) f = 65535) by lia.
      assert (managed_frame (m_pmm s) f) as Hms by (by apply (same_window_managed _ _ _ (ci_win _ _ _ C))).
      pose proof (clone_refs_bound _ _ _ f C Hms M2). lia.
    + by intros o t' (r & -> & Ht').
Qed.

Lemma clone_pte_runs N :
  0 <= N -> step_free N pts' t ->
  runs (clone_pte L may_write dst (alias spt) i j) t (step_done N).
Proof.
  intros HN Hfree. destruct step_page as (Hv & Ed & Em).
  pose proof (e0_range n Hv) as Her. fold e in Her.
  destruct (pte_frame_spec e Her) as (F1 & F2 & F3 & Fe). fold f in F1, F2, Fe.
  pose proof (table_kptr (ci_rep _ _ _ C) spt (is_table_pt _ spt step_pt)) as Hptr.
  pose proof Hu as Huf. rewrite user_present_flags in Huf.
  destruct (flags_good_spec (pte_flags e) (can n) F3 Huf) as (G1 & G2 & G3).
  unfold clone_pte. apply runs_bind, (runs_read _ _ Hptr); [done|]. rewrite step_word.
  fold (user_present e). rewrite Hu. cbn [negb]. fold f.
  rewrite clone_virt by (done || pose proof (user_index_range _ Hi); lia). fold n.
  change (match may_write with Some g => g (n * 4096) | None => false end) with (can n).
  assert (forall fl, good_flags fl -> f + Z.lor fl PAGE_PRESENT = clone_dst (can n) e ->
    forall t2, clone_ready t2 ->
    runs (paging_map_page L dst (n * 4096) f fl) t2 (fun _ t' => step_done N None t')) as Hmap.
  { intros fl Gf Hd t2 Y. by apply clone_map_runs. }
  unfold clone_dst, clone_src in *. fold f in Hmap. rewrite Hu in Hmap. cbn [negb] in Hmap.
  destruct (paging_phys_is_pmm_frame f) eqn:Hpm; cbn [negb].
  2: { apply runs_bind. eapply runs_mono; [apply (Hmap (pte_flags e)); [done|done|]|intros ? t' Ht'; by apply runs_ret].
       assert (forall x, pte_maps e x = false) as Hno
         by (intros x; apply pte_maps_none; fold f; by rewrite Hpm, andb_false_r).
       replace t with (set_pmm (m_pmm t) t) by (by destruct t as [[] ? ? ?]).
       apply clone_ready_keep.
       - split_and!; try done; [apply (ci_rep _ _ _ C)|]. intros x. rewrite Hno. simpl. lia.
       - unfold clone_src. fold f. by rewrite Hpm, andb_false_r. }
  assert (forall fl, good_flags fl -> made_cow (can n) (pte_flags e) = false -> fl = child_flags (can n) (pte_flags e) ->
    runs (clone_retain L dst f (paging_map_page L dst (n * 4096) f fl)) t (step_done N)) as Hkeep.
  { intros fl Gf Hc ->. apply clone_retain_runs; [done|]. intros q Hq.
    apply Hmap; [done|done|]. apply clone_ready_keep; [done|].
    unfold clone_src. by rewrite Hc, andb_false_r. }
  unfold child_flags, made_cow in *.
  destruct (has (pte_flags e) PAGE_SHARED_RO_FILE) eqn:Es; cbn [negb andb] in *; [by apply Hkeep|].
  destruct (has (pte_flags e) PAGE_COW) eqn:Ec; cbn [negb andb] in *; [by apply Hkeep|].
  destruct (has (pte_flags e) PAGE_WRITE || can n) eqn:Hw; [|by apply Hkeep].
  apply clone_retain_runs; [done|]. intros q Hq.
  apply runs_bind, (runs_write _ _ Hptr); [done|]. apply runs_bind, runs_ret.
  apply Hmap; [done|done|].
  pose proof (clone_ready_cow q Hq) as Y. unfold clone_src, made_cow in Y.
  rewrite Hu, Es, Ec, Hw in Y. fold f in Y. rewrite Hpm in Y. cbn [negb andb] in Y.
  rewrite <- lor_aligned in Y by (done || apply G3). exact Y.
Qed.
End Step.

(** ** All entries *)

(** Page tables of the parent from index [i] on: the child needs as many. *)
Definition tables_from (i : Z) : Z :=
  count_below (fun k => bool_decide (is_Some (pts !! (src, k))) && (i <=? k)) (Z.to_nat USER_PD_LIMIT_INDEX).

Lemma tables_from_step i :
  0 <= i < USER_PD_LIMIT_INDEX ->
  tables_from i = tables_from (i + 1) + (match pts !! (src, i) with Some _ => 1 | None => 0 end).
Proof.
  intros Hi. unfold tables_from. set (g a k := bool_decide (is_Some (pts !! (src, k))) && (a <=? k)).
  change (count_below (g i) (Z.to_nat USER_PD_LIMIT_INDEX) =
    count_below (g (i + 1)) (Z.to_nat USER_PD_LIMIT_INDEX)
    + match pts !! (src, i) with Some _ => 1 | None => 0 end).
  pose proof (count_below_update (g i) (g (i + 1)) (Z.to_nat USER_PD_LIMIT_INDEX) i ltac:(lia)) as E.
  assert (forall k, 0 <= k < Z.of_nat (Z.to_nat USER_PD_LIMIT_INDEX) -> k <> i -> g i k = g (i + 1) k) as Hg.
  { intros k _ Hne. unfold g. f_equal. lia. }
  specialize (E Hg). assert (g (i + 1) i = false) as E1 by (unfold g; rewrite andb_false_iff; right; lia).
  assert (g i i = bool_decide (is_Some (pts !! (src, i)))) as E2
    by (unfold g; rewrite (proj2 (Z.leb_le i i)), andb_true_r by lia; done).
  rewrite E1, E2 in E. destruct (pts !! (src, i)).
  - rewrite bool_decide_eq_true_2 in E by done. lia.
  - rewrite bool_decide_eq_false_2 in E by (by intros []). lia.
Qed.

Lemma tables_from_nonneg i : 0 <= tables_from i.
Proof. apply count_below_bounds. Qed.

Definition clone_at (i : Z) (t : machine) : Prop :=
  exists pts', clone_inv (i * 1024) pts' t /\ tables_from i <= s_free_count (m_pmm t).

Lemma clone_pde_runs i t :
  user_index i -> clone_at i t ->
  runs (clone_pde L may_write dst (alias src) i) t (fun o t' =>
    match o with None => clone_at (i + 1) t' | Some r => clone_failed r t' end).
Proof.
  intros Hi (pts' & C & Hfree). pose proof (user_index_range _ Hi) as Hir.
  pose proof (tables_from_step i ltac:(unfold user_index, USER_PD_LIMIT_INDEX in *; lia)) as Hstep.
  pose proof (table_kptr (ci_rep _ _ _ C) src (is_table_pd src (pds_in_D _ Hsrc))) as Hsptr.
  unfold clone_pde. apply runs_bind, (runs_read _ _ Hsptr); [lia|].
  apply runs_bind, (runs_read _ _ kpd_ok); [lia|].
  rewrite (vr_pde _ _ _ _ _ _ (ci_rep _ _ _ C)), (ci_pts _ _ _ C)
    by (done || auto with clone || apply src_dst).
  destruct (pts !! (src, i)) as [spt|] eqn:Hspt.
  2: { assert (clone_at (i + 1) t) as Hn.
       { exists pts'. split; [|lia]. apply (clone_inv_skip (i * 1024)); [lia| |done].
         intros v Hv Hvp. rewrite (user_pte_rep R) by (done || auto with clone).
         replace (v / 1024) with i by dlia. by rewrite Hspt. }
       destruct (0 =? m_mem t kpd i); by apply runs_ret. }
  assert (pts' !! (src, i) = Some spt) as Hk by (rewrite (ci_pts _ _ _ C); [done|apply src_dst]).
  rewrite (pde_not_kernel L _ _ _ _ _ _ spt _ (ci_rep _ _ _ C) Hk Hi).
  destruct (pde_decode (ci_rep _ _ _ C) _ _ Hk) as (-> & _ & _ & ->). cbn [negb].
  rewrite (paging_pt_virt_table L _ _ _ t _ spt (ci_rep _ _ _ C) Hk). apply runs_bind, runs_ret.
  apply (runs_for_return (fun j u => exists pts'', clone_inv (i * 1024 + j) pts'' u /\
    step_free i (tables_from (i + 1)) pts'' u)); [by vm_compute| |..].
  - exists pts'. rewrite Z.add_0_r. split; [done|]. unfold step_free. case_match; lia.
  - unfold PT_ENTRIES. intros j u Hj (pts'' & C' & Hf').
    destruct (user_present (e0 (i * 1024 + j))) eqn:Hup.
    + eapply runs_mono;
        [apply (clone_pte_runs i j spt pts'' u Hi Hj Hspt C' Hup (tables_from (i + 1)) (tables_from_nonneg _) Hf')|].
      intros [r|] u'; [done|]. rewrite Z.add_assoc. done.
    + pose proof (table_kptr (ci_rep _ _ _ C') spt
        (is_table_pt _ spt (step_pt i j spt pts'' u Hspt C'))) as Hptr.
      unfold clone_pte. apply runs_bind, (runs_read _ _ Hptr); [done|].
      rewrite (step_word i j spt pts'' u Hi Hj Hspt C'). fold (user_present (e0 (i * 1024 + j))).
      rewrite Hup. apply runs_ret. exists pts''. split; [|done]. rewrite Z.add_assoc.
      apply (clone_inv_skip (i * 1024 + j)); [lia| |done]. intros v Hv _.
      by replace v with (i * 1024 + j) by lia.
  - intros u (pts'' & C' & Hf'). exists pts''. split.
    + replace ((i + 1) * 1024) with (i * 1024 + PT_ENTRIES) by (unfold PT_ENTRIES; lia). done.
    + unfold step_free in Hf'. case_match; lia.
Qed.
End Clone.

(** ** The whole address space *)

(** Page tables of directory [pd] in the user range. *)
Definition pd_tables (mem : Z -> Z -> Z) (pd : Z) : Z :=
  count_below (fun i => paging_pd_index_is_user i && has (mem pd i) PAGE_PRESENT)
    (Z.to_nat USER_PD_LIMIT_INDEX).

(** A successful clone. *)
Record cloned (may_write : option (Z -> bool)) (pds : gset Z) (pts pts' : gmap (Z * Z) Z) (s s' : machine)
    (src dst : Z) : Prop := Cloned {
  cl_fresh : dst <> 0 /\ (dst ∉ pds) /\ pmm_table (m_pmm s) !! dst = None;
  cl_dst : forall v, user_page v -> user_pte (m_mem s') dst v =
    clone_dst (may_write_at may_write v) (user_pte (m_mem s) src v);
  cl_src : forall v, user_page v -> user_pte (m_mem s') src v =
    clone_src (may_write_at may_write v) (user_pte (m_mem s) src v);
  cl_other : forall pd v, pd ∈ pds -> pd <> src -> user_page v ->
    user_pte (m_mem s') pd v = user_pte (m_mem s) pd v;
  cl_data : forall x i, ~ is_table ({[dst]} ∪ pds) pts' x -> m_mem s' x i = m_mem s x i;
  cl_alloc : forall x, 0 < frame_refs (m_pmm s) x ->
    is_table ({[dst]} ∪ pds) pts' x -> is_table pds pts x
}.

(** A clone given up because a reference count was exhausted. *)
Record clone_aborted (may_write : option (Z -> bool)) (pds : gset Z) (pts : gmap (Z * Z) Z) (s s' : machine)
    (src : Z) : Prop := CloneAborted {
  ca_reason : exists x, 0xFFFF <= 2 * frame_refs (m_pmm s) x;
  ca_src : forall v, user_page v ->
    user_pte (m_mem s') src v = user_pte (m_mem s) src v \/
    user_pte (m_mem s') src v = clone_src (may_write_at may_write v) (user_pte (m_mem s) src v);
  ca_other : forall pd v, pd ∈ pds -> pd <> src -> user_page v ->
    user_pte (m_mem s') pd v = user_pte (m_mem s) pd v;
  ca_data : forall x i, 0 < frame_refs (m_pmm s) x -> ~ is_table pds pts x -> m_mem s' x i = m_mem s x i
}.

Section CloneUser.
Context (L : layout) (kpd_ok : kptr (kernel_page_directory L) (kernel_page_directory L)).
Local Abbreviation kpd := (kernel_page_directory L).

Lemma pd_tables_rep pds pts ext s src :
  vm_rep kpd pds pts ext (m_pmm s) (m_mem s) -> src ∈ pds ->
  tables_from pts src USER_PD_FIRST_INDEX = pd_tables (m_mem s) src.
Proof.
  intros R Hsrc. apply count_below_ext. intros i Hi. unfold paging_pd_index_is_user.
  destruct (Z.leb_spec USER_PD_FIRST_INDEX i); [|by rewrite andb_false_r].
  rewrite (proj2 (Z.ltb_lt i _)), andb_true_r by lia. cbn [andb].
  rewrite (vr_pde _ _ _ _ _ _ R) by (done || (unfold user_index; lia)).
  destruct (pts !! (src, i)) as [pt|] eqn:E.
  - destruct (pde_decode R _ _ E) as (-> & _). by rewrite bool_decide_eq_true_2.
  - by rewrite bool_decide_eq_false_2 by (by intros []).
Qed.

Lemma clone_user_runs may_write pds pts ext s src :
  vm_rep kpd pds pts ext (m_pmm s) (m_mem s) -> src ∈ pds ->
  pd_tables (m_mem s) src < s_free_count (m_pmm s) ->
  runs (process_pd_clone_user L src may_write) s (fun r s' =>
    same_window (m_pmm s) (m_pmm s') /\
    ((r = 0 /\ vm_rep kpd pds pts ext (m_pmm s') (m_mem s') /\ clone_aborted may_write pds pts s s' src) \/
     (exists pts', vm_rep kpd ({[r]} ∪ pds) pts' ext (m_pmm s') (m_mem s') /\
        cloned may_write pds pts pts' s s' src r))).
Proof.
  intros R Hsrc Hfree. unfold process_pd_clone_user.
  rewrite <- (pd_tables_rep pds pts ext s src R Hsrc) in Hfree.
  pose proof (tables_from_nonneg pts src USER_PD_FIRST_INDEX) as Hnn.
  rewrite (table_not_null L pds pts ext s src R (is_table_pd src Hsrc)).
  apply runs_bind, (pd_create_runs L kpd_ok pds pts ext s); [done|lia|].
  intros dst s1 Hm Hn Hd0 R1 Ht Hc Hw Hents Hdata.
  destruct (free_frame_unused R dst Hm Hn) as (Hnt & _ & _ & _).
  assert (dst ∉ pds) as Hdst by (intros ?; apply Hnt; by left).
  assert (forall i, pts !! (dst, i) = None) as Hfresh.
  { intros i. destruct (pts !! (dst, i)) eqn:E; [|done].
    by apply (vr_dom _ _ _ _ _ _ R) in E as [? _]. }
  assert (src ∈ ({[dst]} ∪ pds : gset Z)) as HsD by (by apply elem_of_union_r).
  assert (forall pd v, pd ∈ pds -> user_page v -> user_pte (m_mem s1) pd v = user_pte (m_mem s) pd v) as Hsame.
  { intros pd v Hpd Hv. rewrite (user_pte_rep R1), (user_pte_rep R) by (done || by apply elem_of_union_r).
    destruct (pts !! (pd, v / 1024)) as [pt|] eqn:E; [|done]. apply Hdata. intros ->.
    apply Hnt. right. eauto. }
  assert (forall x, 0 < frame_refs (m_pmm s) x -> x <> dst) as Hxd.
  { intros x Hx ->. unfold frame_refs in Hx. rewrite Hn in Hx. simpl in Hx. lia. }
  assert (forall x, 0 < frame_refs (m_pmm s) x -> frame_refs (m_pmm s1) x = frame_refs (m_pmm s) x) as Hfr.
  { intros x Hx. unfold frame_refs. rewrite Ht, lookup_insert_ne; [done|]. intros ->. by apply (Hxd x). }
  rewrite (proj2 (Z.eqb_neq dst 0)), (paging_pd_virt_table L _ pts ext s1 src R1 HsD) by done.
  apply runs_bind, runs_ret, runs_bind.
  apply (runs_for_return (clone_at L may_write pds pts ext s1 src dst)); [by vm_compute| |..].
  - exists pts. split; [|lia]. by apply clone_inv_init.
  - intros i t Hi Ht'. eapply runs_mono; [by apply (clone_pde_runs L kpd_ok may_write pds pts ext s1 src dst R1)|].
    intros [r|] t'; [|done]. intros (-> & (x & Hx) & R' & Hw' & H1 & H2 & H3). apply runs_ret.
    split; [by apply (same_window_trans _ _ _ Hw)|]. left. split_and!; try done.
    assert (0 < frame_refs (m_pmm s1) x) as Hx1 by lia.
    split.
    + exists x. destruct (decide (x = dst)) as [->|Hne].
      * unfold frame_refs in Hx. rewrite Ht, lookup_insert_eq in Hx. simpl in Hx. lia.
      * unfold frame_refs in *. by rewrite Ht, lookup_insert_ne in Hx by auto.
    + intros v Hv. rewrite <- (Hsame src v) by done. by apply H1.
    + intros pd v Hpd Hne Hv. rewrite <- (Hsame pd v) by done. by apply H2.
    + intros y k Hy Hny. rewrite H3; [apply Hdata, Hxd, Hy|by rewrite Hfr|].
      intros [Hyd|?]; [|by apply Hny; right].
      apply elem_of_union in Hyd as [->%elem_of_singleton|?]; [by apply (Hxd dst)|]. apply Hny. by left.
  - intros t (pts' & C & _). apply runs_ret.
    split; [exact (same_window_trans _ _ _ Hw (ci_win _ _ _ _ _ _ _ _ _ _ _ C))|]. right.
    exists pts'. split; [apply C|]. pose proof C as [_ _ C3 _ C5 C6 C7 C8 C9].
    assert (forall v, user_page v -> (v <? USER_PD_LIMIT_INDEX * 1024) = true) as Hlt.
    { intros v Hv. destruct (user_index_range _ Hv). change USER_PD_LIMIT_INDEX with 768. dlia. }
    split; try done.
    + intros v Hv. rewrite C5, Hlt, Hsame by done. done.
    + intros v Hv. rewrite C6, Hlt, Hsame by done. done.
    + intros pd v Hpd Hne Hv. rewrite C7, Hsame by done. done.
    + intros x i Hx. rewrite C8 by done. apply Hdata. intros ->. apply Hx. left.
      apply elem_of_union_l. by apply elem_of_singleton.
    + intros x Hx Hxt. destruct (C9 x) as [Hyd|?]; [by rewrite Hfr|done| |by right].
      apply elem_of_union in Hyd as [->%elem_of_singleton|?]; [by destruct (Hxd dst)|]. by left.
Qed.
End CloneUser.
