(* ===== verification/AddressProps.v ===== *)
(** * Correctness of process address spaces

    The theorems about [src/src/kernel/paging.c]: reference counting and ownership along
    any history of address-space operations, fork isolation, copy-on-write and
    destruction.  The operations are those of [Paging]; the invariant and the lemmas
    are in [AddressSpace], [AddressOps], [AddressLife] and [AddressClone]. *)
From S2P Require Import Prelude BootInfo Pmm Memory Paging AddressSpace AddressOps AddressLife AddressClone.
From Stdlib Require Import ZArith Lia ZifyBool Bool.
From stdpp Require Import base numbers gmap list fin_maps relations.
Local Open Scope Z_scope.
Local Open Scope kernel_scope.

(** The live page directories [pds] and the references [ext] held outside of page
    tables account for all of physical memory. *)
Definition address_spaces (L : layout) (pds : gset Z) (ext : Z -> Z) (s : machine) : Prop :=
  exists pts, vm_rep (kernel_page_directory L) pds pts ext (m_pmm s) (m_mem s).

(** The static tables are page-aligned and below the end of the low identity map. *)
Definition layout_ok (L : layout) : Prop :=
  0 <= kernel_page_directory L < 0x3FF000 /\ kernel_page_directory L mod 4096 = 0.

Lemma layout_kptr L : layout_ok L -> kptr (kernel_page_directory L) (kernel_page_directory L).
Proof. intros [H1 H2]. apply kptr_identity; unfold KERNEL_PMM_MAP_BASE; lia. Qed.

(** Before the first process every reference is an outside one. *)
Lemma address_spaces_boot L s :
  pmm_wf (m_pmm s) ->
  (managed_frame (m_pmm s) (kernel_page_directory L) ->
     0 < frame_refs (m_pmm s) (kernel_page_directory L)) ->
  (forall i, user_index i -> 0 <= m_mem s (kernel_page_directory L) i < 2 ^ 32 /\
     has (m_mem s (kernel_page_directory L) i) PAGE_USER = false) ->
  address_spaces L ∅ (frame_refs (m_pmm s)) s.
Proof.
  intros Hp Hk Hu. exists ∅.
  assert (forall f, ~ is_table ∅ ∅ f) as Hno
    by (intros f [?%not_elem_of_empty|(k & Hk')]; [done|by rewrite lookup_empty in Hk']).
  split; try done; try (intros ? **; by (edestruct not_elem_of_empty + rewrite lookup_empty in *)).
  - intros f Hf. by destruct (Hno f).
  - intros f _ _. unfold refs. rewrite map_fold_empty. lia.
  - intros f. unfold frame_refs. destruct (pmm_table (m_pmm s) !! f) eqn:E; simpl; [|done].
    apply pmm_table_lookup in E as (i & Hi & _ & _ & ->). pose proof (refcount_range (m_pmm s) i Hp). lia.
Qed.

(** ** Histories *)

(** One operation of the kernel on address spaces.  [ext] moves with the frames the
    kernel takes and gives; a frame is mapped or freed by an owner of a reference,
    and a page table or a clone is only made while memory is left (otherwise
    [paging_panic] stops the machine). *)
Inductive vm_step (L : layout) : gset Z -> (Z -> Z) -> machine -> gset Z -> (Z -> Z) -> machine -> Prop :=
  | StepAlloc pds ext s a s' :
      alloc_frame s = Some (a, s') -> a <> 0 ->
      vm_step L pds ext s pds (fun x => ext x + Z.b2z (x =? a)) s'
  | StepFree pds ext s a s' :
      managed_frame (m_pmm s) a -> 0 < ext a -> a <> kernel_page_directory L ->
      free_frame a s = Some (tt, s') ->
      vm_step L pds ext s pds (fun x => ext x - Z.b2z (x =? a)) s'
  | StepCreate pds ext s pd s' :
      0 < s_free_count (m_pmm s) -> process_pd_create L s = Some (pd, s') ->
      vm_step L pds ext s ({[pd]} ∪ pds) ext s'
  | StepMap pds ext s pd virt phys flags s' :
      pd ∈ pds -> 0 <= virt < 2 ^ 32 -> user_page (virt / 4096) -> 0 <= phys < 2 ^ 32 ->
      0 <= flags < 4096 -> has flags PAGE_USER = true ->
      (paging_phys_is_pmm_frame (pte_frame phys) = true ->
         managed_frame (m_pmm s) (pte_frame phys) /\ 0 < ext (pte_frame phys) /\
         pte_frame phys <> kernel_page_directory L) ->
      has (m_mem s pd (virt / 4096 / 1024)) PAGE_PRESENT = true \/ 0 < s_free_count (m_pmm s) ->
      paging_map_page L pd virt phys flags s = Some (tt, s') ->
      vm_step L pds ext s pds
        (ext_to_pte ext (pte_frame phys + Z.lor flags PAGE_PRESENT)) s'
  | StepUnmap pds ext s pd va b s' :
      pd ∈ pds -> 0 <= va < 2 ^ 32 -> paging_unmap_user_page L pd va s = Some (b, s') ->
      vm_step L pds ext s pds ext s'
  | StepFlags pds ext s pd va c fl b s' :
      pd ∈ pds -> 0 <= va < 2 ^ 32 -> 0 <= c < 4096 -> 0 <= fl < 4096 ->
      paging_user_page_set_flags L pd va c fl s = Some (b, s') ->
      vm_step L pds ext s pds ext s'
  | StepCow pds ext s pd va b s' :
      pd ∈ pds -> 0 <= va < 2 ^ 32 -> paging_resolve_cow_fault L pd va s = Some (b, s') ->
      vm_step L pds ext s pds ext s'
  | StepClone pds ext s src may_write dst s' :
      src ∈ pds -> pd_tables (m_mem s) src < s_free_count (m_pmm s) ->
      process_pd_clone_user L src may_write s = Some (dst, s') ->
      vm_step L pds ext s (if decide (dst = 0) then pds else {[dst]} ∪ pds) ext s'
  | StepDestroy pds ext s pd s' :
      pd ∈ pds -> process_pd_destroy L pd s = Some (tt, s') ->
      vm_step L pds ext s (pds ∖ {[pd]}) ext s'
  | StepWrite pds ext s f i w :
      (forall pd, pd ∈ pds -> f <> pd /\ forall v, user_page v -> has (m_mem s pd (v / 1024)) PAGE_PRESENT = true ->
         f <> pte_frame (m_mem s pd (v / 1024))) -> f <> kernel_page_directory L ->
      vm_step L pds ext s pds ext (set_mem (mem_write f i w (m_mem s)) s).

Definition vm_config : Type := gset Z * (Z -> Z) * machine.

Definition vm_next (L : layout) (c c' : vm_config) : Prop :=
  vm_step L (fst (fst c)) (snd (fst c)) (snd c) (fst (fst c')) (snd (fst c')) (snd c').

Definition vm_ok (L : layout) (c : vm_config) : Prop :=
  address_spaces L (fst (fst c)) (snd (fst c)) (snd c).

Lemma runs_some {A} (m : M machine A) s a s' Q : m s = Some (a, s') -> runs m s Q -> Q a s'.
Proof. unfold runs. by intros ->. Qed.

Lemma vm_step_preserves L pds ext s pds' ext' s' :
  layout_ok L -> address_spaces L pds ext s -> vm_step L pds ext s pds' ext' s' ->
  address_spaces L pds' ext' s'.
Proof.
  intros HL [pts R] Hs. pose proof (layout_kptr L HL) as Hk.
  destruct Hs as [pds ext s a s' E Ha|pds ext s a s' Hm Hpos Hne E|pds ext s pd s' Hf E|
    pds ext s pd virt phys flags s' Hpd Hvr Hv Hph Hfl Hus Hpre Hfree E|pds ext s pd va b s' Hpd Hva E|
    pds ext s pd va c fl b s' Hpd Hva Hc Hfl E|pds ext s pd va b s' Hpd Hva E|
    pds ext s src mw dst s' Hsrc Hfree E|pds ext s pd s' Hpd E|pds ext s f i w Hf Hfk].
  - destruct (decide (0 < s_free_count (m_pmm s))) as [Hf|Hf].
    + revert E. unfold alloc_frame, lift.
      destruct (alloc_refs _ (vr_pmm _ _ _ _ _ _ R) Hf) as (a' & q & -> & H). destruct_and! H.
      intros [= <- <-]. exists pts. by apply (vm_rep_alloc R a' q).
    + pose proof (free_count_bounds _ (vr_pmm _ _ _ _ _ _ R)). revert E. unfold alloc_frame, lift.
      rewrite pmm_alloc_frame_none by lia. by intros [= <- _].
  - assert (~ is_table pds pts a) as Hnt.
    { intros Ht. destruct (vr_table _ _ _ _ _ _ R a Ht) as (_ & _ & ? & _). lia. }
    pose proof (vr_refs _ _ _ _ _ _ R a Hm Hnt). pose proof (refs_nonneg (m_mem s) pts a).
    destruct (release_refs (m_pmm s) a (vr_pmm _ _ _ _ _ _ R) Hm ltac:(lia)) as (Q1 & Q2 & Q3 & Q4 & _).
    injection E as <-. exists pts. apply (vm_rep_counts R); try done.
    + intros f Hf. split; [apply Q4; by intros ->|].
      rewrite (proj2 (Z.eqb_neq f a)) by (by intros ->). simpl. lia.
    + intros f Hf _. etrans; [apply f_equal2; [apply Q3|reflexivity]|]. lia.
    + intros f. pose proof (vr_ext _ _ _ _ _ _ R f). destruct (Z.eqb_spec f a); subst; simpl; lia.
    + intros Hkm. pose proof (vr_kpd _ _ _ _ _ _ R Hkm).
      rewrite (proj2 (Z.eqb_neq _ a)) by auto. simpl. lia.
  - refine (runs_some _ _ _ _ (fun pd s' => address_spaces L ({[pd]} ∪ pds) ext s') E _).
    apply (pd_create_runs L Hk pds pts ext s); [done|done|]. intros. by exists pts.
  - refine (runs_some _ _ _ _ (fun _ s' => address_spaces L pds _ s') E _).
    eapply runs_mono; [apply (map_page_runs L pds pd (virt / 4096) phys flags Hpd Hv Hph Hfl Hus pts ext s virt R)|].
    + intros Hpm. destruct (Hpre Hpm) as (H1 & H2 & H3). split_and!; try done.
      intros Ht. destruct (vr_table _ _ _ _ _ _ R _ Ht) as (_ & _ & ? & _). lia.
    + lia.
    + done.
    + intros Hn. destruct Hfree as [Hp|?]; [|done].
      by rewrite (vr_pde _ _ _ _ _ _ R), Hn in Hp by done.
    + intros _ s1 (pts' & R' & _). by exists pts'.
  - refine (runs_some _ _ _ _ (fun _ s' => address_spaces L pds ext s') E _).
    eapply runs_mono; [by apply (unmap_runs L Hk pds pts ext s pd va)|].
    intros b1 s1 [_ H]. destruct b1; [destruct H as (pts' & R' & _)|subst s1]; eexists; done.
  - refine (runs_some _ _ _ _ (fun _ s' => address_spaces L pds ext s') E _).
    eapply runs_mono; [by apply (set_flags_runs L pds pts ext s pd va c fl)|].
    intros b1 s1 [_ H]. destruct b1; [destruct H as (R' & _)|subst s1]; eexists; done.
  - refine (runs_some _ _ _ _ (fun _ s' => address_spaces L pds ext s') E _).
    eapply runs_mono; [by apply (resolve_cow_runs L pds pts ext s pd va)|].
    intros b1 s1 [_ H]. destruct b1; [destruct H as (R' & _)|subst s1]; eexists; done.
  - refine (runs_some _ _ _ _ (fun dst s' =>
      address_spaces L (if decide (dst = 0) then pds else {[dst]} ∪ pds) ext s') E _).
    eapply runs_mono; [by apply (clone_user_runs L Hk mw pds pts ext s src)|].
    intros d s1 (_ & [(-> & R' & _)|(pts' & R' & [[Hd _] _ _ _ _ _])]).
    + rewrite decide_True by done. by exists pts.
    + rewrite decide_False by done. by exists pts'.
  - refine (runs_some _ _ _ _ (fun _ s' => address_spaces L (pds ∖ {[pd]}) ext s') E _).
    eapply runs_mono; [by apply (pd_destroy_runs L Hk pds pts ext s pd)|].
    intros _ s1 (pts' & R' & _). by exists pts'.
  - exists pts. apply (vm_rep_mem R). intros f' i' Hf'. apply mem_write_ne. left. intros ->.
    destruct Hf' as [[Hpd|([pd k] & Hkp)]|?]; [by destruct (Hf f Hpd)| |done].
    destruct (vr_dom _ _ _ _ _ _ R pd k f Hkp) as [Hpd Hi]. destruct (Hf pd Hpd) as [_ Hn].
    assert (k * 1024 / 1024 = k) as Ek by (by rewrite Z.div_mul).
    specialize (Hn (k * 1024)). unfold user_page in Hn. rewrite Ek in Hn.
    rewrite (vr_pde _ _ _ _ _ _ R), Hkp in Hn by done.
    destruct (pde_decode R _ _ Hkp) as (E1 & _ & _ & E2). rewrite E1, E2 in Hn. by apply Hn.
Qed.

(** ** Consequences of the invariant *)

Lemma table_kptr_read {kpd pds pts ext s} (R : vm_rep kpd pds pts ext (m_pmm s) (m_mem s)) f i :
  is_table pds pts f -> 0 <= i < 1024 -> read_word (alias f) i s = Some (m_mem s f i, s).
Proof.
  intros Hf Hi. destruct (kptr_word _ _ i (table_kptr R f Hf) Hi) as [E1 E2].
  unfold read_word, gets. cbv zeta. by rewrite E1, E2.
Qed.

Section Facts.
Context {L : layout} {pds : gset Z} {pts : gmap (Z * Z) Z} {ext : Z -> Z} {s : machine}.
Local Abbreviation kpd := (kernel_page_directory L).
Hypothesis R : vm_rep kpd pds pts ext (m_pmm s) (m_mem s).

(** The table and the word a user mapping sits in. *)
Lemma user_pte_slot pd v f :
  pd ∈ pds -> user_page v -> pte_maps (user_pte (m_mem s) pd v) f = true ->
  exists pt, pts !! (pd, v / 1024) = Some pt /\ 0 <= v mod 1024 < 1024 /\
    m_mem s pt (v mod 1024) = user_pte (m_mem s) pd v.
Proof.
  intros Hpd Hv. rewrite (user_pte_rep R) by done.
  destruct (pts !! (pd, v / 1024)) as [pt|] eqn:E; [|done]. intros _. exists pt.
  split_and!; try done; apply Z.mod_pos_bound; lia.
Qed.

Lemma user_pte_mapped pd v f :
  pd ∈ pds -> user_page v -> pte_maps (user_pte (m_mem s) pd v) f = true ->
  managed_frame (m_pmm s) f /\ ~ is_table pds pts f /\ f <> kpd /\ 0 < frame_refs (m_pmm s) f.
Proof.
  intros Hpd Hv Hm. destruct (user_pte_slot pd v f Hpd Hv Hm) as (pt & Hk & Hj & E).
  rewrite <- E in Hm. destruct (pte_maps_allocated R _ pt _ f Hk Hj Hm) as (? & ? & ? & ? & _). done.
Qed.

(** Two mappings of a frame are two references. *)
Lemma user_pte_shared pd v pd' v' f :
  pd ∈ pds -> pd' ∈ pds -> user_page v -> user_page v' -> (pd, v) <> (pd', v') ->
  pte_maps (user_pte (m_mem s) pd v) f = true -> pte_maps (user_pte (m_mem s) pd' v') f = true ->
  2 <= frame_refs (m_pmm s) f.
Proof.
  intros Hpd Hpd' Hv Hv' Hne Hm Hm'.
  destruct (user_pte_mapped pd v f Hpd Hv Hm) as (Hmg & Hnt & _).
  destruct (user_pte_slot pd v f Hpd Hv Hm) as (pt & Hk & Hj & E).
  destruct (user_pte_slot pd' v' f Hpd' Hv' Hm') as (pt' & Hk' & Hj' & E').
  rewrite <- E in Hm. rewrite <- E' in Hm'.
  rewrite (vr_refs _ _ _ _ _ _ R f Hmg Hnt). pose proof (vr_ext _ _ _ _ _ _ R f).
  enough (2 <= refs (m_mem s) pts f) by lia.
  (* drop the first mapping: the second is still there *)
  pose proof (refs_write (m_mem s) pts _ pt (v mod 1024) 0 f Hk
    ltac:(intros k' Hk2; exact (vr_inj _ _ _ _ _ _ R _ k' pt Hk Hk2)) Hj) as Hw.
  rewrite Hm in Hw. change (pte_maps 0 f) with false in Hw. cbn [Z.b2z] in Hw.
  enough (0 < refs (mem_write pt (v mod 1024) 0 (m_mem s)) pts f) by lia.
  apply (refs_pos _ _ _ pt' (v' mod 1024) f Hk' Hj').
  rewrite mem_write_ne; [done|].
  destruct (decide (pt' = pt)) as [->|]; [right|by left]. intros Ej.
  pose proof (vr_inj _ _ _ _ _ _ R _ _ pt Hk Hk') as [= <- Ei]. apply Hne. f_equal. dlia.
Qed.

(** A frame outside of the allocator is not a paging structure of a process. *)
Lemma device_not_table f : paging_phys_is_pmm_frame f = false -> ~ is_table pds pts f.
Proof. intros Hf Ht. destruct (table_frame R f Ht) as (E & _). congruence. Qed.

Lemma user_frame_data pd v :
  pd ∈ pds -> user_page v -> user_present (user_pte (m_mem s) pd v) = true ->
  ~ is_table pds pts (pte_frame (user_pte (m_mem s) pd v)).
Proof.
  intros Hpd Hv Hu. destruct (paging_phys_is_pmm_frame (pte_frame (user_pte (m_mem s) pd v))) eqn:E.
  - destruct (user_pte_mapped pd v (pte_frame (user_pte (m_mem s) pd v)) Hpd Hv) as (_ & ? & _); [|done].
    unfold user_present in Hu. rewrite pte_maps_eqb; [lia|by rewrite Hu, E].
  - by apply device_not_table.
Qed.
End Facts.

Lemma clone_frame can e :
  0 <= e < 2 ^ 32 -> user_present e = true ->
  (pte_frame (clone_dst can e) = pte_frame e /\ user_present (clone_dst can e) = true) /\
  (pte_frame (clone_src can e) = pte_frame e /\ user_present (clone_src can e) = true).
Proof.
  intros He Hu. destruct (pte_frame_spec e He) as (H1 & H2 & H3 & _).
  pose proof Hu as Hu'. rewrite user_present_flags in Hu'.
  destruct (flags_good_spec (pte_flags e) can H3 Hu') as ([_ _ A1 A2] & [_ _ B1 B2] & [_ _ C1 C2]).
  unfold clone_dst, clone_src, user_present in *. rewrite Hu. cbn [negb andb].
  split.
  - destruct (paging_phys_is_pmm_frame (pte_frame e));
      rewrite entry_frame, entry_has_all by (done || by vm_compute); done.
  - destruct (_ && made_cow can (pte_flags e)); [|done].
    rewrite entry_frame, entry_has_all by (done || by vm_compute). done.
Qed.

(** The word a process reads at offset [i] of its page [v]. *)
Definition user_read (s : machine) (pd v i : Z) : Z := m_mem s (pte_frame (user_pte (m_mem s) pd v)) i.

Lemma user_pte_range L pds pts ext s pd v :
  vm_rep (kernel_page_directory L) pds pts ext (m_pmm s) (m_mem s) -> pd ∈ pds -> user_page v ->
  0 <= user_pte (m_mem s) pd v < 2 ^ 32.
Proof.
  intros R Hpd Hv. rewrite (user_pte_rep R) by done. destruct (pts !! (pd, v / 1024)) eqn:E; [|lia].
  apply (vr_pte _ _ _ _ _ _ R _ _ (v mod 1024) E). apply Z.mod_pos_bound. lia.
Qed.

Lemma has_all_sub e b g : Z.land b g = g -> has_all e b = true -> has_all e g = true.
Proof. unfold has_all. intros Hg H%Z.eqb_eq. rewrite <- Hg, Z.land_assoc, H, Hg. apply Z.eqb_refl. Qed.

(** The page after a copy-on-write fault: writable, and the only mapping of its frame. *)
Lemma cow_page L pds pts ext s s' pd v f :
  vm_rep (kernel_page_directory L) pds pts ext (m_pmm s) (m_mem s) ->
  vm_rep (kernel_page_directory L) pds pts ext (m_pmm s') (m_mem s') ->
  pd ∈ pds -> user_page v -> cow_entry (user_pte (m_mem s) pd v) = true -> cow_resolved pds pts s s' pd v f ->
  let e' := user_pte (m_mem s') pd v in
  (pte_frame e' = f /\ user_present e' = true /\ has e' PAGE_WRITE = true /\ has e' PAGE_COW = false) /\
  (paging_phys_is_pmm_frame f = true /\ pte_maps e' f = true) /\
  forall pd' v', pd' ∈ pds -> user_page v' -> (pd', v') <> (pd, v) -> pte_maps (user_pte (m_mem s') pd' v') f = false.
Proof.
  intros R R' Hpd Hv Hcow [F1 _ F3 _ _ _] e'. unfold cow_entry in Hcow. rewrite !andb_true_iff in Hcow. destruct Hcow as [[Hall _] _].
  destruct (pte_frame_spec _ (user_pte_range L pds pts ext s pd v R Hpd Hv)) as (_ & _ & A3 & _).
  rewrite has_all_flags, <- pte_flags_eq in Hall by (by vm_compute).
  destruct (cow_flags_spec _ A3 Hall) as (G1 & G2 & G3 & G4). fold e' in F1.
  pose proof (frame_refs_managed (m_pmm s') f ltac:(lia)) as Hfm.
  destruct (managed_frame_range _ f (vr_pmm _ _ _ _ _ _ R') Hfm) as (M1 & M2 & M3 & M4 & _).
  assert (paging_phys_is_pmm_frame f = true /\ f mod 4096 = 0 /\ 0 <= f < 2 ^ 32) as (Hfp & Hfa & Hfr).
  { unfold paging_phys_is_pmm_frame. pmm_consts. split_and!; lia. }
  assert (Ef : pte_frame e' = f) by (rewrite F1; by apply entry_frame).
  assert (Hu : user_present e' = true) by (unfold user_present; by rewrite F1, entry_has_all by (done || by vm_compute)).
  assert (Hmf : pte_maps e' f = true).
  { rewrite pte_maps_eqb; rewrite Ef; [lia|]. unfold user_present in Hu. by rewrite Hfp, Hu. }
  split_and!; try done.
  - rewrite F1, entry_has by (done || (pmm_consts; lia)).
    pose proof (flags_forall (fun fl => implb (has_all fl (Z.lor (Z.lor PAGE_PRESENT PAGE_USER) PAGE_WRITE))
      (has fl PAGE_WRITE)) ltac:(vm_compute; reflexivity) _ G1) as E1. cbv beta in E1. by rewrite G2 in E1.
  - by rewrite F1, entry_has by (done || (pmm_consts; lia)).
  - intros pd' v' Hpd' Hv' Hne. destruct (pte_maps (user_pte (m_mem s') pd' v') f) eqn:E; [|done].
    pose proof (user_pte_shared R' pd v pd' v' f Hpd Hpd' Hv Hv' ltac:(congruence) Hmf E). lia.
Qed.

(** After a clone both processes read what the parent read before. *)
Lemma cloned_read L mw pds pts pts' ext s s' src dst pd v :
  vm_rep (kernel_page_directory L) pds pts ext (m_pmm s) (m_mem s) -> src ∈ pds ->
  vm_rep (kernel_page_directory L) ({[dst]} ∪ pds) pts' ext (m_pmm s') (m_mem s') ->
  cloned mw pds pts pts' s s' src dst -> pd = src \/ pd = dst -> user_page v ->
  user_present (user_pte (m_mem s) src v) = true ->
  pd ∈ ({[dst]} ∪ pds : gset Z) /\ user_present (user_pte (m_mem s') pd v) = true /\
  pte_frame (user_pte (m_mem s') pd v) = pte_frame (user_pte (m_mem s) src v) /\
  forall j, user_read s' pd v j = user_read s src v j.
Proof.
  intros R Hsrc R' [Hf Hd Hs Ho Hdata _] Hpd Hv Hu.
  destruct (clone_frame (may_write_at mw v) _ (user_pte_range _ _ _ _ _ src v R Hsrc Hv) Hu) as [[D1 D2] [S1 S2]].
  assert (pd ∈ ({[dst]} ∪ pds : gset Z)) as HpD.
  { destruct Hpd as [->| ->]; [by apply elem_of_union_r|apply elem_of_union_l; by apply elem_of_singleton]. }
  assert (user_present (user_pte (m_mem s') pd v) = true /\
    pte_frame (user_pte (m_mem s') pd v) = pte_frame (user_pte (m_mem s) src v)) as [Hu' Ef].
  { destruct Hpd as [->| ->]; [rewrite Hs by done|rewrite Hd by done]; done. }
  split_and!; try done. intros j. unfold user_read. rewrite Ef. apply Hdata. rewrite <- Ef.
  by apply (user_frame_data R').
Qed.

(** A copy-on-write page of the parent or of the child was mapped before the fork. *)
Lemma cow_cloned mw pds pts pts' s s' src dst pd v :
  cloned mw pds pts pts' s s' src dst -> pd = src \/ pd = dst -> user_page v ->
  cow_entry (user_pte (m_mem s') pd v) = true -> user_present (user_pte (m_mem s) src v) = true.
Proof.
  intros Hc Hpd Hv Hcow. unfold cow_entry in Hcow. rewrite !andb_true_iff in Hcow. destruct Hcow as [[Hall _] _].
  apply (has_all_sub _ _ (Z.lor PAGE_PRESENT PAGE_USER)) in Hall; [|done]. revert Hall. fold (user_present (user_pte (m_mem s') pd v)).
  destruct Hpd as [->| ->].
  - rewrite (cl_src _ _ _ _ _ _ _ _ Hc) by done. unfold clone_src. destruct (user_present (user_pte (m_mem s) src v)) eqn:E; [done|]. cbn [negb andb]. by rewrite E.
  - rewrite (cl_dst _ _ _ _ _ _ _ _ Hc) by done. unfold clone_dst. by destruct (user_present (user_pte (m_mem s) src v)) eqn:E.
Qed.

(** ** A concrete history *)

Definition layout_example : layout :=
  Layout 0x110000 0x111000 0x112000 0x113000 0x114000 0x11C000.

Definition machine_example : machine :=
  Machine (Kmem 0x160000 0x160000 pmm_example) (fun _ _ => 0) 0x110000 true.

Definition run_state {A} (m : M machine A) (s : machine) : machine :=
  match m s with Some (_, s') => s' | None => s end.
Definition run_value {A} (d : A) (m : M machine A) (s : machine) : A :=
  match m s with Some (a, _) => a | None => d end.

Lemma run_some {A} (d a : A) (m : M machine A) s :
  match m s with Some _ => true | None => false end = true ->
  run_value d m s = a -> m s = Some (a, run_state m s).
Proof. unfold run_value, run_state. intros H <-. by destruct (m s) as [[]|]. Qed.

(** The machine does not halt and the result is as given, by evaluation. *)
Ltac run_eval d := apply (run_some d); vm_compute; reflexivity.

(** A process with one writable page, at the first page of the user range. *)
Definition example_created : machine := run_state (process_pd_create layout_example) machine_example.
Definition example_framed : machine := run_state alloc_frame example_created.
Definition example_pd : Z := 0x204000.
Definition example_frame : Z := 0x205000.
Definition example_mapped : machine :=
  run_state (paging_map_page layout_example example_pd 0x400000 example_frame 7) example_framed.
Definition example_ext : Z -> Z :=
  ext_to_pte (fun x => frame_refs pmm_example x + Z.b2z (x =? example_frame))
    (pte_frame example_frame + Z.lor 7 PAGE_PRESENT).

Lemma layout_example_ok : layout_ok layout_example.
Proof. vm_compute. intuition congruence. Qed.

Lemma example_boot : address_spaces layout_example ∅ (frame_refs pmm_example) machine_example.
Proof.
  apply (address_spaces_boot layout_example machine_example).
  - apply pmm_wfb_sound. vm_compute. reflexivity.
  - intros (i & Hi & E). revert E. unfold PMM_BASE, PMM_FRAME_SIZE. simpl. lia.
  - intros i _. vm_compute. intuition congruence.
Qed.

Lemma example_step_create :
  vm_step layout_example ∅ (frame_refs pmm_example) machine_example
    ({[example_pd]} ∪ ∅) (frame_refs pmm_example) example_created.
Proof.
  apply StepCreate; [reflexivity|].
  run_eval 0.
Qed.

Lemma example_step_alloc :
  vm_step layout_example ({[example_pd]} ∪ ∅) (frame_refs pmm_example) example_created
    ({[example_pd]} ∪ ∅) (fun x => frame_refs pmm_example x + Z.b2z (x =? example_frame)) example_framed.
Proof.
  apply (StepAlloc _ _ _ _ example_frame); [|discriminate].
  run_eval 0.
Qed.

Lemma example_step_map :
  vm_step layout_example ({[example_pd]} ∪ ∅)
    (fun x => frame_refs pmm_example x + Z.b2z (x =? example_frame)) example_framed
    ({[example_pd]} ∪ ∅) example_ext example_mapped.
Proof.
  apply (StepMap _ _ _ _ example_pd 0x400000 example_frame 7).
  - by apply elem_of_union_l, elem_of_singleton.
  - vm_compute. intuition congruence.
  - vm_compute. intuition congruence.
  - vm_compute. intuition congruence.
  - lia.
  - reflexivity.
  - intros _. split_and!; [|vm_compute; reflexivity|vm_compute; discriminate].
    exists 5. split; [vm_compute; intuition congruence|reflexivity].
  - right. vm_compute. reflexivity.
  - run_eval tt.
Qed.

Lemma example_mapped_ok : address_spaces layout_example ({[example_pd]} ∪ ∅) example_ext example_mapped.
Proof.
  eapply vm_step_preserves; [apply layout_example_ok| |apply example_step_map].
  eapply vm_step_preserves; [apply layout_example_ok| |apply example_step_alloc].
  eapply vm_step_preserves; [apply layout_example_ok| |apply example_step_create].
  apply example_boot.
Qed.

(** ** Properties *)

(** C4: exact accounting of physical memory.  Along every history of address-space
    operations (allocating and freeing frames, creating, mapping, unmapping,
    changing protection, copy-on-write faults, cloning, destroying, writing data),
    the user half of every page directory holds exactly its page tables, and no two
    entries, of the same directory or of different ones, hold the same table; each
    page directory and page table has exactly one owner, the reference count of every
    other frame is the number of user mappings of it plus the references held outside,
    and no user mapping names a free frame, a paging structure or the kernel's page
    directory. *)
Theorem vm_accounting L c pds ext s :
  layout_ok L -> vm_ok L c -> rtc (vm_next L) c (pds, ext, s) ->
  exists pts, pmm_wf (m_pmm s) /\
    (forall pd i, pd ∈ pds -> user_index i -> m_mem s pd i = match pts !! (pd, i) with Some pt => pt + 7 | None => 0 end) /\
    (forall pd i pt, pts !! (pd, i) = Some pt -> pd ∈ pds /\ user_index i /\ pt ∉ pds) /\
    (forall k k' pt, pts !! k = Some pt -> pts !! k' = Some pt -> k' = k) /\
    (forall f, is_table pds pts f -> frame_refs (m_pmm s) f = 1 /\ ext f = 0) /\
    (forall f, managed_frame (m_pmm s) f -> ~ is_table pds pts f ->
       frame_refs (m_pmm s) f = ext f + refs (m_mem s) pts f) /\
    (forall pd v f, pd ∈ pds -> user_page v -> pte_maps (user_pte (m_mem s) pd v) f = true ->
       0 < frame_refs (m_pmm s) f /\ ~ is_table pds pts f /\ f <> kernel_page_directory L).
Proof.
  intros HL H0 Hr. assert (vm_ok L (pds, ext, s)) as [pts R].
  { induction Hr as [|c c1 c' Hs _ IH]; [done|]. apply IH. by eapply vm_step_preserves. }
  cbn [fst snd] in R. exists pts. split_and!.
  - apply R.
  - apply R.
  - intros pd i pt Hpt. destruct (vr_dom _ _ _ _ _ _ R pd i pt Hpt). split_and!; [done..|]. by eapply vr_sep.
  - apply R.
  - intros f Hf. destruct (vr_table _ _ _ _ _ _ R f Hf) as (_ & E & ? & _). unfold frame_refs. by rewrite E.
  - apply R.
  - intros pd v f Hpd Hv Hm. by destruct (user_pte_mapped R pd v f Hpd Hv Hm) as (_ & ? & ? & ?).
Qed.

Lemma vm_accounting_witness :
  rtc (vm_next layout_example) (∅, frame_refs pmm_example, machine_example)
    ({[example_pd]} ∪ ∅, example_ext, example_mapped) /\
  user_pte (m_mem example_mapped) example_pd 1024 = example_frame + 7 /\
  0 < frame_refs (m_pmm example_mapped) example_frame.
Proof.
  assert (rtc (vm_next layout_example) (∅, frame_refs pmm_example, machine_example)
    ({[example_pd]} ∪ ∅, example_ext, example_mapped)) as Hr.
  { apply (rtc_l _ _ ({[example_pd]} ∪ ∅, frame_refs pmm_example, example_created));
      [exact example_step_create|].
    apply (rtc_l _ _ ({[example_pd]} ∪ ∅,
      fun x => frame_refs pmm_example x + Z.b2z (x =? example_frame), example_framed));
      [exact example_step_alloc|].
    apply rtc_once. exact example_step_map. }
  split; [exact Hr|]. split; [vm_compute; reflexivity|].
  destruct (vm_accounting layout_example (∅, frame_refs pmm_example, machine_example)
    ({[example_pd]} ∪ ∅) example_ext example_mapped layout_example_ok example_boot Hr)
    as (pts & _ & _ & _ & _ & _ & _ & Hm).
  refine (proj1 (Hm example_pd 1024 example_frame _ _ _)).
  - apply elem_of_union_l, elem_of_singleton. reflexivity.
  - vm_compute. split; [discriminate|reflexivity].
  - vm_compute. reflexivity.
Defined.

(** C3: processes are isolated after fork.  When [process_pd_clone_user] has made
    the child, and one of the two processes takes a write fault that
    [paging_resolve_cow_fault] resolves and then stores a word in that page, the other
    process still reads everywhere exactly what the parent read before the fork, and
    the writer reads its own store and otherwise the old contents of the page. *)
Theorem fork_isolation L pds ext s src mw dst s1 pd other va s2 i w :
  layout_ok L -> address_spaces L pds ext s -> src ∈ pds ->
  pd_tables (m_mem s) src < s_free_count (m_pmm s) ->
  process_pd_clone_user L src mw s = Some (dst, s1) -> dst <> 0 ->
  (pd = src /\ other = dst \/ pd = dst /\ other = src) ->
  0 <= va < 2 ^ 32 -> paging_resolve_cow_fault L pd va s1 = Some (true, s2) ->
  let v := va / 4096 in
  let s3 := set_mem (mem_write (pte_frame (user_pte (m_mem s2) pd v)) i w (m_mem s2)) s2 in
  (forall v' j, user_page v' -> user_present (user_pte (m_mem s) src v') = true ->
     user_read s3 other v' j = user_read s src v' j) /\
  (forall j, user_read s3 pd v j = if j =? i then w else user_read s src v j).
Proof.
  intros HL [pts R] Hsrc Hfree Ec Hd0 Hwho Hva Er v s3. pose proof (layout_kptr L HL) as Hk.
  destruct (runs_some _ _ _ _ _ Ec (clone_user_runs L Hk mw pds pts ext s src R Hsrc Hfree))
    as (_ & [(? & _)|(pts' & R1 & Hc)]); [done|].
  assert (pd <> other /\ (pd = src \/ pd = dst) /\ (other = src \/ other = dst)) as (Hne & Hpd & Hoth).
  { pose proof (cl_fresh _ _ _ _ _ _ _ _ Hc) as (_ & Hd & _).
    assert (src <> dst) by (intros ->; done).
    destruct Hwho as [[-> ->]|[-> ->]]; split_and!; auto. }
  set (D := {[dst]} ∪ pds) in *.
  assert (forall q, q = src \/ q = dst -> q ∈ D) as HD.
  { intros q [->| ->]; [by apply elem_of_union_r|apply elem_of_union_l; by apply elem_of_singleton]. }
  destruct (runs_some _ _ _ _ _ Er (resolve_cow_runs L D pts' ext s1 pd va R1 (HD _ Hpd) Hva))
    as (Hb & R2 & _ & f & [F1 F2 F3 F4 F5 F6]). fold v in Hb, F1, F2, F4, F5.
  symmetry in Hb. rewrite !andb_true_iff in Hb. destruct Hb as [[Hu Hcow] _].
  apply pd_index_is_user in Hu.
  destruct (cow_page L D pts' ext s1 s2 pd v f R1 R2 (HD _ Hpd) Hu Hcow) as ((Ef & _) & (Hfp & Hmf) & Hpriv); [done|].
  destruct (user_pte_mapped R2 pd v f (HD _ Hpd) Hu Hmf) as (_ & Hfnt & Hfk & _).
  (* the store does not touch paging structures *)
  assert (forall q v', q ∈ D -> user_page v' -> user_pte (m_mem s3) q v' = user_pte (m_mem s2) q v') as Hs3.
  { intros q v' Hq Hv'. unfold s3. rewrite Ef.
    assert (vm_rep (kernel_page_directory L) D pts' ext (m_pmm s2) (mem_write f i w (m_mem s2))) as R3.
    { apply (vm_rep_mem R2). intros x k Hx. apply mem_write_ne. left. intros ->. by destruct Hx. }
    cbn [m_mem set_mem]. rewrite (user_pte_rep R3), (user_pte_rep R2) by done.
    destruct (pts' !! (q, v' / 1024)) as [pt|] eqn:E; [|done]. apply mem_write_ne. left. intros ->.
    apply Hfnt. right. eauto. }
  split.
  - intros v' j Hv' Hup.
    destruct (cloned_read L mw pds pts pts' ext s s1 src dst other v' R Hsrc R1 Hc Hoth Hv' Hup)
      as (Ho & Hup1 & Efr & Hread).
    assert (user_pte (m_mem s2) other v' = user_pte (m_mem s1) other v') as E2
      by (apply F5; [exact Ho|done|intros [= E _]; by apply Hne]).
    set (x := pte_frame (user_pte (m_mem s1) other v')) in *.
    assert (x <> f) as Hxf.
    { intros Hx. specialize (Hpriv other v' Ho Hv' ltac:(congruence)).
      rewrite E2, pte_maps_eqb in Hpriv; fold x in Hpriv |- *; [lia|]. unfold user_present in Hup1. by rewrite Hx, Hfp, Hup1. }
    unfold user_read. rewrite Hs3, E2 by done. fold x. unfold s3. rewrite Ef. cbn [m_mem set_mem].
    rewrite mem_write_ne by auto. rewrite F6; [apply Hread|done|].
    by apply (user_frame_data R1).
  - intros j. unfold user_read at 1. rewrite Hs3, Ef by (done || by apply HD).
    unfold s3. rewrite Ef. cbn [m_mem set_mem]. destruct (Z.eqb_spec j i) as [->|Hj]; [apply mem_write_eq|].
    rewrite mem_write_ne, F2 by auto.
    pose proof (cow_cloned mw pds pts pts' s s1 src dst pd v Hc Hpd Hu Hcow) as Hup.
    destruct (cloned_read L mw pds pts pts' ext s s1 src dst pd v R Hsrc R1 Hc Hpd Hu Hup) as (_ & _ & _ & Hr).
    apply Hr.
Qed.

Definition example_child : Z := 0x207000.
Definition example_forked : machine :=
  run_state (process_pd_clone_user layout_example example_pd None) example_mapped.
Definition example_cow : machine :=
  run_state (paging_resolve_cow_fault layout_example example_pd 0x400123) example_forked.

Lemma example_fork :
  process_pd_clone_user layout_example example_pd None example_mapped = Some (example_child, example_forked).
Proof. run_eval 0. Qed.

Lemma example_fault :
  paging_resolve_cow_fault layout_example example_pd 0x400123 example_forked = Some (true, example_cow).
Proof. run_eval false. Qed.

Lemma example_pd_live : example_pd ∈ ({[example_pd]} ∪ ∅ : gset Z).
Proof. apply elem_of_union_l, elem_of_singleton. reflexivity. Qed.

Lemma example_forked_ok :
  address_spaces layout_example ({[example_child]} ∪ ({[example_pd]} ∪ ∅)) example_ext example_forked.
Proof.
  pose proof (vm_step_preserves layout_example _ _ _ _ _ _ layout_example_ok example_mapped_ok
    (StepClone layout_example _ example_ext example_mapped example_pd None example_child example_forked
       example_pd_live ltac:(vm_compute; reflexivity) example_fork)) as H.
  exact H.
Qed.

Lemma fork_isolation_witness :
  let s3 := set_mem (mem_write (pte_frame (user_pte (m_mem example_cow) example_pd 1024)) 5 99
                       (m_mem example_cow)) example_cow in
  user_read s3 example_child 1024 5 = user_read example_mapped example_pd 1024 5 /\
  user_read s3 example_pd 1024 5 = 99.
Proof.
  intros s3.
  destruct (fork_isolation layout_example ({[example_pd]} ∪ ∅) example_ext example_mapped example_pd None
    example_child example_forked example_pd example_child 0x400123 example_cow 5 99
    layout_example_ok example_mapped_ok example_pd_live) as [H1 H2].
  - vm_compute. reflexivity.
  - exact example_fork.
  - discriminate.
  - left. split; reflexivity.
  - split; [discriminate|reflexivity].
  - exact example_fault.
  - split.
    + apply H1; [split; [discriminate|reflexivity]|vm_compute; reflexivity].
    + exact (H2 5).
Defined.

(** Flags of the parent's entry after the clone. *)
Definition parent_flags (can : bool) (fl : Z) : Z :=
  if made_cow can fl then Z.lor (Z.lor (clear fl PAGE_WRITE) PAGE_COW) PAGE_PRESENT else fl.

Definition clone_flags_good (can : bool) (fl : Z) : bool :=
  implb (implb (has fl PAGE_COW || has fl PAGE_SHARED_RO_FILE) (negb (has fl PAGE_WRITE)))
   (negb (has (parent_flags can fl) PAGE_WRITE)
    && negb (has (Z.lor (child_flags can fl) PAGE_PRESENT) PAGE_WRITE)
    && implb (negb (has fl PAGE_SHARED_RO_FILE) && (has fl PAGE_WRITE || can))
        (has (parent_flags can fl) PAGE_COW
         && has (Z.lor (child_flags can fl) PAGE_PRESENT) PAGE_COW)).

Lemma clone_flags_sound fl can :
  0 <= fl < 4096 ->
  (has fl PAGE_COW || has fl PAGE_SHARED_RO_FILE = true -> has fl PAGE_WRITE = false) ->
  has (parent_flags can fl) PAGE_WRITE = false /\
  has (Z.lor (child_flags can fl) PAGE_PRESENT) PAGE_WRITE = false /\
  (has fl PAGE_SHARED_RO_FILE = false -> has fl PAGE_WRITE || can = true ->
     has (parent_flags can fl) PAGE_COW = true /\
     has (Z.lor (child_flags can fl) PAGE_PRESENT) PAGE_COW = true).
Proof.
  intros Hfl Hro.
  assert (clone_flags_good can fl = true) as Hall.
  { destruct can.
    - exact (flags_forall (clone_flags_good true) ltac:(vm_compute; reflexivity) fl Hfl).
    - exact (flags_forall (clone_flags_good false) ltac:(vm_compute; reflexivity) fl Hfl). }
  unfold clone_flags_good in Hall. revert Hro Hall. generalize (has (parent_flags can fl) PAGE_WRITE),
    (has (Z.lor (child_flags can fl) PAGE_PRESENT) PAGE_WRITE), (has (parent_flags can fl) PAGE_COW),
    (has (Z.lor (child_flags can fl) PAGE_PRESENT) PAGE_COW), (has fl PAGE_COW),
    (has fl PAGE_SHARED_RO_FILE), (has fl PAGE_WRITE).
  intros [] [] [] [] [] [] []; destruct can; simpl; intuition.
Qed.

(** C6: fork leaves no writable sharing.  After a successful clone, for every
    page of a frame of the allocator (whose copy-on-write or read-only file mapping
    was not writable), parent and child map the same frame, neither can write it, and
    a page the parent could write (or may write, by its memory areas) is
    marked copy-on-write in both. *)
Theorem clone_no_writable_sharing L pds ext s src mw dst s1 :
  layout_ok L -> address_spaces L pds ext s -> src ∈ pds ->
  pd_tables (m_mem s) src < s_free_count (m_pmm s) ->
  process_pd_clone_user L src mw s = Some (dst, s1) -> dst <> 0 ->
  forall v, user_page v ->
  let e := user_pte (m_mem s) src v in
  let ps := user_pte (m_mem s1) src v in
  let cs := user_pte (m_mem s1) dst v in
  user_present e = true -> paging_phys_is_pmm_frame (pte_frame e) = true ->
  (has e PAGE_COW || has e PAGE_SHARED_RO_FILE = true -> has e PAGE_WRITE = false) ->
  pte_frame ps = pte_frame e /\ pte_frame cs = pte_frame e /\
  has ps PAGE_WRITE = false /\ has cs PAGE_WRITE = false /\
  (has e PAGE_SHARED_RO_FILE = false -> has e PAGE_WRITE || may_write_at mw v = true ->
     has ps PAGE_COW = true /\ has cs PAGE_COW = true).
Proof.
  intros HL [pts R] Hsrc Hfree Ec Hd0 v Hv e ps cs Hu Hpm Hro.
  destruct (runs_some _ _ _ _ _ Ec (clone_user_runs L (layout_kptr L HL) mw pds pts ext s src R Hsrc Hfree))
    as (_ & [(? & _)|(pts' & R1 & Hc)]); [done|].
  unfold ps, cs. rewrite (cl_src _ _ _ _ _ _ _ _ Hc), (cl_dst _ _ _ _ _ _ _ _ Hc) by done. fold e.
  pose proof (user_pte_range L pds pts ext s src v R Hsrc Hv) as He. fold e in He.
  destruct (clone_frame (may_write_at mw v) e He Hu) as [[D1 _] [S1 _]].
  split; [done|]. split; [done|].
  destruct (pte_frame_spec e He) as (H1 & H2 & H3 & Ee).
  rewrite user_present_flags in Hu. unfold clone_dst, clone_src. rewrite user_present_flags, Hu, Hpm. cbn [negb andb].
  destruct (flags_good_spec (pte_flags e) (may_write_at mw v) H3 Hu) as (_ & [_ _ B1 _] & [_ _ C1 _]).
  assert (forall b, 0 <= b < 4096 -> has e b = has (pte_flags e) b) as Hb
    by (intros b Hb; rewrite has_flags, <- pte_flags_eq by done; done).
  rewrite (Hb PAGE_COW), (Hb PAGE_SHARED_RO_FILE), (Hb PAGE_WRITE) in Hro by (by vm_compute).
  rewrite (Hb PAGE_SHARED_RO_FILE), (Hb PAGE_WRITE) by (by vm_compute).
  rewrite !entry_has by (done || by vm_compute).
  destruct (clone_flags_sound (pte_flags e) (may_write_at mw v) H3 Hro) as (P1 & P2 & P3).
  unfold parent_flags in *.
  destruct (made_cow _ _); rewrite ?entry_has, ?Hb by (done || by vm_compute); split_and!; done.
Qed.

Lemma clone_no_writable_sharing_witness :
  has (user_pte (m_mem example_forked) example_pd 1024) PAGE_WRITE = false /\
  has (user_pte (m_mem example_forked) example_child 1024) PAGE_WRITE = false /\
  has (user_pte (m_mem example_forked) example_child 1024) PAGE_COW = true.
Proof.
  destruct (clone_no_writable_sharing layout_example ({[example_pd]} ∪ ∅) example_ext example_mapped
    example_pd None example_child example_forked layout_example_ok example_mapped_ok example_pd_live
    ltac:(vm_compute; reflexivity) example_fork ltac:(discriminate) 1024
    ltac:(split; [discriminate|reflexivity])
    ltac:(vm_compute; reflexivity) ltac:(vm_compute; reflexivity) ltac:(vm_compute; discriminate))
    as (_ & _ & H1 & H2 & H3).
  split; [exact H1|]. split; [exact H2|].
  apply H3; vm_compute; reflexivity.
Defined.

(** C7: copy-on-write faults.  [paging_resolve_cow_fault] never halts the machine; it
    handles a fault exactly when the page is a user page of the process marked
    copy-on-write and not writable, whose frame is private already or can be copied
    because a frame is free, and then the page is writable and private with the old
    contents, no other mapping and no other frame changes, and the accounting still
    holds.  Otherwise nothing changes. *)
Theorem cow_fault_correct L pds ext s pd va :
  layout_ok L -> address_spaces L pds ext s -> pd ∈ pds -> 0 <= va < 2 ^ 32 ->
  let v := va / 4096 in let e := user_pte (m_mem s) pd v in
  let handled := paging_pd_index_is_user (v / 1024) && cow_entry e
    && ((frame_refs (m_pmm s) (pte_frame e) <=? 1) || (0 <? s_free_count (m_pmm s))) in
  exists s', paging_resolve_cow_fault L pd va s = Some (handled, s') /\
    address_spaces L pds ext s' /\
    if handled then exists pts f, cow_resolved pds pts s s' pd v f /\
      has (user_pte (m_mem s') pd v) PAGE_WRITE = true /\ has (user_pte (m_mem s') pd v) PAGE_COW = false
    else s' = s.
Proof.
  intros HL [pts R] Hpd Hva v e handled.
  destruct (runs_elim _ _ _ (resolve_cow_runs L pds pts ext s pd va R Hpd Hva)) as (b & s' & E & Hb & Hs).
  fold v e handled in Hb. subst b. exists s'. split; [done|]. destruct handled eqn:Hh.
  - destruct Hs as (R' & _ & f & Hc). split; [by exists pts|]. exists pts, f. split; [done|].
    unfold handled in Hh. rewrite !andb_true_iff in Hh. destruct Hh as [[Hu Hcow] _].
    apply pd_index_is_user in Hu.
    by destruct (cow_page L pds pts ext s s' pd v f R R' Hpd Hu Hcow Hc) as ((_ & _ & ? & ?) & _).
  - subst s'. split; [by exists pts|done].
Qed.

Lemma cow_fault_correct_witness :
  exists s', paging_resolve_cow_fault layout_example example_pd 0x400123 example_forked = Some (true, s') /\
    has (user_pte (m_mem s') example_pd 1024) PAGE_WRITE = true.
Proof.
  assert (example_pd ∈ ({[example_child]} ∪ ({[example_pd]} ∪ ∅) : gset Z)) as Hin
    by (apply elem_of_union_r; exact example_pd_live).
  destruct (cow_fault_correct layout_example ({[example_child]} ∪ ({[example_pd]} ∪ ∅)) example_ext
    example_forked example_pd 0x400123 layout_example_ok example_forked_ok Hin
    ltac:(split; [discriminate|reflexivity])) as (s' & E & _ & H).
  exists s'.
  match type of E with _ = Some (?b, _) => assert (b = true) as Hb by (vm_compute; reflexivity) end.
  rewrite Hb in E, H. destruct H as (pts & f & _ & Hw & _). split; [exact E|exact Hw].
Defined.

(** C5: no leak on exit.  [process_pd_destroy] never halts the machine and gives back
    exactly the references the address space held: the accounting holds for the
    remaining processes with the same outside references, their mappings and the data
    they read are unchanged, and after the last one every reference left is an
    outside one. *)
Theorem destroy_returns_everything L pds ext s pd :
  layout_ok L -> address_spaces L pds ext s -> pd ∈ pds ->
  exists s', process_pd_destroy L pd s = Some (tt, s') /\
    address_spaces L (pds ∖ {[pd]}) ext s' /\ pmm_table (m_pmm s') !! pd = None /\
    (forall pd' v, pd' ∈ pds -> pd' <> pd -> user_page v ->
       user_pte (m_mem s') pd' v = user_pte (m_mem s) pd' v /\
       (user_present (user_pte (m_mem s) pd' v) = true ->
          forall j, user_read s' pd' v j = user_read s pd' v j)) /\
    (pds = {[pd]} -> forall f, managed_frame (m_pmm s') f -> frame_refs (m_pmm s') f = ext f).
Proof.
  intros HL [pts R] Hpd.
  destruct (runs_elim _ _ _ (pd_destroy_runs L (layout_kptr L HL) pds pts ext s pd R Hpd))
    as ([] & s' & E & pts' & R' & Hp & Hw & Hm & Hfree & _).
  exists s'. split_and!; try done; [by exists pts'|..].
  - intros pd' v Hpd' Hne Hv.
    assert (user_pte (m_mem s') pd' v = user_pte (m_mem s) pd' v) as Es.
    { rewrite (user_pte_rep R'), (user_pte_rep R), Hp
        by (done || (apply elem_of_difference; split; [done|by intros ?%elem_of_singleton])).
      cbn [fst]. rewrite (proj2 (Z.eqb_neq pd' pd)) by done.
      destruct (pts !! (pd', v / 1024)) as [pt|] eqn:Ek; [|done]. apply Hm. intros ->.
      by apply (vr_sep _ _ _ _ _ _ R _ _ Ek). }
    split; [done|]. intros Hu j. unfold user_read. rewrite Es. apply Hm. intros Ex.
    apply (user_frame_data R pd' v Hpd' Hv Hu). rewrite Ex. by left.
  - intros -> f Hf. assert (forall g, ~ is_table ({[pd]} ∖ {[pd]}) pts' g) as Hno.
    { intros g [Hg|([a b] & Hk)].
      - apply elem_of_difference in Hg as [? ?]. done.
      - apply (vr_dom _ _ _ _ _ _ R') in Hk as [Hg _]. apply elem_of_difference in Hg as [? ?]. done. }
    rewrite (vr_refs _ _ _ _ _ _ R' f Hf (Hno f)), refs_zero; [lia|].
    intros [a b] pt j Hk. by destruct (Hno pt); right; exists (a, b).
Qed.

Lemma destroy_returns_everything_witness :
  exists s', process_pd_destroy layout_example example_pd example_mapped = Some (tt, s') /\
    address_spaces layout_example (({[example_pd]} ∪ ∅) ∖ {[example_pd]}) example_ext s' /\
    pmm_table (m_pmm s') !! example_pd = None.
Proof.
  destruct (destroy_returns_everything layout_example ({[example_pd]} ∪ ∅) example_ext example_mapped
    example_pd layout_example_ok example_mapped_ok example_pd_live) as (s' & E & H & H1 & _).
  exists s'. split; [exact E|]. split; [exact H|exact H1].
Defined.

Lemma map_page_halts L pds pts ext s pd virt phys flags :
  vm_rep (kernel_page_directory L) pds pts ext (m_pmm s) (m_mem s) -> pd ∈ pds -> 0 <= virt -> user_page (virt / 4096) ->
  pts !! (pd, virt / 4096 / 1024) = None -> s_free_count (m_pmm s) <= 0 -> paging_map_page L pd virt phys flags s = None.
Proof.
  intros R Hpd Hvr Hv Ek Hf. pose proof (user_index_range _ Hv) as Hir.
  pose proof (vr_pde _ _ _ _ _ _ R pd (virt / 4096 / 1024) Hpd Hv) as Epde. rewrite Ek in Epde.
  pose proof (free_count_bounds _ (vr_pmm _ _ _ _ _ _ R)).
  unfold paging_map_page. destruct (page_indices virt Hvr) as [-> _].
  rewrite (paging_pd_virt_table L pds pts ext s pd R Hpd). unfold bind at 1, ret at 1. cbv zeta.
  unfold bind at 1. rewrite (table_kptr_read R pd (virt / 4096 / 1024)) by (done || lia || by left).
  rewrite Epde. change (has 0 PAGE_PRESENT) with false. cbv iota.
  destruct (vr_table _ _ _ _ _ _ R pd (is_table_pd pd Hpd)) as (_ & _ & _ & Hne).
  rewrite (proj2 (Z.eqb_neq pd _)) by done. unfold bind, alloc_frame, lift. by rewrite pmm_alloc_frame_none by lia.
Qed.

(** C26: mapping a page.  For a page in the user range and a frame the caller owns a
    reference to, [paging_map_page] sets exactly that entry of that process (creating
    its page table if there is none), leaves every other mapping and all data as they
    are, releases the frame mapped there before, and the caller's reference now
    belongs to the page table.  It stops the machine exactly when a page table is
    needed and no frame is free. *)
Theorem map_page_correct L pds ext s pd virt phys flags :
  layout_ok L -> address_spaces L pds ext s -> pd ∈ pds ->
  0 <= virt < 2 ^ 32 -> user_page (virt / 4096) -> 0 <= phys < 2 ^ 32 ->
  0 <= flags < 4096 -> has flags PAGE_USER = true ->
  (paging_phys_is_pmm_frame (pte_frame phys) = true ->
     managed_frame (m_pmm s) (pte_frame phys) /\ 0 < ext (pte_frame phys) /\
     pte_frame phys <> kernel_page_directory L) ->
  let v := virt / 4096 in let e := pte_frame phys + Z.lor flags PAGE_PRESENT in
  if has (m_mem s pd (v / 1024)) PAGE_PRESENT || (0 <? s_free_count (m_pmm s))
  then exists s', paging_map_page L pd virt phys flags s = Some (tt, s') /\
    address_spaces L pds (ext_to_pte ext e) s' /\ user_pte (m_mem s') pd v = e /\
    (forall pd' v', pd' ∈ pds -> user_page v' -> (pd', v') <> (pd, v) ->
       user_pte (m_mem s') pd' v' = user_pte (m_mem s) pd' v' /\
       (user_present (user_pte (m_mem s) pd' v') = true ->
          forall j, user_read s' pd' v' j = user_read s pd' v' j))
  else paging_map_page L pd virt phys flags s = None.
Proof.
  intros HL [pts R] Hpd Hvr Hv Hph Hfl Hus Hpre v e.
  assert (user_index (v / 1024)) as Hi by done. pose proof (user_index_range _ Hi) as Hir.
  pose proof (vr_pde _ _ _ _ _ _ R pd (v / 1024) Hpd Hi) as Epde.
  destruct (_ || _) eqn:Ec.
  - assert (pts !! (pd, v / 1024) = None -> 0 < s_free_count (m_pmm s)) as Hf.
    { intros En. rewrite Epde, En in Ec. change (has 0 PAGE_PRESENT) with false in Ec. cbn [orb] in Ec. lia. }
    assert (map_pre L pds phys pts ext (m_pmm s)) as Hmp.
    { intros Hpm. destruct (Hpre Hpm) as (H1 & H2 & H3). split_and!; try done.
      intros Ht. destruct (vr_table _ _ _ _ _ _ R _ Ht) as (_ & _ & ? & _). lia. }
    destruct (runs_elim _ _ _ (map_page_runs L pds pd v phys flags Hpd Hv Hph Hfl Hus pts ext s virt R Hmp
      ltac:(lia) eq_refl Hf)) as ([] & s' & E & pts' & R' & [U1 U2 U3 U4] & Hsub & Hnew & _).
    exists s'. split_and!; try done; [by exists pts'|].
    intros pd' v' Hpd' Hv' Hne. split; [by apply U4|]. intros Hu j. unfold user_read. rewrite U4 by done.
    apply U2; [by apply (user_frame_data R)|].
    rewrite <- (U4 pd' v') by done. apply (user_frame_data R'); try done. by rewrite U4.
  - apply orb_false_iff in Ec as [E1 E2]. rewrite Epde in E1.
    destruct (pts !! (pd, v / 1024)) as [pt|] eqn:Ek.
    { destruct (pde_decode R _ _ Ek) as (E & _). congruence. }
    apply (map_page_halts L pds pts ext); done || lia.
Qed.

Lemma map_page_correct_witness :
  exists s', paging_map_page layout_example example_pd 0x401000 0xB8000 5 example_mapped = Some (tt, s') /\
    user_pte (m_mem s') example_pd 1025 = 0xB8005 /\
    user_pte (m_mem s') example_pd 1024 = user_pte (m_mem example_mapped) example_pd 1024.
Proof.
  pose proof (map_page_correct layout_example ({[example_pd]} ∪ ∅) example_ext example_mapped example_pd
    0x401000 0xB8000 5 layout_example_ok example_mapped_ok example_pd_live
    ltac:(split; [discriminate|reflexivity]) ltac:(split; [discriminate|reflexivity])
    ltac:(split; [discriminate|reflexivity]) ltac:(split; [discriminate|reflexivity])
    ltac:(reflexivity) ltac:(intros Hx; vm_compute in Hx; discriminate Hx)) as H. cbv zeta in H.
  match type of H with if ?b then _ else _ => assert (b = true) as Hb by (vm_compute; reflexivity) end.
  rewrite Hb in H. destruct H as (s' & E & _ & H1 & H2). exists s'. split; [exact E|]. split; [exact H1|].
  apply H2; [exact example_pd_live|split; [discriminate|reflexivity]|discriminate].
Defined.
