(* ===== verification/PagingInit.v ===== *)
(** * The page tables built at boot

    The pointer accesses of the model go through [kernel_translate].  Here the tables
    that [paging_init] builds are walked the way the processor walks them: the low
    identity map and the window on the managed frames give exactly that translation,
    and nothing else is mapped. *)
From S2P Require Import Prelude BootInfo Pmm Memory Paging AddressSpace AddressOps AddressProps.
From Stdlib Require Import ZArith Lia ZifyBool Bool.
From stdpp Require Import base numbers gmap list.
Local Open Scope Z_scope.
Local Open Scope kernel_scope.

(** The processor's walk of the two-level tables at [cr3], for a supervisor access. *)
Definition page_walk (mem : Z -> Z -> Z) (cr3 virt : Z) : option Z :=
  let pde := mem (pte_frame cr3) (virt / 2 ^ 22) in
  if negb (has pde PAGE_PRESENT) then None else
  let pte := mem (pte_frame pde) (virt / 4096 mod 1024) in
  if negb (has pte PAGE_PRESENT) then None else
  Some (pte_frame pte + virt mod 4096).

(** The static tables: page-aligned, below the first 4 MB, without overlap. *)
Definition static_tables (L : layout) : list Z :=
  [kernel_page_directory L; low_page_table_0 L; low_page_table_1 L; framebuffer_page_table L]
  ++ map (fun t => high_mmio_page_tables L + t * 4096) (up_to 0 KERNEL_HIGH_MMIO_TABLES 1)
  ++ map (fun t => pmm_map_page_tables L + t * 4096) (up_to 0 KERNEL_PMM_MAP_TABLES 1).

Record tables_ok (L : layout) : Prop := TablesOk {
  tk_range : forall f, f ∈ static_tables L -> 0 <= f < 0x3FF000 /\ f mod 4096 = 0;
  tk_nodup : NoDup (static_tables L)
}.

(** From [s] to [s'] the words selected by [c] got the values [v]. *)
Record wrote (c : Z -> Z -> bool) (v : Z -> Z -> Z) (s s' : machine) : Prop := Wrote {
  wr_mem : forall g i, m_mem s' g i = if c g i then v g i else m_mem s g i;
  wr_kmem : m_kmem s' = m_kmem s
}.

Definition table_at (f : Z) : Prop := 0 <= f < 0x3FF000 /\ f mod 4096 = 0.

Lemma write_at f i v s (Q : unit -> machine -> Prop) :
  table_at f -> 0 <= i < 1024 ->
  (forall s', wrote (fun g j => (g =? f) && (j =? i)) (fun _ _ => v) s s' -> Q tt s') -> runs (write_word f i v) s Q.
Proof.
  intros [Hf Ha] Hi HQ. apply (runs_write f f); [apply kptr_identity; unfold KERNEL_PMM_MAP_BASE; lia|done|].
  apply HQ. by constructor.
Qed.

(** A table address or a managed page, present and writable. *)
Lemma present_writable a : a mod 4096 = 0 -> Z.lor (Z.lor a PAGE_PRESENT) PAGE_WRITE = a + 3.
Proof. intros Ha. rewrite <- Z.lor_assoc. by apply lor_aligned. Qed.

Ltac in_list := apply list_elem_of_In; cbn [In]; tauto.

(** A loop that fills [n] entries of a table from [k] on. *)
Lemma fill_table f k n (v : Z -> Z) (body : Z -> M machine unit) s (Q : unit -> machine -> Prop) :
  table_at f -> 0 <= k -> 0 <= n -> k + n <= 1024 -> (forall t, 0 <= t < n -> body t = write_word f (k + t) (v t)) ->
  (forall s', wrote (fun g i => (g =? f) && ((k <=? i) && (i <? k + n))) (fun _ i => v (i - k)) s s' -> Q tt s') ->
  runs (for_each (up_to 0 n 1) body) s Q.
Proof.
  intros Hf Hk Hn Hkn Hb HQ.
  apply (runs_for_each (fun m s' => wrote (fun g i => (g =? f) && ((k <=? i) && (i <? k + m))) (fun _ i => v (i - k)) s s')); [done| |..|done].
  - constructor; [|done]. intros g i. by rewrite (proj2 (andb_false_iff _ _)) by lia.
  - intros m s1 Hm [W1 W2]. rewrite Hb by done. apply write_at; [done|lia|]. intros s2 [W3 W4]. constructor; [|congruence].
    intros g i. rewrite W3, W1. destruct (Z.eqb_spec g f); cbn [andb]; [|done]. destruct (Z.eqb_spec i (k + m)) as [->|Hi].
    + rewrite (proj2 (andb_true_iff _ _)) by lia. f_equal. lia.
    + by replace ((k <=? i) && (i <? k + (m + 1))) with ((k <=? i) && (i <? k + m)) by lia.
Qed.

Section Boot.
Context (L : layout) (Hok : tables_ok L).
Local Abbreviation kpd := (kernel_page_directory L).
Local Abbreviation mmio t := (high_mmio_page_tables L + t * 4096).
Local Abbreviation window t := (pmm_map_page_tables L + t * 4096).

(** ** The tables are different *)

Lemma mmio_in t : 0 <= t < 8 -> mmio t ∈ map (fun t => mmio t) (up_to 0 KERNEL_HIGH_MMIO_TABLES 1).
Proof. intros Ht. apply list_elem_of_fmap. exists t. split; [done|]. apply elem_of_up_to; [lia|]. exists t. unfold KERNEL_HIGH_MMIO_TABLES. lia. Qed.

Lemma window_in t : 0 <= t < 64 -> window t ∈ map (fun t => window t) (up_to 0 KERNEL_PMM_MAP_TABLES 1).
Proof.
  intros Ht. apply list_elem_of_fmap. exists t. split; [done|]. apply elem_of_up_to; [lia|]. exists t.
  change KERNEL_PMM_MAP_TABLES with 64. lia.
Qed.

Lemma tables_at :
  table_at kpd /\ table_at (low_page_table_0 L) /\ table_at (low_page_table_1 L) /\ table_at (framebuffer_page_table L)
  /\ (forall t, 0 <= t < 8 -> table_at (mmio t)) /\ (forall t, 0 <= t < 64 -> table_at (window t)).
Proof.
  assert (H := tk_range _ Hok). unfold static_tables in H.
  split_and!; [apply H, elem_of_app; left; in_list..| |].
  - intros t Ht. apply H, elem_of_app. right. apply elem_of_app. left. by apply mmio_in.
  - intros t Ht. apply H, elem_of_app. right. apply elem_of_app. right. by apply window_in.
Qed.

Record different : Prop := Different {
  df_low0 : kpd <> low_page_table_0 L;
  df_low1 : kpd <> low_page_table_1 L;
  df_lows : low_page_table_0 L <> low_page_table_1 L;
  df_fb : framebuffer_page_table L <> kpd /\ framebuffer_page_table L <> low_page_table_0 L /\ framebuffer_page_table L <> low_page_table_1 L;
  df_mmio : forall t, 0 <= t < 8 -> mmio t <> kpd /\ mmio t <> low_page_table_0 L /\ mmio t <> low_page_table_1 L;
  df_window : forall t, 0 <= t < 64 -> window t <> kpd /\ window t <> low_page_table_0 L /\ window t <> low_page_table_1 L
    /\ window t <> framebuffer_page_table L /\ forall u, 0 <= u < 8 -> mmio u <> window t
}.

Lemma tables_different : different.
Proof.
  assert (H := tk_nodup _ Hok). unfold static_tables in H. apply NoDup_app in H as (H1 & H2 & H3).
  apply NoDup_app in H3 as (_ & H3 & _). cbn in H1.
  assert (Hm : forall x t, 0 <= t < 8 -> x ∈ [kpd; low_page_table_0 L; low_page_table_1 L; framebuffer_page_table L] -> mmio t <> x).
  { intros x t Ht Hx E. rewrite <- E in Hx. eapply H2; [exact Hx|]. apply elem_of_app. left. by apply mmio_in. }
  assert (Hw : forall x t, 0 <= t < 64 -> x ∈ [kpd; low_page_table_0 L; low_page_table_1 L; framebuffer_page_table L] -> window t <> x).
  { intros x t Ht Hx E. rewrite <- E in Hx. eapply H2; [exact Hx|]. apply elem_of_app. right. by apply window_in. }
  rewrite !NoDup_cons, !not_elem_of_cons in H1. destruct H1 as ((? & ? & ? & _) & (? & ? & _) & (? & _) & _).
  constructor; try done.
  - intros t Ht. split_and!; apply Hm; try done; in_list.
  - intros t Ht. split_and!; try (apply Hw; try done; in_list). intros u Hu E.
    eapply H3; [by apply (mmio_in u)|]. rewrite E. by apply window_in.
Qed.

(** ** The window on the managed frames *)

Definition window_entry (t i : Z) : Z := PMM_BASE + (t * 1024 + i) * 4096 + 3.

Lemma window_table_runs t s (Q : unit -> machine -> Prop) :
  0 <= t < 64 ->
  (forall s', wrote (fun g i => (g =? window t) && ((0 <=? i) && (i <? 1024) && (t * 1024 + i <? PMM_NUM_FRAMES))) (fun _ i => window_entry t i) s s' -> Q tt s') ->
  runs (for_each (up_to 0 PT_ENTRIES 1) (fun i =>
    let page := u32 (t * PT_ENTRIES + i) in
    when (page <? PMM_NUM_FRAMES)
      (write_word (window t) i (Z.lor (Z.lor (u32 (PMM_BASE + page * PAGE_SIZE)) PAGE_PRESENT) PAGE_WRITE)))) s Q.
Proof.
  intros Ht HQ. destruct tables_at as (_ & _ & _ & _ & _ & Hw). specialize (Hw t Ht).
  apply (runs_for_each (fun m s' => wrote (fun g i => (g =? window t) && ((0 <=? i) && (i <? m) && (t * 1024 + i <? PMM_NUM_FRAMES)))
    (fun _ i => window_entry t i) s s')).
  - done.
  - constructor; [|done]. intros g i. by rewrite (proj2 (andb_false_iff _ _)) by lia.
  - intros m s1 Hm [W1 W2]. cbv zeta. change PT_ENTRIES with 1024 in *. rewrite u32_small by lia. unfold when.
    destruct (Z.ltb_spec (t * 1024 + m) PMM_NUM_FRAMES) as [Hp|Hp].
    + apply write_at; [done|lia|]. intros s2 [W3 W4]. constructor; [|congruence]. intros g i. rewrite W3, W1. clear W1 W3.
      change PAGE_SIZE with 4096. change PMM_NUM_FRAMES with 65024 in *. unfold window_entry. change PMM_BASE with 0x200000.
      rewrite u32_small by lia. rewrite present_writable by dlia. zcase; try lia; cbn [andb]; try lia.
    + apply runs_ret. constructor; [|done]. intros g i. rewrite W1. clear W1. zcase; cbn [andb]; try done; lia.
  - done.
Qed.

(** ** All of [paging_init] *)

(** What the words of the tables are afterwards; other words keep their values. *)
Record boot_tables (s s' : machine) : Prop := BootTables {
  bt_low0 : forall i, 0 <= i < 1024 -> m_mem s' (low_page_table_0 L) i = i * 4096 + 3;
  bt_low1 : forall i, 0 <= i < 1024 -> m_mem s' (low_page_table_1 L) i = 0x400000 + i * 4096 + 3;
  bt_window : forall t i, 0 <= t < 64 -> 0 <= i < 1024 ->
    m_mem s' (window t) i = if t * 1024 + i <? PMM_NUM_FRAMES then window_entry t i else m_mem s (window t) i;
  bt_kpd : forall i, 0 <= i < 1024 -> m_mem s' kpd i =
    if i =? 0 then low_page_table_0 L + 3 else if i =? 1 then low_page_table_1 L + 3
    else if i =? 832 then framebuffer_page_table L + 3 else if 1016 <=? i then mmio (i - 1016) + 3
    else if (896 <=? i) && (i <? 960) then window (i - 896) + 3 else m_mem s kpd i;
  bt_other : forall g, g <> kpd -> g <> low_page_table_0 L -> g <> low_page_table_1 L ->
    (forall t, 0 <= t < 64 -> g <> window t) -> forall i, m_mem s' g i = m_mem s g i;
  bt_kmem : m_kmem s' = m_kmem s
}.

(** The last loop: a table of the window and its entry in the directory. *)
Lemma window_runs s (Q : unit -> machine -> Prop) :
  (forall s', (forall t i, 0 <= t < 64 -> m_mem s' (window t) i =
       if (0 <=? i) && (i <? 1024) && (t * 1024 + i <? PMM_NUM_FRAMES) then window_entry t i else m_mem s (window t) i) ->
     (forall i, m_mem s' kpd i = if (896 <=? i) && (i <? 960) then window (i - 896) + 3 else m_mem s kpd i) ->
     (forall g, g <> kpd -> (forall t, 0 <= t < 64 -> g <> window t) -> forall i, m_mem s' g i = m_mem s g i) ->
     m_kmem s' = m_kmem s -> Q tt s') ->
  runs (for_each (up_to 0 KERNEL_PMM_MAP_TABLES 1) (fun t =>
    for_each (up_to 0 PT_ENTRIES 1) (fun i =>
      let page := u32 (t * PT_ENTRIES + i) in
      when (page <? PMM_NUM_FRAMES)
        (write_word (window t) i (Z.lor (Z.lor (u32 (PMM_BASE + page * PAGE_SIZE)) PAGE_PRESENT) PAGE_WRITE))) ;;;
    write_word kpd (KERNEL_PMM_MAP_PD_INDEX + t) (Z.lor (Z.lor (window t) PAGE_PRESENT) PAGE_WRITE))) s Q.
Proof.
  intros HQ. destruct tables_at as (Hk & _ & _ & _ & _ & Hw). destruct tables_different as [_ _ _ _ _ Hd].
  change KERNEL_PMM_MAP_TABLES with 64. change KERNEL_PMM_MAP_PD_INDEX with 896.
  apply (runs_for_each (fun m s' =>
    (forall t i, 0 <= t < 64 -> m_mem s' (window t) i =
       if (t <? m) && ((0 <=? i) && (i <? 1024) && (t * 1024 + i <? PMM_NUM_FRAMES)) then window_entry t i else m_mem s (window t) i) /\
    (forall i, m_mem s' kpd i = if (896 <=? i) && (i <? 896 + m) then window (i - 896) + 3 else m_mem s kpd i) /\
    (forall g, g <> kpd -> (forall t, 0 <= t < 64 -> g <> window t) -> forall i, m_mem s' g i = m_mem s g i) /\ m_kmem s' = m_kmem s)).
  - done.
  - split_and!; try done.
    + intros t i Ht. by rewrite (proj2 (Z.ltb_ge t 0)) by lia.
    + intros i. by rewrite (proj2 (andb_false_iff _ _)) by lia.
  - intros m s1 Hm (H1 & H2 & H3 & H4). apply runs_bind, (window_table_runs m); [done|]. intros s2 [W1 W2].
    apply write_at; [done|lia|]. intros s3 [W3 W4]. destruct (Hw m Hm) as [_ Ha]. rewrite present_writable in W3 by done.
    destruct (Hd m Hm) as (Hmk & _). split_and!.
    + intros t i Ht. rewrite W3, W1, H1 by done. destruct (Hd t Ht) as (Htk & _). rewrite (proj2 (Z.eqb_neq (window t) kpd)) by done.
      cbn [andb]. destruct (Z.eqb_spec (window t) (window m)).
      * assert (t = m) as -> by lia. rewrite Z.ltb_irrefl, (proj2 (Z.ltb_lt m (m + 1))) by lia. done.
      * cbn [andb]. by replace (t <? m + 1) with (t <? m) by lia.
    + intros i. rewrite W3, W1, H2. rewrite Z.eqb_refl, (proj2 (Z.eqb_neq kpd (window m))) by congruence. cbn [andb].
      destruct (Z.eqb_spec i (896 + m)) as [->|Hi]; [rewrite (proj2 (andb_true_iff _ _)) by lia; lia|].
      by replace ((896 <=? i) && (i <? 896 + (m + 1))) with ((896 <=? i) && (i <? 896 + m)) by lia.
    + intros g Hg Hgw i. rewrite W3, W1, H3 by done. rewrite (proj2 (Z.eqb_neq g kpd)), (proj2 (Z.eqb_neq g (window m))) by auto. done.
    + congruence.
  - intros s' (H1 & H2 & H3 & H4). apply HQ; try done. intros t i Ht. rewrite H1 by done. by rewrite (proj2 (Z.ltb_lt t 64)) by lia.
Qed.

Lemma paging_init_runs s : runs (paging_init L) s (fun _ s' => m_cr3 s' = kpd /\ m_paging s' = true /\ boot_tables s s').
Proof.
  destruct tables_at as (Ak & A0 & A1 & Af & Am & _). destruct tables_different as [d1 d2 d3 (d4 & d5 & d6) d7 d8].
  assert (E : forall a, table_at a -> Z.lor (Z.lor a PAGE_PRESENT) PAGE_WRITE = a + 3) by (intros a [_ Ha]; by apply present_writable).
  unfold paging_init. rewrite !E by done. change PT_ENTRIES with 1024. change KERNEL_HIGH_MMIO_TABLES with 8.
  change KERNEL_FB_MAP_PD_INDEX with 832. change KERNEL_HIGH_MMIO_PD_INDEX with 1016.
  apply runs_bind, (fill_table (low_page_table_0 L) 0 1024 (fun i => i * 4096 + 3)); [done|lia|lia|lia|..].
  { intros t Ht. rewrite Z.add_0_l. change PAGE_SIZE with 4096. rewrite u32_small by lia. by rewrite present_writable by dlia. }
  intros s1 [W1 k1]. apply runs_bind, write_at; [done|lia|]. intros s2 [W2 k2].
  apply runs_bind, (fill_table (low_page_table_1 L) 0 1024 (fun i => 0x400000 + i * 4096 + 3)); [done|lia|lia|lia|..].
  { intros t Ht. rewrite Z.add_0_l. change PAGE_SIZE with 4096. rewrite u32_small by lia. by rewrite present_writable by dlia. }
  intros s3 [W3 k3]. apply runs_bind, write_at; [done|lia|]. intros s4 [W4 k4].
  apply runs_bind, write_at; [done|lia|]. intros s5 [W5 k5].
  apply runs_bind, (fill_table kpd 1016 8 (fun t => mmio t + 3)); [done|lia|lia|lia|..].
  { intros t Ht. by rewrite E by auto. }
  intros s6 [W6 k6]. apply runs_bind, window_runs. intros s7 H1 H2 H3 k7. apply runs_bind, runs_modify, runs_modify. cbn [m_cr3 m_paging].
  split_and!; [done|done|].
  assert (Hrow : forall g i, m_mem s6 g i = if (g =? kpd) && ((1016 <=? i) && (i <? 1016 + 8)) then mmio (i - 1016) + 3
    else if (g =? kpd) && (i =? 832) then framebuffer_page_table L + 3 else if (g =? kpd) && (i =? 1) then low_page_table_1 L + 3
    else if (g =? low_page_table_1 L) && ((0 <=? i) && (i <? 0 + 1024)) then 0x400000 + (i - 0) * 4096 + 3
    else if (g =? kpd) && (i =? 0) then low_page_table_0 L + 3
    else if (g =? low_page_table_0 L) && ((0 <=? i) && (i <? 0 + 1024)) then (i - 0) * 4096 + 3 else m_mem s g i).
  { intros g i. by rewrite W6, W5, W4, W3, W2, W1. }
  assert (Hne : forall a b : Z, a <> b -> (a =? b) = false) by (intros; lia). clear W1 W2 W3 W4 W5 W6.
  constructor; cbn [m_mem m_kmem].
  - intros i Hi. rewrite H3, Hrow by (auto || (intros t Ht; destruct (d8 t Ht) as (? & ? & ? & ?); auto)).
    rewrite (Hne (low_page_table_0 L) kpd), (Hne (low_page_table_0 L) (low_page_table_1 L)), Z.eqb_refl by auto. cbn [andb].
    rewrite (proj2 (andb_true_iff _ _)) by lia. lia.
  - intros i Hi. rewrite H3, Hrow by (auto || (intros t Ht; destruct (d8 t Ht) as (? & ? & ? & ?); auto)).
    rewrite (Hne (low_page_table_1 L) kpd), Z.eqb_refl by auto. cbn [andb]. rewrite (proj2 (andb_true_iff _ _)) by lia. lia.
  - intros t i Ht Hi. rewrite H1 by done. rewrite (proj2 (Z.leb_le 0 i)), (proj2 (Z.ltb_lt i 1024)) by lia. cbn [andb].
    rewrite Hrow. destruct (d8 t Ht) as (n1 & n2 & n3 & _). by rewrite (Hne _ _ n1), (Hne _ _ n2), (Hne _ _ n3).
  - intros i Hi. rewrite H2, Hrow, Z.eqb_refl, (Hne _ _ d1), (Hne _ _ d2). cbn [andb]. clear Hrow H1 H2 H3.
    destruct (Z.eqb_spec i 0), (Z.eqb_spec i 1), (Z.eqb_spec i 832), (Z.leb_spec 1016 i), (Z.leb_spec 896 i), (Z.ltb_spec i 960), (Z.ltb_spec i (1016 + 8)); cbn [andb]; done || lia.
  - intros g n1 n2 n3 n4 i. rewrite H3 by done. rewrite Hrow. by rewrite (Hne _ _ n1), (Hne _ _ n2), (Hne _ _ n3).
  - congruence.
Qed.

(** ** Walking the tables *)

Lemma entry_present a : a mod 4096 = 0 -> 0 <= a < 2 ^ 32 -> has (a + 3) PAGE_PRESENT = true /\ pte_frame (a + 3) = a.
Proof. intros Ha Hr. split; [by rewrite (entry_has a 3) by (done || lia)|by apply (entry_frame a 3); [..|lia]]. Qed.

(** The walk through a present directory entry. *)
Lemma walk_entry mem virt t :
  table_at t -> mem kpd (virt / 2 ^ 22) = t + 3 ->
  page_walk mem kpd virt = if has (mem t (virt / 4096 mod 1024)) PAGE_PRESENT
    then Some (pte_frame (mem t (virt / 4096 mod 1024)) + virt mod 4096) else None.
Proof.
  intros [Ht Ha] E. destruct tables_at as ([Hk Hka] & _). unfold page_walk.
  assert (pte_frame kpd = kpd) as -> by (rewrite pte_frame_eq, Hka by lia; lia). rewrite E.
  destruct (entry_present t Ha ltac:(lia)) as [-> ->]. cbn [negb]. by destruct (has _ _).
Qed.

Lemma walk_page mem virt t a :
  table_at t -> mem kpd (virt / 2 ^ 22) = t + 3 -> mem t (virt / 4096 mod 1024) = a + 3 -> a mod 4096 = 0 -> 0 <= a < 2 ^ 32 ->
  page_walk mem kpd virt = Some (a + virt mod 4096).
Proof. intros Ht E Ea Ha Hr. rewrite (walk_entry mem virt t) by done. rewrite Ea. by destruct (entry_present a Ha Hr) as [-> ->]. Qed.

Lemma walk_empty mem virt t :
  table_at t -> mem kpd (virt / 2 ^ 22) = t + 3 -> mem t (virt / 4096 mod 1024) = 0 -> page_walk mem kpd virt = None.
Proof. intros Ht E Ea. rewrite (walk_entry mem virt t) by done. by rewrite Ea. Qed.

Section Walk.
Context (s s' : machine) (B : boot_tables s s').
Hypothesis Hz : forall t, t ∈ static_tables L -> forall i, 0 <= i < 1024 -> m_mem s t i = 0.
Context (virt : Z) (Hv : 0 <= virt < 2 ^ 32).
Local Abbreviation dir := (virt / 2 ^ 22).

Lemma walk_low : dir < 2 -> page_walk (m_mem s') kpd virt = Some virt.
Proof.
  intros Hd. destruct tables_at as (_ & A0 & A1 & _). assert (Hj : 0 <= virt / 4096 mod 1024 < 1024) by dlia.
  pose proof (bt_kpd _ _ B dir ltac:(dlia)) as E. assert (Hdir : dir = 0 \/ dir = 1) by dlia.
  assert (Ep : Some virt = Some (virt / 4096 * 4096 + virt mod 4096)) by (f_equal; dlia). rewrite Ep.
  destruct Hdir as [e|e]; rewrite e in E; cbn in E; rewrite <- e in E;
    [apply (walk_page _ virt (low_page_table_0 L))|apply (walk_page _ virt (low_page_table_1 L))]; try done; try dlia.
  - rewrite (bt_low0 _ _ B) by done. dlia.
  - rewrite (bt_low1 _ _ B) by done. dlia.
Qed.

Lemma walk_window : 896 <= dir < 960 ->
  page_walk (m_mem s') kpd virt = if virt <? KERNEL_PMM_MAP_END then Some (PMM_BASE + (virt - KERNEL_PMM_MAP_BASE)) else None.
Proof.
  intros Hd. destruct tables_at as (_ & _ & _ & _ & _ & Aw). assert (Ht : 0 <= dir - 896 < 64) by lia.
  assert (Hj : 0 <= virt / 4096 mod 1024 < 1024) by dlia. pose proof (bt_kpd _ _ B dir ltac:(dlia)) as E.
  rewrite (proj2 (Z.eqb_neq _ 0)), (proj2 (Z.eqb_neq _ 1)), (proj2 (Z.eqb_neq _ 832)), (proj2 (Z.leb_gt 1016 _)), (proj2 (andb_true_iff _ _)) in E by lia.
  pose proof (bt_window _ _ B (dir - 896) _ Ht Hj) as Ew. change PMM_NUM_FRAMES with 65024 in Ew. change KERNEL_PMM_MAP_END with 0xEFE00000.
  change KERNEL_PMM_MAP_BASE with 0xE0000000. change PMM_BASE with 0x200000.
  assert (Hpage : (dir - 896) * 1024 + virt / 4096 mod 1024 = virt / 4096 - 0xE0000) by dlia. rewrite Hpage in Ew.
  destruct (Z.ltb_spec virt 0xEFE00000).
  - rewrite (proj2 (Z.ltb_lt _ _)) in Ew by dlia. unfold window_entry in Ew. rewrite Hpage in Ew.
    change PMM_BASE with 0x200000 in Ew. rewrite (walk_page _ virt (window (dir - 896)) (0x200000 + (virt / 4096 - 0xE0000) * 4096)); try done; try dlia; [|by apply Aw].
    f_equal. dlia.
  - rewrite (proj2 (Z.ltb_ge _ _)) in Ew by dlia. apply (walk_empty _ _ (window (dir - 896))); [by apply Aw|done|].
    rewrite Ew. apply Hz; [|done]. apply elem_of_app. right. apply elem_of_app. right. by apply window_in.
Qed.

(** A table that stays empty. *)
Lemma walk_unused t :
  table_at t -> t ∈ static_tables L -> m_mem s' kpd dir = t + 3 -> t <> kpd -> t <> low_page_table_0 L ->
  t <> low_page_table_1 L -> (forall u, 0 <= u < 64 -> t <> window u) -> page_walk (m_mem s') kpd virt = None.
Proof.
  intros At Hin Et m1 m2 m3 m4. assert (Hj : 0 <= virt / 4096 mod 1024 < 1024) by dlia.
  apply (walk_empty _ _ t); [done|done|]. rewrite (bt_other _ _ B) by done. by apply Hz.
Qed.

Lemma walk_none : 2 <= dir -> ~ 896 <= dir < 960 -> page_walk (m_mem s') kpd virt = None.
Proof.
  intros Hd Hw. destruct tables_at as ([Ak Aka] & _ & _ & Af & Am & _). destruct tables_different as [_ _ _ (d4 & d5 & d6) d7 d8].
  pose proof (bt_kpd _ _ B dir ltac:(dlia)) as E. rewrite (proj2 (Z.eqb_neq _ 0)), (proj2 (Z.eqb_neq _ 1)) in E by lia.
  destruct (Z.eqb_spec dir 832) as [e|n].
  { apply (walk_unused (framebuffer_page_table L)); try done; [apply elem_of_app; left; in_list|].
    intros u Hu. destruct (d8 u Hu) as (_ & _ & _ & ? & _). auto. }
  destruct (Z.leb_spec 1016 dir) as [e|n'].
  { assert (Ht : 0 <= dir - 1016 < 8) by dlia. destruct (d7 _ Ht) as (? & ? & ?).
    apply (walk_unused (mmio (dir - 1016))); try done; [by apply Am| |].
    - apply elem_of_app. right. apply elem_of_app. left. by apply mmio_in.
    - intros u Hu. destruct (d8 u Hu) as (_ & _ & _ & _ & Hm). by apply Hm. }
  rewrite (proj2 (andb_false_iff _ _)) in E by lia. rewrite Hz in E; [|apply elem_of_app; left; in_list|dlia].
  unfold page_walk. assert (pte_frame kpd = kpd) as -> by (rewrite pte_frame_eq, Aka by lia; lia). by rewrite E.
Qed.
End Walk.

Definition low_or_window (virt : Z) : bool := (virt <? 0x800000) || ((KERNEL_PMM_MAP_BASE <=? virt) && (virt <? KERNEL_PMM_MAP_END)).

Lemma boot_walk s s' virt :
  boot_tables s s' -> (forall t, t ∈ static_tables L -> forall i, 0 <= i < 1024 -> m_mem s t i = 0) -> 0 <= virt < 2 ^ 32 ->
  page_walk (m_mem s') kpd virt = if low_or_window virt then Some (kernel_translate virt) else None.
Proof.
  intros B Hz Hv. unfold low_or_window, kernel_translate. paging_consts.
  destruct (Z.ltb_spec (virt / 2 ^ 22) 2) as [H|H].
  { rewrite (walk_low s s') by done. rewrite (proj2 (Z.ltb_lt virt _)) by dlia. cbn [orb]. by rewrite (proj2 (andb_false_iff _ _)) by dlia. }
  rewrite (proj2 (Z.ltb_ge virt 0x800000)) by dlia. cbn [orb]. destruct (decide (896 <= virt / 2 ^ 22 < 960)) as [Hw|Hw].
  - rewrite (walk_window s s') by done. rewrite (proj2 (Z.leb_le _ virt)) by dlia. cbn [andb]. paging_consts. by destruct (virt <? _).
  - rewrite (walk_none s s') by done. by rewrite (proj2 (andb_false_iff _ _)) by dlia.
Qed.
End Boot.

(** C23: the page tables built at boot.  [paging_init] switches paging on with a
    directory in which the processor finds, for every 32-bit address, the address itself
    below 8 MB, the frame behind it in the window on the managed frames, and nothing
    anywhere else: the translation all pointer accesses of the kernel rely on.  No
    memory outside of the static tables is written. *)
Theorem paging_init_walk L s :
  tables_ok L -> (forall t, t ∈ static_tables L -> forall i, 0 <= i < 1024 -> m_mem s t i = 0) ->
  runs (paging_init L) s (fun _ s' => m_paging s' = true /\ m_kmem s' = m_kmem s
    /\ (forall virt, 0 <= virt < 2 ^ 32 ->
         page_walk (m_mem s') (m_cr3 s') virt = if low_or_window virt then Some (kernel_translate virt) else None)
    /\ forall f i, f ∉ static_tables L -> m_mem s' f i = m_mem s f i).
Proof.
  intros Hok Hz. eapply runs_mono; [by apply paging_init_runs|]. intros _ s' (Hc & Hp & B). rewrite Hc.
  split_and!; [done|apply B| |].
  - intros virt Hv. by apply (boot_walk L Hok s s').
  - intros f i Hf. unfold static_tables in Hf. rewrite !not_elem_of_app, !not_elem_of_cons in Hf.
    destruct Hf as ((n1 & n2 & n3 & _) & _ & n4). apply (bt_other _ _ _ B); try done. intros t Ht ->. apply n4. by apply window_in.
Qed.

Lemma paging_init_walk_witness :
  runs (paging_init layout_example) machine_example (fun _ s' => m_paging s' = true /\ m_kmem s' = m_kmem machine_example
    /\ (forall virt, 0 <= virt < 2 ^ 32 ->
         page_walk (m_mem s') (m_cr3 s') virt = if low_or_window virt then Some (kernel_translate virt) else None)
    /\ forall f i, f ∉ static_tables layout_example -> m_mem s' f i = m_mem machine_example f i).
Proof.
  apply (paging_init_walk layout_example machine_example); [|done].
  assert (H : Forall (fun f => 0 <= f < 0x3FF000 /\ f mod 4096 = 0) (static_tables layout_example)).
  { apply (bool_decide_unpack _). vm_compute. exact I. }
  constructor; [by apply Forall_forall|]. apply (bool_decide_unpack _). vm_compute. exact I.
Defined.
