(* ===== verification/Kalloc.v ===== *)
(** * Kernel allocator

    Models [src/src/kernel/kalloc.c]: six size classes of slab pages and page runs for
    larger blocks, on frames of the physical memory manager seen through the kernel's
    alias window.  The structures live in physical memory: a slab header is seven words
    at the start of its page, a free slot's first word is the next free slot, a large
    block has a three-word header.  [k_memset] on word-aligned ranges is a loop over
    words.  The list walks are given one round more than there are frames. *)
From S2P Require Import Prelude BootInfo Pmm Memory Paging AddressSpace.
From Stdlib Require Import ZArith Lia ZifyBool Bool.
From stdpp Require Import base numbers gmap list.
Local Open Scope Z_scope.
Local Open Scope kernel_scope.

Definition KALLOC_SLAB_MAGIC : Z := 0x4B534C42.
Definition KALLOC_LARGE_MAGIC : Z := 0x4B4C4152.
Definition KALLOC_FREED_MAGIC : Z := 0x4B465245.
Definition KALLOC_CLASS_COUNT : Z := 6.

Definition s_class_sizes : list Z := [16; 32; 64; 128; 256; 1024].
Definition class_size (i : Z) : Z := zget 0 s_class_sizes i.

(** The word offsets of [kalloc_slab_page_t] and [kalloc_large_header_t]. *)
Definition SLAB_magic : Z := 0.
Definition SLAB_class_index : Z := 1.
Definition SLAB_block_size : Z := 2.
Definition SLAB_total_blocks : Z := 3.
Definition SLAB_free_blocks : Z := 4.
Definition SLAB_free_list : Z := 5.
Definition SLAB_next : Z := 6.
Definition SIZEOF_SLAB : Z := 28.
Definition LARGE_magic : Z := 0.
Definition LARGE_frames : Z := 1.
Definition LARGE_size : Z := 2.
Definition SIZEOF_LARGE : Z := 12.

Record kalloc_stats_t := KallocStats {
  pages : Z;
  used_bytes : Z;
  free_bytes : Z;
  invalid_frees : Z;
  double_frees : Z
}.

(** The machine and the allocator's static variables. *)
Record kernel := Kernel {
  k_machine : machine;
  s_slabs : list Z;
  s_stats : kalloc_stats_t
}.

Definition on_machine {A} (m : M machine A) : M kernel A := fun k =>
  match m (k_machine k) with
  | Some (a, s) => Some (a, Kernel s (s_slabs k) (s_stats k))
  | None => None
  end.
Definition set_slab (i v : Z) : M kernel unit :=
  modify (fun k => Kernel (k_machine k) (zset (s_slabs k) i v) (s_stats k)).
Definition add_stats (dp du df di dd : Z) : M kernel unit :=
  modify (fun k => let t := s_stats k in
    Kernel (k_machine k) (s_slabs k)
      (KallocStats (u32 (pages t + dp)) (u32 (used_bytes t + du)) (u32 (free_bytes t + df))
         (u32 (invalid_frees t + di)) (u32 (double_frees t + dd)))).

Definition align_up (value align : Z) : Z :=
  Z.land (u32 (u32 (value + align) - 1)) (u32 (Z.lnot (u32 (align - 1)))).

Definition class_for_size (size : Z) : Z :=
  match list_find (fun i => size <= class_size i) (up_to 0 KALLOC_CLASS_COUNT 1) with
  | Some (_, i) => i
  | None => -1
  end.

(** [k_memset(ptr, 0, n)] for a word-aligned range. *)
Definition zero_words (ptr n : Z) : M kernel unit :=
  for_each (up_to 0 (n / 4) 1) (fun i => on_machine (write_word ptr i 0)).

Definition slab_create (class_index : Z) : M kernel Z :=
  frame <- on_machine alloc_frame ;;
  if frame =? 0 then ret 0 else
  slab <- on_machine (paging_phys_to_kernel_virt frame) ;;
  let block_size := class_size class_index in
  let start := align_up SIZEOF_SLAB 4 in
  let total := (PAGE_SIZE - start) / block_size in
  on_machine (zero_page slab) ;;;
  on_machine (write_word slab SLAB_magic KALLOC_SLAB_MAGIC) ;;;
  on_machine (write_word slab SLAB_class_index class_index) ;;;
  on_machine (write_word slab SLAB_block_size block_size) ;;;
  on_machine (write_word slab SLAB_total_blocks total) ;;;
  on_machine (write_word slab SLAB_free_blocks total) ;;;
  head <- gets (fun k => zget 0 (s_slabs k) class_index) ;;
  on_machine (write_word slab SLAB_next head) ;;;
  set_slab class_index slab ;;;
  on_machine (write_word slab SLAB_free_list 0) ;;;
  for_each (up_to 0 total 1) (fun i =>
    let slot := u32 (slab + start + i * block_size) in
    head <- on_machine (read_word slab SLAB_free_list) ;;
    on_machine (write_word slot 0 head) ;;;
    on_machine (write_word slab SLAB_free_list slot)) ;;;
  add_stats 1 0 (total * block_size) 0 0 ;;;
  ret slab.

(** [cur] is where the pointer to the current slab is stored: the head of the class, or
    the [next] field of a slab. *)
Inductive link := Head | Next (slab : Z).

Definition read_link (class_index : Z) (cur : link) : M kernel Z :=
  match cur with
  | Head => gets (fun k => zget 0 (s_slabs k) class_index)
  | Next s => on_machine (read_word s SLAB_next)
  end.
Definition write_link (class_index : Z) (cur : link) (v : Z) : M kernel unit :=
  match cur with
  | Head => set_slab class_index v
  | Next s => on_machine (write_word s SLAB_next v)
  end.

Definition walk_fuel : nat := S (Z.to_nat PMM_NUM_FRAMES).

(** The [while ( *cur)] loop of [slab_remove_if_empty]. *)
Fixpoint unlink (fuel : nat) (class_index slab : Z) (cur : link) : M kernel unit :=
  match fuel with
  | O => halt
  | S fuel =>
    p <- read_link class_index cur ;;
    if p =? 0 then ret tt
    else if p =? slab then
      next <- on_machine (read_word slab SLAB_next) ;;
      write_link class_index cur next ;;;
      total <- on_machine (read_word slab SLAB_total_blocks) ;;
      size <- on_machine (read_word slab SLAB_block_size) ;;
      add_stats (-1) 0 (- (total * size)) 0 0 ;;;
      on_machine (write_word slab SLAB_magic KALLOC_FREED_MAGIC) ;;;
      frame <- on_machine (paging_kernel_virt_to_phys slab) ;;
      on_machine (free_frame frame)
    else unlink fuel class_index slab (Next p)
  end.

Definition slab_remove_if_empty (slab : Z) : M kernel unit :=
  if slab =? 0 then ret tt else
  magic <- on_machine (read_word slab SLAB_magic) ;;
  if negb (magic =? KALLOC_SLAB_MAGIC) then ret tt else
  free <- on_machine (read_word slab SLAB_free_blocks) ;;
  total <- on_machine (read_word slab SLAB_total_blocks) ;;
  if negb (free =? total) then ret tt else
  class_index <- on_machine (read_word slab SLAB_class_index) ;;
  if KALLOC_CLASS_COUNT <=? class_index then ret tt else
  unlink walk_fuel class_index slab Head.

(** The [while (slab && slab->free_blocks == 0u)] loop of [kalloc]. *)
Fixpoint find_slab (fuel : nat) (slab : Z) : M kernel Z :=
  match fuel with
  | O => halt
  | S fuel =>
    if slab =? 0 then ret 0 else
    free <- on_machine (read_word slab SLAB_free_blocks) ;;
    if negb (free =? 0) then ret slab else
    next <- on_machine (read_word slab SLAB_next) ;;
    find_slab fuel next
  end.

(** Taking a slot from a slab that has one. *)
Definition take_slot (slab : Z) : M kernel Z :=
  slot <- on_machine (read_word slab SLAB_free_list) ;;
  next <- on_machine (read_word slot 0) ;;
  on_machine (write_word slab SLAB_free_list next) ;;;
  free <- on_machine (read_word slab SLAB_free_blocks) ;;
  on_machine (write_word slab SLAB_free_blocks (u32 (free - 1))) ;;;
  size <- on_machine (read_word slab SLAB_block_size) ;;
  add_stats 0 size (- size) 0 0 ;;;
  zero_words slot size ;;;
  ret slot.

Definition alloc_run (frames : Z) : M machine Z :=
  lift (fun s => let '(a, p) := pmm_alloc_contiguous_frames frames (m_pmm s) in (a, set_pmm p s)).
Definition free_run_of (frame frames : Z) : M machine unit :=
  modify (fun s => set_pmm (pmm_free_contiguous_frames frame frames (m_pmm s)) s).

(** The blocks above the largest class. *)
Definition kalloc_large (size : Z) : M kernel Z :=
  let total := u32 (size + SIZEOF_LARGE) in
  let frames := PAGE_ALIGN total / PAGE_SIZE in
  frame <- on_machine (alloc_run frames) ;;
  if frame =? 0 then ret 0 else
  hdr <- on_machine (paging_phys_to_kernel_virt frame) ;;
  on_machine (write_word hdr LARGE_magic KALLOC_LARGE_MAGIC) ;;;
  on_machine (write_word hdr LARGE_frames frames) ;;;
  on_machine (write_word hdr LARGE_size size) ;;;
  add_stats frames size 0 0 0 ;;;
  zero_words (u32 (hdr + SIZEOF_LARGE)) (u32 (frames * PAGE_SIZE - SIZEOF_LARGE)) ;;;
  ret (u32 (hdr + SIZEOF_LARGE)).

Definition kalloc (size : Z) : M kernel Z :=
  if size =? 0 then ret 0 else
  let class_index := class_for_size size in
  if 0 <=? class_index then
    head <- gets (fun k => zget 0 (s_slabs k) class_index) ;;
    slab <- find_slab walk_fuel head ;;
    slab <- (if slab =? 0 then slab_create class_index else ret slab) ;;
    if slab =? 0 then ret 0 else take_slot slab
  else kalloc_large size.

Definition kcalloc (count size : Z) : M kernel Z :=
  if (count =? 0) || (size =? 0) then ret 0
  else if 0xFFFFFFFF / size <? count then ret 0
  else kalloc (u32 (count * size)).

Definition kfree (ptr : Z) : M kernel unit :=
  if ptr =? 0 then ret tt else
  let large := u32 (ptr - SIZEOF_LARGE) in
  magic <- on_machine (read_word large LARGE_magic) ;;
  if magic =? KALLOC_LARGE_MAGIC then
    frames <- on_machine (read_word large LARGE_frames) ;;
    size <- on_machine (read_word large LARGE_size) ;;
    on_machine (write_word large LARGE_magic KALLOC_FREED_MAGIC) ;;;
    t <- gets s_stats ;;
    add_stats (if frames <=? pages t then - frames else 0)
      (if size <=? used_bytes t then - size else 0) 0 0 0 ;;;
    frame <- on_machine (paging_kernel_virt_to_phys large) ;;
    on_machine (free_run_of frame frames)
  else if magic =? KALLOC_FREED_MAGIC then add_stats 0 0 0 0 1
  else
    let slab := Z.land ptr (u32 (Z.lnot (PAGE_SIZE - 1))) in
    smagic <- on_machine (read_word slab SLAB_magic) ;;
    class_index <- on_machine (read_word slab SLAB_class_index) ;;
    free <- on_machine (read_word slab SLAB_free_blocks) ;;
    total <- on_machine (read_word slab SLAB_total_blocks) ;;
    if negb (smagic =? KALLOC_SLAB_MAGIC) || (KALLOC_CLASS_COUNT <=? class_index) || (total <=? free)
    then add_stats 0 0 0 1 0
    else
      head <- on_machine (read_word slab SLAB_free_list) ;;
      on_machine (write_word ptr 0 head) ;;;
      on_machine (write_word slab SLAB_free_list ptr) ;;;
      free <- on_machine (read_word slab SLAB_free_blocks) ;;
      on_machine (write_word slab SLAB_free_blocks (u32 (free + 1))) ;;;
      size <- on_machine (read_word slab SLAB_block_size) ;;
      t <- gets s_stats ;;
      add_stats 0 (if size <=? used_bytes t then - size else 0) size 0 0 ;;;
      slab_remove_if_empty slab.

(** The result and what is stored through [out] when it is not null. *)
Definition kalloc_stats (out : bool) : M kernel (Z * option kalloc_stats_t) :=
  gets (fun k => (pages (s_stats k), if out then Some (s_stats k) else None)).
