(* ===== verification/KallocRep.v ===== *)
(** * Kernel allocator: representation

    What the allocator's structures in memory mean.  A slab is its frame and the list of
    its free slots (in free-list order), a large block its first frame, its number of
    frames and the size asked for; [heap_rep] says that the words of memory and the
    class heads describe given slabs and large blocks, and that every frame involved is
    allocated, has one reference and is used once. *)
From S2P Require Import Prelude BootInfo Pmm Memory Paging AddressSpace Kalloc.
From Stdlib Require Import ZArith Lia ZifyBool Bool.
From stdpp Require Import base numbers gmap list.
Local Open Scope Z_scope.
Local Open Scope kernel_scope.

Definition k_mem (k : kernel) : Z -> Z -> Z := m_mem (k_machine k).
Definition k_pmm (k : kernel) : pmm := m_pmm (k_machine k).
Definition with_mem (mem : Z -> Z -> Z) (k : kernel) : kernel :=
  Kernel (set_mem mem (k_machine k)) (s_slabs k) (s_stats k).
Definition with_pmm (p : pmm) (k : kernel) : kernel :=
  Kernel (set_pmm p (k_machine k)) (s_slabs k) (s_stats k).

(** ** Words of a run of frames *)

(** [n] frames from [f] on lie in the window of the frame allocator. *)
Record run_ok (f n : Z) : Prop := RunOk {
  ro_aligned : f mod 4096 = 0;
  ro_low : PMM_BASE <= f;
  ro_high : f + n * 4096 <= PMM_BASE + PMM_SIZE
}.

Lemma run_word f n o :
  run_ok f n -> 0 <= o < n * 1024 ->
  let a := kernel_translate (u32 (alias f + 4 * o)) in
  page_of a = f + 4096 * (o / 1024) /\ a mod 4096 / 4 = o mod 1024.
Proof.
  intros [Ha Hl Hh] Ho. unfold alias, page_of. paging_consts. rewrite u32_small by lia.
  unfold kernel_translate. paging_consts. rewrite (proj2 (andb_true_iff _ _)) by lia. split; dlia.
Qed.

Lemma runs_on_machine {A} (m : M machine A) k (Q : A -> kernel -> Prop) :
  runs m (k_machine k) (fun a s => Q a (Kernel s (s_slabs k) (s_stats k))) -> runs (on_machine m) k Q.
Proof. unfold runs, on_machine. by destruct (m (k_machine k)) as [[a s]|]. Qed.

Section Words.
Context (f n : Z).
Hypothesis Hrun : run_ok f n.

(** [ptr[i]] where [ptr + 4 * i] is word [o] of the run. *)
Lemma load_word ptr i o k (Q : Z -> kernel -> Prop) :
  ptr + 4 * i = alias f + 4 * o -> 0 <= o < n * 1024 ->
  Q (k_mem k (f + 4096 * (o / 1024)) (o mod 1024)) k -> runs (on_machine (read_word ptr i)) k Q.
Proof.
  intros Hp Ho HQ. apply runs_on_machine, runs_gets. cbv beta zeta. rewrite Hp.
  destruct (run_word f n o Hrun Ho) as [-> ->]. by destruct k.
Qed.

Lemma store_word ptr i o v k (Q : unit -> kernel -> Prop) :
  ptr + 4 * i = alias f + 4 * o -> 0 <= o < n * 1024 ->
  Q tt (with_mem (mem_write (f + 4096 * (o / 1024)) (o mod 1024) v (k_mem k)) k) ->
  runs (on_machine (write_word ptr i v)) k Q.
Proof.
  intros Hp Ho HQ. apply runs_on_machine, runs_modify. cbv beta zeta. rewrite Hp.
  by destruct (run_word f n o Hrun Ho) as [-> ->].
Qed.
End Words.

(** The same for one page. *)
Lemma load_page f ptr i o k (Q : Z -> kernel -> Prop) :
  run_ok f 1 -> ptr + 4 * i = alias f + 4 * o -> 0 <= o < 1024 ->
  Q (k_mem k f o) k -> runs (on_machine (read_word ptr i)) k Q.
Proof.
  intros Hr Hp Ho HQ. eapply (load_word f 1 Hr _ _ o); [done|lia|].
  rewrite Z.div_small, Z.mod_small by lia. by rewrite Z.mul_0_r, Z.add_0_r.
Qed.

Lemma store_page f ptr i o v k (Q : unit -> kernel -> Prop) :
  run_ok f 1 -> ptr + 4 * i = alias f + 4 * o -> 0 <= o < 1024 ->
  Q tt (with_mem (mem_write f o v (k_mem k)) k) -> runs (on_machine (write_word ptr i v)) k Q.
Proof.
  intros Hr Hp Ho HQ. eapply (store_word f 1 Hr _ _ o); [done|lia|].
  rewrite Z.div_small, Z.mod_small by lia. by rewrite Z.mul_0_r, Z.add_0_r.
Qed.

(** ** Slabs *)

Definition total_blocks (c : Z) : Z := (4096 - 28) / class_size c.

(** Word index, in its page, of slot [i] of a slab of class [c]; its address. *)
Definition slot_word (c i : Z) : Z := 7 + i * (class_size c / 4).
Definition slot_ptr (f c i : Z) : Z := alias f + 4 * slot_word c i.

Definition first_free (f c : Z) (l : list Z) : Z :=
  match l with
  | [] => 0
  | i :: _ => slot_ptr f c i
  end.

Fixpoint free_chain (mem : Z -> Z -> Z) (f c : Z) (l : list Z) : Prop :=
  match l with
  | [] => True
  | i :: l' => mem f (slot_word c i) = first_free f c l' /\ free_chain mem f c l'
  end.

Record slab_rep (mem : Z -> Z -> Z) (c f : Z) (l : list Z) (next : Z) : Prop := SlabRep {
  sr_magic : mem f 0 = KALLOC_SLAB_MAGIC;
  sr_class : mem f 1 = c;
  sr_size : mem f 2 = class_size c;
  sr_total : mem f 3 = total_blocks c;
  sr_free : mem f 4 = zlen l;
  sr_head : mem f 5 = first_free f c l;
  sr_next : mem f 6 = next;
  sr_chain : free_chain mem f c l;
  sr_nodup : NoDup l;
  sr_slots : Forall (fun i => 0 <= i < total_blocks c) l
}.

Abbreviation slab := (Z * list Z)%type.

Definition head_ptr (sl : list slab) : Z :=
  match sl with
  | [] => 0
  | s :: _ => alias s.1
  end.

(** The list of slabs of class [c]. *)
Fixpoint slabs_rep (mem : Z -> Z -> Z) (c : Z) (sl : list slab) : Prop :=
  match sl with
  | [] => True
  | s :: sl' => slab_rep mem c s.1 s.2 (head_ptr sl') /\ slabs_rep mem c sl'
  end.

(** ** The heap *)

(** A large block: first frame, frames, size asked for. *)
Definition large : Type := (Z * Z * Z)%type.

Record heap := Heap {
  h_slabs : Z -> list slab;
  h_large : list large
}.

Definition run_frames (f n : Z) : list Z := map (fun i => f + 4096 * i) (up_to 0 n 1).

Definition class_frames (h : heap) (c : Z) : list Z := map fst (h_slabs h c).
Definition slab_frames (h : heap) : list Z := concat (map (class_frames h) (up_to 0 KALLOC_CLASS_COUNT 1)).
Definition large_frames (h : heap) : list Z := concat (map (fun b => run_frames b.1.1 b.1.2) (h_large h)).
Definition heap_frames (h : heap) : list Z := slab_frames h ++ large_frames h.

Record heap_rep (h : heap) (k : kernel) : Prop := HeapRep {
  hr_pmm : pmm_wf (k_pmm k);
  hr_heads : forall c, 0 <= c < KALLOC_CLASS_COUNT -> zget 0 (s_slabs k) c = head_ptr (h_slabs h c);
  hr_count : zlen (s_slabs k) = KALLOC_CLASS_COUNT;
  hr_slabs : forall c, 0 <= c < KALLOC_CLASS_COUNT -> slabs_rep (k_mem k) c (h_slabs h c);
  hr_large : Forall (fun b => 0 < b.1.2 /\ k_mem k b.1.1 0 = KALLOC_LARGE_MAGIC
      /\ k_mem k b.1.1 1 = b.1.2 /\ k_mem k b.1.1 2 = b.2) (h_large h);
  hr_nodup : NoDup (heap_frames h);
  hr_frames : Forall (fun f => managed_frame (k_pmm k) f /\ pmm_table (k_pmm k) !! f = Some 1) (heap_frames h)
}.

(** A live block: its address and its size in bytes. *)
Inductive live (h : heap) : Z -> Z -> Prop :=
| live_slot c f l i : 0 <= c < KALLOC_CLASS_COUNT -> (f, l) ∈ h_slabs h c ->
    0 <= i < total_blocks c -> i ∉ l -> live h (slot_ptr f c i) (class_size c)
| live_large f n sz : (f, n, sz) ∈ h_large h -> live h (alias f + 12) (n * 4096 - 12).

(** The word of physical memory a kernel address denotes. *)
Definition word (mem : Z -> Z -> Z) (a : Z) : Z :=
  mem (page_of (kernel_translate a)) (kernel_translate a mod 4096 / 4).

(** The contents of a block of [n] bytes at [p]. *)
Definition block_words (mem : Z -> Z -> Z) (p n : Z) : list Z := map (fun j => word mem (p + 4 * j)) (up_to 0 (n / 4) 1).

(** ** Lemmas *)

Lemma class_cases c : 0 <= c < KALLOC_CLASS_COUNT -> c = 0 \/ c = 1 \/ c = 2 \/ c = 3 \/ c = 4 \/ c = 5.
Proof. unfold KALLOC_CLASS_COUNT. lia. Qed.

Lemma class_facts c :
  0 <= c < KALLOC_CLASS_COUNT ->
  16 <= class_size c <= 1024 /\ class_size c mod 16 = 0 /\ 0 < total_blocks c < 1024
  /\ 28 + total_blocks c * class_size c <= 4096.
Proof. intros H%class_cases. destruct_or! H; subst; vm_compute; intuition discriminate. Qed.

Lemma slot_word_range c i :
  0 <= c < KALLOC_CLASS_COUNT -> 0 <= i < total_blocks c ->
  7 <= slot_word c i /\ slot_word c i + class_size c / 4 <= 1024.
Proof.
  intros Hc Hi. destruct (class_facts c Hc) as (Hs & Hm & Ht & Hf). unfold slot_word.
  assert (class_size c = 4 * (class_size c / 4)) by dlia. nia.
Qed.

(** Slots of a class do not overlap. *)
Lemma slot_words_disjoint c i j x y :
  0 <= c < KALLOC_CLASS_COUNT -> i <> j -> 0 <= x < class_size c / 4 -> 0 <= y < class_size c / 4 ->
  slot_word c i + x <> slot_word c j + y.
Proof.
  intros Hc Hij Hx Hy. destruct (class_facts c Hc) as (Hs & _). unfold slot_word. nia.
Qed.

Lemma free_chain_ext mem mem' f c l :
  (forall i, i ∈ l -> mem' f (slot_word c i) = mem f (slot_word c i)) ->
  free_chain mem f c l -> free_chain mem' f c l.
Proof.
  induction l as [|i l IH]; [done|]. intros He [H1 H2]. split.
  - rewrite He by (by left). done.
  - apply IH; [|done]. intros j Hj. apply He. by right.
Qed.

Lemma slab_rep_ext mem mem' c f l next :
  (forall i, mem' f i = mem f i) -> slab_rep mem c f l next -> slab_rep mem' c f l next.
Proof.
  intros He []. constructor; rewrite ?He; try done.
  eapply free_chain_ext; [|done]. intros; apply He.
Qed.

Lemma slabs_rep_ext mem mem' c sl :
  (forall f i, f ∈ map fst sl -> mem' f i = mem f i) -> slabs_rep mem c sl -> slabs_rep mem' c sl.
Proof.
  induction sl as [|s sl IH]; [done|]. intros He [H1 H2]. split.
  - eapply slab_rep_ext; [|done]. intros i. apply He. by left.
  - apply IH; [|done]. intros f i Hf. apply He. by right.
Qed.

(** Replacing the slabs of one class. *)
Definition set_class (h : heap) (c : Z) (sl : list slab) : heap :=
  Heap (fun x => if x =? c then sl else h_slabs h x) (h_large h).

(** The frames of the other classes and of the large blocks. *)
Definition other_frames (h : heap) (c : Z) : list Z :=
  concat (map (class_frames h) (filter (fun x => x <> c) (up_to 0 KALLOC_CLASS_COUNT 1))) ++ large_frames h.

Lemma filter_ne_id (x : Z) (l : list Z) : x ∉ l -> filter (fun y => y <> x) l = l.
Proof.
  induction l as [|y l IH]; [done|]. intros [Hy Hl]%not_elem_of_cons.
  rewrite filter_cons, decide_True by auto. by rewrite IH.
Qed.

Lemma concat_map_pick (F : Z -> list Z) c l :
  NoDup l -> c ∈ l -> concat (map F l) ≡ₚ F c ++ concat (map F (filter (fun x => x <> c) l)).
Proof.
  induction l as [|x l IH]; intros Hn Hc; [by apply not_elem_of_nil in Hc|].
  apply NoDup_cons in Hn as [Hx Hn]. cbn [map concat]. rewrite filter_cons.
  apply elem_of_cons in Hc as [->|Hc].
  - rewrite decide_False by auto. apply Permutation_app; [done|].
    by rewrite filter_ne_id.
  - rewrite decide_True by (intros ->; done). cbn [map concat].
    rewrite (IH Hn Hc), !app_assoc. by rewrite (Permutation_app_comm (F x)).
Qed.

Lemma concat_map_ext (F G : Z -> list Z) l : (forall x, x ∈ l -> F x = G x) -> concat (map F l) = concat (map G l).
Proof.
  induction l as [|x l IH]; intros H; [done|]. cbn. rewrite H by (by left). f_equal. apply IH.
  intros y Hy. apply H. by right.
Qed.

Lemma class_nodup : NoDup (up_to 0 KALLOC_CLASS_COUNT 1).
Proof. apply (bool_decide_unpack _). reflexivity. Qed.

Lemma class_in c : 0 <= c < KALLOC_CLASS_COUNT -> c ∈ up_to 0 KALLOC_CLASS_COUNT 1.
Proof. intros Hc. apply elem_of_up_to; [lia|]. exists c. lia. Qed.

Lemma set_class_frames h c sl :
  0 <= c < KALLOC_CLASS_COUNT -> heap_frames (set_class h c sl) ≡ₚ map fst sl ++ other_frames h c.
Proof.
  intros Hc. unfold heap_frames, slab_frames, other_frames. rewrite app_assoc.
  apply Permutation_app; [|done].
  rewrite (concat_map_pick _ c) by (apply class_nodup || by apply class_in).
  apply Permutation_app.
  - unfold class_frames, set_class. cbn. by rewrite Z.eqb_refl.
  - rewrite (concat_map_ext _ (class_frames h)); [done|]. intros x Hx.
    apply list_elem_of_filter in Hx as [Hx _]. unfold class_frames, set_class. cbn.
    by rewrite (proj2 (Z.eqb_neq x c)).
Qed.

Lemma heap_frames_class h c :
  0 <= c < KALLOC_CLASS_COUNT -> heap_frames h ≡ₚ class_frames h c ++ other_frames h c.
Proof.
  intros Hc. unfold heap_frames, slab_frames, other_frames. rewrite app_assoc.
  apply Permutation_app; [|done]. apply concat_map_pick; [apply class_nodup|by apply class_in].
Qed.

Lemma other_class_frames h c c' f :
  0 <= c' < KALLOC_CLASS_COUNT -> c' <> c -> f ∈ class_frames h c' -> f ∈ other_frames h c.
Proof.
  intros Hc' Hne Hf. unfold other_frames. apply elem_of_app. left.
  apply list_elem_of_In, in_concat. exists (class_frames h c'). split; [|by apply list_elem_of_In].
  apply in_map, list_elem_of_In, list_elem_of_filter. split; [done|by apply class_in].
Qed.

Lemma large_block_frames h c b f :
  b ∈ h_large h -> f ∈ run_frames b.1.1 b.1.2 -> f ∈ other_frames h c.
Proof.
  intros Hb Hf. unfold other_frames, large_frames. apply elem_of_app. right.
  apply list_elem_of_In, in_concat. eexists; split; [|by apply list_elem_of_In].
  apply (in_map (fun b => run_frames b.1.1 b.1.2)). by apply list_elem_of_In.
Qed.

Lemma run_frames_first f n : 0 < n -> f ∈ run_frames f n.
Proof.
  intros Hn. unfold run_frames. apply list_elem_of_fmap. exists 0. split; [lia|].
  apply elem_of_up_to; [lia|]. exists 0. lia.
Qed.

Section HeapRep.
Context {h : heap} {k : kernel}.
Hypothesis R : heap_rep h k.

Lemma heap_frame f : f ∈ heap_frames h ->
  managed_frame (k_pmm k) f /\ pmm_table (k_pmm k) !! f = Some 1 /\ run_ok f 1.
Proof.
  intros Hf. pose proof (hr_frames _ _ R) as Hall. rewrite Forall_forall in Hall.
  destruct (Hall f Hf) as [Hm Ht]. split_and!; try done.
  destruct (managed_frame_range _ f (hr_pmm _ _ R) Hm) as (H1 & H2 & H3 & H4 & _).
  constructor; pmm_consts; lia.
Qed.

Lemma class_frame c f l : 0 <= c < KALLOC_CLASS_COUNT -> (f, l) ∈ h_slabs h c -> f ∈ heap_frames h.
Proof.
  intros Hc Hin. rewrite (heap_frames_class h c Hc). apply elem_of_app. left.
  apply list_elem_of_fmap. by exists (f, l).
Qed.

Lemma class_frames_nodup c : 0 <= c < KALLOC_CLASS_COUNT -> NoDup (class_frames h c).
Proof.
  intros Hc. pose proof (hr_nodup _ _ R) as Hn. rewrite (heap_frames_class h c Hc) in Hn.
  by apply NoDup_app in Hn as [Hn _].
Qed.

(** There are fewer slabs than rounds in the list walks. *)
Lemma walk_fuel_enough c : 0 <= c < KALLOC_CLASS_COUNT -> (length (h_slabs h c) < walk_fuel)%nat.
Proof.
  intros Hc. replace (length (h_slabs h c)) with (length (class_frames h c)) by (unfold class_frames; apply length_map).
  unfold walk_fuel.
  set (all := map (fun i => PMM_BASE + i * 4096) (seqZ 0 PMM_NUM_FRAMES)).
  assert (length (class_frames h c) <= length all)%nat as Hle.
  { apply NoDup_incl_length; [apply NoDup_ListNoDup; by apply class_frames_nodup|].
    intros f Hf. apply list_elem_of_In in Hf. apply in_map_iff.
    assert (Hh : f ∈ heap_frames h) by (rewrite (heap_frames_class h c Hc); apply elem_of_app; by left).
    destruct (heap_frame f Hh) as (_ & _ & [H1 H2 H3]). exists ((f - PMM_BASE) / 4096).
    unfold PMM_SIZE, PMM_NUM_FRAMES, PMM_FRAME_SIZE in *. split.
    - pmm_consts. dlia.
    - apply list_elem_of_In, elem_of_seqZ. pmm_consts. dlia. }
  unfold all in Hle. rewrite length_map, length_seqZ in Hle. lia.
Qed.
End HeapRep.

Lemma slabs_rep_at mem c pre f l post :
  slabs_rep mem c (pre ++ (f, l) :: post) -> slab_rep mem c f l (head_ptr post).
Proof. induction pre as [|s pre IH]; cbn; [by intros []|]. intros [_ H]. by apply IH. Qed.

Lemma head_ptr_app pre f l l' post : head_ptr (pre ++ (f, l) :: post) = head_ptr (pre ++ (f, l') :: post).
Proof. by destruct pre. Qed.

(** Changing the page of one slab of the list. *)
Lemma slabs_rep_update mem mem' c pre f l l' post :
  NoDup (map fst (pre ++ (f, l) :: post)) ->
  (forall g i, g <> f -> g ∈ map fst (pre ++ (f, l) :: post) -> mem' g i = mem g i) ->
  slabs_rep mem c (pre ++ (f, l) :: post) ->
  slab_rep mem' c f l' (head_ptr post) ->
  slabs_rep mem' c (pre ++ (f, l') :: post).
Proof.
  induction pre as [|s pre IH]; cbn; intros Hn Hm Hr Hs; apply NoDup_cons in Hn as [Hx Hn]; destruct Hr as [Hr1 Hr2].
  - split; [done|]. eapply slabs_rep_ext; [|done]. intros g i Hg. apply Hm; [|by right].
    intros ->. done.
  - assert (s.1 <> f).
    { intros E. apply Hx. rewrite E. rewrite map_app. apply elem_of_app. right. by left. }
    split.
    + rewrite (head_ptr_app pre f l' l post). eapply slab_rep_ext; [|done]. intros i. apply Hm; [done|by left].
    + apply IH; try done. intros g i Hg Hin. apply Hm; [done|by right].
Qed.

(** Taking a slab out of the list: the predecessor points past it. *)
Lemma head_ptr_nonzero sl : sl <> [] -> Forall (fun s => run_ok s.1 1) sl -> head_ptr sl <> 0.
Proof.
  intros Hne Hall. destruct sl as [|s sl]; [done|]. inversion Hall as [|? ? [H1 H2 H3] _]; subst.
  cbn. unfold alias. paging_consts. lia.
Qed.

Lemma alias_inj f g : alias f = alias g -> f = g.
Proof. unfold alias. lia. Qed.

(** The search for a slab with a free slot. *)
Lemma find_slab_runs fuel c sl k :
  slabs_rep (k_mem k) c sl -> Forall (fun s => run_ok s.1 1) sl -> (length sl < fuel)%nat ->
  runs (find_slab fuel (head_ptr sl)) k (fun p k' => k' = k
    /\ ((p = 0 /\ Forall (fun s => s.2 = []) sl)
        \/ exists pre f i l post, sl = pre ++ (f, i :: l) :: post /\ p = alias f)).
Proof.
  revert sl. induction fuel as [|fuel IH]; intros sl Hr Hok Hf; [lia|]. cbn [find_slab].
  destruct sl as [|[f l] sl].
  - apply runs_ret. split; [done|]. left. by split.
  - pose proof (head_ptr_nonzero ((f, l) :: sl) ltac:(done) Hok) as Hnz. cbn [head_ptr fst] in Hnz |- *.
    rewrite (proj2 (Z.eqb_neq _ _) Hnz).
    inversion Hok as [|? ? Hf1 Hok']; subst. cbn in Hf1. destruct Hr as [Hs Hr]. cbn in Hs.
    apply runs_bind. eapply (load_page f _ _ 4); [done|unfold SLAB_free_blocks; lia|lia|].
    rewrite (sr_free _ _ _ _ _ Hs). destruct (Z.eqb_spec (zlen l) 0) as [E|E]; cbn [negb].
    + apply runs_bind. eapply (load_page f _ _ 6); [done|unfold SLAB_next; lia|lia|].
      rewrite (sr_next _ _ _ _ _ Hs).
      eapply runs_mono; [apply IH; [done|done|cbn in Hf; lia]|].
      intros p k' (-> & [[-> Hall]|(pre & g & i & l' & post & -> & ->)]).
      * split; [done|]. left. split; [done|]. constructor; [|done]. cbn. destruct l; [done|]. unfold zlen in E. cbn in E. lia.
      * split; [done|]. right. exists ((f, l) :: pre), g, i, l', post. done.
    + apply runs_ret. split; [done|]. right. destruct l as [|i l]; [by destruct E|]. by exists [], f, i, l, sl.
Qed.
