(* ===== verification/KallocOps.v ===== *)
(** * Kernel allocator: operations

    Total-correctness lemmas of the operations of [Kalloc.v] against the representation
    of [KallocRep.v]. *)
From S2P Require Import Prelude BootInfo Pmm Memory Paging AddressSpace Kalloc KallocRep.
From Stdlib Require Import ZArith Lia ZifyBool Bool.
From stdpp Require Import base numbers gmap list.
Local Open Scope Z_scope.
Local Open Scope kernel_scope.

Ltac slab_consts := unfold SLAB_magic, SLAB_class_index, SLAB_block_size, SLAB_total_blocks,
  SLAB_free_blocks, SLAB_free_list, SLAB_next, LARGE_magic, LARGE_frames, LARGE_size in *.

(** ** Clearing words *)

Definition cleared (f o n : Z) (mem mem' : Z -> Z -> Z) : Prop :=
  (forall x, o <= x < o + n -> mem' (f + 4096 * (x / 1024)) (x mod 1024) = 0)
  /\ (forall g w, (forall x, o <= x < o + n -> ~ (g = f + 4096 * (x / 1024) /\ w = x mod 1024)) ->
        mem' g w = mem g w).

Lemma zero_words_runs f n ptr o cnt k (Q : unit -> kernel -> Prop) :
  run_ok f n -> ptr = alias f + 4 * o -> 0 <= o -> 0 <= cnt -> o + cnt <= n * 1024 ->
  (forall mem', cleared f o cnt (k_mem k) mem' -> Q tt (with_mem mem' k)) ->
  runs (zero_words ptr (4 * cnt)) k Q.
Proof.
  intros Hr -> Ho Hc Hle HQ. unfold zero_words. rewrite (Z.mul_comm 4 cnt), Z.div_mul by lia.
  apply (runs_for_each (fun i k' => exists mem', k' = with_mem mem' k /\ cleared f o i (k_mem k) mem')).
  - lia.
  - exists (k_mem k). split; [by destruct k as [[] ? ?]|]. split; [lia|done].
  - intros i k' Hi (mem' & -> & H1 & H2). eapply (store_word f n Hr _ _ (o + i)); [lia|lia|].
    eexists. split; [by destruct k as [[] ? ?]|]. cbn. split.
    + intros x Hx. destruct (decide (x = o + i)) as [->|Hne]; [apply mem_write_eq|].
      rewrite mem_write_ne; [apply H1; lia|]. dlia.
    + intros g w Hgw. rewrite mem_write_ne.
      * apply H2. intros x Hx. apply Hgw. lia.
      * specialize (Hgw (o + i) ltac:(lia)). destruct (decide (g = f + 4096 * ((o + i) / 1024))); [right|by left].
        intros ->. by apply Hgw.
  - intros k' (mem' & -> & Hcl). by apply HQ.
Qed.

(** The part of [cleared] a single page needs. *)
Lemma cleared_page f o n mem mem' :
  0 <= o -> o + n <= 1024 -> cleared f o n mem mem' ->
  (forall x, o <= x < o + n -> mem' f x = 0)
  /\ (forall x, x < o \/ o + n <= x -> mem' f x = mem f x)
  /\ (forall g x, g <> f -> mem' g x = mem g x).
Proof.
  intros Ho Hle [H1 H2]. split_and!.
  - intros x Hx. specialize (H1 x Hx). rewrite Z.div_small, Z.mod_small in H1 by lia.
    by rewrite Z.mul_0_r, Z.add_0_r in H1.
  - intros x Hx. apply H2. intros y Hy [_ ->]. rewrite Z.mod_small in Hx by lia. lia.
  - intros g x Hg. apply H2. intros y Hy [-> _]. apply Hg. rewrite Z.div_small by lia. lia.
Qed.

(** ** Taking a slot *)

Lemma slots_bound t l : 0 <= t -> NoDup l -> Forall (fun i => 0 <= i < t) l -> zlen l <= t.
Proof.
  intros Ht Hn Hall. assert (length l <= length (seqZ 0 t))%nat as Hle.
  { apply NoDup_incl_length; [by apply NoDup_ListNoDup|]. intros x Hx.
    apply list_elem_of_In, elem_of_seqZ. apply list_elem_of_In in Hx.
    rewrite Forall_forall in Hall. specialize (Hall x Hx). cbn in Hall. lia. }
  rewrite length_seqZ in Hle. unfold zlen. lia.
Qed.

Lemma first_free_eq f c i l : first_free f c (i :: l) = slot_ptr f c i.
Proof. done. Qed.

Definition stats_only (k k' : kernel) : Prop := k_machine k' = k_machine k /\ s_slabs k' = s_slabs k.

Lemma take_slot_runs c f i l next k (Q : Z -> kernel -> Prop) :
  0 <= c < KALLOC_CLASS_COUNT -> run_ok f 1 -> slab_rep (k_mem k) c f (i :: l) next ->
  (forall k', k_pmm k' = k_pmm k -> s_slabs k' = s_slabs k ->
     (forall g w, g <> f -> k_mem k' g w = k_mem k g w) ->
     (forall j, 0 <= j < class_size c / 4 -> k_mem k' f (slot_word c i + j) = 0) ->
     (forall w, 7 <= w -> (w < slot_word c i \/ slot_word c i + class_size c / 4 <= w) ->
        k_mem k' f w = k_mem k f w) ->
     slab_rep (k_mem k') c f l next -> Q (slot_ptr f c i) k') ->
  runs (take_slot (alias f)) k Q.
Proof.
  intros Hc Hf [Hm Hcl Hsz Ht Hfr Hh Hn [Hch1 Hch2] Hnd Hall] HQ.
  apply NoDup_cons in Hnd as [Hi Hnd]. pose proof (Forall_cons_1 _ _ _ Hall) as [Hir Hall'].
  destruct (slot_word_range c i Hc Hir) as [Hw1 Hw2]. destruct (class_facts c Hc) as (Hs & Hmod & Htot & Hfit).
  assert (Hq : 4 <= class_size c / 4) by dlia.
  unfold take_slot. apply runs_bind. eapply (load_page f _ _ 5); [done|unfold SLAB_free_list; lia|lia|].
  rewrite Hh, first_free_eq. apply runs_bind.
  eapply (load_page f _ _ (slot_word c i)); [done|unfold slot_ptr; lia|lia|]. rewrite Hch1.
  apply runs_bind. eapply (store_page f _ _ 5); [done|unfold SLAB_free_list; lia|lia|].
  apply runs_bind. eapply (load_page f _ _ 4); [done|unfold SLAB_free_blocks; lia|lia|].
  cbn. rewrite mem_write_ne by lia. rewrite Hfr.
  apply runs_bind. eapply (store_page f _ _ 4); [done|unfold SLAB_free_blocks; lia|lia|].
  apply runs_bind. eapply (load_page f _ _ 2); [done|unfold SLAB_block_size; lia|lia|].
  cbn. rewrite !mem_write_ne by lia. rewrite Hsz. apply runs_bind, runs_modify.
  apply runs_bind. replace (zero_words (slot_ptr f c i) (class_size c))
    with (zero_words (slot_ptr f c i) (4 * (class_size c / 4))) by (f_equal; dlia).
  eapply (zero_words_runs f 1 _ (slot_word c i)); [done|done|lia|dlia|lia|].
  intros mem' Hcl'. cbn in Hcl'. apply (cleared_page f (slot_word c i)) in Hcl' as (Z1 & Z2 & Z3); [|lia|lia].
  apply runs_ret.
  assert (Hlen : u32 (zlen (i :: l) - 1) = zlen l).
  { pose proof (slots_bound (total_blocks c) (i :: l) ltac:(lia) ltac:(by apply NoDup_cons) Hall).
    unfold zlen in *. cbn [length] in *. rewrite u32_small; lia. }
  apply HQ; cbn; try done.
  - intros g w Hg. rewrite Z3 by done. rewrite !mem_write_ne by auto. done.
  - intros j Hj. apply Z1. lia.
  - intros w Hw Hout. rewrite Z2 by done. rewrite !mem_write_ne by lia. done.
  - constructor; try done; rewrite ?Z2 by lia; rewrite ?mem_write_eq; rewrite ?mem_write_ne by lia; try done.
    + by rewrite mem_write_eq.
    + eapply free_chain_ext; [|done]. intros j Hj. rewrite Forall_forall in Hall'. specialize (Hall' j Hj).
      destruct (slot_word_range c j Hc Hall') as [Hj1 Hj2].
      assert (j <> i) by (intros ->; done).
      assert (slot_word c j < slot_word c i \/ slot_word c i + class_size c / 4 <= slot_word c j).
      { unfold slot_word in *. nia. }
      rewrite Z2 by done. by rewrite !mem_write_ne by lia.
Qed.

(** ** A new slab *)

Definition all_slots (c : Z) : list Z := reverse (up_to 0 (total_blocks c) 1).

Lemma rev_up_to_snoc n : 0 <= n -> reverse (up_to 0 (n + 1) 1) = n :: reverse (up_to 0 n 1).
Proof. intros Hn. rewrite up_to_snoc by done. apply reverse_snoc. Qed.

Lemma rev_up_to_range n : Forall (fun i => 0 <= i < n) (reverse (up_to 0 n 1)).
Proof.
  apply Forall_forall. intros i Hi. apply elem_of_reverse, elem_of_up_to in Hi as (j & ? & -> & ?); lia.
Qed.

Lemma rev_up_to_nodup n : NoDup (reverse (up_to 0 n 1)).
Proof.
  rewrite reverse_Permutation. unfold up_to. apply NoDup_fmap_2; [intros x y; lia|].
  apply NoDup_seqZ.
Qed.

Lemma zlen_rev_up_to n : 0 <= n -> zlen (reverse (up_to 0 n 1)) = n.
Proof.
  intros Hn. unfold zlen. rewrite length_reverse. unfold up_to. rewrite length_fmap, length_seqZ, Z.div_1_r. lia.
Qed.

(** The header of a new slab, with [i] slots put in its free list so far. *)
Record slab_filling (mem : Z -> Z -> Z) (c f i next : Z) : Prop := SlabFilling {
  sf_magic : mem f 0 = KALLOC_SLAB_MAGIC;
  sf_class : mem f 1 = c;
  sf_size : mem f 2 = class_size c;
  sf_total : mem f 3 = total_blocks c;
  sf_free : mem f 4 = total_blocks c;
  sf_head : mem f 5 = first_free f c (reverse (up_to 0 i 1));
  sf_next : mem f 6 = next;
  sf_chain : free_chain mem f c (reverse (up_to 0 i 1))
}.

Lemma fill_runs c f next k (Q : unit -> kernel -> Prop) :
  0 <= c < KALLOC_CLASS_COUNT -> run_ok f 1 -> slab_filling (k_mem k) c f 0 next ->
  (forall mem', slab_filling mem' c f (total_blocks c) next ->
     (forall g w, g <> f -> mem' g w = k_mem k g w) -> Q tt (with_mem mem' k)) ->
  runs (for_each (up_to 0 (total_blocks c) 1) (fun i =>
    let slot := u32 (alias f + 28 + i * class_size c) in
    head <- on_machine (read_word (alias f) SLAB_free_list) ;;
    on_machine (write_word slot 0 head) ;;;
    on_machine (write_word (alias f) SLAB_free_list slot))) k Q.
Proof.
  intros Hc Hf H0 HQ. destruct (class_facts c Hc) as (Hs & Hmod & Htot & Hfit).
  assert (Hq : 4 <= class_size c / 4) by dlia.
  apply (runs_for_each (fun i k' => exists mem', k' = with_mem mem' k /\ slab_filling mem' c f i next
    /\ forall g w, g <> f -> mem' g w = k_mem k g w)).
  - lia.
  - exists (k_mem k). split; [by destruct k as [[] ? ?]|done].
  - intros i k' Hi (mem' & -> & [Hm Hcl Hsz Ht Hfr Hh Hn Hch] & Hout).
    destruct (slot_word_range c i Hc Hi) as [Hw1 Hw2].
    assert (Hslot : u32 (alias f + 28 + i * class_size c) = slot_ptr f c i).
    { unfold slot_ptr, slot_word. assert (class_size c = 4 * (class_size c / 4)) by dlia.
      pose proof Hf as [Ha Hl Hhi]. rewrite u32_small; [lia|]. unfold alias. paging_consts. nia. }
    cbv zeta. rewrite Hslot. apply runs_bind.
    eapply (load_page f _ _ 5); [done|unfold SLAB_free_list; lia|lia|].
    change (k_mem (with_mem mem' k)) with mem'. rewrite Hh.
    apply runs_bind. eapply (store_page f _ _ (slot_word c i)); [done|unfold slot_ptr; lia|lia|].
    eapply (store_page f _ _ 5); [done|unfold SLAB_free_list; lia|lia|].
    eexists. split; [by destruct k as [[] ? ?]|]. cbn. split.
    + constructor; rewrite ?rev_up_to_snoc by lia; rewrite ?mem_write_eq;
        rewrite ?mem_write_ne by lia; try done.
      split; [by rewrite mem_write_ne, mem_write_eq by lia|].
      eapply free_chain_ext; [|done]. intros j Hj. pose proof (rev_up_to_range i) as Hall.
      rewrite Forall_forall in Hall. specialize (Hall j Hj). cbn in Hall.
      destruct (slot_word_range c j Hc) as [Hj1 Hj2]; [lia|].
      rewrite !mem_write_ne; [done|unfold slot_word in *; nia|lia].
    + intros g w Hg. rewrite !mem_write_ne by auto. by apply Hout.
  - intros k' (mem' & -> & Hfill & Hout). by apply HQ.
Qed.

Lemma filling_done mem c f next :
  0 <= c < KALLOC_CLASS_COUNT -> slab_filling mem c f (total_blocks c) next -> slab_rep mem c f (all_slots c) next.
Proof.
  intros Hc []. destruct (class_facts c Hc) as (_ & _ & Htot & _).
  constructor; try done; unfold all_slots; [by rewrite zlen_rev_up_to by lia|apply rev_up_to_nodup|apply rev_up_to_range].
Qed.

Lemma zero_page_k f k (Q : unit -> kernel -> Prop) :
  run_ok f 1 -> Q tt (with_mem (mem_zero_page f (k_mem k)) k) -> runs (on_machine (zero_page (alias f))) k Q.
Proof.
  intros [Ha Hl Hh] HQ. apply runs_on_machine. apply (runs_zero (alias f) f); [|done].
  apply kptr_alias; [|done]. unfold paging_phys_is_pmm_frame. paging_consts. lia.
Qed.

Lemma phys_to_virt_k f k (Q : Z -> kernel -> Prop) :
  run_ok f 1 -> Q (alias f) k -> runs (on_machine (paging_phys_to_kernel_virt f)) k Q.
Proof.
  intros [Ha Hl Hh] HQ. apply runs_on_machine. rewrite phys_to_virt_alias; [apply runs_ret; by destruct k|].
  unfold paging_phys_is_pmm_frame. paging_consts. lia.
Qed.

Lemma virt_to_phys_k f k (Q : Z -> kernel -> Prop) :
  run_ok f 1 -> Q f k -> runs (on_machine (paging_kernel_virt_to_phys (alias f))) k Q.
Proof.
  intros [Ha Hl Hh] HQ. apply runs_on_machine. unfold paging_kernel_virt_to_phys, paging_virt_is_pmm_alias, alias.
  paging_consts. rewrite (proj2 (andb_true_iff _ _)) by lia. cbn [negb]. apply runs_ret.
  rewrite (u32_small (_ - _)) by lia. rewrite u32_small by lia.
  replace (2097152 + (3758096384 + (f - 2097152) - 3758096384)) with f by lia. by destruct k.
Qed.

Lemma slab_create_runs c k (Q : Z -> kernel -> Prop) :
  0 <= c < KALLOC_CLASS_COUNT -> pmm_wf (k_pmm k) -> zlen (s_slabs k) = KALLOC_CLASS_COUNT ->
  (s_free_count (k_pmm k) = 0 -> Q 0 k) ->
  (forall a p' k', managed_frame (k_pmm k) a -> pmm_table (k_pmm k) !! a = None -> run_ok a 1 ->
     k_pmm k' = p' -> pmm_table p' = <[a := 1]> (pmm_table (k_pmm k)) -> same_window (k_pmm k) p' -> pmm_wf p' ->
     s_slabs k' = zset (s_slabs k) c (alias a) ->
     (forall g w, g <> a -> k_mem k' g w = k_mem k g w) ->
     slab_rep (k_mem k') c a (all_slots c) (zget 0 (s_slabs k) c) -> Q (alias a) k') ->
  runs (slab_create c) k Q.
Proof.
  intros Hc Hp Hz H0 HQ. unfold slab_create. apply runs_bind, runs_on_machine, runs_lift.
  destruct (Z.eqb_spec (s_free_count (k_pmm k)) 0) as [E|E].
  - unfold k_pmm in *. rewrite pmm_alloc_frame_none by done. cbn. apply runs_ret.
    specialize (H0 E). by destruct k as [[[] ? ? ?] ? ?].
  - pose proof (free_count_bounds _ Hp). destruct (alloc_refs (k_pmm k) Hp ltac:(lia))
      as (a & q & Ea & Hne & Hm & Hn & Ht & _ & Hw & Hq & Hpmm & Hal & Hr).
    assert (Hok : run_ok a 1).
    { destruct (managed_frame_range _ a Hp Hm) as (H1 & H2 & H3 & H4 & _). constructor; pmm_consts; lia. }
    unfold k_pmm in Ea. rewrite Ea. cbn [fst snd]. rewrite (proj2 (Z.eqb_neq a 0)) by done.
    apply runs_bind, phys_to_virt_k; [done|]. change (align_up SIZEOF_SLAB 4) with 28. cbv zeta.
    change ((PAGE_SIZE - 28) / class_size c) with (total_blocks c).
    apply runs_bind, zero_page_k; [done|].
    do 5 (apply runs_bind; eapply (store_page a); [done|reflexivity|slab_consts; lia|]).
    apply runs_bind, runs_gets. apply runs_bind. eapply (store_page a); [done|reflexivity|slab_consts; lia|].
    apply runs_bind, runs_modify. apply runs_bind. eapply (store_page a); [done|reflexivity|slab_consts; lia|].
    apply runs_bind. eapply (fill_runs c a (zget 0 (s_slabs k) c)); [done|done| |].
    + cbn. slab_consts. constructor; rewrite ?mem_write_ne by lia; by rewrite ?mem_write_eq.
    + intros mem' Hfill Hout. apply runs_bind, runs_modify, runs_ret.
      eapply HQ; cbn; try done.
      * intros g w Hg. rewrite Hout by done. cbn. rewrite !mem_write_ne by auto.
        unfold mem_zero_page. by rewrite (proj2 (Z.eqb_neq g a)).
      * by apply filling_done.
Qed.
