(* ===== verification/KallocProps.v ===== *)
(** * Kernel allocator: correctness

    [kalloc] hands out zeroed blocks that overlap no live block, [kfree] returns them,
    and neither touches the contents of other blocks or memory outside of the heap. *)
From S2P Require Import Prelude BootInfo Pmm Memory Paging AddressSpace Kalloc KallocRep KallocOps.
From Stdlib Require Import ZArith Lia ZifyBool Bool.
From stdpp Require Import base numbers gmap list.
Local Open Scope Z_scope.
Local Open Scope kernel_scope.

(** What one step of the heap may change. *)
Record heap_step (h h' : heap) (k k' : kernel) : Prop := HeapStep {
  hs_live : forall p n, live h p n -> live h' p n -> block_words (k_mem k') p n = block_words (k_mem k) p n;
  hs_mem : forall g w, g ∉ heap_frames h -> g ∉ heap_frames h' -> k_mem k' g w = k_mem k g w;
  hs_pmm : forall g, g ∉ heap_frames h -> g ∉ heap_frames h' ->
    pmm_table (k_pmm k') !! g = pmm_table (k_pmm k) !! g;
  hs_fresh : forall g, g ∈ heap_frames h' -> g ∉ heap_frames h -> pmm_table (k_pmm k) !! g = None;
  hs_freed : forall g, g ∈ heap_frames h -> g ∉ heap_frames h' -> pmm_table (k_pmm k') !! g = None;
  hs_window : same_window (k_pmm k) (k_pmm k')
}.

(** ** Contents of blocks *)

Lemma word_run mem f n o :
  run_ok f n -> 0 <= o < n * 1024 -> word mem (alias f + 4 * o) = mem (f + 4096 * (o / 1024)) (o mod 1024).
Proof.
  intros Hr Ho. pose proof (run_word f n o Hr Ho) as Hw. cbv zeta in Hw. unfold word.
  assert (E : u32 (alias f + 4 * o) = alias f + 4 * o).
  { destruct Hr as [Ha Hl Hh]. apply u32_small. unfold alias. paging_consts. lia. }
  rewrite E in Hw. by destruct Hw as [-> ->].
Qed.

Lemma word_page mem f o : run_ok f 1 -> 0 <= o < 1024 -> word mem (alias f + 4 * o) = mem f o.
Proof.
  intros Hr Ho. rewrite (word_run mem f 1) by (done || lia). rewrite Z.div_small, Z.mod_small by lia.
  by rewrite Z.mul_0_r, Z.add_0_r.
Qed.

Lemma block_words_ext mem mem' p n :
  (forall j, 0 <= j < n / 4 -> word mem' (p + 4 * j) = word mem (p + 4 * j)) ->
  block_words mem' p n = block_words mem p n.
Proof.
  intros H. unfold block_words. apply map_ext_in. intros j Hj. apply H.
  apply list_elem_of_In, elem_of_up_to in Hj as (x & ? & -> & ?); lia.
Qed.

Lemma slot_block_ext mem mem' c f i :
  0 <= c < KALLOC_CLASS_COUNT -> run_ok f 1 -> 0 <= i < total_blocks c ->
  (forall j, 0 <= j < class_size c / 4 -> mem' f (slot_word c i + j) = mem f (slot_word c i + j)) ->
  block_words mem' (slot_ptr f c i) (class_size c) = block_words mem (slot_ptr f c i) (class_size c).
Proof.
  intros Hc Hf Hi H. destruct (slot_word_range c i Hc Hi) as [H1 H2]. apply block_words_ext. intros j Hj.
  unfold slot_ptr. replace (alias f + 4 * slot_word c i + 4 * j) with (alias f + 4 * (slot_word c i + j)) by lia.
  rewrite !word_page by (done || lia). by apply H.
Qed.

Lemma large_block_ext mem mem' f n :
  run_ok f n -> 0 < n -> (forall g w, g ∈ run_frames f n -> (g = f -> 3 <= w) -> mem' g w = mem g w) ->
  block_words mem' (alias f + 12) (n * 4096 - 12) = block_words mem (alias f + 12) (n * 4096 - 12).
Proof.
  intros Hf Hn H. apply block_words_ext. intros j Hj.
  replace (alias f + 12 + 4 * j) with (alias f + 4 * (3 + j)) by lia.
  rewrite !(word_run _ f n) by (done || dlia). apply H.
  - unfold run_frames. apply list_elem_of_fmap. exists ((3 + j) / 1024). split; [done|].
    apply elem_of_up_to; [lia|]. exists ((3 + j) / 1024). dlia.
  - intros E. dlia.
Qed.

(** ** Live blocks *)

Lemma large_in_heap h b g : b ∈ h_large h -> g ∈ run_frames b.1.1 b.1.2 -> g ∈ heap_frames h.
Proof.
  intros Hb Hg. unfold heap_frames, large_frames. apply elem_of_app. right. apply list_elem_of_In, in_concat.
  exists (run_frames b.1.1 b.1.2). split; [|by apply list_elem_of_In].
  apply (in_map (fun b => run_frames b.1.1 b.1.2)). by apply list_elem_of_In.
Qed.

Section Live.
Context {h : heap} {k : kernel}.
Hypothesis R : heap_rep h k.

Lemma slab_unique c c' f l l' :
  0 <= c < KALLOC_CLASS_COUNT -> 0 <= c' < KALLOC_CLASS_COUNT ->
  (f, l) ∈ h_slabs h c -> (f, l') ∈ h_slabs h c' -> c' = c /\ l' = l.
Proof.
  intros Hc Hc' Hl Hl'. assert (Hin : f ∈ class_frames h c) by (apply list_elem_of_fmap; by exists (f, l)).
  assert (Hin' : f ∈ class_frames h c') by (apply list_elem_of_fmap; by exists (f, l')).
  destruct (decide (c' = c)) as [->|Hne].
  - split; [done|]. pose proof (class_frames_nodup R c Hc) as Hn.
    apply list_elem_of_lookup in Hl as [x Hx]. apply list_elem_of_lookup in Hl' as [y Hy].
    assert (x = y) as ->.
    { eapply (NoDup_lookup _ x y f Hn); unfold class_frames; rewrite list_lookup_fmap; [by rewrite Hx|by rewrite Hy]. }
    congruence.
  - exfalso. pose proof (hr_nodup _ _ R) as Hn. rewrite (heap_frames_class h c Hc) in Hn.
    apply NoDup_app in Hn as (_ & Hd & _). apply (Hd f Hin). by eapply other_class_frames.
Qed.

Lemma large_run b : b ∈ h_large h -> run_ok b.1.1 b.1.2 /\ 0 < b.1.2.
Proof.
  intros Hb. pose proof (hr_large _ _ R) as Hall. rewrite Forall_forall in Hall.
  destruct (Hall b Hb) as (Hn & _). split; [|done].
  assert (Hfr : forall i, 0 <= i < b.1.2 -> run_ok (b.1.1 + 4096 * i) 1).
  { intros i Hi. apply (heap_frame R), (large_in_heap h b _ Hb). unfold run_frames. apply list_elem_of_fmap.
    exists i. split; [done|]. apply elem_of_up_to; [lia|]. exists i. lia. }
  destruct (Hfr 0 ltac:(lia)) as [H1 H2 _]. destruct (Hfr (b.1.2 - 1) ltac:(lia)) as [_ _ H3].
  constructor; [|lia|lia]. by rewrite Z.mul_0_r, Z.add_0_r in H1.
Qed.

Lemma slot_frame c f i g x :
  0 <= c < KALLOC_CLASS_COUNT -> 0 <= i < total_blocks c -> run_ok f 1 -> run_ok g 1 -> 0 <= x < 4096 ->
  slot_ptr f c i = alias g + x -> g = f /\ x = 4 * slot_word c i.
Proof.
  intros Hc Hi [Ha _ _] [Hb _ _] Hx E. destruct (slot_word_range c i Hc Hi) as [H1 H2].
  destruct (class_facts c Hc) as (Hs & _). assert (0 < class_size c / 4) by dlia.
  unfold slot_ptr, alias in E. paging_consts. dlia.
Qed.

(** A slot on a free list is not the address of a live block. *)
Lemma free_not_live c f i l n :
  0 <= c < KALLOC_CLASS_COUNT -> (f, l) ∈ h_slabs h c -> 0 <= i < total_blocks c -> i ∈ l ->
  ~ live h (slot_ptr f c i) n.
Proof.
  intros Hc Hin Hi Hl Hlive. pose proof (class_frame c f l Hc Hin) as Hf.
  destruct (heap_frame R f Hf) as (_ & _ & Hrf). remember (slot_ptr f c i) as p eqn:Hp.
  destruct Hlive as [c' g l' j Hc' Hin' Hj Hl'|g m sz Hin'].
  - pose proof (class_frame c' g l' Hc' Hin') as Hg. destruct (heap_frame R g Hg) as (_ & _ & Hrg).
    destruct (slot_word_range c' j Hc' Hj) as [H1 H2]. destruct (class_facts c' Hc') as (Hs & _).
    assert (0 < class_size c' / 4) by dlia.
    destruct (slot_frame c f i g (4 * slot_word c' j) Hc Hi Hrf Hrg) as [-> E]; [lia|by rewrite <- Hp|].
    destruct (slab_unique c c' f l l' Hc Hc' Hin Hin') as [-> ->].
    destruct (class_facts c Hc) as (Hs' & _). assert (0 < class_size c / 4) by dlia.
    assert (j = i) as -> by (unfold slot_word in E; nia). done.
  - destruct (large_run _ Hin') as [Hrun Hm]. cbn in Hrun, Hm.
    assert (Hrg : run_ok g 1) by (destruct Hrun; constructor; lia).
    destruct (slot_frame c f i g 12 Hc Hi Hrf Hrg) as [-> _]; [lia|done|].
    pose proof (hr_nodup _ _ R) as Hn. rewrite (heap_frames_class h c Hc) in Hn.
    apply NoDup_app in Hn as (_ & Hd & _). apply (Hd f).
    + apply list_elem_of_fmap. by exists (f, l).
    + eapply large_block_frames; [exact Hin'|]. by apply run_frames_first.
Qed.

(** Replacing the slabs of class [c] by [sl]. *)
Lemma rep_class c sl k' :
  0 <= c < KALLOC_CLASS_COUNT -> pmm_wf (k_pmm k') -> zlen (s_slabs k') = KALLOC_CLASS_COUNT ->
  zget 0 (s_slabs k') c = head_ptr sl -> (forall c', 0 <= c' -> c' <> c -> zget 0 (s_slabs k') c' = zget 0 (s_slabs k) c') ->
  slabs_rep (k_mem k') c sl -> (forall g w, g ∈ other_frames h c -> k_mem k' g w = k_mem k g w) ->
  NoDup (map fst sl ++ other_frames h c) ->
  Forall (fun f => managed_frame (k_pmm k') f /\ pmm_table (k_pmm k') !! f = Some 1) (map fst sl ++ other_frames h c) ->
  heap_rep (set_class h c sl) k'.
Proof.
  intros Hc Hp Hlen Hhd Hoth Hsl Hmem Hnd Hfr. pose proof (set_class_frames h c sl Hc) as Hperm. constructor.
  - done.
  - intros c' Hc'. unfold set_class. cbn. destruct (Z.eqb_spec c' c) as [->|E]; [done|].
    rewrite Hoth by (done || lia). by apply (hr_heads _ _ R).
  - done.
  - intros c' Hc'. unfold set_class. cbn. destruct (Z.eqb_spec c' c) as [->|E]; [done|].
    eapply slabs_rep_ext; [|by apply (hr_slabs _ _ R)]. intros f i Hf. apply Hmem.
    by eapply other_class_frames.
  - pose proof (hr_large _ _ R) as Hl. rewrite Forall_forall in Hl |- *. intros b Hb.
    destruct (Hl b Hb) as (Hn & H1 & H2 & H3).
    assert (Hin : b.1.1 ∈ other_frames h c) by (eapply large_block_frames; [exact Hb|by apply run_frames_first]).
    rewrite !Hmem by done. done.
  - by rewrite Hperm.
  - by rewrite Hperm.
Qed.

Lemma class_size_inj c c' :
  0 <= c < KALLOC_CLASS_COUNT -> 0 <= c' < KALLOC_CLASS_COUNT -> class_size c = class_size c' -> c = c'.
Proof.
  unfold KALLOC_CLASS_COUNT. intros H H' E.
  assert (c = 0 \/ c = 1 \/ c = 2 \/ c = 3 \/ c = 4 \/ c = 5) as Hc by lia.
  assert (c' = 0 \/ c' = 1 \/ c' = 2 \/ c' = 3 \/ c' = 4 \/ c' = 5) as Hc' by lia.
  destruct_or! Hc; destruct_or! Hc'; subst; vm_compute in E; congruence.
Qed.

Lemma step_class c sl k' :
  0 <= c < KALLOC_CLASS_COUNT -> Forall (fun f => run_ok f 1) (map fst sl) ->
  (forall g w, g ∈ other_frames h c -> k_mem k' g w = k_mem k g w) ->
  (forall f l l' i, (f, l) ∈ h_slabs h c -> (f, l') ∈ sl -> 0 <= i < total_blocks c -> i ∉ l -> i ∉ l' ->
     forall j, 0 <= j < class_size c / 4 -> k_mem k' f (slot_word c i + j) = k_mem k f (slot_word c i + j)) ->
  (forall g w, g ∉ class_frames h c -> g ∉ map fst sl -> k_mem k' g w = k_mem k g w) ->
  (forall g, g ∉ class_frames h c -> g ∉ map fst sl ->
    pmm_table (k_pmm k') !! g = pmm_table (k_pmm k) !! g) ->
  (forall g, g ∈ map fst sl -> g ∉ heap_frames h -> pmm_table (k_pmm k) !! g = None) ->
  (forall g, g ∈ class_frames h c -> g ∉ map fst sl -> pmm_table (k_pmm k') !! g = None) ->
  same_window (k_pmm k) (k_pmm k') -> heap_step h (set_class h c sl) k k'.
Proof.
  intros Hc Hok Hmem Hslot Hrest Hpmm Hfresh Hfreed Hw.
  assert (Hsplit : forall g, g ∉ heap_frames h -> g ∉ heap_frames (set_class h c sl) ->
    (g ∉ class_frames h c) /\ g ∉ map fst sl).
  { intros g Hg Hg'. rewrite (heap_frames_class h c Hc) in Hg. rewrite (set_class_frames h c sl Hc) in Hg'.
    split; intros Hin; [apply Hg|apply Hg']; apply elem_of_app; by left. }
  constructor; [|intros g w H1 H2; apply Hrest; by apply Hsplit
    |intros g H1 H2; apply Hpmm; by apply Hsplit| | |done].
  2:{ intros g Hg Hng. apply Hfresh; [|done]. rewrite (set_class_frames h c sl Hc) in Hg.
      apply elem_of_app in Hg as [|Hg]; [done|]. exfalso. apply Hng. rewrite (heap_frames_class h c Hc).
      apply elem_of_app. by right. }
  2:{ intros g Hg Hng. rewrite (set_class_frames h c sl Hc) in Hng. apply not_elem_of_app in Hng as [Hn1 Hn2].
      apply Hfreed; [|done]. rewrite (heap_frames_class h c Hc) in Hg. by apply elem_of_app in Hg as [|]. }
  intros p n Hl Hl'. destruct Hl as [c1 f l i Hc1 Hin Hi Hnl|f n sz Hin].
  - pose proof (class_frame c1 f l Hc1 Hin) as Hf. destruct (heap_frame R f Hf) as (_ & _ & Hrf).
    apply slot_block_ext; [done..|]. destruct (decide (c1 = c)) as [->|Hne].
    2:{ intros j Hj. apply Hmem. eapply other_class_frames; [done..|]. apply list_elem_of_fmap. by exists (f, l). }
    destruct (class_facts c Hc) as (Hs & _). assert (0 < class_size c / 4) by dlia.
    inversion Hl' as [c2 g l' i2 Hc2 Hin2 Hi2 Hnl2 Ep En|g m sz Hin2 Ep En].
    + assert (c2 = c) as -> by (by apply class_size_inj). cbn in Hin2. rewrite Z.eqb_refl in Hin2.
      assert (Hrg : run_ok g 1).
      { rewrite Forall_forall in Hok. apply Hok, list_elem_of_fmap. by exists (g, l'). }
      destruct (slot_word_range c i2 Hc Hi2) as [Hw1 Hw2].
      destruct (slot_frame c f i g (4 * slot_word c i2) Hc Hi Hrf Hrg) as [-> E]; [lia|by rewrite <- Ep|].
      assert (i2 = i) as -> by (unfold slot_word in E; nia). by apply (Hslot f l l').
    + exfalso. cbn in Hin2. destruct (large_run _ Hin2) as [_ Hm]. cbn in Hm. lia.
  - destruct (large_run _ Hin) as [Hrun Hm]. cbn in Hrun, Hm. apply large_block_ext; [done..|].
    intros g w Hg _. apply Hmem. by eapply large_block_frames.
Qed.
End Live.

(** ** Live blocks do not overlap *)

(** The frame of byte [a] of a live block, and who owns it. *)
Lemma live_range h k p n :
  heap_rep h k -> live h p n ->
  (exists c f l i, 0 <= c < KALLOC_CLASS_COUNT /\ (f, l) ∈ h_slabs h c /\ 0 <= i < total_blocks c /\ (i ∉ l)
     /\ run_ok f 1 /\ p = alias f + 4 * slot_word c i /\ n = class_size c
     /\ 7 <= slot_word c i /\ slot_word c i + class_size c / 4 <= 1024)
  \/ (exists f m sz, (f, m, sz) ∈ h_large h /\ run_ok f m /\ 0 < m /\ p = alias f + 12 /\ n = m * 4096 - 12).
Proof.
  intros R [c f l i Hc Hin Hi Hl|f m sz Hin].
  - left. exists c, f, l, i. destruct (slot_word_range c i Hc Hi). pose proof (class_frame c f l Hc Hin) as Hf.
    destruct (heap_frame R f Hf) as (_ & _ & Hrf). done.
  - right. destruct (large_run R _ Hin) as [Hr Hm]. by exists f, m, sz.
Qed.

(** The contents of a live block depend on the frames of the heap only. *)
Lemma live_ext h k p n mem' :
  heap_rep h k -> live h p n -> (forall g w, g ∈ heap_frames h -> mem' g w = k_mem k g w) ->
  block_words mem' p n = block_words (k_mem k) p n.
Proof.
  intros R [c f l i Hc Hin Hi Hl|f m sz Hin] Hm.
  - pose proof (class_frame c f l Hc Hin) as Hf. destruct (heap_frame R f Hf) as (_ & _ & Hrf).
    apply slot_block_ext; [done..|]. intros j _. by apply Hm.
  - destruct (large_run R _ Hin) as [Hr Hm0]. cbn in Hr, Hm0. apply large_block_ext; [done..|].
    intros g w Hg _. apply Hm. by apply (large_in_heap h (f, m, sz)).
Qed.

Lemma run_frame_at f m g :
  run_ok f m -> run_ok g 1 -> alias f <= alias g < alias f + m * 4096 -> g ∈ run_frames f m.
Proof.
  intros [Ha _ _] [Hb _ _] Hr. unfold alias in Hr. paging_consts. unfold run_frames. apply list_elem_of_fmap.
  exists ((g - f) / 4096). split; [dlia|]. apply elem_of_up_to; [lia|]. exists ((g - f) / 4096). dlia.
Qed.

Lemma large_unique h k b b' g :
  heap_rep h k -> b ∈ h_large h -> b' ∈ h_large h -> g ∈ run_frames b.1.1 b.1.2 -> g ∈ run_frames b'.1.1 b'.1.2 ->
  b = b'.
Proof.
  intros R Hb Hb' Hg Hg'. pose proof (hr_nodup _ _ R) as Hn. unfold heap_frames in Hn.
  apply NoDup_app in Hn as (_ & _ & Hn). unfold large_frames in Hn. revert Hb Hb' Hn.
  generalize (h_large h) as L. intros L. induction L as [|x L IH]; [by intros ?%elem_of_nil|].
  intros Hb Hb' Hn. cbn in Hn. apply NoDup_app in Hn as (_ & Hd & Hn).
  assert (Hc : forall y, y ∈ L -> g ∈ run_frames y.1.1 y.1.2 -> g ∈ concat (map (fun b => run_frames b.1.1 b.1.2) L)).
  { intros y Hy Hgy. apply list_elem_of_In, in_concat. exists (run_frames y.1.1 y.1.2).
    split; [apply (in_map (fun b => run_frames b.1.1 b.1.2))|]; by apply list_elem_of_In. }
  apply elem_of_cons in Hb as [->|Hb], Hb' as [->|Hb']; [done| | |by apply IH].
  - exfalso. apply (Hd g Hg). by eapply Hc.
  - exfalso. apply (Hd g Hg'). by eapply Hc.
Qed.

Lemma slab_not_large h k c f l b :
  heap_rep h k -> 0 <= c < KALLOC_CLASS_COUNT -> (f, l) ∈ h_slabs h c -> b ∈ h_large h -> f ∉ run_frames b.1.1 b.1.2.
Proof.
  intros R Hc Hin Hb Hf. pose proof (hr_nodup _ _ R) as Hn. rewrite (heap_frames_class h c Hc) in Hn.
  apply NoDup_app in Hn as (_ & Hd & _). apply (Hd f).
  - apply list_elem_of_fmap. by exists (f, l).
  - by eapply large_block_frames.
Qed.

Lemma slot_large_apart h k c f l i g m sz :
  heap_rep h k -> 0 <= c < KALLOC_CLASS_COUNT -> (f, l) ∈ h_slabs h c -> run_ok f 1 -> (g, m, sz) ∈ h_large h ->
  run_ok g m -> 7 <= slot_word c i -> slot_word c i + class_size c / 4 <= 1024 ->
  alias f + 4 * slot_word c i + class_size c <= alias g + 12
  \/ alias g + m * 4096 <= alias f + 4 * slot_word c i.
Proof.
  intros R Hc Hin Hf Hb Hg H1 H2. destruct (class_facts c Hc) as (Hs & Hmod & _).
  assert (class_size c = 4 * (class_size c / 4)) by dlia.
  pose proof (slab_not_large h k c f l _ R Hc Hin Hb) as Hno. cbn in Hno.
  assert (alias f < alias g \/ alias g + m * 4096 <= alias f) as Ho.
  { destruct (decide (alias g <= alias f < alias g + m * 4096)) as [Hx|]; [|lia].
    exfalso. apply Hno. by apply run_frame_at. }
  destruct Hf as [Ha _ _], Hg as [Hb' _ _]. unfold alias in *. paging_consts. dlia.
Qed.

Lemma live_disjoint h k p n q m :
  heap_rep h k -> live h p n -> live h q m -> p <> q -> p + n <= q \/ q + m <= p.
Proof.
  intros R Hp Hq Hne.
  destruct (live_range h k p n R Hp) as [(c & f & l & i & Hc & Hin & Hi & _ & Hf & -> & -> & H1 & H2)|(f & a & sz & Hin & Hf & Ha & -> & ->)];
  destruct (live_range h k q m R Hq) as [(c' & g & l' & j & Hc' & Hin' & Hj & _ & Hg & -> & -> & H3 & H4)|(g & b & sz' & Hin' & Hg & Hb & -> & ->)].
  - destruct (class_facts c Hc) as (Hs & Hmod & _), (class_facts c' Hc') as (Hs' & Hmod' & _).
    assert (class_size c = 4 * (class_size c / 4)) by dlia. assert (class_size c' = 4 * (class_size c' / 4)) by dlia.
    destruct (decide (f = g)) as [->|Hfg].
    + destruct (slab_unique R c c' g l l' Hc Hc' Hin Hin') as [-> _].
      assert (i <> j) by congruence. unfold slot_word in *. nia.
    + destruct Hf as [Ha _ _], Hg as [Hb _ _]. unfold alias in *. paging_consts. dlia.
  - destruct (slot_large_apart h k c f l i g b sz'); try done; lia.
  - destruct (slot_large_apart h k c' g l' j f a sz); try done; lia.
  - destruct (decide (f = g)) as [->|Hfg]; [done|].
    assert (Hrf : run_ok f 1) by (destruct Hf; constructor; lia).
    assert (Hrg : run_ok g 1) by (destruct Hg; constructor; lia).
    destruct (decide (alias f <= alias g < alias f + a * 4096)) as [Hx|].
    { exfalso. pose proof (large_unique h k _ _ g R Hin Hin') as E. cbn in E.
      assert ((f, a, sz) = (g, b, sz')) by (apply E; [by apply run_frame_at|by apply run_frames_first]). congruence. }
    destruct (decide (alias g <= alias f < alias g + b * 4096)) as [Hx|].
    { exfalso. pose proof (large_unique h k _ _ f R Hin Hin') as E. cbn in E.
      assert ((f, a, sz) = (g, b, sz')) by (apply E; [by apply run_frames_first|by apply run_frame_at]). congruence. }
    lia.
Qed.

(** ** Allocation from a slab *)

(** [p] is a fresh zeroed block of [n] bytes, and the other blocks are as before. *)
Record allocated (h h' : heap) (k k' : kernel) (p n : Z) : Prop := Allocated {
  al_live : live h' p n;
  al_fresh : forall m, ~ live h p m;
  al_keep : forall q m, live h q m -> live h' q m;
  al_only : forall q m, live h' q m -> live h q m \/ q = p /\ m = n;
  al_zero : Forall (fun w => w = 0) (block_words (k_mem k') p n);
  al_step : heap_step h h' k k'
}.

Lemma elem_of_middle {A} (x y : A) pre post : x ∈ pre ++ y :: post <-> x ∈ pre ++ post \/ x = y.
Proof. rewrite !elem_of_app, elem_of_cons. tauto. Qed.

(** Changing the free list of the slab [f] from [l0] to [l1]. *)
Section Change.
Context {h : heap} {k : kernel} (R : heap_rep h k).
Context {c f : Z} {pre post : list slab} {l0 l1 : list Z}.
Hypothesis Hc : 0 <= c < KALLOC_CLASS_COUNT.
Hypothesis Hsl : h_slabs h c = pre ++ (f, l0) :: post.
Local Abbreviation sl1 := (pre ++ (f, l1) :: post).

Lemma taken_slab : (f, l0) ∈ h_slabs h c.
Proof. rewrite Hsl. apply elem_of_middle. by right. Qed.

Lemma taken_rep : slab_rep (k_mem k) c f l0 (head_ptr post).
Proof. pose proof (hr_slabs _ _ R c Hc) as H. rewrite Hsl in H. by eapply slabs_rep_at. Qed.

Lemma taken_frame : run_ok f 1.
Proof. apply (heap_frame R). eapply class_frame; [done|]. apply taken_slab. Qed.

Lemma taken_frames : map fst sl1 = class_frames h c.
Proof. unfold class_frames. rewrite Hsl, !map_app. done. Qed.

Lemma taken_frames_all : heap_frames (set_class h c sl1) ≡ₚ heap_frames h.
Proof. rewrite set_class_frames by done. by rewrite taken_frames, <- heap_frames_class. Qed.

Lemma taken_other g : g ∈ other_frames h c -> g <> f.
Proof.
  intros Hg ->. pose proof (hr_nodup _ _ R) as Hn. rewrite (heap_frames_class h c Hc) in Hn.
  apply NoDup_app in Hn as (_ & Hd & _). apply (Hd f); [|done]. apply list_elem_of_fmap.
  exists (f, l0). split; [done|apply taken_slab].
Qed.

Lemma slab_change_rep k' :
  k_pmm k' = k_pmm k -> s_slabs k' = s_slabs k -> (forall g w, g <> f -> k_mem k' g w = k_mem k g w) ->
  slab_rep (k_mem k') c f l1 (head_ptr post) -> heap_rep (set_class h c sl1) k'.
Proof.
  intros Hp Hs Hm Hr. apply (rep_class R); rewrite ?Hp, ?Hs, ?taken_frames; try done.
  - apply (hr_pmm _ _ R).
  - apply (hr_count _ _ R).
  - rewrite (hr_heads _ _ R c Hc), Hsl. apply head_ptr_app.
  - pose proof (hr_slabs _ _ R c Hc) as H. rewrite Hsl in H.
    eapply (slabs_rep_update (k_mem k)); [| |exact H|done].
    + pose proof (class_frames_nodup R c Hc) as Hn. unfold class_frames in Hn. by rewrite Hsl in Hn.
    + intros g w Hg _. by apply Hm.
  - intros g w Hg. apply Hm. by apply taken_other.
  - rewrite <- heap_frames_class by done. apply (hr_nodup _ _ R).
  - rewrite <- heap_frames_class by done. apply (hr_frames _ _ R).
Qed.

(** Only slot [i] of the slab, and its header, were written. *)
Lemma slab_change_step i k' :
  k_pmm k' = k_pmm k -> (forall g w, g <> f -> k_mem k' g w = k_mem k g w) -> i ∈ l0 \/ i ∈ l1 ->
  0 <= i < total_blocks c ->
  (forall w, 7 <= w -> (w < slot_word c i \/ slot_word c i + class_size c / 4 <= w) ->
     k_mem k' f w = k_mem k f w) ->
  heap_step h (set_class h c sl1) k k'.
Proof.
  intros Hp Hm Hil Hi Hw. assert (Hl1 : forall l, (f, l) ∈ sl1 -> l = l1).
  { intros l Hin. pose proof (class_frames_nodup R c Hc) as Hn. rewrite <- taken_frames in Hn.
    apply elem_of_middle in Hin as [Hin|[= ->]]; [exfalso|done]. rewrite map_app in Hn. cbn in Hn.
    apply NoDup_app in Hn as (_ & Hd & Hn). apply NoDup_cons in Hn as [Hn _].
    apply elem_of_app in Hin as [Hin|Hin].
    - apply (Hd f); [apply list_elem_of_fmap; by exists (f, l)|by left].
    - apply Hn, list_elem_of_fmap. by exists (f, l). }
  apply (step_class R); rewrite ?taken_frames, ?Hp; try done.
  - apply Forall_forall. intros g Hg. apply (heap_frame R). rewrite (heap_frames_class h c Hc).
    apply elem_of_app. by left.
  - intros g w Hg. apply Hm. by apply taken_other.
  - intros g lg lg' j Hg Hg' Hj Hn Hn' y Hy. destruct (decide (g = f)) as [->|Hgf]; [|by apply Hm].
    destruct (slab_unique R c c f l0 lg Hc Hc taken_slab Hg) as [_ ->]. rewrite (Hl1 lg' Hg') in Hn'.
    assert (j <> i) by (intros ->; by destruct Hil). destruct (slot_word_range c j Hc Hj).
    apply Hw; [lia|]. unfold slot_word in *. nia.
  - intros g w Hg _. apply Hm. intros ->. apply Hg. apply list_elem_of_fmap. exists (f, l0).
    split; [done|apply taken_slab].
  - intros g Hg Hng. exfalso. apply Hng. rewrite (heap_frames_class h c Hc). apply elem_of_app. by left.
Qed.
End Change.

Section Take.
Context {h : heap} {k : kernel} (R : heap_rep h k).
Context {c f i : Z} {pre post : list slab} {l : list Z}.
Hypothesis Hc : 0 <= c < KALLOC_CLASS_COUNT.
Hypothesis Hsl : h_slabs h c = pre ++ (f, i :: l) :: post.
Local Abbreviation sl' := (pre ++ (f, l) :: post).

Lemma taken_keep q m : live h q m -> live (set_class h c sl') q m.
Proof.
  intros [c' g l' j Hc' Hin Hj Hl|g n sz Hin].
  - destruct (decide (c' = c)) as [->|Hne].
    + rewrite Hsl in Hin. apply elem_of_middle in Hin as [Hin|[= -> ->]].
      * apply live_slot with l'; try done. cbn. rewrite Z.eqb_refl. apply elem_of_middle. by left.
      * apply live_slot with l; try done.
        -- cbn. rewrite Z.eqb_refl. apply elem_of_middle. by right.
        -- intros Hx. apply Hl. by right.
    + apply live_slot with l'; try done. cbn. by rewrite (proj2 (Z.eqb_neq c' c)).
  - by apply live_large with sz.
Qed.

Lemma taken_only q m : live (set_class h c sl') q m -> live h q m \/ q = slot_ptr f c i /\ m = class_size c.
Proof.
  intros [c' g l' j Hc' Hin Hj Hl|g n sz Hin].
  - cbn in Hin. destruct (Z.eqb_spec c' c) as [->|Hne].
    + apply elem_of_middle in Hin as [Hin|[= -> ->]].
      * left. apply live_slot with l'; try done. rewrite Hsl. apply elem_of_middle. by left.
      * destruct (decide (j = i)) as [->|Hji]; [by right|]. left. apply live_slot with (i :: l); try done.
        -- by eapply taken_slab.
        -- by intros [->|]%elem_of_cons.
    + left. by apply live_slot with l'.
  - left. by apply live_large with sz.
Qed.

Lemma taken_live : 0 <= i < total_blocks c -> i ∉ l -> live (set_class h c sl') (slot_ptr f c i) (class_size c).
Proof.
  intros Hi Hl. apply live_slot with l; try done. cbn. rewrite Z.eqb_refl. apply elem_of_middle. by right.
Qed.

Lemma take_slot_heap (Q : Z -> kernel -> Prop) :
  (forall k', heap_rep (set_class h c sl') k' -> k_pmm k' = k_pmm k ->
     allocated h (set_class h c sl') k k' (slot_ptr f c i) (class_size c) -> Q (slot_ptr f c i) k') ->
  runs (take_slot (alias f)) k Q.
Proof.
  intros HQ. pose proof (taken_slab Hsl) as Hin. pose proof (taken_frame R Hc Hsl) as Hf.
  pose proof (taken_rep R Hc Hsl) as Hr. destruct (proj1 (NoDup_cons _ _) (sr_nodup _ _ _ _ _ Hr)) as [Hil _].
  destruct (Forall_cons_1 _ _ _ (sr_slots _ _ _ _ _ Hr)) as [Hi _].
  apply (take_slot_runs c f i l (head_ptr post)); [done..|].
  intros k' Hp Hs Hm Hz Hw Hr'. pose proof (slab_change_rep R Hc Hsl k' Hp Hs Hm Hr') as R'.
  destruct (slot_word_range c i Hc Hi) as [H1 H2]. apply HQ; [done|done|]. constructor.
  - by apply taken_live.
  - intros m. apply (free_not_live R c f i (i :: l)); try done. by left.
  - apply taken_keep.
  - apply taken_only.
  - unfold block_words. apply Forall_forall. intros w Hin'. apply list_elem_of_fmap in Hin' as (j & -> & Hj).
    apply elem_of_up_to in Hj as (x & Hx & -> & ?); [|lia]. unfold slot_ptr.
    replace (alias f + 4 * slot_word c i + 4 * _) with (alias f + 4 * (slot_word c i + x)) by lia.
    rewrite word_page by (done || lia). apply Hz. lia.
  - apply (slab_change_step R Hc Hsl i); try done. left. by left.
Qed.
End Take.

(** ** A new slab *)

Section Create.
Context {h : heap} {k : kernel} (R : heap_rep h k).
Context {c : Z} (Hc : 0 <= c < KALLOC_CLASS_COUNT).
Local Abbreviation grown a := (set_class h c ((a, all_slots c) :: h_slabs h c)).

Lemma elem_of_all_slots i : 0 <= i < total_blocks c -> i ∈ all_slots c.
Proof.
  intros Hi. unfold all_slots. apply elem_of_reverse. apply elem_of_up_to; [lia|]. exists i. lia.
Qed.

Lemma grown_live a q m : live (grown a) q m <-> live h q m.
Proof.
  split; intros [c' g l' j Hc' Hin Hj Hl|g n sz Hin]; try by apply live_large with sz.
  - cbn in Hin. destruct (Z.eqb_spec c' c) as [->|Hne]; [|by apply live_slot with l'].
    apply elem_of_cons in Hin as [[= -> ->]|Hin]; [|by apply live_slot with l'].
    by apply elem_of_all_slots in Hj.
  - apply live_slot with l'; try done. cbn. destruct (Z.eqb_spec c' c) as [->|Hne]; [by right|done].
Qed.

Lemma slab_create_heap (Q : Z -> kernel -> Prop) :
  (s_free_count (k_pmm k) = 0 -> Q 0 k) ->
  (forall a k', a ∉ heap_frames h -> run_ok a 1 -> heap_rep (grown a) k' -> heap_step h (grown a) k k' -> Q (alias a) k') ->
  runs (slab_create c) k Q.
Proof.
  intros H0 HQ. apply (slab_create_runs c k Q Hc (hr_pmm _ _ R) (hr_count _ _ R) H0).
  intros a p' k' Hman Hnone Ha Ep Ht Hwin Hpw Hs Hm Hrep. subst p'.
  assert (Hnew : a ∉ heap_frames h).
  { intros Hin. destruct (heap_frame R a Hin) as (_ & E & _). congruence. }
  assert (Hoth : (a ∉ class_frames h c) /\ a ∉ other_frames h c).
  { rewrite (heap_frames_class h c Hc) in Hnew. by apply not_elem_of_app in Hnew. }
  destruct Hoth as [Hncl Hnot]. apply HQ; [done|done| |].
  - apply (rep_class R); try done.
    + rewrite Hs, zlen_zset. apply (hr_count _ _ R).
    + rewrite Hs. apply zget_zset_eq. by rewrite (hr_count _ _ R).
    + intros c' Hc' Hne. rewrite Hs. apply zget_zset_ne; lia.
    + split; cbn; [by rewrite <- (hr_heads _ _ R c Hc)|].
      eapply slabs_rep_ext; [|by apply (hr_slabs _ _ R)]. intros f i Hf. apply Hm. intros ->. done.
    + intros g w Hg. apply Hm. intros ->. done.
    + cbn. change (map fst (h_slabs h c)) with (class_frames h c). apply NoDup_cons.
      split; [by apply not_elem_of_app|]. rewrite <- heap_frames_class by done. apply (hr_nodup _ _ R).
    + cbn. change (map fst (h_slabs h c)) with (class_frames h c). apply Forall_cons. split.
      * split; [by eapply same_window_managed|]. by rewrite Ht, lookup_insert_eq.
      * rewrite <- heap_frames_class by done. eapply Forall_impl; [apply (hr_frames _ _ R)|].
        intros f [H1 H2]. split; [by eapply same_window_managed|]. rewrite Ht, lookup_insert_ne; [done|].
        intros ->. congruence.
  - apply (step_class R); try done.
    + cbn. apply Forall_cons. split; [done|]. apply Forall_forall. intros f Hf. apply (heap_frame R).
      rewrite (heap_frames_class h c Hc). apply elem_of_app. by left.
    + intros g w Hg. apply Hm. intros ->. done.
    + intros f l l' i Hf _ _ _ _ j _. apply Hm. intros ->. apply Hncl, list_elem_of_fmap. by exists (a, l).
    + cbn. intros g w _ [Hg _]%not_elem_of_cons. by apply Hm.
    + cbn. intros g _ [Hg _]%not_elem_of_cons. by rewrite Ht, lookup_insert_ne.
    + cbn. intros g [->|Hg]%elem_of_cons Hng; [done|]. exfalso. apply Hng. rewrite (heap_frames_class h c Hc).
      apply elem_of_app. by left.
    + cbn. intros g Hg [_ Hng]%not_elem_of_cons. done.
Qed.
End Create.

Lemma heap_step_trans h h1 h2 k k1 k2 :
  heap_step h h1 k k1 -> heap_step h1 h2 k1 k2 -> (forall p n, live h p n -> live h2 p n -> live h1 p n) ->
  (forall g, g ∉ heap_frames h -> g ∉ heap_frames h2 -> g ∉ heap_frames h1) -> heap_step h h2 k k2.
Proof.
  intros [L1 M1 P1 F1 G1 W1] [L2 M2 P2 F2 G2 W2] Hl Hf. constructor.
  - intros p n H H'. rewrite L2 by auto. apply L1; auto.
  - intros g w H H'. rewrite M2 by auto. apply M1; auto.
  - intros g H H'. rewrite P2 by auto. apply P1; auto.
  - intros g H2 H. destruct (decide (g ∈ heap_frames h1)); [by apply F1|]. rewrite <- P1 by done. by apply F2.
  - intros g H H2. destruct (decide (g ∈ heap_frames h1)); [by apply G2|]. rewrite P2 by done. by apply G1.
  - by eapply same_window_trans.
Qed.
