(* ===== verification/KallocLarge.v ===== *)
(** * Kernel allocator: large blocks and [kalloc]

    A block above the largest size class is a run of frames with a three-word header.
    The theorem about [kalloc] covers both kinds of block. *)
From S2P Require Import Prelude BootInfo Pmm Memory Paging AddressSpace Kalloc KallocRep KallocOps KallocProps.
From Stdlib Require Import ZArith Lia ZifyBool Bool.
From stdpp Require Import base numbers gmap list.
Local Open Scope Z_scope.
Local Open Scope kernel_scope.

(** The frames of a large block of [size] bytes. *)
Definition frames_for (size : Z) : Z := (size + SIZEOF_LARGE + 4095) / 4096.

Lemma PAGE_ALIGN_eq a : 0 <= a -> a + 4095 < 2 ^ 32 -> PAGE_ALIGN a / PAGE_SIZE = (a + 4095) / 4096.
Proof.
  intros H0 H. unfold PAGE_ALIGN, PAGE_SIZE. replace (a + 4096 - 1) with (a + 4095) by lia.
  rewrite (u32_small (a + 4095)) by lia. change (u32 (Z.lnot (4096 - 1))) with (Z.shiftl (Z.ones 20) 12).
  set (b := a + 4095) in *. assert (Z.land b (Z.shiftl (Z.ones 20) 12) = Z.shiftl (Z.shiftr b 12) 12) as ->.
  { apply Z.bits_inj'. intros n Hn. rewrite Z.land_spec, !Z.shiftl_spec by lia.
    destruct (Z.ltb_spec n 12).
    { rewrite !(Z.testbit_neg_r _ (n - 12)) by lia. by rewrite andb_false_r. }
    rewrite Z.shiftr_spec by lia. replace (n - 12 + 12) with n by lia.
    destruct (Z.ltb_spec n 32).
    - rewrite Z.ones_spec_low by lia. by rewrite andb_true_r.
    - replace (Z.testbit b n) with false; [done|]. symmetry. destruct (Z.eqb_spec b 0) as [->|]; [apply Z.bits_0|].
      apply Z.bits_above_log2; [lia|]. apply Z.log2_lt_pow2; [lia|].
      apply Z.lt_le_trans with (2 ^ 32); [lia|]. apply Z.pow_le_mono_r; lia. }
  rewrite Z.shiftl_mul_pow2, Z.shiftr_div_pow2 by lia. change (2 ^ 12) with 4096. by rewrite Z.div_mul.
Qed.

(** ** Runs of frames *)

Lemma run_frames_in_run f n g : 0 <= n -> g ∈ run_frames f n <-> in_run f n g = true.
Proof.
  intros Hn. unfold run_frames, in_run. pmm_consts. rewrite list_elem_of_fmap. split.
  - intros (i & -> & Hi). apply elem_of_up_to in Hi as (x & Hx & -> & Hlt); [|lia]. dlia.
  - intros H. exists ((g - f) / 4096). split; [dlia|]. apply elem_of_up_to; [lia|]. exists ((g - f) / 4096). dlia.
Qed.

Lemma run_frames_nodup f n : NoDup (run_frames f n).
Proof.
  unfold run_frames. apply NoDup_fmap_2; [intros x y; lia|]. unfold up_to.
  apply NoDup_fmap_2; [intros x y; lia|]. apply NoDup_seqZ.
Qed.

Definition add_large (h : heap) (b : Z * Z * Z) : heap := Heap (h_slabs h) (b :: h_large h).

Lemma add_large_frames h b : heap_frames (add_large h b) ≡ₚ run_frames b.1.1 b.1.2 ++ heap_frames h.
Proof. unfold heap_frames, large_frames, slab_frames, add_large, class_frames. cbn. rewrite !app_assoc. f_equiv. apply Permutation_app_comm. Qed.

Lemma add_large_live h b q m :
  live (add_large h b) q m <-> live h q m \/ q = alias b.1.1 + 12 /\ m = b.1.2 * 4096 - 12.
Proof.
  split.
  - intros [c f l i Hc Hin Hi Hl|f n sz Hin]; [left; by apply live_slot with l|].
    cbn in Hin. apply elem_of_cons in Hin as [<-|Hin]; [by right|]. left. by apply live_large with sz.
  - intros [[c f l i Hc Hin Hi Hl|f n sz Hin]|[-> ->]]; [by apply live_slot with l| |].
    + apply live_large with sz. by right.
    + destruct b as [[f n] sz]. apply live_large with sz. by left.
Qed.

Section Large.
Context {h : heap} {k : kernel} (R : heap_rep h k).
Context {f n sz : Z} (Hf : run_ok f n) (Hn : 0 < n).
Hypothesis Hfree : forall g, g ∈ run_frames f n -> managed_frame (k_pmm k) g /\ pmm_table (k_pmm k) !! g = None.

Lemma fresh_run g : g ∈ run_frames f n -> g ∉ heap_frames h.
Proof. intros Hg Hin. destruct (heap_frame R g Hin) as (_ & E & _). destruct (Hfree g Hg). congruence. Qed.

Lemma large_rep k' :
  pmm_wf (k_pmm k') -> same_window (k_pmm k) (k_pmm k') -> s_slabs k' = s_slabs k ->
  pmm_table (k_pmm k') = spec_alloc_run f n (pmm_table (k_pmm k)) ->
  (forall g w, g ∉ run_frames f n -> k_mem k' g w = k_mem k g w) ->
  k_mem k' f 0 = KALLOC_LARGE_MAGIC -> k_mem k' f 1 = n -> k_mem k' f 2 = sz ->
  heap_rep (add_large h (f, n, sz)) k'.
Proof.
  intros Hp Hw Hs Ht Hm H0 H1 H2.
  assert (Hold : forall g w, g ∈ heap_frames h -> k_mem k' g w = k_mem k g w).
  { intros g w Hg. apply Hm. intros Hr. by apply (fresh_run g). }
  assert (Hfr : forall c g, 0 <= c < KALLOC_CLASS_COUNT -> g ∈ class_frames h c -> g ∈ heap_frames h).
  { intros c g Hc Hg. rewrite (heap_frames_class h c Hc). apply elem_of_app. by left. }
  constructor; cbn; try done.
  - rewrite Hs. apply (hr_heads _ _ R).
  - rewrite Hs. apply (hr_count _ _ R).
  - intros c Hc. eapply slabs_rep_ext; [|by apply (hr_slabs _ _ R)]. intros g w Hg. apply Hold. by eapply Hfr.
  - apply Forall_cons. split; [done|]. pose proof (hr_large _ _ R) as Hl. rewrite Forall_forall in Hl |- *.
    intros b Hb. destruct (Hl b Hb) as (Hb0 & Hb1 & Hb2 & Hb3). pose proof (large_in_heap h b b.1.1 Hb (run_frames_first _ _ Hb0)).
    by rewrite !Hold.
  - rewrite add_large_frames. cbn. apply NoDup_app. split_and!; [apply run_frames_nodup|apply fresh_run|apply (hr_nodup _ _ R)].
  - rewrite add_large_frames. cbn. apply Forall_app. split.
    + apply Forall_forall. intros g Hg. split.
      * eapply same_window_managed; [done|]. by apply Hfree.
      * rewrite Ht, spec_alloc_run_lookup by lia. by rewrite (proj1 (run_frames_in_run f n g ltac:(lia)) Hg).
    + apply Forall_forall. intros g Hg. destruct (heap_frame R g Hg) as (Hman & E & _). split.
      * by eapply same_window_managed.
      * rewrite Ht, spec_alloc_run_lookup by lia. destruct (in_run f n g) eqn:Ei; [|done].
        apply run_frames_in_run in Ei; [|lia]. by apply fresh_run in Ei.
Qed.

Lemma large_step k' :
  same_window (k_pmm k) (k_pmm k') -> pmm_table (k_pmm k') = spec_alloc_run f n (pmm_table (k_pmm k)) ->
  (forall g w, g ∉ run_frames f n -> k_mem k' g w = k_mem k g w) ->
  heap_step h (add_large h (f, n, sz)) k k'.
Proof.
  intros Hw Ht Hm. constructor; [|..|done].
  - intros p m Hl _. apply (live_ext h k p m _ R Hl). intros g w Hg. apply Hm. intros Hx. by apply (fresh_run g).
  - intros g w _ Hg. apply Hm. intros Hx. apply Hg. rewrite add_large_frames. apply elem_of_app. by left.
  - intros g _ Hg. rewrite Ht, spec_alloc_run_lookup by lia. destruct (in_run f n g) eqn:E; [|done].
    apply run_frames_in_run in E; [|lia]. exfalso. apply Hg. rewrite add_large_frames. apply elem_of_app. by left.
  - intros g Hg Hng. rewrite add_large_frames in Hg. apply elem_of_app in Hg as [Hg|]; [|done]. by apply Hfree.
  - intros g Hg Hng. exfalso. apply Hng. rewrite add_large_frames. apply elem_of_app. by right.
Qed.
End Large.

(** ** [kalloc_large] *)

Lemma large_frames_count size :
  1024 < size <= 2 ^ 32 - SIZEOF_LARGE ->
  PAGE_ALIGN (u32 (size + SIZEOF_LARGE)) / PAGE_SIZE = frames_for size
  \/ PAGE_ALIGN (u32 (size + SIZEOF_LARGE)) / PAGE_SIZE = 0 /\ 2 ^ 20 <= frames_for size.
Proof.
  unfold frames_for, SIZEOF_LARGE. intros Hs. destruct (decide (size + 12 + 4095 < 2 ^ 32)) as [Hlt|Hge].
  - left. rewrite u32_small by lia. apply PAGE_ALIGN_eq; lia.
  - right. split; [|dlia]. destruct (decide (size + 12 = 2 ^ 32)) as [->|Hne]; [reflexivity|].
    rewrite u32_small by lia. unfold PAGE_ALIGN, PAGE_SIZE. set (r := size + 12 - (2 ^ 32 - 4095)).
    replace (u32 (size + 12 + 4096 - 1)) with r.
    + assert (0 <= r < 4096) by lia. change (u32 (Z.lnot (4096 - 1))) with (Z.shiftl (Z.ones 20) 12).
      rewrite <- (Z.mod_small r (2 ^ 12)), <- Z.land_ones by lia. rewrite <- Z.land_assoc.
      change (Z.land (Z.ones 12) (Z.shiftl (Z.ones 20) 12)) with 0. by rewrite Z.land_0_r.
    + unfold u32. apply Z.mod_unique with 1; lia.
Qed.

Lemma alloc_run_runs n k (Q : Z -> kernel -> Prop) :
  pmm_wf (k_pmm k) -> 0 < n ->
  ((forall s, ~ free_run (k_pmm k) s n) -> Q 0 k) ->
  (forall f q, run_ok f n -> f <> 0 ->
     (forall g, g ∈ run_frames f n -> managed_frame (k_pmm k) g /\ pmm_table (k_pmm k) !! g = None) ->
     pmm_table q = spec_alloc_run f n (pmm_table (k_pmm k)) -> same_window (k_pmm k) q -> pmm_wf q ->
     Q f (with_pmm q k)) ->
  runs (on_machine (alloc_run n)) k Q.
Proof.
  intros Hp Hn H0 HQ. apply runs_on_machine. unfold alloc_run. apply runs_lift. change (m_pmm (k_machine k)) with (k_pmm k).
  destruct (free_run_dec (k_pmm k) n) as [[s Hs]|[Hno|]]; [| |lia].
  - destruct (pmm_alloc_contiguous_frames_some _ n s Hp Hn Hs) as (s' & q & Hr & _ & -> & Ht & _ & Hw & Hq).
    cbn [fst snd]. apply HQ; try done.
    + destruct Hr as (Hr1 & Hr2 & _). pose proof (wf_managed _ Hp). constructor; pmm_consts; dlia.
    + destruct Hr as (Hr1 & Hr2 & _). pmm_consts. lia.
    + intros g Hg. apply free_run_spec in Hr; [|done..]. unfold run_frames in Hg.
      apply list_elem_of_fmap in Hg as (i & -> & Hi). apply elem_of_up_to in Hi as (x & Hx & -> & Hlt); [|lia].
      specialize (Hr (0 + x * 1) ltac:(lia)). pmm_consts. by rewrite (Z.mul_comm 4096).
  - rewrite pmm_alloc_contiguous_frames_none by (done || lia). specialize (H0 Hno). by destruct k as [[[] ? ? ?] ? ?].
Qed.

Section KallocLarge.
Context {h : heap} {k : kernel} (R : heap_rep h k).

Lemma write_header f n sz q (Q : Z -> kernel -> Prop) :
  run_ok f n -> 0 < n ->
  (forall mem', mem' f 0 = KALLOC_LARGE_MAGIC -> mem' f 1 = n -> mem' f 2 = sz ->
     (forall x, 3 <= x < n * 1024 -> mem' (f + 4096 * (x / 1024)) (x mod 1024) = 0) ->
     (forall g w, g ∉ run_frames f n -> mem' g w = k_mem k g w) ->
     forall k', k_mem k' = mem' -> k_pmm k' = q -> s_slabs k' = s_slabs k -> Q (alias f + 12) k') ->
  runs (on_machine (write_word (alias f) LARGE_magic KALLOC_LARGE_MAGIC) ;;;
        on_machine (write_word (alias f) LARGE_frames n) ;;;
        on_machine (write_word (alias f) LARGE_size sz) ;;;
        add_stats n sz 0 0 0 ;;;
        zero_words (u32 (alias f + SIZEOF_LARGE)) (u32 (n * PAGE_SIZE - SIZEOF_LARGE)) ;;;
        ret (u32 (alias f + SIZEOF_LARGE))) (with_pmm q k) Q.
Proof.
  intros Hf Hn HQ. assert (Hf1 : run_ok f 1) by (destruct Hf; constructor; lia).
  assert (Hb : n * 4096 - 12 < 2 ^ 32 /\ alias f + 12 < 2 ^ 32 /\ 0 <= alias f).
  { destruct Hf. unfold alias. paging_consts. lia. }
  unfold SIZEOF_LARGE. change PAGE_SIZE with 4096. rewrite !u32_small by lia.
  do 3 (apply runs_bind; eapply (store_page f); [done|reflexivity|slab_consts; lia|]).
  apply runs_bind, runs_modify. apply runs_bind. replace (n * 4096 - 12) with (4 * (n * 1024 - 3)) by lia.
  eapply (zero_words_runs f n _ 3); [done|lia|lia|lia|lia|].
  intros mem' [Hz Hk]. apply runs_ret. apply (HQ mem'); try done.
  1-3: rewrite Hk by (intros x Hx; dlia); slab_consts; cbn.
  - rewrite !mem_write_ne by lia. apply mem_write_eq.
  - rewrite mem_write_ne by lia. apply mem_write_eq.
  - apply mem_write_eq.
  - intros x Hx. apply Hz. lia.
  - intros g w Hg. rewrite Hk; cbn.
    + assert (g <> f) by (intros ->; by apply Hg, run_frames_first). rewrite !mem_write_ne by lia. by destruct k as [[] ? ?].
    + intros x Hx [-> _]. apply Hg. unfold run_frames. apply list_elem_of_fmap. exists (x / 1024). split; [done|].
      apply elem_of_up_to; [lia|]. exists (x / 1024). dlia.
Qed.

Lemma large_not_live f n m :
  run_ok f n -> 0 < n -> (forall g, g ∈ run_frames f n -> g ∉ heap_frames h) -> ~ live h (alias f + 12) m.
Proof.
  intros Hf Hn Hfr Hl. apply (Hfr f); [by apply run_frames_first|].
  assert (Hf1 : run_ok f 1) by (destruct Hf; constructor; lia).
  destruct (live_range h k _ m R Hl) as [(c & g & l & i & Hc & Hin & Hi & _ & Hg & E & _)|(g & a & sz & Hin & Hg & Ha & E & _)].
  - destruct (slot_frame c g i f 12 Hc Hi Hg Hf1) as [-> _]; [lia|by rewrite E|]. by eapply class_frame.
  - assert (g = f) as -> by (unfold alias in E; lia). apply (large_in_heap h _ _ Hin). by apply run_frames_first.
Qed.

Lemma kalloc_large_frames n size (Q : Z -> kernel -> Prop) :
  PAGE_ALIGN (u32 (size + SIZEOF_LARGE)) / PAGE_SIZE = n -> 0 < n ->
  ((forall s, ~ free_run (k_pmm k) s n) -> Q 0 k) ->
  (forall f k', let h' := add_large h (f, n, size) in
     heap_rep h' k' -> allocated h h' k k' (alias f + 12) (n * 4096 - 12) -> alias f + 12 <> 0 -> Q (alias f + 12) k') ->
  runs (kalloc_large size) k Q.
Proof.
  intros En Hn H0 HQ. unfold kalloc_large. rewrite En. cbv zeta.
  apply runs_bind, alloc_run_runs; [apply (hr_pmm _ _ R)|lia| |].
  - intros Hno. cbn. apply runs_ret. by apply H0.
  - intros f q Hf Hf0 Hfree Ht Hw Hq. rewrite (proj2 (Z.eqb_neq f 0)) by done.
    assert (Hf1 : run_ok f 1) by (destruct Hf; constructor; lia).
    apply runs_bind, phys_to_virt_k; [done|]. apply write_header; [done|lia|].
    intros mem' M0 M1 M2 Hz Hm k' <- <- Hsl. cbn zeta in HQ. apply HQ.
    + apply (large_rep R Hn Hfree); try done.
    + constructor.
      * apply add_large_live. by right.
      * intros m. apply (large_not_live f n); [done|lia|]. apply (fresh_run R Hfree).
      * intros x m Hl. apply add_large_live. by left.
      * intros x m Hl. by apply add_large_live in Hl.
      * unfold block_words. apply Forall_forall. intros w Hin. apply list_elem_of_fmap in Hin as (j & -> & Hj).
        apply elem_of_up_to in Hj as (x & Hx & -> & ?); [|lia].
        replace (alias f + 12 + 4 * _) with (alias f + 4 * (3 + x)) by lia.
        rewrite (word_run _ f n) by (done || dlia). apply Hz. dlia.
      * apply (large_step R Hn Hfree); done.
    + destruct Hf. unfold alias. paging_consts. lia.
Qed.

Lemma kalloc_large_heap size (Q : Z -> kernel -> Prop) :
  1024 < size <= 2 ^ 32 - SIZEOF_LARGE ->
  ((forall s, ~ free_run (k_pmm k) s (frames_for size)) -> Q 0 k) ->
  (forall f k', let n := frames_for size in let h' := add_large h (f, n, size) in
     heap_rep h' k' -> allocated h h' k k' (alias f + 12) (n * 4096 - 12) -> size <= n * 4096 - 12 ->
     alias f + 12 <> 0 -> Q (alias f + 12) k') ->
  runs (kalloc_large size) k Q.
Proof.
  intros Hs H0 HQ. destruct (large_frames_count size Hs) as [En|[En Hbig]].
  - apply (kalloc_large_frames (frames_for size)); [done|unfold frames_for, SIZEOF_LARGE; dlia|done|].
    intros f k' h' R' A Hne. apply HQ; try done. unfold frames_for, SIZEOF_LARGE. dlia.
  - unfold kalloc_large. rewrite En. apply runs_bind, runs_on_machine. unfold alloc_run. apply runs_lift. cbn. apply runs_ret.
    replace (Kernel _ _ _) with k by (by destruct k as [[[] ? ? ?] ? ?]). apply H0. intros s (H1 & H2 & _).
    pose proof (wf_managed _ (hr_pmm _ _ R)). pmm_consts. dlia.
Qed.
End KallocLarge.

(** ** [kalloc] *)

Lemma class_for_size_spec size :
  0 < size ->
  (0 <= class_for_size size < KALLOC_CLASS_COUNT /\ size <= class_size (class_for_size size)
     /\ (forall c, 0 <= c < class_for_size size -> class_size c < size))
  \/ class_for_size size = -1 /\ 1024 < size.
Proof.
  assert (H0 : class_size 0 = 16) by done. assert (H1 : class_size 1 = 32) by done.
  assert (H2 : class_size 2 = 64) by done. assert (H3 : class_size 3 = 128) by done.
  assert (H4 : class_size 4 = 256) by done. assert (H5 : class_size 5 = 1024) by done.
  intros Hs. unfold class_for_size. change (up_to 0 KALLOC_CLASS_COUNT 1) with [0; 1; 2; 3; 4; 5].
  assert (Hlt : forall c n, 0 <= c < n -> n <= 5 -> c = 0 \/ c = 1 \/ c = 2 \/ c = 3 \/ c = 4) by lia.
  unfold KALLOC_CLASS_COUNT.
  destruct (list_find _ _) as [[j i]|] eqn:E.
  - apply list_find_Some in E as (Hj & Hle & Hmin). left.
    destruct j as [|[|[|[|[|[|j]]]]]]; [injection Hj as <-..|done].
    all: split_and!; [lia|lia|done|].
    all: intros c Hc; destruct (Hlt _ _ Hc ltac:(lia)) as [->|[->|[->|[->| ->]]]]; try lia.
    all: apply Z.lt_nge; first [apply (Hmin 0%nat _ eq_refl)|apply (Hmin 1%nat _ eq_refl)|apply (Hmin 2%nat _ eq_refl)
      |apply (Hmin 3%nat _ eq_refl)|apply (Hmin 4%nat _ eq_refl)]; lia.
  - apply list_find_None in E. rewrite Forall_forall in E. specialize (E 5 ltac:(do 5 right; left)). right. cbn in E. lia.
Qed.

(** Why an allocation of [size] bytes can fail: no slab of its class has a free slot and
    there is no frame for another, or there is no run of frames that is long enough. *)
Definition exhausted (h : heap) (k : kernel) (size : Z) : Prop :=
  if 0 <=? class_for_size size then
    s_free_count (k_pmm k) = 0 /\ Forall (fun s => s.2 = []) (h_slabs h (class_for_size size))
  else forall s, ~ free_run (k_pmm k) s (frames_for size).

Section Kalloc.
Context {h : heap} {k : kernel} (R : heap_rep h k).

Lemma slot_ptr_nonzero c f i : run_ok f 1 -> 0 <= slot_word c i -> slot_ptr f c i <> 0.
Proof. intros [_ Hl _] Hw. unfold slot_ptr, alias. paging_consts. lia. Qed.

Lemma kalloc_new_slab c (Q : Z -> kernel -> Prop) :
  0 <= c < KALLOC_CLASS_COUNT -> (s_free_count (k_pmm k) = 0 -> Q 0 k) ->
  (forall p k' h', p <> 0 -> heap_rep h' k' -> allocated h h' k k' p (class_size c) -> Q p k') ->
  runs (slab <- slab_create c ;; if slab =? 0 then ret 0 else take_slot slab) k Q.
Proof.
  intros Hc H0 HQ. destruct (class_facts c Hc) as (_ & _ & Ht & _).
  apply runs_bind, (slab_create_heap R Hc); [intros E; cbn; apply runs_ret; by apply H0|].
  intros a k1 Hnew Ha R1 S1. assert (Hne : alias a <> 0) by (destruct Ha; unfold alias; paging_consts; lia).
  rewrite (proj2 (Z.eqb_neq _ 0)) by done. destruct (all_slots c) as [|i l] eqn:El.
  { pose proof (elem_of_all_slots (c := c) 0 ltac:(lia)) as Hx. rewrite El in Hx. by apply elem_of_nil in Hx. }
  assert (Hsl : h_slabs (set_class h c ((a, i :: l) :: h_slabs h c)) c = [] ++ (a, i :: l) :: h_slabs h c).
  { cbn. by rewrite Z.eqb_refl. }
  apply (take_slot_heap R1 Hc Hsl). intros k2 R2 _ [A1 A2 A3 A4 A5 A6].
  pose proof (grown_live (h := h) (c := c) a) as Hlive. rewrite El in Hlive.
  eapply HQ; [|exact R2|].
  - apply slot_ptr_nonzero; [done|]. pose proof (taken_rep R1 Hc Hsl) as Hr.
    destruct (Forall_cons_1 _ _ _ (sr_slots _ _ _ _ _ Hr)) as [Hi _]. destruct (slot_word_range c i Hc Hi). lia.
  - constructor; try done.
    + intros m. by rewrite <- Hlive.
    + intros q m Hq. by apply A3, Hlive.
    + intros q m Hq. destruct (A4 q m Hq) as [Hx|]; [|by right]. left. by apply Hlive.
    + eapply heap_step_trans; [exact S1|exact A6| |].
      * intros p n Hl _. by apply Hlive.
      * intros g _ Hg. by rewrite <- (taken_frames_all (l1 := l) Hc Hsl).
Qed.

Lemma kalloc_small size (Q : Z -> kernel -> Prop) :
  let c := class_for_size size in
  0 <= c < KALLOC_CLASS_COUNT ->
  (s_free_count (k_pmm k) = 0 /\ Forall (fun s => s.2 = []) (h_slabs h c) -> Q 0 k) ->
  (forall p k' h', p <> 0 -> heap_rep h' k' -> allocated h h' k k' p (class_size c) -> Q p k') ->
  runs (head <- gets (fun k => zget 0 (s_slabs k) c) ;;
        slab <- find_slab walk_fuel head ;;
        slab <- (if slab =? 0 then slab_create c else ret slab) ;;
        if slab =? 0 then ret 0 else take_slot slab) k Q.
Proof.
  intros c Hc H0 HQ. apply runs_bind, runs_gets. rewrite (hr_heads _ _ R c Hc). apply runs_bind.
  eapply runs_mono; [apply (find_slab_runs _ c)|].
  - by apply (hr_slabs _ _ R).
  - apply Forall_forall. intros [f l] Hin. apply (heap_frame R). by eapply class_frame.
  - by apply (walk_fuel_enough R).
  - intros p k' [-> [[-> Hfull]|(pre & f & i & l & post & Hsl & ->)]].
    + rewrite Z.eqb_refl. apply kalloc_new_slab; [done|by auto|done].
    + assert (Hf : run_ok f 1).
      { apply (taken_frame R Hc Hsl). }
      rewrite (proj2 (Z.eqb_neq _ 0)) by (destruct Hf; unfold alias; paging_consts; lia).
      apply runs_bind, runs_ret. rewrite (proj2 (Z.eqb_neq _ 0)) by (destruct Hf; unfold alias; paging_consts; lia).
      apply (take_slot_heap R Hc Hsl). intros k2 R2 _ A. eapply HQ; [|exact R2|done].
      apply slot_ptr_nonzero; [done|]. pose proof (taken_rep R Hc Hsl) as Hr.
      destruct (Forall_cons_1 _ _ _ (sr_slots _ _ _ _ _ Hr)) as [Hi _]. destruct (slot_word_range c i Hc Hi). lia.
Qed.
End Kalloc.

(** What an allocation of [size] bytes returns. *)
Definition kalloc_post (h : heap) (k : kernel) (size : Z) (p : Z) (k' : kernel) : Prop :=
  (p = 0 /\ k' = k /\ (size = 0 \/ exhausted h k size))
  \/ (p <> 0 /\ 0 < size /\ exists h' n, heap_rep h' k' /\ size <= n /\ allocated h h' k k' p n).

Lemma kalloc_runs h k size :
  heap_rep h k -> 0 <= size <= 2 ^ 32 - SIZEOF_LARGE -> runs (kalloc size) k (kalloc_post h k size).
Proof.
  intros R Hs. unfold kalloc. destruct (Z.eqb_spec size 0) as [->|Hne]; [apply runs_ret; left; by auto|].
  assert (Hex : exhausted h k size -> kalloc_post h k size 0 k) by (left; auto).
  unfold exhausted in Hex. destruct (class_for_size_spec size ltac:(lia)) as [(Hc & Hle & _)|[Hc Hbig]].
  - rewrite (proj2 (Z.leb_le 0 _)) in * by lia. apply (kalloc_small R); [done|done|].
    intros p k' h' Hp R' A. right. split_and!; [done|lia|]. by exists h', (class_size (class_for_size size)).
  - rewrite Hc in *. cbn in *. apply (kalloc_large_heap R); [lia|done|].
    intros f k' n h' R' A Hn Hp. right. split_and!; [done|lia|]. by exists h', (n * 4096 - 12).
Qed.
