(* ===== verification/KallocFree.v ===== *)
(** * Kernel allocator: [kfree]

    Returning a slot of a slab, with the removal of a slab that has become empty, and
    returning the frames of a large block; then the theorems about the allocator. *)
From S2P Require Import Prelude BootInfo Pmm Memory Paging AddressSpace Kalloc KallocRep KallocOps KallocProps KallocLarge.
From Stdlib Require Import ZArith Lia ZifyBool Bool.
From stdpp Require Import base numbers gmap list.
Local Open Scope Z_scope.
Local Open Scope kernel_scope.

(** The block at [p] is gone, and the other blocks are as before. *)
Record freed (h h' : heap) (k k' : kernel) (p : Z) : Prop := Freed {
  fr_live : forall q m, live h' q m <-> live h q m /\ q <> p;
  fr_step : heap_step h h' k k'
}.

(** ** Unlinking a slab *)

(** The link that follows the slabs [pre]. *)
Fixpoint last_link (cur : link) (pre : list slab) : link :=
  match pre with
  | [] => cur
  | s :: pre => last_link (Next (alias s.1)) pre
  end.

(** [k'] is [k] with [v] stored in [cur]. *)
Definition relinked (c : Z) (cur : link) (v : Z) (k k' : kernel) : Prop :=
  match cur with
  | Head => s_slabs k' = zset (s_slabs k) c v /\ forall g w, k_mem k' g w = k_mem k g w
  | Next s => s_slabs k' = s_slabs k /\ exists g, s = alias g /\ forall g' w, k_mem k' g' w = mem_write g 6 v (k_mem k) g' w
  end.

Definition link_at (c : Z) (cur : link) (v : Z) (k : kernel) : Prop :=
  match cur with
  | Head => zget 0 (s_slabs k) c = v
  | Next s => exists g, s = alias g /\ run_ok g 1 /\ k_mem k g 6 = v
  end.

Lemma read_link_runs c cur v k (Q : Z -> kernel -> Prop) :
  link_at c cur v k -> Q v k -> runs (read_link c cur) k Q.
Proof.
  destruct cur as [|s]; cbn [read_link link_at].
  - intros E HQ. apply runs_gets. by rewrite E.
  - intros (g & -> & Hg & E) HQ. eapply (load_page g _ _ 6); [done|slab_consts; lia|lia|]. by rewrite E.
Qed.

Lemma write_link_runs c cur v0 v k (Q : unit -> kernel -> Prop) :
  link_at c cur v0 k -> (forall k', k_pmm k' = k_pmm k -> relinked c cur v k k' -> Q tt k') -> runs (write_link c cur v) k Q.
Proof.
  destruct cur as [|s]; cbn [write_link link_at relinked].
  - intros E HQ. apply runs_modify. by apply HQ.
  - intros (g & -> & Hg & E) HQ. eapply (store_page g _ _ 6); [done|slab_consts; lia|lia|].
    apply HQ; [done|]. split; [done|]. by exists g.
Qed.

(** The page the write goes to is not the page of the slab that is unlinked. *)
Definition link_apart (cur : link) (f : Z) : Prop :=
  match cur with Head => True | Next s => s <> alias f end.

Definition unlinked (c f : Z) (cur : link) (v : Z) (k k' : kernel) : Prop :=
  exists k1, relinked c cur v k k1 /\ s_slabs k' = s_slabs k1 /\
    (forall g w, g <> f -> k_mem k' g w = k_mem k1 g w) /\ k_pmm k' = pmm_release_frame f (k_pmm k).

Lemma unlink_found c f l post cur k (Q : unit -> kernel -> Prop) :
  run_ok f 1 -> slab_rep (k_mem k) c f l (head_ptr post) -> link_at c cur (alias f) k -> link_apart cur f ->
  (forall k', unlinked c f cur (head_ptr post) k k' -> Q tt k') ->
  runs (next <- on_machine (read_word (alias f) SLAB_next) ;;
      write_link c cur next ;;;
      total <- on_machine (read_word (alias f) SLAB_total_blocks) ;;
      size <- on_machine (read_word (alias f) SLAB_block_size) ;;
      add_stats (-1) 0 (- (total * size)) 0 0 ;;;
      on_machine (write_word (alias f) SLAB_magic KALLOC_FREED_MAGIC) ;;;
      frame <- on_machine (paging_kernel_virt_to_phys (alias f)) ;;
      on_machine (free_frame frame)) k Q.
Proof.
  intros Hf Hr Hl Ha HQ. apply runs_bind. eapply (load_page f _ _ 6); [done|slab_consts; lia|lia|].
  rewrite (sr_next _ _ _ _ _ Hr). apply runs_bind. eapply write_link_runs; [exact Hl|]. intros k1 Hp1 Hk1.
  apply runs_bind. eapply (load_page f _ _ 3); [done|slab_consts; lia|lia|].
  apply runs_bind. eapply (load_page f _ _ 2); [done|slab_consts; lia|lia|].
  apply runs_bind, runs_modify. apply runs_bind. eapply (store_page f _ _ 0); [done|slab_consts; lia|lia|].
  apply runs_bind, virt_to_phys_k; [done|]. apply runs_on_machine. unfold free_frame. apply runs_modify.
  apply HQ. exists k1. split_and!; [done|done| |].
  - intros g w Hg. cbn. by rewrite mem_write_ne by (by left).
  - cbn. unfold pmm_free_frame. by rewrite <- Hp1.
Qed.

Lemma unlink_runs fuel c f l pre post cur k (Q : unit -> kernel -> Prop) :
  slabs_rep (k_mem k) c (pre ++ (f, l) :: post) -> Forall (fun s => run_ok s.1 1) (pre ++ (f, l) :: post) ->
  NoDup (map fst (pre ++ (f, l) :: post)) -> (length pre < fuel)%nat ->
  link_at c cur (head_ptr (pre ++ (f, l) :: post)) k -> link_apart cur f ->
  (forall k', unlinked c f (last_link cur pre) (head_ptr post) k k' -> Q tt k') ->
  runs (unlink fuel c (alias f) cur) k Q.
Proof.
  revert pre cur. induction fuel as [|fuel IH]; intros pre cur Hr Hok Hnd Hfuel Hl Ha HQ; [lia|].
  cbn [unlink]. apply runs_bind. eapply read_link_runs; [exact Hl|].
  rewrite (proj2 (Z.eqb_neq _ 0)) by (apply head_ptr_nonzero; [by destruct pre|done]).
  destruct pre as [|[g lg] pre].
  - cbn [app head_ptr fst] in *. rewrite Z.eqb_refl. destruct Hr as [Hr _]. apply Forall_cons_1 in Hok as [Hf _].
    by eapply unlink_found.
  - cbn [app head_ptr fst map slabs_rep snd] in *. destruct Hr as [Hg Hr]. apply Forall_cons_1 in Hok as [Hgo Hok].
    apply NoDup_cons in Hnd as [Hgn Hnd]. cbn in Hgo.
    assert (Hgf : g <> f). { intros ->. apply Hgn. rewrite map_app. apply elem_of_app. right. by left. }
    rewrite (proj2 (Z.eqb_neq _ _)) by (unfold alias; lia). apply (IH pre (Next (alias g))); try done.
    + cbn in Hfuel. lia.
    + exists g. split_and!; [done..|apply (sr_next _ _ _ _ _ Hg)].
    + cbn. unfold alias. lia.
Qed.

(** ** Removing an empty slab *)

(** The effect of [relinked] on the pages of the list. *)
Definition link_write (cur : link) (g : Z) : Prop :=
  match cur with Head => False | Next s => s = alias g end.

Lemma last_link_in cur pre g : link_write (last_link cur pre) g -> link_write cur g \/ g ∈ map fst pre.
Proof.
  revert cur. induction pre as [|s pre IH]; cbn; intros cur H; [by left|].
  destruct (IH _ H) as [E|]; right; [|by right]. apply elem_of_cons. left. cbn in E. unfold alias in E. lia.
Qed.

(** The last slab before the one that is dropped: only its [next] changes. *)
Lemma slab_rep_next mem mem' c f l next next' :
  0 <= c < KALLOC_CLASS_COUNT -> (forall w, w <> 6 -> mem' f w = mem f w) -> mem' f 6 = next' ->
  slab_rep mem c f l next -> slab_rep mem' c f l next'.
Proof.
  intros Hc Hm H6 [? ? ? ? ? ? ? Hch Hnd Hs]. constructor; try done; try (rewrite Hm; [done|lia]).
  eapply free_chain_ext; [|exact Hch]. intros i Hi. apply Hm. rewrite Forall_forall in Hs.
  destruct (slot_word_range c i Hc (Hs i Hi)). lia.
Qed.

Lemma slabs_rep_drop mem mem' c pre f l post cur :
  0 <= c < KALLOC_CLASS_COUNT ->
  NoDup (map fst (pre ++ (f, l) :: post)) -> slabs_rep mem c (pre ++ (f, l) :: post) ->
  (forall g w, g ∈ map fst (pre ++ post) -> ~ (link_write (last_link cur pre) g /\ w = 6) -> mem' g w = mem g w) ->
  (forall g, g ∈ map fst pre -> link_write (last_link cur pre) g -> mem' g 6 = head_ptr post) ->
  (forall g, g ∈ map fst (pre ++ post) -> ~ link_write cur g) ->
  slabs_rep mem' c (pre ++ post).
Proof.
  intros Hcl. revert cur. induction pre as [|[g lg] pre IH]; cbn; intros cur Hn Hr Hm Hl Hc.
  - destruct Hr as [_ Hr]. eapply slabs_rep_ext; [|exact Hr]. intros x w Hx. apply Hm; [done|].
    intros [H _]. by apply (Hc x).
  - apply NoDup_cons in Hn as [Hg Hn]. destruct Hr as [Hr1 Hr2].
    assert (Hgn : g ∉ map fst (pre ++ post)).
    { intros H. apply Hg. rewrite map_app in H |- *. cbn. apply elem_of_app in H as [H|H]; apply elem_of_app; [by left|].
      right. by right. }
    split.
    + destruct pre as [|[g' lg'] pre]; cbn in *.
      * eapply slab_rep_next; [done| |by apply Hl; [left|]|exact Hr1]. intros w Hw. apply Hm; [by left|]. by intros [].
      * eapply slab_rep_ext; [|exact Hr1]. intros i. apply Hm; [by left|]. intros [H _]. apply Hgn. cbn.
        destruct (last_link_in _ _ _ H) as [E|Hx].
        -- apply elem_of_cons. left. cbn in E. unfold alias in E. lia.
        -- right. rewrite map_app. apply elem_of_app. by left.
    + apply (IH (Next (alias g))); [done|done| | |].
      * intros x w Hx. apply Hm. by right.
      * intros x Hx. apply Hl. by right.
      * intros x Hx E. cbn in E. assert (x = g) as -> by (unfold alias in E; lia). done.
Qed.

Lemma all_slots_free t l i :
  NoDup l -> Forall (fun i => 0 <= i < t) l -> zlen l = t -> 0 <= i < t -> i ∈ l.
Proof.
  intros Hn Hall Hlen Hi. destruct (decide (i ∈ l)) as [|Hni]; [done|exfalso].
  assert (Hb : zlen (i :: l) <= t).
  { apply slots_bound; [lia|by apply NoDup_cons|]. by apply Forall_cons. }
  unfold zlen in *. cbn in Hb. lia.
Qed.

Section Drop.
Context {h : heap} {k : kernel} (R : heap_rep h k).
Context {c f : Z} {pre post : list slab} {l : list Z}.
Hypothesis Hc : 0 <= c < KALLOC_CLASS_COUNT.
Hypothesis Hsl : h_slabs h c = pre ++ (f, l) :: post.
Hypothesis Hempty : zlen l = total_blocks c.
Local Abbreviation h' := (set_class h c (pre ++ post)).

Lemma dropped_live q m : live h' q m <-> live h q m.
Proof.
  pose proof (taken_rep R Hc Hsl) as Hr. split; intros [c' g l' j Hc' Hin Hj Hl|g n sz Hin]; try by apply live_large with sz.
  - cbn in Hin. destruct (Z.eqb_spec c' c) as [->|Hne]; [|by apply live_slot with l'].
    apply live_slot with l'; try done. rewrite Hsl. apply elem_of_middle. by left.
  - apply live_slot with l'; try done. cbn. destruct (Z.eqb_spec c' c) as [->|Hne]; [|done].
    rewrite Hsl in Hin. apply elem_of_middle in Hin as [|[= -> ->]]; [done|]. exfalso. apply Hl.
    eapply all_slots_free; [apply (sr_nodup _ _ _ _ _ Hr)|apply (sr_slots _ _ _ _ _ Hr)|done|done].
Qed.

Lemma dropped_frames : class_frames h c ≡ₚ f :: map fst (pre ++ post).
Proof. unfold class_frames. rewrite Hsl, !map_app. cbn. symmetry. apply Permutation_middle. Qed.

Lemma dropped_facts :
  (f ∉ map fst (pre ++ post)) /\ (f ∉ other_frames h c) /\ NoDup (map fst (pre ++ post) ++ other_frames h c)
  /\ forall g, g ∈ map fst (pre ++ post) ++ other_frames h c -> g ∈ heap_frames h.
Proof.
  pose proof (hr_nodup _ _ R) as Hn. pose proof (heap_frames_class h c Hc) as Hp. rewrite dropped_frames in Hp.
  rewrite Hp in Hn. cbn in Hn. apply NoDup_cons in Hn as [Hf Hn]. apply not_elem_of_app in Hf as [H1 H2].
  split_and!; try done. intros g Hg. rewrite Hp. cbn. by right.
Qed.

(** What unlinking does to memory, in terms of the page of the preceding slab. *)
Lemma unlinked_mem k' :
  unlinked c f (last_link Head pre) (head_ptr post) k k' ->
  (forall g w, g <> f -> ~ (link_write (last_link Head pre) g /\ w = 6) -> k_mem k' g w = k_mem k g w)
  /\ (forall g, g <> f -> link_write (last_link Head pre) g -> k_mem k' g 6 = head_ptr post)
  /\ zlen (s_slabs k') = KALLOC_CLASS_COUNT
  /\ zget 0 (s_slabs k') c = head_ptr (pre ++ post)
  /\ (forall c', 0 <= c' -> c' <> c -> zget 0 (s_slabs k') c' = zget 0 (s_slabs k) c').
Proof.
  intros (k1 & Hrl & Hs & Hm & _). rewrite Hs. pose proof (hr_count _ _ R) as Hlen.
  pose proof (hr_heads _ _ R c Hc) as Hhd. rewrite Hsl in Hhd.
  destruct pre as [|[g0 lg] pre0] eqn:Ep; cbn [last_link app fst] in *.
  - destruct Hrl as [Hs1 Hm1]. rewrite Hs1. split_and!.
    + intros g w Hg _. by rewrite Hm.
    + by intros g _ [].
    + by rewrite zlen_zset.
    + apply zget_zset_eq. by rewrite Hlen.
    + intros c' H0 Hne. apply zget_zset_ne; lia.
  - destruct (last_link (Next (alias g0)) pre0) as [|s] eqn:El.
    { exfalso. revert El. generalize (alias g0). clear. induction pre0 as [|x pre0 IH]; [done|]. intros s. apply IH. }
    cbn [relinked] in Hrl. destruct Hrl as [Hs1 (g & -> & Hm1)]. rewrite Hs1. split_and!; try done.
    + intros x w Hx Hno. rewrite Hm by done. rewrite Hm1. apply mem_write_ne.
      destruct (decide (x = g)) as [->|]; [|by left]. right. intros ->. by apply Hno.
    + intros x Hx E. cbn in E. assert (x = g) as -> by (unfold alias in E; lia). rewrite Hm by done. rewrite Hm1.
      apply mem_write_eq.
Qed.

Lemma release_frame_f g :
  pmm_table (pmm_release_frame f (k_pmm k)) !! g = if decide (g = f) then None else pmm_table (k_pmm k) !! g.
Proof.
  destruct (pmm_release_frame_table (k_pmm k) f (hr_pmm _ _ R)) as (-> & _).
  unfold frame_base. change PMM_FRAME_SIZE with 4096. rewrite (ro_aligned f 1 (taken_frame R Hc Hsl)), Z.sub_0_r.
  unfold spec_release.
  destruct (heap_frame R f) as (_ & -> & _). { eapply class_frame; [done|]. by eapply taken_slab. }
  cbn. case_decide as E; [subst; apply lookup_delete_eq|by apply lookup_delete_ne].
Qed.

Lemma unlinked_heap k' :
  unlinked c f (last_link Head pre) (head_ptr post) k k' -> heap_rep h' k' /\ heap_step h h' k k'.
Proof.
  intros Hu. destruct (unlinked_mem k' Hu) as (Hm & Hnext & Hlen & Hhd & Hoth). destruct Hu as (_ & _ & _ & _ & Hp).
  destruct dropped_facts as (Hf1 & Hf2 & Hnd & Hin).
  destruct (pmm_release_frame_table (k_pmm k) f (hr_pmm _ _ R)) as (_ & Hw & Hpw). rewrite <- Hp in Hw, Hpw.
  assert (Hpre : forall g, link_write (last_link Head pre) g -> g ∈ map fst (pre ++ post)).
  { intros g [[]|H]%last_link_in. rewrite map_app. apply elem_of_app. by left. }
  assert (Hmo : forall g w, g ∈ other_frames h c -> k_mem k' g w = k_mem k g w).
  { intros g w Hg. apply Hm; [by intros ->|]. intros [Hx%Hpre _]. apply NoDup_app in Hnd as (_ & Hd & _). by apply (Hd g). }
  pose proof (hr_slabs _ _ R c Hc) as Hrep. rewrite Hsl in Hrep.
  pose proof (class_frames_nodup R c Hc) as Hnc. unfold class_frames in Hnc. rewrite Hsl in Hnc.
  split.
  - apply (rep_class R); try done.
    + eapply (slabs_rep_drop _ _ _ _ _ _ _ Head); [done|exact Hnc|exact Hrep| | |by intros g _ []].
      * intros g w Hg. apply Hm. by intros ->.
      * intros g Hg. apply Hnext. intros ->. apply Hf1. rewrite map_app. apply elem_of_app. by left.
    + apply Forall_forall. intros g Hg. destruct (heap_frame R g (Hin g Hg)) as (H1 & H2 & _). split.
      * by eapply same_window_managed.
      * rewrite Hp, release_frame_f, decide_False; [done|]. intros ->. by apply elem_of_app in Hg as [|].
  - apply (step_class R); try done.
    + apply Forall_forall. intros g Hg. apply (heap_frame R), Hin. apply elem_of_app. by left.
    + intros g lg lg' i _ Hg Hi _ _ j Hj. destruct (slot_word_range c i Hc Hi). apply Hm; [|intros [_ ?]; lia].
      intros ->. apply Hf1, list_elem_of_fmap. by exists (f, lg').
    + intros g w Hg1 Hg2. apply Hm; [|intros [Hx _]; by apply Hg2, Hpre].
      intros ->. apply Hg1. rewrite dropped_frames. by left.
    + intros g Hg1 _. rewrite Hp, release_frame_f, decide_False; [done|]. intros ->. apply Hg1. rewrite dropped_frames. by left.
    + intros g Hg Hng. exfalso. apply Hng, Hin. apply elem_of_app. by left.
    + intros g Hg Hng. rewrite dropped_frames in Hg. apply elem_of_cons in Hg as [->|]; [|done].
      by rewrite Hp, release_frame_f, decide_True.
Qed.
End Drop.

(** ** Returning a slot *)

Lemma page_mask a : 0 <= a < 2 ^ 32 -> Z.land a (u32 (Z.lnot (PAGE_SIZE - 1))) = a - a mod 4096.
Proof. intros Ha. rewrite <- pte_frame_eq by done. reflexivity. Qed.

Section Push.
Context {h : heap} {k : kernel} (R : heap_rep h k).
Context {c f i : Z} {pre post : list slab} {l : list Z}.
Hypothesis Hc : 0 <= c < KALLOC_CLASS_COUNT.
Hypothesis Hsl : h_slabs h c = pre ++ (f, l) :: post.
Hypothesis Hi : 0 <= i < total_blocks c.
Hypothesis Hil : i ∉ l.
Local Abbreviation h1 := (set_class h c (pre ++ (f, i :: l) :: post)).

Lemma pushed_slabs : h_slabs h1 c = pre ++ (f, i :: l) :: post.
Proof. cbn. by rewrite Z.eqb_refl. Qed.

Lemma pushed_live k1 q m : heap_rep h1 k1 -> live h1 q m <-> live h q m /\ q <> slot_ptr f c i.
Proof.
  intros R1. split.
  - intros Hq. split.
    2:{ intros ->. refine (free_not_live R1 c f i (i :: l) m Hc _ Hi _ Hq); [|by left].
        rewrite pushed_slabs. apply elem_of_middle. by right. }
    destruct Hq as [c' g l' j Hc' Hin Hj Hl|g n sz Hin]; [|by apply live_large with sz].
    cbn in Hin. destruct (Z.eqb_spec c' c) as [->|Hne]; [|by apply live_slot with l'].
    apply elem_of_middle in Hin as [Hin|[= -> ->]].
    + apply live_slot with l'; try done. rewrite Hsl. apply elem_of_middle. by left.
    + apply live_slot with l; [done|by eapply taken_slab|done|]. intros H. apply Hl. by right.
  - intros [[c' g l' j Hc' Hin Hj Hl|g n sz Hin] Hq]; [|by apply live_large with sz].
    destruct (decide (c' = c)) as [->|Hne].
    2:{ apply live_slot with l'; try done. cbn. by rewrite (proj2 (Z.eqb_neq c' c)). }
    rewrite Hsl in Hin. apply elem_of_middle in Hin as [Hin|[= -> ->]].
    + apply live_slot with l'; try done. rewrite pushed_slabs. apply elem_of_middle. by left.
    + apply live_slot with (i :: l); try done.
      * rewrite pushed_slabs. apply elem_of_middle. by right.
      * by intros [->|]%elem_of_cons.
Qed.

(** The memory after the slot is on the free list. *)
Lemma pushed_rep mem' :
  let s := slot_word c i in
  mem' f 4 = zlen l + 1 -> mem' f 5 = slot_ptr f c i -> mem' f s = first_free f c l ->
  (forall w, w <> 4 -> w <> 5 -> w <> s -> mem' f w = k_mem k f w) ->
  slab_rep mem' c f (i :: l) (head_ptr post).
Proof.
  intros s H4 H5 Hs Hm. destruct (slot_word_range c i Hc Hi) as [Hs1 Hs2].
  destruct (class_facts c Hc) as (Hsz & _). assert (0 < class_size c / 4) by dlia.
  destruct (taken_rep R Hc Hsl) as [? ? ? ? ? ? ? Hch Hnd Hall]. constructor; try (rewrite Hm; [done|lia..]).
  - rewrite H4. unfold zlen. cbn [length]. lia.
  - done.
  - split; [done|]. eapply free_chain_ext; [|exact Hch]. intros j Hj. rewrite Forall_forall in Hall.
    destruct (slot_word_range c j Hc (Hall j Hj)) as [Hj1 Hj2]. assert (j <> i) by (by intros ->).
    apply Hm; [lia..|]. unfold s, slot_word. nia.
  - by apply NoDup_cons.
  - by apply Forall_cons.
Qed.

(** The end of [kfree]: the slab goes when all of its slots are free. *)
Lemma remove_if_empty_runs k1 (Q : unit -> kernel -> Prop) :
  heap_rep h1 k1 -> heap_step h h1 k k1 ->
  (forall h' k', heap_rep h' k' -> freed h h' k k' (slot_ptr f c i) -> Q tt k') ->
  runs (slab_remove_if_empty (alias f)) k1 Q.
Proof.
  intros R1 S1 HQ. pose proof (taken_frame R Hc Hsl) as Hf. pose proof pushed_slabs as Hsl1.
  destruct (taken_rep R1 Hc Hsl1) as [Hm Hcl Hsz Ht Hfr Hh Hn Hch Hnd Hall].
  assert (Hdone : heap_rep h1 k1 -> Q tt k1).
  { intros _. apply (HQ h1); [done|]. constructor; [|done]. intros q m. by apply (pushed_live k1). }
  unfold slab_remove_if_empty. rewrite (proj2 (Z.eqb_neq _ 0)) by (destruct Hf; unfold alias; paging_consts; lia).
  apply runs_bind. eapply (load_page f _ _ 0); [done|slab_consts; lia|lia|]. rewrite Hm. cbn [negb Z.eqb Pos.eqb].
  replace (negb (KALLOC_SLAB_MAGIC =? KALLOC_SLAB_MAGIC)) with false by (by rewrite Z.eqb_refl).
  apply runs_bind. eapply (load_page f _ _ 4); [done|slab_consts; lia|lia|].
  apply runs_bind. eapply (load_page f _ _ 3); [done|slab_consts; lia|lia|]. rewrite Hfr, Ht.
  destruct (Z.eqb_spec (zlen (i :: l)) (total_blocks c)) as [Hall0|Hsome]; cbn [negb]; [|apply runs_ret; by apply Hdone].
  apply runs_bind. eapply (load_page f _ _ 1); [done|slab_consts; lia|lia|]. rewrite Hcl.
  rewrite (proj2 (Z.leb_gt _ _)) by lia.
  pose proof (hr_slabs _ _ R1 c Hc) as Hrep. rewrite Hsl1 in Hrep.
  pose proof (class_frames_nodup R1 c Hc) as Hnc. unfold class_frames in Hnc. rewrite Hsl1 in Hnc.
  pose proof (walk_fuel_enough R1 c Hc) as Hfuel. rewrite Hsl1, length_app in Hfuel.
  eapply unlink_runs; [exact Hrep| |exact Hnc|eapply Nat.le_lt_trans; [apply Nat.le_add_r|exact Hfuel]| |done|].
  - rewrite <- Hsl1. apply Forall_forall. intros [g lg] Hin. apply (heap_frame R1). by eapply class_frame.
  - cbn [link_at]. rewrite (hr_heads _ _ R1 c Hc). by rewrite Hsl1.
  - intros k' Hu. destruct (unlinked_heap R1 Hc Hsl1 k' Hu) as [R2 S2]. apply (HQ _ k' R2).
    constructor.
    + intros q m. rewrite (dropped_live R1 Hc Hsl1 Hall0). by apply (pushed_live k1).
    + eapply heap_step_trans; [exact S1|exact S2| |].
      * intros p n _ Hl. by apply (dropped_live R1 Hc Hsl1 Hall0).
      * intros g Hg _. by rewrite (taken_frames_all Hc Hsl).
Qed.
End Push.

(** The word in front of a block is not one of the allocator's marks. *)
Definition unmarked (k : kernel) (p : Z) : Prop :=
  word (k_mem k) (p - SIZEOF_LARGE) <> KALLOC_LARGE_MAGIC /\ word (k_mem k) (p - SIZEOF_LARGE) <> KALLOC_FREED_MAGIC.

Lemma kfree_slot h k c f l i (Q : unit -> kernel -> Prop) :
  heap_rep h k -> 0 <= c < KALLOC_CLASS_COUNT -> (f, l) ∈ h_slabs h c -> 0 <= i < total_blocks c -> i ∉ l ->
  unmarked k (slot_ptr f c i) ->
  (forall h' k', heap_rep h' k' -> freed h h' k k' (slot_ptr f c i) -> Q tt k') ->
  runs (kfree (slot_ptr f c i)) k Q.
Proof.
  intros R Hc Hin Hi Hil [Hu1 Hu2] HQ. apply list_elem_of_split in Hin as (pre & post & Hsl).
  pose proof (taken_frame R Hc Hsl) as Hf. destruct (slot_word_range c i Hc Hi) as [Hs1 Hs2].
  destruct (class_facts c Hc) as (Hsz & _ & Htot & _). assert (0 < class_size c / 4) by dlia.
  destruct (taken_rep R Hc Hsl) as [Hm Hcl Hbs Ht Hfr Hh Hn Hch Hnd Hall].
  assert (Hb : 0 < alias f /\ alias f + 4096 <= 2 ^ 32 /\ alias f mod 4096 = 0).
  { destruct Hf. unfold alias. paging_consts. dlia. }
  assert (Hlt : zlen l < total_blocks c).
  { pose proof (slots_bound (total_blocks c) (i :: l) ltac:(lia)) as Hx. unfold zlen in *. cbn [length] in Hx.
    enough (Z.of_nat (S (length l)) <= total_blocks c) by lia. apply Hx; [by apply NoDup_cons|by apply Forall_cons]. }
  unfold SIZEOF_LARGE, slot_ptr in Hu1, Hu2.
  replace (alias f + 4 * slot_word c i - 12) with (alias f + 4 * (slot_word c i - 3)) in Hu1, Hu2 by lia.
  rewrite word_page in Hu1, Hu2 by (done || lia).
  unfold kfree. rewrite (proj2 (Z.eqb_neq _ 0)) by (unfold slot_ptr; lia).
  rewrite (u32_small (slot_ptr f c i - SIZEOF_LARGE)) by (unfold slot_ptr, SIZEOF_LARGE; lia).
  apply runs_bind. eapply (load_page f _ _ (slot_word c i - 3)); [done|unfold slot_ptr, SIZEOF_LARGE, LARGE_magic; lia|lia|].
  rewrite (proj2 (Z.eqb_neq _ _) Hu1), (proj2 (Z.eqb_neq _ _) Hu2).
  replace (Z.land (slot_ptr f c i) _) with (alias f) by (rewrite page_mask by (unfold slot_ptr; lia); unfold slot_ptr; dlia).
  cbv zeta.
  apply runs_bind. eapply (load_page f _ _ 0); [done|slab_consts; lia|lia|].
  apply runs_bind. eapply (load_page f _ _ 1); [done|slab_consts; lia|lia|].
  apply runs_bind. eapply (load_page f _ _ 4); [done|slab_consts; lia|lia|].
  apply runs_bind. eapply (load_page f _ _ 3); [done|slab_consts; lia|lia|].
  rewrite Hm, Hcl, Hfr, Ht, Z.eqb_refl, (proj2 (Z.leb_gt _ _)), (proj2 (Z.leb_gt _ _)) by lia. cbn [negb orb].
  apply runs_bind. eapply (load_page f _ _ 5); [done|slab_consts; lia|lia|]. rewrite Hh.
  apply runs_bind. eapply (store_page f _ _ (slot_word c i)); [done|unfold slot_ptr; lia|lia|].
  apply runs_bind. eapply (store_page f _ _ 5); [done|slab_consts; lia|lia|].
  apply runs_bind. eapply (load_page f _ _ 4); [done|slab_consts; lia|lia|]. cbn. rewrite !mem_write_ne, Hfr by lia.
  apply runs_bind. eapply (store_page f _ _ 4); [done|slab_consts; lia|lia|].
  apply runs_bind. eapply (load_page f _ _ 2); [done|slab_consts; lia|lia|].
  apply runs_bind, runs_gets, runs_bind, runs_modify.
  rewrite u32_small by (unfold zlen in *; lia).
  eapply (remove_if_empty_runs R Hc Hsl Hi); [| |done]; set (k1 := Kernel _ _ _).
  - apply (slab_change_rep R Hc Hsl); try done.
    + intros g w Hg. cbn. by rewrite !mem_write_ne by (by left).
    + apply (pushed_rep R Hc Hsl Hi Hil); cbn; rewrite ?mem_write_eq; try done.
      * rewrite mem_write_ne by lia. by rewrite mem_write_eq.
      * rewrite !mem_write_ne by lia. by rewrite mem_write_eq.
      * intros w H4 H5 Hw. by rewrite !mem_write_ne by (by right).
  - apply (slab_change_step R Hc Hsl i); try done.
    + intros g w Hg. cbn. by rewrite !mem_write_ne by (by left).
    + right. by left.
    + intros w Hw Ho. cbn. by rewrite !mem_write_ne by lia.
Qed.

(** ** Returning a large block *)

Lemma release_run_lookup a count t x :
  0 <= count -> (forall y, in_run a count y = true -> t !! y = Some 1) ->
  spec_release_run a count t !! x = if in_run a count x then None else t !! x.
Proof.
  intros Hc H1. unfold spec_release_run.
  refine (foldl_count (fun k t' => forall x, t' !! x = if in_run a k x then None else t !! x) _ count t Hc _ _ x).
  - intros y. by rewrite in_run_0.
  - intros j t' Hj IH y. unfold spec_release. rewrite IH.
    assert (Hout : in_run a j (a + j * PMM_FRAME_SIZE) = false) by (unfold in_run; pmm_consts; dlia).
    assert (Hin : in_run a count (a + j * PMM_FRAME_SIZE) = true) by (unfold in_run; pmm_consts; dlia).
    rewrite Hout, (H1 _ Hin). cbn. rewrite in_run_snoc by lia.
    destruct (Z.eqb_spec y (a + j * PMM_FRAME_SIZE)) as [->|Hne].
    + rewrite lookup_delete_eq. by rewrite orb_true_r.
    + rewrite lookup_delete_ne by done. rewrite IH. by rewrite orb_false_r.
Qed.

Section FreeLarge.
Context {h : heap} {k : kernel} (R : heap_rep h k).
Context {f n sz : Z} {pre post : list (Z * Z * Z)}.
Hypothesis Hl : h_large h = pre ++ (f, n, sz) :: post.
Local Abbreviation h' := (Heap (h_slabs h) (pre ++ post)).

Lemma freed_in : (f, n, sz) ∈ h_large h.
Proof. rewrite Hl. apply elem_of_middle. by right. Qed.

Lemma freed_run : run_ok f n /\ 0 < n.
Proof. apply (large_run R _ freed_in). Qed.

Lemma freed_frames : heap_frames h ≡ₚ run_frames f n ++ heap_frames h'.
Proof.
  unfold heap_frames, large_frames, slab_frames, class_frames. cbn. rewrite Hl, !map_app, !concat_app. cbn.
  set (A := concat (map _ (up_to _ _ _))). set (B := concat (map _ pre)). set (C := run_frames f n).
  rewrite !app_assoc. f_equiv. rewrite <- !app_assoc. rewrite (Permutation_app_comm C). rewrite <- !app_assoc. done.
Qed.

Lemma freed_facts g : g ∈ run_frames f n -> g ∉ heap_frames h'.
Proof.
  pose proof (hr_nodup _ _ R) as Hn. rewrite freed_frames in Hn. apply NoDup_app in Hn as (_ & Hd & _). apply Hd.
Qed.

Lemma freed_live q m : live h' q m <-> live h q m /\ q <> alias f + 12.
Proof.
  split.
  - intros Hq. assert (Hq' : live h q m).
    { destruct Hq as [c g l j Hc Hin Hj Hnl|g a s Hin]; [by apply live_slot with l|]. apply live_large with s.
      rewrite Hl. apply elem_of_middle. by left. }
    split; [done|]. intros ->. destruct freed_run as [Hf Hn]. pose proof (run_frames_first f n Hn) as Hfr.
    assert (Hf1 : run_ok f 1) by (destruct Hf; constructor; lia).
    apply (freed_facts f Hfr). remember (alias f + 12) as p eqn:Ep.
    destruct Hq as [c g l j Hc Hin Hj Hnl|g a s Hin].
    + cbn in Hin. destruct (heap_frame R g (class_frame c g l Hc Hin)) as (_ & _ & Hg).
      destruct (slot_frame c g j f 12 Hc Hj Hg Hf1) as [-> _]; [lia|done|]. by apply (class_frame (h := h') c g l).
    + assert (g = f) as -> by (unfold alias in Ep; lia). apply (large_in_heap h' (f, a, s) f Hin).
      apply run_frames_first. refine (proj2 (large_run R (f, a, s) _)). rewrite Hl. apply elem_of_middle. by left.
  - intros [[c g l j Hc Hin Hj Hnl|g a s Hin] Hq]; [by apply live_slot with l|]. apply live_large with s.
    rewrite Hl in Hin. by apply elem_of_middle in Hin as [|[= -> -> ->]].
Qed.

Lemma freed_large k' :
  pmm_wf (k_pmm k') -> same_window (k_pmm k) (k_pmm k') -> s_slabs k' = s_slabs k ->
  pmm_table (k_pmm k') = spec_release_run f n (pmm_table (k_pmm k)) ->
  (forall g w, g <> f -> k_mem k' g w = k_mem k g w) ->
  heap_rep h' k' /\ freed h h' k k' (alias f + 12).
Proof.
  intros Hp Hw Hs Ht Hm. destruct freed_run as [Hf Hn]. pose proof (run_frames_first f n Hn) as Hfr.
  assert (Htab : forall g, pmm_table (k_pmm k') !! g = if in_run f n g then None else pmm_table (k_pmm k) !! g).
  { intros g. rewrite Ht. apply release_run_lookup; [lia|]. intros y Hy. apply run_frames_in_run in Hy; [|lia].
    apply (heap_frame R). rewrite freed_frames. apply elem_of_app. by left. }
  assert (Hold : forall g, g ∈ heap_frames h' -> g ∈ heap_frames h /\ in_run f n g = false /\ g <> f).
  { intros g Hg. split; [rewrite freed_frames; apply elem_of_app; by right|]. split.
    - destruct (in_run f n g) eqn:E; [|done]. apply run_frames_in_run in E; [|lia]. by apply freed_facts in E.
    - intros ->. by apply (freed_facts f). }
  assert (R' : heap_rep h' k').
  { constructor; try done.
    - rewrite Hs. apply (hr_heads _ _ R).
    - rewrite Hs. apply (hr_count _ _ R).
    - intros c Hc. eapply slabs_rep_ext; [|by apply (hr_slabs _ _ R)]. intros g w Hg. apply Hm, Hold.
      rewrite (heap_frames_class h' c Hc). apply elem_of_app. by left.
    - pose proof (hr_large _ _ R) as Hall. rewrite Forall_forall in Hall |- *. intros b Hb.
      destruct (Hall b) as (H0 & H1 & H2 & H3). { rewrite Hl. apply elem_of_middle. by left. }
      assert (b.1.1 <> f) by (apply Hold, (large_in_heap h' b _ Hb); by apply run_frames_first). by rewrite !Hm.
    - pose proof (hr_nodup _ _ R) as Hnd. rewrite freed_frames in Hnd. by apply NoDup_app in Hnd as (_ & _ & Hnd).
    - apply Forall_forall. intros g Hg. destruct (Hold g Hg) as (Hg1 & Hg2 & _).
      destruct (heap_frame R g Hg1) as (Hman & E & _). split; [by eapply same_window_managed|]. by rewrite Htab, Hg2. }
  split; [done|]. constructor; [apply freed_live|]. constructor; [|..|done].
  - intros p m _ Hq. symmetry. apply (live_ext h' k' p m _ R' Hq). intros g w Hg. symmetry. by apply Hm, Hold.
  - intros g w Hg _. apply Hm. intros ->. apply Hg. rewrite freed_frames. apply elem_of_app. by left.
  - intros g Hg _. rewrite Htab. destruct (in_run f n g) eqn:E; [|done]. apply run_frames_in_run in E; [|lia].
    exfalso. apply Hg. rewrite freed_frames. apply elem_of_app. by left.
  - intros g Hg Hng. exfalso. by apply Hng, Hold.
  - intros g Hg Hng. rewrite freed_frames in Hg. apply elem_of_app in Hg as [Hg|]; [|done].
    rewrite Htab. by rewrite (proj1 (run_frames_in_run f n g ltac:(lia)) Hg).
Qed.

Lemma kfree_large (Q : unit -> kernel -> Prop) :
  (forall k', heap_rep h' k' -> freed h h' k k' (alias f + 12) -> Q tt k') -> runs (kfree (alias f + 12)) k Q.
Proof.
  intros HQ. destruct freed_run as [Hf Hn]. assert (Hf1 : run_ok f 1) by (destruct Hf; constructor; lia).
  pose proof (hr_large _ _ R) as Hall. rewrite Forall_forall in Hall. destruct (Hall _ freed_in) as (_ & H0 & H1 & H2).
  cbn in H0, H1, H2. assert (Hb : 0 < alias f /\ alias f + 4096 <= 2 ^ 32).
  { destruct Hf1. unfold alias. paging_consts. dlia. }
  unfold kfree. rewrite (proj2 (Z.eqb_neq _ 0)) by lia. unfold SIZEOF_LARGE.
  replace (alias f + 12 - 12) with (alias f) by lia. rewrite (u32_small (alias f)) by lia. cbv zeta.
  apply runs_bind. eapply (load_page f _ _ 0); [done|slab_consts; lia|lia|]. rewrite H0, Z.eqb_refl.
  apply runs_bind. eapply (load_page f _ _ 1); [done|slab_consts; lia|lia|]. rewrite H1.
  apply runs_bind. eapply (load_page f _ _ 2); [done|slab_consts; lia|lia|]. rewrite H2.
  apply runs_bind. eapply (store_page f _ _ 0); [done|slab_consts; lia|lia|].
  apply runs_bind, runs_gets, runs_bind, runs_modify, runs_bind, virt_to_phys_k; [done|].
  apply runs_on_machine. unfold free_run_of. apply runs_modify. set (k1 := Kernel _ _ _).
  destruct (pmm_free_contiguous_frames_table (k_pmm k) f n (hr_pmm _ _ R)) as (Ht & Hw & Hp);
    [lia|destruct Hf; pmm_consts; lia|apply (ro_aligned f n Hf)|destruct Hf; pmm_consts; lia|].
  destruct (freed_large k1) as [R1 F1]; try done; [|by apply HQ].
  intros g w Hg. cbn. by rewrite mem_write_ne by (by left).
Qed.
End FreeLarge.

Lemma kfree_runs h k p n :
  heap_rep h k -> live h p n -> (n <= 1024 -> unmarked k p) ->
  runs (kfree p) k (fun _ k' => exists h', heap_rep h' k' /\ freed h h' k k' p).
Proof.
  intros R Hlive Hu. destruct Hlive as [c f l i Hc Hin Hi Hl|f m sz Hin].
  - destruct (class_facts c Hc) as (Hs & _). apply (kfree_slot h k c f l i); try done; [apply Hu; lia|].
    intros h' k' R' F. by exists h'.
  - apply list_elem_of_split in Hin as (pre & post & Hl). apply (kfree_large R Hl). intros k' R' F. by eexists.
Qed.

(** ** Properties of the allocator *)

(** A concrete kernel: a slab of the class of 1024 bytes in frame 3 whose slot 0 is in
    use, and a block of two frames in frames 0 and 1. *)
Definition demo_slab : Z := PMM_BASE + 3 * 4096.
Definition demo_mem (g w : Z) : Z :=
  if g =? demo_slab then
    zget 0 [KALLOC_SLAB_MAGIC; 5; 1024; 3; 2; slot_ptr demo_slab 5 2; 0] w +
    (if w =? slot_word 5 2 then slot_ptr demo_slab 5 1 else 0)
  else if g =? PMM_BASE then zget 0 [KALLOC_LARGE_MAGIC; 2; 5000] w
  else 0.
Definition demo_heap : heap := Heap (fun c => if c =? 5 then [(demo_slab, [2; 1])] else []) [(PMM_BASE, 2, 5000)].
Definition demo_kernel : kernel :=
  Kernel (Machine (Kmem 0x20000 0x20000 pmm_example) demo_mem 0 true) [0; 0; 0; 0; 0; alias demo_slab] (KallocStats 3 6024 2048 0 0).

Lemma demo_heap_rep : heap_rep demo_heap demo_kernel.
Proof.
  constructor.
  - apply pmm_wfb_sound. vm_compute. reflexivity.
  - intros c Hc%class_cases. destruct_or! Hc; subst; reflexivity.
  - reflexivity.
  - intros c Hc%class_cases. destruct_or! Hc; subst; try exact I. split; [|exact I].
    constructor; try reflexivity.
    + split; [reflexivity|]. split; reflexivity.
    + by repeat constructor; rewrite ?elem_of_cons, ?elem_of_nil; lia || intuition lia.
    + repeat constructor; lia.
  - repeat constructor.
  - apply (bool_decide_eq_true_1 (NoDup (heap_frames demo_heap))). vm_compute. reflexivity.
  - change (heap_frames demo_heap) with [PMM_BASE + 3 * 4096; PMM_BASE + 0 * 4096; PMM_BASE + 1 * 4096].
    repeat constructor; try (eexists; split; [|reflexivity]; vm_compute; split; congruence); vm_compute; reflexivity.
Qed.

(** C29: [kalloc] is correct in every state of the heap, whatever has been allocated and
    freed before: it returns 0, with nothing changed, only for a size of 0 or when memory
    is exhausted; otherwise the block is a fresh one of at least [size] zeroed bytes
    that overlaps no live block, the live blocks stay live with their contents, and
    neither memory nor the frame table changes outside of the heap's frames. *)
Theorem kalloc_correct h k size :
  heap_rep h k -> 0 <= size <= 2 ^ 32 - SIZEOF_LARGE ->
  runs (kalloc size) k (fun p k' => kalloc_post h k size p k'
    /\ forall h' n, heap_rep h' k' -> live h' p n -> forall q m, live h' q m -> q <> p -> p + n <= q \/ q + m <= p).
Proof.
  intros R Hs. eapply runs_mono; [by apply kalloc_runs|]. intros p k' Hpost. split; [done|].
  intros h' n R' Hp q m Hq Hne. eapply live_disjoint; try done.
Qed.

Lemma kalloc_correct_witness :
  heap_rep demo_heap demo_kernel /\
  runs (kalloc 1000) demo_kernel (fun p k' => kalloc_post demo_heap demo_kernel 1000 p k'
    /\ forall h' n, heap_rep h' k' -> live h' p n -> forall q m, live h' q m -> q <> p -> p + n <= q \/ q + m <= p).
Proof.
  split; [apply demo_heap_rep|]. apply (kalloc_correct demo_heap demo_kernel 1000); [apply demo_heap_rep|].
  unfold SIZEOF_LARGE. lia.
Defined.

(** C30: [kfree] of a live block removes exactly that block: the other blocks stay live
    with their contents, memory and frames outside of the heap are untouched, and the
    heap stays well formed, also when the last slot of a slab is returned and the slab
    is unlinked and its frame released.  For a block of a slab this needs that the
    word 12 bytes in front of it is not one of the allocator's marks. *)
Theorem kfree_correct h k p n :
  heap_rep h k -> live h p n -> (n <= 1024 -> unmarked k p) ->
  runs (kfree p) k (fun _ k' => exists h', heap_rep h' k' /\ freed h h' k k' p).
Proof. apply kfree_runs. Qed.

Lemma kfree_correct_witness :
  live demo_heap (slot_ptr demo_slab 5 0) 1024 /\
  runs (kfree (slot_ptr demo_slab 5 0)) demo_kernel
    (fun _ k' => exists h', heap_rep h' k' /\ freed demo_heap h' demo_kernel k' (slot_ptr demo_slab 5 0)).
Proof.
  assert (Hl : live demo_heap (slot_ptr demo_slab 5 0) 1024).
  { apply (live_slot demo_heap 5 demo_slab [2; 1] 0); [by vm_compute|by left|by vm_compute|].
    rewrite !elem_of_cons, elem_of_nil. lia. }
  split; [done|]. apply (kfree_correct demo_heap demo_kernel _ 1024); [apply demo_heap_rep|done|].
  intros _. split; vm_compute; congruence.
Defined.

(** For the eleven largest sizes the header size wraps around: [kalloc] then
    succeeds with a block of one page, although it was asked for almost 4 GiB. *)
Theorem kalloc_size_wraps h k size s :
  heap_rep h k -> 2 ^ 32 - SIZEOF_LARGE < size < 2 ^ 32 -> free_run (k_pmm k) s 1 ->
  runs (kalloc size) k (fun p k' => p <> 0 /\ exists h', heap_rep h' k' /\ allocated h h' k k' p 4084).
Proof.
  unfold SIZEOF_LARGE. intros R Hs Hfree. unfold kalloc. rewrite (proj2 (Z.eqb_neq size 0)) by lia. cbv zeta.
  destruct (class_for_size_spec size ltac:(lia)) as [(Hc & Hle & _)|[-> _]].
  { destruct (class_facts _ Hc). lia. }
  cbn [Z.leb Z.compare]. apply (kalloc_large_frames R 1); [|lia|by intros Hno; destruct (Hno s)|].
  - unfold SIZEOF_LARGE. replace (u32 (size + 12)) with (size + 12 - 2 ^ 32).
    + rewrite PAGE_ALIGN_eq by lia. dlia.
    + unfold u32. apply Z.mod_unique with 1; lia.
  - intros f k' h' R' A Hne. split; [done|]. by exists h'.
Qed.

Lemma kalloc_size_wraps_witness :
  runs (kalloc 0xFFFFFFFF) demo_kernel
    (fun p k' => p <> 0 /\ exists h', heap_rep h' k' /\ allocated demo_heap h' demo_kernel k' p 4084).
Proof.
  apply (kalloc_size_wraps demo_heap demo_kernel 0xFFFFFFFF 4); [apply demo_heap_rep|unfold SIZEOF_LARGE; lia|].
  split; [lia|]. split; [vm_compute; congruence|]. intros j Hj. assert (j = 4) as -> by lia. reflexivity.
Defined.
