(* ===== verification/KernelVm.v ===== *)
(** * Kernel heap and address spaces together

    The kernel allocator and the page tables share the physical memory manager.  The
    frames of the heap count as references held outside of page tables, so an
    allocation keeps every address space intact and a page-table operation keeps the
    heap intact. *)
From S2P Require Import Prelude BootInfo Pmm Memory Paging AddressSpace AddressOps AddressLife.
From S2P Require Import Kalloc KallocRep KallocOps KallocProps KallocLarge KallocFree.
From Stdlib Require Import ZArith Lia ZifyBool Bool.
From stdpp Require Import base numbers gmap list.
Local Open Scope Z_scope.
Local Open Scope kernel_scope.

Section Both.
Variable kpd : Z.

(** The frames of the heap are held outside of page tables. *)
Record heap_apart (h : heap) (ext : Z -> Z) : Prop := HeapApart {
  ha_ext : forall f, f ∈ heap_frames h -> ext f = 1;
  ha_kpd : kpd ∉ heap_frames h
}.

Record both (h : heap) (pds : gset Z) (pts : gmap (Z * Z) Z) (ext : Z -> Z) (k : kernel) : Prop := Both {
  bo_heap : heap_rep h k;
  bo_vm : vm_rep kpd pds pts ext (k_pmm k) (k_mem k);
  bo_apart : heap_apart h ext
}.

Definition in_heap (h : heap) (f : Z) : Z := if decide (f ∈ heap_frames h) then 1 else 0.

(** ** The allocator *)

Lemma table_not_heap h pds pts ext k f : both h pds pts ext k -> is_table pds pts f -> f ∉ heap_frames h.
Proof.
  intros [H V A] Hf Hin. destruct (vr_table _ _ _ _ _ _ V f Hf) as (_ & _ & E & _). rewrite (ha_ext _ _ A f Hin) in E. lia.
Qed.

Lemma heap_unmapped h pds pts ext k f : both h pds pts ext k -> f ∈ heap_frames h -> refs (k_mem k) pts f = 0.
Proof.
  intros [H V A] Hin. destruct (heap_frame H f Hin) as (Hm & Ht & _). pose proof (ha_ext _ _ A f Hin) as E.
  assert (Hnt : ~ is_table pds pts f) by (intros Hf; by eapply table_not_heap).
  pose proof (vr_refs _ _ _ _ _ _ V f Hm Hnt) as Hr. unfold frame_refs in Hr. rewrite Ht in Hr. cbn in Hr. lia.
Qed.

Lemma both_alloc h h' pds pts ext k k' :
  both h pds pts ext k -> heap_rep h' k' -> heap_step h h' k k' ->
  exists ext', both h' pds pts ext' k' /\ (forall f, f ∉ heap_frames h -> f ∉ heap_frames h' -> ext' f = ext f)
    /\ (forall f i, is_table pds pts f -> k_mem k' f i = k_mem k f i).
Proof.
  intros B R' S. pose proof B as [R V A].
  assert (Htab : forall f, is_table pds pts f -> (f ∉ heap_frames h) /\ f ∉ heap_frames h').
  { intros f Hf. assert (Hn : f ∉ heap_frames h) by (by eapply table_not_heap). split; [done|]. intros Hin.
    pose proof (hs_fresh _ _ _ _ S f Hin Hn) as E. destruct (vr_table _ _ _ _ _ _ V f Hf) as (_ & E' & _). congruence. }
  assert (Hkn : kpd ∉ heap_frames h').
  { intros Hin. pose proof (hs_fresh _ _ _ _ S kpd Hin (ha_kpd _ _ A)) as E.
    destruct (heap_frame R' kpd Hin) as (Hm & _). apply (same_window_managed _ _ _ (hs_window _ _ _ _ S)) in Hm.
    destruct (free_frame_unused V kpd Hm E) as (_ & _ & _ & Hne). done. }
  exists (fun f => ext f + in_heap h' f - in_heap h f).
  assert (Hsame : forall f, f ∉ heap_frames h -> f ∉ heap_frames h' -> ext f + in_heap h' f - in_heap h f = ext f).
  { intros f H1 H2. unfold in_heap. rewrite !decide_False by done. lia. }
  assert (Hext : forall f, f ∈ heap_frames h' -> ext f + in_heap h' f - in_heap h f = 1).
  { intros f Hin. unfold in_heap. rewrite (decide_True (P := f ∈ heap_frames h')) by done.
    case_decide as Hh; [rewrite (ha_ext _ _ A f Hh); lia|]. pose proof (hs_fresh _ _ _ _ S f Hin Hh) as E.
    destruct (heap_frame R' f Hin) as (Hm & _). apply (same_window_managed _ _ _ (hs_window _ _ _ _ S)) in Hm.
    destruct (free_frame_unused V f Hm E) as (_ & -> & _). lia. }
  assert (Hout : forall f, f ∈ heap_frames h -> f ∉ heap_frames h' -> ext f + in_heap h' f - in_heap h f = 0).
  { intros f H1 H2. unfold in_heap. rewrite decide_False, decide_True by done. rewrite (ha_ext _ _ A f H1). lia. }
  split_and!; [|exact Hsame|].
  2:{ intros f i Hf. destruct (Htab f Hf). by apply (hs_mem _ _ _ _ S). }
  constructor; [done| |by constructor].
  assert (V1 : vm_rep kpd pds pts ext (k_pmm k) (k_mem k')).
  { apply (vm_rep_mem V). intros f i Hf. apply (hs_mem _ _ _ _ S); destruct Hf as [Hf| ->]; try by apply Htab.
    - apply (ha_kpd _ _ A).
    - done. }
  apply (vm_rep_counts V1).
  - apply (hr_pmm _ _ R').
  - apply (hs_window _ _ _ _ S).
  - intros f Hf. destruct (Htab f Hf). split; [by apply (hs_pmm _ _ _ _ S)|by apply Hsame].
  - intros f Hm Hnt. unfold frame_refs.
    destruct (decide (f ∈ heap_frames h)) as [H1|H1], (decide (f ∈ heap_frames h')) as [H2|H2].
    + destruct (heap_frame R f H1) as (_ & -> & _). destruct (heap_frame R' f H2) as (_ & -> & _).
      rewrite Hext by done. by rewrite (ha_ext _ _ A f H1).
    + destruct (heap_frame R f H1) as (_ & -> & _). rewrite (hs_freed _ _ _ _ S f H1 H2), Hout by done.
      by rewrite (ha_ext _ _ A f H1).
    + destruct (heap_frame R' f H2) as (_ & -> & _). pose proof (hs_fresh _ _ _ _ S f H2 H1) as E. rewrite E, Hext by done.
      destruct (free_frame_unused V f Hm E) as (_ & -> & _). done.
    + by rewrite (hs_pmm _ _ _ _ S f H1 H2), Hsame.
  - intros f. pose proof (vr_ext _ _ _ _ _ _ V f). unfold in_heap. repeat case_decide; try lia.
    rewrite (ha_ext _ _ A f) by done. lia.
  - intros Hm. rewrite Hsame by (done || apply (ha_kpd _ _ A)). by apply (vr_kpd _ _ _ _ _ _ V).
Qed.

(** ** Page-table operations *)

Lemma refs_user pds pts ext p mem f :
  vm_rep kpd pds pts ext p mem ->
  refs mem pts f = 0 <-> forall pd v, pd ∈ pds -> user_page v -> pte_maps (user_pte mem pd v) f = false.
Proof.
  intros V. split.
  - intros H0 pd v Hpd Hv. destruct (pte_maps (user_pte mem pd v) f) eqn:E; [|done]. exfalso.
    rewrite (user_pte_rep V) in E by done. destruct (pts !! (pd, v / 1024)) as [pt|] eqn:Hk; [|done].
    pose proof (refs_pos mem pts _ pt (v mod 1024) f Hk (Z.mod_pos_bound v 1024 ltac:(lia)) E). lia.
  - intros H. apply refs_zero. intros [pd i] pt j Hk Hj. destruct (vr_dom _ _ _ _ _ _ V _ _ _ Hk) as [Hpd Hi].
    pose proof (user_index_range i Hi). specialize (H pd (i * 1024 + j) Hpd).
    assert (Ed : (i * 1024 + j) / 1024 = i) by dlia. assert (Em : (i * 1024 + j) mod 1024 = j) by dlia.
    unfold user_page in H. rewrite Ed in H. specialize (H Hi). rewrite (user_pte_rep V) in H by (done || unfold user_page; by rewrite Ed).
    by rewrite Ed, Em, Hk in H.
Qed.

(** A step of the machine that keeps the references and the contents of the heap's frames. *)
Lemma both_keep h pds pts pts' ext ext' k s' :
  both h pds pts ext k -> vm_rep kpd pds pts' ext' (m_pmm s') (m_mem s') -> same_window (k_pmm k) (m_pmm s') ->
  (forall f, f ∈ heap_frames h -> ext' f = ext f) ->
  (forall f, f ∈ heap_frames h -> pmm_table (m_pmm s') !! f = Some 1) ->
  (forall f i, f ∈ heap_frames h -> ~ is_table pds pts f -> ~ is_table pds pts' f -> m_mem s' f i = k_mem k f i) ->
  both h pds pts' ext' (Kernel s' (s_slabs k) (s_stats k)).
Proof.
  intros B V' Hw Hext Hone Hmem. pose proof B as [R V A].
  assert (A' : heap_apart h ext').
  { constructor; [|apply (ha_kpd _ _ A)]. intros f Hf. rewrite Hext by done. by apply (ha_ext _ _ A). }
  assert (Hm : forall f i, f ∈ heap_frames h -> m_mem s' f i = k_mem k f i).
  { intros f i Hf. apply Hmem; [done|intros Ht; by eapply table_not_heap|]. intros Ht.
    destruct (vr_table _ _ _ _ _ _ V' f Ht) as (_ & _ & E & _). rewrite (ha_ext _ _ A' f Hf) in E. lia. }
  constructor; [|done|done]. constructor; cbn.
  - apply (vr_pmm _ _ _ _ _ _ V').
  - apply (hr_heads _ _ R).
  - apply (hr_count _ _ R).
  - intros c Hc. eapply slabs_rep_ext; [|by apply (hr_slabs _ _ R)]. intros f i Hf. apply Hm.
    rewrite (heap_frames_class h c Hc). apply elem_of_app. by left.
  - pose proof (hr_large _ _ R) as Hl. rewrite Forall_forall in Hl |- *. intros b Hb.
    destruct (Hl b Hb) as (H0 & H1 & H2 & H3). pose proof (large_in_heap h b b.1.1 Hb (run_frames_first _ _ H0)).
    unfold k_mem at 1 2 3. cbn. by rewrite !Hm.
  - apply (hr_nodup _ _ R).
  - apply Forall_forall. intros f Hf. destruct (heap_frame R f Hf) as (Hman & _).
    split; [by apply (same_window_managed _ _ _ Hw)|by apply Hone].
Qed.

(** A step of the machine that maps no frame of the heap and leaves its contents. *)
Lemma both_paging h pds pts pts' ext ext' k s' :
  both h pds pts ext k -> vm_rep kpd pds pts' ext' (m_pmm s') (m_mem s') -> same_window (k_pmm k) (m_pmm s') ->
  (forall f, f ∈ heap_frames h -> ext' f = ext f) ->
  (forall f pd v, f ∈ heap_frames h -> pd ∈ pds -> user_page v ->
     pte_maps (user_pte (m_mem s') pd v) f = true -> pte_maps (user_pte (k_mem k) pd v) f = true) ->
  (forall f i, f ∈ heap_frames h -> ~ is_table pds pts f -> ~ is_table pds pts' f -> m_mem s' f i = k_mem k f i) ->
  both h pds pts' ext' (Kernel s' (s_slabs k) (s_stats k)).
Proof.
  intros B V' Hw Hext Hmap Hmem. eapply both_keep; try done. intros f Hf. pose proof B as [R V A].
  destruct (heap_frame R f Hf) as (Hman & _). apply (same_window_managed _ _ _ Hw) in Hman.
  assert (E1 : ext' f = 1) by (rewrite Hext by done; by apply (ha_ext _ _ A)).
  assert (Hnt : ~ is_table pds pts' f).
  { intros Ht. destruct (vr_table _ _ _ _ _ _ V' f Ht) as (_ & _ & E & _). lia. }
  pose proof (vr_refs _ _ _ _ _ _ V' f Hman Hnt) as E. rewrite E1, (proj2 (refs_user _ _ _ _ _ f V')) in E.
  - unfold frame_refs in E. destruct (pmm_table (m_pmm s') !! f); cbn in E; [f_equal; lia|lia].
  - intros pd v Hpd Hv. destruct (pte_maps (user_pte (m_mem s') pd v) f) eqn:E'; [|done]. exfalso.
    apply Hmap in E'; [|done..]. pose proof (heap_unmapped _ _ _ _ _ _ B Hf) as Hz.
    rewrite (refs_user _ _ _ _ _ f V) in Hz. by rewrite Hz in E'.
Qed.
End Both.
