(* ===== verification/Arrays.v ===== *)
(** * Arrays

    The two loops that shift the tail of an array by one place, as the tables of the
    kernel use them to delete and insert an element. *)
From S2P Require Import Prelude.
From Stdlib Require Import ZArith Lia ZifyBool Bool.
From stdpp Require Import base numbers gmap list.
Local Open Scope Z_scope.
Local Open Scope kernel_scope.

(** [for (j = i; j < n; j++) s[j] = s[j + 1];] *)
Definition move_down {A} (d : A) (i n : Z) (s : list A) : list A :=
  foldl (fun s j => zset s j (zget d s (j + 1))) s (up_to i n 1).

(** [for (j = n; j > i; j--) s[j] = s[j - 1];] *)
Definition move_up {A} (d : A) (i n : Z) (s : list A) : list A :=
  foldl (fun s j => zset s j (zget d s (j - 1))) s (reverse (up_to (i + 1) (n + 1) 1)).

Section Shifts.
Context {A : Type} (d : A).
Implicit Types s : list A.

Lemma zlist_eq (l l' : list A) :
  zlen l = zlen l' -> (forall k, 0 <= k < zlen l -> zget d l k = zget d l' k) -> l = l'.
Proof.
  unfold zlen, zget. intros Hn Hg. apply list_eq. intros i.
  destruct (decide (i < length l)%nat) as [Hi|Hi].
  - specialize (Hg (Z.of_nat i) ltac:(lia)). rewrite Nat2Z.id in Hg.
    destruct (lookup_lt_is_Some_2 l i Hi) as [x Hx].
    destruct (lookup_lt_is_Some_2 l' i ltac:(lia)) as [y Hy].
    rewrite Hx, Hy in *. by cbn in Hg; subst.
  - rewrite !lookup_ge_None_2 by lia. done.
Qed.

Lemma zget_app_l (l l' : list A) k : 0 <= k < zlen l -> zget d (l ++ l') k = zget d l k.
Proof. unfold zlen, zget. intros. by rewrite lookup_app_l by lia. Qed.

Lemma zget_app_r (l l' : list A) k : zlen l <= k -> zget d (l ++ l') k = zget d l' (k - zlen l).
Proof.
  unfold zlen, zget. intros. rewrite lookup_app_r by lia. f_equal. f_equal. lia.
Qed.

Lemma zget_cons x (l : list A) k : zget d (x :: l) k = if k <=? 0 then x else zget d l (k - 1).
Proof.
  unfold zget. destruct (Z.leb_spec k 0).
  - by replace (Z.to_nat k) with 0%nat by lia.
  - by replace (Z.to_nat k) with (S (Z.to_nat (k - 1))) by lia.
Qed.

Lemma zget_take (l : list A) n k : 0 <= k < n -> zget d (take (Z.to_nat n) l) k = zget d l k.
Proof. unfold zget. intros. by rewrite lookup_take_lt by lia. Qed.

Lemma zlen_take (l : list A) n : 0 <= n <= zlen l -> zlen (take (Z.to_nat n) l) = n.
Proof. unfold zlen. intros. rewrite length_take. lia. Qed.

Lemma zlen_app (l l' : list A) : zlen (l ++ l') = zlen l + zlen l'.
Proof. unfold zlen. rewrite length_app. lia. Qed.

Lemma zlen_cons x (l : list A) : zlen (x :: l) = 1 + zlen l.
Proof. unfold zlen. cbn. lia. Qed.

Lemma zlen_nonneg (l : list A) : 0 <= zlen l.
Proof. unfold zlen. lia. Qed.

Lemma move_down_len i n s : zlen (move_down d i n s) = zlen s.
Proof.
  unfold move_down. generalize (up_to i n 1). intros l. revert s.
  induction l as [|j l IH]; intros s; [done|]. cbn. by rewrite IH, zlen_zset.
Qed.

Lemma move_up_len i n s : zlen (move_up d i n s) = zlen s.
Proof.
  unfold move_up. generalize (reverse (up_to (i + 1) (n + 1) 1)). intros l. revert s.
  induction l as [|j l IH]; intros s; [done|]. cbn. by rewrite IH, zlen_zset.
Qed.

Lemma move_down_get i n s k :
  0 <= i <= n -> n < zlen s -> 0 <= k ->
  zget d (move_down d i n s) k = if (i <=? k) && (k <? n) then zget d s (k + 1) else zget d s k.
Proof.
  intros Hi Hn. revert k. unfold move_down.
  apply (foldl_range (fun j t => zlen t = zlen s /\ forall k, 0 <= k ->
    zget d t k = if (i <=? k) && (k <? j) then zget d s (k + 1) else zget d s k)); [lia| |].
  - split; [done|]. intros k Hk. by rewrite (proj2 (andb_false_iff _ _)) by lia.
  - intros j t Hj [Hlen IH]. split; [by rewrite zlen_zset|]. intros k Hk.
    rewrite zget_zset by lia. destruct (Z.eqb_spec j k) as [<-|Hne].
    + rewrite IH by lia. rewrite (proj2 (andb_false_iff _ _)) by lia. by rewrite (proj2 (andb_true_iff _ _)) by lia.
    + rewrite IH by lia. destruct ((i <=? k) && (k <? j)) eqn:E, ((i <=? k) && (k <? j + 1)) eqn:E'; try done; lia.
Qed.

Lemma move_up_step i n : i < n -> reverse (up_to (i + 1) (n + 1) 1) = n :: reverse (up_to (i + 1) n 1).
Proof.
  intros H. assert (up_to (i + 1) (n + 1) 1 = up_to (i + 1) n 1 ++ [n]) as ->.
  { unfold up_to. rewrite !Z.div_1_r. replace (n + 1 - (i + 1) + 1 - 1) with (n - i) by lia.
    replace (n - (i + 1) + 1 - 1) with (n - i - 1) by lia.
    replace (n - i) with (Z.of_nat (S (Z.to_nat (n - i - 1)))) by lia.
    replace (n - i - 1) with (Z.of_nat (Z.to_nat (n - i - 1))) at 2 by lia. rewrite seqZ_S, map_app. cbn.
    do 2 f_equal; [f_equal|]; lia. }
  by rewrite reverse_snoc.
Qed.

Lemma move_up_get i n s k :
  0 <= i <= n -> n < zlen s -> 0 <= k ->
  zget d (move_up d i n s) k = if (i <? k) && (k <=? n) then zget d s (k - 1) else zget d s k.
Proof.
  intros Hi Hn Hk. assert (exists m, n = i + Z.of_nat m) as [m ->] by (exists (Z.to_nat (n - i)); lia).
  revert s Hn. induction m as [|m IH]; intros s Hn.
  - unfold move_up. rewrite up_to_nil by lia. cbn. by rewrite (proj2 (andb_false_iff _ _)) by lia.
  - unfold move_up. rewrite move_up_step by lia. cbn [foldl].
    change (foldl _ ?t (reverse (up_to (i + 1) (i + Z.of_nat (S m)) 1)))
      with (foldl (fun s j => zset s j (zget d s (j - 1))) t (reverse (up_to (i + 1) (i + Z.of_nat (S m)) 1))).
    replace (i + Z.of_nat (S m)) with (i + Z.of_nat m + 1) by lia.
    set (t := zset s _ _). change (foldl _ t _) with (move_up d i (i + Z.of_nat m) t).
    rewrite IH by (unfold t; rewrite ?zlen_zset; lia). unfold t.
    destruct ((i <? k) && (k <=? i + Z.of_nat m)) eqn:E.
    + rewrite (proj2 (andb_true_iff _ _)) by lia. apply zget_zset_ne; lia.
    + rewrite zget_zset by lia. destruct (Z.eqb_spec (i + Z.of_nat m + 1) k) as [<-|Hne].
      * rewrite (proj2 (andb_true_iff _ _)) by lia. f_equal; lia.
      * by rewrite (proj2 (andb_false_iff _ _)) by lia.
Qed.

(** Deleting element [i] of the first [n]. *)
Lemma take_move_down i n s :
  0 <= i < n -> n <= zlen s ->
  take (Z.to_nat (n - 1)) (move_down d i (n - 1) s)
  = take (Z.to_nat i) s ++ drop (S (Z.to_nat i)) (take (Z.to_nat n) s).
Proof.
  intros Hi Hn. assert (Hd : zlen (drop (S (Z.to_nat i)) (take (Z.to_nat n) s)) = n - 1 - i).
  { unfold zlen in *. rewrite length_drop, length_take. lia. }
  apply zlist_eq.
  - rewrite zlen_app, !zlen_take by (rewrite ?move_down_len; lia). rewrite Hd. lia.
  - rewrite zlen_take by (rewrite move_down_len; lia). intros k Hk. rewrite zget_take, move_down_get by lia.
    destruct (Z.ltb_spec k i).
    + rewrite (proj2 (andb_false_iff _ _)) by lia. rewrite zget_app_l by (rewrite zlen_take; lia).
      by rewrite zget_take by lia.
    + rewrite (proj2 (andb_true_iff _ _)) by lia. rewrite zget_app_r by (rewrite zlen_take; lia).
      rewrite zlen_take by lia. unfold zget. rewrite lookup_drop, lookup_take_lt by lia. do 2 f_equal. lia.
Qed.

(** Inserting [x] at [i]. *)
Lemma take_move_up i n s x :
  0 <= i <= n -> n < zlen s ->
  take (Z.to_nat (n + 1)) (zset (move_up d i n s) i x)
  = take (Z.to_nat i) s ++ x :: drop (Z.to_nat i) (take (Z.to_nat n) s).
Proof.
  intros Hi Hn. assert (Hd : zlen (drop (Z.to_nat i) (take (Z.to_nat n) s)) = n - i).
  { unfold zlen in *. rewrite length_drop, length_take. lia. }
  apply zlist_eq.
  - rewrite zlen_app, zlen_cons, !zlen_take by (rewrite ?zlen_zset, ?move_up_len; lia). rewrite Hd. lia.
  - rewrite zlen_take by (rewrite zlen_zset, move_up_len; lia). intros k Hk.
    rewrite zget_take, zget_zset, move_up_get by (rewrite ?move_up_len; lia).
    destruct (Z.ltb_spec k i).
    + rewrite (proj2 (Z.eqb_neq i k)), (proj2 (andb_false_iff _ _)) by lia.
      rewrite zget_app_l by (rewrite zlen_take; lia). by rewrite zget_take by lia.
    + rewrite zget_app_r by (rewrite zlen_take; lia). rewrite zlen_take, zget_cons by lia.
      destruct (Z.eqb_spec i k) as [<-|Hne].
      * by rewrite (proj2 (Z.leb_le _ _)) by lia.
      * rewrite (proj2 (andb_true_iff _ _)), (proj2 (Z.leb_gt _ _)) by lia.
        unfold zget. rewrite lookup_drop, lookup_take_lt by lia. do 2 f_equal. lia.
Qed.
End Shifts.

(** The first index that satisfies a test, as the search loops compute it. *)
Lemma find_first_spec (P : Z -> Prop) `{forall i, Decision (P i)} n :
  match list_find P (up_to 0 n 1) with
  | Some (_, i) => 0 <= i < n /\ P i /\ forall k, 0 <= k < i -> ~ P k
  | None => forall k, 0 <= k < n -> ~ P k
  end.
Proof.
  assert (Hup : forall j i, up_to 0 n 1 !! j = Some i <-> (i = Z.of_nat j /\ i < n)).
  { intros j i. unfold up_to. rewrite Z.div_1_r. rewrite list_lookup_fmap_Some.
    setoid_rewrite lookup_seqZ. split; [intros (y & ? & ? & ?); lia|intros [? ?]; exists (Z.of_nat j); lia]. }
  destruct (list_find P (up_to 0 n 1)) as [[j i]|] eqn:E.
  - apply list_find_Some in E as (Hj & HP & Hmin). apply Hup in Hj as [-> Hn]. split_and!; [lia|lia|done|].
    intros k Hk. apply (Hmin (Z.to_nat k)); [|lia]. apply Hup. lia.
  - apply list_find_None in E. rewrite Forall_forall in E. intros k Hk. apply E. apply elem_of_up_to; [lia|].
    exists k. lia.
Qed.

Lemma zget_split {A} (d : A) (l : list A) i :
  0 <= i < zlen l -> l = take (Z.to_nat i) l ++ zget d l i :: drop (Z.to_nat (i + 1)) l.
Proof.
  intros Hi. rewrite <- (take_drop_middle l (Z.to_nat i) (zget d l i)) at 1.
  - do 3 f_equal. lia.
  - by apply lookup_zget.
Qed.

Lemma zget_elem {A} (d : A) (l : list A) i : 0 <= i < zlen l -> zget d l i ∈ l.
Proof. intros Hi. apply list_elem_of_lookup. exists (Z.to_nat i). by apply lookup_zget. Qed.

Lemma elem_zget {A} (d : A) (l : list A) x : x ∈ l -> exists i, 0 <= i < zlen l /\ zget d l i = x.
Proof.
  intros [k Hk]%list_elem_of_lookup. pose proof (lookup_lt_Some _ _ _ Hk). exists (Z.of_nat k).
  unfold zlen, zget. rewrite Nat2Z.id, Hk. split; [lia|done].
Qed.

Lemma zlen_map {A B} (f : A -> B) (l : list A) : zlen (map f l) = zlen l.
Proof. unfold zlen. by rewrite length_map. Qed.

(** Storing into one of the first [n] elements. *)
Lemma take_zset {A} (l : list A) n i x :
  0 <= i < n -> n <= zlen l ->
  take (Z.to_nat n) (zset l i x) = take (Z.to_nat i) (take (Z.to_nat n) l) ++ x :: drop (Z.to_nat (i + 1)) (take (Z.to_nat n) l).
Proof.
  intros Hi Hn. unfold zset, zlen in *. rewrite take_insert_lt by lia.
  rewrite insert_take_drop by (rewrite length_take; lia). do 3 f_equal. lia.
Qed.
