(* ===== verification/Klib.v ===== *)
(** * Kernel string library

    Models the string half of [src/src/kernel/klib.c].  A C string is the list of the
    bytes before its terminator; reading at the terminator or past the list gives 0,
    which is how the loops see the end of the string.  [k_memcpy] and [k_memset] are
    modelled where they are called, on the memory of the caller. *)
From S2P Require Import Prelude.
From Stdlib Require Import ZArith Lia ZifyBool Bool.
From Stdlib Require Import String Ascii.
From stdpp Require Import base numbers list.
Local Open Scope Z_scope.

(** Bytes before the terminator. *)
Abbreviation cstring := (list Z).

(** The bytes of a string literal. *)
Definition bytes (s : string) : cstring := map (fun a => Z.of_N (N_of_ascii a)) (list_ascii_of_string s).
Arguments bytes s%_string_scope.

(** No byte of the list is the terminator. *)
Definition cstr_ok (s : cstring) : Prop := Forall (fun c => c <> 0) s.

Definition k_strlen (s : cstring) : Z := zlen s.

(** The loop of [k_strcmp] from the current index on. *)
Fixpoint k_strcmp (a b : cstring) : bool :=
  match a, b with
  | x :: a', y :: b' => if negb (x =? y) then false else k_strcmp a' b'
  | [], [] => true
  | _, _ => false
  end.

(** [k_strncpy(dst, src, n)]: what [dst] holds as a string afterwards.  The bound
    [n - 1] is a [k_size_t], so [n = 0] copies without limit. *)
Definition k_strncpy (src : cstring) (n : Z) : cstring := take (Z.to_nat (u32 (n - 1))) src.

Fixpoint k_starts_with (s prefix : cstring) {struct prefix} : bool :=
  match prefix, s with
  | [], _ => true
  | p :: prefix', c :: s' => if negb (c =? p) then false else k_starts_with s' prefix'
  | _ :: _, [] => false
  end.

(** ** Lemmas *)

Lemma k_strcmp_eq a b : k_strcmp a b = bool_decide (a = b).
Proof.
  revert b. induction a as [|x a IH]; intros [|y b]; cbn; try done.
  destruct (Z.eqb_spec x y) as [->|]; cbn.
  - rewrite IH. apply bool_decide_ext. naive_solver.
  - symmetry. apply bool_decide_eq_false. naive_solver.
Qed.

Lemma k_starts_with_eq s prefix : k_starts_with s prefix = bool_decide (prefix `prefix_of` s).
Proof.
  revert s. induction prefix as [|p prefix IH]; intros s; cbn.
  - symmetry. apply bool_decide_eq_true. apply prefix_nil.
  - destruct s as [|c s].
    + symmetry. apply bool_decide_eq_false. apply prefix_nil_not.
    + destruct (Z.eqb_spec c p) as [->|]; cbn.
      * rewrite IH. apply bool_decide_ext. split; [apply prefix_cons|apply prefix_cons_inv_2].
      * symmetry. apply bool_decide_eq_false. intros H%prefix_cons_inv_1. congruence.
Qed.

Lemma k_strncpy_length src n : 1 <= n < 2 ^ 32 -> zlen (k_strncpy src n) < n.
Proof.
  intros Hn. unfold k_strncpy, zlen. rewrite u32_small by lia. rewrite length_take. lia.
Qed.

Lemma k_strncpy_fits src n : 0 <= n < 2 ^ 32 -> zlen src < n -> k_strncpy src n = src.
Proof.
  intros Hn Hl. unfold k_strncpy, zlen in *. rewrite u32_small by lia. apply take_ge. lia.
Qed.
