(* ===== verification/Path.v ===== *)
(** * Path resolution

    Models the path half of [src/src/kernel/syscall_user.c]: [path_build_from], which
    turns the path a system call receives and the directory it is relative to into the
    canonical form the file system layer uses (no leading separator, components joined
    with [/], no [.] or [..]).  The fixed arrays [comps[16][32]] and [component[32]]
    are lists whose bounds the code's own guards enforce. *)
From S2P Require Import Prelude Klib.
From Stdlib Require Import ZArith Lia ZifyBool Bool.
From stdpp Require Import base numbers list.
Local Open Scope Z_scope.

Definition SLASH : Z := 47.
Definition BACKSLASH : Z := 92.
Definition DOT : Z := 46.

Definition path_is_sep (c : Z) : bool := (c =? SLASH) || (c =? BACKSLASH).

(** [comps] with [count] components is a list; [None] is the code's [return 0]. *)
Definition path_add_component (comps : list cstring) (component : cstring) : option (list cstring) :=
  if 16 <=? zlen comps then None
  else if 31 <? zlen component then None
  else Some (comps ++ [component]).

(** [while ( *cursor && path_is_sep( *cursor)) cursor++]. *)
Fixpoint skip_seps (cursor : cstring) : cstring :=
  match cursor with
  | c :: rest => if path_is_sep c then skip_seps rest else cursor
  | [] => []
  end.

(** The loop that copies one component; [len] bytes have been copied already. *)
Fixpoint read_component (len : Z) (cursor : cstring) : option (cstring * cstring) :=
  match cursor with
  | c :: rest =>
    if path_is_sep c then Some ([], cursor)
    else if 31 <=? len then None
    else match read_component (len + 1) rest with
         | Some (component, rest') => Some (c :: component, rest')
         | None => None
         end
  | [] => Some ([], [])
  end.

(** What happens to the component stack for one component. *)
Definition push_component (comps : list cstring) (component : cstring) : option (list cstring) :=
  if k_strcmp component [DOT] then Some comps
  else if k_strcmp component [DOT; DOT] then Some (take (length comps - 1) comps)
  else path_add_component comps component.

(** The [while ( *cursor)] loop over one source. *)
Fixpoint path_scan (fuel : nat) (cursor : cstring) (comps : list cstring) : option (list cstring) :=
  match fuel with
  | O => None
  | S fuel =>
    match skip_seps cursor with
    | [] => Some comps
    | cursor' =>
      match read_component 0 cursor' with
      | None => None
      | Some (component, rest) =>
        match push_component comps component with
        | None => None
        | Some comps' => path_scan fuel rest comps'
        end
      end
    end
  end.

(** The output loop: [pos] is the length of what has been written. *)
Fixpoint path_emit (first : bool) (comps : list cstring) (out : cstring) (out_size : Z) : option cstring :=
  match comps with
  | [] => Some out
  | c :: comps' =>
    if out_size <? zlen out + k_strlen c + (if first then 0 else 1) + 1 then None
    else path_emit false comps' (out ++ (if first then [] else [SLASH]) ++ c) out_size
  end.

Definition path_build_from (base : option cstring) (path : cstring) (out_size : Z) : option cstring :=
  if out_size =? 0 then None else
  let sources :=
    match base with
    | Some b => if negb (bool_decide (b = [])) && negb (path_is_sep (zget 0 path 0))
                then [b; path] else [path]
    | None => [path]
    end in
  let scanned := foldl (fun acc src =>
    match acc with
    | Some comps => path_scan (S (length src)) src comps
    | None => None
    end) (Some []) sources in
  match scanned with
  | None => None
  | Some comps => path_emit true comps [] out_size
  end.

(** ** Specification *)

Definition flush (cur : cstring) : list cstring := if bool_decide (cur = []) then [] else [cur].

(** The components of a path: the maximal runs of non-separators. *)
Fixpoint split_path (cur s : cstring) : list cstring :=
  match s with
  | [] => flush cur
  | c :: rest =>
    if path_is_sep c then flush cur ++ split_path [] rest else split_path (cur ++ [c]) rest
  end.

Definition components (s : cstring) : list cstring := split_path [] s.

(** [.] stays, [..] goes up (and stays at the root), a name goes down. *)
Definition resolve (dir : list cstring) (c : cstring) : list cstring :=
  if bool_decide (c = [DOT]) then dir
  else if bool_decide (c = [DOT; DOT]) then take (length dir - 1) dir
  else dir ++ [c].

Definition resolve_all (dir cs : list cstring) : list cstring := foldl resolve dir cs.

(** Every component is at most 31 bytes and no prefix descends more than 16 levels. *)
Fixpoint within_limits (dir cs : list cstring) : bool :=
  match cs with
  | [] => true
  | c :: cs' => (zlen c <=? 31) && (zlen (resolve dir c) <=? 16) && within_limits (resolve dir c) cs'
  end.

Definition join_path (cs : list cstring) : cstring :=
  match cs with
  | [] => []
  | c :: cs' => c ++ concat (map (cons SLASH) cs')
  end.

(** The components a call walks: those of [base] first when [path] is relative. *)
Definition walked (base : option cstring) (path : cstring) : list cstring :=
  match base with
  | Some b => if path_is_sep (zget 0 path 0) then components path else components b ++ components path
  | None => components path
  end.

(** A component of a canonical path. *)
Definition name_ok (c : cstring) : Prop :=
  c <> [] /\ c <> [DOT] /\ c <> [DOT; DOT] /\ Forall (fun x => path_is_sep x = false) c.

(** ** Lemmas *)

Definition push_limited (acc : option (list cstring)) (c : cstring) : option (list cstring) :=
  match acc with
  | Some comps => if 31 <? zlen c then None else push_component comps c
  | None => None
  end.

Lemma foldl_push_none cs : foldl push_limited None cs = None.
Proof. by induction cs. Qed.

Lemma read_component_split s : forall len,
  0 <= len ->
  forall cur, zlen cur = len -> len <= 31 ->
  match read_component len s with
  | Some (c, rest) =>
      split_path cur s = flush (cur ++ c) ++ components rest
      /\ zlen (cur ++ c) <= 31 /\ (length rest <= length s)%nat
      /\ (s <> [] -> match s with x :: _ => path_is_sep x = false | [] => True end -> c <> [])
  | None => exists c cs, split_path cur s = c :: cs /\ 31 < zlen c
  end.
Proof.
  induction s as [|x s IH]; intros len Hlen cur Hcur Hle; cbn [read_component].
  - rewrite !app_nil_r. repeat split; try done; lia.
  - cbn [split_path]. destruct (path_is_sep x) eqn:Hx.
    + rewrite app_nil_r. repeat split; [|lia|done|congruence].
      unfold components. cbn [split_path]. by rewrite Hx.
    + destruct (Z.leb_spec 31 len).
      * assert (Hgrow : forall s cur, 31 < zlen cur ->
          exists c cs, split_path cur s = c :: cs /\ 31 < zlen c).
        { clear. induction s as [|y s IH]; intros cur Hc; cbn.
          - exists cur, []. unfold flush. rewrite bool_decide_eq_false_2; [done|]. by intros ->.
          - destruct (path_is_sep y).
            + exists cur, (components s). unfold flush. rewrite bool_decide_eq_false_2; [done|]. by intros ->.
            + apply IH. unfold zlen in *. rewrite length_app. cbn. lia. }
        apply Hgrow. unfold zlen in *. rewrite length_app. cbn. lia.
      * specialize (IH (len + 1) ltac:(lia) (cur ++ [x])).
        assert (Hz : zlen (cur ++ [x]) = len + 1) by (unfold zlen in *; rewrite length_app; cbn; lia).
        specialize (IH Hz ltac:(lia)).
        destruct (read_component (len + 1) s) as [[c rest]|]; [|done].
        destruct IH as (Heq & Hl & Hr & _). rewrite <- app_assoc in Heq, Hl. cbn [app] in Heq, Hl.
        repeat split; try done; cbn; lia.
Qed.

Lemma skip_seps_components s :
  components (skip_seps s) = components s /\ (length (skip_seps s) <= length s)%nat
  /\ match skip_seps s with x :: _ => path_is_sep x = false | [] => True end.
Proof.
  induction s as [|x s (IH1 & IH2 & IH3)]; [done|]. cbn [skip_seps].
  unfold components. cbn [split_path]. destruct (path_is_sep x) eqn:Hx.
  - cbn. repeat split; try done; lia.
  - cbn [split_path length]. rewrite Hx. repeat split; try done; lia.
Qed.

Lemma path_scan_components fuel s comps :
  (length s < fuel)%nat ->
  path_scan fuel s comps = foldl push_limited (Some comps) (components s).
Proof.
  revert s comps. induction fuel as [|fuel IH]; intros s comps Hf; [lia|]. cbn [path_scan].
  destruct (skip_seps_components s) as (Hs & Hl & Hhead). rewrite <- Hs.
  destruct (skip_seps s) as [|x s'] eqn:E; [done|].
  pose proof (read_component_split (x :: s') 0 ltac:(lia) [] eq_refl ltac:(lia)) as H.
  fold (components (x :: s')) in H.
  destruct (read_component 0 (x :: s')) as [[c rest]|] eqn:Er; cbn [app] in H.
  - destruct H as (Heq & Hlen & Hr & Hne). specialize (Hne ltac:(done) Hhead).
    rewrite Heq. unfold flush. rewrite bool_decide_eq_false_2 by done.
    cbn [app foldl push_limited]. destruct (Z.ltb_spec 31 (zlen c)); [lia|].
    destruct (push_component comps c); [|by rewrite foldl_push_none].
    apply IH.
    assert (length rest < length (x :: s'))%nat; [|lia].
    cbn [read_component] in Er. rewrite Hhead in Er.
    destruct (31 <=? 0); [done|].
    pose proof (read_component_split s' 1 ltac:(lia) [x] eq_refl ltac:(lia)) as H'.
    destruct (read_component (0 + 1) s') as [[c' rest']|] eqn:E'; [|done].
    change (0 + 1) with 1 in E'. rewrite E' in H'. simplify_eq. cbn. destruct H' as (_ & _ & ? & _). lia.
  - destruct H as (c & cs & -> & Hc). cbn. destruct (Z.ltb_spec 31 (zlen c)); [|lia].
    by rewrite foldl_push_none.
Qed.

Lemma resolve_name dir c : c <> [DOT] -> c <> [DOT; DOT] -> resolve dir c = dir ++ [c].
Proof. intros. unfold resolve. by rewrite !bool_decide_eq_false_2. Qed.

Lemma foldl_push_resolve cs dir :
  zlen dir <= 16 ->
  foldl push_limited (Some dir) cs = if within_limits dir cs then Some (resolve_all dir cs) else None.
Proof.
  revert dir. induction cs as [|c cs IH]; intros dir Hd; [done|].
  cbn [foldl push_limited within_limits]. unfold resolve_all. cbn [foldl].
  destruct (Z.ltb_spec 31 (zlen c)); destruct (Z.leb_spec (zlen c) 31); try lia; cbn [andb].
  { by rewrite foldl_push_none. }
  unfold push_component, path_add_component. rewrite !k_strcmp_eq.
  destruct (bool_decide_reflect (c = [DOT])) as [->|].
  { change (resolve dir [DOT]) with dir. destruct (Z.leb_spec (zlen dir) 16); [|lia]. by apply IH. }
  destruct (bool_decide_reflect (c = [DOT; DOT])) as [->|].
  { change (resolve dir [DOT; DOT]) with (take (length dir - 1) dir).
    assert (Ht : zlen (take (length dir - 1) dir) <= 16) by (unfold zlen in *; rewrite length_take; lia).
    destruct (Z.leb_spec (zlen (take (length dir - 1) dir)) 16); [|lia]. by apply IH. }
  rewrite (resolve_name dir c) by done.
  assert (Hz : zlen (dir ++ [c]) = zlen dir + 1) by (unfold zlen; rewrite length_app; cbn; lia).
  rewrite Hz. destruct (Z.leb_spec 16 (zlen dir)); destruct (Z.leb_spec (zlen dir + 1) 16); try lia; cbn [andb].
  { by rewrite foldl_push_none. }
  destruct (Z.ltb_spec 31 (zlen c)); [lia|]. apply IH. lia.
Qed.

Lemma path_emit_spec cs first out n :
  path_emit first cs out n =
  if (bool_decide (cs = []) || (zlen (out ++ (if first then join_path cs
                                              else concat (map (cons SLASH) cs))) <? n))
  then Some (out ++ (if first then join_path cs else concat (map (cons SLASH) cs))) else None.
Proof.
  revert first out. induction cs as [|c cs IH]; intros first out.
  { cbn. by destruct first; cbn; rewrite app_nil_r. }
  cbn [path_emit]. rewrite IH. rewrite (bool_decide_eq_false_2 (c :: cs = [])) by done. cbn [orb].
  set (tl := concat (map (cons SLASH) cs)).
  assert (Hout : (out ++ (if first then [] else [SLASH]) ++ c) ++ tl
    = out ++ (if first then join_path (c :: cs) else concat (map (cons SLASH) (c :: cs)))).
  { destruct first; cbn; by rewrite <- !app_assoc. }
  rewrite Hout. unfold k_strlen.
  assert (Hz : zlen (out ++ (if first then join_path (c :: cs) else concat (map (cons SLASH) (c :: cs))))
    = zlen out + zlen c + (if first then 0 else 1) + zlen tl).
  { rewrite <- Hout. unfold zlen. rewrite !length_app. destruct first; cbn; lia. }
  rewrite Hz. assert (0 <= zlen tl) by (unfold zlen; lia).
  destruct (bool_decide_reflect (cs = [])) as [->|]; cbn [orb].
  - change (zlen tl) with 0. destruct (Z.ltb_spec n (zlen out + zlen c + (if first then 0 else 1) + 1)),
      (Z.ltb_spec (zlen out + zlen c + (if first then 0 else 1) + 0) n); try lia; done.
  - destruct (Z.ltb_spec n (zlen out + zlen c + (if first then 0 else 1) + 1)); [|done].
    destruct (Z.ltb_spec (zlen out + zlen c + (if first then 0 else 1) + zlen tl) n); [lia|done].
Qed.

Lemma components_nil : components [] = [].
Proof. done. Qed.

Lemma path_build_from_eq base path n :
  1 <= n ->
  path_build_from base path n =
  let cs := walked base path in
  if within_limits [] cs && (zlen (join_path (resolve_all [] cs)) <? n)
  then Some (join_path (resolve_all [] cs)) else None.
Proof.
  intros Hn. unfold path_build_from. destruct (Z.eqb_spec n 0); [lia|]. cbv zeta.
  set (scanned := foldl _ _ _).
  assert (Hscan : scanned = foldl push_limited (Some []) (walked base path)).
  { subst scanned. unfold walked. destruct base as [b|].
    - destruct (bool_decide_reflect (b = [])) as [->|]; cbn [negb andb].
      + cbn [foldl]. rewrite path_scan_components by lia.
        rewrite components_nil. by destruct (path_is_sep _).
      + destruct (path_is_sep (zget 0 path 0)); cbn [negb foldl].
        * by rewrite path_scan_components by lia.
        * rewrite path_scan_components, foldl_app by lia.
          destruct (foldl push_limited (Some []) (components b)); [|by rewrite foldl_push_none].
          by rewrite path_scan_components by lia.
    - cbn [foldl]. by rewrite path_scan_components by lia. }
  rewrite Hscan, foldl_push_resolve by (unfold zlen; simpl; lia).
  destruct (within_limits [] (walked base path)); cbn [andb]; [|done].
  rewrite path_emit_spec. cbn [app].
  destruct (bool_decide_reflect (resolve_all [] (walked base path) = [])) as [->|]; cbn [orb]; [|done].
  change (zlen (join_path [])) with 0. destruct (Z.ltb_spec 0 n); [done|lia].
Qed.

Lemma split_path_app_name c s cur :
  Forall (fun x => path_is_sep x = false) c -> split_path cur (c ++ s) = split_path (cur ++ c) s.
Proof.
  revert cur. induction c as [|x c IH]; intros cur Hc; cbn; [by rewrite app_nil_r|].
  inversion Hc as [|? ? Hx Hc']; subst. rewrite Hx, IH by done. by rewrite <- app_assoc.
Qed.

Lemma split_path_tail cs cur :
  cur <> [] -> Forall name_ok cs -> split_path cur (concat (map (cons SLASH) cs)) = cur :: cs.
Proof.
  revert cur. induction cs as [|c cs IH]; intros cur Hcur Hcs.
  - cbn. unfold flush. by rewrite bool_decide_eq_false_2.
  - inversion Hcs as [|? ? (Hc1 & _ & _ & Hc2) Hcs']; subst. cbn.
    rewrite split_path_app_name by done. cbn [app]. rewrite IH by done.
    unfold flush. by rewrite bool_decide_eq_false_2.
Qed.

Lemma components_join cs : Forall name_ok cs -> components (join_path cs) = cs.
Proof.
  intros Hcs. destruct cs as [|c cs]; [done|].
  inversion Hcs as [|? ? (Hc1 & _ & _ & Hc2) Hcs']; subst. unfold components. cbn [join_path].
  rewrite split_path_app_name by done. by apply split_path_tail.
Qed.

Lemma components_sep a p : components (a ++ SLASH :: p) = components a ++ components p.
Proof.
  unfold components. generalize (@nil Z) at 1 2 as cur.
  induction a as [|x a IH]; intros cur; cbn; [done|].
  destruct (path_is_sep x); [|apply IH]. by rewrite IH, app_assoc.
Qed.

Lemma split_path_seps cur s :
  Forall (fun x => path_is_sep x = false) cur ->
  Forall (fun c => c <> [] /\ Forall (fun x => path_is_sep x = false) c) (split_path cur s).
Proof.
  revert cur. induction s as [|x s IH]; intros cur Hcur; cbn.
  - unfold flush. by destruct (bool_decide_reflect (cur = [])); repeat constructor.
  - destruct (path_is_sep x) eqn:Hx.
    + apply Forall_app; split; [|by apply IH].
      unfold flush. by destruct (bool_decide_reflect (cur = [])); repeat constructor.
    + apply IH. apply Forall_app; by repeat constructor.
Qed.

Lemma components_ok s : Forall (fun c => c <> [] /\ Forall (fun x => path_is_sep x = false) c) (components s).
Proof. by apply split_path_seps. Qed.

Lemma resolve_all_names cs dir :
  Forall name_ok dir ->
  Forall (fun c => c <> [] /\ Forall (fun x => path_is_sep x = false) c) cs ->
  Forall name_ok (resolve_all dir cs).
Proof.
  revert dir. induction cs as [|c cs IH]; intros dir Hd Hcs; [done|].
  inversion Hcs as [|? ? [Hc1 Hc2] Hcs']; subst. apply (IH (resolve dir c)); [|done].
  unfold resolve. destruct (bool_decide_reflect (c = [DOT])); [done|].
  destruct (bool_decide_reflect (c = [DOT; DOT])); [by apply Forall_take|].
  apply Forall_app; split; [done|]. by repeat constructor.
Qed.

Lemma walked_ok base path :
  Forall (fun c => c <> [] /\ Forall (fun x => path_is_sep x = false) c) (walked base path).
Proof.
  unfold walked. destruct base as [b|]; [|apply components_ok].
  destruct (path_is_sep _); [apply components_ok|]. apply Forall_app; split; apply components_ok.
Qed.

Lemma walked_names base path : Forall name_ok (resolve_all [] (walked base path)).
Proof. apply resolve_all_names; [done|apply walked_ok]. Qed.

(** Walking down canonical names only descends. *)
Lemma resolve_all_canonical cs dir : Forall name_ok cs -> resolve_all dir cs = dir ++ cs.
Proof.
  revert dir. induction cs as [|c cs IH]; intros dir Hcs; [by rewrite app_nil_r|].
  inversion Hcs as [|? ? (_ & Hc1 & Hc2 & _) Hcs']; subst. unfold resolve_all. cbn [foldl].
  rewrite resolve_name by done. fold (resolve_all (dir ++ [c]) cs). rewrite IH by done.
  by rewrite <- app_assoc.
Qed.

Lemma within_limits_app dir a b :
  within_limits dir (a ++ b) = within_limits dir a && within_limits (resolve_all dir a) b.
Proof.
  revert dir. induction a as [|c a IH]; intros dir; [done|]. cbn [app within_limits]. rewrite IH.
  unfold resolve_all. cbn [foldl]. by rewrite !andb_assoc.
Qed.

(** Names that were walked within the limits stay within them. *)
Lemma within_limits_resolved cs dir :
  zlen dir <= 16 -> Forall (fun c => zlen c <= 31) dir ->
  within_limits dir cs = true ->
  zlen (resolve_all dir cs) <= 16 /\ Forall (fun c => zlen c <= 31) (resolve_all dir cs).
Proof.
  revert dir. induction cs as [|c cs IH]; intros dir Hd Hf Hw; [done|].
  cbn [within_limits] in Hw. apply andb_prop in Hw as [[H1 H2]%andb_prop H3].
  apply (IH (resolve dir c)); [lia| |done].
  unfold resolve. destruct (bool_decide_reflect (c = [DOT])); [done|].
  destruct (bool_decide_reflect (c = [DOT; DOT])); [by apply Forall_take|].
  apply Forall_app; split; [done|]. constructor; [lia|done].
Qed.

Lemma within_limits_canonical cs dir :
  Forall name_ok cs -> Forall (fun c => zlen c <= 31) cs -> zlen (dir ++ cs) <= 16 ->
  within_limits dir cs = true.
Proof.
  revert dir. induction cs as [|c cs IH]; intros dir Hn Hl Hz; [done|].
  inversion Hn as [|? ? (_ & Hc1 & Hc2 & _) Hn']; inversion Hl as [|? ? Hc3 Hl']; subst.
  cbn [within_limits]. rewrite resolve_name by done.
  assert (Hz' : zlen ((dir ++ [c]) ++ cs) <= 16) by (by rewrite <- app_assoc).
  rewrite IH by done. unfold zlen in *. rewrite !length_app in *. cbn in *. lia.
Qed.

Lemma path_build_from_inv base path n out :
  1 <= n -> path_build_from base path n = Some out ->
  exists cs, cs = resolve_all [] (walked base path) /\ out = join_path cs /\ zlen out < n
    /\ within_limits [] (walked base path) = true
    /\ Forall name_ok cs /\ zlen cs <= 16 /\ Forall (fun c => zlen c <= 31) cs.
Proof.
  intros Hn H. rewrite path_build_from_eq in H by done. cbv zeta in H.
  destruct (within_limits [] (walked base path)) eqn:Hw; [|done]. cbn [andb] in H.
  destruct (Z.ltb_spec (zlen (join_path (resolve_all [] (walked base path)))) n); [|done].
  injection H as <-. eexists; split; [done|].
  destruct (within_limits_resolved (walked base path) []) as [H1 H2]; try done.
  split_and!; try done. apply walked_names.
Qed.

(** ** Properties *)

(** C31: For every base directory, path and buffer size, [path_build_from] returns the
    canonical path obtained by walking the components of the base (when the path is
    relative) and then of the path, and fails exactly when a component is longer than
    31 bytes, the walk is at some point deeper than 16 levels, or the result with its
    terminator does not fit the buffer. *)
Theorem path_build_from_correct base path n :
  1 <= n ->
  path_build_from base path n =
  let cs := walked base path in
  if within_limits [] cs && (zlen (join_path (resolve_all [] cs)) <? n)
  then Some (join_path (resolve_all [] cs)) else None.
Proof. apply path_build_from_eq. Qed.

(** The bytes of [usr/bin] and [/home/../etc//./rc]. *)
Definition base_example : cstring := [117; 115; 114; 47; 98; 105; 110].
Definition path_example : cstring :=
  [47; 104; 111; 109; 101; 47; 46; 46; 47; 101; 116; 99; 47; 47; 46; 47; 114; 99].

Lemma path_build_from_correct_witness :
  path_build_from (Some base_example) path_example 128 = Some [101; 116; 99; 47; 114; 99].
Proof. rewrite path_build_from_correct by lia. vm_compute. reflexivity. Defined.

(** A path that resolves never leaves the root: it is the [/]-join of at most 16
    non-empty names of at most 31 bytes, none of which is [.] or [..] or contains a
    separator, and it fits the buffer with its terminator. *)
Theorem path_build_from_confined base path n out :
  1 <= n -> path_build_from base path n = Some out ->
  zlen out < n
  /\ exists cs, out = join_path cs /\ components out = cs /\ Forall name_ok cs
       /\ zlen cs <= 16 /\ Forall (fun c => zlen c <= 31) cs.
Proof.
  intros Hn H. destruct (path_build_from_inv _ _ _ _ Hn H) as (cs & -> & -> & Hl & _ & Hns & H16 & H31).
  split; [done|]. eexists; split; [done|]. rewrite components_join by done. done.
Qed.

Lemma path_build_from_confined_witness :
  zlen [101; 116; 99; 47; 114; 99] < 128
  /\ exists cs, [101; 116; 99; 47; 114; 99] = join_path cs
       /\ components [101; 116; 99; 47; 114; 99] = cs /\ Forall name_ok cs
       /\ zlen cs <= 16 /\ Forall (fun c => zlen c <= 31) cs.
Proof.
  apply (path_build_from_confined (Some base_example) path_example 128); [lia|].
  vm_compute. reflexivity.
Defined.

(** Resolving in two steps is resolving once.  If a directory [a] resolves to the
    canonical path [d], then [d] resolves to itself, and resolving a relative path [p]
    against [d] (as every call after a [chdir] to [a] does) gives exactly the result,
    or the failure, of resolving [a/p]. *)
Theorem path_build_from_compose base a d p n :
  1 <= n -> a <> [] -> path_build_from base a n = Some d -> path_is_sep (zget 0 p 0) = false ->
  path_build_from None d n = Some d
  /\ path_build_from (Some d) p n = path_build_from base (a ++ SLASH :: p) n.
Proof.
  intros Hn Ha H Hp. destruct (path_build_from_inv _ _ _ _ Hn H) as (cs & Hcs & -> & Hl & Hw & Hns & H16 & H31).
  assert (Hd : within_limits [] cs = true) by (by apply within_limits_canonical).
  split.
  - rewrite path_build_from_eq by done. cbn [walked].
    rewrite components_join, Hd, resolve_all_canonical by done. cbn [app andb].
    by destruct (Z.ltb_spec (zlen (join_path cs)) n); [|lia].
  - rewrite !path_build_from_eq by done. cbv zeta.
    assert (Hwalk : walked base (a ++ SLASH :: p) = walked base a ++ components p).
    { unfold walked. destruct base as [b|]; [|apply components_sep].
      replace (zget 0 (a ++ SLASH :: p) 0) with (zget 0 a 0) by (destruct a; [done|reflexivity]).
      rewrite components_sep. destruct (path_is_sep (zget 0 a 0)); [done|]. by rewrite app_assoc. }
    rewrite Hwalk, within_limits_app, Hw. unfold walked at 1 2 3. rewrite Hp, components_join by done.
    unfold resolve_all. rewrite within_limits_app, !foldl_app, Hd.
    fold (resolve_all [] cs). fold (resolve_all [] (walked base a)).
    by rewrite <- Hcs, resolve_all_canonical.
Qed.

Lemma path_build_from_compose_witness :
  path_build_from None [101; 116; 99; 47; 114; 99] 128 = Some [101; 116; 99; 47; 114; 99]
  /\ path_build_from (Some [101; 116; 99; 47; 114; 99]) [46; 46] 128
     = path_build_from (Some base_example) (path_example ++ SLASH :: [46; 46]) 128.
Proof.
  apply (path_build_from_compose (Some base_example) path_example); [lia|done|vm_compute; reflexivity|done].
Defined.
