(* ===== verification/VmArea.v ===== *)
(** * Process memory areas

    Models the memory-area table of [src/src/kernel/process.c] ([process_vm_*]): the
    sorted array of mapped ranges of a process, its growth on the kernel allocator,
    insertion, splitting, merging, removal and protection of ranges with the page-table
    updates they make.  The page-fault handler is in [Fault.v].

    [process_vm] holds the fields of [process_t] the functions use; [proc] is the state,
    so the null checks on it are gone.  The array is allocated by [kcalloc] in the
    kernel's memory; its contents are kept in [vm_slots], one element per slot. *)
From S2P Require Import Prelude BootInfo Pmm Memory Paging Kalloc Klib Arrays.
From Stdlib Require Import ZArith Lia ZifyBool Bool.
From stdpp Require Import base numbers gmap list.
Local Open Scope Z_scope.
Local Open Scope kernel_scope.

Definition EINVAL : Z := 22.
Definition ENOMEM : Z := 12.

Definition PROCESS_VM_PROT_READ : Z := 1.
Definition PROCESS_VM_PROT_WRITE : Z := 2.
Definition PROCESS_VM_PROT_EXEC : Z := 4.
Definition PROCESS_VM_AREA_INITIAL : Z := 32.
Definition PROCESS_VM_AREA_MAX : Z := 512.
Definition PROCESS_FD_NAME_MAX : Z := 128.

(** [process_vm_kind_t]. *)
Definition PROCESS_VM_KIND_ANON : Z := 1.
Definition PROCESS_VM_KIND_HEAP : Z := 2.
Definition PROCESS_VM_KIND_STACK : Z := 3.
Definition PROCESS_VM_KIND_FILE_PRIVATE : Z := 4.
Definition PROCESS_VM_KIND_ELF : Z := 5.

Record process_vm_area_t := VmArea {
  start : Z;
  end_ : Z;
  prot : Z;
  max_prot : Z;
  kind : Z;
  flags : Z;
  file_start : Z;
  file_end : Z;
  file_offset : Z;
  file_size : Z;
  path : cstring
}.
Definition SIZEOF_AREA : Z := 168.
Definition zero_area : process_vm_area_t := VmArea 0 0 0 0 0 0 0 0 0 0 [].

Record process_vm := ProcessVm {
  pd : Z;
  vm_areas : Z;
  vm_slots : list process_vm_area_t;
  vm_area_frame : Z;
  vm_area_frames : Z;
  vm_area_count : Z;
  vm_area_capacity : Z
}.

(** The kernel and the process the functions work on. *)
Record world := World {
  w_kernel : kernel;
  w_proc : process_vm
}.

Definition on_kernel {A} (m : M kernel A) : M world A := fun w =>
  match m (w_kernel w) with
  | Some (a, k) => Some (a, World k (w_proc w))
  | None => None
  end.
Abbreviation on_mach m := (on_kernel (on_machine m)).

Definition proc : M world process_vm := gets w_proc.
Definition set_proc (f : process_vm -> process_vm) : M world unit :=
  modify (fun w => World (w_kernel w) (f (w_proc w))).

Definition set_table (areas : Z) (slots : list process_vm_area_t) (frames count cap : Z) (p : process_vm) : process_vm :=
  ProcessVm (pd p) areas slots 0 frames count cap.
Definition set_slots (slots : list process_vm_area_t) (count : Z) (p : process_vm) : process_vm :=
  ProcessVm (pd p) (vm_areas p) slots (vm_area_frame p) (vm_area_frames p) count (vm_area_capacity p).

Definition area_at (p : process_vm) (i : Z) : process_vm_area_t := zget zero_area (vm_slots p) i.
Definition page_offset (a : Z) : Z := Z.land a (PAGE_SIZE - 1).

Definition page_floor (value : Z) : Z := Z.land value (u32 (Z.lnot (PAGE_SIZE - 1))).

Definition file_backed (k : Z) : bool := (k =? PROCESS_VM_KIND_FILE_PRIVATE) || (k =? PROCESS_VM_KIND_ELF).

(** ** Merging *)

Definition process_vm_compatible (a b : process_vm_area_t) : bool :=
  if negb (end_ a =? start b) then false else
  if negb (prot a =? prot b) || negb (max_prot a =? max_prot b) || negb (kind a =? kind b)
     || negb (flags a =? flags b) || negb (file_size a =? file_size b) then false else
  if negb (k_strcmp (path a) (path b)) then false else
  if file_backed (kind a) then
    if negb (file_end a =? file_start b) then false else
    if negb (u32 (file_offset a + u32 (file_end a - file_start a)) =? file_offset b) then false else true
  else true.

Definition set_end (e fe : Z) (a : process_vm_area_t) : process_vm_area_t :=
  VmArea (start a) e (prot a) (max_prot a) (kind a) (flags a) (file_start a) fe (file_offset a) (file_size a) (path a).

(** The loop of [process_vm_merge]: every round advances [i] or drops an area. *)
Fixpoint merge_loop (fuel : nat) (i : Z) (slots : list process_vm_area_t) (count : Z)
    : list process_vm_area_t * Z :=
  match fuel with
  | O => (slots, count)
  | S fuel =>
    if i + 1 <? count then
      let cur := zget zero_area slots i in
      let next := zget zero_area slots (i + 1) in
      if process_vm_compatible cur next then
        let slots := zset slots i (set_end (end_ next) (file_end next) cur) in
        merge_loop fuel i (move_down zero_area (i + 1) (count - 1) slots) (count - 1)
      else merge_loop fuel (i + 1) slots count
    else (slots, count)
  end.

Definition process_vm_merge : M world unit :=
  set_proc (fun p => if vm_areas p =? 0 then p else
    let '(slots, count) := merge_loop (Z.to_nat (vm_area_count p)) 0 (vm_slots p) (vm_area_count p) in
    set_slots slots count p).

(** ** The table *)

Definition table_frames (cap : Z) : Z := PAGE_ALIGN (u32 (cap * SIZEOF_AREA)) / PAGE_SIZE.

Definition process_vm_init : M world bool :=
  p <- proc ;;
  if negb (vm_areas p =? 0) then ret true else
  areas <- on_kernel (kcalloc PROCESS_VM_AREA_INITIAL SIZEOF_AREA) ;;
  if areas =? 0 then ret false else
  set_proc (set_table areas (replicate (Z.to_nat PROCESS_VM_AREA_INITIAL) zero_area)
    (table_frames PROCESS_VM_AREA_INITIAL) 0 PROCESS_VM_AREA_INITIAL) ;;;
  ret true.

Definition process_vm_free : M world unit :=
  p <- proc ;;
  (if negb (vm_areas p =? 0) then on_kernel (kfree (vm_areas p)) else ret tt) ;;;
  set_proc (set_table 0 [] 0 0 0).

Definition process_vm_clear : M world unit :=
  p <- proc ;;
  ok <- (if vm_areas p =? 0 then process_vm_init else ret true) ;;
  if negb ok then ret tt else
  set_proc (fun p => set_slots
    (if negb (vm_areas p =? 0) && negb (vm_area_capacity p =? 0)
     then replicate (Z.to_nat (vm_area_capacity p)) zero_area else vm_slots p) 0 p).

(** The doubling loop of [process_vm_ensure_capacity]; from 1 it reaches the maximum in
    ten rounds. *)
Fixpoint grow_capacity (fuel : nat) (cap needed : Z) : Z :=
  match fuel with
  | O => cap
  | S fuel =>
    if cap <? needed then
      let cap := u32 (cap * 2) in
      if PROCESS_VM_AREA_MAX <? cap then PROCESS_VM_AREA_MAX else grow_capacity fuel cap needed
    else cap
  end.

Definition process_vm_ensure_capacity (needed : Z) : M world bool :=
  p <- proc ;;
  ok <- (if vm_areas p =? 0 then process_vm_init else ret true) ;;
  if negb ok then ret false else
  p <- proc ;;
  if needed <=? vm_area_capacity p then ret true else
  if PROCESS_VM_AREA_MAX <? needed then ret false else
  let new_capacity := grow_capacity 10
    (if negb (vm_area_capacity p =? 0) then vm_area_capacity p else PROCESS_VM_AREA_INITIAL) needed in
  if new_capacity <? needed then ret false else
  new_areas <- on_kernel (kcalloc new_capacity SIZEOF_AREA) ;;
  if new_areas =? 0 then ret false else
  let old := take (Z.to_nat (vm_area_count p)) (vm_slots p) in
  on_kernel (kfree (vm_areas p)) ;;;
  set_proc (fun p => set_table new_areas (old ++ replicate (Z.to_nat new_capacity - length old) zero_area)
    (table_frames new_capacity) (vm_area_count p) new_capacity p) ;;;
  ret true.

(** [dst] is the state, [src] another process. *)
Definition process_vm_clone (src : process_vm) : M world bool :=
  ok <- process_vm_init ;;
  if negb ok then ret false else
  ok <- process_vm_ensure_capacity (vm_area_capacity src) ;;
  if negb ok then ret false else
  let n := Z.to_nat (vm_area_count src) in
  set_proc (fun p => set_slots (take n (vm_slots src) ++ drop n (vm_slots p)) (vm_area_count src) p) ;;;
  ret true.

Definition process_vm_find_index (p : process_vm) (addr : Z) : Z :=
  if vm_areas p =? 0 then -1 else
  match list_find (fun i => start (area_at p i) <= addr /\ addr < end_ (area_at p i)) (up_to 0 (vm_area_count p) 1) with
  | Some (_, i) => i
  | None => -1
  end.

Definition process_vm_lookup (p : process_vm) (addr : Z) : option process_vm_area_t :=
  let idx := process_vm_find_index p addr in
  if 0 <=? idx then Some (area_at p idx) else None.

(** The position of an area that starts at [a]. *)
Definition insert_position (p : process_vm) (a : Z) : Z :=
  match list_find (fun i => ~ start (area_at p i) < a) (up_to 0 (vm_area_count p) 1) with
  | Some (_, i) => i
  | None => vm_area_count p
  end.

Definition process_vm_insert_area (area : process_vm_area_t) (merge : bool) : M world bool :=
  if end_ area <=? start area then ret false else
  p <- proc ;;
  ok <- (if vm_areas p =? 0 then process_vm_init else ret true) ;;
  if negb ok then ret false else
  p <- proc ;;
  ok <- process_vm_ensure_capacity (u32 (vm_area_count p + 1)) ;;
  if negb ok then ret false else
  p <- proc ;;
  let pos := insert_position p (start area) in
  if (0 <? pos) && (start area <? end_ (area_at p (pos - 1))) then ret false else
  if (pos <? vm_area_count p) && (start (area_at p pos) <? end_ area) then ret false else
  set_proc (set_slots (zset (move_up zero_area pos (vm_area_count p) (vm_slots p)) pos area)
    (u32 (vm_area_count p + 1))) ;;;
  (if merge then process_vm_merge else ret tt) ;;;
  ret true.

Definition process_vm_range_free (p : process_vm) (a e : Z) : bool :=
  if e <=? a then false else
  if vm_areas p =? 0 then true else
  negb (existsb (fun i => (a <? end_ (area_at p i)) && (start (area_at p i) <? e)) (up_to 0 (vm_area_count p) 1)).

Definition lacks (p m : Z) : bool := negb (Z.land p (u32 (Z.lnot m)) =? 0).
Definition PROT_ALL : Z := Z.lor (Z.lor PROCESS_VM_PROT_READ PROCESS_VM_PROT_WRITE) PROCESS_VM_PROT_EXEC.

Definition process_vm_add (a e prot_ max_prot_ kind_ flags_ : Z) (path_ : option cstring)
    (file_start_ file_end_ file_offset_ file_size_ : Z) : M world bool :=
  if negb (page_offset a =? 0) || negb (page_offset e =? 0) then ret false else
  if (a <? USER_CODE_BASE) || (USER_STACK_TOP <? e) || (e <=? a) then ret false else
  if lacks prot_ max_prot_ then ret false else
  if lacks max_prot_ PROT_ALL then ret false else
  p <- proc ;;
  if negb (process_vm_range_free p a e) then ret false else
  process_vm_insert_area
    (VmArea a e prot_ max_prot_ kind_ flags_ file_start_ file_end_ file_offset_ file_size_
       (match path_ with Some s => k_strncpy s PROCESS_FD_NAME_MAX | None => [] end)) true.

(** ** Splitting *)

Definition set_right (addr delta : Z) (a : process_vm_area_t) : process_vm_area_t :=
  let a1 := VmArea addr (end_ a) (prot a) (max_prot a) (kind a) (flags a) (file_start a) (file_end a)
              (file_offset a) (file_size a) (path a) in
  if file_backed (kind a) then
    if (file_start a <? addr) && (addr <? file_end a) then
      VmArea addr (end_ a) (prot a) (max_prot a) (kind a) (flags a) addr (file_end a)
        (u32 (file_offset a + delta)) (file_size a) (path a)
    else if file_end a <=? addr then
      VmArea addr (end_ a) (prot a) (max_prot a) (kind a) (flags a) addr addr
        (file_offset a) (file_size a) (path a)
    else a1
  else a1.

Definition set_left (addr : Z) (a : process_vm_area_t) : process_vm_area_t :=
  set_end addr (if file_backed (kind a) && (addr <? file_end a) then addr else file_end a) a.

(** [area] is a pointer into the table as it was before [process_vm_ensure_capacity]; when
    the table has moved, the pointer still finds the old contents, and the update of
    [area->end] does not reach the new table. *)
Definition process_vm_split_at (addr : Z) : M world bool :=
  p <- proc ;;
  if vm_areas p =? 0 then ret false else
  if negb (page_offset addr =? 0) then ret false else
  let idx := process_vm_find_index p addr in
  if idx <? 0 then ret true else
  let area := area_at p idx in
  if (addr =? start area) || (addr =? end_ area) then ret true else
  ok <- process_vm_ensure_capacity (u32 (vm_area_count p + 1)) ;;
  if negb ok then ret false else
  q <- proc ;;
  let right := set_right addr (u32 (addr - start area)) area in
  let slots := if vm_areas q =? vm_areas p then zset (vm_slots q) idx (set_left addr area) else vm_slots q in
  set_proc (set_slots (zset (move_up zero_area (idx + 1) (vm_area_count q) slots) (idx + 1) right)
    (u32 (vm_area_count q + 1))) ;;;
  ret true.

Definition process_vm_split_needed (p : process_vm) (addr : Z) : bool :=
  if vm_areas p =? 0 then false else
  if negb (page_offset addr =? 0) then false else
  let idx := process_vm_find_index p addr in
  if idx <? 0 then false else
  negb (addr =? start (area_at p idx)) && negb (addr =? end_ (area_at p idx)).

(** ** Removing a range *)

(** The loop that moves the areas outside of the range to the front. *)
Definition compact (a e : Z) (slots : list process_vm_area_t) (count : Z) : list process_vm_area_t * Z :=
  foldl (fun '(slots, out) i =>
    let area := zget zero_area slots i in
    if (a <=? start area) && (end_ area <=? e) then (slots, out) else (zset slots out area, out + 1))
    (slots, 0) (up_to 0 count 1).

Section Ranges.
Variable L : layout.

Definition process_vm_remove_range (a e : Z) : M world bool :=
  if e <=? a then ret false else
  if negb (page_offset a =? 0) || negb (page_offset e =? 0) then ret false else
  p <- proc ;;
  if vm_areas p =? 0 then ret true else
  ok <- process_vm_split_at a ;;
  if negb ok then ret false else
  ok <- process_vm_split_at e ;;
  if negb ok then ret false else
  for_each (up_to a e PAGE_SIZE) (fun page =>
    p <- proc ;; on_mach (paging_unmap_user_page L (pd p) page) ;;; ret tt) ;;;
  set_proc (fun p =>
    let '(slots, out) := compact a e (vm_slots p) (vm_area_count p) in set_slots slots out p) ;;;
  process_vm_merge ;;;
  ret true.

Definition process_vm_remove_range_errno (a e : Z) : M world Z :=
  if e <=? a then ret (- EINVAL) else
  if negb (page_offset a =? 0) || negb (page_offset e =? 0) then ret (- EINVAL) else
  p <- proc ;;
  if vm_areas p =? 0 then ret 0 else
  let needed := vm_area_count p in
  let needed := if process_vm_split_needed p a then u32 (needed + 1) else needed in
  let needed := if process_vm_split_needed p e then u32 (needed + 1) else needed in
  ok <- process_vm_ensure_capacity needed ;;
  if negb ok then ret (- ENOMEM) else
  ok <- process_vm_remove_range a e ;;
  ret (if ok : bool then 0 else - EINVAL).

(** ** Changing the protection of a range *)

(** The loop of [process_vm_range_covered]; no area is visited twice. *)
Fixpoint covered_loop (fuel : nat) (p : process_vm) (pos e : Z) : option bool :=
  match fuel with
  | O => None
  | S fuel =>
    if pos <? e then
      match process_vm_lookup p pos with
      | None => Some false
      | Some area => if pos <? start area then Some false else covered_loop fuel p (end_ area) e
      end
    else Some true
  end.

Definition process_vm_range_covered (p : process_vm) (a e : Z) : option bool :=
  if (vm_areas p =? 0) || (e <=? a) then Some false
  else covered_loop (S (Z.to_nat (vm_area_count p))) p a e.

Definition or_halt {A} (o : option A) : M world A := match o with Some a => ret a | None => halt end.

Definition set_prot (v : Z) (a : process_vm_area_t) : process_vm_area_t :=
  VmArea (start a) (end_ a) v (max_prot a) (kind a) (flags a) (file_start a) (file_end a) (file_offset a)
    (file_size a) (path a).

(** The page-table entry of one page of the range. *)
Definition protect_page (prot_ page : Z) : M world unit :=
  p <- proc ;;
  r <- on_mach (paging_user_page_get L (pd p) page) ;;
  match r with
  | None => ret tt
  | Some (_, fl) =>
    if negb (Z.land prot_ PROCESS_VM_PROT_WRITE =? 0) then
      if negb (has fl PAGE_COW) && negb (has fl PAGE_SHARED_RO_FILE) then
        on_mach (paging_user_page_set_flags L (pd p) page 0 PAGE_WRITE) ;;; ret tt
      else ret tt
    else on_mach (paging_user_page_set_flags L (pd p) page PAGE_WRITE 0) ;;; ret tt
  end.

Definition outside (a e : Z) (area : process_vm_area_t) : bool := (end_ area <=? a) || (e <=? start area).

Definition process_vm_protect (a e prot_ : Z) : M world bool :=
  if e <=? a then ret false else
  if negb (page_offset a =? 0) || negb (page_offset e =? 0) then ret false else
  if lacks prot_ PROT_ALL then ret false else
  p <- proc ;;
  covered <- or_halt (process_vm_range_covered p a e) ;;
  if negb covered then ret false else
  if existsb (fun i => negb (outside a e (area_at p i)) && lacks prot_ (max_prot (area_at p i)))
       (up_to 0 (vm_area_count p) 1) then ret false else
  ok <- process_vm_split_at a ;;
  if negb ok then ret false else
  ok <- process_vm_split_at e ;;
  if negb ok then ret false else
  p <- proc ;;
  for_each (up_to 0 (vm_area_count p) 1) (fun i =>
    p <- proc ;;
    let area := area_at p i in
    if outside a e area then ret tt else
    set_proc (set_slots (zset (vm_slots p) i (set_prot prot_ area)) (vm_area_count p)) ;;;
    for_each (up_to (start area) (end_ area) PAGE_SIZE) (protect_page prot_)) ;;;
  process_vm_merge ;;;
  ret true.

Definition process_vm_protect_errno (a e prot_ : Z) : M world Z :=
  if e <=? a then ret (- EINVAL) else
  if negb (page_offset a =? 0) || negb (page_offset e =? 0) then ret (- EINVAL) else
  if lacks prot_ PROT_ALL then ret (- EINVAL) else
  p <- proc ;;
  covered <- or_halt (process_vm_range_covered p a e) ;;
  if negb covered then ret (- EINVAL) else
  let needed := vm_area_count p in
  let needed := if process_vm_split_needed p a then u32 (needed + 1) else needed in
  let needed := if process_vm_split_needed p e then u32 (needed + 1) else needed in
  ok <- process_vm_ensure_capacity needed ;;
  if negb ok then ret (- ENOMEM) else
  ok <- process_vm_protect a e prot_ ;;
  ret (if ok : bool then 0 else - EINVAL).
End Ranges.
