(* ===== verification/VmTable.v ===== *)
(** * Process memory areas: the table

    The areas of a process as a sorted list, what the list says about an address
    ([attr_at], [backing_at]), and the lemmas that relate the array operations of
    [VmArea.v] to lists. *)
From S2P Require Import Prelude BootInfo Pmm Memory Paging Kalloc Klib Arrays VmArea.
From Stdlib Require Import ZArith Lia ZifyBool Bool.
From stdpp Require Import base numbers gmap list.
Local Open Scope Z_scope.
Local Open Scope kernel_scope.

Abbreviation area := process_vm_area_t.

(** ** What a table says about an address *)

Definition covers (a : area) (x : Z) : bool := (start a <=? x) && (x <? end_ a).

Fixpoint find_area (l : list area) (x : Z) : option area :=
  match l with
  | [] => None
  | a :: l => if covers a x then Some a else find_area l x
  end.

Record attr := Attr {
  at_prot : Z;
  at_max_prot : Z;
  at_kind : Z;
  at_flags : Z;
  at_file_size : Z;
  at_path : cstring
}.
Definition attr_of (a : area) : attr := Attr (prot a) (max_prot a) (kind a) (flags a) (file_size a) (path a).
Definition attr_at (l : list area) (x : Z) : option attr := attr_of <$> find_area l x.

(** The byte of the file that backs address [x] of an area. *)
Definition backing (a : area) (x : Z) : option Z :=
  if file_backed (kind a) && (file_start a <=? x) && (x <? file_end a)
  then Some (u32 (file_offset a + (x - file_start a))) else None.
Definition backing_at (l : list area) (x : Z) : option Z := a ← find_area l x; backing a x.

(** ** Well-formed tables *)

Fixpoint sorted (lo : Z) (l : list area) : Prop :=
  match l with
  | [] => True
  | a :: l => lo <= start a < end_ a /\ sorted (end_ a) l
  end.

(** The file range starts in the first page of the area and ends inside of it. *)
Definition file_ok (a : area) : Prop :=
  file_backed (kind a) = true -> start a <= file_start a <= file_end a /\ file_end a <= end_ a /\ file_start a < start a + 4096.
(** ... at the beginning of it, as [mmap] maps files. *)
Definition file_aligned (a : area) : Prop := file_backed (kind a) = true -> file_start a = start a.

Record area_ok (a : area) : Prop := AreaOk {
  ao_start : start a mod 4096 = 0;
  ao_end : end_ a mod 4096 = 0;
  ao_low : USER_CODE_BASE <= start a;
  ao_high : end_ a <= USER_STACK_TOP;
  ao_prot : lacks (prot a) (max_prot a) = false;
  ao_max : lacks (max_prot a) PROT_ALL = false;
  ao_file : file_ok a
}.

Definition areas_ok (l : list area) : Prop := sorted 0 l /\ Forall area_ok l.

Definition areas (p : process_vm) : list area := take (Z.to_nat (vm_area_count p)) (vm_slots p).

Record table_ok (p : process_vm) : Prop := TableOk {
  tk_null : vm_areas p = 0 -> vm_area_capacity p = 0;
  tk_alloc : vm_areas p <> 0 -> PROCESS_VM_AREA_INITIAL <= vm_area_capacity p;
  tk_slots : zlen (vm_slots p) = vm_area_capacity p;
  tk_count : 0 <= vm_area_count p <= vm_area_capacity p;
  tk_max : vm_area_capacity p <= PROCESS_VM_AREA_MAX
}.

(** ** Lemmas on sorted lists *)

Definition last_end (lo : Z) (l : list area) : Z := foldl (fun _ a => end_ a) lo l.

Lemma covers_iff a x : covers a x = true <-> start a <= x < end_ a.
Proof. unfold covers. lia. Qed.

Lemma covers_false a x : covers a x = false <-> ~ (start a <= x < end_ a).
Proof. unfold covers. lia. Qed.

Lemma sorted_app lo l1 l2 : sorted lo (l1 ++ l2) <-> sorted lo l1 /\ sorted (last_end lo l1) l2.
Proof.
  revert lo. induction l1 as [|a l1 IH]; intros lo; cbn; [tauto|]. rewrite IH. tauto.
Qed.

Lemma sorted_weaken lo lo' l : lo' <= lo -> sorted lo l -> sorted lo' l.
Proof. destruct l; cbn; [done|]. intros ? []. split; [lia|done]. Qed.

Lemma last_end_ge lo l : sorted lo l -> lo <= last_end lo l.
Proof.
  revert lo. induction l as [|a l IH]; intros lo; cbn; [lia|]. intros [H Hl]. specialize (IH _ Hl).
  unfold last_end in *. cbn. lia.
Qed.

Lemma last_end_snoc lo l a : last_end lo (l ++ [a]) = end_ a.
Proof. unfold last_end. by rewrite foldl_app. Qed.

Lemma sorted_in lo l a : sorted lo l -> a ∈ l -> lo <= start a < end_ a /\ end_ a <= last_end lo l.
Proof.
  revert lo. induction l as [|b l IH]; intros lo Hs Hin; [by apply elem_of_nil in Hin|].
  destruct Hs as [Hb Hs]. apply elem_of_cons in Hin as [->|Hin].
  - split; [done|]. apply last_end_ge in Hs. done.
  - destruct (IH _ Hs Hin) as [H1 H2]. split; [lia|]. done.
Qed.

Lemma find_area_app l1 l2 x :
  find_area (l1 ++ l2) x = match find_area l1 x with Some a => Some a | None => find_area l2 x end.
Proof. induction l1 as [|a l1 IH]; [done|]. cbn. by destruct (covers a x). Qed.

Lemma find_area_in l x a : find_area l x = Some a -> a ∈ l /\ covers a x = true.
Proof.
  induction l as [|b l IH]; cbn; [done|]. destruct (covers b x) eqn:E.
  - intros [= ->]. split; [by left|done].
  - intros H. destruct (IH H). split; [by right|done].
Qed.

Lemma find_area_none lo l x : sorted lo l -> x < lo \/ last_end lo l <= x -> find_area l x = None.
Proof.
  intros Hs Hx. destruct (find_area l x) as [a|] eqn:E; [|done].
  apply find_area_in in E as [Hin Hc%covers_iff]. destruct (sorted_in lo l a Hs Hin). lia.
Qed.

Lemma find_area_sorted lo l x a : sorted lo l -> a ∈ l -> covers a x = true -> find_area l x = Some a.
Proof.
  revert lo. induction l as [|b l IH]; intros lo Hs Hin Hc; [by apply elem_of_nil in Hin|]. destruct Hs as [Hb Hs].
  cbn. apply elem_of_cons in Hin as [->|Hin]; [by rewrite Hc|]. destruct (sorted_in _ _ _ Hs Hin).
  rewrite (proj2 (covers_false b x)); [by eapply IH|]. apply covers_iff in Hc. lia.
Qed.

Lemma find_area_cons a l x : find_area (a :: l) x = if covers a x then Some a else find_area l x.
Proof. done. Qed.

(** In a sorted list an address after the first part is found in the second part. *)
Lemma find_area_skip lo l1 l2 x : sorted lo l1 -> last_end lo l1 <= x -> find_area (l1 ++ l2) x = find_area l2 x.
Proof. intros Hs Hx. rewrite find_area_app. by rewrite (find_area_none lo) by auto. Qed.

Lemma find_area_before lo l1 l2 x : sorted lo (l1 ++ l2) -> x < last_end lo l1 -> find_area (l1 ++ l2) x = find_area l1 x.
Proof.
  intros [H1 H2]%sorted_app Hx. rewrite find_area_app. destruct (find_area l1 x); [done|].
  apply (find_area_none (last_end lo l1)); auto.
Qed.

(** ** Merging *)

(** Two tables that say the same about every address. *)
Record same_view (l l' : list area) : Prop := SameView {
  sv_attr : forall x, attr_at l' x = attr_at l x;
  sv_backing : forall x, backing_at l' x = backing_at l x
}.

#[export] Instance same_view_equiv : Equivalence same_view.
Proof.
  split.
  - by intros l.
  - intros l l' [H1 H2]. split; intros x; congruence.
  - intros l1 l2 l3 [H1 H2] [H3 H4]. split; intros x; congruence.
Qed.

(** It is enough to compare what is found at every address. *)
Lemma same_view_find l l' :
  (forall x, (attr_of <$> find_area l' x) = (attr_of <$> find_area l x)
     /\ (find_area l' x ≫= fun a => backing a x) = (find_area l x ≫= fun a => backing a x)) ->
  same_view l l'.
Proof. intros H. split; intros x; apply (H x). Qed.

Definition join (a b : area) : area := set_end (end_ b) (file_end b) a.

Record compat (a b : area) : Prop := Compat {
  co_end : end_ a = start b;
  co_attr : attr_of a = attr_of b;
  co_file : file_backed (kind a) = true ->
    file_end a = file_start b /\ u32 (file_offset a + (file_end a - file_start a)) = file_offset b
}.

Lemma compatible_compat a b : process_vm_compatible a b = true -> compat a b.
Proof.
  unfold process_vm_compatible. rewrite k_strcmp_eq.
  destruct (Z.eqb_spec (end_ a) (start b)) as [He|]; cbn; [|done].
  destruct (Z.eqb_spec (prot a) (prot b)) as [Hp|]; cbn; [|done].
  destruct (Z.eqb_spec (max_prot a) (max_prot b)) as [Hm|]; cbn; [|done].
  destruct (Z.eqb_spec (kind a) (kind b)) as [Hk|]; cbn; [|done].
  destruct (Z.eqb_spec (flags a) (flags b)) as [Hf|]; cbn; [|done].
  destruct (Z.eqb_spec (file_size a) (file_size b)) as [Hs|]; cbn; [|done].
  destruct (bool_decide_reflect (path a = path b)) as [Hpa|]; cbn; [|done].
  intros H. constructor; [done|unfold attr_of; congruence|]. intros Hb. rewrite Hb in H.
  destruct (Z.eqb_spec (file_end a) (file_start b)) as [Hfe|]; cbn in H; [|done].
  destruct (Z.eqb_spec (u32 (file_offset a + u32 (file_end a - file_start a))) (file_offset b)) as [Ho|]; cbn in H; [|done].
  split; [done|]. rewrite <- Ho. u32_norm. lia.
Qed.

Section Join.
Context {a b : area} (C : compat a b) (Ha : area_ok a) (Hb : area_ok b) (Hsa : start a < end_ a) (Hsb : start b < end_ b).

Lemma join_covers x : covers (join a b) x = covers a x || covers b x.
Proof. destruct C as [He _ _]. unfold covers. cbn. lia. Qed.

Lemma compat_kind : kind b = kind a.
Proof. pose proof (co_attr _ _ C) as H. by injection H. Qed.

Lemma join_backing_l x : covers a x = true -> backing (join a b) x = backing a x.
Proof.
  intros Hx%covers_iff. unfold backing. cbn. destruct (file_backed (kind a)) eqn:Hk; [|done]. cbn.
  destruct (co_file _ _ C Hk) as [He _]. pose proof (co_end _ _ C).
  pose proof (ao_file _ Hb) as Hfb. unfold file_ok in Hfb. rewrite compat_kind in Hfb. specialize (Hfb Hk).
  pose proof (ao_file _ Ha Hk). by replace (x <? file_end b) with (x <? file_end a) by lia.
Qed.

Lemma join_backing_r x : covers b x = true -> backing (join a b) x = backing b x.
Proof.
  intros Hx%covers_iff. unfold backing. cbn. rewrite compat_kind. destruct (file_backed (kind a)) eqn:Hk; [|done]. cbn.
  destruct (co_file _ _ C Hk) as [He Ho]. pose proof (co_end _ _ C).
  pose proof (ao_file _ Hb) as Hfb. unfold file_ok in Hfb. rewrite compat_kind in Hfb. specialize (Hfb Hk).
  pose proof (ao_file _ Ha Hk).
  replace (file_start a <=? x) with (file_start b <=? x) by lia.
  destruct ((file_start b <=? x) && (x <? file_end b)) eqn:E; [|done]. f_equal. rewrite <- Ho.
  transitivity (u32 (file_offset a + (file_end a - file_start a) + (x - file_start b))); [f_equal; lia|]. u32_norm. lia.
Qed.

Lemma join_ok : area_ok (join a b).
Proof.
  destruct Ha as [? ? ? ? ? ? Hfa], Hb as [? ? ? ? ? ? Hfb]. constructor; cbn; try done.
  intros Hk. cbn in *. destruct (co_file _ _ C Hk) as [He _]. pose proof (co_end _ _ C). unfold file_ok in Hfb.
  rewrite compat_kind in Hfb. specialize (Hfa Hk). specialize (Hfb Hk). lia.
Qed.
End Join.

Definition merge1 (l l' : list area) : Prop :=
  exists l1 a b l2, l = l1 ++ a :: b :: l2 /\ l' = l1 ++ join a b :: l2 /\ process_vm_compatible a b = true.

Lemma merge1_ok l l' : merge1 l l' -> areas_ok l -> areas_ok l' /\ same_view l l'.
Proof.
  intros (l1 & a & b & l2 & -> & -> & C%compatible_compat) [Hs Hf].
  apply sorted_app in Hs as [Hs1 (Hsa & Hsb & Hs2)]. apply Forall_app in Hf as [Hf1 Hf2].
  apply Forall_cons_1 in Hf2 as [Ha Hf2]. apply Forall_cons_1 in Hf2 as [Hb Hf2].
  split; [split|].
  - apply sorted_app. split; [done|]. cbn. pose proof (co_end _ _ C). split; [lia|done].
  - apply Forall_app. split; [done|]. apply Forall_cons. split; [by apply join_ok|done].
  - apply same_view_find. intros x. rewrite !find_area_app. destruct (find_area l1 x); [done|].
    rewrite !find_area_cons, (join_covers C) by lia. destruct (covers a x) eqn:Ea; cbn [orb].
    + split; [done|]. cbn. by apply join_backing_l.
    + destruct (covers b x) eqn:Eb; [|done]. split; [|by apply join_backing_r]. cbn. f_equal. apply (co_attr _ _ C).
Qed.

Lemma merges_ok l l' : rtc merge1 l l' -> areas_ok l -> areas_ok l' /\ same_view l l'.
Proof.
  induction 1 as [l|l l1 l' H1 _ IH]; intros Hok; [done|]. destruct (merge1_ok _ _ H1 Hok) as [Hok1 Hv1].
  destruct (IH Hok1) as [Hok' Hv']. split; [done|]. by etransitivity.
Qed.

(** Dropping the element after [i], with [v] stored at [i]. *)
Lemma take_merge (slots : list area) (i count : Z) v :
  0 <= i -> i + 1 < count -> count <= zlen slots ->
  take (Z.to_nat count) slots = take (Z.to_nat i) slots ++ zget zero_area slots i :: zget zero_area slots (i + 1)
    :: drop (Z.to_nat (i + 2)) (take (Z.to_nat count) slots)
  /\ take (Z.to_nat (count - 1)) (move_down zero_area (i + 1) (count - 1) (zset slots i v))
     = take (Z.to_nat i) slots ++ v :: drop (Z.to_nat (i + 2)) (take (Z.to_nat count) slots).
Proof.
  intros Hi Hic Hc. assert (Hd : zlen (drop (Z.to_nat (i + 2)) (take (Z.to_nat count) slots)) = count - i - 2).
  { unfold zlen in *. rewrite length_drop, length_take. lia. }
  split; apply (zlist_eq zero_area).
  - rewrite zlen_app, !zlen_cons, Hd, !zlen_take by lia. lia.
  - rewrite zlen_take by lia. intros k Hk. rewrite zget_take by lia. destruct (Z.ltb_spec k i).
    { rewrite zget_app_l by (rewrite zlen_take; lia). by rewrite zget_take by lia. }
    rewrite zget_app_r by (rewrite zlen_take; lia). rewrite zlen_take, !zget_cons by lia.
    destruct (Z.leb_spec (k - i) 0); [by replace k with i by lia|].
    destruct (Z.leb_spec (k - i - 1) 0); [by replace k with (i + 1) by lia|].
    unfold zget. rewrite lookup_drop, lookup_take_lt by lia. do 2 f_equal. lia.
  - rewrite zlen_app, zlen_cons, Hd, !zlen_take by (rewrite ?move_down_len, ?zlen_zset; lia). lia.
  - rewrite zlen_take by (rewrite move_down_len, zlen_zset; lia). intros k Hk.
    rewrite zget_take, move_down_get by (rewrite ?zlen_zset; lia). destruct (Z.ltb_spec k i).
    { rewrite (proj2 (andb_false_iff _ _)), zget_zset_ne by lia. rewrite zget_app_l by (rewrite zlen_take; lia).
      by rewrite zget_take by lia. }
    rewrite zget_app_r by (rewrite zlen_take; lia). rewrite zlen_take, zget_cons by lia.
    destruct (Z.leb_spec (k - i) 0).
    + rewrite (proj2 (andb_false_iff _ _)) by lia. replace k with i by lia. apply zget_zset_eq. lia.
    + rewrite (proj2 (andb_true_iff _ _)), zget_zset_ne by lia. unfold zget.
      rewrite lookup_drop, lookup_take_lt by lia. do 2 f_equal. lia.
Qed.

Lemma merge_loop_merges fuel i slots count :
  0 <= i -> 0 <= count <= zlen slots ->
  let r := merge_loop fuel i slots count in
  zlen r.1 = zlen slots /\ 0 <= r.2 <= count
  /\ rtc merge1 (take (Z.to_nat count) slots) (take (Z.to_nat r.2) r.1).
Proof.
  revert i slots count. induction fuel as [|fuel IH]; intros i slots count Hi Hc; cbn; [cbn [fst snd]; split_and!; try done; try lia; apply rtc_refl|].
  destruct (Z.ltb_spec (i + 1) count); [|cbn [fst snd]; split_and!; try done; try lia; apply rtc_refl].
  destruct (process_vm_compatible _ _) eqn:E; [|by apply IH; lia].
  set (v := set_end _ _ _). destruct (take_merge slots i count v Hi ltac:(lia) ltac:(lia)) as [H1 H2].
  destruct (IH i (move_down zero_area (i + 1) (count - 1) (zset slots i v)) (count - 1)) as (Hl & Hn & Hr);
    [lia|rewrite move_down_len, zlen_zset; lia|].
  rewrite move_down_len, zlen_zset in Hl. split_and!; [done|lia|lia|]. eapply rtc_l; [|exact Hr].
  exists (take (Z.to_nat i) slots), (zget zero_area slots i), (zget zero_area slots (i + 1)),
    (drop (Z.to_nat (i + 2)) (take (Z.to_nat count) slots)). split_and!; [exact H1|exact H2|exact E].
Qed.

(** ** Lookup *)

Section Lookup.
Context {p : process_vm} (T : table_ok p).

Lemma areas_len : zlen (areas p) = vm_area_count p.
Proof. destruct T. unfold areas. apply zlen_take. lia. Qed.

Lemma areas_get i : 0 <= i < vm_area_count p -> zget zero_area (areas p) i = area_at p i.
Proof. intros Hi. unfold areas, area_at. by apply zget_take. Qed.

Lemma areas_split i : 0 <= i < vm_area_count p ->
  areas p = take (Z.to_nat i) (areas p) ++ area_at p i :: drop (Z.to_nat (i + 1)) (areas p).
Proof. intros Hi. rewrite <- areas_get by done. apply zget_split. by rewrite areas_len. Qed.

Lemma area_at_in i : 0 <= i < vm_area_count p -> area_at p i ∈ areas p.
Proof. intros Hi. rewrite <- areas_get by done. apply zget_elem. by rewrite areas_len. Qed.

Lemma find_index_spec x :
  vm_areas p <> 0 ->
  (process_vm_find_index p x = -1 /\ find_area (areas p) x = None)
  \/ (0 <= process_vm_find_index p x < vm_area_count p
      /\ find_area (areas p) x = Some (area_at p (process_vm_find_index p x))).
Proof.
  intros Hne. unfold process_vm_find_index. rewrite (proj2 (Z.eqb_neq _ 0) Hne).
  pose proof (find_first_spec (fun i => start (area_at p i) <= x /\ x < end_ (area_at p i)) (vm_area_count p)) as H.
  destruct (list_find _ _) as [[j i]|].
  - destruct H as (Hi & Hc & Hmin). right. split; [done|].
    rewrite (areas_split i Hi), find_area_app, find_area_cons, (proj2 (covers_iff _ _)) by lia.
    destruct (find_area (take (Z.to_nat i) (areas p)) x) as [b|] eqn:E; [|done]. exfalso.
    apply find_area_in in E as [Hin Hb%covers_iff]. apply (elem_zget zero_area) in Hin as (k & Hk & <-).
    rewrite zlen_take in Hk by (rewrite areas_len; lia). rewrite zget_take in Hb by lia.
    apply (Hmin k); [lia|]. by rewrite <- areas_get by lia.
  - left. split; [done|]. destruct (find_area (areas p) x) as [b|] eqn:E; [|done]. exfalso.
    apply find_area_in in E as [Hin Hb%covers_iff]. apply (elem_zget zero_area) in Hin as (k & Hk & <-).
    rewrite areas_len in Hk. apply (H k); [done|]. by rewrite <- areas_get by lia.
Qed.

Lemma lookup_find x : process_vm_lookup p x = find_area (areas p) x.
Proof.
  unfold process_vm_lookup. destruct (decide (vm_areas p = 0)) as [E|E].
  - unfold process_vm_find_index. rewrite E. cbn. assert (vm_area_count p = 0) as Hc.
    { pose proof (tk_null _ T E). pose proof (tk_count _ T). lia. }
    unfold areas. by rewrite Hc.
  - destruct (find_index_spec x E) as [[-> ->]|[H ->]]; [done|]. by rewrite (proj2 (Z.leb_le _ _)) by lia.
Qed.

Lemma range_free_spec a e :
  a < e -> process_vm_range_free p a e = true <-> Forall (fun b => end_ b <= a \/ e <= start b) (areas p).
Proof.
  intros Hae. unfold process_vm_range_free. rewrite (proj2 (Z.leb_gt _ _)) by lia.
  assert (Hall : (vm_areas p = 0 -> areas p = [])).
  { intros E. unfold areas. pose proof (tk_null _ T E). pose proof (tk_count _ T). by replace (vm_area_count p) with 0 by lia. }
  destruct (Z.eqb_spec (vm_areas p) 0) as [E|E].
  { rewrite Hall by done. split; [by constructor|done]. }
  rewrite negb_true_iff, <- not_true_iff_false, existsb_exists, Forall_forall. split.
  - intros Hno b Hb. destruct (decide (end_ b <= a \/ e <= start b)) as [|Hn]; [done|]. exfalso. apply Hno.
    apply (elem_zget zero_area) in Hb as (j & Hj & <-). rewrite areas_len in Hj. exists j. split.
    + apply list_elem_of_In, elem_of_up_to; [lia|]. exists j. lia.
    + rewrite <- areas_get by lia. lia.
  - intros Hall' (i & Hi & Hb). apply list_elem_of_In, elem_of_up_to in Hi as (j & Hj & -> & Hlt); [|lia].
    specialize (Hall' _ (area_at_in (0 + j * 1) ltac:(lia))). cbn in Hall', Hb. lia.
Qed.
End Lookup.

(** ** Insertion *)

(** An area that overlaps no other one goes to its place in the list. *)
Lemma insert_sorted lo l1 l2 a :
  sorted lo (l1 ++ l2) -> lo <= start a < end_ a -> Forall (fun b => end_ b <= start a) l1 ->
  Forall (fun b => end_ a <= start b) l2 -> sorted lo (l1 ++ a :: l2).
Proof.
  intros [H1 H2]%sorted_app Ha Hl1 Hl2. apply sorted_app. split; [done|]. cbn. split.
  - split; [|lia]. destruct l1 as [|b l1] using rev_ind; [cbn; lia|]. rewrite last_end_snoc.
    apply Forall_app in Hl1 as [_ Hl1]. by apply Forall_cons_1 in Hl1 as [Hb _].
  - destruct l2 as [|b l2]; [done|]. destruct H2 as [Hb H2]. split; [|done].
    apply Forall_cons_1 in Hl2 as [Hx _]. lia.
Qed.

Lemma insert_find lo l1 l2 a x :
  sorted lo (l1 ++ a :: l2) -> find_area (l1 ++ a :: l2) x = if covers a x then Some a else find_area (l1 ++ l2) x.
Proof.
  intros Hs. destruct (covers a x) eqn:E.
  - eapply find_area_sorted; [exact Hs| |done]. apply elem_of_app. right. by left.
  - rewrite !find_area_app, find_area_cons, E. done.
Qed.

(** ** Splitting *)

Section Split.
Context {a : area} {addr : Z} (Ha : area_ok a) (Hin : start a < addr < end_ a) (Hpage : addr mod 4096 = 0).
Local Abbreviation left := (set_left addr a).
Local Abbreviation right := (set_right addr (u32 (addr - start a)) a).

Lemma right_fields : start right = addr /\ end_ right = end_ a /\ attr_of right = attr_of a.
Proof. unfold set_right. repeat case_match; done. Qed.

Lemma split_covers x : covers a x = covers left x || covers right x.
Proof. destruct right_fields as (H1 & H2 & _). unfold covers. rewrite H1, H2. cbn. lia. Qed.

Lemma split_ok : area_ok left /\ area_ok right.
Proof.
  destruct Ha as [H1 H2 H3 H4 H5 H6 Hf]. destruct right_fields as (R1 & R2 & R3). injection R3 as Rp Rm Rk Rf Rs Rpa.
  split.
  - constructor; cbn; try done; try lia. intros Hk. cbn in *. specialize (Hf Hk). rewrite Hk. cbn.
    destruct (Z.ltb_spec addr (file_end a)); lia || dlia.
  - constructor; rewrite ?R1, ?R2, ?Rp, ?Rm; try done; try lia. unfold file_ok. rewrite Rk, R1, R2. intros Hk.
    specialize (Hf Hk). assert (file_start a < addr) by dlia. unfold set_right. rewrite Hk.
    destruct (Z.ltb_spec (file_start a) addr); cbn [andb]; [|lia]. destruct (Z.ltb_spec addr (file_end a)); cbn; [lia|].
    rewrite (proj2 (Z.leb_le _ _)) by lia. cbn. lia.
Qed.

Lemma split_aligned : file_aligned a -> file_aligned left /\ file_aligned right.
Proof.
  intros Hal. destruct right_fields as (R1 & _ & R3). injection R3 as _ _ Rk _ _ _. split; [done|].
  unfold file_aligned. rewrite Rk, R1. intros Hk. unfold set_right. rewrite Hk. specialize (Hal Hk).
  destruct (ao_file _ Ha Hk) as (Hf1 & Hf2 & _).
  destruct (Z.ltb_spec (file_start a) addr); cbn [andb]; [|lia]. destruct (Z.ltb_spec addr (file_end a)); cbn; [done|].
  by rewrite (proj2 (Z.leb_le _ _)) by lia.
Qed.

Lemma split_backing_l x : covers left x = true -> backing left x = backing a x.
Proof.
  intros Hx%covers_iff. cbn in Hx. unfold backing. cbn. destruct (file_backed (kind a)); [|done]. cbn.
  destruct (Z.ltb_spec addr (file_end a)); [|done].
  by replace (x <? addr) with (x <? file_end a) by lia.
Qed.

Lemma split_backing_r x : file_aligned a -> covers right x = true -> backing right x = backing a x.
Proof.
  intros Hal Hx%covers_iff. destruct right_fields as (R1 & R2 & R3). injection R3 as _ _ Rk _ _ _.
  rewrite R1, R2 in Hx. unfold backing. rewrite Rk. destruct (file_backed (kind a)) eqn:Hk; [|done]. cbn [andb].
  specialize (Hal Hk). unfold set_right. rewrite Hk.
  destruct (Z.ltb_spec (file_start a) addr); cbn [andb]; [|lia].
  destruct (Z.ltb_spec addr (file_end a)); cbn.
  - replace (file_start a <=? x) with true by lia. replace (addr <=? x) with true by lia. cbn.
    destruct (x <? file_end a); [|done]. f_equal.
    transitivity (u32 (file_offset a + (addr - start a) + (x - addr))); [u32_norm; lia|f_equal; lia].
  - rewrite (proj2 (Z.leb_le (file_end a) addr)) by lia. cbn.
    replace ((addr <=? x) && (x <? addr)) with false by lia. by replace (x <? file_end a) with false by lia; rewrite andb_false_r.
Qed.
End Split.

Lemma split_list_ok l1 a l2 addr :
  areas_ok (l1 ++ a :: l2) -> start a < addr < end_ a -> addr mod 4096 = 0 ->
  let l' := l1 ++ set_left addr a :: set_right addr (u32 (addr - start a)) a :: l2 in
  areas_ok l' /\ (forall x, attr_at l' x = attr_at (l1 ++ a :: l2) x)
  /\ (Forall file_aligned (l1 ++ a :: l2) -> Forall file_aligned l' /\ same_view (l1 ++ a :: l2) l').
Proof.
  intros [Hs Hf] Hin Hpage. apply sorted_app in Hs as [Hs1 [Hsa Hs2]]. apply Forall_app in Hf as [Hf1 Hf2].
  apply Forall_cons_1 in Hf2 as [Ha Hf2]. pose proof (right_fields (a := a) (addr := addr)) as (R1 & R2 & R3).
  destruct (split_ok Ha Hin Hpage) as [Hok1 Hok2]. cbv zeta. split_and!.
  - split.
    + apply sorted_app. split; [done|]. cbn -[set_right]. rewrite R1, R2. split_and!; [lia..|done].
    + apply Forall_app. split; [done|]. do 2 (apply Forall_cons; split; [done|]). done.
  - intros x. unfold attr_at. rewrite !find_area_app. destruct (find_area l1 x); [done|].
    rewrite !find_area_cons, (split_covers Hin).
    destruct (covers (set_left addr a) x); [done|]. cbn [orb]. destruct (covers _ x); [|done]. cbn -[set_right]. by rewrite R3.
  - intros Hal. apply Forall_app in Hal as [Hal1 Hal2]. apply Forall_cons_1 in Hal2 as [Hal Hal2].
    destruct (split_aligned Ha Hin Hal) as [Hl Hr]. split.
    + apply Forall_app. split; [done|]. do 2 (apply Forall_cons; split; [done|]). done.
    + apply same_view_find. intros x. rewrite !find_area_app. destruct (find_area l1 x); [done|].
      rewrite !find_area_cons, (split_covers Hin).
      destruct (covers (set_left addr a) x) eqn:El; cbn [orb].
      * split; [done|]. by apply split_backing_l.
      * destruct (covers (set_right addr (u32 (addr - start a)) a) x) eqn:Er; [|done]. split; [cbn -[set_right]; by rewrite R3|]. by apply split_backing_r.
Qed.

(** ** Removal *)

Definition inside (a e : Z) (b : area) : bool := (a <=? start b) && (end_ b <=? e).

Lemma take_snoc_get (l : list area) i :
  0 <= i < zlen l -> take (Z.to_nat (i + 1)) l = take (Z.to_nat i) l ++ [zget zero_area l i].
Proof.
  intros Hi. replace (Z.to_nat (i + 1)) with (S (Z.to_nat i)) by lia. apply take_S_r.
  by apply lookup_zget.
Qed.

Lemma compact_spec a e slots count :
  0 <= count <= zlen slots ->
  let r := compact a e slots count in
  zlen r.1 = zlen slots /\ 0 <= r.2 <= count
  /\ take (Z.to_nat r.2) r.1 = filter (fun b => inside a e b = false) (take (Z.to_nat count) slots).
Proof.
  intros Hc. unfold compact. cbv zeta.
  match goal with |- context [foldl ?f _ _] => set (step := f) end.
  enough (H : let r := foldl step (slots, 0) (up_to 0 count 1) in
    zlen r.1 = zlen slots /\ 0 <= r.2 <= count
    /\ take (Z.to_nat r.2) r.1 = filter (fun b => inside a e b = false) (take (Z.to_nat count) slots)
    /\ forall k, count <= k -> zget zero_area r.1 k = zget zero_area slots k) by (destruct H; tauto).
  apply (foldl_count (fun i r => zlen r.1 = zlen slots /\ 0 <= r.2 <= i
    /\ take (Z.to_nat r.2) r.1 = filter (fun b => inside a e b = false) (take (Z.to_nat i) slots)
    /\ forall k, i <= k -> zget zero_area r.1 k = zget zero_area slots k)); [lia|by split_and!|].
  intros i [s out] Hi (Hl & Ho & Ht & Hk). cbn [fst snd] in *. unfold step. rewrite (Hk i) by lia.
  rewrite take_snoc_get, filter_app by lia. set (b := zget zero_area slots i) in *.
  rewrite filter_cons, filter_nil. fold (inside a e b). destruct (inside a e b) eqn:E; cbn [fst snd].
  - rewrite decide_False by done. rewrite app_nil_r. split_and!; try done; try lia. intros k Hki. apply Hk. lia.
  - rewrite decide_True by done. rewrite zlen_zset. split_and!; try done; try lia.
    + rewrite take_snoc_get by (rewrite zlen_zset; lia). rewrite zget_zset_eq by lia. f_equal.
      rewrite <- Ht. unfold zset. by rewrite take_insert_ge by lia.
    + intros k Hki. rewrite zget_zset_ne by lia. apply Hk. lia.
Qed.

(** After the ends of the range have been split, no area crosses them. *)
Definition uncut (x : Z) (l : list area) : Prop := Forall (fun b => end_ b <= x \/ x <= start b) l.

Lemma filter_sorted lo (P : area -> Prop) `{forall b, Decision (P b)} l : sorted lo l -> sorted lo (filter P l).
Proof.
  revert lo. induction l as [|b l IH]; intros lo Hs; [done|]. destruct Hs as [Hb Hs]. rewrite filter_cons.
  case_decide.
  - split; [done|]. by apply IH.
  - apply IH. eapply sorted_weaken; [|exact Hs]. lia.
Qed.

Lemma remove_find lo a e l x :
  sorted lo l -> a < e -> uncut a l -> uncut e l ->
  find_area (filter (fun b => inside a e b = false) l) x = if (a <=? x) && (x <? e) then None else find_area l x.
Proof.
  intros Hs Hae. revert lo Hs. induction l as [|b l IH]; intros lo Hs Ha He; [by destruct (_ && _)|].
  destruct Hs as [Hb Hs]. apply Forall_cons_1 in Ha as [Hba Ha]. apply Forall_cons_1 in He as [Hbe He].
  specialize (IH _ Hs Ha He). rewrite filter_cons, find_area_cons.
  destruct (inside a e b) eqn:E.
  - rewrite decide_False by done. rewrite IH. destruct (covers b x) eqn:Ec; [|done].
    apply covers_iff in Ec. unfold inside in E. by replace ((a <=? x) && (x <? e)) with true by lia.
  - rewrite decide_True by done. rewrite find_area_cons, IH. destruct (covers b x) eqn:Ec; [|done].
    apply covers_iff in Ec. unfold inside in E. by replace ((a <=? x) && (x <? e)) with false by lia.
Qed.

(** ** Protection *)

Definition protected (a e v : Z) (b : area) : area := if outside a e b then b else set_prot v b.

Lemma protected_fields a e v b :
  start (protected a e v b) = start b /\ end_ (protected a e v b) = end_ b
  /\ file_start (protected a e v b) = file_start b /\ file_end (protected a e v b) = file_end b
  /\ file_offset (protected a e v b) = file_offset b /\ kind (protected a e v b) = kind b
  /\ max_prot (protected a e v b) = max_prot b.
Proof. unfold protected. by destruct (outside a e b). Qed.

Lemma protect_sorted a e v lo l : sorted lo l -> sorted lo (map (protected a e v) l).
Proof.
  revert lo. induction l as [|b l IH]; intros lo; [done|]. intros [Hb Hs]. cbn.
  destruct (protected_fields a e v b) as (-> & -> & _). split; [done|by apply IH].
Qed.

Lemma protect_ok a e v l :
  (forall b, b ∈ l -> outside a e b = false -> lacks v (max_prot b) = false) ->
  Forall area_ok l -> Forall area_ok (map (protected a e v) l).
Proof.
  intros Hv Hok. rewrite Forall_fmap. apply Forall_forall. intros b Hb. rewrite Forall_forall in Hok. cbn.
  specialize (Hok b Hb). specialize (Hv b Hb). unfold protected. destruct (outside a e b); [done|].
  destruct Hok as [? ? ? ? ? ? Hf]. constructor; try done. cbn. by apply Hv.
Qed.

Definition with_prot (v : Z) (t : attr) : attr := Attr v (at_max_prot t) (at_kind t) (at_flags t) (at_file_size t) (at_path t).

Lemma protect_find a e v l x :
  find_area (map (protected a e v) l) x = protected a e v <$> find_area l x.
Proof.
  induction l as [|b l IH]; [done|]. cbn. assert (covers (protected a e v b) x = covers b x) as ->.
  { unfold covers. by destruct (protected_fields a e v b) as (-> & -> & _). }
  by destruct (covers b x).
Qed.

Lemma protect_attr a e v l x :
  a < e -> uncut a l -> uncut e l ->
  attr_at (map (protected a e v) l) x =
    if (a <=? x) && (x <? e) then with_prot v <$> attr_at l x else attr_at l x.
Proof.
  intros Hae Ha He. unfold attr_at. rewrite protect_find. destruct (find_area l x) as [b|] eqn:E; cbn.
  2:{ by destruct (_ && _). }
  apply find_area_in in E as [Hin Hc%covers_iff]. unfold uncut in *. rewrite Forall_forall in Ha, He.
  specialize (Ha b Hin). specialize (He b Hin). unfold protected.
  destruct (outside a e b) eqn:Eo; unfold outside in Eo.
  - by replace ((a <=? x) && (x <? e)) with false by lia.
  - by replace ((a <=? x) && (x <? e)) with true by lia.
Qed.

Lemma protect_backing a e v l x : backing_at (map (protected a e v) l) x = backing_at l x.
Proof.
  unfold backing_at. rewrite protect_find. destruct (find_area l x) as [b|]; [|done]. cbn. unfold backing.
  destruct (protected_fields a e v b) as (_ & _ & -> & -> & -> & -> & _). done.
Qed.

Lemma merge1_aligned l l' : merge1 l l' -> Forall file_aligned l -> Forall file_aligned l'.
Proof.
  intros (l1 & a & b & l2 & -> & -> & _) Hf. apply Forall_app in Hf as [Hf1 Hf2].
  apply Forall_cons_1 in Hf2 as [Ha Hf2]. apply Forall_cons_1 in Hf2 as [_ Hf2].
  apply Forall_app. split; [done|]. by apply Forall_cons.
Qed.

Lemma merges_aligned l l' : rtc merge1 l l' -> Forall file_aligned l -> Forall file_aligned l'.
Proof. induction 1 as [|l l1 l' H1 _ IH]; [done|]. intros Hf. by eapply IH, merge1_aligned. Qed.

(** ** Cut areas *)

Lemma uncut_find x l lo :
  sorted lo l -> uncut x l <-> match find_area l x with Some b => start b = x | None => True end.
Proof.
  intros Hs. unfold uncut. rewrite Forall_forall. destruct (find_area l x) as [b|] eqn:E.
  - apply find_area_in in E as [Hin Hc%covers_iff]. split.
    + intros H. specialize (H b Hin). lia.
    + intros <- c Hc'. destruct (decide (start b < end_ c)) as [Hlt|]; [|lia].
      destruct (decide (start b <= start c)); [lia|].
      assert (Hcov : covers c (start b) = true) by (apply covers_iff; lia).
      assert (Hcov2 : covers b (start b) = true) by (apply covers_iff; lia).
      pose proof (find_area_sorted lo l _ c Hs Hc' Hcov) as E1. pose proof (find_area_sorted lo l _ b Hs Hin Hcov2) as E2.
      rewrite E1 in E2. injection E2 as ->. lia.
  - split; [done|]. intros _ c Hc. destruct (decide (end_ c <= x)); [lia|]. destruct (decide (x <= start c)); [lia|].
    assert (Hcov : covers c x = true) by (apply covers_iff; lia). rewrite (find_area_sorted lo l _ c Hs Hc Hcov) in E. done.
Qed.

Lemma split_uncut l1 a l2 addr :
  start a < addr < end_ a -> sorted 0 (l1 ++ a :: l2) ->
  let l' := l1 ++ set_left addr a :: set_right addr (u32 (addr - start a)) a :: l2 in
  uncut addr l' /\ forall y, uncut y (l1 ++ a :: l2) -> uncut y l'.
Proof.
  intros Hin Hs l'. pose proof (right_fields (a := a) (addr := addr)) as (R1 & R2 & _). split.
  - apply sorted_app in Hs as [Hs1 [Hsa Hs2]]. apply Forall_app. split.
    + apply Forall_forall. intros b Hb. destruct (sorted_in _ _ _ Hs1 Hb). lia.
    + apply Forall_cons. split; [cbn; lia|]. apply Forall_cons. split; [rewrite R1; lia|].
      apply Forall_forall. intros b Hb. destruct (sorted_in _ _ _ Hs2 Hb). lia.
  - intros y Hy. apply Forall_app in Hy as [Hy1 Hy2]. apply Forall_cons_1 in Hy2 as [Hya Hy2].
    apply Forall_app. split; [done|]. apply Forall_cons. split; [cbn; lia|]. apply Forall_cons. split; [rewrite R1, R2; lia|done].
Qed.

(** ** Where an area is inserted *)

Definition apart (a b : area) : Prop := end_ b <= start a \/ end_ a <= start b.

Section Position.
Context {p : process_vm} (T : table_ok p) (Hs : sorted 0 (areas p)) (a : area) (Ha : start a < end_ a).
Local Abbreviation pos := (insert_position p (start a)).
Local Abbreviation before := (take (Z.to_nat pos) (areas p)).
Local Abbreviation after := (drop (Z.to_nat pos) (areas p)).

Lemma position_range :
  0 <= pos <= vm_area_count p
  /\ (forall i, 0 <= i < pos -> start (area_at p i) < start a)
  /\ (pos < vm_area_count p -> start a <= start (area_at p pos)).
Proof.
  pose proof (tk_count _ T). unfold insert_position.
  pose proof (find_first_spec (fun i => ~ start (area_at p i) < start a) (vm_area_count p)) as Hf.
  destruct (list_find _ _) as [[k i]|].
  - destruct Hf as (Hi & Hp & Hb). split_and!; [lia|lia| |lia]. intros j Hj. specialize (Hb j Hj). lia.
  - split_and!; [lia|lia| |lia]. intros j Hj. specialize (Hf j Hj). lia.
Qed.

Lemma sorted_position : sorted 0 before /\ sorted (last_end 0 before) after.
Proof. apply sorted_app. by rewrite take_drop. Qed.

Lemma fits_before :
  (0 <? pos) && (start a <? end_ (area_at p (pos - 1))) = false -> Forall (fun b => end_ b <= start a) before.
Proof.
  intros Hg. destruct position_range as (Hp & _ & _). destruct sorted_position as [H1 _]. apply Forall_forall. intros b Hb.
  pose proof (areas_len T) as Hl. destruct (decide (pos = 0)) as [E|E].
  { rewrite E in Hb. by apply elem_of_nil in Hb. }
  destruct (sorted_in _ _ _ H1 Hb) as [_ Hle]. replace pos with (pos - 1 + 1) in Hle by lia.
  rewrite take_snoc_get, last_end_snoc, areas_get in Hle by lia. lia.
Qed.

Lemma fits_after :
  (pos <? vm_area_count p) && (start (area_at p pos) <? end_ a) = false -> Forall (fun b => end_ a <= start b) after.
Proof.
  intros Hg. destruct position_range as (Hp & _ & _). destruct sorted_position as [_ H2]. pose proof (areas_len T) as Hl.
  destruct (decide (pos = vm_area_count p)) as [E|E].
  { rewrite drop_ge by (unfold zlen in Hl; lia). by constructor. }
  assert (Hd : after = area_at p pos :: drop (Z.to_nat (pos + 1)) (areas p)).
  { replace (Z.to_nat (pos + 1)) with (S (Z.to_nat pos)) by lia. apply drop_S.
    rewrite <- areas_get by lia. apply lookup_zget. lia. }
  rewrite Hd in *. destruct H2 as [H2 H3]. apply Forall_cons. split; [lia|]. apply Forall_forall. intros b Hb.
  destruct (sorted_in _ _ _ H3 Hb). lia.
Qed.

Lemma fits_free : Forall (apart a) (areas p) ->
  (0 <? pos) && (start a <? end_ (area_at p (pos - 1))) = false
  /\ (pos <? vm_area_count p) && (start (area_at p pos) <? end_ a) = false.
Proof.
  intros Hf. destruct position_range as (Hp & Hb & Hn). rewrite Forall_forall in Hf. unfold apart in Hf. split.
  - destruct (Z.ltb_spec 0 pos); [|done]. cbn [andb]. pose proof (area_at_in T (pos - 1) ltac:(lia)) as Hin.
    pose proof (Hf _ Hin). specialize (Hb (pos - 1) ltac:(lia)). lia.
  - destruct (Z.ltb_spec pos (vm_area_count p)); [|done]. cbn [andb]. pose proof (area_at_in T pos ltac:(lia)) as Hin.
    pose proof (Hf _ Hin). specialize (Hn ltac:(lia)). destruct (sorted_in _ _ _ Hs Hin). lia.
Qed.
End Position.

(** Inserting an area apart from the others adds it to the map. *)
Lemma insert_view l1 l2 a :
  areas_ok (l1 ++ l2) -> area_ok a -> start a < end_ a ->
  Forall (fun b => end_ b <= start a) l1 -> Forall (fun b => end_ a <= start b) l2 ->
  let l' := l1 ++ a :: l2 in
  areas_ok l' /\ forall x, find_area l' x = if covers a x then Some a else find_area (l1 ++ l2) x.
Proof.
  intros [Hs Hf] Ha Hlt H1 H2 l'. assert (Hs' : sorted 0 l').
  { apply insert_sorted; try done. destruct Ha as [_ _ Hlo _ _ _ _]. unfold USER_CODE_BASE in Hlo. lia. }
  split; [split; [done|]|].
  - apply Forall_app in Hf as [Hf1 Hf2]. apply Forall_app. split; [done|]. by apply Forall_cons.
  - intros x. by apply (insert_find 0).
Qed.

(** ** Covered ranges *)

(** The areas that end after [pos]; the walk over a range leaves one behind at each step. *)
Definition ahead (pos : Z) (l : list area) : nat := length (filter (fun b => pos < end_ b) l).

Lemma ahead_mono pos pos' l : pos <= pos' -> (ahead pos' l <= ahead pos l)%nat.
Proof.
  intros H. unfold ahead. induction l as [|b l IH]; [done|]. rewrite !filter_cons.
  repeat case_decide; cbn; lia.
Qed.

Lemma ahead_lt pos b l : b ∈ l -> pos < end_ b -> (ahead (end_ b) l < ahead pos l)%nat.
Proof.
  intros Hin Hlt. induction l as [|c l IH]; [by apply elem_of_nil in Hin|]. apply elem_of_cons in Hin.
  unfold ahead in *. rewrite !filter_cons. destruct Hin as [<-|Hin].
  - rewrite (decide_False (P := end_ b < end_ b)), decide_True by lia. cbn.
    pose proof (ahead_mono pos (end_ b) l ltac:(lia)) as Hm. unfold ahead in Hm. lia.
  - specialize (IH Hin). repeat case_decide; cbn; lia.
Qed.

Section Covered.
Context {p : process_vm} (T : table_ok p).

Lemma covered_loop_spec fuel pos e :
  (ahead pos (areas p) < fuel)%nat ->
  exists b, covered_loop fuel p pos e = Some b
    /\ (b = true <-> forall x, pos <= x < e -> is_Some (find_area (areas p) x)).
Proof.
  revert pos. induction fuel as [|fuel IH]; intros pos Hf; [lia|]. cbn [covered_loop].
  destruct (Z.ltb_spec pos e).
  2:{ exists true. split; [done|]. split; [|done]. intros _ x Hx. lia. }
  rewrite (lookup_find T). destruct (find_area (areas p) pos) as [c|] eqn:E.
  2:{ exists false. split; [done|]. split; [done|]. intros Hall. destruct (Hall pos ltac:(lia)) as [? E']. congruence. }
  pose proof E as [Hin Hc]%find_area_in. apply covers_iff in Hc. rewrite (proj2 (Z.ltb_ge _ _)) by lia.
  destruct (IH (end_ c)) as (b & -> & Hb). { pose proof (ahead_lt pos c _ Hin). lia. }
  exists b. split; [done|]. rewrite Hb. split; intros Hall x Hx; [|apply Hall; lia].
  destruct (decide (end_ c <= x)); [apply Hall; lia|]. destruct (find_area (areas p) x) eqn:Ex; [done|].
  exfalso. clear -Hin Ex Hx Hc n. induction (areas p) as [|d l IH]; [by apply elem_of_nil in Hin|].
  cbn in Ex. destruct (covers d x) eqn:Ed; [done|]. apply elem_of_cons in Hin as [<-|Hin]; [|by apply IH].
  apply covers_false in Ed. lia.
Qed.

Lemma range_covered_spec a e :
  a < e -> exists b, process_vm_range_covered p a e = Some b
    /\ (b = true <-> forall x, a <= x < e -> is_Some (find_area (areas p) x)).
Proof.
  intros Hae. unfold process_vm_range_covered. rewrite (proj2 (Z.leb_gt _ _)) by lia. rewrite orb_false_r.
  destruct (Z.eqb_spec (vm_areas p) 0) as [E|E].
  - exists false. split; [done|]. split; [done|]. intros Hall. destruct (Hall a ltac:(lia)) as [? Hx].
    unfold areas in Hx. pose proof (tk_null _ T E). pose proof (tk_count _ T). by replace (vm_area_count p) with 0 in Hx by lia.
  - apply covered_loop_spec. pose proof (areas_len T) as Hl. unfold zlen in Hl. unfold ahead.
    pose proof (length_filter (fun b => a < end_ b) (areas p)). lia.
Qed.
End Covered.

(** ** Merging is complete *)

(** No two neighbours could be merged. *)
Definition merged (n : Z) (l : list area) : Prop := forall j, 0 <= j -> j + 1 < n ->
  process_vm_compatible (zget zero_area l j) (zget zero_area l (j + 1)) = false.

Lemma merge_loop_merged fuel i slots count :
  0 <= i -> count <= zlen slots -> count - i <= Z.of_nat fuel -> merged (Z.min (i + 1) count) slots ->
  let r := merge_loop fuel i slots count in merged r.2 r.1.
Proof.
  revert i slots count. induction fuel as [|fuel IH]; intros i slots count Hi Hc Hf Hm; cbn [merge_loop].
  { intros j Hj Hjc. apply Hm; cbn in *; lia. }
  destruct (Z.ltb_spec (i + 1) count); [|intros j Hj Hjc; apply Hm; cbn in *; lia]. cbv zeta.
  destruct (process_vm_compatible _ _) eqn:E.
  - apply IH; [lia|rewrite move_down_len, zlen_zset; lia|lia|]. intros j Hj Hjc.
    rewrite !move_down_get by (rewrite ?zlen_zset; lia).
    replace ((i + 1 <=? j) && (j <? count - 1)) with false by lia. rewrite zget_zset_ne by lia.
    replace ((i + 1 <=? j + 1) && (j + 1 <? count - 1)) with false by lia.
    destruct (decide (j + 1 = i)) as [<-|]; [rewrite zget_zset_eq by lia|rewrite zget_zset_ne by lia; apply Hm; lia].
    change (process_vm_compatible (zget zero_area slots j) (zget zero_area slots (j + 1)) = false). apply Hm; lia.
  - apply IH; try lia. intros j Hj Hjc. destruct (decide (j = i)) as [->|]; [done|]. apply Hm; lia.
Qed.
