(* ===== verification/VmOps.v ===== *)
(** * Process memory areas: operations

    Total-correctness lemmas of the operations of [VmArea.v]: what they do to the list
    of areas and to the page tables, on top of the kernel allocator and the paging code. *)
From S2P Require Import Prelude BootInfo Pmm Memory Paging AddressSpace AddressOps AddressLife AddressProps.
From S2P Require Import Kalloc KallocRep KallocOps KallocProps KallocLarge KallocFree KernelVm Klib Arrays VmArea VmTable.
From Stdlib Require Import ZArith Lia ZifyBool Bool.
From stdpp Require Import base numbers gmap list.
Local Open Scope Z_scope.
Local Open Scope kernel_scope.

(** A loop over the pages of a range. *)
Lemma runs_for_pages {S} (P : Z -> S -> Prop) a e (body : Z -> M S unit) s (Q : unit -> S -> Prop) :
  0 <= a <= e -> a mod 4096 = 0 -> e mod 4096 = 0 -> P (a / 4096) s ->
  (forall n t, a / 4096 <= n < e / 4096 -> P n t -> runs (body (n * 4096)) t (fun _ => P (n + 1))) ->
  (forall t, P (e / 4096) t -> Q tt t) ->
  runs (for_each (up_to a e PAGE_SIZE) body) s Q.
Proof.
  intros Hae Ha He H0 Hstep HQ.
  assert (Hup : up_to a e PAGE_SIZE = map (fun n => n * 4096) (up_to (a / 4096) (e / 4096) 1)).
  { unfold up_to, PAGE_SIZE. rewrite Z.div_1_r, map_map. replace ((e - a + 4096 - 1) / 4096) with (e / 4096 - a / 4096 + 1 - 1) by dlia.
    apply map_ext. intros x. dlia. }
  rewrite Hup. assert (Hfe : forall l t, runs (for_each l (fun n => body (n * 4096))) t Q ->
    runs (for_each (map (fun n => n * 4096) l) body) t Q).
  { intros l. induction l as [|n l IH]; intros t; [done|]. cbn [map for_each]. unfold runs, bind.
    destruct (body (n * 4096) t) as [[u t']|]; [|done]. apply IH. }
  apply Hfe, (runs_for_each P); try done. dlia.
Qed.

Section VmOps.
Context (L : layout) (HL : layout_ok L).
Local Abbreviation kpd := (kernel_page_directory L).

(** ** The state *)

(** No user mapping and no data of a user page changed. *)
Record quiet (pds : gset Z) (k k' : kernel) : Prop := Quiet {
  qt_pte : forall pd v, pd ∈ pds -> user_page v -> user_pte (k_mem k') pd v = user_pte (k_mem k) pd v;
  qt_data : forall pd v, pd ∈ pds -> user_page v ->
    let pte := user_pte (k_mem k) pd v in has_all pte (Z.lor PAGE_PRESENT PAGE_USER) = true ->
    forall i, k_mem k' (pte_frame pte) i = k_mem k (pte_frame pte) i
}.

Lemma quiet_refl pds k : quiet pds k k.
Proof. done. Qed.

Lemma quiet_trans pds k1 k2 k3 : quiet pds k1 k2 -> quiet pds k2 k3 -> quiet pds k1 k3.
Proof.
  intros [P1 D1] [P2 D2]. split.
  - intros pd v Hpd Hv. by rewrite P2, P1.
  - intros pd v Hpd Hv pte Hm i. specialize (D2 pd v Hpd Hv). cbv zeta in D2. rewrite P1 in D2 by done.
    fold pte in D2. rewrite D2 by done. by apply D1.
Qed.

(** The kernel with its heap and the address spaces [pds], and the table of the process
    in a block of the heap. *)
Record world_ok (h : heap) (pds : gset Z) (pts : gmap (Z * Z) Z) (ext : Z -> Z) (w : world) : Prop := WorldOk {
  wk_both : both kpd h pds pts ext (w_kernel w);
  wk_pd : pd (w_proc w) ∈ pds;
  wk_table : table_ok (w_proc w);
  wk_block : vm_areas (w_proc w) <> 0 -> exists n, 1024 < n /\ live h (vm_areas (w_proc w)) n
}.
Definition wok (pds : gset Z) (w : world) : Prop := exists h pts ext, world_ok h pds pts ext w.

(** ** The allocator *)

Lemma mapped_not_heap h pds pts ext k pd v :
  both kpd h pds pts ext k -> pd ∈ pds -> user_page v ->
  let pte := user_pte (k_mem k) pd v in has_all pte (Z.lor PAGE_PRESENT PAGE_USER) = true ->
  pte_frame pte ∉ heap_frames h.
Proof.
  intros B Hpd Hv pte Hp Hin. pose proof B as [R V _]. destruct (heap_frame R _ Hin) as (Hm & _ & _).
  assert (Hpm : paging_phys_is_pmm_frame (pte_frame pte) = true).
  { destruct (managed_frame_range _ _ (vr_pmm _ _ _ _ _ _ V) Hm) as (? & ? & ? & _).
    unfold paging_phys_is_pmm_frame. pmm_consts. lia. }
  pose proof (heap_unmapped _ _ _ _ _ _ _ B Hin) as Hz. rewrite (refs_user _ _ _ _ _ _ _ V) in Hz.
  specialize (Hz pd v Hpd Hv). fold pte in Hz. rewrite pte_maps_eqb in Hz by (by rewrite Hp, Hpm). lia.
Qed.

Lemma quiet_alloc h h' pds pts ext ext' k k' :
  both kpd h pds pts ext k -> both kpd h' pds pts ext' k' -> heap_step h h' k k' ->
  (forall f i, is_table pds pts f -> k_mem k' f i = k_mem k f i) -> quiet pds k k'.
Proof.
  intros B B' S Htab. pose proof B as [_ V _]. pose proof B' as [_ V' _].
  assert (Hpte : forall pd v, pd ∈ pds -> user_page v -> user_pte (k_mem k') pd v = user_pte (k_mem k) pd v).
  { intros pd v Hpd Hv. rewrite (user_pte_rep V), (user_pte_rep V') by done.
    destruct (pts !! (pd, v / 1024)) as [pt|] eqn:E; [|done]. apply Htab. by eapply is_table_pt. }
  split; [done|]. intros pd v Hpd Hv pte Hp i. apply (hs_mem _ _ _ _ S).
  - intros Hin. apply (mapped_not_heap h pds pts ext k pd v); done.
  - intros Hin. apply (mapped_not_heap h' pds pts ext' k' pd v); rewrite ?Hpte; done.
Qed.

Lemma kcalloc_table h pds pts ext k c (Q : Z -> kernel -> Prop) :
  both kpd h pds pts ext k -> 7 <= c <= PROCESS_VM_AREA_MAX -> Q 0 k ->
  (forall p k' h' ext' n, p <> 0 -> both kpd h' pds pts ext' k' -> allocated h h' k k' p n -> 1024 < n ->
     quiet pds k k' -> Q p k') ->
  runs (kcalloc c SIZEOF_AREA) k Q.
Proof.
  unfold PROCESS_VM_AREA_MAX. intros B Hc H0 HQ. unfold kcalloc, SIZEOF_AREA.
  rewrite (proj2 (Z.eqb_neq c 0)) by lia. change (168 =? 0) with false. cbn [orb].
  rewrite (proj2 (Z.ltb_ge _ _)) by (change (0xFFFFFFFF / 168) with 25565281; lia). rewrite u32_small by lia.
  eapply runs_mono; [apply (kalloc_runs h); [apply B|unfold SIZEOF_LARGE; lia]|].
  intros p k' [(-> & -> & _)|(Hp & _ & h' & n & R' & Hn & A)]; [done|].
  destruct (both_alloc _ _ _ _ _ _ _ _ B R' (al_step _ _ _ _ _ _ A)) as (ext' & B' & _ & Htab).
  apply (HQ p k' h' ext' n); try done; [lia|]. by eapply quiet_alloc; [exact B|exact B'|apply A|].
Qed.

Lemma kfree_table h pds pts ext k p n (Q : unit -> kernel -> Prop) :
  both kpd h pds pts ext k -> live h p n -> 1024 < n ->
  (forall k' h' ext', both kpd h' pds pts ext' k' -> freed h h' k k' p -> quiet pds k k' -> Q tt k') ->
  runs (kfree p) k Q.
Proof.
  intros B Hl Hn HQ. eapply runs_mono; [apply (kfree_runs h k p n); [apply B|done|lia]|].
  intros [] k' (h' & R' & F). destruct (both_alloc _ _ _ _ _ _ _ _ B R' (fr_step _ _ _ _ _ F)) as (ext' & B' & _ & Htab).
  apply (HQ k' h' ext'); try done. by eapply quiet_alloc; [exact B|exact B'|apply F|].
Qed.

Lemma runs_on_kernel {A} (m : M kernel A) w (Q : A -> world -> Prop) :
  runs m (w_kernel w) (fun a k => Q a (World k (w_proc w))) -> runs (on_kernel m) w Q.
Proof. unfold runs, on_kernel. by destruct (m (w_kernel w)) as [[a k]|]. Qed.

Lemma runs_proc w (Q : process_vm -> world -> Prop) : Q (w_proc w) w -> runs proc w Q.
Proof. intros HQ. by apply runs_gets. Qed.

Lemma runs_set_proc f w (Q : unit -> world -> Prop) : Q tt (World (w_kernel w) (f (w_proc w))) -> runs (set_proc f) w Q.
Proof. intros HQ. by apply runs_modify. Qed.

(** ** The table *)

(** The table may have moved or grown, but the areas, the mappings and the data are as
    before. *)
Record moved (pds : gset Z) (w w' : world) : Prop := Moved {
  mv_ok : wok pds w';
  mv_quiet : quiet pds (w_kernel w) (w_kernel w');
  mv_pd : pd (w_proc w') = pd (w_proc w);
  mv_count : vm_area_count (w_proc w') = vm_area_count (w_proc w);
  mv_areas : areas (w_proc w') = areas (w_proc w)
}.

Lemma moved_refl pds w : wok pds w -> moved pds w w.
Proof. intros H. by split. Qed.

Lemma moved_trans pds w1 w2 w3 : moved pds w1 w2 -> moved pds w2 w3 -> moved pds w1 w3.
Proof. intros [A1 A2 A3 A4 A5] [B1 B2 B3 B4 B5]. split; try congruence. by eapply quiet_trans. Qed.

Lemma null_areas p : table_ok p -> vm_areas p = 0 -> vm_area_count p = 0 /\ areas p = [].
Proof.
  intros T E. pose proof (tk_null _ T E). pose proof (tk_count _ T). assert (Hc : vm_area_count p = 0) by lia.
  split; [done|]. unfold areas. by rewrite Hc.
Qed.

Lemma vm_init_runs pds w :
  wok pds w ->
  runs process_vm_init w (fun b w' => moved pds w w' /\ (b = true -> vm_areas (w_proc w') <> 0)
    /\ (b = false -> vm_areas (w_proc w) = 0) /\ (vm_areas (w_proc w) <> 0 -> w' = w)).
Proof.
  intros W. unfold process_vm_init. apply runs_bind, runs_proc.
  destruct (Z.eqb_spec (vm_areas (w_proc w)) 0) as [E|E]; cbn [negb].
  2:{ apply runs_ret. split; [by apply moved_refl|done]. }
  pose proof W as (h & pts & ext & [B Hpd T Hb]). destruct (null_areas _ T E) as [Hc Ha].
  apply runs_bind, runs_on_kernel, (kcalloc_table h pds pts ext); [done|unfold PROCESS_VM_AREA_INITIAL, PROCESS_VM_AREA_MAX; lia| |].
  - cbn. apply runs_ret. destruct w. split; [by apply moved_refl|done].
  - intros p k' h' ext' n Hp B' A Hn Hq. rewrite (proj2 (Z.eqb_neq p 0)) by done.
    apply runs_bind, runs_set_proc, runs_ret. cbn [w_kernel w_proc]. split_and!; [|done..].
    split; cbn; try done.
    exists h', pts, ext'. constructor; cbn; [done..| |].
    + constructor; cbn; unfold PROCESS_VM_AREA_INITIAL, PROCESS_VM_AREA_MAX; try done; lia.
    + intros _. exists n. split; [done|]. apply A.
Qed.

Lemma grow_capacity_spec fuel cap needed :
  0 < cap -> needed <= PROCESS_VM_AREA_MAX -> cap <= PROCESS_VM_AREA_MAX -> PROCESS_VM_AREA_MAX < cap * 2 ^ Z.of_nat fuel ->
  let c := grow_capacity fuel cap needed in needed <= c <= PROCESS_VM_AREA_MAX /\ cap <= c.
Proof.
  unfold PROCESS_VM_AREA_MAX. revert cap. induction fuel as [|fuel IH]; intros cap Hc Hn Hm Hf; cbn [grow_capacity].
  - cbn in Hf. lia.
  - destruct (Z.ltb_spec cap needed); [|cbn; lia]. rewrite u32_small by lia.
    change PROCESS_VM_AREA_MAX with 512. destruct (Z.ltb_spec 512 (cap * 2)); [cbn; lia|].
    destruct (IH (cap * 2)) as [H1 H2]; [lia..| |lia]. rewrite Nat2Z.inj_succ, Z.pow_succ_r in Hf by lia. lia.
Qed.

(** [if (!proc->vm_areas && !process_vm_init(proc)) return 0;] *)
Lemma pre_init_runs pds w :
  wok pds w ->
  runs (if vm_areas (w_proc w) =? 0 then process_vm_init else ret true) w (fun b w' =>
    moved pds w w' /\ (b = true -> vm_areas (w_proc w') <> 0) /\ (vm_areas (w_proc w) <> 0 -> b = true /\ w' = w)).
Proof.
  intros W. destruct (Z.eqb_spec (vm_areas (w_proc w)) 0) as [E|E].
  - eapply runs_mono; [by apply (vm_init_runs pds)|]. intros b w' (Hm & Ht & _ & _). by split_and!.
  - apply runs_ret. split_and!; try done.
Qed.

Lemma grown_table p p' new cap :
  table_ok p -> vm_area_count p <= cap <= PROCESS_VM_AREA_MAX -> PROCESS_VM_AREA_INITIAL <= cap -> new <> 0 ->
  p' = set_table new (areas p ++ replicate (Z.to_nat cap - length (areas p)) zero_area) (table_frames cap) (vm_area_count p) cap p ->
  table_ok p' /\ areas p' = areas p.
Proof.
  intros T Hc Hi Hne ->. pose proof (areas_len T) as Hlen. unfold zlen in Hlen. pose proof (tk_count _ T). split.
  - constructor; cbn; try done; try lia. unfold zlen. rewrite length_app, length_replicate. lia.
  - unfold areas at 1. cbn. rewrite take_app_le by lia. by rewrite take_ge by lia.
Qed.

Lemma ensure_runs pds w needed :
  wok pds w -> 0 <= needed ->
  runs (process_vm_ensure_capacity needed) w (fun b w' =>
    moved pds w w' /\ (b = true -> needed <= vm_area_capacity (w_proc w') /\ vm_areas (w_proc w') <> 0)
    /\ (vm_areas (w_proc w) <> 0 -> needed <= vm_area_capacity (w_proc w) -> b = true /\ w' = w)
    /\ (b = true -> vm_areas (w_proc w) <> 0 -> vm_area_capacity (w_proc w) < needed -> vm_areas (w_proc w') <> vm_areas (w_proc w))).
Proof.
  intros W Hn. unfold process_vm_ensure_capacity. apply runs_bind, runs_proc, runs_bind.
  eapply runs_mono; [by apply (pre_init_runs pds)|]. intros ok w1 (M1 & Hok & Hsame).
  destruct ok; cbn [negb].
  2:{ apply runs_ret. split_and!; try done. intros Hne _. by destruct (Hsame Hne). }
  specialize (Hok eq_refl). apply runs_bind, runs_proc.
  destruct (Z.leb_spec needed (vm_area_capacity (w_proc w1))).
  { apply runs_ret. split_and!; try done; intros Hne.
    - intros _. by destruct (Hsame Hne) as [_ ->].
    - intros Hne' Hlt. destruct (Hsame Hne') as [_ ->]. lia. }
  assert (Hno : vm_areas (w_proc w) <> 0 -> needed <= vm_area_capacity (w_proc w) -> False).
  { intros Hne Hle. destruct (Hsame Hne) as [_ ->]. lia. }
  destruct (Z.ltb_spec PROCESS_VM_AREA_MAX needed); [apply runs_ret; split_and!; try done; by intros ? ?%Hno|].
  pose proof M1 as [(h & pts & ext & [B Hpd T Hb]) _ _ _ _].
  pose proof (tk_alloc _ T Hok) as Hcap. pose proof (tk_max _ T) as Hmax. pose proof (tk_count _ T) as Hcnt.
  unfold PROCESS_VM_AREA_INITIAL, PROCESS_VM_AREA_MAX in *.
  rewrite (proj2 (Z.eqb_neq (vm_area_capacity (w_proc w1)) 0)) by lia. cbn [negb].
  destruct (grow_capacity_spec 10 (vm_area_capacity (w_proc w1)) needed) as [Hc1 Hc2];
    [lia|unfold PROCESS_VM_AREA_MAX; lia..|]. unfold PROCESS_VM_AREA_MAX in Hc1.
  set (c := grow_capacity 10 (vm_area_capacity (w_proc w1)) needed) in *. cbv zeta. clearbody c.
  rewrite (proj2 (Z.ltb_ge c needed)) by lia.
  apply runs_bind, runs_on_kernel, (kcalloc_table h pds pts ext); [done|unfold PROCESS_VM_AREA_MAX; lia| |].
  { cbn. apply runs_ret. split_and!; try done; [by destruct w1|by intros ? ?%Hno]. }
  intros p k' h' ext' n Hp B' A Hn' Hq. rewrite (proj2 (Z.eqb_neq p 0)) by done.
  destruct (Hb Hok) as (m & Hm & Hlive).
  apply runs_bind, runs_on_kernel, (kfree_table h' pds pts ext' k' _ m); [done|by apply A|done|].
  intros k2 h2 ext2 B2 F Hq2. apply runs_bind, runs_set_proc, runs_ret. cbn [w_kernel w_proc].
  fold (areas (w_proc w1)).
  destruct (grown_table (w_proc w1) _ p c T ltac:(unfold PROCESS_VM_AREA_MAX; lia) ltac:(unfold PROCESS_VM_AREA_INITIAL; lia) Hp eq_refl)
    as [T' Ha'].
  split_and!; [|intros _; cbn; split; [lia|done]|by intros ? ?%Hno|].
  2:{ intros _ Hne _. destruct (Hsame Hne) as [_ ->]. cbn. intros ->. by apply (al_fresh _ _ _ _ _ _ A m). }
  apply (moved_trans _ _ w1); [done|]. split; cbn [w_kernel w_proc]; try done.
  - exists h2, pts, ext2. constructor; cbn [w_kernel w_proc]; try done. intros _. exists n. split; [done|].
    apply F. split; [apply A|]. cbn. intros ->. by apply (al_fresh _ _ _ _ _ _ A m).
  - by eapply quiet_trans.
Qed.

(** ** Page tables *)

Definition with_machine (s : machine) (k : kernel) : kernel := Kernel s (s_slabs k) (s_stats k).

Lemma pte_maps_present e f : pte_maps e f = true -> has_all e (Z.lor PAGE_PRESENT PAGE_USER) = true.
Proof. unfold pte_maps. intros H. by destruct (has_all e _). Qed.

Lemma unmap_both h pds pts ext k pd va :
  both kpd h pds pts ext k -> pd ∈ pds -> 0 <= va < 2 ^ 32 ->
  let v := va / 4096 in
  runs (paging_unmap_user_page L pd va) (k_machine k) (fun _ s' => exists pts',
    both kpd h pds pts' ext (with_machine s' k) /\ (forall f, is_table pds pts' f -> is_table pds pts f)
    /\ (forall f i, ~ is_table pds pts f -> m_mem s' f i = k_mem k f i)
    /\ (user_page v -> has (user_pte (m_mem s') pd v) PAGE_PRESENT = false)
    /\ forall pd' v', pd' ∈ pds -> user_page v' -> (pd', v') <> (pd, v) ->
       user_pte (m_mem s') pd' v' = user_pte (k_mem k) pd' v'
       \/ user_pte (m_mem s') pd' v' = 0 /\ has_all (user_pte (k_mem k) pd' v') (Z.lor PAGE_PRESENT PAGE_USER) = false).
Proof.
  intros B Hpd Hva v. pose proof B as [R V A].
  eapply runs_mono; [apply (unmap_runs L (layout_kptr L HL) pds pts ext); done|]. cbv zeta. fold v.
  intros b s' [Hb Hs]. destruct b.
  - destruct Hs as (pts' & V' & Hw & [Hp H0 Ho Hd He]). exists pts'. split_and!.
    + eapply both_paging; try done.
      * intros f pd' v' Hf Hpd' Hv' Hm. destruct (He pd' v' Hpd' Hv') as [E|E]; rewrite E in Hm; done.
      * intros f i Hf Hnt _. by apply Hd.
    + intros f [Hf|(x & Hx)]; [by left|]. destruct Hp as [->| ->]; [right; by exists x|].
      apply lookup_delete_Some in Hx as [_ Hx]. right. by exists x.
    + exact Hd.
    + intros _. by rewrite H0.
    + intros pd' v' Hpd' Hv' Hne. destruct (He pd' v' Hpd' Hv') as [E|E]; [|by left]. rewrite E.
      destruct (has_all (user_pte (k_mem k) pd' v') _) eqn:Eh; [left|by right].
      rewrite <- E. by apply Ho.
  - subst s'. exists pts. split_and!; try done.
    + by destruct k.
    + intros Hv. symmetry in Hb. apply andb_false_iff in Hb as [Hb|Hb]; [|done].
      apply (proj2 (pd_index_is_user _)) in Hv. congruence.
    + intros pd' v' _ _ _. by left.
Qed.

(** What unmapping the pages [a, b) of [pd] does to the entry of page [v'] of [pd']. *)
Definition cleared_pte (pd a b pd' v' e e' : Z) : Prop :=
  if (pd' =? pd) && (a <=? v') && (v' <? b) then has e' PAGE_PRESENT = false
  else e' = e \/ e' = 0 /\ has_all e (Z.lor PAGE_PRESENT PAGE_USER) = false.

Lemma unmap_loop h pds pts ext w a e (Q : unit -> world -> Prop) :
  both kpd h pds pts ext (w_kernel w) -> pd (w_proc w) ∈ pds -> 0 <= a -> a <= e < 2 ^ 32 -> a mod 4096 = 0 -> e mod 4096 = 0 ->
  (forall k' pts', both kpd h pds pts' ext k' ->
     (forall f i, ~ is_table pds pts f -> k_mem k' f i = k_mem (w_kernel w) f i) ->
     (forall pd' v', pd' ∈ pds -> user_page v' -> cleared_pte (pd (w_proc w)) (a / 4096) (e / 4096) pd' v'
        (user_pte (k_mem (w_kernel w)) pd' v') (user_pte (k_mem k') pd' v')) ->
     Q tt (World k' (w_proc w))) ->
  runs (for_each (up_to a e PAGE_SIZE) (fun page =>
    p <- proc ;; on_mach (paging_unmap_user_page L (pd p) page) ;;; ret tt)) w Q.
Proof.
  intros B Hpd Ha He Ma Me HQ. set (P := fun n w' => exists k' pts', w' = World k' (w_proc w) /\ both kpd h pds pts' ext k'
    /\ (forall f, is_table pds pts' f -> is_table pds pts f)
    /\ (forall f i, ~ is_table pds pts f -> k_mem k' f i = k_mem (w_kernel w) f i)
    /\ (forall pd' v', pd' ∈ pds -> user_page v' -> cleared_pte (pd (w_proc w)) (a / 4096) n pd' v'
          (user_pte (k_mem (w_kernel w)) pd' v') (user_pte (k_mem k') pd' v'))).
  apply (runs_for_pages P a e); [lia|done|done|..].
  - exists (w_kernel w), pts. split_and!; try done; [by destruct w|]. intros pd' v' _ _. unfold cleared_pte.
    rewrite (proj2 (andb_false_iff _ _)) by lia. by left.
  - intros n w' Hn (k' & pts' & -> & B' & Hsub & Hd & Hp). apply runs_bind, runs_proc, runs_bind, runs_on_kernel.
    cbn [w_kernel w_proc]. apply runs_on_machine. eapply runs_mono; [apply (unmap_both h pds pts' ext k'); [done|done|dlia]|].
    cbv zeta. replace (n * 4096 / 4096) with n by dlia. intros b s' (pts2 & B2 & Hsub2 & Hd2 & H0 & Ho). apply runs_ret.
    exists (with_machine s' k'), pts2. split_and!; try done.
    + intros f Hf. by apply Hsub, Hsub2.
    + intros f i Hf. rewrite <- Hd by done. apply Hd2. intros Hx. by apply Hf, Hsub.
    + intros pd' v' Hpd' Hv'. specialize (Hp pd' v' Hpd' Hv'). unfold cleared_pte in *.
      change (k_mem (with_machine s' k')) with (m_mem s').
      destruct (decide ((pd', v') = (pd (w_proc w), n))) as [[= -> ->]|Hne].
      { rewrite (proj2 (andb_true_iff _ _)) by lia. by apply H0. }
      specialize (Ho pd' v' Hpd' Hv' Hne).
      assert (Hc : (pd' =? pd (w_proc w)) && (a / 4096 <=? v') && (v' <? n + 1)
        = (pd' =? pd (w_proc w)) && (a / 4096 <=? v') && (v' <? n)).
      { destruct (Z.eqb_spec pd' (pd (w_proc w))) as [->|]; [|done]. assert (v' <> n) by congruence. cbn. lia. }
      rewrite Hc. destruct (_ && _ && _).
      * by destruct Ho as [-> |[-> _]].
      * destruct Ho as [->|[-> Hz]]; [done|]. right. split; [done|]. destruct Hp as [Hp|[Hp Hz']]; [by rewrite <- Hp|done].
  - intros w' (k' & pts' & -> & B' & _ & Hd & Hp). by apply (HQ k' pts').
Qed.

(** What [process_vm_protect] does to the entry of a page in the range. *)
Definition protect_pte (v e : Z) : Z :=
  if has_all e (Z.lor PAGE_PRESENT PAGE_USER) then
    let f := pte_flags e in
    if negb (Z.land v PROCESS_VM_PROT_WRITE =? 0) then
      if negb (has f PAGE_COW) && negb (has f PAGE_SHARED_RO_FILE)
      then pte_frame e + Z.lor (Z.lor (Z.lor (clear f 0) PAGE_WRITE) PAGE_PRESENT) PAGE_USER else e
    else pte_frame e + Z.lor (Z.lor (Z.lor (clear f PAGE_WRITE) 0) PAGE_PRESENT) PAGE_USER
  else e.

(** A machine state that differs from [k] in page-table entries only. *)
Record repaged (h : heap) (pds : gset Z) (pts : gmap (Z * Z) Z) (ext : Z -> Z) (k k' : kernel) : Prop := Repaged {
  rp_both : both kpd h pds pts ext k';
  rp_data : forall f i, ~ is_table pds pts f -> k_mem k' f i = k_mem k f i
}.

Lemma set_flags_both h pds pts ext k pd va c fl :
  both kpd h pds pts ext k -> pd ∈ pds -> 0 <= va < 2 ^ 32 -> 0 <= c < 4096 -> 0 <= fl < 4096 ->
  let v := va / 4096 in let e := user_pte (k_mem k) pd v in
  user_page v -> has_all e (Z.lor PAGE_PRESENT PAGE_USER) = true ->
  runs (paging_user_page_set_flags L pd va c fl) (k_machine k) (fun _ s' =>
    repaged h pds pts ext k (with_machine s' k)
    /\ user_pte (m_mem s') pd v = pte_frame e + Z.lor (Z.lor (Z.lor (clear (pte_flags e) c) fl) PAGE_PRESENT) PAGE_USER
    /\ forall pd' v', pd' ∈ pds -> user_page v' -> (pd', v') <> (pd, v) ->
       user_pte (m_mem s') pd' v' = user_pte (k_mem k) pd' v').
Proof.
  intros B Hpd Hva Hc Hfl v e Hv He. pose proof B as [R V A].
  eapply runs_mono; [apply (set_flags_runs L pds pts ext); done|]. cbv zeta. fold v. fold (k_mem k). fold e.
  rewrite (proj2 (pd_index_is_user _) Hv), He. cbn [andb]. intros b s' [-> (V' & Hp & [_ Hd Hown Ho])].
  split_and!; [|done|done]. constructor; [|intros f i Hf; by apply Hd].
  eapply both_keep; try done.
  - by rewrite Hp.
  - intros f Hf. rewrite Hp. by apply (heap_frame R).
  - intros f i _ Hf _. by apply Hd.
Qed.

Lemma protect_page_runs h pds pts ext w v n :
  both kpd h pds pts ext (w_kernel w) -> pd (w_proc w) ∈ pds -> user_page n ->
  runs (protect_page L v (n * 4096)) w (fun _ w' => exists k', w' = World k' (w_proc w)
    /\ repaged h pds pts ext (w_kernel w) k'
    /\ user_pte (k_mem k') (pd (w_proc w)) n = protect_pte v (user_pte (k_mem (w_kernel w)) (pd (w_proc w)) n)
    /\ forall pd' v', pd' ∈ pds -> user_page v' -> (pd', v') <> (pd (w_proc w), n) ->
       user_pte (k_mem k') pd' v' = user_pte (k_mem (w_kernel w)) pd' v').
Proof.
  intros B Hpd Hn. pose proof B as [R V A]. pose proof (user_index_range _ Hn).
  assert (Hr : 0 <= n * 4096 < 2 ^ 32) by dlia. assert (En : n * 4096 / 4096 = n) by dlia.
  unfold protect_page. apply runs_bind, runs_proc, runs_bind, runs_on_kernel, runs_on_machine.
  apply (page_get_runs L pds pts ext); [done..|]. cbv zeta. rewrite En. fold (k_mem (w_kernel w)).
  set (e := user_pte (k_mem (w_kernel w)) (pd (w_proc w)) n). rewrite (proj2 (pd_index_is_user _) Hn). cbn [andb].
  unfold protect_pte. replace (Kernel (k_machine (w_kernel w)) _ _) with (w_kernel w) by (by destruct (w_kernel w)).
  assert (Hsame : exists k', w = World k' (w_proc w) /\ repaged h pds pts ext (w_kernel w) k'
    /\ user_pte (k_mem k') (pd (w_proc w)) n = e
    /\ forall pd' v', pd' ∈ pds -> user_page v' -> (pd', v') <> (pd (w_proc w), n) ->
       user_pte (k_mem k') pd' v' = user_pte (k_mem (w_kernel w)) pd' v').
  { exists (w_kernel w). split_and!; try done. by destruct w. }
  destruct (has_all e (Z.lor PAGE_PRESENT PAGE_USER)) eqn:He.
  2:{ apply runs_ret. destruct w; exact Hsame. }
  assert (Hset : forall c fl, 0 <= c < 4096 -> 0 <= fl < 4096 ->
    runs (on_mach (paging_user_page_set_flags L (pd (w_proc w)) (n * 4096) c fl) ;;; ret tt) (World (w_kernel w) (w_proc w))
      (fun _ w' => exists k', w' = World k' (w_proc w) /\ repaged h pds pts ext (w_kernel w) k'
      /\ user_pte (k_mem k') (pd (w_proc w)) n = pte_frame e + Z.lor (Z.lor (Z.lor (clear (pte_flags e) c) fl) PAGE_PRESENT) PAGE_USER
      /\ forall pd' v', pd' ∈ pds -> user_page v' -> (pd', v') <> (pd (w_proc w), n) ->
       user_pte (k_mem k') pd' v' = user_pte (k_mem (w_kernel w)) pd' v')).
  { intros c fl Hc Hfl. apply runs_bind, runs_on_kernel, runs_on_machine. cbn [w_kernel w_proc].
    pose proof (set_flags_both h pds pts ext (w_kernel w) (pd (w_proc w)) (n * 4096) c fl B Hpd Hr Hc Hfl) as Hs.
    cbv zeta in Hs. rewrite En in Hs. eapply runs_mono; [by apply Hs|]. intros b s' (Hrp & Hown & Ho). apply runs_ret.
    exists (with_machine s' (w_kernel w)). by split_and!. }
  destruct (negb (Z.land v PROCESS_VM_PROT_WRITE =? 0)).
  - destruct (negb (has (pte_flags e) PAGE_COW) && negb (has (pte_flags e) PAGE_SHARED_RO_FILE)).
    + by apply Hset.
    + apply runs_ret. destruct w; exact Hsame.
  - by apply Hset.
Qed.

Lemma repaged_refl h pds pts ext k : both kpd h pds pts ext k -> repaged h pds pts ext k k.
Proof. done. Qed.

Lemma repaged_trans h pds pts ext k1 k2 k3 :
  repaged h pds pts ext k1 k2 -> repaged h pds pts ext k2 k3 -> repaged h pds pts ext k1 k3.
Proof. intros [_ D1] [B2 D2]. split; [done|]. intros f i Hf. rewrite D2 by done. by apply D1. Qed.

Lemma user_page_range n : USER_CODE_BASE <= n * 4096 < USER_STACK_TOP -> user_page n.
Proof.
  unfold user_page, user_index, USER_PD_FIRST_INDEX, USER_PD_LIMIT_INDEX, USER_CODE_BASE, USER_STACK_TOP.
  change (Z.shiftr 0x400000 22) with 1. change (Z.shiftr 0xC0000000 22) with 768. dlia.
Qed.

(** The entries after protecting the pages [a, b) of [pd]. *)
Definition protected_ptes (pds : gset Z) (pd v : Z) (hit : Z -> bool) (k k' : kernel) : Prop :=
  forall pd' n, pd' ∈ pds -> user_page n -> user_pte (k_mem k') pd' n =
    if (pd' =? pd) && hit n then protect_pte v (user_pte (k_mem k) pd' n) else user_pte (k_mem k) pd' n.

Lemma protect_pages_runs h pds pts ext w v a e :
  both kpd h pds pts ext (w_kernel w) -> pd (w_proc w) ∈ pds -> USER_CODE_BASE <= a <= e -> e <= USER_STACK_TOP ->
  a mod 4096 = 0 -> e mod 4096 = 0 ->
  runs (for_each (up_to a e PAGE_SIZE) (protect_page L v)) w (fun _ w' => exists k', w' = World k' (w_proc w)
    /\ repaged h pds pts ext (w_kernel w) k'
    /\ protected_ptes pds (pd (w_proc w)) v (fun n => (a / 4096 <=? n) && (n <? e / 4096)) (w_kernel w) k').
Proof.
  intros B Hpd Ha He Ma Me. assert (Hbase : 0 <= USER_CODE_BASE) by (unfold USER_CODE_BASE; lia).
  apply (runs_for_pages (fun m w' => exists k', w' = World k' (w_proc w) /\ repaged h pds pts ext (w_kernel w) k'
    /\ protected_ptes pds (pd (w_proc w)) v (fun n => (a / 4096 <=? n) && (n <? m)) (w_kernel w) k')); [lia|done|done|..|done].
  - exists (w_kernel w). split_and!; [by destruct w|by apply repaged_refl|]. intros pd' n _ _.
    replace ((a / 4096 <=? n) && (n <? a / 4096)) with false by lia. by rewrite andb_false_r.
  - intros m w' Hm (k1 & -> & Hr1 & Hp1).
    assert (Hum : user_page m) by (apply user_page_range; dlia).
    eapply runs_mono; [apply (protect_page_runs h pds pts ext); [apply Hr1|done|done]|]. cbn [w_kernel w_proc].
    intros _ w2 (k2 & -> & Hr2 & Hown & Ho). exists k2. split_and!; [done|by eapply repaged_trans|].
    intros pd' n Hpd' Hn. specialize (Hp1 pd' n Hpd' Hn).
    destruct (decide ((pd', n) = (pd (w_proc w), m))) as [[= -> ->]|Hne].
    + rewrite Hown, Hp1. rewrite Z.eqb_refl. cbn [andb].
      replace ((a / 4096 <=? m) && (m <? m)) with false by lia. by replace ((a / 4096 <=? m) && (m <? m + 1)) with true by lia.
    + rewrite Ho, Hp1 by done. destruct (Z.eqb_spec pd' (pd (w_proc w))) as [->|]; [|done].
      assert (n <> m) by congruence. cbn [andb]. by replace ((a / 4096 <=? n) && (n <? m + 1)) with ((a / 4096 <=? n) && (n <? m)) by lia.
Qed.

(** Some area of [l] in the range covers the page. *)
Definition hits (a e : Z) (l : list area) (n : Z) : bool :=
  existsb (fun b => negb (outside a e b) && covers b (n * 4096)) l.

Lemma hits_app a e l1 l2 n : hits a e (l1 ++ l2) n = hits a e l1 n || hits a e l2 n.
Proof. apply existsb_app. Qed.

Lemma hits_one a e b n : hits a e [b] n = negb (outside a e b) && covers b (n * 4096).
Proof. unfold hits. cbn. by rewrite orb_false_r. Qed.

Lemma set_slot_ok p i x :
  table_ok p -> 0 <= i < vm_area_count p ->
  let p' := set_slots (zset (vm_slots p) i x) (vm_area_count p) p in
  table_ok p' /\ areas p' = take (Z.to_nat i) (areas p) ++ x :: drop (Z.to_nat (i + 1)) (areas p).
Proof.
  intros [? ? Hs ? ?] Hi. split.
  - constructor; cbn; rewrite ?zlen_zset; done.
  - unfold areas. cbn. apply take_zset; lia.
Qed.

(** One more area of the list has been protected. *)
Lemma protect_step pds pd a e v l i b k k1 k2 :
  sorted 0 l -> 0 <= i < zlen l -> b = zget zero_area l i -> outside a e b = false ->
  start b mod 4096 = 0 -> end_ b mod 4096 = 0 ->
  protected_ptes pds pd v (hits a e (take (Z.to_nat i) l)) k k1 ->
  protected_ptes pds pd v (fun n => (start b / 4096 <=? n) && (n <? end_ b / 4096)) k1 k2 ->
  protected_ptes pds pd v (hits a e (take (Z.to_nat (i + 1)) l)) k k2.
Proof.
  intros Hs Hi Eb Eo Ms Me H1 H2 pd' n Hpd' Hn. rewrite (H2 pd' n Hpd' Hn), (H1 pd' n Hpd' Hn).
  rewrite take_snoc_get, hits_app by done. rewrite <- Eb, hits_one, Eo. cbn [negb andb].
  assert (Hc : covers b (n * 4096) = (start b / 4096 <=? n) && (n <? end_ b / 4096)).
  { unfold covers. dlia. }
  rewrite Hc. destruct (pd' =? pd); [|done]. cbn [andb].
  destruct ((start b / 4096 <=? n) && (n <? end_ b / 4096)) eqn:E; [|by rewrite orb_false_r]. rewrite orb_true_r.
  destruct (hits a e (take (Z.to_nat i) l) n) eqn:Eh; [exfalso|done].
  unfold hits in Eh. apply existsb_exists in Eh as (c & Hc1 & Hc2). apply andb_true_iff in Hc2 as [_ Hc2].
  apply covers_iff in Hc2. apply list_elem_of_In in Hc1. rewrite (zget_split zero_area l i Hi), <- Eb in Hs.
  apply sorted_app in Hs as [Hs1 [Hs2 _]]. destruct (sorted_in _ _ _ Hs1 Hc1) as [_ Hle].
  cbn in Hs2. dlia.
Qed.

Lemma protect_areas_runs h pds pts ext w a e v (Q : unit -> world -> Prop) :
  both kpd h pds pts ext (w_kernel w) -> pd (w_proc w) ∈ pds -> table_ok (w_proc w) -> areas_ok (areas (w_proc w)) ->
  (forall k' p', repaged h pds pts ext (w_kernel w) k' -> table_ok p' -> pd p' = pd (w_proc w) ->
     vm_areas p' = vm_areas (w_proc w) -> areas p' = map (protected a e v) (areas (w_proc w)) ->
     protected_ptes pds (pd (w_proc w)) v (hits a e (areas (w_proc w))) (w_kernel w) k' -> Q tt (World k' p')) ->
  runs (for_each (up_to 0 (vm_area_count (w_proc w)) 1) (fun i =>
    p <- proc ;;
    let area := area_at p i in
    if outside a e area then ret tt else
    set_proc (set_slots (zset (vm_slots p) i (set_prot v area)) (vm_area_count p)) ;;;
    for_each (up_to (start area) (end_ area) PAGE_SIZE) (protect_page L v))) w Q.
Proof.
  intros B Hpd T Hok HQ. set (l := areas (w_proc w)) in *. set (cnt := vm_area_count (w_proc w)).
  assert (Hlen : zlen l = cnt) by (apply (areas_len T)).
  set (P := fun i w' => exists k' p', w' = World k' p' /\ repaged h pds pts ext (w_kernel w) k' /\ table_ok p'
    /\ pd p' = pd (w_proc w) /\ vm_areas p' = vm_areas (w_proc w) /\ vm_area_count p' = cnt
    /\ areas p' = map (protected a e v) (take (Z.to_nat i) l) ++ drop (Z.to_nat i) l
    /\ protected_ptes pds (pd (w_proc w)) v (hits a e (take (Z.to_nat i) l)) (w_kernel w) k').
  pose proof (tk_count _ T). apply (runs_for_each P); [lia| | |].
  - exists (w_kernel w), (w_proc w). split_and!; try done; [by destruct w|].
    intros pd' n _ _. cbn. by rewrite andb_false_r.
  - intros i w' Hi (k1 & p1 & -> & Hr1 & T1 & Hp1 & Hv1 & Hc1 & Ha1 & Ht1).
    apply runs_bind, runs_proc. cbn [w_proc]. cbv zeta.
    set (b := zget zero_area l i). assert (Hb : area_at p1 i = b).
    { rewrite <- areas_get by lia. rewrite Ha1. rewrite zget_app_r; rewrite ?zlen_map, zlen_take by lia; [|lia].
      unfold zget. rewrite lookup_drop. unfold b, zget. do 2 f_equal. lia. }
    rewrite Hb. assert (Htake : take (Z.to_nat (i + 1)) l = take (Z.to_nat i) l ++ [b]) by (apply take_snoc_get; lia).
    assert (Hdrop : drop (Z.to_nat i) l = b :: drop (Z.to_nat (i + 1)) l).
    { replace (Z.to_nat (i + 1)) with (S (Z.to_nat i)) by lia. apply drop_S. apply lookup_zget. lia. }
    destruct (outside a e b) eqn:Eo.
    { apply runs_ret. exists k1, p1. split_and!; try done.
      - rewrite Htake, map_app, <- app_assoc. cbn. unfold protected at 2. rewrite Eo. by rewrite <- Hdrop.
      - intros pd' n Hpd' Hn. rewrite Htake, hits_app, hits_one, Eo. cbn [negb andb].
        rewrite orb_false_r. by apply Ht1. }
    apply runs_bind, runs_set_proc. cbn [w_kernel w_proc].
    assert (Hin : b ∈ l) by (apply zget_elem; lia). destruct Hok as [Hsrt Hall]. rewrite Forall_forall in Hall.
    destruct (Hall b Hin) as [B1 B2 B3 B4 _ _ _]. destruct (sorted_in 0 l b Hsrt Hin) as [B5 _].
    destruct (set_slot_ok p1 i (set_prot v b) T1 ltac:(lia)) as [T2 Ha2].
    eapply runs_mono; [apply (protect_pages_runs h pds pts ext); cbn [w_kernel w_proc]; try done; [apply Hr1|by cbn; rewrite Hp1|lia]|].
    cbn [w_kernel w_proc]. intros _ w3 (k3 & -> & Hr3 & Ht3). exists k3. eexists. split_and!; [done|by eapply repaged_trans|exact T2|done..| |].
    + rewrite Ha2, Ha1, Htake, map_app, <- app_assoc. cbn [map app].
      assert (Hl1 : length (map (protected a e v) (take (Z.to_nat i) l)) = Z.to_nat i).
      { rewrite length_map, length_take. unfold zlen in *. lia. }
      rewrite take_app_length' by done. f_equal. f_equal; [unfold protected; by rewrite Eo|].
      rewrite drop_app_ge by lia. rewrite Hl1, drop_drop. f_equal. lia.
    + apply (protect_step _ _ a e v l i b _ k1); try done; try lia.
      cbn [set_slots pd] in Ht3. by rewrite Hp1 in Ht3.
  - intros w' (k' & p' & -> & Hr & T' & Hp & Hv & Hc & Ha & Ht). apply HQ; try done.
    + rewrite Ha. rewrite take_ge, drop_ge by (unfold zlen in *; lia). by rewrite app_nil_r.
    + intros pd' n Hpd' Hn. rewrite (Ht pd' n Hpd' Hn). by rewrite take_ge by (unfold zlen in *; lia).
Qed.
End VmOps.
