(* ===== verification/VmProps.v ===== *)
(** * Process memory areas: contracts

    The contracts of the operations on the memory areas of a process.  An operation
    acts on the map from addresses to attributes and file bytes that the table stands
    for, whatever the layout of the table; the page tables follow it, so that a page is
    mapped only inside of an area and writable only where the area allows it. *)
From S2P Require Import Prelude BootInfo Pmm Memory Paging AddressSpace AddressOps AddressLife AddressProps.
From S2P Require Import Kalloc KallocRep KallocOps KallocProps KallocLarge KallocFree KernelVm Klib Arrays VmArea VmTable VmOps.
From Stdlib Require Import ZArith Lia ZifyBool Bool.
From stdpp Require Import base numbers gmap list.
Local Open Scope Z_scope.
Local Open Scope kernel_scope.

Section VmProps.
Context (L : layout) (HL : layout_ok L).
Local Abbreviation kpd := (kernel_page_directory L).

(** ** Changing the slots *)

(** Only the contents of the table changed. *)
Record edited (w w' : world) : Prop := Edited {
  ed_kernel : w_kernel w' = w_kernel w;
  ed_pd : pd (w_proc w') = pd (w_proc w);
  ed_ptr : vm_areas (w_proc w') = vm_areas (w_proc w);
  ed_cap : vm_area_capacity (w_proc w') = vm_area_capacity (w_proc w);
  ed_table : table_ok (w_proc w')
}.

Lemma edited_refl w : table_ok (w_proc w) -> edited w w.
Proof. done. Qed.

Lemma edited_trans w1 w2 w3 : edited w1 w2 -> edited w2 w3 -> edited w1 w3.
Proof. intros [] []. constructor; congruence || done. Qed.

Lemma edited_ok h pds pts ext w w' : world_ok L h pds pts ext w -> edited w w' -> world_ok L h pds pts ext w'.
Proof. intros [? ? ? ?] [E1 E2 E3 E4 ?]. constructor; rewrite ?E1, ?E2, ?E3; done. Qed.

Lemma edited_wok pds w w' : wok L pds w -> edited w w' -> wok L pds w'.
Proof. intros (h & pts & ext & H) E. exists h, pts, ext. by eapply edited_ok. Qed.

Lemma slots_edited w slots count :
  table_ok (w_proc w) -> zlen slots = zlen (vm_slots (w_proc w)) -> 0 <= count <= vm_area_capacity (w_proc w) ->
  edited w (World (w_kernel w) (set_slots slots count (w_proc w))).
Proof. intros [? ? ? ? ?] Hl Hc. constructor; try done. constructor; cbn; try done; congruence. Qed.

Lemma merge_runs w (Q : unit -> world -> Prop) :
  table_ok (w_proc w) ->
  (forall w', edited w w' -> rtc merge1 (areas (w_proc w)) (areas (w_proc w')) -> Q tt w') ->
  runs process_vm_merge w Q.
Proof.
  intros T HQ. unfold process_vm_merge. apply runs_set_proc.
  destruct (Z.eqb_spec (vm_areas (w_proc w)) 0) as [E|E].
  { destruct w. apply HQ; [by apply edited_refl|apply rtc_refl]. }
  pose proof (tk_count _ T). pose proof (tk_slots _ T).
  pose proof (merge_loop_merges (Z.to_nat (vm_area_count (w_proc w))) 0 (vm_slots (w_proc w)) (vm_area_count (w_proc w))
    ltac:(lia) ltac:(lia)) as Hm.
  destruct (merge_loop _ 0 _ _) as [slots count]. cbn [fst snd] in Hm. destruct Hm as (H1 & H2 & H3).
  apply HQ; [|done]. by apply slots_edited; [|congruence|lia].
Qed.

(** ** The invariant *)

(** A mapped page lies in an area and is writable only if the area is. *)
Definition backed (mem : Z -> Z -> Z) (d : Z) (l : list area) : Prop := forall n, user_page n ->
  has_all (user_pte mem d n) (Z.lor PAGE_PRESENT PAGE_USER) = true ->
  exists t, attr_at l (n * 4096) = Some t
    /\ (has (user_pte mem d n) PAGE_WRITE = true -> has (at_prot t) PROCESS_VM_PROT_WRITE = true).

Record vm_inv (pds : gset Z) (w : world) : Prop := VmInv {
  vi_ok : wok L pds w;
  vi_areas : areas_ok (areas (w_proc w));
  vi_backed : backed (k_mem (w_kernel w)) (pd (w_proc w)) (areas (w_proc w))
}.

Lemma inv_table pds w : vm_inv pds w -> table_ok (w_proc w).
Proof. intros [(h & pts & ext & [? ? ? ?]) _ _]. done. Qed.

Lemma inv_pd pds w : vm_inv pds w -> pd (w_proc w) ∈ pds.
Proof. intros [(h & pts & ext & [? ? ? ?]) _ _]. done. Qed.

Lemma backed_quiet pds k k' d l l' :
  quiet pds k k' -> d ∈ pds -> (forall x t, attr_at l x = Some t -> attr_at l' x = Some t) ->
  backed (k_mem k) d l -> backed (k_mem k') d l'.
Proof.
  intros [Hp _] Hd Ha Hb n Hn. rewrite (Hp d n Hd Hn). intros He. destruct (Hb n Hn He) as (t & Ht & Hw).
  exists t. split; [by apply Ha|done].
Qed.

Lemma moved_inv pds w w' : vm_inv pds w -> moved L pds w w' -> vm_inv pds w'.
Proof.
  intros I [A1 A2 A3 A4 A5]. constructor; [done|rewrite A5; apply I|]. rewrite A3, A5.
  eapply backed_quiet; [done|by apply inv_pd|done|apply I].
Qed.

(** ** Adding an area *)

Lemma insert_slots pds w a w' :
  vm_inv pds w -> start a < end_ a -> moved L pds w w' ->
  vm_area_count (w_proc w) + 1 <= vm_area_capacity (w_proc w') ->
  let p := w_proc w' in let pos := insert_position p (start a) in
  (0 <? pos) && (start a <? end_ (area_at p (pos - 1))) = false ->
  (pos <? vm_area_count p) && (start (area_at p pos) <? end_ a) = false ->
  let w2 := World (w_kernel w') (set_slots (zset (move_up zero_area pos (vm_area_count p) (vm_slots p)) pos a)
    (u32 (vm_area_count p + 1)) p) in
  edited w' w2 /\ exists l1 l2, areas (w_proc w) = l1 ++ l2 /\ areas (w_proc w2) = l1 ++ a :: l2
    /\ Forall (fun b => end_ b <= start a) l1 /\ Forall (fun b => end_ a <= start b) l2.
Proof.
  intros I Hlt Hm Hcap p pos G1 G2. pose proof (inv_table _ _ (moved_inv _ _ _ I Hm)) as T. fold p in T.
  destruct Hm as [_ _ _ Hc Hl]. fold p in Hcap, Hc, Hl. pose proof (tk_slots _ T) as Hslots. pose proof (tk_count _ T) as Hcnt.
  pose proof (tk_max _ T). unfold PROCESS_VM_AREA_MAX in *. pose proof (vi_areas _ _ I) as Hok. rewrite <- Hl in Hok.
  pose proof (position_range T a) as (Hpos & _ & _). fold pos in Hpos. rewrite u32_small by lia.
  assert (E : edited w' (World (w_kernel w') (set_slots (zset (move_up zero_area pos (vm_area_count p) (vm_slots p)) pos a)
    (vm_area_count p + 1) p))).
  { apply slots_edited; [done|by rewrite zlen_zset, move_up_len|fold p; lia]. }
  split; [done|]. cbn [w_proc w_kernel]. exists (take (Z.to_nat pos) (areas p)), (drop (Z.to_nat pos) (areas p)).
  split_and!; [by rewrite take_drop, Hl| |by apply (fits_before T (proj1 Hok))|by apply (fits_after T (proj1 Hok))].
  unfold areas at 1. cbn [set_slots vm_area_count vm_slots]. rewrite take_move_up by lia.
  unfold areas. rewrite take_take. do 2 f_equal. lia.
Qed.

(** What a successful insertion does. *)
Record added (pds : gset Z) (w w' : world) (a : area) : Prop := Added {
  ad_inv : vm_inv pds w';
  ad_quiet : quiet pds (w_kernel w) (w_kernel w');
  ad_pd : pd (w_proc w') = pd (w_proc w);
  ad_free : Forall (apart a) (areas (w_proc w));
  ad_attr : forall x, attr_at (areas (w_proc w')) x = if covers a x then Some (attr_of a) else attr_at (areas (w_proc w)) x;
  ad_backing : forall x, backing_at (areas (w_proc w')) x = if covers a x then backing a x else backing_at (areas (w_proc w)) x;
  ad_aligned : file_aligned a -> Forall file_aligned (areas (w_proc w)) -> Forall file_aligned (areas (w_proc w'))
}.

Lemma apart_covers a l x t : Forall (apart a) l -> attr_at l x = Some t -> covers a x = false.
Proof.
  intros Hf Ht. unfold attr_at in Ht. destruct (find_area l x) as [b|] eqn:E; [|done].
  apply find_area_in in E as [Hin Hc%covers_iff]. rewrite Forall_forall in Hf. destruct (Hf b Hin); apply covers_false; lia.
Qed.

Lemma inserted pds w w1 w2 w3 a l1 l2 :
  vm_inv pds w -> area_ok a -> start a < end_ a -> moved L pds w w1 -> edited w1 w2 -> edited w2 w3 ->
  areas (w_proc w) = l1 ++ l2 -> areas (w_proc w2) = l1 ++ a :: l2 ->
  Forall (fun b => end_ b <= start a) l1 -> Forall (fun b => end_ a <= start b) l2 ->
  rtc merge1 (areas (w_proc w2)) (areas (w_proc w3)) -> added pds w w3 a.
Proof.
  intros I Ha Hlt M E1 E2 Hl Hl2 H1 H2 Hm. pose proof (edited_trans _ _ _ E1 E2) as E.
  assert (Hfree : Forall (apart a) (areas (w_proc w))).
  { rewrite Hl. apply Forall_app. split; eapply Forall_impl; try done; intros b Hb; unfold apart; auto. }
  destruct (insert_view l1 l2 a) as [Hok Hfind]; try done; [rewrite <- Hl; apply I|].
  rewrite <- Hl2, <- Hl in Hfind. rewrite <- Hl2 in Hok. destruct (merges_ok _ _ Hm Hok) as [Hok3 [Hat Hbk]].
  assert (Hattr : forall x, attr_at (areas (w_proc w3)) x = if covers a x then Some (attr_of a) else attr_at (areas (w_proc w)) x).
  { intros x. rewrite Hat. unfold attr_at. rewrite Hfind. by destruct (covers a x). }
  assert (Hpd : pd (w_proc w3) = pd (w_proc w)) by (by rewrite (ed_pd _ _ E), (mv_pd _ _ _ _ M)).
  assert (Hq : quiet pds (w_kernel w) (w_kernel w3)) by (rewrite (ed_kernel _ _ E); apply M).
  constructor; try done.
  - constructor; [by eapply edited_wok; [apply M|]|done|]. rewrite Hpd. eapply backed_quiet; [done|by apply inv_pd| |apply I].
    intros x t Ht. rewrite Hattr. by rewrite (apart_covers a _ x t Hfree Ht).
  - intros x. rewrite Hbk. unfold backing_at. rewrite Hfind. by destruct (covers a x).
  - intros Hal Hall. eapply merges_aligned; [done|]. rewrite Hl2. rewrite Hl in Hall. apply Forall_app in Hall as [A1 A2].
    apply Forall_app. split; [done|]. by apply Forall_cons.
Qed.

(** A refused insertion: the areas overlap, or there is no room for another area. *)
Definition refused (pds : gset Z) (w w' : world) (a : area) : Prop :=
  moved L pds w w' /\ (Forall (apart a) (areas (w_proc w)) -> vm_area_capacity (w_proc w) <= vm_area_count (w_proc w)).

Lemma insert_area_runs pds w a :
  vm_inv pds w -> area_ok a -> start a < end_ a ->
  runs (process_vm_insert_area a true) w (fun b w' => if b : bool then added pds w w' a else refused pds w w' a).
Proof.
  intros I Ha Hlt. pose proof (vi_ok _ _ I) as W. pose proof (inv_table _ _ I) as T.
  pose proof (tk_count _ T). pose proof (tk_max _ T). unfold PROCESS_VM_AREA_MAX in *.
  unfold process_vm_insert_area. rewrite (proj2 (Z.leb_gt _ _)) by done.
  apply runs_bind, runs_proc, runs_bind. eapply runs_mono; [by apply (pre_init_runs L pds)|].
  intros ok w1 (M1 & Hne1 & Hsame1). destruct ok; cbn [negb].
  2:{ apply runs_ret. split; [done|]. intros _. destruct (decide (vm_areas (w_proc w) = 0)) as [E|E].
      - pose proof (tk_null _ T E). lia.
      - by destruct (Hsame1 E). }
  apply runs_bind, runs_proc, runs_bind. rewrite (mv_count _ _ _ _ M1), u32_small by lia.
  eapply runs_mono; [apply (ensure_runs L pds); [apply M1|lia]|].
  intros ok w2 (M2 & Hcap2 & Hsame2 & _). pose proof (moved_trans _ _ _ _ _ M1 M2) as M. destruct ok; cbn [negb].
  2:{ apply runs_ret. split; [done|]. intros _. destruct (decide (vm_areas (w_proc w) = 0)) as [E|E].
      - pose proof (tk_null _ T E). lia.
      - destruct (Hsame1 E) as [_ ->]. destruct (decide (vm_area_count (w_proc w) + 1 <= vm_area_capacity (w_proc w))) as [Hle|]; [|lia].
        by destruct (Hsame2 E Hle). }
  apply runs_bind, runs_proc. cbv zeta. destruct (Hcap2 eq_refl) as [Hcap Hne].
  pose proof (moved_inv _ _ _ I M) as I2. pose proof (fits_free (inv_table _ _ I2) (proj1 (vi_areas _ _ I2)) a Hlt) as Hff.
  rewrite (mv_areas _ _ _ _ M) in Hff.
  destruct ((0 <? _) && _) eqn:G1. { apply runs_ret. split; [done|]. by intros [? _]%Hff. }
  destruct ((_ <? vm_area_count _) && _) eqn:G2. { apply runs_ret. split; [done|]. by intros [_ ?]%Hff. }
  destruct (insert_slots pds w a w2 I Hlt M Hcap G1 G2) as [E (l1 & l2 & Hl & Hl2 & F1 & F2)].
  apply runs_bind, runs_set_proc, runs_bind, merge_runs; [apply E|].
  intros w3 E3 Hm. apply runs_ret. by eapply inserted.
Qed.

(** ** Splitting *)

Lemma page_offset_mod a : page_offset a = a mod 4096.
Proof. unfold page_offset. change (PAGE_SIZE - 1) with (Z.ones 12). rewrite Z.land_ones by lia. done. Qed.

Lemma split_needed_spec p addr :
  table_ok p -> sorted 0 (areas p) -> vm_areas p <> 0 -> addr mod 4096 = 0 ->
  process_vm_split_needed p addr = false <-> uncut addr (areas p).
Proof.
  intros T Hs Hne Hal. unfold process_vm_split_needed. rewrite (proj2 (Z.eqb_neq _ 0) Hne), page_offset_mod, Hal. cbn [Z.eqb negb]. cbv zeta.
  rewrite (uncut_find addr _ 0 Hs). destruct (find_index_spec T addr Hne) as [[-> ->]|[Hr E]]; [done|].
  rewrite E. rewrite (proj2 (Z.ltb_ge _ 0)) by lia. apply find_area_in in E as [_ Hc%covers_iff]. split; lia.
Qed.

(** The areas are split at [addr]; the table has not moved. *)
Record cut_at (addr : Z) (w w' : world) : Prop := CutAt {
  cu_edited : edited w w';
  cu_ok : areas_ok (areas (w_proc w'));
  cu_attr : forall x, attr_at (areas (w_proc w')) x = attr_at (areas (w_proc w)) x;
  cu_view : Forall file_aligned (areas (w_proc w)) ->
    Forall file_aligned (areas (w_proc w')) /\ same_view (areas (w_proc w)) (areas (w_proc w'));
  cu_here : uncut addr (areas (w_proc w'));
  cu_other : forall y, uncut y (areas (w_proc w)) -> uncut y (areas (w_proc w'));
  cu_right : forall a, find_area (areas (w_proc w)) addr = Some a -> start a < addr ->
    find_area (areas (w_proc w')) addr = Some (set_right addr (u32 (addr - start a)) a);
  cu_count : vm_area_count (w_proc w') = vm_area_count (w_proc w) + Z.b2z (process_vm_split_needed (w_proc w) addr)
}.

Lemma uncut_cut_at addr w :
  table_ok (w_proc w) -> areas_ok (areas (w_proc w)) -> vm_areas (w_proc w) <> 0 -> addr mod 4096 = 0 ->
  uncut addr (areas (w_proc w)) -> cut_at addr w w.
Proof.
  intros T Hok Hne Hal Hu. constructor; try done.
  { intros a E. pose proof (proj1 (uncut_find addr _ 0 (proj1 Hok)) Hu) as H. rewrite E in H. lia. }
  rewrite (proj2 (split_needed_spec _ _ T (proj1 Hok) Hne Hal)) by done. cbn. lia.
Qed.

Lemma split_slots w addr i :
  table_ok (w_proc w) -> areas_ok (areas (w_proc w)) -> addr mod 4096 = 0 ->
  0 <= i < vm_area_count (w_proc w) -> vm_area_count (w_proc w) + 1 <= vm_area_capacity (w_proc w) ->
  let p := w_proc w in let a := area_at p i in
  start a < addr < end_ a -> process_vm_split_needed p addr = true ->
  cut_at addr w (World (w_kernel w) (set_slots
    (zset (move_up zero_area (i + 1) (vm_area_count p) (zset (vm_slots p) i (set_left addr a))) (i + 1)
       (set_right addr (u32 (addr - start a)) a)) (u32 (vm_area_count p + 1)) p)).
Proof.
  intros T Hok Hal Hi Hcap p a Hin Hneed. fold p in T, Hok, Hi, Hcap. pose proof (tk_slots _ T) as Hslots. pose proof (tk_max _ T).
  unfold PROCESS_VM_AREA_MAX in *. rewrite (u32_small (vm_area_count p + 1)) by lia. pose proof (areas_split T i Hi) as Hl. fold a in Hl.
  set (w2 := World _ _).
  assert (Hl2 : areas (w_proc w2) = take (Z.to_nat i) (areas p) ++ set_left addr a :: set_right addr (u32 (addr - start a)) a
    :: drop (Z.to_nat (i + 1)) (areas p)).
  { unfold areas at 1. cbn [w2 w_proc set_slots vm_area_count vm_slots]. rewrite take_move_up by (rewrite ?zlen_zset; lia).
    assert (Hlen : length (take (Z.to_nat i) (areas p)) = Z.to_nat i).
    { pose proof (areas_len T) as E. unfold zlen in E. rewrite length_take. lia. }
    assert (take (Z.to_nat (i + 1)) (zset (vm_slots p) i (set_left addr a)) = take (Z.to_nat i) (areas p) ++ [set_left addr a]) as ->.
    { rewrite take_zset by lia. unfold areas. rewrite !take_take. rewrite drop_ge by (rewrite length_take; lia). do 2 f_equal. lia. }
    rewrite take_zset by lia. fold (areas p). rewrite <- app_assoc. cbn [app]. do 2 f_equal. f_equal. replace (Z.to_nat (i + 1)) with (S (Z.to_nat i)) by lia.
    rewrite drop_app_ge by lia. rewrite Hlen. replace (S (Z.to_nat i) - Z.to_nat i)%nat with 1%nat by lia. done. }
  pose proof Hok as Hok0. rewrite Hl in Hok. destruct (split_list_ok _ a _ addr Hok Hin Hal) as (Hok' & Hat & Hview).
  destruct (split_uncut _ a _ addr Hin (proj1 Hok)) as [Hh Ho]. rewrite <- Hl2 in *. rewrite <- Hl in *.
  constructor; try done.
  - apply slots_edited; [done|by rewrite zlen_zset, move_up_len, zlen_zset|fold p; lia].
  - fold p. intros c Hc _. assert (Hca : covers a addr = true) by (apply covers_iff; lia).
    rewrite (find_area_sorted 0 (areas p) addr a (proj1 Hok0) (area_at_in T i Hi) Hca) in Hc. injection Hc as <-.
    apply (find_area_sorted 0); [apply Hok'|rewrite Hl2; apply elem_of_app; right; right; by left|]. destruct (right_fields (a := a) (addr := addr)) as (R1 & R2 & _).
    apply covers_iff. rewrite R1, R2. lia.
  - fold p. by rewrite Hneed.
Qed.

Lemma split_runs pds w addr (Q : bool -> world -> Prop) :
  wok L pds w -> areas_ok (areas (w_proc w)) -> vm_areas (w_proc w) <> 0 -> addr mod 4096 = 0 ->
  vm_area_count (w_proc w) + Z.b2z (process_vm_split_needed (w_proc w) addr) <= vm_area_capacity (w_proc w) ->
  (forall w', cut_at addr w w' -> Q true w') ->
  runs (process_vm_split_at addr) w Q.
Proof.
  intros W Hok Hne Hal Hcap HQ. pose proof W as (h & pts & ext & [_ _ T _]). pose proof (tk_max _ T). pose proof (tk_count _ T).
  unfold PROCESS_VM_AREA_MAX in *. pose proof (split_needed_spec _ addr T (proj1 Hok) Hne Hal) as Hneed.
  pose proof (uncut_find addr _ 0 (proj1 Hok)) as Huf.
  unfold process_vm_split_at. apply runs_bind, runs_proc. rewrite (proj2 (Z.eqb_neq _ 0) Hne), page_offset_mod, Hal. cbn [Z.eqb negb].
  cbv zeta. destruct (find_index_spec T addr Hne) as [[E Ef]|[Hr Ef]]; rewrite Ef in Huf.
  { rewrite E. cbn. apply runs_ret, HQ, uncut_cut_at; try done. by apply Huf. }
  rewrite (proj2 (Z.ltb_ge _ 0)) by lia. set (i := process_vm_find_index (w_proc w) addr) in *.
  pose proof Ef as [_ Hc%covers_iff]%find_area_in.
  destruct (Z.eqb_spec addr (start (area_at (w_proc w) i))) as [Es|Es]; cbn [orb].
  { apply runs_ret, HQ, uncut_cut_at; try done. by apply Huf. }
  rewrite (proj2 (Z.eqb_neq _ _)) by lia.
  assert (Hn : process_vm_split_needed (w_proc w) addr = true).
  { apply not_false_is_true. intros Hf%Hneed. apply Huf in Hf. lia. }
  rewrite Hn in Hcap. cbn in Hcap. apply runs_bind. rewrite u32_small by lia.
  eapply runs_mono; [apply (ensure_runs L pds); [done|lia]|]. intros ok w' (_ & _ & Hsame & _).
  destruct (Hsame Hne Hcap) as [-> ->]. cbn [negb]. apply runs_bind, runs_proc. rewrite Z.eqb_refl.
  apply runs_bind, runs_set_proc, runs_ret, HQ. apply split_slots; try done. lia.
Qed.

(** Splitting at both ends of a range. *)
Record cut_range (a e : Z) (w w' : world) : Prop := CutRange {
  cg_edited : edited w w';
  cg_ok : areas_ok (areas (w_proc w'));
  cg_attr : forall x, attr_at (areas (w_proc w')) x = attr_at (areas (w_proc w)) x;
  cg_view : Forall file_aligned (areas (w_proc w)) ->
    Forall file_aligned (areas (w_proc w')) /\ same_view (areas (w_proc w)) (areas (w_proc w'));
  cg_low : uncut a (areas (w_proc w'));
  cg_high : uncut e (areas (w_proc w'))
}.

Definition needed_for (p : process_vm) (a e : Z) : Z :=
  vm_area_count p + Z.b2z (process_vm_split_needed p a) + Z.b2z (process_vm_split_needed p e).

Lemma split_both_runs pds w a e {A} (k : M world A) (fail : A) (Q : A -> world -> Prop) :
  wok L pds w -> areas_ok (areas (w_proc w)) -> vm_areas (w_proc w) <> 0 -> a mod 4096 = 0 -> e mod 4096 = 0 ->
  needed_for (w_proc w) a e <= vm_area_capacity (w_proc w) ->
  (forall w', cut_range a e w w' -> runs k w' Q) ->
  runs (ok <- process_vm_split_at a ;; if negb ok then ret fail else
        ok <- process_vm_split_at e ;; if negb ok then ret fail else k) w Q.
Proof.
  intros W Hok Hne Ha He Hcap HQ. unfold needed_for in Hcap.
  pose proof W as (h & pts & ext & [_ _ T _]). pose proof (split_needed_spec _ e T (proj1 Hok) Hne He) as Hn.
  apply runs_bind, (split_runs pds); try done; [destruct (process_vm_split_needed _ e); cbn in *; lia|].
  intros w1 C1. cbn [negb]. pose proof (cu_edited _ _ _ C1) as E1. pose proof (edited_wok _ _ _ W E1) as W1.
  assert (Hne1 : vm_areas (w_proc w1) <> 0) by (by rewrite (ed_ptr _ _ E1)).
  pose proof (split_needed_spec _ e (ed_table _ _ E1) (proj1 (cu_ok _ _ _ C1)) Hne1 He) as Hn1.
  apply runs_bind, (split_runs pds); try done; [apply C1| |].
  { rewrite (cu_count _ _ _ C1), (ed_cap _ _ E1).
    destruct (process_vm_split_needed (w_proc w) e) eqn:En; [destruct (process_vm_split_needed (w_proc w1) e); cbn in *; lia|].
    rewrite (proj2 Hn1); [cbn in *; lia|]. by apply C1, Hn. }
  intros w2 C2. cbn [negb]. apply HQ. constructor; try apply C2.
  - eapply edited_trans; [apply C1|apply C2].
  - intros x. by rewrite (cu_attr _ _ _ C2), (cu_attr _ _ _ C1).
  - intros H1. destruct (cu_view _ _ _ C1 H1) as [H2 V1]. destruct (cu_view _ _ _ C2 H2) as [H3 V2].
    split; [done|]. by etransitivity.
  - apply C1.
Qed.

(** ** Removing a range *)

Definition in_range (a e x : Z) : bool := (a <=? x) && (x <? e).

(** The range is unmapped: no area, no page.  Everything else is as before. *)
Record removed (pds : gset Z) (w w' : world) (a e : Z) : Prop := Removed {
  rm_inv : vm_inv pds w';
  rm_pd : pd (w_proc w') = pd (w_proc w);
  rm_attr : forall x, attr_at (areas (w_proc w')) x = if in_range a e x then None else attr_at (areas (w_proc w)) x;
  rm_backing : Forall file_aligned (areas (w_proc w)) -> Forall file_aligned (areas (w_proc w'))
    /\ forall x, backing_at (areas (w_proc w')) x = if in_range a e x then None else backing_at (areas (w_proc w)) x;
  rm_gone : forall n, user_page n -> in_range a e (n * 4096) = true ->
    has_all (user_pte (k_mem (w_kernel w')) (pd (w_proc w)) n) (Z.lor PAGE_PRESENT PAGE_USER) = false;
  rm_keep : forall pd' n, pd' ∈ pds -> user_page n -> pd' <> pd (w_proc w) \/ in_range a e (n * 4096) = false ->
    let pte := user_pte (k_mem (w_kernel w)) pd' n in
    has_all pte (Z.lor PAGE_PRESENT PAGE_USER) = true ->
    user_pte (k_mem (w_kernel w')) pd' n = pte
    /\ forall i, k_mem (w_kernel w') (pte_frame pte) i = k_mem (w_kernel w) (pte_frame pte) i
}.

Lemma range_pages a e n : a mod 4096 = 0 -> e mod 4096 = 0 ->
  in_range a e (n * 4096) = (a / 4096 <=? n) && (n <? e / 4096).
Proof. intros. unfold in_range. dlia. Qed.

Lemma cleared_gone d a e n x x' :
  a mod 4096 = 0 -> e mod 4096 = 0 -> cleared_pte d (a / 4096) (e / 4096) d n x x' ->
  in_range a e (n * 4096) = true -> has_all x' (Z.lor PAGE_PRESENT PAGE_USER) = false.
Proof.
  intros Ma Me Hc Hr. rewrite range_pages in Hr by done. unfold cleared_pte in Hc.
  rewrite Z.eqb_refl in Hc. cbn [andb] in Hc. rewrite Hr in Hc.
  destruct (has_all x' _) eqn:Eh; [|done]. apply has_user_present in Eh. congruence.
Qed.

Lemma cleared_same d a e d' n x x' :
  a mod 4096 = 0 -> e mod 4096 = 0 -> cleared_pte d (a / 4096) (e / 4096) d' n x x' ->
  d' <> d \/ in_range a e (n * 4096) = false ->
  has_all x (Z.lor PAGE_PRESENT PAGE_USER) = true \/ has_all x' (Z.lor PAGE_PRESENT PAGE_USER) = true -> x' = x.
Proof.
  intros Ma Me Hc Hor Hp. unfold cleared_pte in Hc. rewrite range_pages in Hor by done.
  replace ((d' =? d) && (a / 4096 <=? n) && (n <? e / 4096)) with false in Hc by lia.
  destruct Hc as [?|[-> ?]]; [done|]. destruct Hp; [congruence|done].
Qed.

Lemma Forall_sub (P Q : area -> Prop) `{forall b, Decision (Q b)} l : Forall P l -> Forall P (filter Q l).
Proof. rewrite !Forall_forall. intros Hf b Hb. apply list_elem_of_filter in Hb as [_ Hb]. by apply Hf. Qed.

(** The page tables after the loop of [process_vm_remove_range], the areas after its compaction. *)
Lemma compact_removed pds w w1 w3 k a e l :
  vm_inv pds w -> 0 <= a < e -> a mod 4096 = 0 -> e mod 4096 = 0 -> cut_range a e w w1 ->
  wok L pds w3 -> w_kernel w3 = k -> pd (w_proc w3) = pd (w_proc w) ->
  (forall pd' v', pd' ∈ pds -> user_page v' -> cleared_pte (pd (w_proc w)) (a / 4096) (e / 4096) pd' v'
     (user_pte (k_mem (w_kernel w)) pd' v') (user_pte (k_mem k) pd' v')) ->
  (forall pd' n, pd' ∈ pds -> user_page n -> has_all (user_pte (k_mem (w_kernel w)) pd' n) (Z.lor PAGE_PRESENT PAGE_USER) = true ->
     forall i, k_mem k (pte_frame (user_pte (k_mem (w_kernel w)) pd' n)) i
       = k_mem (w_kernel w) (pte_frame (user_pte (k_mem (w_kernel w)) pd' n)) i) ->
  l = filter (fun b => inside a e b = false) (areas (w_proc w1)) -> rtc merge1 l (areas (w_proc w3)) ->
  removed pds w w3 a e.
Proof.
  intros I Hae Ma Me C W3 Hk Hpd Hpte Hdata Hl Hm. pose proof (cg_ok _ _ _ _ C) as [Hs1 Hf1].
  assert (Hfind : forall x, find_area l x = if in_range a e x then None else find_area (areas (w_proc w1)) x).
  { intros x. rewrite Hl. apply (remove_find 0); try done; [lia|apply C|apply C]. }
  assert (Hok : areas_ok l).
  { rewrite Hl. split; [by apply filter_sorted|]. by apply Forall_sub. }
  destruct (merges_ok _ _ Hm Hok) as [Hok3 [Hat Hbk]].
  assert (Hattr : forall x, attr_at (areas (w_proc w3)) x = if in_range a e x then None else attr_at (areas (w_proc w)) x).
  { intros x. rewrite Hat, <- (cg_attr _ _ _ _ C). unfold attr_at. rewrite Hfind. by destruct (in_range a e x). }
  pose proof (inv_pd _ _ I) as Hin.
  assert (Hgone : forall n, user_page n -> in_range a e (n * 4096) = true ->
    has_all (user_pte (k_mem k) (pd (w_proc w)) n) (Z.lor PAGE_PRESENT PAGE_USER) = false).
  { intros n Hn Hr. by eapply cleared_gone; [| |apply Hpte|]. }
  constructor; try done.
  - constructor; [done|done|]. rewrite Hpd, Hk. intros n Hn He. destruct (in_range a e (n * 4096)) eqn:Er.
    { by rewrite Hgone in He. }
    assert (Hsame : user_pte (k_mem k) (pd (w_proc w)) n = user_pte (k_mem (w_kernel w)) (pd (w_proc w)) n).
    { eapply cleared_same; [exact Ma|exact Me|by apply Hpte|by right|by right]. }
    rewrite Hsame in *. rewrite Hattr, Er. by apply (vi_backed _ _ I).
  - intros Hal. destruct (cg_view _ _ _ _ C Hal) as [Hal1 [_ Hv]]. split.
    + eapply merges_aligned; [done|]. rewrite Hl. by apply Forall_sub.
    + intros x. rewrite Hbk, <- Hv. unfold backing_at. rewrite Hfind. by destruct (in_range a e x).
  - rewrite Hk. exact Hgone.
  - rewrite Hk. intros pd' n Hpd' Hn Hor pte Hp. split; [|by apply Hdata].
    eapply cleared_same; [exact Ma|exact Me|by apply Hpte|done|by left].
Qed.

Lemma compact_runs w a e (Q : unit -> world -> Prop) :
  table_ok (w_proc w) ->
  (forall w', edited w w' -> areas (w_proc w') = filter (fun b => inside a e b = false) (areas (w_proc w)) -> Q tt w') ->
  runs (set_proc (fun p => let '(slots, out) := compact a e (vm_slots p) (vm_area_count p) in set_slots slots out p)) w Q.
Proof.
  intros T HQ. apply runs_set_proc. pose proof (tk_count _ T). pose proof (tk_slots _ T).
  pose proof (compact_spec a e (vm_slots (w_proc w)) (vm_area_count (w_proc w)) ltac:(lia)) as Hc.
  destruct (compact a e _ _) as [slots out]. cbn [fst snd] in Hc. destruct Hc as (H1 & H2 & H3).
  apply HQ; [|done]. by apply slots_edited; [|congruence|lia].
Qed.

Lemma remove_range_runs pds w a e :
  vm_inv pds w -> vm_areas (w_proc w) <> 0 -> 0 <= a < e -> e < 2 ^ 32 -> a mod 4096 = 0 -> e mod 4096 = 0 ->
  needed_for (w_proc w) a e <= vm_area_capacity (w_proc w) ->
  runs (process_vm_remove_range L a e) w (fun b w' => b = true /\ removed pds w w' a e).
Proof.
  intros I Hne Hae He Ma Me Hcap. unfold process_vm_remove_range.
  rewrite (proj2 (Z.leb_gt _ _)) by lia. rewrite !page_offset_mod, Ma, Me. cbn [Z.eqb negb orb].
  apply runs_bind, runs_proc. rewrite (proj2 (Z.eqb_neq _ 0) Hne).
  apply (split_both_runs pds); try done; [apply I|apply I|]. intros w1 C. pose proof (cg_edited _ _ _ _ C) as E1.
  destruct (vi_ok _ _ I) as (h & pts & ext & W). pose proof (edited_ok _ _ _ _ _ _ W E1) as [B1 Hpd1 T1 Hb1].
  apply runs_bind, (unmap_loop L HL h pds pts ext); try done; [lia..|]. intros k' pts' B' Hdata Hpte.
  apply runs_bind, compact_runs; [done|]. intros w2 E2 Ha2.
  apply runs_bind, merge_runs; [apply E2|]. intros w3 E3 Hm. apply runs_ret. split; [done|].
  pose proof (edited_trans _ _ _ E2 E3) as E. cbn [w_proc] in Ha2. rewrite (ed_kernel _ _ E1), (ed_pd _ _ E1) in Hpte.
  apply (compact_removed pds w w1 w3 k' a e (areas (w_proc w2))); try done; [|apply E|by rewrite (ed_pd _ _ E); apply E1|].
  - exists h, pts', ext. eapply edited_ok; [|exact E]. by constructor.
  - intros pd' n Hpd' Hn Hp i. rewrite Hdata; [by rewrite (ed_kernel _ _ E1)|].
    rewrite (ed_kernel _ _ E1) in B1. eapply user_frame_data; [apply B1|done..].
Qed.

(** ** Errors *)

Lemma needed_u32 p a e :
  table_ok p ->
  (let needed := vm_area_count p in
   let needed := if process_vm_split_needed p a then u32 (needed + 1) else needed in
   if process_vm_split_needed p e then u32 (needed + 1) else needed) = needed_for p a e.
Proof.
  intros T. pose proof (tk_count _ T). pose proof (tk_max _ T). unfold PROCESS_VM_AREA_MAX, needed_for in *. cbv zeta.
  destruct (process_vm_split_needed p a), (process_vm_split_needed p e); cbn [Z.b2z]; rewrite ?u32_small; rewrite ?u32_small; lia.
Qed.

(** What the table needs does not change when it moves. *)
Lemma needed_moved pds w w' a e :
  vm_inv pds w -> moved L pds w w' -> vm_areas (w_proc w) <> 0 -> vm_areas (w_proc w') <> 0 -> a mod 4096 = 0 -> e mod 4096 = 0 ->
  needed_for (w_proc w') a e = needed_for (w_proc w) a e.
Proof.
  intros I M Hne Hne' Ma Me. pose proof (moved_inv _ _ _ I M) as I'. unfold needed_for. rewrite (mv_count _ _ _ _ M).
  assert (H : forall x, x mod 4096 = 0 -> process_vm_split_needed (w_proc w') x = process_vm_split_needed (w_proc w) x).
  { intros x Hx. pose proof (split_needed_spec _ x (inv_table _ _ I) (proj1 (vi_areas _ _ I)) Hne Hx) as H1.
    pose proof (split_needed_spec _ x (inv_table _ _ I') (proj1 (vi_areas _ _ I')) Hne' Hx) as H2.
    rewrite (mv_areas _ _ _ _ M) in H2. apply eq_true_iff_eq. rewrite <- !not_false_iff_true. tauto. }
  by rewrite !H.
Qed.

(** ** Protecting a range *)

(** The range has protection [v]; page-table entries of other pages and all data are as
    before. *)
Record reprotected (pds : gset Z) (w w' : world) (a e v : Z) : Prop := Reprotected {
  rt_inv : vm_inv pds w';
  rt_pd : pd (w_proc w') = pd (w_proc w);
  rt_attr : forall x, attr_at (areas (w_proc w')) x =
    if in_range a e x then with_prot v <$> attr_at (areas (w_proc w)) x else attr_at (areas (w_proc w)) x;
  rt_backing : Forall file_aligned (areas (w_proc w)) -> Forall file_aligned (areas (w_proc w'))
    /\ forall x, backing_at (areas (w_proc w')) x = backing_at (areas (w_proc w)) x;
  rt_pte : forall pd' n, pd' ∈ pds -> user_page n -> user_pte (k_mem (w_kernel w')) pd' n =
    let pte := user_pte (k_mem (w_kernel w)) pd' n in
    if (pd' =? pd (w_proc w)) && in_range a e (n * 4096) then protect_pte v pte else pte;
  rt_data : forall pd' n, pd' ∈ pds -> user_page n ->
    let pte := user_pte (k_mem (w_kernel w)) pd' n in has_all pte (Z.lor PAGE_PRESENT PAGE_USER) = true ->
    forall i, k_mem (w_kernel w') (pte_frame pte) i = k_mem (w_kernel w) (pte_frame pte) i
}.

(** Protecting an entry keeps the frame and never makes it writable without leave. *)
Lemma protect_pte_spec v e :
  0 <= e < 2 ^ 32 ->
  has_all (protect_pte v e) (Z.lor PAGE_PRESENT PAGE_USER) = has_all e (Z.lor PAGE_PRESENT PAGE_USER)
  /\ (has_all e (Z.lor PAGE_PRESENT PAGE_USER) = true -> has (protect_pte v e) PAGE_WRITE = true ->
      has v PROCESS_VM_PROT_WRITE = true).
Proof.
  intros He. destruct (pte_frame_spec e He) as (Hf & Hr & Hfl & Ee). unfold protect_pte.
  destruct (has_all e (Z.lor PAGE_PRESENT PAGE_USER)) eqn:Eh; [|done].
  set (fl := pte_flags e) in *. change (negb (Z.land v PROCESS_VM_PROT_WRITE =? 0)) with (has v PROCESS_VM_PROT_WRITE).
  pose proof (flags_forall (fun fl => let fl' := Z.lor (Z.lor (Z.lor (clear fl 0) PAGE_WRITE) PAGE_PRESENT) PAGE_USER in
    (0 <=? fl') && (fl' <? 4096) && has_all fl' (Z.lor PAGE_PRESENT PAGE_USER)) ltac:(vm_compute; reflexivity) fl Hfl) as E1.
  pose proof (flags_forall (fun fl => let fl' := Z.lor (Z.lor (Z.lor (clear fl PAGE_WRITE) 0) PAGE_PRESENT) PAGE_USER in
    (0 <=? fl') && (fl' <? 4096) && has_all fl' (Z.lor PAGE_PRESENT PAGE_USER) && negb (has fl' PAGE_WRITE))
    ltac:(vm_compute; reflexivity) fl Hfl) as E2.
  cbv beta zeta in E1, E2. apply andb_true_iff in E1 as [[? ?]%andb_true_iff ?].
  apply andb_true_iff in E2 as [[[? ?]%andb_true_iff ?]%andb_true_iff E2%negb_true_iff].
  destruct (has v PROCESS_VM_PROT_WRITE) eqn:Ev; cbn [negb]; [split; [|done]|].
  - destruct (negb _ && negb _); [|done]. rewrite entry_has_all by (done || lia || by vm_compute). done.
  - rewrite entry_has_all, entry_has by (done || lia || by vm_compute). split; [done|]. intros _. by rewrite E2.
Qed.

(** Every address of the range lies in an area that may get protection [v]. *)
Definition may_protect (l : list area) (a e v : Z) : Prop := forall x, a <= x < e ->
  exists t, attr_at l x = Some t /\ lacks v (at_max_prot t) = false.

Lemma hits_range a e l n :
  uncut a l -> uncut e l -> (forall x, a <= x < e -> is_Some (find_area l x)) ->
  hits a e l n = in_range a e (n * 4096).
Proof.
  intros Ha He Hc. unfold hits. apply eq_true_iff_eq. rewrite existsb_exists. split.
  - intros (b & Hin & [Ho%negb_true_iff Hb%covers_iff]%andb_true_iff). apply list_elem_of_In in Hin.
    unfold uncut in Ha, He. rewrite Forall_forall in Ha, He. specialize (Ha b Hin). specialize (He b Hin).
    unfold outside, in_range in *. lia.
  - unfold in_range. intros Hr. destruct (Hc (n * 4096) ltac:(lia)) as [b Hb]. exists b.
    apply find_area_in in Hb as [Hin Hb]. rewrite Hb. rewrite <- list_elem_of_In. split; [done|].
    apply covers_iff in Hb. unfold outside. lia.
Qed.

Lemma max_prot_pieces a e v l l' :
  a < e -> sorted 0 l' -> (forall x, attr_at l' x = attr_at l x) -> may_protect l a e v ->
  forall b, b ∈ l' -> outside a e b = false -> lacks v (max_prot b) = false.
Proof.
  intros Hae Hs Hat Hmay b Hin Ho. unfold outside in Ho. set (x := Z.max (start b) a).
  destruct (sorted_in 0 l' b Hs Hin) as [Hb _]. assert (Hx : a <= x < e) by (unfold x; lia). destruct (Hmay x Hx) as (t & Ht & Hl).
  rewrite <- Hat in Ht. unfold attr_at in Ht. rewrite (find_area_sorted 0 l' x b) in Ht; [|done|done|apply covers_iff; unfold x; lia].
  cbn in Ht. by injection Ht as <-.
Qed.

Lemma protect_done pds w w1 w3 h pts ext k p a e v :
  vm_inv pds w -> a < e -> may_protect (areas (w_proc w)) a e v -> cut_range a e w w1 ->
  both kpd h pds pts ext (w_kernel w) -> repaged L h pds pts ext (w_kernel w) k ->
  pd (w_proc w3) = pd (w_proc w) -> w_kernel w3 = k -> wok L pds w3 ->
  areas p = map (protected a e v) (areas (w_proc w1)) ->
  protected_ptes pds (pd (w_proc w)) v (hits a e (areas (w_proc w1))) (w_kernel w) k ->
  rtc merge1 (areas p) (areas (w_proc w3)) ->
  reprotected pds w w3 a e v.
Proof.
  intros I Hae Hmay C B [B' Hdata] Hpd Hk W3 Ha Hpte Hm. pose proof (cg_ok _ _ _ _ C) as [Hs1 Hf1].
  assert (Hok : areas_ok (areas p)).
  { rewrite Ha. split; [by apply protect_sorted|]. apply protect_ok; [|done].
    apply (max_prot_pieces a e v (areas (w_proc w))); try done. apply C. }
  destruct (merges_ok _ _ Hm Hok) as [Hok3 [Hat Hbk]].
  assert (Hattr : forall x, attr_at (areas (w_proc w3)) x =
    if in_range a e x then with_prot v <$> attr_at (areas (w_proc w)) x else attr_at (areas (w_proc w)) x).
  { intros x. rewrite Hat, Ha, protect_attr by (done || apply C). by rewrite !(cg_attr _ _ _ _ C). }
  assert (Hcov : forall x, a <= x < e -> is_Some (find_area (areas (w_proc w1)) x)).
  { intros x Hx. destruct (Hmay x Hx) as (t & Ht & _). rewrite <- (cg_attr _ _ _ _ C) in Ht. unfold attr_at in Ht.
    by destruct (find_area _ x). }
  assert (Hpte' : forall pd' n, pd' ∈ pds -> user_page n -> user_pte (k_mem k) pd' n =
    let pte := user_pte (k_mem (w_kernel w)) pd' n in
    if (pd' =? pd (w_proc w)) && in_range a e (n * 4096) then protect_pte v pte else pte).
  { intros pd' n Hpd' Hn. rewrite (Hpte pd' n Hpd' Hn), hits_range by (done || apply C). done. }
  pose proof (inv_pd _ _ I) as Hin.
  constructor; try done.
  - constructor; [done|done|]. rewrite Hpd, Hk. intros n Hn. rewrite (Hpte' _ n Hin Hn), Z.eqb_refl. cbn [andb]. cbv zeta.
    assert (Hr : 0 <= user_pte (k_mem (w_kernel w)) (pd (w_proc w)) n < 2 ^ 32) by (eapply user_pte_range; [apply B|done..]).
    destruct (protect_pte_spec v _ Hr) as [P1 P2].
    rewrite Hattr. destruct (in_range a e (n * 4096)) eqn:Er; [|by apply (vi_backed _ _ I)]. rewrite P1. intros Hp.
    destruct (vi_backed _ _ I n Hn Hp) as (t & Ht & _). rewrite Ht. cbn. eexists. split; [done|]. cbn. by apply P2.
  - intros Hal. destruct (cg_view _ _ _ _ C Hal) as [Hal1 [_ Hv]]. split.
    + eapply merges_aligned; [done|]. rewrite Ha. apply Forall_fmap. eapply Forall_impl; [exact Hal1|].
      intros b Hb. unfold file_aligned in *. cbn. destruct (protected_fields a e v b) as (-> & _ & -> & _ & _ & -> & _). done.
    + intros x. by rewrite Hbk, Ha, protect_backing, Hv.
  - rewrite Hk. intros pd' n Hpd' Hn. by apply Hpte'.
  - rewrite Hk. intros pd' n Hpd' Hn pte Hp i. apply Hdata. by eapply user_frame_data; [apply B|..].
Qed.

Lemma may_protect_spec p a e v :
  table_ok p -> sorted 0 (areas p) -> a < e -> (forall x, a <= x < e -> is_Some (find_area (areas p) x)) ->
  existsb (fun i => negb (outside a e (area_at p i)) && lacks v (max_prot (area_at p i))) (up_to 0 (vm_area_count p) 1) = false
  <-> may_protect (areas p) a e v.
Proof.
  intros T Hs Hae Hcov. split.
  - intros He x Hx. destruct (Hcov x Hx) as [b Hb]. exists (attr_of b). unfold attr_at. rewrite Hb. split; [done|]. cbn.
    apply find_area_in in Hb as [Hin Hb%covers_iff]. destruct (elem_zget zero_area _ _ Hin) as (i & Hi & Ei).
    rewrite (areas_len T) in Hi. rewrite areas_get in Ei by done. apply not_true_is_false. intros Hl.
    apply (Bool.diff_true_false). rewrite <- He. symmetry. apply existsb_exists. exists i. split.
    + apply list_elem_of_In, elem_of_up_to; [lia|]. exists i. lia.
    + rewrite Ei, Hl, andb_true_r. unfold outside. lia.
  - intros Hmay. apply not_true_is_false. rewrite existsb_exists. intros (i & Hi & Hx).
    apply list_elem_of_In, elem_of_up_to in Hi as (j & Hj); [|lia]. apply andb_true_iff in Hx as [Ho%negb_true_iff Hl].
    rewrite (max_prot_pieces a e v (areas p) (areas p)) in Hl; try done. apply (area_at_in T). lia.
Qed.

Lemma protect_runs pds w a e v :
  vm_inv pds w -> 0 <= a < e -> a mod 4096 = 0 -> e mod 4096 = 0 -> lacks v PROT_ALL = false ->
  (vm_areas (w_proc w) <> 0 -> needed_for (w_proc w) a e <= vm_area_capacity (w_proc w)) ->
  runs (process_vm_protect L a e v) w (fun b w' =>
    if b : bool then may_protect (areas (w_proc w)) a e v /\ reprotected pds w w' a e v
    else ~ may_protect (areas (w_proc w)) a e v /\ w' = w).
Proof.
  intros I Hae Ma Me Hv Hcap. pose proof (inv_table _ _ I) as T. pose proof (vi_areas _ _ I) as Hok.
  unfold process_vm_protect. rewrite (proj2 (Z.leb_gt _ _)) by lia. rewrite !page_offset_mod, Ma, Me, Hv. cbn [Z.eqb negb orb].
  apply runs_bind, runs_proc, runs_bind.
  destruct (range_covered_spec T a e ltac:(lia)) as (b & -> & Hb). apply runs_ret. destruct b; cbn [negb].
  2:{ apply runs_ret. split; [|done]. intros Hmay. apply diff_false_true, Hb. intros x Hx. destruct (Hmay x Hx) as (t & Ht & _).
      unfold attr_at in Ht. by destruct (find_area _ x). }
  pose proof (proj1 Hb eq_refl) as Hcov. pose proof (may_protect_spec _ a e v T (proj1 Hok) ltac:(lia) Hcov) as Hm.
  destruct (existsb _ _). { apply runs_ret. split; [|done]. by intros ?%Hm. }
  pose proof (proj1 Hm eq_refl) as Hmay. assert (Hne : vm_areas (w_proc w) <> 0).
  { intros E. destruct (null_areas _ T E) as [_ El]. destruct (Hcov a ltac:(lia)) as [? Ex]. by rewrite El in Ex. }
  apply (split_both_runs pds); try done; [apply I|by apply Hcap|]. intros w1 C. pose proof (cg_edited _ _ _ _ C) as E1.
  destruct (vi_ok _ _ I) as (h & pts & ext & W). pose proof (edited_ok _ _ _ _ _ _ W E1) as [B1 Hpd1 T1 Hb1].
  apply runs_bind, runs_proc, runs_bind, (protect_areas_runs L h pds pts ext); try done; [apply C|].
  intros k' p' Hr T' Hp' Hptr Ha' Hpte.
  apply runs_bind, merge_runs; [done|]. intros w3 E3 Hmg. apply runs_ret. split; [done|].
  rewrite (ed_kernel _ _ E1), (ed_pd _ _ E1) in *.
  eapply (protect_done pds w w1 w3 h pts ext k' p'); try done; [lia|by rewrite (ed_pd _ _ E3)|apply E3|].
  exists h, pts, ext. eapply edited_ok; [|exact E3]. constructor; cbn [w_kernel w_proc]; try done; [apply Hr|by rewrite Hp'|].
  by rewrite Hptr.
Qed.
End VmProps.
