(* ===== verification/VmSpec.v ===== *)
(** * Process memory areas: properties

    The contracts of [process_vm_add], [process_vm_remove_range_errno] and
    [process_vm_protect_errno] in every case, the termination and result of the walk
    over a range, the maximality of merging, and two defects of [process_vm_split_at]. *)
From S2P Require Import Prelude BootInfo Pmm Memory Paging AddressSpace AddressOps AddressLife AddressProps.
From S2P Require Import Kalloc KallocRep KallocOps KallocProps KallocLarge KallocFree KernelVm Klib Arrays VmArea VmTable VmOps VmProps.
From Stdlib Require Import ZArith Lia ZifyBool Bool String.
From stdpp Require Import base numbers gmap list.
Local Open Scope Z_scope.
Local Open Scope kernel_scope.

(** ** Arguments *)

(** The conditions [process_vm_add] checks on its arguments. *)
Record add_valid (a e prot_ max_prot_ : Z) : Prop := AddValid {
  av_start : a mod 4096 = 0;
  av_end : e mod 4096 = 0;
  av_low : USER_CODE_BASE <= a;
  av_high : e <= USER_STACK_TOP;
  av_order : a < e;
  av_prot : lacks prot_ max_prot_ = false;
  av_max : lacks max_prot_ PROT_ALL = false
}.

(** ... and [process_vm_remove_range_errno]. *)
Record range_valid (a e : Z) : Prop := RangeValid {
  rv_order : a < e;
  rv_start : a mod 4096 = 0;
  rv_end : e mod 4096 = 0
}.

Definition new_area (a e prot_ max_prot_ kind_ flags_ : Z) (path_ : option cstring) (fs fe fo fsize : Z) : area :=
  VmArea a e prot_ max_prot_ kind_ flags_ fs fe fo fsize
    (match path_ with Some s => k_strncpy s PROCESS_FD_NAME_MAX | None => [] end).

Section VmSpec.
Context (L : layout) (HL : layout_ok L).

Lemma refused_inv pds w w' a : vm_inv L pds w -> refused L pds w w' a -> vm_inv L pds w'.
Proof. intros I [M _]. by eapply moved_inv. Qed.

Lemma add_runs pds w a e prot_ max_prot_ kind_ flags_ path_ fs fe fo fsize :
  vm_inv L pds w ->
  let area := new_area a e prot_ max_prot_ kind_ flags_ path_ fs fe fo fsize in
  file_ok area ->
  runs (process_vm_add a e prot_ max_prot_ kind_ flags_ path_ fs fe fo fsize) w (fun b w' =>
    (b = true /\ add_valid a e prot_ max_prot_ /\ added L pds w w' area)
    \/ (b = false /\ add_valid a e prot_ max_prot_ /\ refused L pds w w' area)
    \/ (b = false /\ ~ add_valid a e prot_ max_prot_ /\ w' = w)).
Proof.
  intros I area Hf. unfold process_vm_add. rewrite !page_offset_mod.
  destruct (negb (a mod 4096 =? 0) || negb (e mod 4096 =? 0)) eqn:E1.
  { apply runs_ret. right; right. split_and!; try done. intros []. lia. }
  destruct ((a <? USER_CODE_BASE) || (USER_STACK_TOP <? e) || (e <=? a)) eqn:E2.
  { apply runs_ret. right; right. split_and!; try done. intros []. lia. }
  destruct (lacks prot_ max_prot_) eqn:E3.
  { apply runs_ret. right; right. split_and!; try done. intros []. congruence. }
  destruct (lacks max_prot_ PROT_ALL) eqn:E4.
  { apply runs_ret. right; right. split_and!; try done. intros []. congruence. }
  assert (V : add_valid a e prot_ max_prot_) by (constructor; try done; lia).
  apply runs_bind, runs_proc. pose proof (range_free_spec (inv_table _ _ _ I) a e (av_order _ _ _ _ V)) as Hr.
  destruct (process_vm_range_free (w_proc w) a e); cbn [negb].
  - eapply runs_mono; [apply (insert_area_runs L pds _ area); [done| |apply V]|].
    + destruct V. by constructor.
    + intros [] w' H; [left|right; left]; by split_and!.
  - apply runs_ret. right; left. split_and!; try done. split; [apply moved_refl, I|]. intros Hap.
    exfalso. apply diff_false_true, Hr. eapply Forall_impl; [exact Hap|]. intros b []; cbn in *; auto.
Qed.

Lemma removed_null pds w a e :
  vm_inv L pds w -> vm_areas (w_proc w) = 0 -> removed L pds w w a e.
Proof.
  intros I E. destruct (null_areas _ (inv_table _ _ _ I) E) as [_ Ha]. constructor; rewrite ?Ha; try done.
  - intros x. by destruct (in_range a e x).
  - intros _. split; [done|]. intros x. by destruct (in_range a e x).
  - intros n Hn _. destruct (has_all _ _) eqn:Eh; [|done]. destruct (vi_backed _ _ _ I n Hn Eh) as (t & Ht & _).
    by rewrite Ha in Ht.
Qed.

(** The table is grown first where a later step would not find room. *)
Lemma reserve_runs pds w a e {A} (k : M world A) (fail : A) (Q : A -> world -> Prop) :
  vm_inv L pds w -> vm_areas (w_proc w) <> 0 -> a mod 4096 = 0 -> e mod 4096 = 0 ->
  (forall w', moved L pds w w' -> vm_area_capacity (w_proc w) < needed_for (w_proc w) a e -> Q fail w') ->
  (forall w', moved L pds w w' -> vm_areas (w_proc w') <> 0 ->
     needed_for (w_proc w') a e <= vm_area_capacity (w_proc w') -> runs k w' Q) ->
  runs (ok <- process_vm_ensure_capacity (
    let needed := vm_area_count (w_proc w) in
    let needed := if process_vm_split_needed (w_proc w) a then u32 (needed + 1) else needed in
    if process_vm_split_needed (w_proc w) e then u32 (needed + 1) else needed) ;; if negb ok then ret fail else k) w Q.
Proof.
  intros I Hne Ma Me Hfail Hk. rewrite needed_u32 by (by eapply inv_table). apply runs_bind.
  pose proof (tk_count _ (inv_table _ _ _ I)) as Hc.
  eapply runs_mono; [apply (ensure_runs L pds); [apply I|unfold needed_for; destruct (process_vm_split_needed _ a), (process_vm_split_needed _ e); cbn [Z.b2z]; lia]|].
  intros ok w' (M & Hok & Hsame & _). destruct ok; cbn [negb].
  - destruct (Hok eq_refl) as [Hle Hne']. apply Hk; try done. by rewrite (needed_moved L pds w w').
  - apply runs_ret, Hfail; [done|]. destruct (decide (needed_for (w_proc w) a e <= vm_area_capacity (w_proc w))) as [Hle|]; [|lia].
    by destruct (Hsame Hne Hle).
Qed.

Lemma moved_removed pds w w1 w' a e : moved L pds w w1 -> pd (w_proc w) ∈ pds -> removed L pds w1 w' a e -> removed L pds w w' a e.
Proof.
  intros [_ [Qp Qd] Hpd _ Ha] Hin [R1 R2 R3 R4 R5 R6]. rewrite Ha in *. rewrite Hpd in *. constructor; try done.
  intros pd' n Hpd' Hn Hor pte Hp. specialize (R6 pd' n Hpd' Hn Hor). cbv zeta in R6. rewrite Qp in R6 by done.
  destruct (R6 Hp) as [H1 H2]. split; [done|]. intros i. rewrite H2. by apply Qd.
Qed.

Lemma moved_reprotected pds w w1 w' a e v :
  moved L pds w w1 -> pd (w_proc w) ∈ pds -> reprotected L pds w1 w' a e v -> reprotected L pds w w' a e v.
Proof.
  intros [_ [Qp Qd] Hpd _ Ha] Hin [R1 R2 R3 R4 R5 R6]. rewrite Ha in *. rewrite Hpd in *. constructor; try done.
  - intros pd' n Hpd' Hn. rewrite R5 by done. by rewrite Qp.
  - intros pd' n Hpd' Hn pte Hp i. specialize (R6 pd' n Hpd' Hn). cbv zeta in R6. rewrite Qp in R6 by done.
    rewrite R6 by done. by apply Qd.
Qed.

Lemma remove_errno_runs pds w a e :
  vm_inv L pds w -> 0 <= a -> e < 2 ^ 32 ->
  runs (process_vm_remove_range_errno L a e) w (fun r w' =>
    (r = 0 /\ range_valid a e /\ removed L pds w w' a e)
    \/ (r = - EINVAL /\ ~ range_valid a e /\ w' = w)
    \/ (r = - ENOMEM /\ range_valid a e /\ moved L pds w w' /\ vm_area_capacity (w_proc w) < needed_for (w_proc w) a e)).
Proof.
  intros I Ha He. unfold process_vm_remove_range_errno. rewrite !page_offset_mod.
  destruct (Z.leb_spec e a). { apply runs_ret. right; left. split_and!; try done. intros []. lia. }
  destruct (negb (a mod 4096 =? 0) || negb (e mod 4096 =? 0)) eqn:E1.
  { apply runs_ret. right; left. split_and!; try done. intros []. lia. }
  assert (V : range_valid a e) by (constructor; lia). pose proof V as [V1 V2 V3].
  apply runs_bind, runs_proc. destruct (Z.eqb_spec (vm_areas (w_proc w)) 0) as [E|E].
  { apply runs_ret. left. split_and!; try done. by apply removed_null. }
  apply (reserve_runs pds); try done.
  - intros w' M Hlt. right; right. by split_and!.
  - intros w1 M Hne Hle. pose proof (moved_inv _ _ _ _ I M) as I1. apply runs_bind.
    eapply runs_mono; [by apply (remove_range_runs L HL pds)|]. intros b w' [-> R]. apply runs_ret. left.
    split_and!; try done. eapply moved_removed; try done. by eapply inv_pd.
Qed.

Lemma protect_errno_runs pds w a e v :
  vm_inv L pds w -> 0 <= a -> e < 2 ^ 32 ->
  runs (process_vm_protect_errno L a e v) w (fun r w' =>
    let ok := range_valid a e /\ lacks v PROT_ALL = false /\ may_protect (areas (w_proc w)) a e v in
    (r = 0 /\ ok /\ reprotected L pds w w' a e v)
    \/ (r = - EINVAL /\ ~ ok /\ moved L pds w w')
    \/ (r = - ENOMEM /\ range_valid a e /\ moved L pds w w' /\ vm_area_capacity (w_proc w) < needed_for (w_proc w) a e)).
Proof.
  intros I Ha He. unfold process_vm_protect_errno. rewrite !page_offset_mod. pose proof (inv_table _ _ _ I) as T.
  pose proof (moved_refl L pds w (vi_ok _ _ _ I)) as Mr.
  destruct (Z.leb_spec e a). { apply runs_ret. right; left. split_and!; try done. intros ([] & _). lia. }
  destruct (negb (a mod 4096 =? 0) || negb (e mod 4096 =? 0)) eqn:E1.
  { apply runs_ret. right; left. split_and!; try done. intros ([] & _). lia. }
  assert (V : range_valid a e) by (constructor; lia). pose proof V as [V1 V2 V3].
  destruct (lacks v PROT_ALL) eqn:Ev. { apply runs_ret. right; left. split_and!; try done. intros (_ & ? & _). congruence. }
  apply runs_bind, runs_proc, runs_bind.
  destruct (range_covered_spec T a e V1) as (b & -> & Hb). apply runs_ret. destruct b; cbn [negb].
  2:{ apply runs_ret. right; left. split_and!; try done. intros (_ & _ & Hmay). apply diff_false_true, Hb. intros x Hx.
      destruct (Hmay x Hx) as (t & Ht & _). unfold attr_at in Ht. by destruct (find_area _ x). }
  assert (Hne : vm_areas (w_proc w) <> 0).
  { intros E. destruct (null_areas _ T E) as [_ El]. destruct (proj1 Hb eq_refl a ltac:(lia)) as [? Ex]. by rewrite El in Ex. }
  apply (reserve_runs pds); try done.
  - intros w' M Hlt. right; right. by split_and!.
  - intros w1 M Hne1 Hle. pose proof (moved_inv _ _ _ _ I M) as I1. apply runs_bind.
    eapply runs_mono; [by apply (protect_runs L pds)|]. intros ok w' Hr. apply runs_ret. rewrite (mv_areas _ _ _ _ M) in Hr.
    destruct ok; destruct Hr as [Hmay Hr].
    + left. split_and!; try done. eapply moved_reprotected; try done. by eapply inv_pd.
    + right; left. subst w'. split_and!; try done. by intros (_ & _ & ?).
Qed.
End VmSpec.

(** ** A concrete process *)

Definition no_heap : heap := Heap (fun _ => []) [].
Definition fresh_world : world :=
  World (Kernel example_created [0; 0; 0; 0; 0; 0] (KallocStats 0 0 0 0 0)) (ProcessVm example_pd 0 [] 0 0 0 0).
Abbreviation fresh_pds := ({[example_pd]} ∪ ∅ : gset Z).

Lemma fresh_inv L pds d pts ext s :
  vm_rep (kernel_page_directory L) pds pts ext (m_pmm s) (m_mem s) -> d ∈ pds ->
  (forall i, 0 <= i < 1024 -> paging_pd_index_is_user i = true -> m_mem s d i = 0) ->
  vm_inv L pds (World (Kernel s [0; 0; 0; 0; 0; 0] (KallocStats 0 0 0 0 0)) (ProcessVm d 0 [] 0 0 0 0)).
Proof.
  intros V Hd Hz. constructor; cbn.
  - exists no_heap, pts, ext. constructor; cbn; try done.
    constructor; [|done|by constructor; [intros f Hf; by apply elem_of_nil in Hf|apply not_elem_of_nil]].
    constructor; [apply V| |done..|constructor|constructor|constructor].
    intros c Hc%class_cases. destruct_or! Hc; subst; reflexivity.
  - split; [done|constructor].
  - intros n Hn. unfold user_pte. pose proof (user_index_range _ Hn). unfold k_mem. cbn. rewrite Hz; [done|lia|]. by apply pd_index_is_user.
Qed.

Lemma runs_result {S A} (m : M S A) s a s' (Q : A -> S -> Prop) : m s = Some (a, s') -> runs m s Q -> Q a s'.
Proof. unfold runs. by intros ->. Qed.

Lemma fresh_world_inv : vm_inv layout_example fresh_pds fresh_world.
Proof.
  destruct example_boot as [pts R].
  assert (Hrun : runs (process_pd_create layout_example) machine_example (fun d s' =>
    vm_inv layout_example ({[d]} ∪ ∅) (World (Kernel s' [0; 0; 0; 0; 0; 0] (KallocStats 0 0 0 0 0)) (ProcessVm d 0 [] 0 0 0 0)))).
  { apply (pd_create_runs layout_example (layout_kptr _ layout_example_ok) ∅ pts _ machine_example _ R); [reflexivity|].
    intros d s' _ _ _ V _ _ _ Hi _. eapply fresh_inv; [exact V|set_solver|]. intros i Hr Hu. rewrite Hi by done. by rewrite Hu. }
  exact (runs_result _ machine_example example_pd example_created _ ltac:(run_eval 0) Hrun).
Qed.

Definition final {S A} (m : M S A) (s : S) : S := match m s with Some (_, s') => s' | None => s end.

Lemma final_some {S A} (m : M S A) s (eqb : A -> bool) :
  match m s with Some (a, _) => eqb a | None => false end = true -> exists a, m s = Some (a, final m s) /\ eqb a = true.
Proof. unfold final. destruct (m s) as [[a s']|]; [|done]. intros H. by exists a. Qed.

(** Three pages of memory that may be written and made executable. *)
Definition demo_add : M world bool := process_vm_add 0x400000 0x403000 3 7 PROCESS_VM_KIND_ANON 0 None 0 0 0 0.
Definition demo_world : world := final demo_add fresh_world.

Lemma demo_add_runs : demo_add fresh_world = Some (true, demo_world).
Proof.
  destruct (final_some demo_add fresh_world id) as (b & E & Hb); [vm_compute; reflexivity|]. destruct b; [exact E|discriminate Hb].
Qed.

Lemma demo_world_inv : vm_inv layout_example fresh_pds demo_world.
Proof.
  pose proof (add_runs layout_example fresh_pds fresh_world 0x400000 0x403000 3 7 PROCESS_VM_KIND_ANON 0 None 0 0 0 0
    fresh_world_inv ltac:(done)) as H.
  destruct (runs_result demo_add fresh_world true demo_world _ demo_add_runs H) as [(_ & _ & A)|[(F & _)|(F & _)]]; [apply A|discriminate F|discriminate F].
Qed.

(** ** Properties *)

(** C8: [process_vm_add] refines the insertion of a range into the map from addresses to
    attributes and file bytes.  It never halts and keeps the invariant (a well-formed
    table and heap; a page is mapped only inside of an area and writable only if the
    area is).  It succeeds only for a page-aligned, ordered range inside of user space
    with a protection inside of the maximal one, free of other areas; then exactly the
    addresses of the range get the new attributes and file bytes, and no mapping and no
    data of any process changes.  It refuses valid arguments only when the range is
    taken or the table is full, and then the areas are as before. *)
Theorem process_vm_add_correct L pds w a e prot_ max_prot_ kind_ flags_ path_ fs fe fo fsize :
  vm_inv L pds w ->
  let area := new_area a e prot_ max_prot_ kind_ flags_ path_ fs fe fo fsize in
  file_ok area ->
  runs (process_vm_add a e prot_ max_prot_ kind_ flags_ path_ fs fe fo fsize) w (fun b w' =>
    vm_inv L pds w' /\
    ((b = true /\ add_valid a e prot_ max_prot_ /\ added L pds w w' area)
     \/ (b = false /\ add_valid a e prot_ max_prot_ /\ refused L pds w w' area)
     \/ (b = false /\ ~ add_valid a e prot_ max_prot_ /\ w' = w))).
Proof.
  intros I area Hf. eapply runs_mono; [by apply (add_runs L pds)|]. intros b w' H. split; [|done].
  destruct H as [(_ & _ & A)|[(_ & _ & R)|(_ & _ & ->)]]; [apply A|by eapply refused_inv|done].
Qed.

Lemma process_vm_add_correct_witness :
  exists w', demo_add fresh_world = Some (true, w')
    /\ attr_at (areas (w_proc w')) 0x402FFF = Some (Attr 3 7 PROCESS_VM_KIND_ANON 0 0 []) /\ vm_inv layout_example fresh_pds w'.
Proof.
  exists demo_world. split; [exact demo_add_runs|].
  destruct (runs_result demo_add fresh_world true demo_world _ demo_add_runs
    (process_vm_add_correct layout_example fresh_pds fresh_world 0x400000 0x403000 3 7 PROCESS_VM_KIND_ANON 0 None 0 0 0 0
      fresh_world_inv ltac:(done))) as [I [(_ & _ & A)|[(F & _)|(F & _)]]]; [|discriminate F|discriminate F].
  split; [|exact I]. rewrite (ad_attr _ _ _ _ _ A). reflexivity.
Defined.

(** C9: [process_vm_remove_range_errno] refines the removal of a range from that map.
    It never halts.  It returns 0 for every ordered page-aligned range: then no address
    of the range is in an area and no page of it is mapped, all other addresses keep
    their attributes (and, where files are mapped from their first page on, their file
    bytes), and all other mapped pages of every process keep their entry and contents.
    It returns [-EINVAL] exactly for other arguments and changes nothing; it returns
    [-ENOMEM] only when cutting areas at the ends of the range needs more table
    entries than there are, and leaves the areas, mappings and data as they were. *)
Theorem process_vm_remove_range_correct L pds w a e :
  layout_ok L -> vm_inv L pds w -> 0 <= a -> e < 2 ^ 32 ->
  runs (process_vm_remove_range_errno L a e) w (fun r w' => vm_inv L pds w' /\
    ((r = 0 /\ range_valid a e /\ removed L pds w w' a e)
    \/ (r = - EINVAL /\ ~ range_valid a e /\ w' = w)
    \/ (r = - ENOMEM /\ range_valid a e /\ moved L pds w w' /\ vm_area_capacity (w_proc w) < needed_for (w_proc w) a e))).
Proof.
  intros HL I Ha He. eapply runs_mono; [by apply (remove_errno_runs L HL pds)|]. intros r w' H. split; [|done].
  destruct H as [(_ & _ & R)|[(_ & _ & ->)|(_ & _ & M & _)]]; [apply R|done|by eapply moved_inv].
Qed.

Definition demo_hole : M world Z := process_vm_remove_range_errno layout_example 0x401000 0x402000.

Lemma process_vm_remove_range_correct_witness :
  exists w', demo_hole demo_world = Some (0, w')
    /\ vm_area_count (w_proc w') = 2 /\ attr_at (areas (w_proc w')) 0x401000 = None
    /\ attr_at (areas (w_proc w')) 0x402000 = Some (Attr 3 7 PROCESS_VM_KIND_ANON 0 0 []).
Proof.
  assert (E : exists r, demo_hole demo_world = Some (r, final demo_hole demo_world) /\ (r =? 0) = true).
  { apply (final_some demo_hole demo_world (fun r => r =? 0)). vm_compute. reflexivity. }
  destruct E as (r & E & Hr). apply Z.eqb_eq in Hr. subst r. exists (final demo_hole demo_world).
  split; [exact E|]. split; [vm_compute; reflexivity|].
  destruct (runs_result demo_hole demo_world 0 (final demo_hole demo_world) _ E
    (process_vm_remove_range_correct layout_example fresh_pds demo_world 0x401000 0x402000 layout_example_ok demo_world_inv
      ltac:(lia) ltac:(lia))) as [_ [(_ & _ & R)|[(F & _)|(F & _)]]]; [|discriminate F|discriminate F].
  split.
  - rewrite (rm_attr _ _ _ _ _ _ R 0x401000). vm_compute. reflexivity.
  - rewrite (rm_attr _ _ _ _ _ _ R 0x402000). vm_compute. reflexivity.
Defined.

(** C10: [process_vm_protect_errno] changes the protection of a range.  It never halts.
    It returns 0 exactly when the range is ordered and page-aligned, the protection
    has no unknown bits and every address of the range lies in an area whose maximal
    protection allows it (and there is room to cut the areas at the ends): then the
    addresses of the range have the new protection and the rest of their attributes,
    the entries of the pages of the range lose or get the write bit accordingly (a
    page under copy-on-write and a shared file page stay read-only), and nothing else
    changes.  In the error cases areas, mappings and data stay as they were. *)
Theorem process_vm_protect_correct L pds w a e v :
  layout_ok L -> vm_inv L pds w -> 0 <= a -> e < 2 ^ 32 ->
  runs (process_vm_protect_errno L a e v) w (fun r w' => vm_inv L pds w' /\
    let ok := range_valid a e /\ lacks v PROT_ALL = false /\ may_protect (areas (w_proc w)) a e v in
    ((r = 0 /\ ok /\ reprotected L pds w w' a e v)
    \/ (r = - EINVAL /\ ~ ok /\ moved L pds w w')
    \/ (r = - ENOMEM /\ range_valid a e /\ moved L pds w w' /\ vm_area_capacity (w_proc w) < needed_for (w_proc w) a e))).
Proof.
  intros HL I Ha He. eapply runs_mono; [by apply (protect_errno_runs L pds)|]. intros r w' H. split; [|done].
  destruct H as [(_ & _ & R)|[(_ & _ & M)|(_ & _ & M & _)]]; [apply R|by eapply moved_inv|by eapply moved_inv].
Qed.

Definition demo_protect : M world Z := process_vm_protect_errno layout_example 0x401000 0x402000 5.

Lemma process_vm_protect_correct_witness :
  exists w', demo_protect demo_world = Some (0, w')
    /\ vm_area_count (w_proc w') = 3
    /\ attr_at (areas (w_proc w')) 0x401000 = Some (Attr 5 7 PROCESS_VM_KIND_ANON 0 0 [])
    /\ attr_at (areas (w_proc w')) 0x402000 = Some (Attr 3 7 PROCESS_VM_KIND_ANON 0 0 []).
Proof.
  assert (E : exists r, demo_protect demo_world = Some (r, final demo_protect demo_world) /\ (r =? 0) = true).
  { apply (final_some demo_protect demo_world (fun r => r =? 0)). vm_compute. reflexivity. }
  destruct E as (r & E & Hr). apply Z.eqb_eq in Hr. subst r. exists (final demo_protect demo_world).
  split; [exact E|]. split; [vm_compute; reflexivity|].
  destruct (runs_result demo_protect demo_world 0 (final demo_protect demo_world) _ E
    (process_vm_protect_correct layout_example fresh_pds demo_world 0x401000 0x402000 5 layout_example_ok demo_world_inv
      ltac:(lia) ltac:(lia))) as [_ [(_ & _ & R)|[(F & _)|(F & _)]]]; [|discriminate F|discriminate F].
  split.
  - rewrite (rt_attr _ _ _ _ _ _ _ R 0x401000). vm_compute. reflexivity.
  - rewrite (rt_attr _ _ _ _ _ _ _ R 0x402000). vm_compute. reflexivity.
Defined.

(** C25: the walk of [process_vm_range_covered] terminates on every well-formed table: it
    leaves an area behind at every step, so one more round than there are areas is
    enough, and it answers whether every address of the range lies in an area. *)
Theorem process_vm_range_covered_total p a e :
  table_ok p ->
  exists b, process_vm_range_covered p a e = Some b
    /\ (b = true <-> a < e /\ forall x, a <= x < e -> exists c, process_vm_lookup p x = Some c).
Proof.
  intros T. destruct (decide (a < e)) as [Hae|Hae].
  - destruct (range_covered_spec T a e Hae) as (b & -> & Hb). exists b. split; [done|]. rewrite Hb. split.
    + intros H. split; [done|]. intros x Hx. destruct (H x Hx) as [c Hc]. exists c. by rewrite (lookup_find T).
    + intros [_ H] x Hx. destruct (H x Hx) as [c Hc]. rewrite (lookup_find T) in Hc. by exists c.
  - exists false. split; [|split; [done|lia]]. unfold process_vm_range_covered.
    rewrite (proj2 (Z.leb_le e a)) by lia. by rewrite orb_true_r.
Qed.

Lemma process_vm_range_covered_total_witness :
  process_vm_range_covered (w_proc demo_world) 0x400000 0x403000 = Some true /\
  exists b, process_vm_range_covered (w_proc demo_world) 0x400000 0x404000 = Some b /\ b = false.
Proof.
  destruct (process_vm_range_covered_total (w_proc demo_world) 0x400000 0x404000 (inv_table _ _ _ demo_world_inv)) as (b & E & _).
  split; [vm_compute; reflexivity|]. exists b. split; [exact E|].
  assert (E' : process_vm_range_covered (w_proc demo_world) 0x400000 0x404000 = Some false) by (vm_compute; reflexivity).
  rewrite E' in E. injection E as <-. reflexivity.
Defined.

(** [process_vm_merge] leaves no two neighbours that could be merged, and changes
    neither the attributes nor the file bytes of any address. *)
Theorem process_vm_merge_complete w :
  table_ok (w_proc w) -> areas_ok (areas (w_proc w)) ->
  runs process_vm_merge w (fun _ w' => edited w w' /\ areas_ok (areas (w_proc w'))
    /\ same_view (areas (w_proc w)) (areas (w_proc w')) /\ merged (vm_area_count (w_proc w')) (areas (w_proc w'))).
Proof.
  intros T Hok. destruct (runs_elim _ _ _ (merge_runs w (fun _ w' => edited w w' /\ rtc merge1 (areas (w_proc w)) (areas (w_proc w'))) T
    ltac:(done))) as (u & w' & E & Hed & Hm). unfold runs. rewrite E. destruct (merges_ok _ _ Hm Hok) as [Hok' Hv].
  split_and!; try done. unfold process_vm_merge, set_proc, modify in E. injection E as _ <-. cbn [w_proc].
  destruct (Z.eqb_spec (vm_areas (w_proc w)) 0) as [E0|E0].
  { destruct (null_areas _ T E0) as [-> _]. intros j ? ?. lia. }
  pose proof (tk_count _ T). pose proof (tk_slots _ T).
  assert (Hmg := merge_loop_merged (Z.to_nat (vm_area_count (w_proc w))) 0 (vm_slots (w_proc w)) (vm_area_count (w_proc w))
    ltac:(lia) ltac:(lia) ltac:(lia) ltac:(intros j ? ?; lia)).
  destruct (merge_loop _ 0 _ _) as [slots count]. cbn in Hmg |- *. intros j Hj Hc. unfold areas. cbn.
  rewrite !zget_take by lia. by apply Hmg.
Qed.

Lemma process_vm_merge_complete_witness :
  runs process_vm_merge demo_world (fun _ w' => merged (vm_area_count (w_proc w')) (areas (w_proc w'))).
Proof.
  pose proof (process_vm_merge_complete demo_world (inv_table _ _ _ demo_world_inv) (vi_areas _ _ _ demo_world_inv)) as H.
  apply (runs_mono _ _ _ _ H). intros u w' (_ & _ & _ & Hm). exact Hm.
Defined.

(** ** Defects of [process_vm_split_at] *)

(** C40: splitting loses track of the file.  Where the file part of an area does not
    begin at the start of the area (as the program loader maps segments whose address
    is not a multiple of the page size), the right half of a split area is backed by
    other bytes of the file than before: its offset is advanced by the distance to the
    start of the area instead of the distance to the start of the file part. *)
Theorem split_at_shifts_file L pds w addr a :
  vm_inv L pds w -> addr mod 4096 = 0 -> vm_area_count (w_proc w) < vm_area_capacity (w_proc w) ->
  find_area (areas (w_proc w)) addr = Some a -> file_backed (kind a) = true ->
  start a < file_start a < addr -> addr < file_end a ->
  runs (process_vm_split_at addr) w (fun b w' => b = true
    /\ backing_at (areas (w_proc w)) addr = Some (u32 (file_offset a + (addr - file_start a)))
    /\ backing_at (areas (w_proc w')) addr = Some (u32 (file_offset a + (addr - start a)))
    /\ backing_at (areas (w_proc w')) addr <> backing_at (areas (w_proc w)) addr).
Proof.
  intros I Hal Hroom Hfind Hk Hs He. pose proof (inv_table _ _ _ I) as T.
  assert (Hne : vm_areas (w_proc w) <> 0).
  { intros E. destruct (null_areas _ T E) as [_ El]. by rewrite El in Hfind. }
  pose proof Hfind as [Hin Hc%covers_iff]%find_area_in.
  destruct (vi_areas _ _ _ I) as [_ Hall]. rewrite Forall_forall in Hall. destruct (Hall a Hin) as [_ _ _ Hhi _ _ Hfo].
  specialize (Hfo Hk). unfold USER_STACK_TOP in Hhi. pose proof (ao_low _ (Hall a Hin)) as Hlo. unfold USER_CODE_BASE in Hlo.
  apply (split_runs L pds); try done; [apply I|apply I|destruct (process_vm_split_needed _ addr); cbn; lia|].
  intros w' C. split; [done|]. unfold backing_at. rewrite Hfind, (cu_right _ _ _ C a Hfind) by lia. cbn [mbind option_bind].
  unfold backing, set_right. rewrite Hk, (u32_small (addr - start a)) by lia.
  replace ((file_start a <? addr) && (addr <? file_end a)) with true by lia. cbn. rewrite Hk.
  replace ((file_start a <=? addr) && (addr <? file_end a)) with true by lia.
  replace ((addr <=? addr) && (addr <? file_end a)) with true by lia. cbn.
  assert (E : u32 (u32 (file_offset a + (addr - start a)) + (addr - addr)) = u32 (file_offset a + (addr - start a))) by (rewrite Z.sub_diag, Z.add_0_r; apply u32_small, u32_range).
  rewrite E. replace ((addr <=? addr) && (addr <? file_end a)) with true by lia. split_and!; try done. intros [= Eq]. unfold u32 in Eq. dlia.
Qed.

(** A program segment that begins 0x80 bytes into its first page. *)
Definition demo_segment : M world bool :=
  process_vm_add 0x400000 0x403000 5 5 PROCESS_VM_KIND_ELF 0 (Some (bytes "/bin/sh")) 0x400080 0x402800 0x80 0x9000.
Definition segment_world : world := final demo_segment fresh_world.

Lemma segment_world_inv : vm_inv layout_example fresh_pds segment_world.
Proof.
  destruct (final_some demo_segment fresh_world id) as (b & E & Hb); [vm_compute; reflexivity|]. destruct b; [|discriminate Hb].
  pose proof (add_runs layout_example fresh_pds fresh_world 0x400000 0x403000 5 5 PROCESS_VM_KIND_ELF 0 (Some (bytes "/bin/sh"))
    0x400080 0x402800 0x80 0x9000 fresh_world_inv ltac:(intros _; vm_compute; intuition congruence)) as H.
  destruct (runs_result demo_segment fresh_world true segment_world _ E H) as [(_ & _ & A)|[(F & _)|(F & _)]];
    [apply A|discriminate F|discriminate F].
Qed.

Lemma split_at_shifts_file_witness :
  runs (process_vm_split_at 0x401000) segment_world (fun b w' => b = true
    /\ backing_at (areas (w_proc segment_world)) 0x401000 = Some 0x1000 /\ backing_at (areas (w_proc w')) 0x401000 = Some 0x1080).
Proof.
  assert (Hf : find_area (areas (w_proc segment_world)) 0x401000
    = Some (VmArea 0x400000 0x403000 5 5 PROCESS_VM_KIND_ELF 0 0x400080 0x402800 0x80 0x9000 (bytes "/bin/sh")))
    by (vm_compute; reflexivity).
  assert (Hr : vm_area_count (w_proc segment_world) < vm_area_capacity (w_proc segment_world)) by (vm_compute; reflexivity).
  pose proof (split_at_shifts_file layout_example fresh_pds segment_world 0x401000 _ segment_world_inv eq_refl Hr Hf eq_refl
    ltac:(split; reflexivity) ltac:(reflexivity)) as H.
  apply (runs_mono _ _ _ _ H). intros b w' (H1 & H2 & H3 & _).
  split; [exact H1|]. split; [exact H2|exact H3].
Defined.

(** C39: splitting when the table is full.  [process_vm_split_at] keeps a pointer to the
    area across [process_vm_ensure_capacity], which moves the table.  When the table
    has to grow, the left half is shortened in the old, freed table only: in the new
    table the whole area and its right half overlap, and the table is no longer
    well formed although the call reports success. *)
Theorem split_at_growth_overlaps L pds w addr a :
  vm_inv L pds w -> addr mod 4096 = 0 -> vm_area_count (w_proc w) = vm_area_capacity (w_proc w) ->
  find_area (areas (w_proc w)) addr = Some a -> start a < addr ->
  runs (process_vm_split_at addr) w (fun b w' => b = true ->
    exists l1 l2, areas (w_proc w) = l1 ++ a :: l2
      /\ areas (w_proc w') = l1 ++ a :: set_right addr (u32 (addr - start a)) a :: l2
      /\ ~ areas_ok (areas (w_proc w'))).
Proof.
  intros I Hal Hfull Hfind Hs. pose proof (inv_table _ _ _ I) as T. pose proof (tk_max _ T). pose proof (tk_count _ T).
  unfold PROCESS_VM_AREA_MAX in *. assert (Hne : vm_areas (w_proc w) <> 0).
  { intros E. destruct (null_areas _ T E) as [_ El]. by rewrite El in Hfind. }
  pose proof Hfind as [_ Hc%covers_iff]%find_area_in.
  unfold process_vm_split_at. apply runs_bind, runs_proc. rewrite (proj2 (Z.eqb_neq _ 0) Hne), page_offset_mod, Hal. cbn [Z.eqb negb].
  cbv zeta. destruct (find_index_spec T addr Hne) as [[E Ef]|[Hr Ef]]; [congruence|].
  rewrite (proj2 (Z.ltb_ge _ 0)) by lia. set (i := process_vm_find_index (w_proc w) addr) in *.
  assert (Ha : area_at (w_proc w) i = a) by congruence. rewrite Ha.
  rewrite (proj2 (Z.eqb_neq addr (start a))), (proj2 (Z.eqb_neq addr (end_ a))) by lia. cbn [orb].
  apply runs_bind. rewrite u32_small by lia.
  eapply runs_mono; [apply (ensure_runs L pds); [apply I|lia]|]. intros ok w1 (M & Hok & _ & Hmoved).
  destruct ok; cbn [negb]; [|by apply runs_ret]. destruct (Hok eq_refl) as [Hcap _].
  apply runs_bind, runs_proc. rewrite (proj2 (Z.eqb_neq _ _) (Hmoved eq_refl Hne ltac:(lia))).
  apply runs_bind, runs_set_proc, runs_ret. intros _. cbn [w_proc].
  pose proof (inv_table _ _ _ (moved_inv _ _ _ _ I M)) as T1. pose proof (tk_slots _ T1). pose proof (tk_max _ T1).
  unfold PROCESS_VM_AREA_MAX in *. rewrite (mv_count _ _ _ _ M), (u32_small (vm_area_count (w_proc w) + 1)) by lia.
  exists (take (Z.to_nat i) (areas (w_proc w))), (drop (Z.to_nat (i + 1)) (areas (w_proc w))).
  assert (Hl := areas_split T i Hr). rewrite Ha in Hl.
  assert (Hl' : areas (set_slots (zset (move_up zero_area (i + 1) (vm_area_count (w_proc w)) (vm_slots (w_proc w1))) (i + 1)
    (set_right addr (u32 (addr - start a)) a)) (vm_area_count (w_proc w) + 1) (w_proc w1))
    = take (Z.to_nat i) (areas (w_proc w)) ++ a :: set_right addr (u32 (addr - start a)) a :: drop (Z.to_nat (i + 1)) (areas (w_proc w))).
  { unfold areas at 1. cbn. rewrite take_move_up by lia. rewrite <- (mv_count _ _ _ _ M) at 1.
    fold (areas (w_proc w1)). rewrite (mv_areas _ _ _ _ M).
    assert (take (Z.to_nat (i + 1)) (vm_slots (w_proc w1)) = take (Z.to_nat (i + 1)) (areas (w_proc w))) as ->.
    { rewrite <- (mv_areas _ _ _ _ M). unfold areas. rewrite take_take. f_equal. rewrite (mv_count _ _ _ _ M). lia. }
    rewrite take_snoc_get by (rewrite (areas_len T); lia). rewrite areas_get, Ha by lia. by rewrite <- app_assoc. }
  split_and!; [done|exact Hl'|]. rewrite Hl'. intros [[_ [_ [Hb _]]]%sorted_app _].
  destruct (right_fields (a := a) (addr := addr)) as (R1 & _ & _). lia.
Qed.

(** A table with its first 32 slots in use, one page to an area but the last of two pages. *)
Definition demo_fill : M world unit :=
  for_each (up_to 0 31 1) (fun i =>
    process_vm_add (0x400000 + i * 0x2000) (0x401000 + i * 0x2000) 1 1 PROCESS_VM_KIND_ANON 0 None 0 0 0 0 ;;; ret tt) ;;;
  process_vm_add 0x500000 0x502000 1 1 PROCESS_VM_KIND_ANON 0 None 0 0 0 0 ;;; ret tt.
Definition full_world : world := final demo_fill fresh_world.

Lemma full_world_inv : vm_inv layout_example fresh_pds full_world.
Proof.
  assert (Hadd : forall w a e, vm_inv layout_example fresh_pds w ->
    runs (process_vm_add a e 1 1 PROCESS_VM_KIND_ANON 0 None 0 0 0 0 ;;; ret tt) w (fun _ => vm_inv layout_example fresh_pds)).
  { intros w a e I. apply runs_bind. eapply runs_mono; [by apply (add_runs layout_example fresh_pds)|].
    intros b w' H. apply runs_ret. destruct H as [(_ & _ & A)|[(_ & _ & R)|(_ & _ & ->)]]; [apply A|by eapply refused_inv|done]. }
  assert (H : runs demo_fill fresh_world (fun _ => vm_inv layout_example fresh_pds)).
  { unfold demo_fill. apply runs_bind, (runs_for_each (fun _ => vm_inv layout_example fresh_pds)); [lia|apply fresh_world_inv| |].
    - intros i w _ I. by apply Hadd.
    - intros w I. by apply Hadd. }
  destruct (final_some demo_fill fresh_world (fun _ => true)) as (u & E & _); [vm_compute; reflexivity|].
  exact (runs_result demo_fill fresh_world u full_world _ E H).
Qed.

Definition demo_split : M world bool := process_vm_split_at 0x501000.

Lemma split_at_growth_overlaps_witness :
  exists w', demo_split full_world = Some (true, w') /\ ~ areas_ok (areas (w_proc w')).
Proof.
  destruct (final_some demo_split full_world id) as (b & E & Hb); [vm_compute; reflexivity|]. destruct b; [|discriminate Hb].
  assert (Hf : find_area (areas (w_proc full_world)) 0x501000
    = Some (VmArea 0x500000 0x502000 1 1 PROCESS_VM_KIND_ANON 0 0 0 0 0 [])) by (vm_compute; reflexivity).
  assert (Hr : vm_area_count (w_proc full_world) = vm_area_capacity (w_proc full_world)) by (vm_compute; reflexivity).
  destruct (runs_result demo_split full_world true (final demo_split full_world) _ E
    (split_at_growth_overlaps layout_example fresh_pds full_world 0x501000 _ full_world_inv eq_refl Hr Hf ltac:(reflexivity)) eq_refl)
    as (l1 & l2 & _ & _ & Hno).
  exists (final demo_split full_world). split; [exact E|exact Hno].
Defined.
