(* ===== verification/Fault.v ===== *)
(** * Page faults

    Models the page-fault path of [src/src/kernel/process.c]: [process_vm_load_file_page],
    [process_vm_handle_fault], [process_vm_fault_in_page] and
    [process_vm_page_may_write].  The two functions of the file system they call are
    parameters; [FileSystem] states what they promise: bytes of the file in the frame,
    a reference to a frame of the page cache, and no change to any process. *)
From S2P Require Import Prelude BootInfo Pmm Memory Paging AddressSpace AddressOps.
From S2P Require Import Kalloc KallocRep KallocProps KernelVm Klib Arrays VmArea VmOps.
From Stdlib Require Import ZArith Lia ZifyBool Bool.
From stdpp Require Import base numbers gmap list.
Local Open Scope Z_scope.
Local Open Scope kernel_scope.

(** [vfs_read_path_at] returns its result and [*out_read]; [vfs_file_map_ro_page_path]
    its result and [*out_frame]. *)
Record vfs := Vfs {
  vfs_read_path_at : cstring -> Z -> Z -> Z -> M kernel (Z * Z);
  vfs_file_map_ro_page_path : cstring -> Z -> M kernel (Z * Z)
}.

Section Fault.
Variable L : layout.
Variable fs : vfs.

Definition path_empty (s : cstring) : bool := match s with [] => true | c :: _ => c =? 0 end.

Definition process_vm_load_file_page (area : process_vm_area_t) (page frame : Z) : M world bool :=
  if path_empty (path area) then ret false else
  if (file_end area <=? page) || (u32 (page + PAGE_SIZE) <=? file_start area) then ret true else
  let copy_start := if page <? file_start area then file_start area else page in
  let copy_end := if file_end area <? u32 (page + PAGE_SIZE) then file_end area else u32 (page + PAGE_SIZE) in
  if copy_end <=? copy_start then ret true else
  virt <- on_mach (paging_phys_to_kernel_virt frame) ;;
  r <- on_kernel (vfs_read_path_at fs (path area) (u32 (file_offset area + u32 (copy_start - file_start area)))
    (u32 (virt + u32 (copy_start - page))) (u32 (copy_end - copy_start))) ;;
  let '(rc, read) := r in
  if rc <? 0 then ret false else ret (read =? u32 (copy_end - copy_start)).

(** A page of a file that is never written is mapped from the page cache. *)
Definition share_page (area : process_vm_area_t) (page : Z) : M world (option Z) :=
  if file_backed (kind area) && negb (path_empty (path area))
     && (Z.land (max_prot area) PROCESS_VM_PROT_WRITE =? 0) && (Z.land (prot area) PROCESS_VM_PROT_WRITE =? 0)
     && (file_start area <=? page) && (u32 (page + PAGE_SIZE) <=? file_end area) then
    let file_off := u32 (file_offset area + u32 (page - file_start area)) in
    if negb (Z.land file_off (PAGE_SIZE - 1) =? 0) then ret None else
    r <- on_kernel (vfs_file_map_ro_page_path fs (path area) file_off) ;;
    let '(rc, frame) := r in
    ret (if rc =? 0 then Some frame else None)
  else ret None.

Definition map_flags (area : process_vm_area_t) : Z :=
  if negb (Z.land (prot area) PROCESS_VM_PROT_WRITE =? 0) then Z.lor PAGE_USER PAGE_WRITE
  else if negb (Z.land (max_prot area) PROCESS_VM_PROT_WRITE =? 0) then Z.lor PAGE_USER PAGE_COW
  else PAGE_USER.

(** Any other page gets a frame of its own. *)
Definition fill_page (pd : Z) (area : process_vm_area_t) (page : Z) : M world bool :=
  frame <- on_mach alloc_frame ;;
  if frame =? 0 then ret false else
  virt <- on_mach (paging_phys_to_kernel_virt frame) ;;
  on_mach (zero_page virt) ;;;
  ok <- (if file_backed (kind area) then process_vm_load_file_page area page frame else ret true) ;;
  if negb ok then on_mach (release_frame frame) ;;; ret false else
  on_mach (paging_map_page L pd page frame (map_flags area)) ;;;
  ret true.

Definition process_vm_handle_fault (fault_addr err : Z) : M world bool :=
  p <- proc ;;
  if pd p =? 0 then ret false else
  let page := page_floor fault_addr in
  let fault_present := negb (Z.land err 1 =? 0) in
  let fault_write := negb (Z.land err 2 =? 0) in
  match process_vm_lookup p page with
  | None => ret false
  | Some area =>
    if fault_write && (Z.land (prot area) PROCESS_VM_PROT_WRITE =? 0) then ret false else
    if negb fault_write && (Z.land (prot area) PROT_ALL =? 0) then ret false else
    if fault_present then
      if negb fault_write then ret false else
      r <- on_mach (paging_user_page_get L (pd p) page) ;;
      match r with
      | None => ret false
      | Some (_, fl) => if Z.land fl PAGE_COW =? 0 then ret false else on_mach (paging_resolve_cow_fault L (pd p) page)
      end
    else
      present <- on_mach (paging_user_page_present L (pd p) page) ;;
      if present : bool then ret false else
      shared <- share_page area page ;;
      match shared with
      | Some frame =>
        on_mach (paging_map_page L (pd p) page frame (Z.lor PAGE_USER PAGE_SHARED_RO_FILE)) ;;;
        ret true
      | None => fill_page (pd p) area page
      end
  end.

Definition process_vm_fault_in_page (addr : Z) (write : bool) : M world bool :=
  p <- proc ;;
  if pd p =? 0 then ret false else
  let err := if write then 2 else 0 in
  r <- on_mach (paging_user_page_get L (pd p) addr) ;;
  match r with
  | Some (_, fl) =>
    if negb write then ret true else
    if negb (Z.land fl PAGE_WRITE =? 0) then ret true else
    process_vm_handle_fault addr (Z.lor err 1)
  | None => process_vm_handle_fault addr err
  end.

Definition process_vm_page_may_write (virt : Z) : M world bool :=
  p <- proc ;;
  ret (match process_vm_lookup p (page_floor virt) with
  | Some area => negb (Z.land (max_prot area) PROCESS_VM_PROT_WRITE =? 0)
  | None => false
  end).
End Fault.

(** Byte [j] of a frame. *)
Definition frame_byte (mem : Z -> Z -> Z) (f j : Z) : Z := mem f (j / 4) / 256 ^ (j mod 4) mod 256.

(** Frame [f] is managed, belongs to no table, to no block of the heap and to no page,
    and the caller holds a reference to it. *)
Record held (kpd : Z) (h : heap) (pds : gset Z) (pts : gmap (Z * Z) Z) (ext : Z -> Z) (k : kernel)
    (f : Z) : Prop := Held {
  hd_managed : managed_frame (k_pmm k) f;
  hd_ext : ext f = 1;
  hd_heap : f ∉ heap_frames h;
  hd_table : ~ is_table pds pts f;
  hd_kpd : f <> kpd;
  hd_unmapped : forall pd v, pd ∈ pds -> user_page v -> pte_maps (user_pte (k_mem k) pd v) f = false
}.

(** The file system works on the kernel's memory; processes, their pages and the blocks
    of the kernel heap stay as they are. *)
Record undisturbed (kpd : Z) (h : heap) (pds : gset Z) (pts : gmap (Z * Z) Z) (ext : Z -> Z) (k : kernel)
    (h' : heap) (ext' : Z -> Z) (k' : kernel) : Prop := Undisturbed {
  un_both : both kpd h' pds pts ext' k';
  un_live : forall p n, live h p n -> live h' p n;
  un_quiet : quiet pds k k';
  un_window : same_window (k_pmm k) (k_pmm k')
}.

(** [content p o] is byte [o] of the file [p], 0 past its end.  A read stops at the end
    of the file, whose size has 32 bits. *)
Class FileSystem (kpd : Z) (fs : vfs) (content : cstring -> Z -> Z) := {
  read_runs : forall h pds pts ext k name off f o len,
    both kpd h pds pts ext k -> held kpd h pds pts ext k f ->
    0 <= o -> 0 < len -> o + len <= 4096 -> 0 <= off < 2 ^ 32 ->
    runs (vfs_read_path_at fs name off (alias f + o) len) k (fun '(rc, n) k' => exists h' ext',
      undisturbed kpd h pds pts ext k h' ext' k' /\ held kpd h' pds pts ext' k' f /\
      (0 <= rc -> 0 <= n <= len /\ off + n <= 2 ^ 32 /\ forall j, 0 <= j < 4096 ->
         frame_byte (k_mem k') f j = if (o <=? j) && (j <? o + n) then content name (off + (j - o)) else frame_byte (k_mem k) f j));
  share_runs : forall h pds pts ext k name off,
    both kpd h pds pts ext k -> 0 <= off < 2 ^ 32 -> off mod 4096 = 0 ->
    runs (vfs_file_map_ro_page_path fs name off) k (fun '(rc, f) k' => exists h' ext',
      undisturbed kpd h pds pts ext k h' ext' k' /\
      (rc = 0 -> managed_frame (k_pmm k') f /\ (f ∉ heap_frames h') /\ ~ is_table pds pts f /\ f <> kpd /\ 0 < ext' f /\
         forall j, 0 <= j < 4096 -> frame_byte (k_mem k') f j = content name (off + j)))
}.
