(* ===== verification/FaultProps.v ===== *)
(** * Page faults: correctness

    A handled fault leaves the faulting page mapped with the bytes the memory area
    prescribes, and nothing else changed; a fault that is not handled changes no
    mapping and no data. *)
From S2P Require Import Prelude BootInfo Pmm Memory Paging AddressSpace AddressOps AddressLife AddressClone AddressProps.
From S2P Require Import Kalloc KallocRep KallocOps KallocProps KallocLarge KallocFree KernelVm Klib Arrays VmArea VmTable VmOps VmProps VmSpec Fault.
From Stdlib Require Import ZArith Lia ZifyBool Bool.
From stdpp Require Import base numbers gmap list.
Local Open Scope Z_scope.
Local Open Scope kernel_scope.

Section Frames.
Context (L : layout).
Local Abbreviation kpd := (kernel_page_directory L).

(** ** A frame in the hands of the kernel *)

Lemma held_frame h pds pts ext k f : both kpd h pds pts ext k -> held kpd h pds pts ext k f ->
  paging_phys_is_pmm_frame f = true /\ f mod 4096 = 0 /\ 0 <= f < 2 ^ 32 /\ f <> 0.
Proof.
  intros [R V A] [Hm _ _ _ _ _]. destruct (managed_frame_range _ f (vr_pmm _ _ _ _ _ _ V) Hm) as (H1 & H2 & H3 & H4 & _).
  unfold paging_phys_is_pmm_frame. pmm_consts. lia.
Qed.

(** Only the contents of [f] change. *)
Lemma both_frame h pds pts ext k f s' :
  both kpd h pds pts ext k -> held kpd h pds pts ext k f -> m_pmm s' = k_pmm k ->
  (forall x i, x <> f -> m_mem s' x i = k_mem k x i) ->
  both kpd h pds pts ext (with_machine s' k) /\ held kpd h pds pts ext (with_machine s' k) f /\ quiet pds k (with_machine s' k).
Proof.
  intros B Hh Hp Hm. pose proof B as [R V A]. pose proof Hh as [F1 F2 F3 F4 F5 F6].
  assert (V' : vm_rep kpd pds pts ext (m_pmm s') (m_mem s')).
  { rewrite Hp. apply (vm_rep_mem V). intros x i [Hx| ->]; apply Hm; [by intros ->|congruence]. }
  assert (Hpte : forall pd v, pd ∈ pds -> user_page v -> user_pte (m_mem s') pd v = user_pte (k_mem k) pd v).
  { intros pd v Hpd Hv. rewrite (user_pte_rep V), (user_pte_rep V') by done.
    destruct (pts !! (pd, v / 1024)) as [pt|] eqn:E; [|done]. apply Hm. intros ->. apply F4. right. eauto. }
  split_and!.
  - eapply both_keep; try done.
    + rewrite Hp. apply same_window_refl.
    + intros x Hx. rewrite Hp. by destruct (heap_frame R x Hx) as (_ & ? & _).
    + intros x i Hx _ _. apply Hm. by intros ->.
  - constructor; try done; [by rewrite <- Hp in F1|]. intros pd v Hpd Hv. change (pte_maps (user_pte (m_mem s') pd v) f = false). rewrite Hpte by done. by apply F6.
  - split; [intros pd v Hpd Hv; by apply Hpte|]. intros pd v Hpd Hv pte Hpr i. apply Hm. intros E.
    destruct (held_frame _ _ _ _ _ _ B Hh) as (Hpm & _). specialize (F6 pd v Hpd Hv). fold pte in F6.
    rewrite pte_maps_eqb in F6 by (by rewrite Hpr, E, Hpm). lia.
Qed.

Lemma alloc_held h pds pts ext k (Q : Z -> machine -> Prop) :
  both kpd h pds pts ext k ->
  (s_free_count (k_pmm k) = 0 -> Q 0 (k_machine k)) ->
  (forall f ext' s', f <> 0 -> both kpd h pds pts ext' (with_machine s' k) -> held kpd h pds pts ext' (with_machine s' k) f ->
     quiet pds k (with_machine s' k) -> s_free_count (m_pmm s') = s_free_count (k_pmm k) - 1 -> Q f s') ->
  runs alloc_frame (k_machine k) Q.
Proof.
  intros B H0 HQ. pose proof B as [R V A]. pose proof (free_count_bounds _ (vr_pmm _ _ _ _ _ _ V)) as Hb.
  destruct (Z.eq_dec (s_free_count (k_pmm k)) 0) as [E|E].
  { apply runs_lift. change (m_pmm (k_machine k)) with (k_pmm k). rewrite pmm_alloc_frame_none by done. cbn.
    replace (set_pmm (k_pmm k) (k_machine k)) with (k_machine k) by (by destruct k as [[[] ? ? ?] ? ?]). by apply H0. }
  apply runs_alloc; [apply V|change (m_pmm (k_machine k)) with (k_pmm k); lia|]. intros a q Hnz Hm Hn Ht Hc Hw Hq _ _ _.
  destruct (free_frame_unused V a Hm Hn) as (F1 & F2 & F3 & F4).
  assert (V' : vm_rep kpd pds pts (fun x => ext x + Z.b2z (x =? a)) q (k_mem k)) by (by apply (vm_rep_alloc V)).
  assert (Ha : a ∉ heap_frames h).
  { intros Hin. destruct (heap_frame R a Hin) as (_ & E' & _). change (m_pmm (k_machine k)) with (k_pmm k) in Hn. congruence. }
  apply (HQ _ (fun x => ext x + Z.b2z (x =? a))); [done| | |done|exact Hc].
  - eapply both_keep; try done.
    + intros f Hf. rewrite (proj2 (Z.eqb_neq f a)) by (by intros ->). cbn. lia.
    + intros f Hf. change (pmm_table q !! f = Some 1). rewrite Ht, lookup_insert_ne by (by intros ->). by destruct (heap_frame R f Hf) as (_ & ? & _).
  - constructor; try done.
    + by apply (same_window_managed _ _ _ Hw).
    + rewrite Z.eqb_refl. cbn. lia.
    + intros pd v Hpd Hv. by apply (proj1 (refs_user _ _ _ _ _ _ a V) F3).
Qed.

(** Giving the reference back. *)
Lemma release_held h pds pts ext k f (Q : unit -> machine -> Prop) :
  both kpd h pds pts ext k -> held kpd h pds pts ext k f ->
  (forall ext' s', both kpd h pds pts ext' (with_machine s' k) -> quiet pds k (with_machine s' k) -> Q tt s') ->
  runs (release_frame f) (k_machine k) Q.
Proof.
  intros B Hh HQ. pose proof B as [R V A]. pose proof Hh as [F1 F2 F3 F4 F5 F6].
  assert (Hrefs : frame_refs (k_pmm k) f = 1).
  { rewrite (vr_refs _ _ _ _ _ _ V f F1 F4), F2. rewrite (proj2 (refs_user _ _ _ _ _ _ f V)) by done. lia. }
  destruct (release_refs _ f (vr_pmm _ _ _ _ _ _ V) F1 ltac:(lia)) as (H1 & H2 & H3 & H4 & _).
  apply runs_modify. apply (HQ (fun x => ext x - Z.b2z (x =? f))); [|done].
  eapply both_keep; try done.
  - apply (vm_rep_counts V); try done.
    + intros x Hx. assert (x <> f) by (by intros ->). split; [by apply H4|]. rewrite (proj2 (Z.eqb_neq x f)) by done. cbn. lia.
    + intros x _ _. change (frame_refs (m_pmm _) x) with (frame_refs (pmm_release_frame f (k_pmm k)) x). rewrite H3. lia.
    + intros x. pose proof (vr_ext _ _ _ _ _ _ V x). destruct (Z.eqb_spec x f) as [->|]; cbn; lia.
    + intros Hk. rewrite (proj2 (Z.eqb_neq kpd f)) by congruence. cbn. pose proof (vr_kpd _ _ _ _ _ _ V Hk). lia.
  - intros x Hx. rewrite (proj2 (Z.eqb_neq x f)) by (by intros ->). cbn. lia.
  - intros x Hx. change (pmm_table (pmm_release_frame f (k_pmm k)) !! x = Some 1). rewrite H4 by (by intros ->).
    by destruct (heap_frame R x Hx) as (_ & ? & _).
Qed.

(** ** A page is given a frame *)

(** The page [n] of [d] has a frame, of its own if it is writable; every other page has
    its frame and its contents. *)
Record placed (pds : gset Z) (d n : Z) (k k' : kernel) : Prop := Placed {
  pl_present : user_present (user_pte (k_mem k') d n) = true;
  pl_private : has (user_pte (k_mem k') d n) PAGE_WRITE = true -> forall pd v, pd ∈ pds -> user_page v -> (pd, v) <> (d, n) ->
    pte_maps (user_pte (k_mem k') pd v) (pte_frame (user_pte (k_mem k') d n)) = false;
  pl_other : forall pd v, pd ∈ pds -> user_page v -> (pd, v) <> (d, n) -> user_pte (k_mem k') pd v = user_pte (k_mem k) pd v;
  pl_data : forall pd v, pd ∈ pds -> user_page v -> (pd, v) <> (d, n) -> user_present (user_pte (k_mem k) pd v) = true ->
    forall i, k_mem k' (pte_frame (user_pte (k_mem k) pd v)) i = k_mem k (pte_frame (user_pte (k_mem k) pd v)) i
}.

Lemma quiet_placed pds d n k k1 k2 : quiet pds k k1 -> placed pds d n k1 k2 -> placed pds d n k k2.
Proof.
  intros [Q1 Q2] [P1 P2 P3 P4]. split; [done|done| |].
  - intros pd v Hpd Hv Hne. by rewrite P3, Q1.
  - intros pd v Hpd Hv Hne Hp i. pose proof (P4 pd v Hpd Hv Hne) as H. rewrite Q1 in H by done. rewrite H by done. by apply Q2.
Qed.

(** Mapping a frame the kernel holds; the machine halts when it has no frame for the
    page table. *)
Lemma map_placed h pds pts ext k d n f flags :
  both kpd h pds pts ext k -> d ∈ pds -> 0 <= n -> user_page n ->
  managed_frame (k_pmm k) f -> (f ∉ heap_frames h) -> ~ is_table pds pts f -> f <> kpd -> 0 < ext f ->
  0 <= flags < 4096 -> has flags PAGE_USER = true ->
  (has flags PAGE_WRITE = true -> forall pd v, pd ∈ pds -> user_page v -> pte_maps (user_pte (k_mem k) pd v) f = false) ->
  match paging_map_page L d (n * 4096) f flags (k_machine k) with
  | Some (_, s') => exists pts' ext', both kpd h pds pts' ext' (with_machine s' k) /\ placed pds d n k (with_machine s' k) /\
      user_pte (m_mem s') d n = f + Z.lor flags PAGE_PRESENT /\ pte_frame (user_pte (m_mem s') d n) = f /\
      forall i, m_mem s' f i = k_mem k f i
  | None => pts !! (d, n / 1024) = None /\ s_free_count (k_pmm k) <= 0
  end.
Proof.
  intros B Hd Hn0 Hn Fm Fh Ft Fk Fe Hfl Hus Hw. pose proof B as [R V A].
  destruct (managed_frame_range _ f (vr_pmm _ _ _ _ _ _ V) Fm) as (M1 & M2 & M3 & M4 & _).
  assert (Hfr : 0 <= f < 2 ^ 32) by (pmm_consts; lia).
  assert (Ef : pte_frame f = f) by (rewrite <- (Z.add_0_r f) at 1; by apply entry_frame).
  assert (En : n = n * 4096 / 4096) by dlia.
  destruct (decide (pts !! (d, n / 1024) = None /\ s_free_count (k_pmm k) <= 0)) as [[H1 H2]|Hok].
  { rewrite (map_page_halts L pds pts ext); try done; [lia|by rewrite <- En..]. }
  assert (Hpre : map_pre L pds f pts ext (k_pmm k)) by (intros _; by rewrite Ef).
  pose proof (map_page_runs L pds d n f flags Hd Hn Hfr Hfl Hus pts ext (k_machine k) (n * 4096) V Hpre ltac:(lia) En) as Hrun.
  destruct (runs_elim _ _ _ (Hrun ltac:(intros E; change (m_pmm (k_machine k)) with (k_pmm k); apply Z.nle_gt; tauto)))
    as ([] & s' & -> & pts' & V' & [U1 U2 U3 U4] & Hmono & Htab & Hwin & _).
  change (m_mem (k_machine k)) with (k_mem k) in *. change (m_pmm (k_machine k)) with (k_pmm k) in *.
  rewrite Ef in *. set (e := f + Z.lor flags PAGE_PRESENT) in *.
  destruct (new_pte_user f flags Hfr Hfl Hus) as (N1 & N2 & _). rewrite Ef in N1, N2. fold e in N1, N2.
  pose proof (new_flags_range f flags Hfl) as Nr.
  assert (Hmaps : forall x, pte_maps e x = true -> x = f).
  { intros x Hx. apply pte_maps_frame in Hx as (-> & _). done. }
  exists pts', (ext_to_pte ext e). split_and!; [| |done|by rewrite U3|].
  - eapply both_paging; try done.
    + intros x Hx. unfold ext_to_pte. destruct (pte_maps e x) eqn:E; [by apply Hmaps in E as ->|cbn; lia].
    + intros x pd v Hx Hpd Hv. destruct (decide ((pd, v) = (d, n))) as [[= -> ->]|Hne]; [|by rewrite U4].
      rewrite U3. by intros ->%Hmaps.
    + intros x i _. by apply U2.
  - split; change (k_mem (with_machine s' k)) with (m_mem s').
    + by rewrite U3.
    + rewrite U3, N2. intros Hwr pd v Hpd Hv Hne. rewrite U4 by done. apply Hw; try done.
      unfold e in Hwr. rewrite entry_has in Hwr by (done || (pmm_consts; lia)). revert Hwr.
      pose proof (flags_forall (fun fl => implb (has (Z.lor fl PAGE_PRESENT) PAGE_WRITE) (has fl PAGE_WRITE))
        ltac:(vm_compute; reflexivity) flags Hfl) as E1. cbv beta in E1. intros Hwr. by rewrite Hwr in E1.
    + done.
    + intros pd v Hpd Hv Hne Hp i. apply U2; [by apply (user_frame_data (s := k_machine k) V)|].
      rewrite <- (U4 pd v) by done. apply (user_frame_data (s := s') V'); [done..|by rewrite U4].
  - intros i. apply U2; [done|]. intros Ht. apply Ft, Htab; [|done].
    rewrite (vr_refs _ _ _ _ _ _ V f Fm Ft). pose proof (refs_nonneg (k_mem k) pts f). lia.
Qed.

Lemma cow_placed h pds pts ext k d n :
  both kpd h pds pts ext k -> d ∈ pds -> user_page n ->
  let e := user_pte (k_mem k) d n in
  runs (paging_resolve_cow_fault L d (n * 4096)) (k_machine k) (fun b s' =>
    b = cow_entry e && ((frame_refs (k_pmm k) (pte_frame e) <=? 1) || (0 <? s_free_count (k_pmm k))) /\
    if b then both kpd h pds pts ext (with_machine s' k) /\ placed pds d n k (with_machine s' k) /\
      has (user_pte (m_mem s') d n) PAGE_WRITE = true /\
      forall i, m_mem s' (pte_frame (user_pte (m_mem s') d n)) i = k_mem k (pte_frame e) i
    else s' = k_machine k).
Proof.
  intros B Hd Hn e. pose proof B as [R V A]. pose proof (user_index_range _ Hn) as Hr.
  eapply runs_mono; [apply (resolve_cow_runs L pds pts ext (k_machine k) d (n * 4096)); [exact V|done|dlia]|]. cbv beta zeta.
  rewrite Z.div_mul by lia. change (m_mem (k_machine k)) with (k_mem k). change (m_pmm (k_machine k)) with (k_pmm k). fold e.
  rewrite (proj2 (pd_index_is_user _) Hn). cbn [andb]. intros b s' [-> H]. split; [done|].
  destruct (cow_entry e && _) eqn:Eb; [|done]. apply andb_true_iff in Eb as [Hcow _].
  destruct H as (V' & Hw & f & C). pose proof C as [C1 C2 C3 C4 C5 C6].
  destruct (cow_page L pds pts ext (k_machine k) s' d n f V V' Hd Hn Hcow C) as ((E1 & E2 & E3 & _) & (E4 & E5) & E6).
  change (m_mem (k_machine k)) with (k_mem k) in *. change (m_pmm (k_machine k)) with (k_pmm k) in *. fold e in C2, C4.
  pose proof Hcow as Hc. unfold cow_entry in Hc. rewrite !andb_true_iff in Hc. destruct Hc as [[Hc _] Hpm].
  apply (has_all_sub _ _ (Z.lor PAGE_PRESENT PAGE_USER)) in Hc; [|done].
  assert (Hf : f ∉ heap_frames h).
  { destruct C4 as [-> |Ef]; [by apply (mapped_not_heap L h pds pts ext)|]. intros Hin.
    destruct (heap_frame R f Hin) as (_ & E' & _). congruence. }
  split_and!; [| |done|by rewrite E1].
  - eapply both_paging; try done.
    + intros x pd v Hx Hpd Hv. destruct (decide ((pd, v) = (d, n))) as [[= -> ->]|Hne]; [|by rewrite C5].
      intros (-> & _)%pte_maps_frame. by rewrite E1 in Hx.
    + intros x i Hx Hnt _. apply C6; [by intros ->|done].
  - split; change (k_mem (with_machine s' k)) with (m_mem s'); [done|by rewrite E1|done|].
    intros pd v Hpd Hv Hne Hp i. apply C6; [|by apply (user_frame_data (s := k_machine k) V)]. intros Ex.
    specialize (E6 pd v Hpd Hv Hne). rewrite C5, pte_maps_eqb in E6; rewrite ?Ex in *; try done; [lia|].
    unfold user_present in Hp. by rewrite Hp, E4.
Qed.
End Frames.

(** ** Loading a page of a file *)

(** The byte an area prescribes for the address [x]. *)
Definition prescribed (content : cstring -> Z -> Z) (a : area) (x : Z) : Z :=
  match backing a x with Some o => content (path a) o | None => 0 end.

Lemma page_floor_spec addr : 0 <= addr < 2 ^ 32 -> page_floor addr = addr / 4096 * 4096.
Proof. intros H. change (page_floor addr) with (pte_frame addr). rewrite pte_frame_eq by done. dlia. Qed.

Section Load.
Context (L : layout) (pds : gset Z) (pts : gmap (Z * Z) Z).
Local Abbreviation kpd := (kernel_page_directory L).
Context (fs : vfs) (content : cstring -> Z -> Z) `{FS : !FileSystem kpd fs content}.

(** The kernel moved on, no process noticed. *)
Record still (h : heap) (k : kernel) (h' : heap) (ext' : Z -> Z) (k' : kernel) : Prop := Still {
  st_both : both kpd h' pds pts ext' k';
  st_live : forall p n, live h p n -> live h' p n;
  st_quiet : quiet pds k k'
}.

Lemma still_refl h ext k : both kpd h pds pts ext k -> still h k h ext k.
Proof. intros B. by split. Qed.

Lemma still_trans h k h1 ext1 k1 h2 ext2 k2 : still h k h1 ext1 k1 -> still h1 k1 h2 ext2 k2 -> still h k h2 ext2 k2.
Proof. intros [A1 A2 A3] [B1 B2 B3]. split; [done|by auto|by eapply quiet_trans]. Qed.

Lemma undisturbed_still h ext k h' ext' k' : undisturbed kpd h pds pts ext k h' ext' k' -> still h k h' ext' k'.
Proof. intros []. by split. Qed.

Lemma frame_byte_zero mem f j : (forall i, mem f i = 0) -> frame_byte mem f j = 0.
Proof. intros H. unfold frame_byte. by rewrite H, Zdiv_0_l. Qed.

Lemma virt_runs f w (Q : Z -> world -> Prop) :
  paging_phys_is_pmm_frame f = true -> Q (alias f) w -> runs (on_mach (paging_phys_to_kernel_virt f)) w Q.
Proof.
  intros Hf HQ. apply runs_on_kernel, runs_on_machine. rewrite phys_to_virt_alias by done. apply runs_ret.
  by destruct w as [[] ?].
Qed.

Lemma load_page_runs h ext k p a n f :
  both kpd h pds pts ext k -> held kpd h pds pts ext k f -> area_ok a -> file_backed (kind a) = true ->
  covers a (n * 4096) = true -> (forall j, 0 <= j < 4096 -> frame_byte (k_mem k) f j = 0) ->
  runs (process_vm_load_file_page fs a (n * 4096) f) (World k p) (fun ok w' => exists h' ext' k',
    w' = World k' p /\ still h k h' ext' k' /\ held kpd h' pds pts ext' k' f /\
    (ok = true -> forall j, 0 <= j < 4096 -> frame_byte (k_mem k') f j = prescribed content a (n * 4096 + j))).
Proof.
  intros B Hh [A1 A2 A3 A4 _ _ Af] Hk Hc%covers_iff Hz. destruct (Af Hk) as (Af1 & Af2 & Af3).
  destruct (held_frame L _ _ _ _ _ _ B Hh) as (Fp & Fm & Fr & _).
  assert (Hpage : 0 <= n * 4096 /\ n * 4096 + 4096 <= end_ a) by (unfold USER_CODE_BASE in *; clear - A2 A3 Hc; split; dlia).
  unfold USER_CODE_BASE, USER_STACK_TOP in *. unfold process_vm_load_file_page, PAGE_SIZE.
  rewrite (u32_small (n * 4096 + 4096)) by lia.
  assert (Hout : forall j, (n * 4096 + j < file_start a \/ file_end a <= n * 4096 + j) -> prescribed content a (n * 4096 + j) = 0).
  { intros j Hj. unfold prescribed, backing. rewrite Hk. cbn [andb]. rewrite (proj2 (andb_false_iff _ _)) by lia. done. }
  assert (Hidle : forall ok : bool, (ok = true -> file_end a <= n * 4096 \/ n * 4096 + 4096 <= file_start a \/ file_end a <= file_start a) -> runs (ret ok) (World k p) (fun ok w' => exists h' ext' k',
    w' = World k' p /\ still h k h' ext' k' /\ held kpd h' pds pts ext' k' f /\
    (ok = true -> forall j, 0 <= j < 4096 -> frame_byte (k_mem k') f j = prescribed content a (n * 4096 + j)))).
  { intros ok Hok. apply runs_ret. exists h, ext, k. split_and!; [done|by apply still_refl|done|].
    intros E j Hj. specialize (Hok E). rewrite Hz, Hout by lia. done. }
  destruct (path_empty (path a)) eqn:Ep; [by apply Hidle|].
  destruct ((file_end a <=? n * 4096) || (n * 4096 + 4096 <=? file_start a)) eqn:Eo; [apply Hidle; lia|].
  set (cs := if n * 4096 <? file_start a then file_start a else n * 4096).
  set (ce := if file_end a <? n * 4096 + 4096 then file_end a else n * 4096 + 4096).
  assert (Hcs : cs = Z.max (file_start a) (n * 4096)) by (unfold cs; zcase; lia).
  assert (Hce : ce = Z.min (file_end a) (n * 4096 + 4096)) by (unfold ce; zcase; lia). clearbody cs ce.
  cbv zeta. destruct (Z.leb_spec ce cs); [apply Hidle; lia|].
  apply runs_bind, virt_runs; [done|].
  assert (Hal : 0 <= alias f /\ alias f + 4096 <= 2 ^ 32).
  { unfold alias, paging_phys_is_pmm_frame in *. paging_consts. lia. }
  rewrite !(u32_small (cs - _)), (u32_small (ce - cs)), (u32_small (alias f + _)) by lia.
  pose proof (u32_range (file_offset a + (cs - file_start a))) as Ho.
  apply runs_bind, runs_on_kernel. cbn [w_kernel w_proc].
  eapply runs_mono; [apply (read_runs h pds pts ext); try done; lia|].
  intros [rc m] k' (h' & ext' & U & Hh' & Hb).
  assert (Hdone : forall ok : bool, (ok = true -> 0 <= rc /\ m = ce - cs) -> runs (ret ok) (World k' p) (fun ok w' => exists h' ext' k',
    w' = World k' p /\ still h k h' ext' k' /\ held kpd h' pds pts ext' k' f /\
    (ok = true -> forall j, 0 <= j < 4096 -> frame_byte (k_mem k') f j = prescribed content a (n * 4096 + j)))).
  { intros ok Hok. apply runs_ret. exists h', ext', k'. split_and!; [done|by eapply undisturbed_still|done|].
    intros E j Hj. destruct (Hok E) as [Hrc ->]. destruct (Hb Hrc) as (_ & Hend & Hbj). rewrite Hbj by done.
    destruct ((cs - n * 4096 <=? j) && (j <? cs - n * 4096 + (ce - cs))) eqn:Ej.
    - unfold prescribed, backing. rewrite Hk. rewrite !(proj2 (Z.leb_le _ _)), (proj2 (Z.ltb_lt _ _)) by lia. cbn [andb].
      f_equal. rewrite <- (u32_small (u32 _ + _)) by lia. unfold u32. rewrite Zplus_mod_idemp_l. f_equal. lia.
    - rewrite Hz, Hout by lia. done. }
  destruct (Z.ltb_spec rc 0); [by apply Hdone|]. apply Hdone. lia.
Qed.

(** ** The cases of the handler *)

(** What the handler did to page [n] of the process: it has a frame with the bytes
    [byte], writable if the area is, or nothing changed. *)
Definition outcome (h : heap) (a : area) (n : Z) (byte : Z -> Z) (w : world) (r : bool) (w' : world) : Prop :=
  w_proc w' = w_proc w /\ exists h' pts' ext', both kpd h' pds pts' ext' (w_kernel w') /\ (forall p m, live h p m -> live h' p m) /\
  if r then
    let e' := user_pte (k_mem (w_kernel w')) (pd (w_proc w)) n in
    placed pds (pd (w_proc w)) n (w_kernel w) (w_kernel w') /\ has e' PAGE_WRITE = has (prot a) PROCESS_VM_PROT_WRITE /\
    forall j, 0 <= j < 4096 -> frame_byte (k_mem (w_kernel w')) (pte_frame e') j = byte j
  else quiet pds (w_kernel w) (w_kernel w').

Lemma outcome_still h a n byte w h' ext' k' r w' :
  still h (w_kernel w) h' ext' k' -> outcome h' a n byte (World k' (w_proc w)) r w' -> outcome h a n byte w r w'.
Proof.
  intros [_ S2 S3] (Hp & h2 & pts2 & ext2 & B & Hl & H). split; [done|]. exists h2, pts2, ext2. split_and!; [done|by auto|].
  destruct r; [|by eapply quiet_trans]. destruct H as (P & H). split; [by eapply quiet_placed|done].
Qed.

Lemma map_flags_spec a :
  0 <= map_flags a < 4096 /\ has (map_flags a) PAGE_USER = true /\
  has (Z.lor (map_flags a) PAGE_PRESENT) PAGE_WRITE = has (prot a) PROCESS_VM_PROT_WRITE /\
  has (map_flags a) PAGE_WRITE = has (prot a) PROCESS_VM_PROT_WRITE.
Proof.
  unfold map_flags, has. destruct (Z.land (prot a) PROCESS_VM_PROT_WRITE =? 0), (Z.land (max_prot a) PROCESS_VM_PROT_WRITE =? 0); by vm_compute.
Qed.

(** The last step: the frame is mapped. *)
Lemma map_outcome h ext k p a n f flags byte :
  both kpd h pds pts ext k -> pd p ∈ pds -> 0 <= n -> user_page n ->
  managed_frame (k_pmm k) f -> (f ∉ heap_frames h) -> ~ is_table pds pts f -> f <> kpd -> 0 < ext f ->
  0 <= flags < 4096 -> has flags PAGE_USER = true -> has (Z.lor flags PAGE_PRESENT) PAGE_WRITE = has (prot a) PROCESS_VM_PROT_WRITE ->
  (has flags PAGE_WRITE = true -> forall pd v, pd ∈ pds -> user_page v -> pte_maps (user_pte (k_mem k) pd v) f = false) ->
  (forall j, 0 <= j < 4096 -> frame_byte (k_mem k) f j = byte j) ->
  runs_or (pts !! (pd p, n / 1024) = None /\ s_free_count (k_pmm k) <= 0)
    (on_mach (paging_map_page L (pd p) (n * 4096) f flags) ;;; ret true) (World k p)
    (fun r w' => r = true /\ outcome h a n byte (World k p) r w').
Proof.
  intros B Hd Hn0 Hn Fm Fh Ft Fk Fe Hfl Hus Hwr Hw Hb.
  pose proof (map_placed L h pds pts ext k (pd p) n f flags B Hd Hn0 Hn Fm Fh Ft Fk Fe Hfl Hus Hw) as H.
  unfold runs_or, bind, on_kernel, on_machine, ret. cbn [w_kernel w_proc].
  destruct (paging_map_page _ _ _ _ _ _) as [[[] s']|]; [|done]. destruct H as (pts' & ext' & B' & P & E1 & E2 & E3).
  split; [done|]. split; [done|]. exists h, pts', ext'. split_and!; [done|done|]. cbn [w_kernel w_proc].
  change (k_mem (Kernel s' _ _)) with (m_mem s'). split_and!; [exact P| |].
  - destruct (managed_frame_range _ f (vr_pmm _ _ _ _ _ _ (bo_vm _ _ _ _ _ _ B)) Fm) as (M1 & M2 & M3 & M4 & _).
    pose proof (new_flags_range f flags Hfl). rewrite E1, entry_has by (done || (pmm_consts; lia)). done.
  - intros j Hj. rewrite E2. unfold frame_byte. rewrite E3. by apply Hb.
Qed.

Lemma fill_page_runs h ext k p a n :
  both kpd h pds pts ext k -> pd p ∈ pds -> 0 <= n -> user_page n -> area_ok a -> covers a (n * 4096) = true ->
  runs_or (pts !! (pd p, n / 1024) = None /\ (file_backed (kind a) = false -> s_free_count (k_pmm k) <= 1))
    (fill_page L fs (pd p) a (n * 4096)) (World k p)
    (fun r w' => outcome h a n (fun j => prescribed content a (n * 4096 + j)) (World k p) r w' /\
       (file_backed (kind a) = false -> r = (0 <? s_free_count (k_pmm k)))).
Proof.
  intros B Hd Hn0 Hn Ha Hc. unfold fill_page.
  apply runs_or_bind, runs_on_kernel, runs_on_machine, (alloc_held L h pds pts ext k _ B); cbn [w_kernel w_proc].
  { intros E. cbn. split; [|by rewrite E]. split; [by destruct k|]. exists h, pts, ext. split_and!; [by destruct k|done|by destruct k]. }
  intros f ext1 s1 Hf0 B1 H1 Q1 Hcnt. rewrite (proj2 (Z.eqb_neq f 0)) by done.
  destruct (held_frame L _ _ _ _ _ _ B1 H1) as (Fp & Fm & _ & _).
  apply runs_or_bind, virt_runs; [done|].
  apply runs_or_bind, runs_on_kernel, runs_on_machine, (runs_zero _ f (kptr_alias f Fp Fm)). cbn [w_kernel w_proc k_machine s_slabs s_stats].
  set (s2 := set_mem (mem_zero_page f (m_mem s1)) s1).
  destruct (both_frame L h pds pts ext1 (with_machine s1 k) f s2 B1 H1) as (B2 & H2 & Q2).
  { done. }
  { intros x i Hx. cbn. unfold mem_zero_page. by rewrite (proj2 (Z.eqb_neq x f)). }
  change (with_machine s2 (with_machine s1 k)) with (with_machine s2 k) in *. fold (with_machine s2 k).
  assert (S2 : still h k h ext1 (with_machine s2 k)) by (split; [done..|by eapply quiet_trans]).
  assert (Hz : forall j, 0 <= j < 4096 -> frame_byte (k_mem (with_machine s2 k)) f j = 0).
  { intros j _. apply frame_byte_zero. intros i. cbn. unfold mem_zero_page. by rewrite Z.eqb_refl. }
  destruct (map_flags_spec a) as (G1 & G2 & G3 & G4).
  apply runs_or_bind. destruct (file_backed (kind a)) eqn:Ek.
  - eapply runs_mono; [by apply (load_page_runs h ext1)|]. cbv beta. intros ok w' (h3 & ext3 & k3 & -> & S3 & H3 & Hby).
    pose proof (still_trans _ _ _ _ _ _ _ _ S2 S3) as S. pose proof S3 as [B3 _ _]. destruct ok; cbn [negb].
    + eapply runs_or_mono; [apply (map_outcome h3 ext3 k3 p a n f (map_flags a) (fun j => prescribed content a (n * 4096 + j))); try done; try apply H3|..].
      * rewrite (hd_ext _ _ _ _ _ _ _ H3). lia.
      * intros _. apply H3.
      * by apply Hby.
      * intros [? _]. done.
      * cbv beta. intros r w' [_ O]. split; [|done]. eapply (outcome_still _ _ _ _ (World k p)); [exact S|exact O].
    + apply runs_or_bind, runs_on_kernel, runs_on_machine, (release_held L h3 pds pts ext3 k3 f _ B3 H3).
      intros ext4 s4 B4 Q4. cbn. split; [|done]. split; [done|]. exists h3, pts, ext4.
      split_and!; [done|apply S|]. eapply quiet_trans; [apply S|done].
  - apply runs_ret. cbn [negb].
    eapply runs_or_mono; [apply (map_outcome h ext1 (with_machine s2 k) p a n f (map_flags a) (fun _ => 0)); try done; try apply H2|..].
    + rewrite (hd_ext _ _ _ _ _ _ _ H2). lia.
    + intros _. apply H2.
    + intros [? Hle]. split; [done|]. intros _. change (s_free_count (m_pmm s1) <= 0) in Hle. lia.
    + cbv beta. intros r w' [-> O]. split.
      * apply (outcome_still _ _ _ _ (World k p) _ _ _ _ _ S2) in O.
        destruct O as (Hp & h' & pts' & ext' & O1 & O2 & O3 & O4 & O5). split; [done|]. exists h', pts', ext'.
        split; [done|]. split; [done|]. cbv zeta in *. split_and!; [done|done|]. intros j Hj. rewrite O5 by done. unfold prescribed, backing. by rewrite Ek.
      * intros _. pose proof (free_count_bounds _ (vr_pmm _ _ _ _ _ _ (bo_vm _ _ _ _ _ _ B1))) as Hb.
        change (k_pmm (with_machine s1 k)) with (m_pmm s1) in Hb. lia.
Qed.

(** A page of the page cache. *)
Definition share_post (h : heap) (k : kernel) (p : process_vm) (a : area) (n : Z) (r : option Z) (w' : world) : Prop :=
  exists h' ext' k', w' = World k' p /\ still h k h' ext' k' /\
    match r with
    | Some f => file_backed (kind a) = true /\ has (prot a) PROCESS_VM_PROT_WRITE = false /\
        (managed_frame (k_pmm k') f /\ (f ∉ heap_frames h') /\ ~ is_table pds pts f /\ f <> kpd /\ 0 < ext' f) /\
        forall j, 0 <= j < 4096 -> frame_byte (k_mem k') f j = prescribed content a (n * 4096 + j)
    | None => file_backed (kind a) = false -> k' = k
    end.

Lemma share_page_runs h ext k p a n :
  both kpd h pds pts ext k -> area_ok a -> covers a (n * 4096) = true ->
  runs (share_page fs a (n * 4096)) (World k p) (share_post h k p a n).
Proof.
  intros B [A1 A2 A3 A4 _ _ Af] Hc%covers_iff. unfold share_page, PAGE_SIZE.
  assert (Hpage : 0 <= n * 4096 /\ n * 4096 + 4096 <= end_ a) by (unfold USER_CODE_BASE in *; clear - A2 A3 Hc; split; dlia).
  unfold USER_CODE_BASE, USER_STACK_TOP in *. rewrite (u32_small (n * 4096 + 4096)) by lia.
  assert (Hidle : runs (ret None) (World k p) (share_post h k p a n)).
  { apply runs_ret. exists h, ext, k. split_and!; [done|by apply still_refl|done]. }
  destruct (file_backed (kind a)) eqn:Ek; [|exact Hidle]. cbn [andb]. destruct (Af Ek) as (F1 & F2 & F3).
  destruct (_ && _ && _ && _ && _) eqn:Eg; [|exact Hidle]. rewrite !andb_true_iff in Eg. destruct Eg as [[[[_ _] Hp] Hs] He].
  cbv zeta. rewrite (u32_small (n * 4096 - file_start a)) by lia.
  pose proof (u32_range (file_offset a + (n * 4096 - file_start a))) as Ho. destruct (Z.land _ (4096 - 1) =? 0) eqn:Eo; cbn [negb]; [|exact Hidle].
  change (4096 - 1) with (Z.ones 12) in Eo. rewrite Z.land_ones in Eo by lia. change (2 ^ 12) with 4096 in Eo.
  apply runs_bind, runs_on_kernel. cbn [w_kernel w_proc].
  eapply runs_mono; [apply (share_runs h pds pts ext); [done|lia|lia]|].
  intros [rc f] k' (h' & ext' & U & Hok). apply runs_ret. exists h', ext', k'. split_and!; [done|by eapply undisturbed_still|].
  destruct (Z.eqb_spec rc 0) as [E|]; [|congruence]. destruct (Hok E) as (H1 & H2 & H3 & H4 & H5 & H6).
  split_and!; try done; [unfold has; by rewrite Hp|]. intros j Hj. rewrite H6 by done.
  unfold prescribed, backing. rewrite Ek, (proj2 (Z.leb_le _ _)), (proj2 (Z.ltb_lt _ _)) by lia. cbn [andb].
  f_equal. rewrite <- (u32_small (u32 _ + _)) by dlia. unfold u32. rewrite Zplus_mod_idemp_l. f_equal. lia.
Qed.

(** The access a fault asks for. *)
Definition permits (a : area) (write : bool) : bool := if write then has (prot a) PROCESS_VM_PROT_WRITE else has (prot a) PROT_ALL.

(** The faults that need no file: a copy-on-write fault, or the first access to a page. *)
Definition resolvable (present write : bool) (p : pmm) (e : Z) : bool :=
  if present then write && (cow_entry e && ((frame_refs p (pte_frame e) <=? 1) || (0 <? s_free_count p)))
  else negb (user_present e) && (0 <? s_free_count p).

Lemma outcome_refl h ext a n byte w : both kpd h pds pts ext (w_kernel w) -> outcome h a n byte w false w.
Proof. intros B. split; [done|]. by exists h, pts, ext. Qed.

Lemma absent_runs h ext k p a n :
  both kpd h pds pts ext k -> pd p ∈ pds -> 0 <= n -> user_page n -> area_ok a -> covers a (n * 4096) = true ->
  runs_or (pts !! (pd p, n / 1024) = None /\ (file_backed (kind a) = false -> s_free_count (k_pmm k) <= 1))
    (shared <- share_page fs a (n * 4096) ;;
     match shared with
     | Some frame => on_mach (paging_map_page L (pd p) (n * 4096) frame (Z.lor PAGE_USER PAGE_SHARED_RO_FILE)) ;;; ret true
     | None => fill_page L fs (pd p) a (n * 4096)
     end) (World k p)
    (fun r w' => outcome h a n (fun j => prescribed content a (n * 4096 + j)) (World k p) r w' /\
       (file_backed (kind a) = false -> r = (0 <? s_free_count (k_pmm k)))).
Proof.
  intros B Hd Hn0 Hn Ha Hc. apply runs_or_bind. eapply runs_mono; [by apply (share_page_runs h ext)|]. cbv beta.
  intros [f|] w' (h' & ext' & k' & -> & S & H); pose proof S as [B' _ _].
  - destruct H as (Ek & Hp & (F1 & F2 & F3 & F4 & F5) & Hb).
    eapply runs_or_mono; [apply (map_outcome h' ext' k' p a n f _ (fun j => prescribed content a (n * 4096 + j))); try done|..].
    + intros [? _]. split; [done|congruence].
    + cbv beta. intros r w' [_ O]. split; [|congruence]. eapply (outcome_still _ _ _ _ (World k p)); [exact S|exact O].
  - eapply runs_or_mono; [by apply (fill_page_runs h' ext' k' p a n)|..]; cbv beta.
    + intros [? Hle]. split; [done|]. intros Ek. rewrite <- (H Ek). by apply Hle.
    + intros r w' [O Hr]. split; [eapply (outcome_still _ _ _ _ (World k p)); [exact S|exact O]|].
      intros Ek. rewrite <- (H Ek). by apply Hr.
Qed.

Lemma get_page_runs h ext w n (Q : option (Z * Z) -> world -> Prop) :
  both kpd h pds pts ext (w_kernel w) -> pd (w_proc w) ∈ pds -> user_page n ->
  (let e := user_pte (k_mem (w_kernel w)) (pd (w_proc w)) n in
   Q (if user_present e then Some (pte_frame e, pte_flags e) else None) w) ->
  runs (on_mach (paging_user_page_get L (pd (w_proc w)) (n * 4096))) w Q.
Proof.
  intros B Hd Hn HQ. pose proof (user_index_range _ Hn). apply runs_on_kernel, runs_on_machine.
  apply (page_get_runs L pds pts ext); [apply B|done|dlia|]. cbv zeta in *. rewrite Z.div_mul, (proj2 (pd_index_is_user _) Hn) by lia.
  by destruct w as [[] ?].
Qed.

Lemma page_present_runs h ext w n (Q : bool -> world -> Prop) :
  both kpd h pds pts ext (w_kernel w) -> pd (w_proc w) ∈ pds -> user_page n ->
  Q (user_present (user_pte (k_mem (w_kernel w)) (pd (w_proc w)) n)) w ->
  runs (on_mach (paging_user_page_present L (pd (w_proc w)) (n * 4096))) w Q.
Proof.
  intros B Hd Hn HQ. pose proof (user_index_range _ Hn). apply runs_on_kernel, runs_on_machine, runs_bind.
  apply (page_get_runs L pds pts ext); [apply B|done|dlia|]. cbv zeta. rewrite Z.div_mul, (proj2 (pd_index_is_user _) Hn) by lia.
  apply runs_ret. destruct w as [[s1 s2 s3] p]. cbn [w_kernel w_proc] in *. revert HQ. unfold user_present, k_mem. cbn. by destruct (has_all _ _).
Qed.

(** A fault on a mapped page. *)
Lemma present_runs h ext w a n byte :
  both kpd h pds pts ext (w_kernel w) -> pd (w_proc w) ∈ pds -> user_page n -> has (prot a) PROCESS_VM_PROT_WRITE = true ->
  let e := user_pte (k_mem (w_kernel w)) (pd (w_proc w)) n in
  (forall j, 0 <= j < 4096 -> byte j = frame_byte (k_mem (w_kernel w)) (pte_frame e) j) ->
  runs (r <- on_mach (paging_user_page_get L (pd (w_proc w)) (n * 4096)) ;;
        match r with
        | None => ret false
        | Some (_, fl) => if Z.land fl PAGE_COW =? 0 then ret false else on_mach (paging_resolve_cow_fault L (pd (w_proc w)) (n * 4096))
        end) w
    (fun r w' => outcome h a n byte w r w' /\ r = resolvable true true (k_pmm (w_kernel w)) e).
Proof.
  intros B Hd Hn Hp e Hb. apply runs_bind, (get_page_runs h ext w n); try done. fold e. cbv zeta. unfold resolvable. cbn [andb].
  assert (Hcow : cow_entry e = true -> user_present e = true /\ Z.land (pte_flags e) PAGE_COW <> 0).
  { unfold cow_entry. rewrite !andb_true_iff. intros [[Hc _] _]. split; [by apply (has_all_sub _ _ (Z.lor PAGE_PRESENT PAGE_USER)) in Hc|].
    rewrite has_all_flags, <- pte_flags_eq in Hc by (by vm_compute).
    apply (has_all_sub _ _ PAGE_COW) in Hc; [|done]. unfold has_all in Hc. apply Z.eqb_eq in Hc. by rewrite Hc. }
  assert (Hno : cow_entry e = false -> runs (ret false) w (fun r w' => outcome h a n byte w r w' /\
     r = cow_entry e && ((frame_refs (k_pmm (w_kernel w)) (pte_frame e) <=? 1) || (0 <? s_free_count (k_pmm (w_kernel w)))))).
  { intros ->. apply runs_ret. split; [by eapply outcome_refl|done]. }
  destruct (user_present e) eqn:Eu.
  2:{ apply Hno. destruct (cow_entry e); [by destruct Hcow|done]. }
  destruct (Z.eqb_spec (Z.land (pte_flags e) PAGE_COW) 0) as [Ec|Ec].
  { apply Hno. destruct (cow_entry e); [by destruct Hcow|done]. }
  apply runs_on_kernel, runs_on_machine. eapply runs_mono; [by apply (cow_placed L h pds pts ext)|]. cbv beta. fold e.
  intros r s' [-> H]. split; [|done]. destruct (cow_entry e && _).
  - destruct H as (B' & P & Hw & Hby). split; [done|]. exists h, pts, ext. split; [done|]. split; [done|]. cbv zeta.
    split; [exact P|]. cbn [w_kernel w_proc]. change (k_mem (Kernel s' _ _)) with (m_mem s'). split; [congruence|].
    intros j Hj. rewrite Hb by done. unfold frame_byte. by rewrite Hby.
  - subst s'. destruct w as [[] ?]. by eapply outcome_refl.
Qed.

Lemma guards {S} a write (m : M S bool) :
  (if write && (Z.land (prot a) PROCESS_VM_PROT_WRITE =? 0) then ret false else
   if negb write && (Z.land (prot a) PROT_ALL =? 0) then ret false else m) = if permits a write then m else ret false.
Proof. unfold permits, has. destruct write; cbn [andb negb]; by destruct (_ =? 0). Qed.

(** The handler. *)
Lemma handle_runs h ext w addr err :
  world_ok L h pds pts ext w -> areas_ok (areas (w_proc w)) -> 0 <= addr < 2 ^ 32 ->
  let n := addr / 4096 in let d := pd (w_proc w) in let present := has err 1 in let write := has err 2 in
  let e := user_pte (k_mem (w_kernel w)) d n in
  runs_or (exists a, find_area (areas (w_proc w)) (n * 4096) = Some a /\ permits a write = true /\ present = false /\
      user_page n /\ pts !! (d, n / 1024) = None /\ (file_backed (kind a) = false -> s_free_count (k_pmm (w_kernel w)) <= 1))
    (process_vm_handle_fault L fs addr err) w
    (fun r w' => match find_area (areas (w_proc w)) (n * 4096) with
     | None => r = false /\ w' = w
     | Some a => outcome h a n (fun j => if present then frame_byte (k_mem (w_kernel w)) (pte_frame e) j
                                         else prescribed content a (n * 4096 + j)) w r w' /\
         (r = true -> permits a write = true) /\
         (present || negb (file_backed (kind a)) = true -> r = permits a write && resolvable present write (k_pmm (w_kernel w)) e)
     end).
Proof.
  intros [B Hd T Hb] [As Ao] Haddr n d present write e. unfold process_vm_handle_fault.
  apply runs_or_bind, runs_proc. fold d. pose proof B as [R V A].
  rewrite (table_not_null L pds pts ext (k_machine (w_kernel w)) d V (is_table_pd d Hd)).
  rewrite page_floor_spec by done. fold n. rewrite lookup_find by done. fold (has err 1) (has err 2). fold present write. cbv zeta.
  destruct (find_area (areas (w_proc w)) (n * 4096)) as [a|] eqn:Ef; [|done].
  destruct (find_area_in _ _ _ Ef) as [Hin Hc]. rewrite Forall_forall in Ao. specialize (Ao a Hin).
  assert (Hn : user_page n).
  { apply user_page_range. apply covers_iff in Hc. destruct Ao as [_ _ A3 A4 _ _ _]. unfold USER_CODE_BASE, USER_STACK_TOP in *. lia. }
  assert (Hn0 : 0 <= n) by (unfold n; dlia).
  rewrite guards. destruct (permits a write) eqn:Eperm; [|by split; [eapply outcome_refl|]].
  destruct present eqn:Ep.
  - destruct write eqn:Ew; cbn [negb]; [|by split; [eapply outcome_refl|]].
    pose proof (present_runs h ext w a n _ B Hd Hn Eperm (fun j _ => eq_refl)) as Hr. fold d e in Hr.
    eapply runs_or_mono; [by apply runs_runs_or, Hr|done|]. cbv beta. intros r w' [O Er]. by split_and!.
  - apply runs_or_bind, (page_present_runs h ext); try done. fold d e.
    destruct (user_present e) eqn:Eu; [split; [by eapply outcome_refl|]; unfold resolvable; by rewrite Eu|].
    destruct w as [k p]. cbn [w_kernel w_proc] in *.
    eapply runs_or_mono; [apply (absent_runs h ext k p a n); done|..]; cbv beta.
    + intros [H1 H2]. exists a. by split_and!.
    + intros r w' [O Er]. split_and!; [done..|]. cbn [orb negb]. intros Ek. apply negb_true_iff in Ek. unfold resolvable. rewrite Eu. by apply Er.
Qed.
End Load.
