(* ===== verification/FaultSpec.v ===== *)
(** * Page faults: contract

    The contract of [process_vm_handle_fault], against any file system that satisfies
    [FileSystem], and a file system that does. *)
From S2P Require Import Prelude BootInfo Pmm Memory Paging AddressSpace AddressOps AddressLife AddressClone AddressProps.
From S2P Require Import Kalloc KallocRep KallocOps KallocProps KallocLarge KallocFree KernelVm Klib Arrays VmArea VmTable VmOps VmProps VmSpec Fault FaultProps.
From Stdlib Require Import ZArith Lia ZifyBool Bool String.
From stdpp Require Import base numbers gmap list.
Local Open Scope Z_scope.
Local Open Scope kernel_scope.

(** ** The invariant *)

Lemma placed_backed pds d n k k' l a :
  d ∈ pds -> placed pds d n k k' -> find_area l (n * 4096) = Some a ->
  has (user_pte (k_mem k') d n) PAGE_WRITE = has (prot a) PROCESS_VM_PROT_WRITE ->
  backed (k_mem k) d l -> backed (k_mem k') d l.
Proof.
  intros Hd [_ _ P3 _] Ha Hw Hb n' Hn'. destruct (decide (n' = n)) as [->|Hne].
  - intros _. exists (attr_of a). unfold attr_at. rewrite Ha. split; [done|]. by rewrite Hw.
  - rewrite P3 by congruence || done. by apply Hb.
Qed.

Lemma outcome_inv L pds h pts ext w a n byte r w' :
  world_ok L h pds pts ext w -> vm_inv L pds w -> find_area (areas (w_proc w)) (n * 4096) = Some a ->
  outcome L pds h a n byte w r w' -> vm_inv L pds w'.
Proof.
  intros [B Hd T Hb] I Ha (Hp & h' & pts' & ext' & B' & Hl & H). constructor; rewrite ?Hp.
  - exists h', pts', ext'. constructor; rewrite ?Hp; try done. intros Hne. destruct (Hb Hne) as (m & ? & ?). exists m. split; [done|by apply Hl].
  - apply I.
  - destruct r; [destruct H as (P & Hw & _); by eapply placed_backed; try done; apply I|].
    eapply backed_quiet; [done|done|done|apply I].
Qed.

(** ** A file system *)

(** Every file is the sequence 0, 1, ..., 255, 0, ... of 2^32 bytes; nothing is cached. *)
Definition byte_content (name : cstring) (o : Z) : Z := o mod 256.

Definition pack (b : Z -> Z) : Z := b 0 + 256 * b 1 + 65536 * b 2 + 16777216 * b 3.
Definition put_bytes (f o len : Z) (g : Z -> Z) (mem : Z -> Z -> Z) : Z -> Z -> Z := fun x i =>
  if x =? f then pack (fun r => if (o <=? 4 * i + r) && (4 * i + r <? o + len) then g (4 * i + r - o) else frame_byte mem f (4 * i + r))
  else mem x i.

Definition byte_fs : vfs := Vfs
  (fun name off ptr len => on_machine (modify (fun s => set_mem (put_bytes (page_of (kernel_translate ptr)) (ptr mod 4096) (Z.min len (2 ^ 32 - off))
      (fun j => byte_content name (off + j)) (m_mem s)) s)) ;;; ret (0, Z.min len (2 ^ 32 - off)))
  (fun name off => ret (-1, 0)).

Lemma pack_byte b r : (forall x, 0 <= b x < 256) -> 0 <= r < 4 -> pack b / 256 ^ r mod 256 = b r.
Proof.
  intros Hb Hr. pose proof (Hb 0). pose proof (Hb 1). pose proof (Hb 2). pose proof (Hb 3). unfold pack.
  assert (r = 0 \/ r = 1 \/ r = 2 \/ r = 3) as [->|[->|[->| ->]]] by lia.
  - change (256 ^ 0) with 1. dlia.
  - change (256 ^ 1) with 256. dlia.
  - change (256 ^ 2) with 65536. dlia.
  - change (256 ^ 3) with 16777216. dlia.
Qed.

Lemma put_bytes_byte f o len g mem j :
  (forall x, 0 <= g x < 256) ->
  frame_byte (put_bytes f o len g mem) f j = if (o <=? j) && (j <? o + len) then g (j - o) else frame_byte mem f j.
Proof.
  intros Hg. unfold frame_byte at 1, put_bytes. rewrite Z.eqb_refl, pack_byte.
  - replace (4 * (j / 4) + j mod 4) with j by dlia. done.
  - intros x. destruct (_ && _); [done|]. unfold frame_byte. apply Z.mod_pos_bound. lia.
  - apply Z.mod_pos_bound. lia.
Qed.

#[export] Instance byte_fs_laws L : FileSystem (kernel_page_directory L) byte_fs byte_content.
Proof.
  split.
  - intros h pds pts ext k name off f o len B Hh Ho Hl Hol Hoff.
    destruct (held_frame L _ _ _ _ _ _ B Hh) as (Fp & Fm & _ & _). pose proof (kptr_alias f Fp Fm) as [Ka _ _ Kt].
    cbn [vfs_read_path_at byte_fs]. apply runs_bind, runs_on_machine, runs_modify, runs_ret.
    rewrite Kt by lia. assert (Ef : page_of (f + o) = f) by (unfold page_of; dlia).
    assert (Eo : (alias f + o) mod 4096 = o) by dlia. rewrite Ef, Eo.
    set (s' := set_mem _ _).
    destruct (both_frame L h pds pts ext k f s' B Hh) as (B' & H' & Q'); [done| |].
    { intros x i Hx. cbn. unfold put_bytes. by rewrite (proj2 (Z.eqb_neq x f)). }
    exists h, ext. split_and!; [by constructor|done|]. intros _. split; [lia|]. split; [lia|]. intros j _.
    apply put_bytes_byte. intros x. apply Z.mod_pos_bound. lia.
  - intros h pds pts ext k name off B _ _. apply runs_ret. exists h, ext. by split; [constructor|].
Qed.

(** ** The contract *)

(** C11: page faults.  [process_vm_handle_fault] resolves only accesses that the memory
    area of the address permits.  A resolved fault leaves the page mapped, writable if
    the access is a write, and a writable page has a frame of its own; the page reads
    as before (copy-on-write) or as the area prescribes, bytes of the file and zeros
    (first access).  Every other page of every process keeps its mapping and contents,
    and the invariant of the memory areas holds again.  A fault that is not resolved
    changes nothing a process can see.  Faults that read no file are resolved exactly
    when the access is permitted, the page is copy-on-write or not mapped, and a frame
    is free where one is needed; the machine halts only when the page has no page
    table, and then, for anonymous memory, at most one frame is free. *)
Theorem process_vm_handle_fault_correct L fs content pds w addr err :
  FileSystem (kernel_page_directory L) fs content -> vm_inv L pds w ->
  0 <= addr < 2 ^ 32 ->
  let n := addr / 4096 in let d := pd (w_proc w) in let mem := k_mem (w_kernel w) in let e := user_pte mem d n in
  let present := has err 1 in let write := has err 2 in
  match process_vm_handle_fault L fs addr err w with
  | Some (r, w') =>
      let mem' := k_mem (w_kernel w') in let e' := user_pte mem' d n in
      w_proc w' = w_proc w /\ vm_inv L pds w' /\
      match find_area (areas (w_proc w)) (n * 4096) with
      | None => r = false /\ w' = w
      | Some a =>
          (if r then permits a write = true /\ placed pds d n (w_kernel w) (w_kernel w') /\
             (write = true -> has e' PAGE_WRITE = true) /\
             forall j, 0 <= j < 4096 -> frame_byte mem' (pte_frame e') j
               = if present then frame_byte mem (pte_frame e) j else prescribed content a (n * 4096 + j)
           else quiet pds (w_kernel w) (w_kernel w')) /\
          (present || negb (file_backed (kind a)) = true -> r = permits a write && resolvable present write (k_pmm (w_kernel w)) e)
      end
  | None => present = false /\ has (mem d (n / 1024)) PAGE_PRESENT = false /\
      exists a, find_area (areas (w_proc w)) (n * 4096) = Some a /\ permits a write = true /\
        (file_backed (kind a) = false -> s_free_count (k_pmm (w_kernel w)) <= 1)
  end.
Proof.
  intros FS I Haddr n d mem e present write. pose proof I as [(h & pts & ext & W) Ha _].
  pose proof (handle_runs L pds pts fs content h ext w addr err W Ha Haddr) as H. cbv zeta in H.
  fold n d in H. fold mem in H. fold e present write in H. unfold runs_or in H.
  destruct (process_vm_handle_fault L fs addr err w) as [[r w']|].
  - cbv zeta. destruct (find_area (areas (w_proc w)) (n * 4096)) as [a|] eqn:Ef; [|by destruct H as [-> ->]].
    destruct H as (O & H1 & H2). split; [apply O|]. split; [by eapply outcome_inv|]. split; [|done].
    destruct O as (_ & h' & pts' & ext' & _ & _ & O). destruct r; [|done]. destruct O as (P & Hw & Hb).
    specialize (H1 eq_refl). split_and!; [done|done| |done]. intros Ew. fold d in Hw. rewrite Hw. rewrite Ew in H1. exact H1.
  - destruct H as (a & E1 & E2 & E3 & Hn & E4 & E5). split_and!; [done| |by exists a].
    destruct W as [[_ V _] Hd _ _]. unfold mem. rewrite (vr_pde _ _ _ _ _ _ V d (n / 1024) Hd Hn). by rewrite E4.
Qed.

Lemma process_vm_handle_fault_correct_witness :
  match process_vm_handle_fault layout_example byte_fs 0x400200 4 segment_world with
  | Some (r, w') => r = true /\ vm_inv layout_example fresh_pds w' /\
      let e' := user_pte (k_mem (w_kernel w')) example_pd 0x400 in
      user_present e' = true /\ frame_byte (k_mem (w_kernel w')) (pte_frame e') 0x7F = 0 /\
      frame_byte (k_mem (w_kernel w')) (pte_frame e') 0x134 = 0x34
  | None => False
  end.
Proof.
  set (a := VmArea 0x400000 0x403000 5 5 PROCESS_VM_KIND_ELF 0 0x400080 0x402800 0x80 0x9000 (bytes "/bin/sh"%string)).
  assert (Hl : areas (w_proc segment_world) = [a]) by (vm_compute; reflexivity).
  assert (Hf : find_area (areas (w_proc segment_world)) (0x400200 / 4096 * 4096) = Some a) by (rewrite Hl; reflexivity).
  assert (Hr : match process_vm_handle_fault layout_example byte_fs 0x400200 4 segment_world with
    | Some (r, _) => r | None => false end = true) by (vm_compute; reflexivity).
  pose proof (process_vm_handle_fault_correct layout_example byte_fs byte_content fresh_pds segment_world 0x400200 4
    (byte_fs_laws _) segment_world_inv ltac:(lia)) as H.
  cbv zeta in H. rewrite Hf in H. destruct (process_vm_handle_fault _ _ _ _ _) as [[r w']|]; [|discriminate Hr]. subst r.
  destruct H as (_ & I & (_ & P & _ & Hb) & _). split; [reflexivity|]. split; [exact I|].
  split; [apply P|]. split; [apply (Hb 0x7F ltac:(lia))|apply (Hb 0x134 ltac:(lia))].
Defined.
