(* ===== verification/MemCalls.v ===== *)
(** * Memory system calls

    Models [sys_brk_impl], [sys_mmap_impl], [sys_munmap_impl] and [sys_mprotect_impl] of
    [src/src/kernel/syscall_proc.c] with their helpers, [process_fd_get] of [process.c]
    and [vfs_file_stat_fd] of [vfs.c].

    [caller] is the calling process: its memory areas in the kernel ([world]), the
    break, the place of the next mapping, and what the calls read of its open files.
    The search for a free place runs on fuel; [None] there halts the machine, which
    never happens. *)
From S2P Require Import Prelude BootInfo Pmm Memory Paging AddressSpace.
From S2P Require Import Kalloc Klib Arrays VmArea Fault.
From Stdlib Require Import ZArith Lia ZifyBool Bool.
From stdpp Require Import base numbers gmap list.
Local Open Scope Z_scope.
Local Open Scope kernel_scope.

Definition EBADF : Z := 9.
Definition EEXIST : Z := 17.

Definition USER_MMAP_BASE : Z := 0x04000000.
Definition USER_INTERP_BASE : Z := 0x08000000.
Definition USER_HEAP_BASE : Z := 0x10000000.
Definition USER_STACK_SIZE : Z := 64 * PAGE_SIZE.

Definition SYS_PROT_READ : Z := 1.
Definition SYS_PROT_WRITE : Z := 2.
Definition SYS_PROT_EXEC : Z := 4.
Definition SYS_MAP_PRIVATE : Z := 0x02.
Definition SYS_MAP_FIXED : Z := 0x10.
Definition SYS_MAP_ANON : Z := 0x20.

Definition PROCESS_HANDLE_KIND_FILE : Z := 1.

(** An entry of the handle table, and the file object in its frame. *)
Record handle := Handle {
  h_valid : bool;
  h_kind : Z;
  h_readable : bool;
  h_is_dir : bool;
  h_aux_frame : Z;
  h_name : cstring
}.
Definition zero_handle : handle := Handle false 0 false false 0 [].

Record vfs_file_object_t := VfsFileObject {
  obj_is_dir : bool;
  obj_size : Z
}.

Record caller := Caller {
  c_world : world;
  heap_base : Z;
  heap_brk : Z;
  mmap_next : Z;
  c_fds : list handle;
  c_objects : Z -> vfs_file_object_t
}.
Definition set_heap_brk (b : Z) (c : caller) : caller := Caller (c_world c) (heap_base c) b (mmap_next c) (c_fds c) (c_objects c).
Definition set_mmap_next (n : Z) (c : caller) : caller := Caller (c_world c) (heap_base c) (heap_brk c) n (c_fds c) (c_objects c).
Definition with_world (w : world) (c : caller) : caller := Caller w (heap_base c) (heap_brk c) (mmap_next c) (c_fds c) (c_objects c).

Definition on_world {A} (m : M world A) : M caller A := fun c =>
  match m (c_world c) with
  | Some (a, w) => Some (a, with_world w c)
  | None => None
  end.

(** ** Open files *)

(** [fd_capacity] is the length of the table. *)
Definition process_fd_get (c : caller) (fd : Z) : option handle :=
  if (fd <? 0) || (zlen (c_fds c) <=? u32 fd) then None else
  if negb (h_valid (zget zero_handle (c_fds c) fd)) then None else
  Some (zget zero_handle (c_fds c) fd).

Definition vfs_file_object (c : caller) (ent : handle) : option vfs_file_object_t :=
  if negb (h_kind ent =? PROCESS_HANDLE_KIND_FILE) || (h_aux_frame ent =? 0) then None
  else Some (c_objects c (h_aux_frame ent)).

(** The result, [*out_size] and [*out_is_dir]. *)
Definition vfs_file_stat_fd (c : caller) (ent : handle) : Z * Z * bool :=
  match vfs_file_object c ent with
  | None => (- EBADF, 0, false)
  | Some obj =>
    if negb (h_valid ent) || negb (h_kind ent =? PROCESS_HANDLE_KIND_FILE) then (- EBADF, 0, false)
    else (0, if obj_is_dir obj then 0 else obj_size obj, obj_is_dir obj)
  end.

(** ** The calls *)

Section Calls.
Variable L : layout.

Definition sys_brk_impl (new_brk : Z) : M caller Z :=
  c <- gets id ;;
  if pd (w_proc (c_world c)) =? 0 then ret (u32 (-1)) else
  let cur_brk := heap_brk c in
  if new_brk =? 0 then ret cur_brk else
  if (new_brk <? heap_base c) || (USER_STACK_TOP - USER_STACK_SIZE <=? new_brk) then ret cur_brk else
  if new_brk =? cur_brk then ret new_brk else
  if cur_brk <? new_brk then
    let map_start := PAGE_ALIGN cur_brk in
    let map_end := PAGE_ALIGN new_brk in
    ok <- (if map_start <? map_end then
             on_world (process_vm_add map_start map_end (Z.lor PROCESS_VM_PROT_READ PROCESS_VM_PROT_WRITE)
               (Z.lor (Z.lor PROCESS_VM_PROT_READ PROCESS_VM_PROT_WRITE) PROCESS_VM_PROT_EXEC) PROCESS_VM_KIND_HEAP 0 None 0 0 0 0)
           else ret true) ;;
    if negb ok then ret cur_brk else
    modify (set_heap_brk new_brk) ;;;
    ret new_brk
  else
    let unmap_start := PAGE_ALIGN new_brk in
    let unmap_end := PAGE_ALIGN cur_brk in
    ok <- (if unmap_start <? unmap_end then on_world (process_vm_remove_range L unmap_start unmap_end) else ret true) ;;
    if negb ok then ret cur_brk else
    modify (set_heap_brk new_brk) ;;;
    ret new_brk.

Definition user_mapping_range_ok (start length : Z) : bool :=
  if length =? 0 then false else
  if negb (Z.land start (PAGE_SIZE - 1) =? 0) then false else
  if USER_HEAP_BASE - USER_MMAP_BASE <? length then false else
  let end_ := u32 (start + PAGE_ALIGN length) in
  if end_ <? start then false else
  if start <? USER_MMAP_BASE then false else
  if USER_INTERP_BASE <? end_ then false else true.

Definition user_vm_range_ok (start length : Z) : bool :=
  if length =? 0 then false else
  if negb (Z.land start (PAGE_SIZE - 1) =? 0) then false else
  let end_ := u32 (start + PAGE_ALIGN length) in
  if end_ <? start then false else
  if start <? USER_CODE_BASE then false else
  if USER_STACK_TOP <? end_ then false else true.

(** [while (start + size <= USER_INTERP_BASE) { if (...) break; start += size; }] *)
Fixpoint search_start (fuel : nat) (p : process_vm) (start size : Z) : option Z :=
  match fuel with
  | O => None
  | S fuel =>
    if u32 (start + size) <=? USER_INTERP_BASE then
      if process_vm_range_free p start (u32 (start + size)) then Some start
      else search_start fuel p (u32 (start + size)) size
    else Some start
  end.
Definition search_fuel : nat := S (S (Z.to_nat (USER_INTERP_BASE / PAGE_SIZE))).

(** The result and [*out_start]. *)
Definition sys_mmap_pick_start (addr size flags : Z) : M caller (Z * Z) :=
  c <- gets id ;;
  let p := w_proc (c_world c) in
  let finish (start : Z) : M caller (Z * Z) :=
    if negb (user_mapping_range_ok start size) then ret (- ENOMEM, 0) else
    if negb (process_vm_range_free p start (u32 (start + size))) then ret (- EEXIST, 0) else
    ret (0, start) in
  if negb (Z.land flags SYS_MAP_FIXED =? 0) then
    let start := Z.land addr (u32 (Z.lnot (PAGE_SIZE - 1))) in
    if negb (start =? addr) then ret (- EINVAL, 0) else finish start
  else
    match search_start search_fuel p (PAGE_ALIGN (if mmap_next c =? 0 then USER_MMAP_BASE else mmap_next c)) size with
    | None => halt
    | Some start => finish start
    end.

Definition sys_mmap_anon_impl (start size prot : Z) : M caller Z :=
  ok <- on_world (process_vm_add start (u32 (start + size)) prot
    (Z.lor (Z.lor PROCESS_VM_PROT_READ PROCESS_VM_PROT_WRITE) PROCESS_VM_PROT_EXEC) PROCESS_VM_KIND_ANON 0 None 0 0 0 0) ;;
  if negb ok then ret (- ENOMEM) else ret 0.

Definition sys_mmap_file_impl (start size prot fd offset : Z) : M caller Z :=
  if negb (Z.land offset (PAGE_SIZE - 1) =? 0) then ret (- EINVAL) else
  c <- gets id ;;
  match process_fd_get c fd with
  | None => ret (- EBADF)
  | Some ent =>
    if negb (h_kind ent =? PROCESS_HANDLE_KIND_FILE) || negb (h_readable ent) || h_is_dir ent then ret (- EBADF) else
    let '(rc, file_size, is_dir) := vfs_file_stat_fd c ent in
    if (rc <? 0) || is_dir then ret (- EBADF) else
    if file_size <=? offset then ret (- EINVAL) else
    let bytes := u32 (file_size - offset) in
    let bytes := if size <? bytes then size else bytes in
    let max_prot := if negb (Z.land prot SYS_PROT_WRITE =? 0) then Z.lor prot SYS_PROT_READ else prot in
    ok <- on_world (process_vm_add start (u32 (start + size)) prot max_prot PROCESS_VM_KIND_FILE_PRIVATE 0 (Some (h_name ent))
      start (u32 (start + bytes)) offset file_size) ;;
    if negb ok then ret (- ENOMEM) else ret 0
  end.

Definition SYS_PROT_ALL : Z := Z.lor (Z.lor SYS_PROT_READ SYS_PROT_WRITE) SYS_PROT_EXEC.

Definition sys_mmap_impl (addr length prot flags fd offset : Z) : M caller Z :=
  c <- gets id ;;
  if pd (w_proc (c_world c)) =? 0 then ret (- EINVAL) else
  if length =? 0 then ret (- EINVAL) else
  let size := PAGE_ALIGN length in
  if (size =? 0) || (size <? length) then ret (- EINVAL) else
  if lacks flags (Z.lor (Z.lor SYS_MAP_PRIVATE SYS_MAP_FIXED) SYS_MAP_ANON) then ret (- EINVAL) else
  if Z.land flags SYS_MAP_PRIVATE =? 0 then ret (- EINVAL) else
  r <- sys_mmap_pick_start addr size flags ;;
  let '(rc, start) := r in
  if rc <? 0 then ret rc else
  rc <- (if negb (Z.land flags SYS_MAP_ANON =? 0) then
           if lacks prot SYS_PROT_ALL then ret (- EINVAL) else sys_mmap_anon_impl start size prot
         else
           if Z.land prot SYS_PROT_READ =? 0 then ret (- EINVAL) else
           if lacks prot SYS_PROT_ALL then ret (- EINVAL) else sys_mmap_file_impl start size prot fd offset) ;;
  if rc <? 0 then ret rc else
  c <- gets id ;;
  (if (Z.land flags SYS_MAP_FIXED =? 0) || (mmap_next c <? u32 (start + size))
   then modify (set_mmap_next (u32 (start + size))) else ret tt) ;;;
  ret (i32 start).

Definition sys_munmap_impl (addr length : Z) : M caller Z :=
  c <- gets id ;;
  if pd (w_proc (c_world c)) =? 0 then ret (- EINVAL) else
  if length =? 0 then ret (- EINVAL) else
  let size := PAGE_ALIGN length in
  if negb (user_vm_range_ok addr size) then ret (- EINVAL) else
  on_world (process_vm_remove_range_errno L addr (u32 (addr + size))).

Definition sys_mprotect_impl (addr length prot : Z) : M caller Z :=
  c <- gets id ;;
  if pd (w_proc (c_world c)) =? 0 then ret (- EINVAL) else
  if length =? 0 then ret (- EINVAL) else
  let size := PAGE_ALIGN length in
  if negb (user_vm_range_ok addr size) then ret (- EINVAL) else
  if lacks prot SYS_PROT_ALL then ret (- EINVAL) else
  on_world (process_vm_protect_errno L addr (u32 (addr + size)) prot).
End Calls.
