(* ===== verification/MemCallsProps.v ===== *)
(** * Memory system calls: correctness

    What the calls of [MemCalls.v] do to the memory of the caller, and that they never
    touch the memory of another process. *)
From S2P Require Import Prelude BootInfo Pmm Memory Paging AddressSpace AddressOps AddressLife AddressClone AddressProps.
From S2P Require Import Kalloc KallocRep KallocOps KallocProps KallocLarge KallocFree KernelVm Klib Arrays.
From S2P Require Import VmArea VmTable VmOps VmProps VmSpec Fault FaultProps FaultSpec MemCalls.
From Stdlib Require Import ZArith Lia ZifyBool Bool.
From stdpp Require Import base numbers gmap list.
Local Open Scope Z_scope.
Local Open Scope kernel_scope.

Ltac call_consts :=
  unfold USER_MMAP_BASE, USER_INTERP_BASE, USER_HEAP_BASE, USER_STACK_TOP, USER_STACK_SIZE, USER_CODE_BASE, PAGE_SIZE in *.

(** ** Ranges *)

Lemma page_align_wrap a : 0 <= a -> PAGE_ALIGN a = u32 (a + 4095) / 4096 * 4096.
Proof.
  intros Ha. unfold PAGE_ALIGN, PAGE_SIZE. replace (a + 4096 - 1) with (a + 4095) by lia.
  exact (page_floor_spec _ (u32_range (a + 4095))).
Qed.

Lemma page_align_small a : 0 <= a <= 2 ^ 32 - 4096 -> PAGE_ALIGN a = (a + 4095) / 4096 * 4096.
Proof. intros Ha. rewrite page_align_wrap by lia. by rewrite u32_small by lia. Qed.

Lemma page_align_aligned a : a mod 4096 = 0 -> 0 <= a < 2 ^ 32 -> PAGE_ALIGN a = a.
Proof. intros Hm Ha. rewrite page_align_small by dlia. dlia. Qed.

Lemma mapping_range_spec s size :
  0 <= s < 2 ^ 32 -> 0 <= size < 2 ^ 32 -> size mod 4096 = 0 ->
  user_mapping_range_ok s size = true <->
  0 < size /\ s mod 4096 = 0 /\ USER_MMAP_BASE <= s /\ s + size <= USER_INTERP_BASE.
Proof.
  intros Hs Hsz Hm. unfold user_mapping_range_ok. rewrite (page_align_aligned size) by done.
  fold (page_offset s). rewrite page_offset_mod.
  destruct (Z.eqb_spec size 0); [split; [done|lia]|].
  destruct (Z.eqb_spec (s mod 4096) 0); cbn [negb]; [|split; [done|lia]].
  call_consts. destruct (Z.ltb_spec (0x10000000 - 0x4000000) size); [split; [done|lia]|].
  unfold u32. cbv zeta. destruct (Z.ltb_spec ((s + size) mod 2 ^ 32) s); [split; [done|dlia]|].
  rewrite Z.mod_small in * by dlia. zcase; split; try done; lia.
Qed.

Lemma vm_range_spec s size :
  0 <= s < 2 ^ 32 -> 0 <= size < 2 ^ 32 -> size mod 4096 = 0 ->
  user_vm_range_ok s size = true -> 0 < size /\ s mod 4096 = 0 /\ USER_CODE_BASE <= s /\ s + size <= USER_STACK_TOP.
Proof.
  intros Hs Hsz Hm. unfold user_vm_range_ok. rewrite (page_align_aligned size) by done.
  fold (page_offset s). rewrite page_offset_mod. destruct (Z.eqb_spec size 0); [done|].
  destruct (Z.eqb_spec (s mod 4096) 0); cbn [negb]; [|done]. call_consts.
  unfold u32. cbv zeta. destruct (Z.ltb_spec ((s + size) mod 2 ^ 32) s); [done|].
  rewrite Z.mod_small in * by dlia. zcase; try done; lia.
Qed.

(** ** The search for a place *)

Lemma search_up p size fuel s :
  0 < size <= USER_INTERP_BASE -> size mod 4096 = 0 -> 0 <= s <= USER_INTERP_BASE -> s mod 4096 = 0 ->
  (USER_INTERP_BASE - s) / 4096 + 1 < Z.of_nat fuel ->
  exists k, 0 <= k /\ search_start fuel p s size = Some (s + k * size) /\ s + k * size <= USER_INTERP_BASE /\
    (forall i, 0 <= i < k -> process_vm_range_free p (s + i * size) (s + i * size + size) = false) /\
    (s + k * size + size <= USER_INTERP_BASE -> process_vm_range_free p (s + k * size) (s + k * size + size) = true).
Proof.
  revert s. induction fuel as [|fuel IH]; intros s Hsz Hm Hs Ms Hf; [call_consts; dlia|]. cbn [search_start].
  rewrite (u32_small (s + size)) by (call_consts; lia).
  destruct (Z.leb_spec (s + size) USER_INTERP_BASE) as [Hle|Hgt].
  2:{ exists 0. rewrite Z.mul_0_l, Z.add_0_r. split_and!; try done; lia. }
  destruct (process_vm_range_free p s (s + size)) eqn:Ef.
  { exists 0. rewrite Z.mul_0_l, Z.add_0_r. split_and!; try done; lia. }
  destruct (IH (s + size)) as (k & Hk & E & Hb & Hno & Hyes); [done|done|lia|dlia|call_consts; dlia|].
  exists (k + 1). replace (s + (k + 1) * size) with (s + size + k * size) by lia. split_and!; try done; [lia|].
  intros i Hi. destruct (Z.eq_dec i 0) as [->|]; [by rewrite Z.mul_0_l, Z.add_0_r|].
  replace (s + i * size) with (s + size + (i - 1) * size) by lia. apply Hno. lia.
Qed.

(** A size that cannot fit: the sum wraps around and the search runs downwards. *)
Lemma search_down p size fuel s :
  USER_INTERP_BASE < size < 2 ^ 32 -> size mod 4096 = 0 -> 0 <= s <= USER_INTERP_BASE -> s mod 4096 = 0 ->
  s / 4096 < Z.of_nat fuel -> exists r, search_start fuel p s size = Some r /\ 0 <= r <= USER_INTERP_BASE /\ r mod 4096 = 0.
Proof.
  revert s. induction fuel as [|fuel IH]; intros s Hsz Hm Hs Ms Hf; [dlia|]. cbn [search_start].
  destruct (Z.ltb_spec (s + size) (2 ^ 32)) as [Hlt|Hge].
  - rewrite u32_small by lia. rewrite (proj2 (Z.leb_gt _ _)) by lia. by exists s.
  - assert (E : u32 (s + size) = s + size - 2 ^ 32) by (unfold u32; call_consts; dlia). rewrite E.
    rewrite (proj2 (Z.leb_le _ _)) by lia. unfold process_vm_range_free. rewrite (proj2 (Z.leb_le (s + size - 2 ^ 32) s)) by lia.
    apply IH; try done; [call_consts; lia|dlia|dlia].
Qed.

Section MemCalls.
Context (L : layout) (HL : layout_ok L) (pds : gset Z).

(** ** The invariant of a caller *)

Record caller_ok (c : caller) : Prop := CallerOk {
  co_inv : vm_inv L pds (c_world c);
  co_base : heap_base c = USER_HEAP_BASE;
  co_brk : USER_HEAP_BASE <= heap_brk c < USER_STACK_TOP - USER_STACK_SIZE;
  co_next : mmap_next c = 0 \/ USER_MMAP_BASE <= mmap_next c <= USER_INTERP_BASE /\ mmap_next c mod 4096 = 0;
  co_size : forall f, 0 <= obj_size (c_objects c f) < 2 ^ 32
}.

(** The other processes have the pages they had, with the contents they had. *)
Definition others_kept (d : Z) (k k' : kernel) : Prop := forall pd v, pd ∈ pds -> pd <> d -> user_page v ->
  let e := user_pte (k_mem k) pd v in user_present e = true ->
  user_pte (k_mem k') pd v = e /\ forall i, k_mem k' (pte_frame e) i = k_mem k (pte_frame e) i.

Lemma others_kept_trans d k1 k2 k3 : others_kept d k1 k2 -> others_kept d k2 k3 -> others_kept d k1 k3.
Proof.
  intros H1 H2 pd v Hpd Hne Hv e He. destruct (H1 pd v Hpd Hne Hv He) as [E1 D1].
  specialize (H2 pd v Hpd Hne Hv). cbv zeta in H2. rewrite E1 in H2. destruct (H2 He) as [E2 D2]. split; [done|]. intros i. by rewrite D2, D1.
Qed.

Lemma quiet_others d k k' : quiet pds k k' -> others_kept d k k'.
Proof. intros [Q1 Q2] pd v Hpd _ Hv e He. split; [by apply Q1|]. by apply Q2. Qed.

Lemma removed_others w w' a e : removed L pds w w' a e -> others_kept (pd (w_proc w)) (w_kernel w) (w_kernel w').
Proof. intros [_ _ _ _ _ R] pd v Hpd Hne Hv pte He. by apply R; auto. Qed.

Lemma reprotected_others w w' a e v : reprotected L pds w w' a e v -> others_kept (pd (w_proc w)) (w_kernel w) (w_kernel w').
Proof.
  intros [_ _ _ _ R1 R2] pd n Hpd Hne Hn pte He. rewrite R1 by done. rewrite (proj2 (Z.eqb_neq pd _)) by done. split; [done|]. by apply R2.
Qed.

Lemma placed_others d n k k' : placed pds d n k k' -> others_kept d k k'.
Proof. intros [_ _ P3 P4] pd v Hpd Hne Hv e He. split; [apply P3|apply P4]; try done; congruence. Qed.

(** What holds after every call. *)
Record stepped (c c' : caller) : Prop := Stepped {
  sp_ok : caller_ok c';
  sp_pd : pd (w_proc (c_world c')) = pd (w_proc (c_world c));
  sp_others : others_kept (pd (w_proc (c_world c))) (w_kernel (c_world c)) (w_kernel (c_world c'))
}.

Lemma stepped_refl c : caller_ok c -> stepped c c.
Proof. intros C. split; [done|done|]. by apply quiet_others, quiet_refl. Qed.

Lemma stepped_trans c1 c2 c3 : stepped c1 c2 -> stepped c2 c3 -> stepped c1 c3.
Proof. intros [A1 A2 A3] [B1 B2 B3]. rewrite A2 in *. split; [done|congruence|]. by eapply others_kept_trans. Qed.

Lemma with_world_ok c w : caller_ok c -> vm_inv L pds w -> caller_ok (with_world w c).
Proof. intros [? ? ? ? ?] I. by constructor. Qed.

Lemma moved_stepped c w : caller_ok c -> moved L pds (c_world c) w -> stepped c (with_world w c).
Proof.
  intros C M. split; cbn; [apply with_world_ok; [done|eapply moved_inv; [apply C|done]]|apply M|]. apply quiet_others, M.
Qed.

Lemma runs_on_world {A} (m : M world A) c (Q : A -> caller -> Prop) :
  runs m (c_world c) (fun a w => Q a (with_world w c)) -> runs (on_world m) c Q.
Proof. unfold runs, on_world. by destruct (m (c_world c)) as [[a w]|]. Qed.

Lemma with_same_world c : with_world (c_world c) c = c.
Proof. by destruct c. Qed.

Lemma caller_pd c : caller_ok c -> (pd (w_proc (c_world c)) =? 0) = false.
Proof.
  intros C. destruct (co_inv _ C) as [(h & pts & ext & [[_ V _] Hd _ _]) _ _].
  exact (table_not_null L pds pts ext (k_machine (w_kernel (c_world c))) _ V (is_table_pd _ Hd)).
Qed.

Lemma caller_next c : caller_ok c ->
  let s := PAGE_ALIGN (if mmap_next c =? 0 then USER_MMAP_BASE else mmap_next c) in
  s = (if mmap_next c =? 0 then USER_MMAP_BASE else mmap_next c) /\ USER_MMAP_BASE <= s <= USER_INTERP_BASE /\ s mod 4096 = 0.
Proof.
  intros [_ _ _ Hn _]. destruct (Z.eqb_spec (mmap_next c) 0) as [E|E]; [by vm_compute|]. destruct Hn as [|[H1 H2]]; [done|].
  cbv zeta. rewrite page_align_aligned by (done || call_consts; lia). done.
Qed.

(** ** Mapping *)

(** The range [s, s + size) of the mapping region belongs to no area. *)
Definition vacant (p : process_vm) (s size : Z) : Prop := Forall (fun b => end_ b <= s \/ s + size <= start b) (areas p).

Definition in_region (s size : Z) : Prop := USER_MMAP_BASE <= s /\ s + size <= USER_INTERP_BASE.

Definition first_place (c : caller) : Z := if mmap_next c =? 0 then USER_MMAP_BASE else mmap_next c.

(** The place chosen for a mapping: the given one, or the first vacant one of those that
    follow the last mapping at multiples of the size. *)
Record chosen (c : caller) (addr size flags s : Z) : Prop := Chosen {
  ch_region : in_region s size;
  ch_aligned : s mod 4096 = 0;
  ch_vacant : vacant (w_proc (c_world c)) s size;
  ch_fixed : has flags SYS_MAP_FIXED = true -> s = addr;
  ch_first : has flags SYS_MAP_FIXED = false -> exists k, 0 <= k /\ s = first_place c + k * size /\
    forall i, 0 <= i < k -> ~ vacant (w_proc (c_world c)) (first_place c + i * size) size
}.

Lemma chosen_unique c addr size flags s s' : chosen c addr size flags s -> chosen c addr size flags s' -> s = s'.
Proof.
  intros [_ _ V1 F1 N1] [_ _ V2 F2 N2]. destruct (has flags SYS_MAP_FIXED); [by rewrite F1, F2|].
  destruct (N1 eq_refl) as (k & Hk & -> & K1), (N2 eq_refl) as (k' & Hk' & -> & K2).
  destruct (Z.lt_trichotomy k k') as [H|[->|H]]; [by destruct (K2 k)|done|by destruct (K1 k')].
Qed.

(** Why there is no place, with the error the call returns: a misaligned fixed address,
    a fixed range that is not in the mapping region, one that is taken, or no vacant place
    at all. *)
Inductive place_error (c : caller) (addr size flags : Z) : Z -> Prop :=
| PlaceMisaligned : has flags SYS_MAP_FIXED = true -> addr mod 4096 <> 0 -> place_error c addr size flags (- EINVAL)
| PlaceOutside : has flags SYS_MAP_FIXED = true -> addr mod 4096 = 0 -> ~ in_region addr size ->
    place_error c addr size flags (- ENOMEM)
| PlaceTaken : has flags SYS_MAP_FIXED = true -> addr mod 4096 = 0 -> in_region addr size ->
    ~ vacant (w_proc (c_world c)) addr size -> place_error c addr size flags (- EEXIST)
| PlaceNone : has flags SYS_MAP_FIXED = false ->
    (forall k, 0 <= k -> in_region (first_place c + k * size) size ->
       ~ vacant (w_proc (c_world c)) (first_place c + k * size) size) -> place_error c addr size flags (- ENOMEM).

Lemma range_free_vacant c s size : caller_ok c -> 0 < size ->
  process_vm_range_free (w_proc (c_world c)) s (s + size) = true <-> vacant (w_proc (c_world c)) s size.
Proof. intros C Hs. apply range_free_spec; [|lia]. eapply inv_table, C. Qed.

(** The checks on a candidate [s]. *)
Lemma finish_runs c size s (Q : Z * Z -> caller -> Prop) :
  caller_ok c -> 0 <= s < 2 ^ 32 -> 0 < size < 2 ^ 32 -> size mod 4096 = 0 -> s mod 4096 = 0 ->
  (~ in_region s size -> Q (- ENOMEM, 0) c) ->
  (in_region s size -> ~ vacant (w_proc (c_world c)) s size -> Q (- EEXIST, 0) c) ->
  (in_region s size -> vacant (w_proc (c_world c)) s size -> Q (0, s) c) ->
  runs (if negb (user_mapping_range_ok s size) then ret (- ENOMEM, 0) else
        if negb (process_vm_range_free (w_proc (c_world c)) s (u32 (s + size))) then ret (- EEXIST, 0) else ret (0, s)) c Q.
Proof.
  intros C Hs Hsz Hm Ms Q1 Q2 Q3. pose proof (mapping_range_spec s size Hs ltac:(lia) Hm) as Hr.
  destruct (user_mapping_range_ok s size) eqn:E; cbn [negb].
  2:{ apply runs_ret, Q1. intros [X1 X2]. assert (false = true) by (apply Hr; lia). done. }
  destruct (proj1 Hr eq_refl) as (_ & _ & H3 & H4). rewrite u32_small by (call_consts; lia).
  pose proof (range_free_vacant c s size C ltac:(lia)) as Hv.
  destruct (process_vm_range_free _ _ _) eqn:Ef; cbn [negb]; apply runs_ret; [apply Q3; [done|by apply Hv]|apply Q2; [done|]].
  intros X. apply Hv in X. done.
Qed.

Definition pick_post (c : caller) (addr size flags : Z) (r : Z * Z) (c' : caller) : Prop :=
  c' = c /\ (place_error c addr size flags r.1 \/ r.1 = 0 /\ chosen c addr size flags r.2).

Lemma pick_fixed_runs c addr size flags :
  caller_ok c -> 0 <= addr < 2 ^ 32 -> 0 < size < 2 ^ 32 -> size mod 4096 = 0 -> has flags SYS_MAP_FIXED = true ->
  runs (sys_mmap_pick_start addr size flags) c (pick_post c addr size flags).
Proof.
  intros C Ha Hsz Hm Efix. unfold sys_mmap_pick_start. apply runs_bind, runs_gets. cbv zeta. unfold id.
  fold (has flags SYS_MAP_FIXED). rewrite Efix. fold (page_floor addr). rewrite page_floor_spec by done.
  destruct (Z.eqb_spec (addr / 4096 * 4096) addr) as [E|E]; cbn [negb].
  2:{ apply runs_ret. split; [done|]. left. apply PlaceMisaligned; [done|]. dlia. }
  assert (addr mod 4096 = 0) by dlia. rewrite E. apply finish_runs; try done; intros; (split; [done|]).
  - left. by apply PlaceOutside.
  - left. by apply PlaceTaken.
  - right. split; [done|]. constructor; try done. congruence.
Qed.

Lemma pick_search_runs c addr size flags :
  caller_ok c -> 0 < size < 2 ^ 32 -> size mod 4096 = 0 -> has flags SYS_MAP_FIXED = false ->
  runs (sys_mmap_pick_start addr size flags) c (pick_post c addr size flags).
Proof.
  intros C Hsz Hm Efix. unfold sys_mmap_pick_start. apply runs_bind, runs_gets. cbv zeta. unfold id.
  fold (has flags SYS_MAP_FIXED). rewrite Efix.
  destruct (caller_next c C) as (E & Hr & Hal). fold (first_place c) in E, Hr, Hal. fold (first_place c). rewrite E in Hr, Hal. rewrite E.
  destruct (Z.leb_spec size USER_INTERP_BASE) as [Hle|Hgt].
  - destruct (search_up (w_proc (c_world c)) size search_fuel (first_place c)) as (k & Hk & -> & Hb & Hno & Hyes);
      [lia|done|call_consts; lia|done| |].
    { unfold search_fuel. rewrite !Nat2Z.inj_succ, Z2Nat.id by by vm_compute. call_consts. dlia. }
    assert (Hnv : forall i, 0 <= i < k -> ~ vacant (w_proc (c_world c)) (first_place c + i * size) size).
    { intros i Hi X. apply range_free_vacant in X; [|done|lia]. by rewrite Hno in X. }
    assert (Hkm : (first_place c + k * size) mod 4096 = 0) by (rewrite Z.add_mod, Z.mul_mod, Hm, Hal, Z.mul_0_r by lia; done).
    apply finish_runs; [done|call_consts; nia|lia|done|done|..].
    + intros Hout. split; [done|]. left. apply PlaceNone; [done|]. intros i Hi [_ X2] X. apply (Hnv i); [|done].
      unfold in_region in Hout. split; [done|]. nia.
    + intros [_ Hin] Hnvac. exfalso. apply Hnvac. apply range_free_vacant; [done|lia|]. by apply Hyes.
    + intros Hin Hvac. split; [done|]. right. split; [done|]. constructor; try done; [congruence|]. intros _. by exists k.
  - destruct (search_down (w_proc (c_world c)) size search_fuel (first_place c)) as (r & -> & Hrr & Hrm);
      [lia|done|call_consts; lia|done| |].
    { unfold search_fuel. rewrite !Nat2Z.inj_succ, Z2Nat.id by by vm_compute. call_consts. dlia. }
    apply finish_runs; [done|call_consts; lia|lia|done|done|..]; [|intros X _..]; [|unfold in_region in X; call_consts; lia..].
    intros _. split; [done|]. left. apply PlaceNone; [done|]. intros k Hk [X1 X2]. call_consts. nia.
Qed.

Lemma pick_runs c addr size flags :
  caller_ok c -> 0 <= addr < 2 ^ 32 -> 0 < size < 2 ^ 32 -> size mod 4096 = 0 ->
  runs (sys_mmap_pick_start addr size flags) c (pick_post c addr size flags).
Proof.
  intros. destruct (has flags SYS_MAP_FIXED) eqn:E; [by apply pick_fixed_runs|by apply pick_search_runs].
Qed.

(** The open file [fd], if it is a regular file open for reading. *)
Definition readable_file (c : caller) (fd : Z) : option (handle * vfs_file_object_t) :=
  ent ← process_fd_get c fd;
  obj ← vfs_file_object c ent;
  if h_readable ent && negb (h_is_dir ent) && negb (obj_is_dir obj) then Some (ent, obj) else None.

(** The area a call asks for, anonymous memory or the bytes of an open file from [offset]
    up to its end, or the error of its protection, file and offset. *)
Definition request (c : caller) (prot_ flags_ fd offset s size : Z) : Z + area :=
  if lacks prot_ SYS_PROT_ALL then inl EINVAL else
  if has flags_ SYS_MAP_ANON then inr (new_area s (s + size) prot_ PROT_ALL PROCESS_VM_KIND_ANON 0 None 0 0 0 0) else
  if negb (has prot_ SYS_PROT_READ) || negb (offset mod 4096 =? 0) then inl EINVAL else
  match readable_file c fd with
  | None => inl EBADF
  | Some (ent, obj) =>
      if offset <? obj_size obj
      then inr (new_area s (s + size) prot_ (if has prot_ SYS_PROT_WRITE then Z.lor prot_ SYS_PROT_READ else prot_)
        PROCESS_VM_KIND_FILE_PRIVATE 0 (Some (h_name ent)) s (s + Z.min size (obj_size obj - offset)) offset (obj_size obj))
      else inl EINVAL
  end.

(** Adding the area [a]: done, or the table of areas is full. *)
Definition add_post (c : caller) (a : area) (rc : Z) (c' : caller) : Prop :=
  rc = 0 /\ (exists w', c' = with_world w' c /\ added L pds (c_world c) w' a) \/
  rc = - ENOMEM /\ (exists w', c' = with_world w' c /\ moved L pds (c_world c) w') /\
    vm_area_capacity (w_proc (c_world c)) <= vm_area_count (w_proc (c_world c)).

Lemma prot_small p : 0 <= p < 2 ^ 32 -> lacks p PROT_ALL = false -> 0 <= p < 8.
Proof.
  unfold lacks. rewrite negb_false_iff. intros Hp H%Z.eqb_eq. change PROT_ALL with (8 - 1) in H.
  pose proof (land_low_mask p 3 32 ltac:(lia) Hp) as E. change (Z.lnot (Z.ones 3) mod 2 ^ 32) with (u32 (Z.lnot (8 - 1))) in E.
  change (2 ^ 3) with 8 in E. dlia.
Qed.

Lemma prot_in_max p : 0 <= p < 8 -> let m := if has p SYS_PROT_WRITE then Z.lor p SYS_PROT_READ else p in
  lacks p m = false /\ lacks m PROT_ALL = false.
Proof.
  intros Hp. assert (p = 0 \/ p = 1 \/ p = 2 \/ p = 3 \/ p = 4 \/ p = 5 \/ p = 6 \/ p = 7) as H by lia.
  by destruct_or! H; subst p; vm_compute.
Qed.

Lemma add_area_runs c s size prot_ max_ kind_ path_ fs fe fo fsize :
  caller_ok c -> 0 < size -> size mod 4096 = 0 -> USER_MMAP_BASE <= s -> s + size <= USER_INTERP_BASE -> s mod 4096 = 0 ->
  vacant (w_proc (c_world c)) s size -> lacks prot_ max_ = false -> lacks max_ PROT_ALL = false ->
  let a := new_area s (s + size) prot_ max_ kind_ 0 path_ fs fe fo fsize in file_ok a ->
  runs (ok <- on_world (process_vm_add s (s + size) prot_ max_ kind_ 0 path_ fs fe fo fsize) ;;
        if negb ok then ret (- ENOMEM) else ret 0) c (add_post c a).
Proof.
  intros C Hsz Hm Hlo Hhi Ms Hv Hp Hpm a Hf. apply runs_bind, runs_on_world.
  assert (V : add_valid s (s + size) prot_ max_) by (constructor; try done; call_consts; dlia).
  eapply runs_mono; [apply (add_runs L pds); [apply C|exact Hf]|]. cbv beta.
  intros b w' [(-> & _ & A)|[(-> & _ & Mv & Hc)|(_ & HV & _)]]; [..|done]; cbn [negb]; apply runs_ret; [left|right]; split_and!; try done; eauto.
Qed.

(** The call after the choice of the place [s]. *)
Definition map_call_post (c : caller) (req : Z + area) (rc : Z) (c' : caller) : Prop :=
  match req with
  | inr a => add_post c a rc c'
  | inl e => rc = - e /\ c' = c
  end.

Lemma file_call_runs c s size prot_ flags_ fd offset :
  caller_ok c -> 0 < size -> size mod 4096 = 0 -> USER_MMAP_BASE <= s -> s + size <= USER_INTERP_BASE -> s mod 4096 = 0 ->
  vacant (w_proc (c_world c)) s size -> 0 <= prot_ < 8 -> 0 <= offset < 2 ^ 32 -> lacks prot_ SYS_PROT_ALL = false ->
  has flags_ SYS_MAP_ANON = false -> has prot_ SYS_PROT_READ = true ->
  runs (sys_mmap_file_impl s size prot_ fd offset) c (map_call_post c (request c prot_ flags_ fd offset s size)).
Proof.
  intros C Hsz Hm Hlo Hhi Ms Hv Hp Ho Hl Han Hrd. unfold sys_mmap_file_impl, request, readable_file. rewrite Hl, Han, Hrd. cbn [negb orb].
  fold (page_offset offset). rewrite page_offset_mod. destruct (offset mod 4096 =? 0); cbn [negb]; [|by apply runs_ret].
  apply runs_bind, runs_gets. unfold id. destruct (process_fd_get c fd) as [ent|] eqn:Ee; cbn [mbind option_bind]; [|by apply runs_ret].
  assert (Hval : h_valid ent = true).
  { unfold process_fd_get in Ee. destruct (_ || _); [done|]. destruct (h_valid (zget _ _ _)) eqn:E; [|done]. by apply (inj Some) in Ee as <-. }
  unfold vfs_file_stat_fd, vfs_file_object. destruct (h_kind ent =? PROCESS_HANDLE_KIND_FILE); cbn [negb orb]; [|by apply runs_ret].
  rewrite Hval. cbn [negb orb].
  destruct (h_readable ent) eqn:Er, (h_is_dir ent) eqn:Ed; cbn [negb orb andb];
    try (apply runs_ret; by destruct (h_aux_frame ent =? 0)).
  destruct (h_aux_frame ent =? 0); cbn [mbind option_bind]; [by apply runs_ret|].
  set (obj := c_objects c (h_aux_frame ent)). destruct (obj_is_dir obj); cbn [negb orb andb]; [by apply runs_ret|].
  change (0 <? 0) with false. cbn [orb]. pose proof (co_size _ C (h_aux_frame ent)) as Hs. fold obj in Hs.
  destruct (Z.leb_spec (obj_size obj) offset); [rewrite (proj2 (Z.ltb_ge offset (obj_size obj))) by lia; by apply runs_ret|].
  rewrite (proj2 (Z.ltb_lt offset (obj_size obj))), (u32_small (obj_size obj - offset)) by lia. cbv zeta. fold (has prot_ SYS_PROT_WRITE).
  replace (if size <? obj_size obj - offset then size else obj_size obj - offset) with (Z.min size (obj_size obj - offset)) by (zcase; lia).
  rewrite !u32_small by (call_consts; lia). destruct (prot_in_max prot_ Hp) as [P1 P2].
  apply add_area_runs; try done. intros _. cbn. lia.
Qed.

Lemma anon_call_runs c s size prot_ :
  caller_ok c -> 0 < size -> size mod 4096 = 0 -> USER_MMAP_BASE <= s -> s + size <= USER_INTERP_BASE -> s mod 4096 = 0 ->
  vacant (w_proc (c_world c)) s size -> lacks prot_ SYS_PROT_ALL = false ->
  runs (sys_mmap_anon_impl s size prot_) c (add_post c (new_area s (s + size) prot_ PROT_ALL PROCESS_VM_KIND_ANON 0 None 0 0 0 0)).
Proof.
  intros C Hsz Hm Hlo Hhi Ms Hv Hl. unfold sys_mmap_anon_impl. rewrite u32_small by (call_consts; lia). by apply add_area_runs.
Qed.

(** The flags and the length of a call of [mmap]. *)
Definition mmap_valid (length flags_ : Z) : bool :=
  (0 <? length) && (length <=? 2 ^ 32 - 4096)
  && negb (lacks flags_ (Z.lor (Z.lor SYS_MAP_PRIVATE SYS_MAP_FIXED) SYS_MAP_ANON)) && has flags_ SYS_MAP_PRIVATE.

Record mapped (c c' : caller) (r size : Z) (a : area) : Prop := Mapped {
  mp_stepped : stepped c c';
  mp_added : added L pds (c_world c) (c_world c') a;
  mp_next : mmap_next c' = Z.max (mmap_next c) (r + size);
  mp_brk : heap_brk c' = heap_brk c
}.

Lemma mmap_done c s size flags_ a w' addr :
  caller_ok c -> 0 < size -> size mod 4096 = 0 -> chosen c addr size flags_ s -> added L pds (c_world c) w' a ->
  runs (c <- gets id ;;
        (if (Z.land flags_ SYS_MAP_FIXED =? 0) || (mmap_next c <? u32 (s + size))
         then modify (set_mmap_next (u32 (s + size))) else ret tt) ;;;
        ret (i32 s)) (with_world w' c) (fun r c' => r = s /\ mapped c c' r size a).
Proof.
  intros C Hsz Hm [Hr Ha _ _ Hfirst] A. unfold in_region in Hr. apply runs_bind, runs_gets. unfold id. cbn [with_world mmap_next].
  rewrite u32_small by (call_consts; lia).
  assert (Hs : i32 s = s) by (unfold i32; rewrite u32_small by (call_consts; lia); rewrite (proj2 (Z.ltb_lt _ _)) by (call_consts; lia); done).
  assert (Hq : others_kept (pd (w_proc (c_world c))) (w_kernel (c_world c)) (w_kernel w')) by apply quiet_others, A.
  destruct C as [C1 C2 C3 C4 C5].
  destruct ((Z.land flags_ SYS_MAP_FIXED =? 0) || (mmap_next c <? s + size)) eqn:E.
  - apply runs_bind, runs_modify, runs_ret. split; [done|]. split; cbn; try done.
    + split; cbn; [|apply A|done]. constructor; cbn; try done; [apply A|]. right. call_consts. dlia.
    + destruct (Z.ltb_spec (mmap_next c) (s + size)) as [|Hge]; [lia|]. rewrite orb_false_r in E.
      assert (Ef : has flags_ SYS_MAP_FIXED = false) by (unfold has; by rewrite E).
      destruct (Hfirst Ef) as (k & Hk & -> & _). revert Hge. unfold first_place. destruct (Z.eqb_spec (mmap_next c) 0); call_consts; nia.
  - apply runs_bind, runs_ret, runs_ret. split; [done|]. apply orb_false_iff in E as [_ E]. split; cbn; try done; [|lia].
    split; cbn; [|apply A|done]. constructor; cbn; try done. apply A.
Qed.

(** Why a call of [mmap] fails, with the error it returns: the length or the flags, the
    place, the protection or the file, or a table of areas that cannot take another one.
    The reasons are tested in this order. *)
Inductive mmap_error (c : caller) (addr length prot_ flags_ fd offset : Z) : Z -> Prop :=
| MmapInvalid : mmap_valid length flags_ = false -> mmap_error c addr length prot_ flags_ fd offset (- EINVAL)
| MmapPlace e : mmap_valid length flags_ = true -> place_error c addr (PAGE_ALIGN length) flags_ e ->
    mmap_error c addr length prot_ flags_ fd offset e
| MmapRequest s e : mmap_valid length flags_ = true -> chosen c addr (PAGE_ALIGN length) flags_ s ->
    request c prot_ flags_ fd offset s (PAGE_ALIGN length) = inl e -> mmap_error c addr length prot_ flags_ fd offset (- e)
| MmapFull s a : mmap_valid length flags_ = true -> chosen c addr (PAGE_ALIGN length) flags_ s ->
    request c prot_ flags_ fd offset s (PAGE_ALIGN length) = inr a ->
    vm_area_capacity (w_proc (c_world c)) <= vm_area_count (w_proc (c_world c)) ->
    mmap_error c addr length prot_ flags_ fd offset (- ENOMEM).

Lemma place_error_negative c addr size flags_ e : place_error c addr size flags_ e -> e < 0.
Proof. by destruct 1; vm_compute. Qed.

Lemma request_error_positive c prot_ flags_ fd offset s size e : request c prot_ flags_ fd offset s size = inl e -> 0 < e.
Proof. unfold request. intros H. by repeat case_match; simplify_eq; vm_compute. Qed.

Lemma mmap_error_negative c addr length prot_ flags_ fd offset e : mmap_error c addr length prot_ flags_ fd offset e -> e < 0.
Proof.
  destruct 1 as [| | ? ? _ _ Hq%request_error_positive|]; [by vm_compute|by eapply place_error_negative|lia|by vm_compute].
Qed.

(** The area at the chosen place. *)
Lemma map_call_runs c addr s size prot_ flags_ fd offset :
  caller_ok c -> 0 < size -> size mod 4096 = 0 -> chosen c addr size flags_ s -> 0 <= prot_ < 2 ^ 32 -> 0 <= offset < 2 ^ 32 ->
  runs (if has flags_ SYS_MAP_ANON then
          if lacks prot_ SYS_PROT_ALL then ret (- EINVAL) else sys_mmap_anon_impl s size prot_
        else
          if Z.land prot_ SYS_PROT_READ =? 0 then ret (- EINVAL) else
          if lacks prot_ SYS_PROT_ALL then ret (- EINVAL) else sys_mmap_file_impl s size prot_ fd offset) c
    (map_call_post c (request c prot_ flags_ fd offset s size)).
Proof.
  intros C Hsz Hm Hch Hp Ho. destruct (ch_region _ _ _ _ _ Hch) as [Hlo Hhi]. pose proof (ch_aligned _ _ _ _ _ Hch) as Ms.
  pose proof (ch_vacant _ _ _ _ _ Hch) as Hv. destruct (has flags_ SYS_MAP_ANON) eqn:Ea.
  - unfold request. rewrite Ea. destruct (lacks prot_ SYS_PROT_ALL) eqn:Elp; [by apply runs_ret|]. apply anon_call_runs; done || lia.
  - destruct (Z.land prot_ SYS_PROT_READ =? 0) eqn:Erd.
    { unfold request, has at 2. rewrite Ea, Erd. cbn [negb orb]. apply runs_ret. by destruct (lacks prot_ SYS_PROT_ALL). }
    destruct (lacks prot_ SYS_PROT_ALL) eqn:Elp; [unfold request; rewrite Elp; by apply runs_ret|].
    apply file_call_runs; try done; [by apply prot_small|unfold has; by rewrite Erd].
Qed.

Definition mmap_post (c : caller) (addr length prot_ flags_ fd offset r : Z) (c' : caller) : Prop :=
  let size := PAGE_ALIGN length in
  (0 <= r /\ mmap_valid length flags_ = true /\ chosen c addr size flags_ r /\
     exists a, request c prot_ flags_ fd offset r size = inr a /\ mapped c c' r size a) \/
  (mmap_error c addr length prot_ flags_ fd offset r /\ exists w', c' = with_world w' c /\ moved L pds (c_world c) w').

(** The call from the choice of a place on. *)
Lemma mmap_place_runs c addr length prot_ flags_ fd offset :
  caller_ok c -> 0 <= addr < 2 ^ 32 -> 0 <= prot_ < 2 ^ 32 -> 0 <= offset < 2 ^ 32 -> mmap_valid length flags_ = true ->
  let size := PAGE_ALIGN length in 0 < size < 2 ^ 32 -> size mod 4096 = 0 ->
  runs (r <- sys_mmap_pick_start addr size flags_ ;;
        let '(rc, start) := r in
        if rc <? 0 then ret rc else
        rc <- (if negb (Z.land flags_ SYS_MAP_ANON =? 0) then
                 if lacks prot_ SYS_PROT_ALL then ret (- EINVAL) else sys_mmap_anon_impl start size prot_
               else
                 if Z.land prot_ SYS_PROT_READ =? 0 then ret (- EINVAL) else
                 if lacks prot_ SYS_PROT_ALL then ret (- EINVAL) else sys_mmap_file_impl start size prot_ fd offset) ;;
        if rc <? 0 then ret rc else
        c <- gets id ;;
        (if (Z.land flags_ SYS_MAP_FIXED =? 0) || (mmap_next c <? u32 (start + size))
         then modify (set_mmap_next (u32 (start + size))) else ret tt) ;;;
        ret (i32 start)) c (mmap_post c addr length prot_ flags_ fd offset).
Proof.
  intros C Ha Hp Ho Hval size Hsz Hm.
  assert (Hsame : exists w', c = with_world w' c /\ moved L pds (c_world c) w').
  { exists (c_world c). rewrite with_same_world. split; [done|]. apply moved_refl, C. }
  apply runs_bind. eapply runs_mono; [by apply (pick_runs c addr size flags_)|]. intros [rc s] c' [-> [He|[Hrc Hch]]]; cbn [fst snd] in *.
  { rewrite (proj2 (Z.ltb_lt rc 0)) by by eapply place_error_negative. apply runs_ret. right. split; [by apply MmapPlace|done]. }
  subst rc. change (0 <? 0) with false. cbv iota. fold (has flags_ SYS_MAP_ANON).
  apply runs_bind. eapply runs_mono; [apply (map_call_runs c addr); done || lia|]. cbv beta. intros rc c' Hpost.
  destruct (request c prot_ flags_ fd offset s size) as [e|a] eqn:Er; cbn [map_call_post] in Hpost.
  - destruct Hpost as [-> ->]. pose proof (request_error_positive _ _ _ _ _ _ _ _ Er). rewrite (proj2 (Z.ltb_lt (- e) 0)) by lia.
    apply runs_ret. right. split; [by eapply MmapRequest|done].
  - destruct Hpost as [(-> & w' & -> & A)|(-> & Hmv & Hfull)].
    + change (0 <? 0) with false. cbv iota. eapply runs_mono; [by eapply mmap_done; [| | |exact Hch|exact A]; try done; lia|].
      cbv beta. intros r c' [-> Mp]. left. destruct (ch_region _ _ _ _ _ Hch). split_and!; [call_consts; lia|done|done|]. by exists a.
    + change (- ENOMEM <? 0) with true. cbv iota. apply runs_ret. right. split; [by eapply MmapFull|done].
Qed.

Lemma mmap_runs c addr length prot_ flags_ fd offset :
  caller_ok c -> 0 <= addr < 2 ^ 32 -> 0 <= length < 2 ^ 32 -> 0 <= prot_ < 2 ^ 32 -> 0 <= offset < 2 ^ 32 ->
  runs (sys_mmap_impl addr length prot_ flags_ fd offset) c (mmap_post c addr length prot_ flags_ fd offset).
Proof.
  intros C Ha Hlen Hp Ho. unfold sys_mmap_impl. apply runs_bind, runs_gets. unfold id. rewrite (caller_pd c C).
  assert (Hbad : mmap_valid length flags_ = false -> runs (ret (- EINVAL)) c (mmap_post c addr length prot_ flags_ fd offset)).
  { intros Hv. apply runs_ret. right. split; [by apply MmapInvalid|]. exists (c_world c). rewrite with_same_world. split; [done|].
    apply moved_refl, C. }
  pose proof (mmap_place_runs c addr length prot_ flags_ fd offset C Ha Hp Ho) as Hgood.
  destruct (Z.eqb_spec length 0) as [->|Hne]; [by apply Hbad|].
  pose proof (page_align_wrap length ltac:(lia)) as Esz. revert Hbad Hgood. unfold mmap_valid. cbv zeta.
  destruct (Z.leb_spec length (2 ^ 32 - 4096)) as [Hle|Hgt]; intros Hbad Hgood.
  2:{ rewrite Esz. replace (u32 (length + 4095) / 4096 * 4096) with 0 by (unfold u32; dlia). apply Hbad. by rewrite andb_false_r. }
  rewrite u32_small in Esz by lia. assert (Hsz : length <= PAGE_ALIGN length < 2 ^ 32) by (rewrite Esz; dlia).
  assert (Hm : PAGE_ALIGN length mod 4096 = 0) by (rewrite Esz; dlia).
  rewrite (proj2 (Z.ltb_lt 0 length)) in Hbad, Hgood by lia. cbn [andb] in Hbad, Hgood.
  rewrite (proj2 (Z.eqb_neq (PAGE_ALIGN length) 0)), (proj2 (Z.ltb_ge (PAGE_ALIGN length) length)) by lia. cbn [orb].
  destruct (lacks flags_ _); cbn [negb andb] in Hbad, Hgood; [by apply Hbad|].
  change (has flags_ SYS_MAP_PRIVATE) with (negb (Z.land flags_ SYS_MAP_PRIVATE =? 0)) in Hbad, Hgood.
  destruct (Z.land flags_ SYS_MAP_PRIVATE =? 0); [by apply Hbad|]. apply Hgood; [done|lia|done].
Qed.

(** ** Unmapping and protecting *)

Lemma page_align_range length : 0 <= length < 2 ^ 32 -> 0 <= PAGE_ALIGN length < 2 ^ 32 /\ PAGE_ALIGN length mod 4096 = 0.
Proof. intros H. rewrite page_align_wrap by lia. pose proof (u32_range (length + 4095)). dlia. Qed.

Lemma munmap_runs c addr length :
  caller_ok c -> 0 <= addr < 2 ^ 32 -> 0 <= length < 2 ^ 32 ->
  let e := addr + PAGE_ALIGN length in
  runs (sys_munmap_impl L addr length) c (fun r c' => stepped c c' /\
    ((r = 0 /\ removed L pds (c_world c) (c_world c') addr e) \/ (r < 0 /\ moved L pds (c_world c) (c_world c')))).
Proof.
  intros C Ha Hl e. unfold sys_munmap_impl. apply runs_bind, runs_gets. unfold id. rewrite (caller_pd c C).
  assert (Hno : stepped c c /\ (- EINVAL = 0 /\ removed L pds (c_world c) (c_world c) addr e \/ - EINVAL < 0 /\ moved L pds (c_world c) (c_world c))).
  { split; [by apply stepped_refl|]. right. split; [by vm_compute|apply moved_refl, C]. }
  destruct (length =? 0); [by apply runs_ret|]. cbv zeta. destruct (page_align_range length Hl) as [Hr Hm].
  destruct (user_vm_range_ok addr (PAGE_ALIGN length)) eqn:E; cbn [negb]; [|by apply runs_ret].
  destruct (vm_range_spec _ _ Ha Hr Hm E) as (H1 & H2 & H3 & H4). rewrite u32_small by (call_consts; lia). fold e.
  apply runs_on_world. eapply runs_mono; [apply (remove_errno_runs L HL pds); [apply C|lia|unfold e; call_consts; lia]|].
  intros r w' [(-> & _ & R)|[(-> & _ & ->)|(-> & _ & Mv & _)]].
  - split; [|by left]. split; cbn; [apply with_world_ok; [done|apply R]|apply R|by eapply removed_others].
  - rewrite with_same_world. exact Hno.
  - split; [by apply moved_stepped|]. right. split; [by vm_compute|done].
Qed.

Lemma mprotect_runs c addr length v :
  caller_ok c -> 0 <= addr < 2 ^ 32 -> 0 <= length < 2 ^ 32 ->
  let e := addr + PAGE_ALIGN length in
  runs (sys_mprotect_impl L addr length v) c (fun r c' => stepped c c' /\
    ((r = 0 /\ may_protect (areas (w_proc (c_world c))) addr e v /\ reprotected L pds (c_world c) (c_world c') addr e v)
     \/ (r < 0 /\ moved L pds (c_world c) (c_world c')))).
Proof.
  intros C Ha Hl e. unfold sys_mprotect_impl. apply runs_bind, runs_gets. unfold id. rewrite (caller_pd c C).
  assert (Hno : forall r, r < 0 -> stepped c c /\ (r = 0 /\ may_protect (areas (w_proc (c_world c))) addr e v /\ reprotected L pds (c_world c) (c_world c) addr e v
    \/ r < 0 /\ moved L pds (c_world c) (c_world c))).
  { intros r Hr. split; [by apply stepped_refl|]. right. split; [done|apply moved_refl, C]. }
  destruct (length =? 0); [by apply runs_ret, Hno|]. cbv zeta. destruct (page_align_range length Hl) as [Hr Hm].
  destruct (user_vm_range_ok addr (PAGE_ALIGN length)) eqn:E; cbn [negb]; [|by apply runs_ret, Hno].
  destruct (lacks v SYS_PROT_ALL); [by apply runs_ret, Hno|].
  destruct (vm_range_spec _ _ Ha Hr Hm E) as (H1 & H2 & H3 & H4). rewrite u32_small by (call_consts; lia). fold e.
  apply runs_on_world. eapply runs_mono; [apply (protect_errno_runs L pds); [apply C|lia|unfold e; call_consts; lia]|].
  intros r w' [(-> & (_ & _ & Hmay) & R)|[(-> & _ & Mv)|(-> & _ & Mv & _)]].
  - split; [|by left]. split; cbn; [apply with_world_ok; [done|apply R]|apply R|by eapply reprotected_others].
  - split; [by apply moved_stepped|]. right. split; [by vm_compute|done].
  - split; [by apply moved_stepped|]. right. split; [by vm_compute|done].
Qed.

(** ** The break *)

(** Taking memory back splits the area of the heap; [process_vm_remove_range] relies on
    room for it in the table. *)
Definition brk_room (c : caller) (new : Z) : Prop :=
  let p := w_proc (c_world c) in
  new < heap_brk c -> vm_areas p <> 0 -> needed_for p (PAGE_ALIGN new) (PAGE_ALIGN (heap_brk c)) <= vm_area_capacity p.

Definition heap_area (a e : Z) : area := new_area a e 3 PROT_ALL PROCESS_VM_KIND_HEAP 0 None 0 0 0 0.

Definition brk_in_range (new : Z) : Prop := USER_HEAP_BASE <= new < USER_STACK_TOP - USER_STACK_SIZE.

(** The break is moved: whole pages appear or go away. *)
Record rebroken (c c' : caller) (new : Z) : Prop := Rebroken {
  rb_range : brk_in_range new;
  rb_brk : heap_brk c' = new;
  rb_grow : PAGE_ALIGN (heap_brk c) < PAGE_ALIGN new ->
    added L pds (c_world c) (c_world c') (heap_area (PAGE_ALIGN (heap_brk c)) (PAGE_ALIGN new));
  rb_shrink : PAGE_ALIGN new < PAGE_ALIGN (heap_brk c) ->
    removed L pds (c_world c) (c_world c') (PAGE_ALIGN new) (PAGE_ALIGN (heap_brk c));
  rb_same : PAGE_ALIGN new = PAGE_ALIGN (heap_brk c) -> c_world c' = c_world c
}.

Lemma set_brk_ok c w new : caller_ok c -> vm_inv L pds w -> brk_in_range new -> caller_ok (set_heap_brk new (with_world w c)).
Proof. intros [? ? ? ? ?] I Hr. by constructor. Qed.

Lemma remove_any_runs w a e :
  vm_inv L pds w -> 0 <= a < e -> e < 2 ^ 32 -> a mod 4096 = 0 -> e mod 4096 = 0 ->
  (vm_areas (w_proc w) <> 0 -> needed_for (w_proc w) a e <= vm_area_capacity (w_proc w)) ->
  runs (process_vm_remove_range L a e) w (fun b w' => b = true /\ removed L pds w w' a e).
Proof.
  intros I Hae He Ma Me Hroom. destruct (Z.eq_dec (vm_areas (w_proc w)) 0) as [E|E]; [|by apply remove_range_runs; auto].
  unfold process_vm_remove_range. rewrite (proj2 (Z.leb_gt _ _)) by lia. rewrite !page_offset_mod, Ma, Me. cbn [Z.eqb negb orb].
  apply runs_bind, runs_proc. rewrite E. apply runs_ret. split; [done|]. by apply removed_null.
Qed.

Definition brk_post (c : caller) (new r : Z) (c' : caller) : Prop :=
  stepped c c' /\ r = heap_brk c' /\ mmap_next c' = mmap_next c /\
  (rebroken c c' new \/ (heap_brk c' = heap_brk c /\ moved L pds (c_world c) (c_world c') /\
     (brk_in_range new -> PAGE_ALIGN (heap_brk c) < PAGE_ALIGN new /\
        refused L pds (c_world c) (c_world c') (heap_area (PAGE_ALIGN (heap_brk c)) (PAGE_ALIGN new))))).

Lemma brk_grow_runs c new :
  caller_ok c -> brk_in_range new -> heap_brk c < new ->
  let a := PAGE_ALIGN (heap_brk c) in let e := PAGE_ALIGN new in
  runs (ok <- (if a <? e then on_world (process_vm_add a e 3 PROT_ALL PROCESS_VM_KIND_HEAP 0 None 0 0 0 0) else ret true) ;;
        if negb ok then ret (heap_brk c) else modify (set_heap_brk new) ;;; ret new) c (brk_post c new).
Proof.
  intros C Hr Hlt a e. pose proof (co_brk _ C) as Hb. unfold brk_in_range in Hr.
  assert (Ha : a = (heap_brk c + 4095) / 4096 * 4096) by (apply page_align_small; call_consts; lia).
  assert (He : e = (new + 4095) / 4096 * 4096) by (apply page_align_small; call_consts; lia).
  apply runs_bind. destruct (Z.ltb_spec a e) as [Hae|Hae].
  - apply runs_on_world. eapply runs_mono; [apply (add_runs L pds); [apply C|done]|]. cbv beta.
    assert (V : add_valid a e 3 PROT_ALL) by (constructor; try done; call_consts; dlia).
    intros b w' [(-> & _ & A)|[(-> & _ & Rf)|(_ & HV & _)]]; [..|done]; cbn [negb].
    + apply runs_bind, runs_modify, runs_ret. split_and!; try done.
      * split; cbn; [apply set_brk_ok; [done|apply A|done]|apply A|apply quiet_others, A].
      * left. constructor; cbn; try done; fold a e; lia.
    + apply runs_ret. pose proof Rf as [Mv _]. split_and!; [by apply moved_stepped|done|done|]. right. by split_and!.
  - apply runs_ret, runs_bind, runs_modify, runs_ret. assert (Eae : e = a) by dlia. split_and!; try done.
    + split; cbn; [|done|by apply quiet_others, quiet_refl]. pose proof (set_brk_ok c (c_world c) new C (co_inv _ C) Hr) as H.
      by rewrite with_same_world in H.
    + left. constructor; cbn; try done; fold a e; lia.
Qed.

Lemma brk_shrink_runs c new :
  caller_ok c -> brk_in_range new -> new < heap_brk c -> brk_room c new ->
  let a := PAGE_ALIGN new in let e := PAGE_ALIGN (heap_brk c) in
  runs (ok <- (if a <? e then on_world (process_vm_remove_range L a e) else ret true) ;;
        if negb ok then ret (heap_brk c) else modify (set_heap_brk new) ;;; ret new) c (brk_post c new).
Proof.
  intros C Hr Hlt Hroom a e. pose proof (co_brk _ C) as Hb. unfold brk_in_range in Hr.
  assert (Ha : a = (new + 4095) / 4096 * 4096) by (apply page_align_small; call_consts; lia).
  assert (He : e = (heap_brk c + 4095) / 4096 * 4096) by (apply page_align_small; call_consts; lia).
  apply runs_bind. destruct (Z.ltb_spec a e) as [Hae|Hae].
  - apply runs_on_world. eapply runs_mono; [apply (remove_any_runs (c_world c) a e); [apply C|call_consts; dlia..|by apply Hroom]|].
    intros b w' [-> R]. cbn [negb]. apply runs_bind, runs_modify, runs_ret. split_and!; try done.
    + split; cbn; [apply set_brk_ok; [done|apply R|done]|apply R|by eapply removed_others].
    + left. constructor; cbn; try done; fold a e; lia.
  - apply runs_ret, runs_bind, runs_modify, runs_ret. assert (Eae : e = a) by dlia. split_and!; try done.
    + split; cbn; [|done|by apply quiet_others, quiet_refl]. pose proof (set_brk_ok c (c_world c) new C (co_inv _ C) Hr) as H.
      by rewrite with_same_world in H.
    + left. constructor; cbn; try done; fold a e; lia.
Qed.

Lemma brk_runs c new : caller_ok c -> brk_room c new -> runs (sys_brk_impl L new) c (brk_post c new).
Proof.
  intros C Hroom. unfold sys_brk_impl. apply runs_bind, runs_gets. unfold id. rewrite (caller_pd c C), (co_base _ C).
  assert (Hno : ~ brk_in_range new -> runs (ret (heap_brk c)) c (brk_post c new)).
  { intros Hn. apply runs_ret. split_and!; [by apply stepped_refl|done..|]. right. split_and!; [done|apply moved_refl, C|done]. }
  destruct (Z.eqb_spec new 0) as [->|]; [apply Hno; unfold brk_in_range; call_consts; lia|].
  destruct ((new <? USER_HEAP_BASE) || (USER_STACK_TOP - USER_STACK_SIZE <=? new)) eqn:E; [apply Hno; unfold brk_in_range; lia|].
  assert (Hr : brk_in_range new) by (unfold brk_in_range; lia).
  destruct (Z.eqb_spec new (heap_brk c)) as [->|].
  { apply runs_ret. split_and!; [by apply stepped_refl|done..|]. left. by constructor; try done; lia. }
  destruct (Z.ltb_spec (heap_brk c) new); [by apply brk_grow_runs|apply brk_shrink_runs; try done; lia].
Qed.
End MemCalls.
