(* ===== verification/MemCallsSpec.v ===== *)
(** * Memory system calls: contracts

    The contracts of [mmap] and [brk], and isolation: no sequence of memory system
    calls and page faults of a process touches the memory of another one. *)
From S2P Require Import Prelude BootInfo Pmm Memory Paging AddressSpace AddressOps AddressLife AddressClone AddressProps.
From S2P Require Import Kalloc KallocRep KallocOps KallocProps KallocLarge KallocFree KernelVm Klib Arrays.
From S2P Require Import VmArea VmTable VmOps VmProps VmSpec Fault FaultProps FaultSpec MemCalls MemCallsProps.
From Stdlib Require Import ZArith Lia ZifyBool Bool.
From stdpp Require Import base numbers gmap list.
Local Open Scope Z_scope.
Local Open Scope kernel_scope.

(** ** Sequences of calls and faults *)

Inductive mem_call :=
| CallBrk (new_brk : Z)
| CallMmap (addr length prot flags fd offset : Z)
| CallMunmap (addr length : Z)
| CallMprotect (addr length prot : Z)
| PageFault (addr err : Z).

Definition word32 (z : Z) : bool := (0 <=? z) && (z <? 2 ^ 32).

(** The arguments are 32-bit values. *)
Definition call_typed (x : mem_call) : bool :=
  match x with
  | CallBrk n => word32 n
  | CallMmap a l p f _ o => word32 a && word32 l && word32 p && word32 f && word32 o
  | CallMunmap a l => word32 a && word32 l
  | CallMprotect a l p => word32 a && word32 l && word32 p
  | PageFault a e => word32 a && word32 e
  end.

(** There is room in the table when the break moves down. *)
Definition call_room (x : mem_call) (c : caller) : bool :=
  match x with
  | CallBrk new =>
      let p := w_proc (c_world c) in
      (heap_brk c <=? new) || (vm_areas p =? 0) || (needed_for p (PAGE_ALIGN new) (PAGE_ALIGN (heap_brk c)) <=? vm_area_capacity p)
  | _ => true
  end.

Section Calls.
Context (L : layout) (fs : vfs).

Definition exec_call (x : mem_call) : M caller Z :=
  match x with
  | CallBrk n => sys_brk_impl L n
  | CallMmap a l p f fd o => sys_mmap_impl a l p f fd o
  | CallMunmap a l => sys_munmap_impl L a l
  | CallMprotect a l p => sys_mprotect_impl L a l p
  | PageFault a e => b <- on_world (process_vm_handle_fault L fs a e) ;; ret (Z.b2z b)
  end.

Fixpoint exec_calls (l : list mem_call) : M caller unit :=
  match l with
  | [] => ret tt
  | x :: l => exec_call x ;;; exec_calls l
  end.

(** [call_room] at every call of a sequence. *)
Fixpoint calls_room (l : list mem_call) (c : caller) : bool :=
  match l with
  | [] => true
  | x :: l => call_room x c && match exec_call x c with Some (_, c') => calls_room l c' | None => true end
  end.

Context (HL : layout_ok L) (content : cstring -> Z -> Z) `{FS : !FileSystem (kernel_page_directory L) fs content} (pds : gset Z).

Lemma fault_stepped c addr err :
  caller_ok L pds c -> 0 <= addr < 2 ^ 32 ->
  runs_or (has err 1 = false) (on_world (process_vm_handle_fault L fs addr err)) c (fun _ c' => stepped L pds c c').
Proof.
  intros C Ha. pose proof (co_inv _ _ _ C) as I. pose proof I as [(h & pts & ext & W) Hok _].
  pose proof (handle_runs L pds pts fs content h ext (c_world c) addr err W Hok Ha) as H. cbv zeta in H.
  unfold runs_or, on_world in *. destruct (process_vm_handle_fault L fs addr err (c_world c)) as [[r w']|].
  - destruct (find_area (areas (w_proc (c_world c))) (addr / 4096 * 4096)) as [a|] eqn:Ef.
    2:{ destruct H as [_ ->]. rewrite with_same_world. by apply stepped_refl. }
    destruct H as (O & _). pose proof (outcome_inv L pds h pts ext _ a _ _ r w' W I Ef O) as I'.
    destruct O as (Hp & h' & pts' & ext' & _ & _ & O).
    split; cbn; [by apply with_world_ok|by rewrite Hp|]. destruct r; [destruct O as [P _]; by eapply placed_others|by apply quiet_others].
  - by destruct H as (a & _ & _ & E & _).
Qed.

Lemma call_stepped x c :
  caller_ok L pds c -> call_typed x = true -> call_room x c = true ->
  runs_or (exists addr err, x = PageFault addr err /\ has err 1 = false) (exec_call x) c (fun _ c' => stepped L pds c c').
Proof.
  intros C Ht Hr. destruct x as [n|a l p f fd o|a l|a l p|a e]; cbn [call_typed call_room exec_call] in *; unfold word32 in Ht.
  - apply runs_runs_or. eapply runs_mono; [apply brk_runs; try done|by intros ? ? []]. intros H1 H2. cbv zeta in Hr.
    rewrite (proj2 (Z.leb_gt _ _)), (proj2 (Z.eqb_neq _ 0) H2) in Hr by done. cbn [orb] in Hr. lia.
  - apply runs_runs_or. eapply runs_mono; [apply (mmap_runs L pds); try done; lia|]. cbv beta.
    intros r c' [(_ & _ & _ & ar & _ & Mp)|(_ & w' & -> & Mv)]; [apply Mp|by apply moved_stepped].
  - apply runs_runs_or. eapply runs_mono; [apply (munmap_runs L HL pds); try done; lia|by intros ? ? []].
  - apply runs_runs_or. eapply runs_mono; [apply (mprotect_runs L pds); try done; lia|by intros ? ? []].
  - pose proof (fault_stepped c a e C ltac:(lia)) as H. unfold runs_or, bind in *.
    destruct (on_world _ c) as [[b c']|]; [done|]. by exists a, e.
Qed.

Lemma calls_stepped l c :
  caller_ok L pds c -> Forall (fun x => call_typed x = true) l -> calls_room l c = true ->
  runs_or (exists addr err, PageFault addr err ∈ l /\ has err 1 = false) (exec_calls l) c (fun _ c' => stepped L pds c c').
Proof.
  revert c. induction l as [|x l IH]; intros c C Ht Hr; [by apply stepped_refl|].
  apply Forall_cons in Ht as [Hx Ht]. cbn [calls_room exec_calls] in *. apply andb_true_iff in Hr as [Hrx Hr].
  pose proof (call_stepped x c C Hx Hrx) as H. unfold runs_or, bind in *. destruct (exec_call x c) as [[r c1]|].
  - specialize (IH c1 (sp_ok _ _ _ _ H) Ht Hr). destruct (exec_calls l c1) as [[u c2]|]; [by eapply stepped_trans|].
    destruct IH as (a & e & Hin & He). exists a, e. split; [by apply elem_of_cons; right|done].
  - destruct H as (a & e & -> & He). exists a, e. split; [apply elem_of_cons; by left|done].
Qed.
End Calls.

(** ** A concrete caller *)

Definition demo_caller : caller :=
  Caller demo_world USER_HEAP_BASE USER_HEAP_BASE USER_MMAP_BASE [Handle true 1 true false 0x300000 [47; 97]] (fun _ => VfsFileObject false 0x1800).

Lemma demo_caller_ok : caller_ok layout_example fresh_pds demo_caller.
Proof.
  constructor; cbn.
  - exact demo_world_inv.
  - reflexivity.
  - call_consts. lia.
  - right. call_consts. split; [lia|reflexivity].
  - lia.
Qed.

(** ** Properties *)

(** C12: isolation of processes.  Whatever sequence of [brk], [mmap], [munmap] and
    [mprotect] calls and page faults a process makes, with whatever arguments but with
    room in the table of areas for the split whenever the break moves down (with a full
    table the split damages it, see [split_at_growth_overlaps]), every
    page of every other process keeps its mapping and its contents, and the invariant
    of the caller holds: its table of areas and the kernel heap are well formed, frames
    are counted exactly, its pages lie in its areas and are writable only where the
    area is, and the break and the mapping region stay in their bounds.  The machine
    halts only in the first access to a page. *)
Theorem memory_calls_isolated L fs content pds c calls :
  layout_ok L -> FileSystem (kernel_page_directory L) fs content -> caller_ok L pds c ->
  Forall (fun x => call_typed x = true) calls -> calls_room L fs calls c = true ->
  match exec_calls L fs calls c with
  | Some (_, c') =>
      caller_ok L pds c' /\ pd (w_proc (c_world c')) = pd (w_proc (c_world c)) /\
      others_kept pds (pd (w_proc (c_world c))) (w_kernel (c_world c)) (w_kernel (c_world c'))
  | None => exists addr err, PageFault addr err ∈ calls /\ has err 1 = false
  end.
Proof.
  intros HL FS C Ht Hr. pose proof (calls_stepped L fs HL content pds calls c C Ht Hr) as H. unfold runs_or in H.
  destruct (exec_calls L fs calls c) as [[u c']|]; [by destruct H|done].
Qed.

Definition demo_calls : list mem_call :=
  [CallMmap 0 0x2000 3 0x22 (-1) 0; PageFault 0x4001010 6; CallBrk 0x10002000; CallBrk 0x10000800; CallMunmap 0x4000000 0x1000].

Lemma memory_calls_isolated_witness :
  match exec_calls layout_example byte_fs demo_calls demo_caller with
  | Some (_, c') => caller_ok layout_example fresh_pds c' /\ heap_brk c' = 0x10000800 /\ mmap_next c' = 0x4002000
  | None => False
  end.
Proof.
  assert (Hr : calls_room layout_example byte_fs demo_calls demo_caller = true) by (vm_compute; reflexivity).
  assert (Hd : match exec_calls layout_example byte_fs demo_calls demo_caller with
    | Some (_, c') => (heap_brk c', mmap_next c') | None => (0, 0) end = (0x10000800, 0x4002000)) by (vm_compute; reflexivity).
  pose proof (memory_calls_isolated layout_example byte_fs byte_content fresh_pds demo_caller demo_calls layout_example_ok
    (byte_fs_laws _) demo_caller_ok ltac:(repeat constructor) Hr) as H.
  destruct (exec_calls _ _ _ _) as [[u c']|]; [|discriminate Hd]. destruct H as (H1 & _ & _). injection Hd as -> ->.
  split; [exact H1|]. split; reflexivity.
Defined.

(** C13: [mmap].  For all arguments the call terminates with an error or an address.
    An address is page-aligned in the mapping region and the range was vacant: the
    given one with MAP_FIXED, otherwise the first vacant one in steps of the size behind
    the last mapping.  The area of the call, anonymous or with the bytes of the open
    file from the offset up to its end, is added there; all other areas, mappings and
    pages are as before.  On an error the memory is as before, and the error is that of
    the first failed test: [-EINVAL] for a length of 0 or close to [2^32], for unsupported
    flags and for a misaligned fixed address; [-ENOMEM] for a fixed range outside of the
    mapping region and when no place is vacant, [-EEXIST] for a fixed range that is taken;
    [-EINVAL] for the protection and the offset, [-EBADF] for the file; [-ENOMEM] when the
    table of areas is full. *)
Theorem sys_mmap_correct L pds c addr length prot_ flags_ fd offset :
  caller_ok L pds c -> 0 <= addr < 2 ^ 32 -> 0 <= length < 2 ^ 32 -> 0 <= prot_ < 2 ^ 32 -> 0 <= offset < 2 ^ 32 ->
  let size := PAGE_ALIGN length in
  exists r c', sys_mmap_impl addr length prot_ flags_ fd offset c = Some (r, c') /\ caller_ok L pds c' /\
    ((0 <= r /\ mmap_valid length flags_ = true /\ chosen c addr size flags_ r /\
        exists a, request c prot_ flags_ fd offset r size = inr a /\ mapped L pds c c' r size a) \/
     (r < 0 /\ mmap_error c addr length prot_ flags_ fd offset r /\
        moved L pds (c_world c) (c_world c') /\ heap_brk c' = heap_brk c /\ mmap_next c' = mmap_next c)).
Proof.
  intros C Ha Hl Hp Ho size.
  destruct (runs_elim _ _ _ (mmap_runs L pds c addr length prot_ flags_ fd offset C Ha Hl Hp Ho)) as (r & c' & E & H).
  exists r, c'. split; [done|]. destruct H as [H|(He & w' & -> & Mv)].
  - pose proof H as (_ & _ & _ & a & _ & Mp). split; [apply Mp|by left].
  - split; [by apply (moved_stepped L pds)|]. right. split_and!; try done. by eapply mmap_error_negative.
Qed.

Lemma sys_mmap_correct_witness :
  exists c', sys_mmap_impl 0 0x1000 5 2 0 0x1000 demo_caller = Some (0x4000000, c') /\
    backing_at (areas (w_proc (c_world c'))) 0x4000100 = Some 0x1100 /\ backing_at (areas (w_proc (c_world c'))) 0x4000900 = None.
Proof.
  assert (Hr : match sys_mmap_impl 0 0x1000 5 2 0 0x1000 demo_caller with Some (r, _) => r | None => 0 end = 0x4000000)
    by (vm_compute; reflexivity).
  destruct (sys_mmap_correct layout_example fresh_pds demo_caller 0 0x1000 5 2 0 0x1000 demo_caller_ok
    ltac:(lia) ltac:(lia) ltac:(lia) ltac:(lia)) as (r & c' & E & _ & H). rewrite E in Hr. subst r.
  destruct H as [(_ & _ & _ & a & Ea & Mp)|(F & _)]; [|discriminate F].
  assert (Eq : request demo_caller 5 2 0 0x1000 0x4000000 (PAGE_ALIGN 0x1000)
    = inr (VmArea 0x4000000 0x4001000 5 5 PROCESS_VM_KIND_FILE_PRIVATE 0 0x4000000 0x4000800 0x1000 0x1800 [47; 97])) by (vm_compute; reflexivity).
  rewrite Eq in Ea. apply (inj inr) in Ea. subst a.
  exists c'. split; [exact E|]. pose proof (ad_backing _ _ _ _ _ (mp_added _ _ _ _ _ _ _ Mp)) as Hb.
  split; rewrite Hb; vm_compute; reflexivity.
Defined.

(** The heap region has heap areas exactly on the pages up to the break. *)
Definition heap_covered (c : caller) : Prop := forall x, USER_HEAP_BASE <= x < USER_STACK_TOP - USER_STACK_SIZE ->
  (at_kind <$> attr_at (areas (w_proc (c_world c))) x) = Some PROCESS_VM_KIND_HEAP <-> x < PAGE_ALIGN (heap_brk c).

Lemma rebroken_covered L pds c c' new : caller_ok L pds c -> rebroken L pds c c' new -> heap_covered c -> heap_covered c'.
Proof.
  intros C [Hr Hb Hg Hs He] Hc x Hx. specialize (Hc x Hx). rewrite Hb. pose proof (co_brk _ _ _ C) as Hbrk. unfold brk_in_range in Hr.
  assert (Ha : 0 <= PAGE_ALIGN (heap_brk c)) by (rewrite page_align_small by (call_consts; lia); call_consts; dlia).
  destruct (Z.lt_trichotomy (PAGE_ALIGN (heap_brk c)) (PAGE_ALIGN new)) as [Hlt|[E|Hlt]].
  - rewrite (ad_attr _ _ _ _ _ (Hg Hlt)). destruct (covers _ x) eqn:Ec.
    + apply covers_iff in Ec. cbn in Ec |- *. split; [intros _; lia|done].
    + apply covers_false in Ec. cbn in Ec. rewrite Hc. lia.
  - rewrite He, Hc by done. lia.
  - rewrite (rm_attr _ _ _ _ _ _ (Hs Hlt)). unfold in_range. destruct (_ && _) eqn:Ec; [split; [done|lia]|]. rewrite Hc. lia.
Qed.

(** C14: [brk], called with room in the table of areas for the split when the break moves
    down (without it the table is damaged, see [split_at_growth_overlaps]).  The call
    returns the break that is in force afterwards.  A break inside of the heap region is
    taken: whole pages between the old and the new break get an anonymous writable area,
    or lose their area and their frames; nothing else changes, and if the heap areas were
    exactly the pages up to the old break they are exactly those up to the new one.
    Otherwise, or when the pages are not vacant or the table of areas is full, the break
    and the memory stay as they are. *)
Theorem sys_brk_correct L pds c new :
  layout_ok L -> caller_ok L pds c -> brk_room c new ->
  exists r c', sys_brk_impl L new c = Some (r, c') /\ caller_ok L pds c' /\ r = heap_brk c' /\ mmap_next c' = mmap_next c /\
    (rebroken L pds c c' new /\ (heap_covered c -> heap_covered c') \/
     heap_brk c' = heap_brk c /\ moved L pds (c_world c) (c_world c') /\
     (brk_in_range new -> refused L pds (c_world c) (c_world c') (heap_area (PAGE_ALIGN (heap_brk c)) (PAGE_ALIGN new)))).
Proof.
  intros HL C Hroom. destruct (runs_elim _ _ _ (brk_runs L HL pds c new C Hroom)) as (r & c' & E & S & Er & En & H).
  exists r, c'. split_and!; [done|apply S|done|done|]. destruct H as [H|(H1 & H2 & H3)]; [left; split; [done|by eapply rebroken_covered]|right].
  split_and!; [done|done|]. intros Hr. by apply H3.
Qed.

Lemma sys_brk_correct_witness :
  exists c', sys_brk_impl layout_example 0x10001800 demo_caller = Some (0x10001800, c') /\
    attr_at (areas (w_proc (c_world c'))) 0x10001FFF = Some (Attr 3 7 PROCESS_VM_KIND_HEAP 0 0 []).
Proof.
  assert (Hr : match sys_brk_impl layout_example 0x10001800 demo_caller with Some (r, _) => r | None => 0 end = 0x10001800)
    by (vm_compute; reflexivity).
  assert (Hroom : brk_room demo_caller 0x10001800) by (intros Hlt; vm_compute in Hlt; discriminate Hlt).
  destruct (sys_brk_correct layout_example fresh_pds demo_caller 0x10001800 layout_example_ok demo_caller_ok Hroom)
    as (r & c' & E & _ & Er & _ & H). rewrite E in Hr. subst r. exists c'. split; [exact E|].
  destruct H as [[R _]|(F & _)]; [|rewrite <- Er in F; vm_compute in F; discriminate F].
  rewrite (ad_attr _ _ _ _ _ (rb_grow _ _ _ _ _ R ltac:(vm_compute; reflexivity))). vm_compute. reflexivity.
Defined.
