(* ===== verification/Task.v ===== *)
(** * Processes and the state the scheduler works on

    The fields of [process_t] ([src/src/kernel/process.h]) that the wait queues, the
    timer and the scheduler use, the objects they link (wait nodes, wait queues, the
    process registry), and access to them.  An object is named by its address; access
    to an address that is no object of the kind halts the machine. *)
From S2P Require Import Prelude BootInfo Pmm Memory Paging Kalloc.
From Stdlib Require Import ZArith Lia ZifyBool Bool.
From stdpp Require Import base numbers gmap list.
Local Open Scope Z_scope.
Local Open Scope kernel_scope.

Inductive process_state_t :=
  | PROCESS_STATE_UNUSED
  | PROCESS_STATE_RUNNING
  | PROCESS_STATE_EXITED
  | PROCESS_STATE_ZOMBIE
  | PROCESS_STATE_WAITING
  | PROCESS_STATE_SLEEPING
  | PROCESS_STATE_STOPPED.

#[export] Instance process_state_eq_dec : EqDecision process_state_t.
Proof. solve_decision. Defined.

Definition PROCESS_HANDLE_KIND_TIMERFD : Z := 5.
Definition PROCESS_HANDLE_KIND_SIGNALFD : Z := 6.
Definition PROCESS_FD_LIMIT_HARD : Z := 256.

Record fd_entry := FdEntry {
  valid : Z;
  fd_kind : Z;
  aux_frame : Z;
  timer_deadline : Z
}.
Definition zero_fd : fd_entry := FdEntry 0 0 0 0.
Definition SIZEOF_FD_ENTRY : Z := 208.

Record process_t := Process {
  proc_pd : Z;
  kernel_stack_frame : Z;
  kernel_stack_frames : Z;
  pid : Z;
  parent_pid : Z;
  pgid : Z;
  sched_esp : Z;
  cpu_ticks : Z;
  state : process_state_t;
  sleep_until : Z;
  fds : Z;
  fd_entries : list fd_entry;
  fd_capacity : Z;
  fd_limit : Z;
  fd_table_frame : Z;
  fd_table_frames : Z
}.

Definition set_run (st : process_state_t) (until : Z) (p : process_t) : process_t :=
  Process (proc_pd p) (kernel_stack_frame p) (kernel_stack_frames p) (pid p) (parent_pid p) (pgid p) (sched_esp p)
    (cpu_ticks p) st until (fds p) (fd_entries p) (fd_capacity p) (fd_limit p) (fd_table_frame p) (fd_table_frames p).
Definition set_esp (esp ticks : Z) (p : process_t) : process_t :=
  Process (proc_pd p) (kernel_stack_frame p) (kernel_stack_frames p) (pid p) (parent_pid p) (pgid p) esp ticks
    (state p) (sleep_until p) (fds p) (fd_entries p) (fd_capacity p) (fd_limit p) (fd_table_frame p) (fd_table_frames p).

(** A node of the pool of [wait.c]; nodes link to each other by their index. *)
Record wait_node := WaitNode {
  w_queue : Z;
  w_proc : Z;
  w_next : option Z
}.
Definition zero_node : wait_node := WaitNode 0 0 None.

(** The static variables of [scheduler.c]; [s_table] points to an array with the
    contents [s_slots]. *)
Record sched := Sched {
  s_table : Z;
  s_slots : list Z;
  s_count : Z;
  s_capacity : Z;
  s_current_idx : Z;
  s_tick_count : Z;
  s_boot_esp : Z
}.

(** The static variables of [timer.c]. *)
Record timer := Timer {
  timer_ticks : Z;
  timer_hz : Z;
  realtime_base_seconds : Z
}.

(** What [sched_switch] loads: the kernel stack pointer, the page directory and the
    stack for the next entry into the kernel. *)
Record context := Context_ {
  c_esp : Z;
  c_cr3 : Z;
  c_esp0 : Z
}.

Record sys := Sys {
  y_kernel : kernel;
  y_procs : gmap Z process_t;
  y_nodes : list wait_node;
  y_heads : gmap Z (option Z);
  y_registry : option (list Z);
  y_sched : sched;
  y_timer : timer;
  y_cpu : context
}.

Definition set_kernel (k : kernel) (y : sys) : sys :=
  Sys k (y_procs y) (y_nodes y) (y_heads y) (y_registry y) (y_sched y) (y_timer y) (y_cpu y).
Definition set_procs (ps : gmap Z process_t) (y : sys) : sys :=
  Sys (y_kernel y) ps (y_nodes y) (y_heads y) (y_registry y) (y_sched y) (y_timer y) (y_cpu y).
Definition set_nodes (ns : list wait_node) (y : sys) : sys :=
  Sys (y_kernel y) (y_procs y) ns (y_heads y) (y_registry y) (y_sched y) (y_timer y) (y_cpu y).
Definition set_heads (hs : gmap Z (option Z)) (y : sys) : sys :=
  Sys (y_kernel y) (y_procs y) (y_nodes y) hs (y_registry y) (y_sched y) (y_timer y) (y_cpu y).
Definition set_sched (s : sched) (y : sys) : sys :=
  Sys (y_kernel y) (y_procs y) (y_nodes y) (y_heads y) (y_registry y) s (y_timer y) (y_cpu y).
Definition set_timer (t : timer) (y : sys) : sys :=
  Sys (y_kernel y) (y_procs y) (y_nodes y) (y_heads y) (y_registry y) (y_sched y) t (y_cpu y).
Definition set_cpu (c : context) (y : sys) : sys :=
  Sys (y_kernel y) (y_procs y) (y_nodes y) (y_heads y) (y_registry y) (y_sched y) (y_timer y) c.

Definition some_or_halt {S A} (o : option A) : M S A := match o with Some a => ret a | None => halt end.

(** [*p] for a process pointer. *)
Definition get_proc (p : Z) : M sys process_t := o <- gets (fun y => y_procs y !! p) ;; some_or_halt o.
Definition upd_proc (p : Z) (f : process_t -> process_t) : M sys unit :=
  r <- get_proc p ;; modify (fun y => set_procs (<[p := f r]> (y_procs y)) y).

(** [queue->head]. *)
Definition get_head (q : Z) : M sys (option Z) := o <- gets (fun y => y_heads y !! q) ;; some_or_halt o.
Definition put_head (q : Z) (h : option Z) : M sys unit :=
  get_head q ;;; modify (fun y => set_heads (<[q := h]> (y_heads y)) y).

Definition get_node (i : Z) : M sys wait_node := gets (fun y => zget zero_node (y_nodes y) i).
Definition put_node (i : Z) (n : wait_node) : M sys unit := modify (fun y => set_nodes (zset (y_nodes y) i n) y).

Definition on_alloc {A} (m : M kernel A) : M sys A := fun y =>
  match m (y_kernel y) with Some (a, k) => Some (a, set_kernel k y) | None => None end.

(** ** Rules *)

Lemma runs_some_or_halt {S A} (o : option A) a (s : S) (Q : A -> S -> Prop) : o = Some a -> Q a s -> runs (some_or_halt o) s Q.
Proof. intros ->. apply runs_ret. Qed.

Lemma runs_get_proc p r y (Q : process_t -> sys -> Prop) : y_procs y !! p = Some r -> Q r y -> runs (get_proc p) y Q.
Proof. intros E HQ. apply runs_bind, runs_gets. by eapply runs_some_or_halt. Qed.

Lemma runs_upd_proc p f r y (Q : unit -> sys -> Prop) :
  y_procs y !! p = Some r -> Q tt (set_procs (<[p := f r]> (y_procs y)) y) -> runs (upd_proc p f) y Q.
Proof. intros E HQ. apply runs_bind, (runs_get_proc p r); [done|]. by apply runs_modify. Qed.

Lemma runs_get_head q h y (Q : option Z -> sys -> Prop) : y_heads y !! q = Some h -> Q h y -> runs (get_head q) y Q.
Proof. intros E HQ. apply runs_bind, runs_gets. by eapply runs_some_or_halt. Qed.

Lemma runs_put_head q h h0 y (Q : unit -> sys -> Prop) :
  y_heads y !! q = Some h0 -> Q tt (set_heads (<[q := h]> (y_heads y)) y) -> runs (put_head q h) y Q.
Proof. intros E HQ. apply runs_bind, (runs_get_head q h0); [done|]. by apply runs_modify. Qed.

Lemma runs_get_node i y (Q : wait_node -> sys -> Prop) : Q (zget zero_node (y_nodes y) i) y -> runs (get_node i) y Q.
Proof. intros HQ. by apply runs_gets. Qed.

Lemma runs_put_node i n y (Q : unit -> sys -> Prop) : Q tt (set_nodes (zset (y_nodes y) i n) y) -> runs (put_node i n) y Q.
Proof. intros HQ. by apply runs_modify. Qed.
