(* ===== verification/Wait.v ===== *)
(** * Wait queues

    Models [src/src/kernel/wait.c]: queues of processes linked through a static pool of
    nodes.  A process may wait on several queues at once; waking it takes it off all of
    them. *)
From S2P Require Import Prelude BootInfo Pmm Memory Paging Kalloc Klib VmArea Task.
From Stdlib Require Import ZArith Lia ZifyBool Bool.
From stdpp Require Import base numbers gmap list.
Local Open Scope Z_scope.
Local Open Scope kernel_scope.

Definition WAIT_NODE_MAX : Z := 128.

(** The walks visit a node of the pool at most once. *)
Definition pool_fuel : nat := S (Z.to_nat WAIT_NODE_MAX).

Definition wait_queue_init (queue : Z) : M sys unit :=
  if queue =? 0 then ret tt else put_head queue None.

Fixpoint find_loop (fuel : nat) (node : option Z) (proc : Z) : M sys (option Z) :=
  match fuel with
  | O => halt
  | S fuel =>
    match node with
    | None => ret None
    | Some i =>
      n <- get_node i ;;
      if w_proc n =? proc then ret (Some i) else find_loop fuel (w_next n) proc
    end
  end.

Definition wait_queue_find (queue proc : Z) : M sys (option Z) :=
  if (queue =? 0) || (proc =? 0) then ret None else
  head <- get_head queue ;;
  find_loop pool_fuel head proc.

(** The pointer [cursor] points to the head of a queue or to the link of a node. *)
Inductive cursor :=
  | AtHead (q : Z)
  | AtNext (i : Z).

Definition read_cursor (c : cursor) : M sys (option Z) :=
  match c with
  | AtHead q => get_head q
  | AtNext i => n <- get_node i ;; ret (w_next n)
  end.

Definition write_cursor (c : cursor) (v : option Z) : M sys unit :=
  match c with
  | AtHead q => put_head q v
  | AtNext i => n <- get_node i ;; put_node i (WaitNode (w_queue n) (w_proc n) v)
  end.

Fixpoint unlink_node (fuel : nat) (c : cursor) (node : Z) : M sys unit :=
  match fuel with
  | O => halt
  | S fuel =>
    v <- read_cursor c ;;
    match v with
    | None => ret tt
    | Some i =>
      if i =? node then n <- get_node node ;; write_cursor c (w_next n)
      else unlink_node fuel (AtNext i) node
    end
  end.

Definition wait_queue_remove_node (node : Z) : M sys unit :=
  n <- get_node node ;;
  (if negb (w_queue n =? 0) then unlink_node pool_fuel (AtHead (w_queue n)) node else ret tt) ;;;
  put_node node zero_node.

Definition wait_queue_add (queue proc : Z) : M sys Z :=
  if (queue =? 0) || (proc =? 0) then ret (- EINVAL) else
  found <- wait_queue_find queue proc ;;
  match found with
  | Some _ => ret 0
  | None =>
    r <- for_return (up_to 0 WAIT_NODE_MAX 1) (fun i =>
      node <- get_node i ;;
      if w_proc node =? 0 then
        head <- get_head queue ;;
        put_node i (WaitNode queue proc head) ;;;
        put_head queue (Some i) ;;;
        ret (Some 0)
      else ret None) ;;
    ret (default (- ENOMEM) r)
  end.

Definition wait_queue_remove_proc (proc : Z) : M sys unit :=
  if proc =? 0 then ret tt else
  for_each (up_to 0 WAIT_NODE_MAX 1) (fun i =>
    n <- get_node i ;;
    if w_proc n =? proc then wait_queue_remove_node i else ret tt).

Definition wait_queue_wake_proc (proc : Z) : M sys unit :=
  if proc =? 0 then ret tt else
  r <- get_proc proc ;;
  match state r with
  | PROCESS_STATE_WAITING | PROCESS_STATE_SLEEPING => upd_proc proc (set_run PROCESS_STATE_RUNNING 0)
  | _ => ret tt
  end.

(** The body shared by [wait_queue_wake_one] and the loop of [wait_queue_wake_all]. *)
Definition wake_head (queue i : Z) : M sys unit :=
  n <- get_node i ;;
  let proc := w_proc n in
  wait_queue_wake_proc proc ;;;
  if negb (proc =? 0) then wait_queue_remove_proc proc
  else
    head <- get_head queue ;;
    match head with Some i => wait_queue_remove_node i | None => ret tt end.

Definition wait_queue_wake_one (queue : Z) : M sys unit :=
  if queue =? 0 then ret tt else
  head <- get_head queue ;;
  match head with
  | None => ret tt
  | Some i => wake_head queue i
  end.

Fixpoint wake_loop (fuel : nat) (queue : Z) : M sys unit :=
  match fuel with
  | O => halt
  | S fuel =>
    head <- get_head queue ;;
    match head with
    | None => ret tt
    | Some i => wake_head queue i ;;; wake_loop fuel queue
    end
  end.

Definition wait_queue_wake_all (queue : Z) : M sys unit :=
  if queue =? 0 then ret tt else wake_loop pool_fuel queue.
