(* ===== verification/WaitProps.v ===== *)
(** * Wait queues: refinement

    The linked queues of [Wait.v] implement a map from queues to lists of processes.
    [queues W y] says that the state [y] represents [W]; every operation of [wait.c]
    acts on the represented map as its specification does, and always terminates. *)
From S2P Require Import Prelude BootInfo Pmm Memory Paging Kalloc Klib Arrays VmArea Task Wait.
From Stdlib Require Import ZArith Lia ZifyBool Bool.
From stdpp Require Import base numbers gmap list.
Local Open Scope Z_scope.
Local Open Scope kernel_scope.

Local Abbreviation node ns i := (zget zero_node ns i).

(** ** Representation *)

Fixpoint chain (ns : list wait_node) (hd : option Z) (l : list Z) : Prop :=
  match l with
  | [] => hd = None
  | i :: l => hd = Some i /\ chain ns (w_next (node ns i)) l
  end.

(** [Q] gives the nodes of every queue in order. *)
Record wait_rep (Q : gmap Z (list Z)) (y : sys) : Prop := WaitRep {
  wr_len : zlen (y_nodes y) = WAIT_NODE_MAX;
  wr_chain : forall q, match Q !! q, y_heads y !! q with
    | Some l, Some hd => chain (y_nodes y) hd l
    | None, None => True
    | _, _ => False
    end;
  wr_node : forall q l i, Q !! q = Some l -> i ∈ l ->
    0 <= i < WAIT_NODE_MAX /\ w_queue (node (y_nodes y) i) = q /\ w_proc (node (y_nodes y) i) <> 0;
  wr_used : forall i, 0 <= i < WAIT_NODE_MAX -> w_proc (node (y_nodes y) i) <> 0 ->
    exists l, Q !! w_queue (node (y_nodes y) i) = Some l /\ i ∈ l;
  wr_nodup : forall q l, Q !! q = Some l -> NoDup l;
  wr_procs : forall q l, Q !! q = Some l -> NoDup (map (fun i => w_proc (node (y_nodes y) i)) l);
  wr_null : Q !! 0 = None
}.

(** Only the wait nodes and queue heads changed. *)
Definition links_only (y y' : sys) : Prop := y' = set_heads (y_heads y') (set_nodes (y_nodes y') y).

Lemma links_only_refl y : links_only y y.
Proof. by destruct y. Qed.

Lemma links_only_trans y1 y2 y3 : links_only y1 y2 -> links_only y2 y3 -> links_only y1 y3.
Proof. destruct y1, y2, y3. unfold links_only, set_heads, set_nodes. cbn. intros [=] [=]. by subst. Qed.

Lemma links_only_procs y y' : links_only y y' -> y_procs y' = y_procs y.
Proof. intros ->. done. Qed.

(** The head that [wr_chain] relates to a queue. *)
Lemma rep_head Q y q l : wait_rep Q y -> Q !! q = Some l -> exists hd, y_heads y !! q = Some hd /\ chain (y_nodes y) hd l.
Proof.
  intros R E. pose proof (wr_chain _ _ R q) as H. rewrite E in H. destruct (y_heads y !! q) as [hd|]; [|done].
  by exists hd.
Qed.

Lemma chain_ext ns ns' hd l : (forall i, i ∈ l -> w_next (node ns' i) = w_next (node ns i)) -> chain ns hd l -> chain ns' hd l.
Proof.
  revert hd. induction l as [|i l IH]; intros hd H; cbn; [done|]. intros [-> Hc]. split; [done|].
  rewrite H by (by left). apply IH; [|done]. intros j Hj. apply H. by right.
Qed.

Lemma rep_length Q y q l : wait_rep Q y -> Q !! q = Some l -> (length l <= 128)%nat.
Proof.
  intros R E. assert (Hs : l ⊆+ seqZ 0 128).
  { apply NoDup_submseteq; [by eapply wr_nodup|]. intros i Hi. apply elem_of_seqZ.
    destruct (wr_node _ _ R q l i E Hi) as (H & _ & _). unfold WAIT_NODE_MAX in H. lia. }
  apply submseteq_length in Hs. by rewrite length_seqZ in Hs.
Qed.

(** Nodes of different queues are different. *)
Lemma rep_disjoint Q y q q' l l' i :
  wait_rep Q y -> Q !! q = Some l -> Q !! q' = Some l' -> i ∈ l -> i ∈ l' -> q' = q.
Proof.
  intros R E E' Hi Hi'. destruct (wr_node _ _ R q l i E Hi) as (_ & <- & _). by destruct (wr_node _ _ R q' l' i E' Hi') as (_ & <- & _).
Qed.

(** ** Searching *)

Lemma find_loop_runs fuel hd l p y (K : option Z -> sys -> Prop) :
  chain (y_nodes y) hd l -> (length l < fuel)%nat ->
  (forall r, (match r with Some i => i ∈ l /\ w_proc (node (y_nodes y) i) = p
     | None => p ∉ map (fun i => w_proc (node (y_nodes y) i)) l end) -> K r y) ->
  runs (find_loop fuel hd p) y K.
Proof.
  revert hd l. induction fuel as [|fuel IH]; intros hd l Hc Hf HK; [lia|]. cbn [find_loop].
  destruct l as [|i l]; cbn in Hc.
  - subst hd. apply runs_ret, HK. apply not_elem_of_nil.
  - destruct Hc as [-> Hc]. apply runs_bind, runs_get_node.
    destruct (Z.eqb_spec (w_proc (node (y_nodes y) i)) p) as [E|E].
    + apply runs_ret, HK. split; [by left|done].
    + cbn in Hf. apply (IH _ l); [done|lia|]. intros [j|] Hr; apply HK.
      * destruct Hr. split; [by right|done].
      * cbn. apply not_elem_of_cons. split; [congruence|done].
Qed.

(** ** Unlinking *)

Definition relink (ns : list wait_node) (j : Z) (v : option Z) : list wait_node :=
  zset ns j (WaitNode (w_queue (node ns j)) (w_proc (node ns j)) v).

Lemma relink_get ns j v k : 0 <= j < zlen ns -> 0 <= k ->
  node (relink ns j v) k = WaitNode (w_queue (node ns k)) (w_proc (node ns k)) (if k =? j then v else w_next (node ns k)).
Proof.
  intros Hj Hk. unfold relink. destruct (Z.eqb_spec k j) as [->|Hne].
  - by rewrite zget_zset_eq.
  - rewrite zget_zset_ne by lia. by destruct (node ns k).
Qed.

Definition cursor_val (y : sys) (c : cursor) : option (option Z) :=
  match c with AtHead q => y_heads y !! q | AtNext i => Some (w_next (node (y_nodes y) i)) end.
Definition put_cursor (c : cursor) (v : option Z) (y : sys) : sys :=
  match c with
  | AtHead q => set_heads (<[q := v]> (y_heads y)) y
  | AtNext i => set_nodes (relink (y_nodes y) i v) y
  end.
Fixpoint last_cursor (c : cursor) (pre : list Z) : cursor :=
  match pre with [] => c | j :: pre => last_cursor (AtNext j) pre end.

Lemma last_cursor_snoc c pre j : last_cursor c (pre ++ [j]) = AtNext j.
Proof. revert c. induction pre as [|k pre IH]; intros c; [done|]. apply IH. Qed.

Lemma unlink_node_runs fuel c pre i post hd y (K : unit -> sys -> Prop) :
  cursor_val y c = Some hd -> chain (y_nodes y) hd (pre ++ i :: post) -> i ∉ pre -> (length pre < fuel)%nat ->
  K tt (put_cursor (last_cursor c pre) (w_next (node (y_nodes y) i)) y) ->
  runs (unlink_node fuel c i) y K.
Proof.
  revert c pre hd. induction fuel as [|fuel IH]; intros c pre hd Hv Hc Hi Hf HK; [lia|]. cbn [unlink_node].
  apply runs_bind. assert (Hread : forall (R : option Z -> sys -> Prop), R hd y -> runs (read_cursor c) y R).
  { intros R HR. destruct c as [q|j]; cbn [cursor_val read_cursor] in *; [by apply (runs_get_head q hd)|].
    apply runs_bind, runs_get_node, runs_ret. by injection Hv as ->. }
  apply Hread. destruct pre as [|j pre]; cbn in Hc; destruct Hc as [-> Hc].
  - rewrite Z.eqb_refl. apply runs_bind, runs_get_node. destruct c as [q|j]; cbn [write_cursor].
    + by eapply runs_put_head.
    + apply runs_bind, runs_get_node. by apply runs_put_node.
  - apply not_elem_of_cons in Hi as [Hij Hi]. rewrite (proj2 (Z.eqb_neq j i)) by done.
    cbn in Hf. by apply (IH (AtNext j) pre (w_next (node (y_nodes y) j))); [..|lia|].
Qed.

Lemma chain_relink ns hd pre j i post :
  chain ns hd (pre ++ j :: i :: post) -> NoDup (pre ++ j :: i :: post) -> 0 <= j < zlen ns ->
  Forall (fun k => 0 <= k) (pre ++ post) -> chain (relink ns j (w_next (node ns i))) hd (pre ++ j :: post).
Proof.
  intros Hc Hn Hj Hp. revert hd Hc Hn Hp. induction pre as [|k pre IH]; intros hd Hc Hn Hp; cbn in *.
  - destruct Hc as [-> [_ Hc]]. split; [done|]. rewrite relink_get, Z.eqb_refl by lia. cbn.
    eapply chain_ext; [|exact Hc]. intros k Hk. rewrite Forall_forall in Hp. specialize (Hp k Hk).
    rewrite relink_get by done. cbn. apply NoDup_cons in Hn as [Hn _]. rewrite (proj2 (Z.eqb_neq k j)); [done|].
    intros ->. apply Hn. by right.
  - destruct Hc as [-> Hc]. split; [done|]. apply Forall_cons in Hp as [Hk Hp]. apply NoDup_cons in Hn as [Hkn Hn].
    rewrite relink_get by done. cbn. rewrite (proj2 (Z.eqb_neq k j)); [by apply IH|]. intros ->. apply Hkn, elem_of_app. right. by left.
Qed.

(** The nodes after taking node [i] out of its queue. *)
Record taken_out (y y' : sys) (i : Z) : Prop := TakenOut {
  to_links : links_only y y';
  to_self : node (y_nodes y') i = zero_node;
  to_other : forall j, 0 <= j -> j <> i -> w_queue (node (y_nodes y') j) = w_queue (node (y_nodes y) j)
    /\ w_proc (node (y_nodes y') j) = w_proc (node (y_nodes y) j)
}.

Lemma filter_middle (pre post : list Z) i : NoDup (pre ++ i :: post) -> filter (fun k : Z => k <> i) (pre ++ i :: post) = pre ++ post.
Proof.
  intros Hn. apply NoDup_app in Hn as (_ & Hd & Hn). apply NoDup_cons in Hn as [Hi _].
  assert (Hid : forall l : list Z, i ∉ l -> filter (fun k : Z => k <> i) l = l).
  { intros l. induction l as [|k l IH]; [done|]. intros [Hk Hl]%not_elem_of_cons. rewrite filter_cons_True by congruence. by rewrite IH. }
  rewrite filter_app, filter_cons_False by tauto. rewrite !Hid; try done. intros Hin. apply (Hd i Hin). by left.
Qed.

(** Where the links go when [i] leaves the queue [q]. *)
Lemma unlinked_chains Q y q pre i post :
  wait_rep Q y -> Q !! q = Some (pre ++ i :: post) ->
  let y1 := put_cursor (last_cursor (AtHead q) pre) (w_next (node (y_nodes y) i)) y in
  zlen (y_nodes y1) = WAIT_NODE_MAX /\ links_only y y1
  /\ (forall j, 0 <= j -> w_queue (node (y_nodes y1) j) = w_queue (node (y_nodes y) j)
      /\ w_proc (node (y_nodes y1) j) = w_proc (node (y_nodes y) j))
  /\ forall q', match <[q := pre ++ post]> Q !! q', y_heads y1 !! q' with
     | Some l, Some hd => chain (y_nodes y1) hd l | None, None => True | _, _ => False end.
Proof.
  intros R E y1. destruct (rep_head _ _ _ _ R E) as (hd & Hhd & Hc). pose proof (wr_len _ _ R) as Hlen.
  pose proof (wr_nodup _ _ R q _ E) as Hn.
  assert (Hall : forall k, k ∈ pre ++ i :: post -> 0 <= k < zlen (y_nodes y)).
  { intros k Hk. rewrite Hlen. by destruct (wr_node _ _ R q _ k E Hk). }
  destruct pre as [|j0 pre0 _] using rev_ind.
  - cbn in y1. cbn in Hc. destruct Hc as [-> Hc]. split_and!; try done. intros q'. cbn.
    destruct (decide (q' = q)) as [->|Hne]; [by rewrite !lookup_insert_eq|]. rewrite !lookup_insert_ne by done. apply R.
  - assert (Ey : y1 = set_nodes (relink (y_nodes y) j0 (w_next (node (y_nodes y) i))) y) by (unfold y1; by rewrite last_cursor_snoc).
    clearbody y1. subst y1. rewrite <- app_assoc in *. cbn in *.
    assert (Hj : 0 <= j0 < zlen (y_nodes y)) by (apply Hall, elem_of_app; right; by left).
    split_and!.
    + unfold relink. by rewrite zlen_zset.
    + by destruct y.
    + intros k Hk. by rewrite relink_get by done.
    + intros q'. destruct (decide (q' = q)) as [->|Hne].
      * rewrite lookup_insert_eq, Hhd. apply chain_relink; try done. apply Forall_forall. intros k Hk.
        apply Hall. apply elem_of_app in Hk as [Hk|Hk]; apply elem_of_app; [by left|right; right; by right].
      * rewrite lookup_insert_ne by done. pose proof (wr_chain _ _ R q') as H. destruct (Q !! q') as [l'|] eqn:E'; [|done].
        destruct (y_heads y !! q') as [hd'|]; [|done]. eapply chain_ext; [|exact H]. intros k Hk.
        destruct (wr_node _ _ R q' l' k E' Hk) as (Hk0 & _ & _). rewrite relink_get by lia. cbn.
        rewrite (proj2 (Z.eqb_neq k j0)); [done|]. intros ->. apply Hne. eapply rep_disjoint; [done|exact E|exact E'| |done].
        apply elem_of_app. right. by left.
Qed.

(** Clearing a node that no chain goes through. *)
Lemma cleared_rep Q y y1 q pre i post :
  wait_rep Q y -> Q !! q = Some (pre ++ i :: post) -> zlen (y_nodes y1) = WAIT_NODE_MAX ->
  (forall j, 0 <= j -> w_queue (node (y_nodes y1) j) = w_queue (node (y_nodes y) j)
     /\ w_proc (node (y_nodes y1) j) = w_proc (node (y_nodes y) j)) ->
  (forall q', match <[q := pre ++ post]> Q !! q', y_heads y1 !! q' with
     | Some l, Some hd => chain (y_nodes y1) hd l | None, None => True | _, _ => False end) ->
  wait_rep (<[q := pre ++ post]> Q) (set_nodes (zset (y_nodes y1) i zero_node) y1).
Proof.
  intros R E Hlen Hsame Hch. pose proof (wr_nodup _ _ R q _ E) as Hn.
  destruct (wr_node _ _ R q _ i E) as (Hi & Hqi & _); [apply elem_of_app; right; by left|].
  assert (Hni : i ∉ pre ++ post).
  { apply NoDup_app in Hn as (_ & Hd & Hn2). apply NoDup_cons in Hn2 as [Hn2 _]. intros [H|H]%elem_of_app; [|done].
    apply (Hd i H). by left. }
  assert (Hold : forall q' l k, <[q := pre ++ post]> Q !! q' = Some l -> k ∈ l -> k <> i /\ exists l0, Q !! q' = Some l0 /\ k ∈ l0).
  { intros q' l k El Hk. destruct (decide (q' = q)) as [->|Hne].
    - rewrite lookup_insert_eq in El. injection El as <-. split; [congruence|]. exists (pre ++ i :: post). split; [done|].
      apply elem_of_app in Hk as [?|?]; apply elem_of_app; [by left|right; by right].
    - rewrite lookup_insert_ne in El by done. split; [|by exists l]. intros ->. apply Hne.
      eapply rep_disjoint; [done|exact E|exact El|apply elem_of_app; right; by left|done]. }
  assert (Hget : forall k, 0 <= k -> k <> i -> node (zset (y_nodes y1) i zero_node) k = node (y_nodes y1) k).
  { intros k Hk Hne. by rewrite zget_zset_ne by lia. }
  constructor; cbn.
  - by rewrite zlen_zset.
  - intros q'. specialize (Hch q'). destruct (<[q := pre ++ post]> Q !! q') as [l|] eqn:El; [|done].
    destruct (y_heads y1 !! q') as [hd|]; [|done]. eapply chain_ext; [|exact Hch]. intros k Hk.
    destruct (Hold q' l k El Hk) as (Hne & l0 & El0 & Hk0). destruct (wr_node _ _ R q' l0 k El0 Hk0). by rewrite Hget by lia.
  - intros q' l k El Hk. destruct (Hold q' l k El Hk) as (Hne & l0 & El0 & Hk0).
    destruct (wr_node _ _ R q' l0 k El0 Hk0) as (H1 & H2 & H3). rewrite Hget by lia. destruct (Hsame k ltac:(lia)) as [-> ->]. done.
  - intros k Hk Hp. destruct (decide (k = i)) as [->|Hne]; [by rewrite zget_zset_eq in Hp by lia|].
    rewrite Hget in * by lia. destruct (Hsame k ltac:(lia)) as [-> Ep]. rewrite Ep in Hp.
    destruct (wr_used _ _ R k Hk Hp) as (l & El & Hkl). destruct (decide (w_queue (node (y_nodes y) k) = q)) as [Eq|Eq].
    + rewrite Eq in *. rewrite lookup_insert_eq. eexists. split; [done|]. rewrite E in El. injection El as <-.
      apply elem_of_app in Hkl as [?|[?|?]%elem_of_cons]; [apply elem_of_app; by left|done|apply elem_of_app; by right].
    + rewrite lookup_insert_ne by done. by exists l.
  - intros q' l. destruct (decide (q' = q)) as [->|Hne]; [rewrite lookup_insert_eq|rewrite lookup_insert_ne by done; apply R].
    intros [= <-]. apply NoDup_app in Hn as (H1 & H2 & H3). apply NoDup_cons in H3 as [_ H3]. apply NoDup_app. split_and!; try done.
    intros x Hx Hx'. apply (H2 x Hx). by right.
  - intros q' l El. assert (Hm : map (fun k => w_proc (node (zset (y_nodes y1) i zero_node) k)) l = map (fun k => w_proc (node (y_nodes y) k)) l).
    { apply map_ext_in. intros k Hk%list_elem_of_In. destruct (Hold q' l k El Hk) as (Hne & l0 & El0 & Hk0).
      destruct (wr_node _ _ R q' l0 k El0 Hk0). rewrite Hget by lia. by destruct (Hsame k ltac:(lia)) as [_ ->]. }
    rewrite Hm. destruct (decide (q' = q)) as [->|Hne]; [|rewrite lookup_insert_ne in El by done; by apply (wr_procs _ _ R q')].
    rewrite lookup_insert_eq in El. injection El as <-. pose proof (wr_procs _ _ R q _ E) as Hp. rewrite map_app in *. cbn in Hp.
    apply NoDup_app in Hp as (H1 & H2 & H3). apply NoDup_cons in H3 as [_ H3]. apply NoDup_app. split_and!; try done.
    intros x Hx Hx'. apply (H2 x Hx). by right.
  - rewrite lookup_insert_ne; [apply R|]. intros ->. by rewrite (wr_null _ _ R) in E.
Qed.

Lemma remove_node_runs Q y q l i (K : unit -> sys -> Prop) :
  wait_rep Q y -> Q !! q = Some l -> i ∈ l ->
  (forall y', wait_rep (<[q := filter (fun k => k <> i) l]> Q) y' -> taken_out y y' i -> K tt y') ->
  runs (wait_queue_remove_node i) y K.
Proof.
  intros R E Hi HK. destruct (wr_node _ _ R q l i E Hi) as (Hir & Hq & Hp). pose proof (rep_length _ _ _ _ R E) as Hlen.
  pose proof (wr_nodup _ _ R q l E) as Hn.
  apply list_elem_of_split in Hi as (pre & post & ->). destruct (rep_head _ _ _ _ R E) as (hd & Hhd & Hc).
  unfold wait_queue_remove_node. apply runs_bind, runs_get_node. rewrite Hq.
  assert (Hq0 : q <> 0) by (intros ->; by rewrite (wr_null _ _ R) in E).
  rewrite (proj2 (Z.eqb_neq q 0) Hq0). cbn [negb]. apply runs_bind.
  destruct (unlinked_chains Q y q pre i post R E) as (Hl & Hlo & Hsame & Hch).
  apply (unlink_node_runs _ _ pre i post hd); try done.
  - intros Hin. apply NoDup_app in Hn as (_ & Hd & _). apply (Hd i Hin). by left.
  - unfold pool_fuel, WAIT_NODE_MAX. rewrite length_app in Hlen. cbn in *. lia.
  - apply runs_put_node, HK.
    + rewrite filter_middle by done. by apply (cleared_rep Q y).
    + constructor; cbn.
      * eapply links_only_trans; [exact Hlo|]. by destruct (put_cursor _ _ _).
      * apply zget_zset_eq. rewrite Hl. done.
      * intros j Hj Hne. rewrite zget_zset_ne by lia. by apply Hsame.
Qed.

Lemma filter_ext_in {A} (P1 P2 : A -> Prop) `{!forall x, Decision (P1 x), !forall x, Decision (P2 x)} (l : list A) :
  (forall x, x ∈ l -> P1 x <-> P2 x) -> filter P1 l = filter P2 l.
Proof.
  induction l as [|x l IH]; intros Hx; [done|]. rewrite !filter_cons. rewrite IH by (intros; apply Hx; by right).
  specialize (Hx x ltac:(by left)). repeat case_decide; tauto.
Qed.

Lemma filter_all_in {A} (P : A -> Prop) `{!forall x, Decision (P x)} (l : list A) : (forall x, x ∈ l -> P x) -> filter P l = l.
Proof.
  induction l as [|x l IH]; intros Hx; [done|]. rewrite filter_cons_True by (apply Hx; by left). f_equal. apply IH.
  intros; apply Hx; by right.
Qed.

(** ** Taking a process off all queues *)

Section RemoveProc.
Context (Q : gmap Z (list Z)) (y : sys) (p : Z) (R : wait_rep Q y) (Hp : p <> 0).

(** The node is cleared by the first [k] rounds. *)
Definition gone (k j : Z) : bool := (j <? k) && (w_proc (node (y_nodes y) j) =? p).

Record cleared_below (k : Z) (y' : sys) : Prop := ClearedBelow {
  cb_rep : wait_rep (filter (fun j => gone k j = false) <$> Q) y';
  cb_links : links_only y y';
  cb_node : forall j, 0 <= j -> gone k j = false ->
    w_queue (node (y_nodes y') j) = w_queue (node (y_nodes y) j) /\ w_proc (node (y_nodes y') j) = w_proc (node (y_nodes y) j);
  cb_gone : forall j, 0 <= j -> gone k j = true -> w_proc (node (y_nodes y') j) = 0
}.

Lemma cleared_start : cleared_below 0 y.
Proof.
  assert (H0 : forall j, 0 <= j -> gone 0 j = false) by (intros j Hj; unfold gone; lia).
  constructor; [|apply links_only_refl|done|intros j Hj; by rewrite H0].
  assert ((filter (fun j => gone 0 j = false) <$> Q) = Q) as ->; [|done].
  apply map_eq. intros q. rewrite lookup_fmap. destruct (Q !! q) as [l|] eqn:E; [|done]. cbn. f_equal.
  apply filter_all_in. intros j Hj. apply H0. by destruct (wr_node _ _ R q l j E Hj) as [[? _] _].
Qed.

(** A round that finds another process. *)
Lemma cleared_skip k y' : 0 <= k -> w_proc (node (y_nodes y) k) <> p -> cleared_below k y' -> cleared_below (k + 1) y'.
Proof.
  intros Hk Hne [C1 C2 C3 C4]. assert (Hg : forall j, gone (k + 1) j = gone k j).
  { intros j. unfold gone. destruct (decide (j = k)) as [->|]; [|lia]. rewrite (proj2 (Z.eqb_neq _ p) Hne). by rewrite !andb_false_r. }
  constructor; try done; try (intros j; rewrite Hg; auto).
  assert ((filter (fun j => gone (k + 1) j = false) <$> Q) = (filter (fun j => gone k j = false) <$> Q)) as ->; [|done].
  apply map_fmap_ext. intros q l _. apply list_filter_iff. intros j. by rewrite Hg.
Qed.

Lemma cleared_step k y' :
  0 <= k < WAIT_NODE_MAX -> cleared_below k y' ->
  runs (n <- get_node k ;; if w_proc n =? p then wait_queue_remove_node k else ret tt) y' (fun _ => cleared_below (k + 1)).
Proof.
  intros Hk C. pose proof C as [C1 C2 C3 C4]. apply runs_bind, runs_get_node.
  assert (Hg : gone k k = false) by (unfold gone; lia). destruct (C3 k ltac:(lia) Hg) as [Hq Hpk]. rewrite Hpk.
  destruct (Z.eqb_spec (w_proc (node (y_nodes y) k)) p) as [E|E]; [|apply runs_ret; by apply cleared_skip; [lia|..]].
  destruct (wr_used _ _ R k Hk ltac:(congruence)) as (l & El & Hkl). set (q := w_queue (node (y_nodes y) k)) in *.
  assert (Hg' : forall j, gone (k + 1) j = gone k j || (j =? k)).
  { intros j. unfold gone. destruct (Z.eqb_spec j k) as [->|]; [rewrite E; lia|]. lia. }
  apply (remove_node_runs (filter (fun j => gone k j = false) <$> Q) y' q (filter (fun j => gone k j = false) l)); [done| | |].
  { by rewrite lookup_fmap, El. }
  { by apply list_elem_of_filter. }
  intros y2 R2 [T1 T2 T3]. constructor.
  - assert ((filter (fun j => gone (k + 1) j = false) <$> Q)
      = <[q := filter (fun j => j <> k) (filter (fun j => gone k j = false) l)]> (filter (fun j => gone k j = false) <$> Q)) as ->; [|done].
    apply map_eq. intros q'. destruct (decide (q' = q)) as [->|Hne].
    + rewrite lookup_insert_eq, lookup_fmap, El. cbn. f_equal. rewrite list_filter_filter. apply list_filter_iff.
      intros j. rewrite Hg'. lia.
    + rewrite lookup_insert_ne, !lookup_fmap by done. destruct (Q !! q') as [l'|] eqn:E'; [|done]. cbn. f_equal.
      apply filter_ext_in. intros j Hj. rewrite Hg'. destruct (Z.eqb_spec j k) as [->|]; [|by rewrite orb_false_r].
      exfalso. apply Hne. by eapply rep_disjoint; [exact R|exact El|exact E'|..].
  - by eapply links_only_trans.
  - intros j Hj. rewrite Hg'. intros [Hg1 Hne]%orb_false_iff. destruct (T3 j Hj ltac:(lia)) as [-> ->]. by apply C3.
  - intros j Hj. rewrite Hg'. destruct (Z.eqb_spec j k) as [->|Hne]; [by rewrite T2|]. rewrite orb_false_r. intros Hg1.
    destruct (T3 j Hj Hne) as [_ ->]. by apply C4.
Qed.

Lemma remove_proc_runs (K : unit -> sys -> Prop) :
  (forall y', cleared_below WAIT_NODE_MAX y' -> K tt y') -> runs (wait_queue_remove_proc p) y K.
Proof.
  intros HK. unfold wait_queue_remove_proc. rewrite (proj2 (Z.eqb_neq p 0) Hp).
  apply (runs_for_each cleared_below); [unfold WAIT_NODE_MAX; lia|apply cleared_start|apply cleared_step|apply HK].
Qed.
End RemoveProc.

(** ** The map of queues *)

Definition procs_of (ns : list wait_node) (l : list Z) : list Z := map (fun i => w_proc (node ns i)) l.

(** The state represents the map [W] from queues to the processes on them, the last
    comer first. *)
Definition queues (W : gmap Z (list Z)) (y : sys) : Prop :=
  exists Q, wait_rep Q y /\ W = procs_of (y_nodes y) <$> Q.

Definition remove_from (p : Z) (W : gmap Z (list Z)) : gmap Z (list Z) := filter (fun x => x <> p) <$> W.

(** The places on all queues together. *)
Definition total {A} (W : gmap Z (list A)) : Z := zlen (map_to_list W ≫= snd).

Lemma queues_head W y q l :
  queues W y -> W !! q = Some l -> exists hd, y_heads y !! q = Some hd
    /\ match hd, l with None, [] => True | Some i, p :: _ => w_proc (node (y_nodes y) i) = p | _, _ => False end.
Proof.
  intros (Q & R & ->) E. rewrite lookup_fmap in E. destruct (Q !! q) as [l0|] eqn:E0; [|done]. injection E as <-.
  destruct (rep_head _ _ _ _ R E0) as (hd & Hhd & Hc). exists hd. split; [done|]. destruct l0 as [|i l0]; cbn in *; [by subst|].
  by destruct Hc as [-> _].
Qed.

Lemma queues_facts W y q l : queues W y -> W !! q = Some l -> q <> 0 /\ NoDup l /\ (forall p, p ∈ l -> p <> 0) /\ (length l <= 128)%nat.
Proof.
  intros (Q & R & ->) E. rewrite lookup_fmap in E. destruct (Q !! q) as [l0|] eqn:E0; [|done]. injection E as <-. split_and!.
  - intros ->. by rewrite (wr_null _ _ R) in E0.
  - by apply (wr_procs _ _ R q).
  - intros p (i & -> & Hi)%list_elem_of_fmap. by destruct (wr_node _ _ R q l0 i E0 Hi) as (_ & _ & ?).
  - unfold procs_of. rewrite length_map. by eapply rep_length.
Qed.

Lemma remove_proc_queues W y p (K : unit -> sys -> Prop) :
  queues W y -> p <> 0 -> (forall y', queues (remove_from p W) y' -> links_only y y' -> K tt y') ->
  runs (wait_queue_remove_proc p) y K.
Proof.
  intros (Q & R & ->) Hp HK. apply (remove_proc_runs Q y p R Hp). intros y' [C1 C2 C3 C4]. apply HK; [|done].
  eexists. split; [exact C1|]. unfold remove_from. apply map_eq. intros q. rewrite !lookup_fmap.
  destruct (Q !! q) as [l|] eqn:E; [|done]. cbn. f_equal.
  assert (Hl : forall i, i ∈ l -> 0 <= i < WAIT_NODE_MAX) by (intros i Hi; by destruct (wr_node _ _ R q l i E Hi)).
  clear -C3 Hl. induction l as [|i l IH]; [done|]. specialize (Hl i ltac:(by left)) as Hi.
  unfold procs_of in *. cbn [map]. rewrite !filter_cons.
  assert (Hg : gone y p WAIT_NODE_MAX i = (w_proc (node (y_nodes y) i) =? p)) by (unfold gone; lia).
  rewrite Hg. destruct (Z.eqb_spec (w_proc (node (y_nodes y) i)) p) as [Ep|Ep].
  - rewrite decide_False, (decide_False (P := true = false)) by (done || tauto). apply IH. intros j Hj. apply Hl. by right.
  - rewrite decide_True, (decide_True (P := false = false)) by done. cbn [map]. f_equal.
    + symmetry. apply C3; [lia|]. rewrite Hg. lia.
    + apply IH. intros j Hj. apply Hl. by right.
Qed.

(** ** Adding a process *)

Lemma all_nodes Q y : wait_rep Q y ->
  NoDup (map_to_list Q ≫= snd)
  /\ forall i, i ∈ (map_to_list Q ≫= snd) <-> 0 <= i < WAIT_NODE_MAX /\ w_proc (node (y_nodes y) i) <> 0.
Proof.
  intros R. split.
  - apply NoDup_bind.
    + intros [q1 l1] [q2 l2] i H1%elem_of_map_to_list H2%elem_of_map_to_list Hi1 Hi2. cbn in *.
      assert (q2 = q1) as -> by (by eapply rep_disjoint). congruence.
    + intros [q l] H%elem_of_map_to_list. by apply (wr_nodup _ _ R q).
    + apply NoDup_map_to_list.
  - intros i. rewrite list_elem_of_bind. split.
    + intros ([q l] & Hi & H%elem_of_map_to_list). by destruct (wr_node _ _ R q l i H Hi) as (? & _ & ?).
    + intros [Hi Hp]. destruct (wr_used _ _ R i Hi Hp) as (l & E & Hl). exists (w_queue (node (y_nodes y) i), l).
      split; [done|]. by apply elem_of_map_to_list.
Qed.

Lemma total_procs ns Q : total (procs_of ns <$> Q) = total Q.
Proof.
  unfold total, zlen. rewrite map_to_list_fmap, list_fmap_bind. f_equal. induction (map_to_list Q) as [|[q l] m IH]; [done|].
  cbn. rewrite !length_app, IH. unfold procs_of. by rewrite length_map.
Qed.

(** All nodes are in use exactly when 128 places are taken. *)
Lemma total_full Q y : wait_rep Q y ->
  total Q <= WAIT_NODE_MAX
  /\ ((forall i, 0 <= i < WAIT_NODE_MAX -> w_proc (node (y_nodes y) i) <> 0) <-> total Q = WAIT_NODE_MAX).
Proof.
  intros R. destruct (all_nodes Q y R) as [Hn Hin]. unfold total, zlen, WAIT_NODE_MAX in *.
  set (l := map_to_list Q ≫= snd) in *. assert (Hsub : l ⊆+ seqZ 0 128).
  { apply NoDup_submseteq; [done|]. intros i Hi%Hin. apply elem_of_seqZ. lia. }
  pose proof (submseteq_length _ _ Hsub) as Hle. rewrite length_seqZ in Hle. split; [lia|]. split.
  - intros Hall. assert (Hsub' : seqZ 0 128 ⊆+ l).
    { apply NoDup_submseteq; [apply NoDup_seqZ|]. intros i Hi%elem_of_seqZ. apply Hin. split; [lia|]. apply Hall. lia. }
    apply submseteq_length in Hsub'. rewrite length_seqZ in Hsub'. lia.
  - intros Hlen i Hi Hp. assert (Hsub2 : i :: l ⊆+ seqZ 0 128).
    { apply NoDup_submseteq.
      - apply NoDup_cons. split; [|done]. intros Hil%Hin. by destruct Hil.
      - intros j [->|Hj%Hin]%elem_of_cons; apply elem_of_seqZ; lia. }
    apply submseteq_length in Hsub2. rewrite length_seqZ in Hsub2. cbn in Hsub2. lia.
Qed.

Section AddNode.
Context (Q : gmap Z (list Z)) (y : sys) (q i p : Z) (l : list Z) (hd : option Z).
Context (R : wait_rep Q y) (E : Q !! q = Some l) (Hhd : y_heads y !! q = Some hd).
Context (Hi : 0 <= i < WAIT_NODE_MAX) (Hfree : w_proc (node (y_nodes y) i) = 0).
Context (Hp : p <> 0) (Hnew : p ∉ procs_of (y_nodes y) l).
Let y' : sys := set_heads (<[q := Some i]> (y_heads y)) (set_nodes (zset (y_nodes y) i (WaitNode q p hd)) y).

Lemma free_not_in q' l' : Q !! q' = Some l' -> i ∉ l'.
Proof. intros E' Hin. by destruct (wr_node _ _ R q' l' i E' Hin) as (_ & _ & ?). Qed.

Lemma added_node : node (y_nodes y') i = WaitNode q p hd.
Proof. unfold y'. cbn. apply zget_zset_eq. by rewrite (wr_len _ _ R). Qed.

Lemma added_same k : 0 <= k -> k <> i -> node (y_nodes y') k = node (y_nodes y) k.
Proof. intros Hk Hne. unfold y'. cbn. by apply zget_zset_ne; lia. Qed.

Lemma added_procs q' l' : Q !! q' = Some l' -> procs_of (y_nodes y') l' = procs_of (y_nodes y) l'.
Proof.
  intros E'. apply map_ext_in. intros k Hk%list_elem_of_In. destruct (wr_node _ _ R q' l' k E' Hk).
  rewrite added_same; [done|lia|]. intros ->. by apply (free_not_in q' l').
Qed.

Lemma add_rep : wait_rep (<[q := i :: l]> Q) y'.
Proof.
  pose proof (rep_head _ _ _ _ R E) as (hd0 & Hhd0 & Hc). rewrite Hhd in Hhd0. injection Hhd0 as <-.
  assert (Hchain : forall q' l' h, Q !! q' = Some l' -> chain (y_nodes y) h l' -> chain (y_nodes y') h l').
  { intros q' l' h E' H. eapply chain_ext; [|exact H]. intros k Hk. destruct (wr_node _ _ R q' l' k E' Hk).
    rewrite added_same; [done|lia|]. intros ->. by apply (free_not_in q' l'). }
  assert (Hcase : forall q' l', <[q := i :: l]> Q !! q' = Some l' -> (q' = q /\ l' = i :: l) \/ (q' <> q /\ Q !! q' = Some l')).
  { intros q' l' H. destruct (decide (q' = q)) as [->|Hne]; [rewrite lookup_insert_eq in H; left; by injection H as <-|].
    rewrite lookup_insert_ne in H by done. by right. }
  constructor.
  - unfold y'. cbn. rewrite zlen_zset. apply R.
  - intros q'. change (y_heads y') with (<[q := Some i]> (y_heads y)). destruct (decide (q' = q)) as [->|Hne].
    + rewrite !lookup_insert_eq. split; [done|]. rewrite added_node. by eapply Hchain.
    + rewrite !lookup_insert_ne by done. pose proof (wr_chain _ _ R q') as H. destruct (Q !! q') as [l'|] eqn:E'; [|done].
      destruct (y_heads y !! q'); [|done]. by eapply Hchain.
  - intros q' l' k [[-> ->]|[Hne E']]%Hcase Hk.
    + apply elem_of_cons in Hk as [->|Hk]; [by rewrite added_node|]. destruct (wr_node _ _ R q l k E Hk) as (? & ? & ?).
      rewrite added_same; [done|lia|]. intros ->. by apply (free_not_in q l).
    + destruct (wr_node _ _ R q' l' k E' Hk) as (? & ? & ?). rewrite added_same; [done|lia|]. intros ->. by apply (free_not_in q' l').
  - intros k Hk. destruct (decide (k = i)) as [->|Hne].
    + rewrite added_node. intros _. cbn. rewrite lookup_insert_eq. eexists. split; [done|]. by left.
    + rewrite added_same by lia. intros Hpk. destruct (wr_used _ _ R k Hk Hpk) as (l' & E' & Hk').
      destruct (decide (w_queue (node (y_nodes y) k) = q)) as [Eq|Eq].
      * rewrite Eq in *. rewrite lookup_insert_eq. eexists. split; [done|]. right. congruence.
      * rewrite lookup_insert_ne by done. by exists l'.
  - intros q' l' [[-> ->]|[Hne E']]%Hcase; [|by apply (wr_nodup _ _ R q')]. apply NoDup_cons.
    split; [by apply (free_not_in q)|by apply (wr_nodup _ _ R q)].
  - intros q' l' [[-> ->]|[Hne E']]%Hcase.
    + cbn [map]. rewrite added_node. cbn [w_proc]. apply NoDup_cons. fold (procs_of (y_nodes y') l). rewrite (added_procs q l E).
      split; [done|by apply (wr_procs _ _ R q)].
    + fold (procs_of (y_nodes y') l'). rewrite (added_procs q' l' E'). by apply (wr_procs _ _ R q').
  - rewrite lookup_insert_ne; [apply R|]. intros ->. by rewrite (wr_null _ _ R) in E.
Qed.

Lemma add_queues : queues (<[q := p :: procs_of (y_nodes y) l]> (procs_of (y_nodes y) <$> Q)) y'.
Proof.
  eexists. split; [apply add_rep|]. apply map_eq. intros q'. destruct (decide (q' = q)) as [->|Hne].
  - rewrite lookup_insert_eq, lookup_fmap, lookup_insert_eq. cbn [fmap option_fmap option_map]. unfold procs_of at 2. cbn [map].
    rewrite added_node. cbn [w_proc]. fold (procs_of (y_nodes y') l). by rewrite (added_procs q l E).
  - rewrite lookup_insert_ne, !lookup_fmap, lookup_insert_ne by done. destruct (Q !! q') as [l'|] eqn:E'; [|done].
    cbn [fmap option_fmap option_map]. by rewrite (added_procs q' l' E').
Qed.
End AddNode.

Lemma add_runs_queues W y q l p (K : Z -> sys -> Prop) :
  queues W y -> W !! q = Some l -> p <> 0 ->
  (p ∈ l -> K 0 y) ->
  (p ∉ l -> total W = WAIT_NODE_MAX -> K (- ENOMEM) y) ->
  (p ∉ l -> total W < WAIT_NODE_MAX -> forall y', queues (<[q := p :: l]> W) y' -> links_only y y' -> K 0 y') ->
  runs (wait_queue_add q p) y K.
Proof.
  intros HW E Hp K1 K2 K3. destruct (queues_facts _ _ _ _ HW E) as (Hq & _ & _ & Hlen). destruct HW as (Q & R & ->).
  rewrite lookup_fmap in E. destruct (Q !! q) as [l0|] eqn:E0; [|done]. injection E as <-.
  destruct (rep_head _ _ _ _ R E0) as (hd & Hhd & Hc). destruct (total_full Q y R) as [Htot Hfull].
  unfold wait_queue_add, wait_queue_find. rewrite (proj2 (Z.eqb_neq q 0) Hq), (proj2 (Z.eqb_neq p 0) Hp). cbn [orb].
  apply runs_bind, runs_bind, (runs_get_head q hd); [done|]. apply (find_loop_runs _ _ l0); [done| |].
  { unfold procs_of in Hlen. rewrite length_map in Hlen. unfold pool_fuel, WAIT_NODE_MAX. lia. }
  intros [i|] Hr.
  - apply runs_ret, K1. destruct Hr as [Hi <-]. apply list_elem_of_fmap. by exists i.
  - apply runs_bind. set (busy := fun k (y' : sys) => y' = y /\ forall j, 0 <= j < k -> w_proc (node (y_nodes y) j) <> 0).
    apply (runs_for_return busy); [unfold WAIT_NODE_MAX; lia|split; [done|lia]| |].
    + intros i t Hi [-> Hb]. apply runs_bind, runs_get_node.
      destruct (Z.eqb_spec (w_proc (node (y_nodes y) i)) 0) as [Ef|Ef].
      * apply runs_bind, (runs_get_head q hd); [done|]. apply runs_bind, runs_put_node, runs_bind, (runs_put_head q (Some i) hd); [done|].
        apply runs_ret, runs_ret. cbn. rewrite total_procs in K3. apply K3; [done| | |by destruct y].
        -- destruct (decide (total Q = WAIT_NODE_MAX)) as [Et|]; [|lia]. exfalso. by apply (proj2 Hfull Et i Hi).
        -- by apply add_queues.
      * apply runs_ret. split; [done|]. intros j Hj. destruct (decide (j = i)) as [->|]; [done|]. apply Hb. lia.
    + intros t [-> Hb]. apply runs_ret, K2; [done|]. rewrite total_procs. by apply Hfull.
Qed.

(** ** Waking *)

Definition wake (r : process_t) : process_t :=
  match state r with
  | PROCESS_STATE_WAITING | PROCESS_STATE_SLEEPING => set_run PROCESS_STATE_RUNNING 0 r
  | _ => r
  end.
Definition wake_in (p : Z) (ps : gmap Z process_t) : gmap Z process_t := alter wake p ps.

Lemma queues_ext W y y' : y_nodes y' = y_nodes y -> y_heads y' = y_heads y -> queues W y -> queues W y'.
Proof.
  intros En Eh (Q & [R1 R2 R3 R4 R5 R6 R7] & ->). exists Q. rewrite En. split; [|done]. constructor; rewrite ?En, ?Eh; done.
Qed.

Lemma wake_proc_runs p y (K : unit -> sys -> Prop) :
  p <> 0 -> is_Some (y_procs y !! p) -> K tt (set_procs (wake_in p (y_procs y)) y) -> runs (wait_queue_wake_proc p) y K.
Proof.
  intros Hp [r Hr] HK. unfold wait_queue_wake_proc. rewrite (proj2 (Z.eqb_neq p 0) Hp).
  apply runs_bind, (runs_get_proc p r); [done|].
  assert (Halt : wake_in p (y_procs y) = <[p := wake r]> (y_procs y)).
  { apply map_eq. intros x. unfold wake_in. destruct (decide (x = p)) as [->|Hne].
    - by rewrite lookup_alter_eq, lookup_insert_eq, Hr.
    - by rewrite lookup_alter_ne, lookup_insert_ne. }
  rewrite Halt in HK. unfold wake in HK.
  assert (Hid : set_procs (<[p := r]> (y_procs y)) y = y) by (rewrite insert_id by done; by destruct y).
  destruct (state r); try (apply runs_ret; by rewrite Hid in HK); by eapply runs_upd_proc.
Qed.

(** Only the wait queues and the states of processes changed. *)
Definition waits_only (y y' : sys) : Prop :=
  y' = set_procs (y_procs y') (set_heads (y_heads y') (set_nodes (y_nodes y') y)).

Lemma waits_only_trans y1 y2 y3 : waits_only y1 y2 -> waits_only y2 y3 -> waits_only y1 y3.
Proof. destruct y1, y2, y3. unfold waits_only, set_procs, set_heads, set_nodes. cbn. intros [=] [=]. by subst. Qed.

Lemma links_waits y y' : links_only y y' -> waits_only y y'.
Proof. intros ->. by destruct y. Qed.

Definition alive (W : gmap Z (list Z)) (ps : gmap Z process_t) : Prop :=
  forall q l p, W !! q = Some l -> p ∈ l -> is_Some (ps !! p).

Lemma alive_remove W ps p : alive W ps -> alive (remove_from p W) (wake_in p ps).
Proof.
  intros Ha q l x E Hx. unfold remove_from in E. rewrite lookup_fmap in E. destruct (W !! q) as [l0|] eqn:E0; [|done].
  injection E as <-. apply list_elem_of_filter in Hx as [Hne Hx]. unfold wake_in. rewrite lookup_alter_ne by congruence. by eapply Ha.
Qed.

Lemma wake_head_runs W y q i p l (K : unit -> sys -> Prop) :
  queues W y -> alive W (y_procs y) -> W !! q = Some (p :: l) -> w_proc (node (y_nodes y) i) = p ->
  (forall y', queues (remove_from p W) y' -> waits_only y y' -> y_procs y' = wake_in p (y_procs y) -> K tt y') ->
  runs (wake_head q i) y K.
Proof.
  intros HW Ha E Hi HK. destruct (queues_facts _ _ _ _ HW E) as (_ & _ & Hnz & _). specialize (Hnz p ltac:(by left)).
  unfold wake_head. apply runs_bind, runs_get_node. rewrite Hi. cbv zeta. apply runs_bind, wake_proc_runs; [done| |].
  { eapply Ha; [exact E|by left]. }
  rewrite (proj2 (Z.eqb_neq p 0) Hnz). cbn [negb].
  apply (remove_proc_queues W); [by apply (queues_ext W y)|done|]. intros y' HW' Hlo. apply HK; [done| |].
  - eapply waits_only_trans; [|by apply links_waits]. by destruct y.
  - by rewrite (links_only_procs _ _ Hlo).
Qed.

Definition remove_all (l : list Z) (W : gmap Z (list Z)) : gmap Z (list Z) := foldl (fun W p => remove_from p W) W l.
Definition wake_all (l : list Z) (ps : gmap Z process_t) : gmap Z process_t := foldl (fun ps p => wake_in p ps) ps l.

Lemma wake_loop_runs fuel W y q l (K : unit -> sys -> Prop) :
  queues W y -> alive W (y_procs y) -> W !! q = Some l -> (length l < fuel)%nat ->
  (forall y', queues (remove_all l W) y' -> waits_only y y' -> y_procs y' = wake_all l (y_procs y) -> K tt y') ->
  runs (wake_loop fuel q) y K.
Proof.
  revert W y l K. induction fuel as [|fuel IH]; intros W y l K HW Ha E Hf HK; [lia|]. cbn [wake_loop].
  destruct (queues_head _ _ _ _ HW E) as (hd & Hhd & Hm). apply runs_bind, (runs_get_head q hd); [done|].
  destruct hd as [i|], l as [|p l]; try done.
  - apply runs_bind, (wake_head_runs W y q i p l); try done. intros y1 HW1 Hw1 Hp1.
    destruct (queues_facts _ _ _ _ HW E) as (_ & Hn & _ & _). apply NoDup_cons in Hn as [Hpl _]. cbn in Hf.
    apply (IH (remove_from p W) y1 l); [done|rewrite Hp1; by apply alive_remove| |lia|].
    + unfold remove_from. rewrite lookup_fmap, E. cbn -[filter]. rewrite filter_cons_False by tauto. f_equal.
      apply filter_all_in. intros x Hx ->. done.
    + intros y2 HW2 Hw2 Hp2. apply HK; [done|by eapply waits_only_trans|]. by rewrite Hp2, Hp1.
  - apply runs_ret, HK; [done| |done]. by destruct y.
Qed.

(** ** Histories *)

Inductive wait_op :=
  | WAdd (q p : Z)
  | WRemove (p : Z)
  | WWakeOne (q : Z)
  | WWakeAll (q : Z).

Definition wait_step (o : wait_op) : M sys Z :=
  match o with
  | WAdd q p => wait_queue_add q p
  | WRemove p => wait_queue_remove_proc p ;;; ret 0
  | WWakeOne q => wait_queue_wake_one q ;;; ret 0
  | WWakeAll q => wait_queue_wake_all q ;;; ret 0
  end.

Fixpoint wait_run (ops : list wait_op) : M sys (list Z) :=
  match ops with
  | [] => ret []
  | o :: ops => r <- wait_step o ;; rs <- wait_run ops ;; ret (r :: rs)
  end.

(** What the operations mean for the map of queues and for the processes. *)
Definition spec_wait (o : wait_op) (W : gmap Z (list Z)) (ps : gmap Z process_t) : Z * (gmap Z (list Z) * gmap Z process_t) :=
  match o with
  | WAdd q p =>
    if (q =? 0) || (p =? 0) then (- EINVAL, (W, ps)) else
    if bool_decide (p ∈ default [] (W !! q)) then (0, (W, ps)) else
    if total W <? WAIT_NODE_MAX then (0, (<[q := p :: default [] (W !! q)]> W, ps)) else (- ENOMEM, (W, ps))
  | WRemove p => (0, (if p =? 0 then W else remove_from p W, ps))
  | WWakeOne q =>
    match default [] (W !! q) with [] => (0, (W, ps)) | p :: _ => (0, (remove_from p W, wake_in p ps)) end
  | WWakeAll q => let l := default [] (W !! q) in (0, (remove_all l W, wake_all l ps))
  end.

Fixpoint spec_wait_run (ops : list wait_op) (W : gmap Z (list Z)) (ps : gmap Z process_t)
    : list Z * (gmap Z (list Z) * gmap Z process_t) :=
  match ops with
  | [] => ([], (W, ps))
  | o :: ops =>
    let '(r, (W, ps)) := spec_wait o W ps in let '(rs, s) := spec_wait_run ops W ps in (r :: rs, s)
  end.

(** The queue of an operation is null or initialised, its process exists. *)
Definition wait_op_ok (Qs Ps : gset Z) (o : wait_op) : Prop :=
  match o with
  | WAdd q p => (q = 0 \/ q ∈ Qs) /\ (p = 0 \/ p ∈ Ps)
  | WRemove _ => True
  | WWakeOne q | WWakeAll q => q = 0 \/ q ∈ Qs
  end.

Lemma dom_remove_from p W : dom (remove_from p W) = dom W.
Proof. apply dom_fmap_L. Qed.

Lemma dom_remove_all l W : dom (remove_all l W) = dom W.
Proof. revert W. induction l as [|p l IH]; intros W; [done|]. change (dom (remove_all l (remove_from p W)) = dom W).
  rewrite IH. apply dom_remove_from. Qed.

Lemma dom_wake_in p ps : dom (wake_in p ps) = dom ps.
Proof. apply dom_alter_L. Qed.

Lemma dom_wake_all l ps : dom (wake_all l ps) = dom ps.
Proof. revert ps. induction l as [|p l IH]; intros ps; [done|]. change (dom (wake_all l (wake_in p ps)) = dom ps).
  rewrite IH. apply dom_wake_in. Qed.

Lemma alive_remove_from W ps p : alive W ps -> alive (remove_from p W) ps.
Proof.
  intros Ha q l x E Hx. unfold remove_from in E. rewrite lookup_fmap in E. destruct (W !! q) as [l0|] eqn:E0; [|done].
  injection E as <-. apply list_elem_of_filter in Hx as [_ Hx]. by eapply Ha.
Qed.

Lemma alive_remove_all l W ps : alive W ps -> alive (remove_all l W) (wake_all l ps).
Proof. revert W ps. induction l as [|p l IH]; intros W ps Ha; [done|]. by apply IH, alive_remove. Qed.

Lemma queues_zero W y : queues W y -> W !! 0 = None.
Proof. intros (Q & R & ->). by rewrite lookup_fmap, (wr_null _ _ R). Qed.

(** One operation. *)
Lemma wait_step_refines W y o :
  queues W y -> alive W (y_procs y) -> wait_op_ok (dom W) (dom (y_procs y)) o ->
  runs (wait_step o) y (fun r y' =>
    let '(r0, (W', ps')) := spec_wait o W (y_procs y) in
    r = r0 /\ queues W' y' /\ y_procs y' = ps' /\ alive W' ps' /\ waits_only y y' /\ dom W' = dom W /\ dom ps' = dom (y_procs y)).
Proof.
  intros HW Ha Hok. assert (Hrefl : waits_only y y) by (by destruct y).
  assert (H0 := queues_zero _ _ HW). destruct o as [q p|p|q|q]; cbn [wait_step spec_wait wait_op_ok] in *.
  - destruct (Z.eqb_spec q 0) as [->|Hq]; [by apply runs_ret|]. destruct (Z.eqb_spec p 0) as [->|Hp].
    { unfold wait_queue_add. rewrite (proj2 (Z.eqb_neq q 0) Hq). by apply runs_ret. }
    cbn [orb]. destruct Hok as [[?|[l E]%elem_of_dom] [?|Hpp]]; try done. rewrite E. cbn [default].
    apply (add_runs_queues W y q l p); try done.
    + intros Hin. by rewrite bool_decide_eq_true_2.
    + intros Hni Ht. rewrite bool_decide_eq_false_2 by done. by rewrite (proj2 (Z.ltb_ge _ _)) by lia.
    + intros Hni Ht y' HW' Hlo. rewrite bool_decide_eq_false_2 by done. rewrite (proj2 (Z.ltb_lt _ _)) by done.
      split_and!; try done; [by apply links_only_procs| |by apply links_waits|].
      * intros q' l' x E' Hx. destruct (decide (q' = q)) as [->|Hne].
        -- rewrite lookup_insert_eq in E'. injection E' as <-. apply elem_of_cons in Hx as [->|Hx]; [by apply elem_of_dom|by eapply Ha].
        -- rewrite lookup_insert_ne in E' by done. by eapply Ha.
      * rewrite dom_insert_L. apply elem_of_dom_2 in E. apply subseteq_union_1_L. by intros x ->%elem_of_singleton.
  - destruct (Z.eqb_spec p 0) as [->|Hp]; [by apply runs_ret|]. apply runs_bind, (remove_proc_queues W); try done.
    intros y' HW' Hlo. apply runs_ret. split_and!; try done; [by apply links_only_procs|by apply alive_remove_from|by apply links_waits|apply dom_remove_from].
  - unfold wait_queue_wake_one. destruct (Z.eqb_spec q 0) as [->|Hq]; [rewrite H0; by apply runs_ret|].
    destruct Hok as [?|[l E]%elem_of_dom]; [done|]. rewrite E. cbn [default].
    destruct (queues_head _ _ _ _ HW E) as (hd & Hhd & Hm). apply runs_bind, runs_bind, (runs_get_head q hd); [done|].
    destruct hd as [i|], l as [|p l]; try done.
    apply (wake_head_runs W y q i p l); try done. intros y' HW' Hwo Hp'. apply runs_ret.
    split_and!; try done; [by apply alive_remove|apply dom_remove_from|apply dom_wake_in].
  - unfold wait_queue_wake_all. destruct (Z.eqb_spec q 0) as [->|Hq]; [rewrite H0; by apply runs_ret|].
    destruct Hok as [?|[l E]%elem_of_dom]; [done|]. rewrite E. cbn [default].
    destruct (queues_facts _ _ _ _ HW E) as (_ & _ & _ & Hlen).
    apply runs_bind, (wake_loop_runs _ W y q l); try done; [unfold pool_fuel, WAIT_NODE_MAX; lia|].
    intros y' HW' Hwo Hp'. apply runs_ret.
    split_and!; try done; [by apply alive_remove_all|apply dom_remove_all|apply dom_wake_all].
Qed.

(** C16: the wait queues refine their specification.  Whatever sequence of additions,
    removals and wake-ups is made, no call loops or follows a dangling link, and every
    result, the processes on every queue (last comer first) and the states of the
    processes are those of the specification: a process is put on a queue once, a call
    fails only when all 128 places are taken, and waking a process makes it runnable
    if it waits or sleeps and takes it off every queue it was on. *)
Theorem wait_queues_refine ops W y :
  queues W y -> alive W (y_procs y) -> Forall (wait_op_ok (dom W) (dom (y_procs y))) ops ->
  runs (wait_run ops) y (fun rs y' => exists W',
    spec_wait_run ops W (y_procs y) = (rs, (W', y_procs y')) /\ queues W' y' /\ waits_only y y').
Proof.
  revert W y. induction ops as [|o ops IH]; intros W y HW Ha Hok; cbn [wait_run spec_wait_run].
  - apply runs_ret. exists W. split_and!; try done. by destruct y.
  - apply Forall_cons in Hok as [Ho Hops]. apply runs_bind. eapply runs_mono; [by apply (wait_step_refines W y o)|].
    intros r y1 H. destruct (spec_wait o W (y_procs y)) as [r0 [W1 ps1]]. destruct H as (-> & HW1 & <- & Ha1 & Hwo & Hd1 & Hd2).
    apply runs_bind. eapply runs_mono; [apply (IH W1 y1); [done|done|by rewrite Hd1, Hd2]|].
    intros rs y2 (W2 & E & HW2 & Hwo2). apply runs_ret. exists W2. rewrite E. split_and!; try done. by eapply waits_only_trans.
Qed.

(** Two processes and two queues. *)
Definition sleeper (n : Z) : process_t :=
  Process 0 0 0 n 0 0 0x1000 0 PROCESS_STATE_WAITING 0 0 [] 0 0 0 0.
Definition sys_example : sys :=
  Sys (Kernel (Machine (Kmem 0 0 pmm_example) (fun _ _ => 0) 0 true) [] (KallocStats 0 0 0 0 0))
    {[ 100 := sleeper 1; 200 := sleeper 2 ]} (replicate 128 zero_node) {[ 10 := None; 20 := None ]} None
    (Sched 0 [] 0 0 (-1) 0 0) (Timer 0 300 0) (Context_ 0 0 0).
Definition queues_example : gmap Z (list Z) := {[ 10 := []; 20 := [] ]}.

Lemma sys_example_queues : queues queues_example sys_example.
Proof.
  exists queues_example. split; [|by vm_compute]. assert (Hn : forall i, node (y_nodes sys_example) i = zero_node).
  { intros i. destruct (decide (0 <= i < 128)); [by apply zget_replicate|]. destruct (decide (i < 0)).
    - unfold zget. by replace (Z.to_nat i) with 0%nat by lia.
    - apply zget_out. vm_compute zlen. lia. }
  assert (Hq : forall q l, queues_example !! q = Some l -> l = []).
  { intros q l. unfold queues_example. intros [[_ <-]|[_ [_ <-]%lookup_singleton_Some]]%lookup_insert_Some; done. }
  constructor; try done.
  - intros q. unfold queues_example, sys_example. cbn [y_heads]. destruct (decide (q = 10)) as [->|]; [by rewrite !lookup_insert_eq|].
    rewrite !lookup_insert_ne by done. destruct (decide (q = 20)) as [->|]; [by rewrite !lookup_singleton_eq|].
    by rewrite !lookup_singleton_ne.
  - intros q l i E Hi. apply Hq in E as ->. by apply elem_of_nil in Hi.
  - intros i Hi Hp. by rewrite Hn in Hp.
  - intros q l ->%Hq. constructor.
  - intros q l ->%Hq. constructor.
Qed.

Lemma wait_queues_refine_witness :
  let ops := [WAdd 10 100; WAdd 20 100; WAdd 10 200; WAdd 0 200; WWakeOne 10; WWakeAll 20] in
  runs (wait_run ops) sys_example (fun rs y' => rs = [0; 0; 0; -22; 0; 0] /\ queues {[ 10 := []; 20 := [] ]} y'
    /\ (state <$> y_procs y' !! 100) = Some PROCESS_STATE_RUNNING).
Proof.
  intros ops. assert (Hok : Forall (wait_op_ok (dom queues_example) (dom (y_procs sys_example))) ops).
  { repeat constructor; cbn [wait_op_ok]; try split; try (right; apply elem_of_dom; vm_compute; eexists; reflexivity); left; reflexivity. }
  assert (Ha : alive queues_example (y_procs sys_example)).
  { intros q l p E Hp. unfold queues_example in E.
    apply lookup_insert_Some in E as [[_ <-]|[_ [_ <-]%lookup_singleton_Some]]; by apply elem_of_nil in Hp. }
  eapply runs_mono; [apply (wait_queues_refine ops queues_example sys_example sys_example_queues Ha Hok)|].
  intros rs y' (W' & E & HW & _). assert (Hs : exists ps, spec_wait_run ops queues_example (y_procs sys_example)
    = ([0; 0; 0; -22; 0; 0], ({[ 10 := []; 20 := [] ]}, ps)) /\ (state <$> ps !! 100) = Some PROCESS_STATE_RUNNING).
  { eexists. split; [vm_compute; reflexivity|vm_compute; reflexivity]. }
  destruct Hs as (ps & Hs & Hst). rewrite Hs in E. injection E as <- <- <-. split; [reflexivity|]. split; [exact HW|exact Hst].
Defined.
