(* ===== verification/Sched.v ===== *)
(** * Timer and scheduler

    Models [src/src/kernel/timer.c], [src/src/kernel/scheduler.c] and the functions of
    [process.c] they call to wake processes.  [sched_switch], the assembly routine that
    leaves for another process, is the update of the processor context: what follows it
    in the source belongs to the process that is resumed later.  The loops around
    [cli; hlt] stop the machine.  Releasing the resources of a process that exits
    (closing its handles) is a parameter of the two functions that call it. *)
From S2P Require Import Prelude BootInfo Pmm Memory Paging Kalloc Klib Arrays VmArea Task Wait.
From Stdlib Require Import ZArith Lia ZifyBool Bool.
From stdpp Require Import base numbers gmap list.
Local Open Scope Z_scope.
Local Open Scope kernel_scope.

Definition SMALLOS_TIMER_HZ : Z := 300.
Definition SMALLOS_MS_PER_SECOND : Z := 1000.

(** ** timer.c *)

(** The writes to I/O ports and the new state. *)
Definition timer_init (frequency : Z) (t : timer) : list (Z * Z) * timer :=
  let frequency := if frequency =? 0 then SMALLOS_TIMER_HZ else frequency in
  let divisor := 1193180 / frequency in
  ([(0x43, 0x36); (0x40, u8 (Z.land divisor 0xFF)); (0x40, u8 (Z.land (Z.shiftr divisor 8) 0xFF))],
   Timer (timer_ticks t) frequency (realtime_base_seconds t)).

Definition timer_handle_irq (t : timer) : timer := Timer (u32 (timer_ticks t + 1)) (timer_hz t) (realtime_base_seconds t).
Definition timer_get_ticks (t : timer) : Z := timer_ticks t.
Definition timer_get_seconds (t : timer) : Z := if timer_hz t =? 0 then 0 else timer_ticks t / timer_hz t.
Definition timer_get_realtime_seconds (t : timer) : Z := u32 (realtime_base_seconds t + timer_get_seconds t).
Definition timer_set_realtime_seconds (seconds : Z) (t : timer) : timer :=
  Timer (timer_ticks t) (timer_hz t) (u32 (seconds - timer_get_seconds t)).
Definition timer_get_hz (t : timer) : Z := timer_hz t.

Definition timer_ms_to_ticks_round_up (ms : Z) (t : timer) : Z :=
  if ms =? 0 then 0 else
  if timer_hz t =? 0 then 0 else
  let whole_seconds := ms / SMALLOS_MS_PER_SECOND in
  let rem_ms := ms mod SMALLOS_MS_PER_SECOND in
  let ticks := u32 (whole_seconds * timer_hz t) in
  u32 (ticks + u32 (u32 (rem_ms * timer_hz t) + (SMALLOS_MS_PER_SECOND - 1)) / SMALLOS_MS_PER_SECOND).

(** ** Functions of process.c *)

Definition special_wait_object_kind (k : Z) : bool :=
  (k =? PROCESS_HANDLE_KIND_TIMERFD) || (k =? PROCESS_HANDLE_KIND_SIGNALFD).

Definition process_fd_frame_count (capacity : Z) : Z := PAGE_ALIGN (u32 (capacity * SIZEOF_FD_ENTRY)) / PAGE_SIZE.

Definition process_fd_table_is_valid (p : process_t) : bool :=
  if fds p =? 0 then false else
  if (fd_capacity p =? 0) || (PROCESS_FD_LIMIT_HARD <? fd_capacity p) || (fd_limit p =? 0)
     || (PROCESS_FD_LIMIT_HARD <? fd_limit p) || (fd_limit p <? fd_capacity p) then false else
  if (fd_table_frame p =? 0) || (fd_table_frames p =? 0) then false else
  if negb (paging_phys_is_pmm_frame (fd_table_frame p)) then false else
  if fd_table_frames p <? process_fd_frame_count (fd_capacity p) then false else
  fds p =? u32 (KERNEL_PMM_MAP_BASE + u32 (fd_table_frame p - PMM_BASE)).

(** [special_wait_object(ent, 0)]: the object, whose first field is its wait queue. *)
Definition special_wait_object (ent : fd_entry) : M sys Z :=
  if negb (special_wait_object_kind (fd_kind ent)) then ret 0 else
  if aux_frame ent =? 0 then ret 0 else on_alloc (on_machine (paging_phys_to_kernel_virt (aux_frame ent))).

Definition timerfd_ready_at (ent : fd_entry) (now : Z) : bool :=
  if negb (fd_kind ent =? PROCESS_HANDLE_KIND_TIMERFD) then false else
  negb (timer_deadline ent =? 0) && (0 <=? i32 (now - timer_deadline ent)).

Definition process_wake_timerfds (proc now : Z) : M sys unit :=
  if proc =? 0 then ret tt else
  p <- get_proc proc ;;
  if negb (process_fd_table_is_valid p) then ret tt else
  for_each (up_to 0 (fd_capacity p) 1) (fun i =>
    let ent := zget zero_fd (fd_entries p) i in
    if (valid ent =? 0) || negb (fd_kind ent =? PROCESS_HANDLE_KIND_TIMERFD) then ret tt else
    if negb (timerfd_ready_at ent now) then ret tt else
    obj <- special_wait_object ent ;;
    if obj =? 0 then ret tt else wait_queue_wake_all obj).

Definition process_find_by_pid (n : Z) : M sys Z :=
  if n =? 0 then ret 0 else
  reg <- gets y_registry ;;
  match reg with
  | None => ret 0
  | Some slots =>
    r <- for_return slots (fun proc =>
      if proc =? 0 then ret None else
      p <- get_proc proc ;;
      ret (if pid p =? n then Some proc else None)) ;;
    ret (default 0 r)
  end.

Definition process_wake_parent_waiter (child : Z) : M sys unit :=
  if child =? 0 then ret tt else
  c <- get_proc child ;;
  if parent_pid c =? 0 then ret tt else
  parent <- process_find_by_pid (parent_pid c) ;;
  if parent =? 0 then ret tt else
  p <- get_proc parent ;;
  match state p with
  | PROCESS_STATE_WAITING => upd_proc parent (set_run PROCESS_STATE_RUNNING 0)
  | _ => ret tt
  end.

(** ** scheduler.c *)

Definition SCHED_MAX_PROCS : Z := 128.
Definition SCHED_INITIAL_PROCS : Z := 32.
Definition SCHED_QUANTUM_MS : Z := 20.
Definition SCHED_TICKS_PER_QUANTUM : Z :=
  (SMALLOS_TIMER_HZ * SCHED_QUANTUM_MS + (SMALLOS_MS_PER_SECOND - 1)) / SMALLOS_MS_PER_SECOND.
Definition SIZEOF_POINTER : Z := 4.

Definition sch : M sys sched := gets y_sched.
Definition set_sch (f : sched -> sched) : M sys unit := modify (fun y => set_sched (f (y_sched y)) y).

Definition set_run_queue (slots : list Z) (count current ticks : Z) (s : sched) : sched :=
  Sched (s_table s) slots count (s_capacity s) current ticks (s_boot_esp s).
Definition set_current (i : Z) (s : sched) : sched :=
  Sched (s_table s) (s_slots s) (s_count s) (s_capacity s) i (s_tick_count s) (s_boot_esp s).
Definition set_tick_count (n : Z) (s : sched) : sched :=
  Sched (s_table s) (s_slots s) (s_count s) (s_capacity s) (s_current_idx s) n (s_boot_esp s).
Definition slot (s : sched) (i : Z) : Z := zget 0 (s_slots s) i.

Section Scheduler.
Variable L : layout.

Definition sched_proc_cr3 (proc : Z) : M sys Z :=
  if proc =? 0 then ret (paging_get_kernel_pd L) else
  p <- get_proc proc ;;
  ret (if proc_pd p =? 0 then paging_get_kernel_pd L else proc_pd p).

Definition sched_proc_esp0 (proc : Z) : M sys Z :=
  if proc =? 0 then ret KERNEL_BOOT_STACK_TOP else
  p <- get_proc proc ;;
  if kernel_stack_frame p =? 0 then ret KERNEL_BOOT_STACK_TOP else
  v <- on_alloc (on_machine (paging_phys_to_kernel_virt (kernel_stack_frame p))) ;;
  ret (u32 (v + u32 (kernel_stack_frames p * PAGE_SIZE))).

Definition eligible (p : process_t) : bool :=
  bool_decide (state p = PROCESS_STATE_RUNNING) && negb (sched_esp p =? 0).

(** The loop of [sched_find_next_runnable_from]. *)
Fixpoint find_runnable (tries : nat) (next : Z) : M sys Z :=
  match tries with
  | O => ret (-1)
  | S tries =>
    s <- sch ;;
    let next := if s_count s <=? next then 0 else next in
    let candidate := slot s next in
    ok <- (if candidate =? 0 then ret false else p <- get_proc candidate ;; ret (eligible p)) ;;
    if ok then ret next else find_runnable tries (next + 1)
  end.

Definition sched_find_next_runnable_from (start_idx : Z) : M sys Z :=
  s <- sch ;;
  if s_count s <=? 0 then ret (-1) else find_runnable (Z.to_nat (s_count s)) start_idx.

(** The call of [sched_switch] for the process [nxt]. *)
Definition switch_to (nxt : Z) : M sys unit :=
  p <- get_proc nxt ;;
  cr3 <- sched_proc_cr3 nxt ;;
  esp0 <- sched_proc_esp0 nxt ;;
  modify (set_cpu (Context_ (sched_esp p) cr3 esp0)).

Definition sched_do_switch (esp : Z) : M sys unit :=
  s <- sch ;;
  if (s_current_idx s <? 0) || (s_count s <=? s_current_idx s) then ret tt else
  upd_proc (slot s (s_current_idx s)) (fun p => set_esp esp (cpu_ticks p) p) ;;;
  if s_count s <=? 1 then ret tt else
  next <- sched_find_next_runnable_from (Z.rem (s_current_idx s + 1) (s_count s)) ;;
  if (next <? 0) || (next =? s_current_idx s) then ret tt else
  set_sch (set_current next) ;;;
  switch_to (slot s next).

Definition sched_wake_sleepers (now : Z) : M sys unit :=
  s <- sch ;;
  for_each (up_to 0 (s_count s) 1) (fun i =>
    s <- sch ;;
    let proc := slot s i in
    if proc =? 0 then ret tt else
    process_wake_timerfds proc now ;;;
    p <- get_proc proc ;;
    if negb (bool_decide (state p = PROCESS_STATE_SLEEPING)) then ret tt else
    if 0 <=? i32 (now - sleep_until p) then upd_proc proc (set_run PROCESS_STATE_RUNNING 0) else ret tt).

Definition sched_init : M sys unit :=
  table <- on_alloc (kcalloc SCHED_INITIAL_PROCS SIZEOF_POINTER) ;;
  if table =? 0 then halt else
  set_sch (fun _ => Sched table (replicate (Z.to_nat SCHED_INITIAL_PROCS) 0) 0 SCHED_INITIAL_PROCS (-1) 0 0).

Definition sched_grow : M sys bool :=
  s <- sch ;;
  if SCHED_MAX_PROCS <=? s_capacity s then ret false else
  let new_capacity := s_capacity s * 2 in
  let new_capacity := if new_capacity <? SCHED_INITIAL_PROCS then SCHED_INITIAL_PROCS else new_capacity in
  let new_capacity := if SCHED_MAX_PROCS <? new_capacity then SCHED_MAX_PROCS else new_capacity in
  new_table <- on_alloc (kcalloc (u32 new_capacity) SIZEOF_POINTER) ;;
  if new_table =? 0 then ret false else
  let copied := negb (s_table s =? 0) && (0 <? s_count s) in
  let old := if copied then take (Z.to_nat (s_count s)) (s_slots s) else [] in
  (if copied then on_alloc (kfree (s_table s)) else ret tt) ;;;
  set_sch (fun s => Sched new_table (old ++ replicate (Z.to_nat new_capacity - length old) 0) (s_count s) new_capacity
    (s_current_idx s) (s_tick_count s) (s_boot_esp s)) ;;;
  ret true.

Definition sched_enqueue (proc : Z) : M sys bool :=
  if proc =? 0 then ret false else
  s <- sch ;;
  ok <- (if s_capacity s <=? s_count s then sched_grow else ret true) ;;
  if negb ok then ret false else
  set_sch (fun s => set_run_queue (zset (s_slots s) (s_count s) proc) (s_count s + 1) (s_current_idx s) (s_tick_count s) s) ;;;
  ret true.

Definition sched_index (s : sched) (proc : Z) : Z :=
  match list_find (fun i => slot s i = proc) (up_to 0 (s_count s) 1) with Some (_, i) => i | None => -1 end.

Definition sched_dequeue (proc : Z) : M sys unit :=
  if proc =? 0 then ret tt else
  s <- sch ;;
  let idx := sched_index s proc in
  if idx <? 0 then ret tt else
  set_sch (fun s =>
    let slots := zset (move_down 0 idx (s_count s - 1) (s_slots s)) (s_count s - 1) 0 in
    let count := s_count s - 1 in
    let current :=
      if count =? 0 then -1
      else if idx <? s_current_idx s then s_current_idx s - 1
      else if count <=? s_current_idx s then 0 else s_current_idx s in
    set_run_queue slots count current 0 s).

(** [boot_esp] is the stack pointer [sched_switch] saves. *)
Definition sched_start (first_proc boot_esp : Z) : M sys unit :=
  if first_proc =? 0 then ret tt else
  s <- sch ;;
  let idx := sched_index s first_proc in
  set_sch (fun s => if 0 <=? idx then set_current idx s else s) ;;;
  s <- sch ;;
  if s_current_idx s <? 0 then ret tt else
  set_sch (fun s => Sched (s_table s) (s_slots s) (s_count s) (s_capacity s) (s_current_idx s) (s_tick_count s) boot_esp) ;;;
  switch_to first_proc.

Definition sched_tick (esp : Z) : M sys unit :=
  set_sch (fun s => set_tick_count (u32 (s_tick_count s + 1)) s) ;;;
  s <- sch ;;
  (if (0 <=? s_current_idx s) && (s_current_idx s <? s_count s)
   then upd_proc (slot s (s_current_idx s)) (fun p => set_esp esp (u32 (cpu_ticks p + 1)) p) else ret tt) ;;;
  now <- gets (fun y => timer_get_ticks (y_timer y)) ;;
  sched_wake_sleepers now ;;;
  s <- sch ;;
  blocked <- (if (0 <=? s_current_idx s) && (s_current_idx s <? s_count s) && negb (slot s (s_current_idx s) =? 0)
    then p <- get_proc (slot s (s_current_idx s)) ;; ret (negb (bool_decide (state p = PROCESS_STATE_RUNNING))) else ret false) ;;
  if blocked then set_sch (set_tick_count 0) ;;; sched_do_switch esp else
  if s_tick_count s <? SCHED_TICKS_PER_QUANTUM then ret tt else
  set_sch (set_tick_count 0) ;;;
  sched_do_switch esp.

Definition sched_yield_now (esp : Z) : M sys unit :=
  set_sch (set_tick_count 0) ;;;
  sched_do_switch esp.

Definition sched_current : M sys Z :=
  s <- sch ;;
  ret (if (s_current_idx s <? 0) || (s_count s <=? s_current_idx s) then 0 else slot s (s_current_idx s)).

Section Exit.
Variable process_release_exit_resources : Z -> M sys unit.

Definition set_zombie (proc : Z) : M sys unit := upd_proc proc (fun p => set_run PROCESS_STATE_ZOMBIE (sleep_until p) p).

Definition sched_exit_current (esp : Z) : M sys unit :=
  s <- sch ;;
  if (s_current_idx s <? 0) || (s_count s <=? s_current_idx s) then halt else
  let cur := slot s (s_current_idx s) in
  if cur =? 0 then halt else
  upd_proc cur (fun p => set_esp esp (cpu_ticks p) p) ;;;
  process_release_exit_resources cur ;;;
  set_zombie cur ;;;
  process_wake_parent_waiter cur ;;;
  sched_dequeue cur ;;;
  s <- sch ;;
  if (s_count s <=? 0) || (s_current_idx s <? 0) then halt else
  next <- sched_find_next_runnable_from (s_current_idx s) ;;
  if next <? 0 then halt else
  set_sch (set_current next) ;;;
  s <- sch ;;
  switch_to (slot s next).

Definition sched_kill (proc esp : Z) : M sys unit :=
  if proc =? 0 then ret tt else
  cur <- sched_current ;;
  if proc =? cur then sched_exit_current esp else
  process_release_exit_resources proc ;;;
  set_zombie proc ;;;
  process_wake_parent_waiter proc ;;;
  sched_dequeue proc.
End Exit.

(** The process pointers copied to [out], at most [max] of them. *)
Definition sched_snapshot_process_group (pgid_ max : Z) : M sys (list Z) :=
  if (pgid_ =? 0) || (max <=? 0) then ret [] else
  s <- sch ;;
  for_acc (up_to 0 (s_count s) 1) [] (fun out i =>
    if max <=? zlen out then ret out else
    let proc := slot s i in
    if proc =? 0 then ret out else
    p <- get_proc proc ;;
    ret (if pgid p =? pgid_ then out ++ [proc] else out)).

Definition sched_snapshot_all (max : Z) : M sys (list Z) :=
  if max <=? 0 then ret [] else
  s <- sch ;;
  for_acc (up_to 0 (s_count s) 1) [] (fun out i =>
    if max <=? zlen out then ret out else
    let proc := slot s i in
    ret (if negb (proc =? 0) then out ++ [proc] else out)).

(** The timer interrupt ([idt.c]); ticking the sound driver and acknowledging the
    interrupt touch none of this state. *)
Definition SCHED_RESUME_RETADDR_OFFSET : Z := 8.
Definition irq0_handler_main (esp : Z) : M sys unit :=
  modify (fun y => set_timer (timer_handle_irq (y_timer y)) y) ;;;
  sched_tick (u32 (esp - SCHED_RESUME_RETADDR_OFFSET)).

(** [sys_sleep_impl] ([syscall_time.c]) up to the point where the process parks until it
    is running again. *)
Definition sys_sleep_impl (ticks : Z) : M sys Z :=
  if ticks =? 0 then ret 0 else
  proc <- sched_current ;;
  if proc =? 0 then ret (- EINVAL) else
  now <- gets (fun y => timer_get_ticks (y_timer y)) ;;
  upd_proc proc (set_run PROCESS_STATE_SLEEPING (u32 (now + ticks))) ;;;
  ret 0.

Definition sched_count : M sys Z := s <- sch ;; ret (s_count s).
Definition sched_capacity : M sys Z := s <- sch ;; ret (s_capacity s).
End Scheduler.
