(* ===== verification/SchedProps.v ===== *)
(** * Scheduling: invariant, bounded waiting, sleeping

    The run queue is a ring.  The distance of a process is the number of places between
    the current process and it; a switch shortens the distance of every runnable
    process, so a process that stays runnable gets the processor after a number of
    interrupts that is bounded by its distance and by the processes created and killed
    meanwhile. *)
From S2P Require Import Prelude BootInfo Pmm Memory Paging AddressProps Kalloc Klib Arrays VmArea Task Wait WaitProps Sched.
From Stdlib Require Import ZArith Lia ZifyBool Bool.
From stdpp Require Import base numbers gmap list.
Local Open Scope Z_scope.
Local Open Scope kernel_scope.

(** ** Invariant *)

Record queue_ok (s : sched) : Prop := QueueOk {
  qo_len : zlen (s_slots s) = s_capacity s;
  qo_cap : s_capacity s <= SCHED_MAX_PROCS;
  qo_count : 0 <= s_count s <= s_capacity s;
  qo_cur : 0 <= s_current_idx s < s_count s;
  qo_nz : forall i, 0 <= i < s_count s -> slot s i <> 0;
  qo_inj : forall i j, 0 <= i < s_count s -> 0 <= j < s_count s -> slot s i = slot s j -> i = j
}.

(** What running does not change of a process. *)
Definition bare (r : process_t) : process_t := set_run PROCESS_STATE_UNUSED 0 (set_esp 0 0 r).

Definition stack_ok (r : process_t) : Prop :=
  kernel_stack_frame r = 0 \/ paging_phys_is_pmm_frame (kernel_stack_frame r) = true.

Definition kernel_alias (f : Z) : Z := u32 (KERNEL_PMM_MAP_BASE + u32 (f - PMM_BASE)).

(** The queues of the armed timers of a process are among [D]. *)
Definition timers_ok (D : gset Z) (r : process_t) : Prop :=
  process_fd_table_is_valid r = true -> forall i, 0 <= i < fd_capacity r ->
  let ent := zget zero_fd (fd_entries r) i in
  valid ent <> 0 -> fd_kind ent = PROCESS_HANDLE_KIND_TIMERFD -> aux_frame ent <> 0 ->
  paging_phys_is_pmm_frame (aux_frame ent) = true /\ (kernel_alias (aux_frame ent) = 0 \/ kernel_alias (aux_frame ent) ∈ D).

(** The wait queues are [D], and no process of [X] is on one. *)
Record procs_ok (X D : gset Z) (y : sys) : Prop := ProcsOk {
  po_slot : forall i, 0 <= i < s_count (y_sched y) -> is_Some (y_procs y !! slot (y_sched y) i);
  po_proc : forall p r, y_procs y !! p = Some r -> stack_ok r /\ timers_ok D r;
  po_wait : exists W, queues W y /\ alive W (y_procs y) /\ dom W = D /\ forall x q l, x ∈ X -> W !! q = Some l -> x ∉ l;
  po_reg : forall l p, y_registry y = Some l -> p ∈ l -> p <> 0 -> is_Some (y_procs y !! p)
}.

Definition ready (p : Z) (ps : gmap Z process_t) : Prop := exists r, ps !! p = Some r /\ eligible r = true.

(** From [y] to [y'] the wait queues and the states of processes changed, and no process
    stopped being runnable; the processes of [X] did not change. *)
Record calm (X : gset Z) (y y' : sys) : Prop := Calm {
  ca_only : waits_only y y';
  ca_bare : bare <$> y_procs y' = bare <$> y_procs y;
  ca_ready : forall p, ready p (y_procs y) -> ready p (y_procs y');
  ca_same : forall x, x ∈ X -> y_procs y' !! x = y_procs y !! x
}.

Lemma calm_refl X y : calm X y y.
Proof. constructor; try done. by destruct y. Qed.

Lemma calm_trans X y1 y2 y3 : calm X y1 y2 -> calm X y2 y3 -> calm X y1 y3.
Proof.
  intros [A1 B1 C1 D1] [A2 B2 C2 D2]. constructor; [by eapply waits_only_trans|congruence|auto|].
  intros x Hx. by rewrite D2, D1.
Qed.

Lemma waits_only_fields y y' : waits_only y y' ->
  y_sched y' = y_sched y /\ y_timer y' = y_timer y /\ y_registry y' = y_registry y /\ y_kernel y' = y_kernel y /\ y_cpu y' = y_cpu y.
Proof. intros ->. done. Qed.

Lemma bare_some (ps ps' : gmap Z process_t) p : bare <$> ps' = bare <$> ps -> is_Some (ps !! p) -> is_Some (ps' !! p).
Proof.
  intros E [r Hr]. assert (Hl : (bare <$> ps') !! p = Some (bare r)) by (by rewrite E, lookup_fmap, Hr).
  rewrite lookup_fmap in Hl. by destruct (ps' !! p).
Qed.

Lemma bare_lookup (ps ps' : gmap Z process_t) p r' : bare <$> ps' = bare <$> ps -> ps' !! p = Some r' -> exists r, ps !! p = Some r /\ bare r' = bare r.
Proof.
  intros E Hr. assert (Hl : (bare <$> ps) !! p = Some (bare r')) by (by rewrite <- E, lookup_fmap, Hr).
  rewrite lookup_fmap in Hl. destruct (ps !! p) as [r|]; [|done]. exists r. split; [done|]. by apply (inj Some) in Hl.
Qed.

Lemma bare_ok D r r' : bare r' = bare r -> stack_ok r /\ timers_ok D r -> stack_ok r' /\ timers_ok D r'.
Proof.
  intros E [Hs Ht]. split.
  - change (stack_ok (bare r')). by rewrite E.
  - change (timers_ok D (bare r')). by rewrite E.
Qed.

(** The invariant depends on processes up to [bare]. *)
Lemma procs_ok_change X D y y' :
  procs_ok X D y -> bare <$> y_procs y' = bare <$> y_procs y -> y_registry y' = y_registry y ->
  (forall i, 0 <= i < s_count (y_sched y') -> is_Some (y_procs y !! slot (y_sched y') i)) ->
  (exists W, queues W y' /\ alive W (y_procs y) /\ dom W = D /\ forall x q l, x ∈ X -> W !! q = Some l -> x ∉ l) ->
  procs_ok X D y'.
Proof.
  intros [P1 P2 P3 P4] Hb Hr Hs (W & HW & Ha & Hd & Hx). constructor.
  - intros i Hi. eapply bare_some; [done|by apply Hs].
  - intros p r' Hp. destruct (bare_lookup _ _ _ _ Hb Hp) as (r & Hr0 & E). eapply bare_ok; [done|by eapply P2].
  - exists W. split_and!; try done. intros q l p E Hp. eapply bare_some; [done|by eapply Ha].
  - rewrite Hr. intros l p E Hp Hnz. eapply bare_some; [done|by eapply P4].
Qed.

(** A state in which only processes changed. *)
Lemma procs_ok_procs X D y ps : procs_ok X D y -> bare <$> ps = bare <$> y_procs y -> procs_ok X D (set_procs ps y).
Proof.
  intros P Hb. apply (procs_ok_change X D y); try done; [apply (po_slot _ _ _ P)|].
  destruct (po_wait _ _ _ P) as (W & HW & HR). exists W. split; [by apply (queues_ext W y)|done].
Qed.

Lemma procs_ok_sched X D y s :
  procs_ok X D y -> (forall i, 0 <= i < s_count s -> exists j, 0 <= j < s_count (y_sched y) /\ slot s i = slot (y_sched y) j) ->
  procs_ok X D (set_sched s y).
Proof.
  intros P Hs. apply (procs_ok_change X D y); try done.
  - intros i Hi. destruct (Hs i Hi) as (j & Hj & E). cbn [set_sched y_sched]. rewrite E. by apply (po_slot _ _ _ P).
  - destruct (po_wait _ _ _ P) as (W & HW & HR). exists W. split; [by apply (queues_ext W y)|done].
Qed.

Lemma procs_ok_misc X D y t c :
  procs_ok X D y -> procs_ok X D (set_timer t y) /\ procs_ok X D (set_cpu c y).
Proof.
  intros P. destruct (po_wait _ _ _ P) as (W & HW & HR).
  split; (apply (procs_ok_change X D y); try done; [apply (po_slot _ _ _ P)|exists W; split; [by apply (queues_ext W y)|done]]).
Qed.

(** ** Updating a process *)

Lemma bare_insert (ps : gmap Z process_t) p r r' : ps !! p = Some r -> bare r' = bare r -> bare <$> <[p := r']> ps = bare <$> ps.
Proof.
  intros Hp E. apply map_eq. intros x. rewrite !lookup_fmap. destruct (decide (x = p)) as [->|Hne].
  - by rewrite lookup_insert_eq, Hp; cbn; rewrite E.
  - by rewrite lookup_insert_ne.
Qed.

Lemma ready_insert (ps : gmap Z process_t) p r r' x : ps !! p = Some r -> (eligible r = true -> eligible r' = true) -> ready x ps -> ready x (<[p := r']> ps).
Proof.
  intros Hp He (s & Hs & Hel). destruct (decide (x = p)) as [->|Hne].
  - exists r'. rewrite lookup_insert_eq. split; [done|]. apply He. congruence.
  - exists s. by rewrite lookup_insert_ne.
Qed.

(** [p] is made runnable. *)
Lemma calm_insert X y p r r' :
  y_procs y !! p = Some r -> bare r' = bare r -> (eligible r = true -> eligible r' = true) -> p ∉ X ->
  calm X y (set_procs (<[p := r']> (y_procs y)) y).
Proof.
  intros Hp E He Hx. constructor.
  - by destruct y.
  - by eapply bare_insert.
  - intros x. by eapply ready_insert.
  - intros x Hx'. apply lookup_insert_ne. by intros ->.
Qed.

Lemma bare_wake r : bare (wake r) = bare r.
Proof. unfold wake. by destruct (state r). Qed.

Lemma eligible_wake r : eligible r = true -> eligible (wake r) = true.
Proof. unfold wake, eligible. by destruct (state r) eqn:E; cbn; rewrite ?E. Qed.

Lemma wake_in_bare p ps : bare <$> wake_in p ps = bare <$> ps.
Proof.
  apply map_eq. intros x. unfold wake_in. rewrite !lookup_fmap. destruct (decide (x = p)) as [->|Hne].
  - rewrite lookup_alter_eq. destruct (ps !! p); [|done]. cbn. by rewrite bare_wake.
  - by rewrite lookup_alter_ne.
Qed.

Lemma wake_in_ready p ps x : ready x ps -> ready x (wake_in p ps).
Proof.
  intros (r & Hr & He). unfold wake_in. destruct (decide (x = p)) as [->|Hne].
  - exists (wake r). rewrite lookup_alter_eq, Hr. split; [done|]. by apply eligible_wake.
  - exists r. by rewrite lookup_alter_ne.
Qed.

Lemma wake_all_facts l ps :
  bare <$> wake_all l ps = bare <$> ps /\ (forall x, ready x ps -> ready x (wake_all l ps)) /\
  (forall x, x ∉ l -> wake_all l ps !! x = ps !! x).
Proof.
  revert ps. induction l as [|p l IH]; intros ps; [done|]. unfold wake_all in *. cbn [foldl].
  destruct (IH (wake_in p ps)) as (H1 & H2 & H3). split_and!.
  - by rewrite H1, wake_in_bare.
  - intros x Hx. by apply H2, wake_in_ready.
  - intros x Hx. apply not_elem_of_cons in Hx as [Hne Hx]. rewrite H3 by done. unfold wake_in. by rewrite lookup_alter_ne by congruence.
Qed.

Lemma remove_all_lookup l W q k : remove_all l W !! q = Some k -> exists k0, W !! q = Some k0 /\ forall x, x ∈ k -> x ∈ k0.
Proof.
  revert W. induction l as [|p l IH]; intros W E; [by exists k|]. unfold remove_all in *. cbn [foldl] in E.
  destruct (IH _ E) as (k1 & E1 & Hk1). unfold remove_from in E1. rewrite lookup_fmap in E1.
  destruct (W !! q) as [k0|]; [|done]. injection E1 as <-. exists k0. split; [done|]. intros x Hx%Hk1.
  by apply list_elem_of_filter in Hx as [_ Hx].
Qed.

(** ** Waking *)

Lemma runs_kernel_virt f y (K : Z -> sys -> Prop) :
  paging_phys_is_pmm_frame f = true -> K (kernel_alias f) y -> runs (on_alloc (on_machine (paging_phys_to_kernel_virt f))) y K.
Proof.
  intros Hf HK. unfold runs, on_alloc, on_machine, paging_phys_to_kernel_virt. rewrite Hf. cbn [negb]. unfold ret.
  by destruct y as [[k sl st] ? ? ? ? ? ? ?].
Qed.

Lemma wake_queue_calm X D y q (K : unit -> sys -> Prop) :
  procs_ok X D y -> q = 0 \/ q ∈ D -> (forall y', procs_ok X D y' -> calm X y y' -> K tt y') -> runs (wait_queue_wake_all q) y K.
Proof.
  intros P Hq HK. destruct (po_wait _ _ _ P) as (W & HW & Ha & Hd & Hx). unfold wait_queue_wake_all.
  destruct (Z.eqb_spec q 0) as [->|Hnz]; [by apply runs_ret, HK; [|apply calm_refl]|].
  destruct Hq as [?|Hq]; [done|]. rewrite <- Hd in Hq. apply elem_of_dom in Hq as [l E].
  destruct (queues_facts _ _ _ _ HW E) as (_ & _ & _ & Hlen).
  apply (wake_loop_runs _ W y q l); try done; [unfold pool_fuel, WAIT_NODE_MAX; lia|].
  intros y' HW' Hwo Hp'. destruct (wake_all_facts l (y_procs y)) as (B1 & B2 & B3).
  destruct (waits_only_fields _ _ Hwo) as (Es & _ & Er & _). apply HK.
  - apply (procs_ok_change X D y); try done; [by rewrite Hp'|rewrite Es; apply (po_slot _ _ _ P)|].
    exists (remove_all l W). split_and!; try done; [|by rewrite dom_remove_all|].
    + intros q' k p E' Hp. destruct (remove_all_lookup _ _ _ _ E') as (k0 & E0 & Hk). by eapply Ha; [|apply Hk].
    + intros x q' k Hx' E' Hk. destruct (remove_all_lookup _ _ _ _ E') as (k0 & E0 & Hk0). by eapply Hx; [| |apply Hk0].
  - constructor; rewrite ?Hp'; try done. intros x Hx'. apply B3. by eapply Hx.
Qed.

(** Entries of the table are read once; waking leaves tables alone. *)
Lemma wake_timerfds_calm X D y p r now (K : unit -> sys -> Prop) :
  procs_ok X D y -> y_procs y !! p = Some r -> (forall y', procs_ok X D y' -> calm X y y' -> K tt y') ->
  runs (process_wake_timerfds p now) y K.
Proof.
  intros P Hr HK. assert (H0 := HK y P (calm_refl X y)). unfold process_wake_timerfds.
  destruct (p =? 0); [by apply runs_ret|]. apply runs_bind, (runs_get_proc p r); [done|].
  destruct (process_fd_table_is_valid r) eqn:Ev; cbn [negb]; [|by apply runs_ret].
  destruct (po_proc _ _ _ P p r Hr) as [_ Ht]. specialize (Ht Ev).
  assert (Hcap : 0 <= fd_capacity r \/ fd_capacity r < 0) by lia. destruct Hcap as [Hcap|Hcap].
  2:{ rewrite up_to_nil by lia. by apply runs_ret. }
  apply (runs_for_each (fun _ y' => procs_ok X D y' /\ calm X y y')); [done|split; [done|apply calm_refl]| |].
  2:{ intros t [Pt Ct]. by apply HK. }
  intros i t Hi [Pt Ct]. specialize (Ht i Hi). cbv zeta in Ht. set (ent := zget zero_fd (fd_entries r) i) in *.
  assert (Hskip : runs (ret tt) t (fun _ y' => procs_ok X D y' /\ calm X y y')) by (by apply runs_ret).
  destruct (Z.eqb_spec (valid ent) 0) as [?|Hv]; [done|]. destruct (Z.eqb_spec (fd_kind ent) PROCESS_HANDLE_KIND_TIMERFD) as [Hk|?]; [|done].
  cbn [orb negb]. destruct (timerfd_ready_at ent now); cbn [negb]; [|done]. apply runs_bind. unfold special_wait_object.
  unfold special_wait_object_kind. rewrite Hk. change (PROCESS_HANDLE_KIND_TIMERFD =? PROCESS_HANDLE_KIND_TIMERFD) with true. cbn [orb negb].
  destruct (Z.eqb_spec (aux_frame ent) 0) as [?|Ha]; [by apply runs_ret|]. destruct (Ht Hv Hk Ha) as [Hf Hq].
  apply runs_kernel_virt; [done|]. destruct (Z.eqb_spec (kernel_alias (aux_frame ent)) 0); [done|].
  apply (wake_queue_calm X D t); [done|done|]. intros y' Py Cy. split; [done|]. by eapply calm_trans.
Qed.

(** What [sched_wake_sleepers] does to a process on no wait queue. *)
Definition due (now : Z) (r : process_t) : process_t :=
  if bool_decide (state r = PROCESS_STATE_SLEEPING) && (0 <=? i32 (now - sleep_until r)) then set_run PROCESS_STATE_RUNNING 0 r else r.

Record woken (X : gset Z) (y y' : sys) (f : Z -> process_t -> process_t) : Prop := Woken {
  wk_only : waits_only y y';
  wk_bare : bare <$> y_procs y' = bare <$> y_procs y;
  wk_ready : forall p, ready p (y_procs y) -> ready p (y_procs y');
  wk_same : forall x, x ∈ X -> y_procs y' !! x = f x <$> y_procs y !! x
}.

Lemma due_facts now r : bare (due now r) = bare r /\ (eligible r = true -> due now r = r).
Proof.
  unfold due. destruct (bool_decide_reflect (state r = PROCESS_STATE_SLEEPING)) as [E|E]; cbn [andb]; [|done].
  split; [by destruct (0 <=? _)|]. unfold eligible. by rewrite E.
Qed.

Lemma due_runs p r now y (K : unit -> sys -> Prop) :
  y_procs y !! p = Some r -> K tt (set_procs (<[p := due now r]> (y_procs y)) y) ->
  runs (q <- get_proc p ;;
    if negb (bool_decide (state q = PROCESS_STATE_SLEEPING)) then ret tt else
    if 0 <=? i32 (now - sleep_until q) then upd_proc p (set_run PROCESS_STATE_RUNNING 0) else ret tt) y K.
Proof.
  intros Hr HK. apply runs_bind, (runs_get_proc p r); [done|]. unfold due in HK.
  assert (Hid : set_procs (<[p := r]> (y_procs y)) y = y) by (rewrite insert_id by done; by destruct y).
  destruct (bool_decide (state r = PROCESS_STATE_SLEEPING)); cbn [andb negb] in *; [|rewrite Hid in HK; by apply runs_ret].
  destruct (0 <=? i32 (now - sleep_until r)); [by eapply runs_upd_proc|]. rewrite Hid in HK. by apply runs_ret.
Qed.

(** The processes in the first [i] places are due. *)
Definition due_below (s : sched) (now i x : Z) (r : process_t) : process_t :=
  if bool_decide (x ∈ map (slot s) (up_to 0 i 1)) then due now r else r.

Lemma due_below_step s now i x r :
  0 <= i -> (forall j, 0 <= j < i -> slot s j <> slot s i) ->
  due_below s now (i + 1) x r = if x =? slot s i then due now r else due_below s now i x r.
Proof.
  intros Hi Hne. unfold due_below. rewrite up_to_snoc by lia. rewrite map_app. cbn [map].
  destruct (Z.eqb_spec x (slot s i)) as [->|Hx].
  - rewrite bool_decide_eq_true_2; [done|]. apply elem_of_app. right. by left.
  - rewrite (bool_decide_ext _ (x ∈ map (slot s) (up_to 0 i 1))); [done|]. rewrite elem_of_app, list_elem_of_singleton. tauto.
Qed.

Lemma due_below_here s now i r : 0 <= i -> (forall j, 0 <= j < i -> slot s j <> slot s i) -> due_below s now i (slot s i) r = r.
Proof.
  intros Hi Hne. unfold due_below. rewrite bool_decide_eq_false_2; [done|]. rewrite list_elem_of_fmap.
  intros (j & E & Hj). apply elem_of_up_to in Hj as (k & ? & ?); [|lia]. apply (Hne j); [lia|done].
Qed.

Lemma wake_sleepers_runs X D y now (K : unit -> sys -> Prop) :
  queue_ok (y_sched y) -> procs_ok X D y ->
  (forall y', procs_ok X D y' -> woken X y y' (due_below (y_sched y) now (s_count (y_sched y))) -> K tt y') ->
  runs (sched_wake_sleepers now) y K.
Proof.
  intros Q P HK. set (s := y_sched y) in *. unfold sched_wake_sleepers. apply runs_bind, runs_gets. fold s.
  apply (runs_for_each (fun i y' => procs_ok X D y' /\ woken X y y' (due_below s now i))).
  - apply (qo_count _ Q).
  - split; [done|]. constructor; try done; [by destruct y|]. intros x Hx. by destruct (y_procs y !! x).
  - intros i t Hi [Pt [W1 W2 W3 W4]]. apply runs_bind, runs_gets. destruct (waits_only_fields _ _ W1) as (Es & _).
    rewrite Es. fold s. cbv zeta. rewrite (proj2 (Z.eqb_neq (slot s i) 0)) by (by apply (qo_nz _ Q)).
    destruct (po_slot _ _ _ Pt i) as [r Hr]; [by rewrite Es|]. rewrite Es in Hr. fold s in Hr.
    apply runs_bind, (wake_timerfds_calm X D t (slot s i) r); [done|done|]. intros y1 P1 [C1 C2 C3 C4].
    destruct (bare_some _ _ (slot s i) C2) as [r1 Hr1]; [done|]. apply (due_runs (slot s i) r1); [done|].
    destruct (due_facts now r1) as [Hb He].
    assert (Hne : forall j, 0 <= j < i -> slot s j <> slot s i).
    { intros j Hj E. apply (qo_inj _ Q) in E; lia. }
    split; [by apply procs_ok_procs; [|eapply bare_insert]|]. constructor.
    + eapply waits_only_trans; [exact W1|]. eapply waits_only_trans; [exact C1|]. by destruct y1.
    + cbn [set_procs y_procs]. rewrite (bare_insert _ _ _ _ Hr1 Hb). congruence.
    + intros p Hp. cbn [set_procs y_procs]. eapply ready_insert; [done| |auto]. intros E. by rewrite He.
    + intros x Hx. cbn [set_procs y_procs]. destruct (y_procs y !! x) as [r0|] eqn:E0.
      2:{ specialize (W4 x Hx). rewrite E0 in W4. rewrite lookup_insert_ne; [by rewrite C4, W4|]. intros <-. rewrite W4 in Hr. discriminate Hr. }
      cbn [fmap option_fmap option_map]. specialize (C4 x Hx). specialize (W4 x Hx). rewrite E0 in W4. cbn in W4.
      rewrite due_below_step by (done || lia). destruct (Z.eqb_spec x (slot s i)) as [->|Hxi].
      * rewrite lookup_insert_eq. rewrite due_below_here in W4 by (done || lia). congruence.
      * rewrite lookup_insert_ne by done. congruence.
  - intros t [Pt Wt]. by apply HK.
Qed.

(** ** Choosing the next process *)

(** Places between [i] and [j] in a ring of [n]. *)
Definition dist (n i j : Z) : Z := if i <=? j then j - i else j - i + n.

Lemma find_runnable_runs y tries next j (K : Z -> sys -> Prop) :
  let s := y_sched y in
  queue_ok s -> (forall i, 0 <= i < s_count s -> is_Some (y_procs y !! slot s i)) ->
  0 <= next <= s_count s -> 0 <= j < s_count s -> ready (slot s j) (y_procs y) ->
  let from := if s_count s <=? next then 0 else next in
  dist (s_count s) from j < Z.of_nat tries ->
  (forall i, 0 <= i < s_count s -> ready (slot s i) (y_procs y) -> dist (s_count s) from i <= dist (s_count s) from j -> K i y) ->
  runs (find_runnable tries next) y K.
Proof.
  intros s Q Hs Hn Hj Hr. revert next Hn. induction tries as [|tries IH]; intros next Hn from Hd HK.
  { exfalso. unfold dist, from in Hd. destruct (s_count s <=? next), (_ <=? j) eqn:?; lia. }
  cbn [find_runnable]. apply runs_bind, runs_gets. fold s. fold from. cbv zeta.
  assert (Hfrom : 0 <= from < s_count s) by (unfold from; destruct (Z.leb_spec (s_count s) next); lia).
  rewrite (proj2 (Z.eqb_neq (slot s from) 0)) by (by apply (qo_nz _ Q)).
  destruct (Hs from Hfrom) as [r Er]. apply runs_bind, runs_bind, (runs_get_proc _ r); [done|]. apply runs_ret.
  destruct (eligible r) eqn:Ee.
  - apply runs_ret, HK; [done|by exists r|]. unfold dist. rewrite Z.leb_refl. destruct (from <=? j) eqn:?; lia.
  - assert (Hne : from <> j) by (intros <-; destruct Hr as (r' & ? & ?); congruence).
    assert (Hstep : forall i, 0 <= i < s_count s -> i <> from ->
      dist (s_count s) (if s_count s <=? from + 1 then 0 else from + 1) i = dist (s_count s) from i - 1).
    { intros i Hi Hif. unfold dist. destruct (Z.leb_spec (s_count s) (from + 1)); zcase; lia. }
    apply IH; [lia|rewrite Hstep by done; lia|]. intros i Hi Hri Hdi. apply HK; [done|done|].
    assert (i <> from) by (intros ->; destruct Hri as (r' & ? & ?); congruence).
    rewrite !Hstep in Hdi by done. lia.
Qed.

(** ** Switching *)

Section Switching.
Variable L : layout.

Definition context_of (r : process_t) : context :=
  Context_ (sched_esp r) (if proc_pd r =? 0 then paging_get_kernel_pd L else proc_pd r)
    (if kernel_stack_frame r =? 0 then KERNEL_BOOT_STACK_TOP
     else u32 (kernel_alias (kernel_stack_frame r) + u32 (kernel_stack_frames r * PAGE_SIZE))).

Lemma switch_to_runs y p r (K : unit -> sys -> Prop) :
  p <> 0 -> y_procs y !! p = Some r -> stack_ok r -> K tt (set_cpu (context_of r) y) -> runs (switch_to L p) y K.
Proof.
  intros Hp Hr Hs HK. unfold switch_to, sched_proc_cr3, sched_proc_esp0. rewrite (proj2 (Z.eqb_neq p 0) Hp).
  apply runs_bind, (runs_get_proc p r); [done|]. apply runs_bind, runs_bind, (runs_get_proc p r); [done|]. apply runs_ret.
  apply runs_bind, runs_bind, (runs_get_proc p r); [done|]. unfold context_of in HK.
  destruct (Z.eqb_spec (kernel_stack_frame r) 0) as [E|E]; [apply runs_ret; by apply runs_modify|].
  destruct Hs as [?|Hs]; [done|]. apply runs_bind, runs_kernel_virt; [done|]. apply runs_ret. by apply runs_modify.
Qed.

(** Process [p] is at place [j] of the run queue. *)
Definition place (y : sys) (p j : Z) : Prop := 0 <= j < s_count (y_sched y) /\ slot (y_sched y) j = p.

Record inv (D : gset Z) (y : sys) : Prop := Inv {
  in_queue : queue_ok (y_sched y);
  in_procs : procs_ok ∅ D y;
  in_tick : 0 <= s_tick_count (y_sched y) < SCHED_TICKS_PER_QUANTUM
}.

(** The processor was given to the process at place [next], which is not farther than
    any runnable process at a place [j]. *)
Record switched (D : gset Z) (y y' : sys) (p j next : Z) : Prop := Switched {
  sw_sched : y_sched y' = set_current next (y_sched y);
  sw_next : 0 <= next < s_count (y_sched y);
  sw_inv : inv D y';
  sw_dom : dom (y_procs y') = dom (y_procs y);
  sw_ready : ready p (y_procs y');
  sw_cpu : exists r, y_procs y' !! slot (y_sched y) next = Some r /\ y_cpu y' = context_of r
}.

Lemma queue_ok_current s i : queue_ok s -> 0 <= i < s_count s -> queue_ok (set_current i s).
Proof. intros [? ? ? ? ? ?] Hi. by constructor. Qed.

(** The common end of [sched_do_switch] and [sched_exit_current]. *)
Lemma switch_end D y p j next r (K : unit -> sys -> Prop) :
  inv D y -> ready p (y_procs y) -> 0 <= next < s_count (y_sched y) -> y_procs y !! slot (y_sched y) next = Some r ->
  (forall y', switched D y y' p j next -> K tt y') ->
  runs (switch_to L (slot (y_sched y) next)) (set_sched (set_current next (y_sched y)) y) K.
Proof.
  intros [Q P T] Hp Hn Hr HK. apply (switch_to_runs _ _ r); [by apply (qo_nz _ Q)|done|by eapply (po_proc _ _ _ P)|].
  apply HK. constructor; try done; [|by exists r]. constructor; [by apply queue_ok_current| |done].
  apply (procs_ok_misc _ _ _ (y_timer y)). apply procs_ok_sched; [done|]. intros i Hi. by exists i.
Qed.

Lemma bare_dom (ps ps' : gmap Z process_t) : bare <$> ps' = bare <$> ps -> dom ps' = dom ps.
Proof. intros E. by rewrite <- (dom_fmap_L bare ps'), E, dom_fmap_L. Qed.

(** Saving the stack pointer of a process other than [p]. *)
Lemma save_esp D y c r esp ticks p :
  procs_ok ∅ D y -> y_procs y !! c = Some r -> c <> p -> ready p (y_procs y) ->
  let y' := set_procs (<[c := set_esp esp ticks r]> (y_procs y)) y in
  procs_ok ∅ D y' /\ ready p (y_procs y') /\ dom (y_procs y') = dom (y_procs y).
Proof.
  intros P Hc Hne (r' & Hr' & He) y'. assert (Hb : bare <$> y_procs y' = bare <$> y_procs y) by (by eapply bare_insert).
  split_and!; [by apply procs_ok_procs| |by apply bare_dom]. exists r'. cbn. by rewrite lookup_insert_ne.
Qed.

(** Only [p] is at its place. *)
Lemma other_place y p j i : queue_ok (y_sched y) -> place y p j -> 0 <= i < s_count (y_sched y) -> i <> j -> slot (y_sched y) i <> p.
Proof. intros Q [Hj Hs] Hi Hne E. apply Hne, (qo_inj _ Q); [done|done|congruence]. Qed.

Lemma do_switch_runs D y p j esp (K : unit -> sys -> Prop) :
  inv D y -> place y p j -> ready p (y_procs y) -> j <> s_current_idx (y_sched y) ->
  (forall y' next, y_sched y' = set_current next (y_sched y) -> switched D y y' p j next ->
     dist (s_count (y_sched y)) next j < dist (s_count (y_sched y)) (s_current_idx (y_sched y)) j -> K tt y') ->
  runs (sched_do_switch L esp) y K.
Proof.
  intros I Hpl Hp Hcur HK. pose proof Hpl as [Hj Hslot]. pose proof I as [Q P T]. pose proof (qo_cur _ Q) as Hc. unfold sched_do_switch.
  apply runs_bind, runs_gets. set (s := y_sched y) in *. rewrite (proj2 (orb_false_iff _ _)) by lia.
  destruct (po_slot _ _ _ P _ Hc) as [rc Hrc]. fold s in Hrc.
  assert (Hcp : slot s (s_current_idx s) <> p) by (by apply (other_place y p j)).
  apply runs_bind, (runs_upd_proc _ _ rc); [done|].
  destruct (save_esp D y _ rc esp (cpu_ticks rc) p P Hrc Hcp Hp) as (P1 & Hp1 & Hd1).
  set (y1 := set_procs _ y) in *. assert (I1 : inv D y1) by done. rewrite (proj2 (Z.leb_gt (s_count s) 1)) by lia.
  apply runs_bind. unfold sched_find_next_runnable_from. apply runs_bind, runs_gets. change (y_sched y1) with s.
  rewrite (proj2 (Z.leb_gt (s_count s) 0)) by lia.
  set (nx := Z.rem _ _). assert (Hnx : 0 <= nx < s_count s /\ (nx = s_current_idx s + 1 \/ nx = 0 /\ s_current_idx s + 1 = s_count s)).
  { unfold nx. destruct (Z.leb_spec (s_count s) (s_current_idx s + 1)).
    - replace (s_current_idx s + 1) with (s_count s) by lia. rewrite Z.rem_same; lia.
    - rewrite Z.rem_small; lia. }
  clearbody nx. apply (find_runnable_runs y1 _ _ j); change (y_sched y1) with s; rewrite ?(proj2 (Z.leb_gt (s_count s) nx)) by lia; try done.
  - apply (po_slot _ _ _ P1).
  - lia.
  - by rewrite Hslot.
  - unfold dist. zcase; lia.
  - intros next Hn (r & Hr & _) Hd.
    assert (Hlt : next <> s_current_idx s /\ dist (s_count s) next j < dist (s_count s) (s_current_idx s) j).
    { revert Hd. unfold dist. zcase; lia. }
    destruct Hlt as [Hne Hlt]. rewrite (proj2 (orb_false_iff _ _)) by lia. apply runs_bind, runs_modify.
    change (slot s next) with (slot (y_sched y1) next). apply (switch_end D y1 p j next r); try done.
    intros y' [S1 S2 S3 S4 S5 S6]. apply (HK y' next); [done| |done]. constructor; try done. by rewrite S4.
Qed.

(** ** Leaving the queue *)

Definition dequeued (idx : Z) (s : sched) : sched :=
  let slots := zset (move_down 0 idx (s_count s - 1) (s_slots s)) (s_count s - 1) 0 in
  let count := s_count s - 1 in
  let current :=
    if count =? 0 then -1
    else if idx <? s_current_idx s then s_current_idx s - 1
    else if count <=? s_current_idx s then 0 else s_current_idx s in
  set_run_queue slots count current 0 s.

Lemma dequeued_slot s idx k : queue_ok s -> 0 <= idx < s_count s -> 0 <= k < s_count s - 1 ->
  slot (dequeued idx s) k = slot s (if idx <=? k then k + 1 else k).
Proof.
  intros Q Hi Hk. pose proof (qo_len _ Q). pose proof (qo_count _ Q). unfold slot, dequeued. cbn [s_slots set_run_queue].
  rewrite zget_zset_ne by lia. rewrite move_down_get by lia. rewrite (proj2 (Z.ltb_lt k _)), andb_true_r by lia.
  by destruct (idx <=? k).
Qed.

Lemma dequeued_ok s idx : queue_ok s -> 0 <= idx < s_count s -> 1 < s_count s -> queue_ok (dequeued idx s).
Proof.
  intros Q Hi Hc. pose proof (qo_cur _ Q). pose proof (qo_count _ Q).
  assert (Hn : s_count (dequeued idx s) = s_count s - 1) by done. constructor; rewrite ?Hn.
  - unfold dequeued. cbn [s_slots set_run_queue s_capacity]. rewrite zlen_zset, move_down_len. apply (qo_len _ Q).
  - apply (qo_cap _ Q).
  - unfold dequeued. cbn [set_run_queue s_capacity]. lia.
  - unfold dequeued. cbn [set_run_queue s_current_idx]. zcase; lia.
  - intros k Hk. rewrite dequeued_slot by (done || lia). apply (qo_nz _ Q). zcase; lia.
  - intros k l Hk Hl. rewrite !dequeued_slot by (done || lia). intros E. apply (qo_inj _ Q) in E; revert E; zcase; lia.
Qed.

(** A process at [j] other than the one that left. *)
Lemma dequeued_place y p j idx : queue_ok (y_sched y) -> place y p j -> 0 <= idx < s_count (y_sched y) -> idx <> j ->
  place (set_sched (dequeued idx (y_sched y)) y) p (if idx <? j then j - 1 else j).
Proof.
  intros Q [Hj E] Hi Hne. unfold place. cbn [set_sched y_sched]. set (s := y_sched y) in *.
  change (s_count (dequeued idx s)) with (s_count s - 1). split; [zcase; lia|]. rewrite dequeued_slot by (done || zcase; lia).
  rewrite <- E. f_equal. zcase; lia.
Qed.

Lemma dequeue_runs y q p j (K : unit -> sys -> Prop) :
  queue_ok (y_sched y) -> place y p j -> p <> q ->
  ((forall i, 0 <= i < s_count (y_sched y) -> slot (y_sched y) i <> q) -> K tt y) ->
  (forall idx, place y q idx -> idx <> j -> 1 < s_count (y_sched y) -> K tt (set_sched (dequeued idx (y_sched y)) y)) ->
  runs (sched_dequeue q) y K.
Proof.
  intros Q [Hj E] Hpq K1 K2. unfold sched_dequeue. destruct (Z.eqb_spec q 0) as [->|Hq].
  { apply runs_ret, K1. by apply (qo_nz _ Q). }
  apply runs_bind, runs_gets. unfold sched_index.
  pose proof (find_first_spec (fun i => slot (y_sched y) i = q) (s_count (y_sched y))) as Hf.
  destruct (list_find _ _) as [[n i]|]; cbv zeta.
  - destruct Hf as (Hi & Ei & _). rewrite (proj2 (Z.ltb_ge i 0)) by lia. apply runs_modify.
    assert (i <> j) by congruence. apply (K2 i); [done|done|lia].
  - rewrite (proj2 (Z.ltb_lt (-1) 0)) by lia. by apply runs_ret, K1.
Qed.

Lemma dequeued_procs D y idx : queue_ok (y_sched y) -> procs_ok ∅ D y -> 0 <= idx < s_count (y_sched y) ->
  procs_ok ∅ D (set_sched (dequeued idx (y_sched y)) y).
Proof.
  intros Q P Hi. apply procs_ok_sched; [done|]. intros i Hi'. change (s_count (dequeued _ ?s)) with (s_count s - 1) in Hi'.
  rewrite dequeued_slot by done. eexists. split; [|done]. zcase; lia.
Qed.

(** ** Ending a process *)

Lemma find_pid_runs D y n (K : Z -> sys -> Prop) :
  procs_ok ∅ D y -> (forall q, q = 0 \/ is_Some (y_procs y !! q) -> K q y) -> runs (process_find_by_pid n) y K.
Proof.
  intros P HK. unfold process_find_by_pid. destruct (n =? 0); [apply runs_ret, HK; by left|]. apply runs_bind, runs_gets.
  destruct (y_registry y) as [l|] eqn:El; [|apply runs_ret, HK; by left]. apply runs_bind.
  assert (Hl : forall p, p ∈ l -> p <> 0 -> is_Some (y_procs y !! p)) by (intros p; by apply (po_reg _ _ _ P)).
  clear El. induction l as [|q l IH]; cbn [for_return].
  { apply runs_ret, runs_ret, HK. by left. }
  assert (IH' := IH ltac:(intros p Hp; apply Hl; by right)). apply runs_bind.
  destruct (Z.eqb_spec q 0) as [->|Hq]; [by apply runs_ret|]. destruct (Hl q ltac:(by left) Hq) as [r Hr].
  apply runs_bind, (runs_get_proc q r); [done|]. apply runs_ret. destruct (pid r =? n); [|done].
  apply runs_ret, runs_ret, HK. right. by exists r.
Qed.

Lemma wake_parent_runs D y c (K : unit -> sys -> Prop) :
  procs_ok ∅ D y -> is_Some (y_procs y !! c) -> (forall y', procs_ok ∅ D y' -> calm ∅ y y' -> K tt y') ->
  runs (process_wake_parent_waiter c) y K.
Proof.
  intros P [r Hr] HK. assert (H0 := HK y P (calm_refl _ _)). unfold process_wake_parent_waiter.
  destruct (c =? 0); [by apply runs_ret|]. apply runs_bind, (runs_get_proc c r); [done|].
  destruct (parent_pid r =? 0); [by apply runs_ret|]. apply runs_bind, (find_pid_runs D); [done|]. intros q Hq.
  destruct (Z.eqb_spec q 0) as [|Hnz]; [by apply runs_ret|]. destruct Hq as [?|[rq Hrq]]; [done|].
  apply runs_bind, (runs_get_proc q rq); [done|]. destruct (state rq) eqn:Es; try by apply runs_ret.
  apply (runs_upd_proc q _ rq); [done|]. apply HK.
  - apply procs_ok_procs; [done|]. by eapply bare_insert.
  - apply (calm_insert _ _ _ rq); [done|done| |apply not_elem_of_empty]. unfold eligible. by rewrite Es.
Qed.

(** ** Events *)

(** [p] has the processor; or it waits, runnable, for at most [B] more interrupts and
    switches, with [room] free places in the table. *)
Definition got (p : Z) (y : sys) : Prop :=
  place y p (s_current_idx (y_sched y)) /\ exists r, y_procs y !! p = Some r /\ y_cpu y = context_of r.

Definition wait_bound (s : sched) (j : Z) : Z :=
  SCHED_TICKS_PER_QUANTUM * dist (s_count s) (s_current_idx s) j - s_tick_count s.

Record pending (D A : gset Z) (p room B : Z) (y : sys) : Prop := Pending {
  pe_inv : inv D y;
  pe_ready : ready p (y_procs y);
  pe_dom : dom (y_procs y) = A;
  pe_room : s_count (y_sched y) + room <= s_capacity (y_sched y);
  pe_place : exists j, place y p j /\ j <> s_current_idx (y_sched y) /\ wait_bound (y_sched y) j <= B
}.

Lemma dist_pos n i j : 0 <= i < n -> 0 <= j < n -> i <> j -> 0 < dist n i j.
Proof. intros. unfold dist. zcase; lia. Qed.

Lemma dist_self n i j : 0 <= i < n -> 0 <= j < n -> dist n i j <= 0 -> i = j.
Proof. intros Hi Hj. unfold dist. zcase; lia. Qed.

(** After a switch that brought [p] nearer than [d]. *)
Lemma switched_pending D A p room d y y' j next :
  switched D y y' p j next -> place y p j -> dom (y_procs y) = A -> s_count (y_sched y) + room <= s_capacity (y_sched y) ->
  0 <= s_tick_count (y_sched y) -> dist (s_count (y_sched y)) next j < d ->
  got p y' \/ pending D A p room (SCHED_TICKS_PER_QUANTUM * (d - 1)) y'.
Proof.
  intros [S1 S2 S3 S4 S5 (r & Hr & Hcpu)] [Hj Hslot] Hd Hroom Ht Hdist.
  assert (Hpl : place y' p j) by (unfold place; by rewrite S1). destruct (decide (j = next)) as [->|Hne].
  - left. rewrite Hslot in Hr. split; [by rewrite S1|by exists r].
  - right. constructor; rewrite ?S1; try done; [congruence|]. exists j. split_and!; try done.
    unfold wait_bound. unfold set_current. cbn [s_count s_current_idx s_tick_count].
    change SCHED_TICKS_PER_QUANTUM with 6. lia.
Qed.

Lemma do_switch_pending D A p room j esp y B :
  inv D y -> ready p (y_procs y) -> dom (y_procs y) = A -> s_count (y_sched y) + room <= s_capacity (y_sched y) ->
  place y p j -> j <> s_current_idx (y_sched y) ->
  SCHED_TICKS_PER_QUANTUM * (dist (s_count (y_sched y)) (s_current_idx (y_sched y)) j - 1) <= B ->
  runs (sched_do_switch L esp) y (fun _ y' => got p y' \/ pending D A p room B y').
Proof.
  intros I Hr Hd Hroom Hpl Hne HB. apply (do_switch_runs D y p j); try done. intros y' next E Hs Hlt.
  destruct (switched_pending D A p room _ y y' j next Hs Hpl Hd Hroom ltac:(apply I) Hlt) as [|[? ? ? ? (j' & ? & ? & ?)]]; [by left|].
  right. constructor; try done. exists j'. split_and!; try done. lia.
Qed.

Lemma queue_ok_tick s n : queue_ok s -> queue_ok (set_tick_count n s).
Proof. intros [? ? ? ? ? ?]. by constructor. Qed.

Lemma procs_ok_tick X D y n : procs_ok X D y -> procs_ok X D (set_sched (set_tick_count n (y_sched y)) y).
Proof. intros P. apply procs_ok_sched; [done|]. intros i Hi. by exists i. Qed.

(** Resetting the count of ticks and switching. *)
Lemma reset_pending D A p room j esp y B :
  queue_ok (y_sched y) -> procs_ok ∅ D y -> ready p (y_procs y) -> dom (y_procs y) = A ->
  s_count (y_sched y) + room <= s_capacity (y_sched y) -> place y p j -> j <> s_current_idx (y_sched y) ->
  SCHED_TICKS_PER_QUANTUM * (dist (s_count (y_sched y)) (s_current_idx (y_sched y)) j - 1) <= B ->
  runs (sched_yield_now L esp) y (fun _ y' => got p y' \/ pending D A p room B y').
Proof.
  intros Q P Hr Hd Hroom Hpl Hne HB. apply runs_bind, runs_modify. apply (do_switch_pending D A p room j); try done.
  constructor; [by apply queue_ok_tick|by apply procs_ok_tick|done].
Qed.

Lemma yield_pending D A p room B esp y :
  pending D A p room B y -> runs (sched_yield_now L esp) y (fun _ y' => got p y' \/ pending D A p room (B - 1) y').
Proof.
  intros [[Q P T] Hr Hd Hroom (j & Hpl & Hne & HB)]. apply (reset_pending D A p room j); try done.
  revert HB T. unfold wait_bound. change SCHED_TICKS_PER_QUANTUM with 6. lia.
Qed.

(** The end of [sched_tick], when [t] ticks have passed. *)
Lemma tick_end D A p room B esp y j t :
  queue_ok (y_sched y) -> procs_ok ∅ D y -> ready p (y_procs y) -> dom (y_procs y) = A ->
  s_count (y_sched y) + room <= s_capacity (y_sched y) -> place y p j -> j <> s_current_idx (y_sched y) ->
  s_tick_count (y_sched y) = t -> 0 < t <= SCHED_TICKS_PER_QUANTUM ->
  SCHED_TICKS_PER_QUANTUM * dist (s_count (y_sched y)) (s_current_idx (y_sched y)) j - t <= B ->
  runs (s <- sch ;;
    blocked <- (if (0 <=? s_current_idx s) && (s_current_idx s <? s_count s) && negb (slot s (s_current_idx s) =? 0)
      then p <- get_proc (slot s (s_current_idx s)) ;; ret (negb (bool_decide (state p = PROCESS_STATE_RUNNING))) else ret false) ;;
    if blocked : bool then set_sch (set_tick_count 0) ;;; sched_do_switch L esp else
    if s_tick_count s <? SCHED_TICKS_PER_QUANTUM then ret tt else
    set_sch (set_tick_count 0) ;;;
    sched_do_switch L esp) y (fun _ y' => got p y' \/ pending D A p room B y').
Proof.
  intros Q P Hr Hd Hroom Hpl Hne Et Ht HB. apply runs_bind, runs_gets. pose proof (qo_cur _ Q) as Hc.
  destruct (po_slot _ _ _ P _ Hc) as [rc Hrc]. rewrite (proj2 (Z.eqb_neq _ 0)) by (by apply (qo_nz _ Q)).
  rewrite (proj2 (Z.leb_le _ _)), (proj2 (Z.ltb_lt _ _)) by lia. cbn [andb negb].
  apply runs_bind, runs_bind, (runs_get_proc _ rc); [done|]. apply runs_ret.
  assert (Hswitch : runs (sched_yield_now L esp) y (fun _ y' => got p y' \/ pending D A p room B y')).
  { apply (reset_pending D A p room j); try done. revert Ht HB. change SCHED_TICKS_PER_QUANTUM with 6. lia. }
  destruct (negb _); [done|]. destruct (Z.ltb_spec (s_tick_count (y_sched y)) SCHED_TICKS_PER_QUANTUM); [|done].
  apply runs_ret. right. constructor; try done; [constructor; [done|done|lia]|]. exists j. split_and!; try done.
  unfold wait_bound. lia.
Qed.

Lemma irq0_pending D A p room B esp y :
  pending D A p room B y -> runs (irq0_handler_main L esp) y (fun _ y' => got p y' \/ pending D A p room (B - 1) y').
Proof.
  intros [[Q P T] Hr Hd Hroom (j & Hpl & Hne & HB)]. unfold irq0_handler_main, sched_tick. apply runs_bind, runs_modify.
  apply runs_bind, runs_modify, runs_bind, runs_gets. set (t := u32 _).
  assert (Et : t = s_tick_count (y_sched y) + 1).
  { unfold t. change (y_sched (set_timer _ y)) with (y_sched y). rewrite u32_small; [done|].
    revert T. change SCHED_TICKS_PER_QUANTUM with 6. lia. }
  clearbody t. set (y2 := set_sched _ _). set (s2 := y_sched y2). change (y_procs y2) with (y_procs y).
  assert (Q2 : queue_ok s2) by (by apply queue_ok_tick).
  assert (P2 : procs_ok ∅ D y2) by (apply procs_ok_tick; by apply (procs_ok_misc _ _ _ _ (y_cpu y))).
  pose proof (qo_cur _ Q2) as Hc. destruct (po_slot _ _ _ P2 _ Hc) as [rc Hrc].
  rewrite (proj2 (Z.leb_le 0 _)), (proj2 (Z.ltb_lt _ _)) by lia. cbn [andb].
  apply runs_bind, (runs_upd_proc _ _ rc); [done|].
  assert (Hcp : slot s2 (s_current_idx s2) <> p) by (by apply (other_place y2 p j)).
  destruct (save_esp D y2 _ rc (u32 (esp - SCHED_RESUME_RETADDR_OFFSET)) (u32 (cpu_ticks rc + 1)) p P2 Hrc Hcp Hr) as (P3 & Hr3 & Hd3).
  set (y3 := set_procs _ _) in *. apply runs_bind, runs_gets, runs_bind.
  apply (wake_sleepers_runs ∅ D y3); [done|done|]. intros y4 P4 [W1 W2 W3 _].
  destruct (waits_only_fields _ _ W1) as (Es & _). assert (Es2 : y_sched y4 = s2) by done.
  apply (tick_end D A p room (B - 1) _ y4 j t); rewrite ?Es2; try done.
  - auto.
  - rewrite (bare_dom _ _ W2). rewrite Hd3. exact Hd.
  - unfold place. by rewrite Es2.
  - lia.
  - revert HB. unfold wait_bound. change (s_count s2) with (s_count (y_sched y)).
    change (s_current_idx s2) with (s_current_idx (y_sched y)). lia.
Qed.

(** Releasing what a process holds when it ends: handles are closed, which may wake
    processes on their queues; the run queue, the timer and the registry stay as they
    are and no other process stops being runnable. *)
Class ExitResources (release : Z -> M sys unit) := {
  release_runs : forall D y p, queue_ok (y_sched y) -> procs_ok ∅ D y -> is_Some (y_procs y !! p) ->
    runs (release p) y (fun _ y' => procs_ok ∅ D y' /\ y_sched y' = y_sched y /\ dom (y_procs y') = dom (y_procs y)
      /\ forall x, x <> p -> ready x (y_procs y) -> ready x (y_procs y'))
}.

Section Ending.
Context (release : Z -> M sys unit) `{!ExitResources release}.

(** The steps that make [q] a zombie. *)
Lemma end_process_runs D y q p (k : M sys unit) (K : unit -> sys -> Prop) :
  queue_ok (y_sched y) -> procs_ok ∅ D y -> is_Some (y_procs y !! q) -> p <> q -> ready p (y_procs y) ->
  (forall y', procs_ok ∅ D y' -> y_sched y' = y_sched y -> dom (y_procs y') = dom (y_procs y) ->
     ready p (y_procs y') -> runs k y' K) ->
  runs (release q ;;; set_zombie q ;;; process_wake_parent_waiter q ;;; k) y K.
Proof.
  intros Q P Hq Hpq Hr HK. apply runs_bind. eapply runs_mono; [by apply (release_runs D)|].
  intros _ y1 (P1 & E1 & D1 & R1). assert (Hq1 : is_Some (y_procs y1 !! q)).
  { apply elem_of_dom. rewrite D1. by apply elem_of_dom. }
  destruct Hq1 as [r1 Hr1]. unfold set_zombie. apply runs_bind, (runs_upd_proc q _ r1); [done|]. set (y2 := set_procs _ _).
  assert (B2 : bare <$> y_procs y2 = bare <$> y_procs y1) by (by eapply bare_insert).
  assert (P2 : procs_ok ∅ D y2) by (by apply procs_ok_procs).
  apply runs_bind, (wake_parent_runs D y2); [done|cbn; rewrite lookup_insert_eq; done|]. intros y3 P3 [C1 C2 C3 _].
  destruct (waits_only_fields _ _ C1) as (E3 & _). assert (E : y_sched y3 = y_sched y) by (rewrite E3; exact E1).
  apply HK; [done|done| |].
  - by rewrite (bare_dom _ _ C2), (bare_dom _ _ B2).
  - apply C3. destruct (R1 p Hpq Hr) as (r & Hrp & He). exists r. cbn. by rewrite lookup_insert_ne.
Qed.

(** The end of [sched_exit_current]: the successor of the ended process, or the first
    runnable one after it, gets the processor. *)
Lemma exit_end D A p room B y j :
  inv D y -> ready p (y_procs y) -> dom (y_procs y) = A -> s_count (y_sched y) + room <= s_capacity (y_sched y) -> place y p j ->
  SCHED_TICKS_PER_QUANTUM * dist (s_count (y_sched y)) (s_current_idx (y_sched y)) j <= B ->
  runs (s <- sch ;;
    if (s_count s <=? 0) || (s_current_idx s <? 0) then halt else
    next <- sched_find_next_runnable_from (s_current_idx s) ;;
    if next <? 0 then halt else
    set_sch (set_current next) ;;;
    s <- sch ;;
    switch_to L (slot s next)) y (fun _ y' => got p y' \/ pending D A p room B y').
Proof.
  intros I Hr Hd Hroom Hpl HB. pose proof I as [Q P T]. pose proof Hpl as [Hj Hs]. apply runs_bind, runs_gets.
  set (s := y_sched y) in *. pose proof (qo_cur _ Q) as Hc. rewrite (proj2 (orb_false_iff _ _)) by lia. apply runs_bind.
  unfold sched_find_next_runnable_from. apply runs_bind, runs_gets. fold s. rewrite (proj2 (Z.leb_gt _ 0)) by lia.
  apply (find_runnable_runs y _ _ j); fold s; rewrite ?(proj2 (Z.leb_gt (s_count s) (s_current_idx s))) by lia; try done.
  - apply (po_slot _ _ _ P).
  - lia.
  - by rewrite Hs.
  - unfold dist. zcase; lia.
  - intros next Hn (r & Hr' & _) Hdist. rewrite (proj2 (Z.ltb_ge next 0)) by lia. apply runs_bind, runs_modify, runs_bind, runs_gets.
    change (slot (y_sched (set_sched (set_current next s) y)) next) with (slot s next).
    apply (switch_end D y p j next r); try done. intros y' Hsw.
    destruct (switched_pending D A p room (dist (s_count s) (s_current_idx s) j + 1) y y' j next) as [?|[? ? ? ? (j' & ? & ? & ?)]]; try done.
    + apply T.
    + revert Hdist. fold s. unfold dist. zcase; lia.
    + by left.
    + right. constructor; try done. exists j'. split_and!; try done. lia.
Qed.

(** A process leaving the queue brings no other process farther; when it is the current
    one, every other process comes nearer. *)
Lemma dequeued_dist s idx j :
  0 <= s_current_idx s < s_count s -> 0 <= idx < s_count s -> 0 <= j < s_count s -> idx <> j ->
  dist (s_count s - 1) (s_current_idx (dequeued idx s)) (if idx <? j then j - 1 else j)
  <= dist (s_count s) (s_current_idx s) j - (if idx =? s_current_idx s then 1 else 0).
Proof.
  intros Hc Hi Hj Hne. unfold dequeued. cbn [set_run_queue s_current_idx].
  destruct (Z.eqb_spec (s_count s - 1) 0); [lia|]. unfold dist. zcase; lia.
Qed.

Lemma dequeued_inv D y idx : queue_ok (y_sched y) -> procs_ok ∅ D y -> 0 <= idx < s_count (y_sched y) -> 1 < s_count (y_sched y) ->
  inv D (set_sched (dequeued idx (y_sched y)) y).
Proof. intros Q P Hi Hc. constructor; [by apply dequeued_ok|by apply dequeued_procs|done]. Qed.

Lemma exit_pending D A p room B esp y :
  pending D A p room B y -> runs (sched_exit_current L release esp) y (fun _ y' => got p y' \/ pending D A p room (B - 1) y').
Proof.
  intros [[Q P T] Hr Hd Hroom (j & Hpl & Hne & HB)]. unfold sched_exit_current. apply runs_bind, runs_gets.
  set (s := y_sched y) in *. pose proof (qo_cur _ Q) as Hc. rewrite (proj2 (orb_false_iff _ _)) by lia.
  destruct (po_slot _ _ _ P _ Hc) as [rc Hrc]. fold s in Hrc. cbv zeta. set (c := slot s (s_current_idx s)) in *.
  rewrite (proj2 (Z.eqb_neq c 0)) by (by apply (qo_nz _ Q)). assert (Hcp : c <> p) by (by apply (other_place y p j)).
  apply runs_bind, (runs_upd_proc _ _ rc); [done|].
  destruct (save_esp D y c rc esp (cpu_ticks rc) p P Hrc Hcp Hr) as (P1 & Hr1 & Hd1). set (y1 := set_procs _ y) in *.
  apply (end_process_runs D y1 c p); [done|done|cbn; by rewrite lookup_insert_eq|done|done|]. intros y2 P2 E2 D2 R2. change (y_sched y1) with s in E2.
  apply runs_bind, (dequeue_runs y2 c p j); rewrite ?E2; try done.
  { unfold place. by rewrite E2. }
  { intros Hno. by destruct (Hno _ Hc). }
  intros idx [Hi Ei] Hij Hcount. rewrite E2 in Hi, Ei. assert (idx = s_current_idx s) as -> by (by apply (qo_inj _ Q)).
  assert (Hpl2 : place y2 p j) by (unfold place; by rewrite E2). pose proof (proj1 Hpl) as Hj. fold s in Hj.
  apply (exit_end D A p room (B - 1) _ (if s_current_idx s <? j then j - 1 else j)).
  - rewrite <- E2. apply dequeued_inv; by rewrite ?E2.
  - done.
  - cbn. by rewrite D2, Hd1.
  - change (s_count s - 1 + room <= s_capacity s). lia.
  - rewrite <- E2. apply dequeued_place; rewrite ?E2; try done.
  - pose proof (dequeued_dist s (s_current_idx s) j Hc Hc Hj Hij) as Hdd. rewrite Z.eqb_refl in Hdd. cbn [set_sched y_sched].
    change (s_count (dequeued (s_current_idx s) s)) with (s_count s - 1). revert HB T. unfold wait_bound. change SCHED_TICKS_PER_QUANTUM with 6. lia.
Qed.

Lemma kill_pending D A p room B q esp y :
  pending D A p room B y -> q ∈ A -> q <> p ->
  runs (sched_kill L release q esp) y (fun _ y' => got p y' \/ pending D A p room (B + 5) y').
Proof.
  intros Pe Hq Hqp. pose proof Pe as [[Q P T] Hr Hd Hroom (j & Hpl & Hne & HB)]. unfold sched_kill.
  assert (Hkeep : got p y \/ pending D A p room (B + 5) y).
  { right. constructor; try done. exists j. split_and!; try done. lia. }
  destruct (q =? 0); [by apply runs_ret|]. apply runs_bind. unfold sched_current. apply runs_bind, runs_gets, runs_ret.
  destruct (Z.eqb_spec q (if (s_current_idx (y_sched y) <? 0) || (s_count (y_sched y) <=? s_current_idx (y_sched y)) then 0
    else slot (y_sched y) (s_current_idx (y_sched y)))) as [_|Hcur].
  { eapply runs_mono; [by apply (exit_pending D A p room B)|]. intros _ y' [?|[? ? ? ? (j' & ? & ? & ?)]]; [by left|].
    right. constructor; try done. exists j'. split_and!; try done. lia. }
  pose proof (qo_cur _ Q) as Hc. rewrite (proj2 (orb_false_iff _ _)) in Hcur by lia.
  apply (end_process_runs D y q p); [done|done|apply elem_of_dom; by rewrite Hd|done|done|]. intros y2 P2 E2 D2 R2.
  apply (dequeue_runs y2 q p j); rewrite ?E2; try done; [unfold place; by rewrite E2| |].
  - intros _. right. constructor; rewrite ?E2; try done; [constructor; by rewrite ?E2|by rewrite D2|].
    exists j. unfold place. rewrite E2. split_and!; try apply Hpl; [done|lia].
  - intros idx [Hi Ei] Hij Hcount. rewrite E2 in Hi, Ei. right. pose proof (proj1 Hpl) as Hj.
    pose proof (dequeued_dist (y_sched y) idx j Hc Hi Hj Hij) as Hdd.
    assert (Hic : idx <> s_current_idx (y_sched y)) by congruence. rewrite (proj2 (Z.eqb_neq _ _) Hic) in Hdd.
    constructor; [rewrite <- E2; apply dequeued_inv; by rewrite ?E2|done|cbn; by rewrite D2| |].
    + change (s_count (y_sched y) - 1 + room <= s_capacity (y_sched y)). lia.
    + exists (if idx <? j then j - 1 else j). split_and!.
      * rewrite <- E2. apply dequeued_place; rewrite ?E2; try done. unfold place. by rewrite E2.
      * unfold dequeued. cbn [set_sched y_sched set_run_queue s_current_idx]. zcase; lia.
      * unfold wait_bound. cbn [set_sched y_sched]. change (s_count (dequeued idx ?s)) with (s_count s - 1).
        change (s_tick_count (dequeued idx _)) with 0. revert HB T. unfold wait_bound. change SCHED_TICKS_PER_QUANTUM with 6. lia.
Qed.

(** ** Events that leave the processor with the current process *)

Lemma keep_pending D A A' p room B y y' :
  pending D A p room B y -> y_sched y' = y_sched y -> procs_ok ∅ D y' -> ready p (y_procs y') -> dom (y_procs y') = A' ->
  pending D A' p room B y'.
Proof.
  intros [[Q P T] Hr Hd Hroom (j & Hpl & Hne & HB)] E P' Hr' Hd'. constructor; rewrite ?E; try done; [constructor; by rewrite ?E|].
  exists j. unfold place. by rewrite E.
Qed.

Lemma current_runs y (K : Z -> sys -> Prop) :
  queue_ok (y_sched y) -> K (slot (y_sched y) (s_current_idx (y_sched y))) y -> runs sched_current y K.
Proof.
  intros Q HK. pose proof (qo_cur _ Q). unfold sched_current. apply runs_bind, runs_gets, runs_ret.
  by rewrite (proj2 (orb_false_iff _ _)) by lia.
Qed.

(** The current process, which is not [p], changes its state. *)
Lemma current_changes D A p room B y f (K : unit -> sys -> Prop) :
  pending D A p room B y -> (forall r, bare (f r) = bare r) ->
  (forall y', pending D A p room B y' -> K tt y') -> runs (upd_proc (slot (y_sched y) (s_current_idx (y_sched y))) f) y K.
Proof.
  intros Pe Hf HK. pose proof Pe as [[Q P T] Hr Hd Hroom (j & Hpl & Hne & HB)]. pose proof (qo_cur _ Q) as Hc.
  destruct (po_slot _ _ _ P _ Hc) as [r Er]. apply (runs_upd_proc _ _ r); [done|]. apply HK.
  assert (Hb := bare_insert _ _ _ (f r) Er (Hf r)). apply (keep_pending D A A p room B y); try done.
  - by apply procs_ok_procs.
  - destruct Hr as (rp & Hrp & He). exists rp. cbn. rewrite lookup_insert_ne; [done|]. by apply (other_place y p j).
  - cbn. by rewrite (bare_dom _ _ Hb).
Qed.

Lemma sleep_pending D A p room B ticks y :
  pending D A p room B y -> runs (sys_sleep_impl ticks) y (fun _ y' => pending D A p room B y').
Proof.
  intros Pe. unfold sys_sleep_impl. destruct (ticks =? 0); [by apply runs_ret|]. apply runs_bind, current_runs; [apply Pe|].
  rewrite (proj2 (Z.eqb_neq _ 0)); [|by apply qo_nz; [|apply qo_cur]; apply Pe]. apply runs_bind, runs_gets, runs_bind.
  apply (current_changes D A p room B); [done|done|]. intros y' Pe'. by apply runs_ret.
Qed.

(** [current->state = PROCESS_STATE_WAITING] *)
Definition wait_current : M sys unit :=
  c <- sched_current ;; upd_proc c (fun r => set_run PROCESS_STATE_WAITING (sleep_until r) r).

Lemma wait_current_pending D A p room B y : pending D A p room B y -> runs wait_current y (fun _ y' => pending D A p room B y').
Proof.
  intros Pe. apply runs_bind, current_runs; [apply Pe|]. apply (current_changes D A p room B); [done|done|]. done.
Qed.

Lemma spec_wait_facts o W ps r W' ps' : spec_wait o W ps = (r, (W', ps')) ->
  bare <$> ps' = bare <$> ps /\ forall x, ready x ps -> ready x ps'.
Proof.
  assert (H0 : bare <$> ps = bare <$> ps /\ forall x, ready x ps -> ready x ps) by done.
  destruct o as [q p|p|q|q]; cbn [spec_wait].
  - destruct ((q =? 0) || (p =? 0)); [by intros [= _ _ <-]|]. destruct (bool_decide _); [by intros [= _ _ <-]|].
    destruct (_ <? _); by intros [= _ _ <-].
  - by intros [= _ _ <-].
  - destruct (default [] (W !! q)) as [|p l]; [by intros [= _ _ <-]|]. intros [= _ _ <-].
    split; [apply wake_in_bare|]. intros x. apply wake_in_ready.
  - intros [= _ _ <-]. by destruct (wake_all_facts (default [] (W !! q)) ps) as (? & ? & _).
Qed.

Lemma wait_pending D A p room B o y :
  pending D A p room B y -> wait_op_ok D A o -> runs (wait_step o) y (fun _ y' => pending D A p room B y').
Proof.
  intros Pe Ho. pose proof Pe as [[Q P T] Hr Hd _ _]. destruct (po_wait _ _ _ P) as (W & HW & Ha & HD & _).
  eapply runs_mono; [apply (wait_step_refines W y o); [done|done|by rewrite HD, Hd]|]. intros r y' H.
  destruct (spec_wait o W (y_procs y)) as [r0 [W' ps']] eqn:E. destruct H as (_ & HW' & Ep & Ha' & Hwo & Hd1 & Hd2).
  destruct (spec_wait_facts _ _ _ _ _ _ E) as [Hb Hrd]. destruct (waits_only_fields _ _ Hwo) as (Es & _ & Er & _).
  apply (keep_pending D A A p room B y); rewrite ?Ep; try done; [|by auto|by rewrite Hd2].
  apply (procs_ok_change ∅ D y); rewrite ?Ep, ?Es; try done; [apply (po_slot _ _ _ P)|].
  exists W'. split_and!; try done; [|by rewrite Hd1]. intros q l x Eq Hx. eapply bare_some; [by symmetry|]. by eapply Ha'.
Qed.

(** A new process. *)
Definition spawn (q : Z) (r : process_t) : M sys unit :=
  modify (fun y => set_procs (<[q := r]> (y_procs y)) y) ;;;
  sched_enqueue q ;;;
  ret tt.

Lemma procs_ok_new D y q r : procs_ok ∅ D y -> y_procs y !! q = None -> stack_ok r -> timers_ok D r ->
  procs_ok ∅ D (set_procs (<[q := r]> (y_procs y)) y).
Proof.
  intros [P1 P2 P3 P4] Hq Hs Ht.
  assert (Hsome : forall x, is_Some (y_procs y !! x) -> is_Some (<[q := r]> (y_procs y) !! x)).
  { intros x Hx. destruct (decide (x = q)) as [->|]; [by rewrite lookup_insert_eq|by rewrite lookup_insert_ne]. }
  constructor.
  - intros i Hi. by apply Hsome, P1.
  - intros x rx. cbn. destruct (decide (x = q)) as [->|]; [rewrite lookup_insert_eq; by intros [= <-]|rewrite lookup_insert_ne by done; apply P2].
  - destruct P3 as (W & HW & Ha & HR). exists W. split_and!; try apply HR; [by apply (queues_ext W y)|].
    intros q' l x E Hx. by eapply Hsome, Ha.
  - intros l x E Hx Hnz. by eapply Hsome, P4.
Qed.

Definition enqueued (q : Z) (s : sched) : sched :=
  set_run_queue (zset (s_slots s) (s_count s) q) (s_count s + 1) (s_current_idx s) (s_tick_count s) s.

Lemma enqueued_slot q s i : queue_ok s -> s_count s < s_capacity s -> 0 <= i <= s_count s ->
  slot (enqueued q s) i = if i =? s_count s then q else slot s i.
Proof.
  intros Q Hc Hi. pose proof (qo_len _ Q). pose proof (qo_count _ Q). unfold slot, enqueued. cbn [set_run_queue s_slots].
  rewrite zget_zset by lia. by rewrite Z.eqb_sym.
Qed.

Lemma enqueued_ok q s : queue_ok s -> s_count s < s_capacity s -> q <> 0 -> (forall i, 0 <= i < s_count s -> slot s i <> q) ->
  queue_ok (enqueued q s).
Proof.
  intros Q Hc Hq Hne. pose proof (qo_len _ Q). pose proof (qo_count _ Q). pose proof (qo_cur _ Q).
  assert (Hn : s_count (enqueued q s) = s_count s + 1) by done. constructor; rewrite ?Hn.
  - unfold enqueued. cbn. by rewrite zlen_zset.
  - apply (qo_cap _ Q).
  - change (s_capacity (enqueued q s)) with (s_capacity s). lia.
  - change (s_current_idx (enqueued q s)) with (s_current_idx s). lia.
  - intros i Hi. rewrite enqueued_slot by (done || lia). destruct (Z.eqb_spec i (s_count s)); [done|]. apply (qo_nz _ Q). lia.
  - intros i j Hi Hj. rewrite !enqueued_slot by (done || lia).
    destruct (Z.eqb_spec i (s_count s)), (Z.eqb_spec j (s_count s)); try lia; intros E.
    + destruct (Hne j); [lia|done].
    + destruct (Hne i); [lia|done].
    + apply (qo_inj _ Q); [lia|lia|done].
Qed.

Lemma spawn_pending D A p room B q r y :
  pending D A p (room + 1) B y -> 0 <= room -> q <> 0 -> q ∉ A -> stack_ok r -> timers_ok D r ->
  runs (spawn q r) y (fun _ y' => pending D ({[q]} ∪ A) p room (B + 6) y').
Proof.
  intros [[Q P T] Hr Hd Hroom (j & Hpl & Hne & HB)] H0 Hq HqA Hs Ht.
  assert (Hnew : y_procs y !! q = None) by (apply not_elem_of_dom; by rewrite Hd).
  pose proof (procs_ok_new D y q r P Hnew Hs Ht) as P1. unfold spawn. apply runs_bind, runs_modify. set (y1 := set_procs _ y) in *.
  assert (Hno : forall i, 0 <= i < s_count (y_sched y) -> slot (y_sched y) i <> q).
  { intros i Hi E. destruct (po_slot _ _ _ P i Hi) as [ri Hri]. congruence. }
  apply runs_bind. unfold sched_enqueue. rewrite (proj2 (Z.eqb_neq q 0) Hq). apply runs_bind, runs_gets.
  change (y_sched y1) with (y_sched y). set (s := y_sched y) in *. rewrite (proj2 (Z.leb_gt (s_capacity s) (s_count s))) by lia.
  apply runs_bind, runs_ret. cbn [negb]. apply runs_bind, runs_modify, runs_ret, runs_ret.
  change (set_sched _ y1) with (set_sched (enqueued q s) y1). pose proof (enqueued_ok q s Q ltac:(lia) Hq Hno) as Q2.
  pose proof (qo_cur _ Q) as Hc. pose proof Hpl as [Hj Ej]. fold s in Hj, Ej. constructor.
  - constructor; [done| |done]. apply (procs_ok_change ∅ D y1); try done; cbn [set_sched y_sched].
    + intros i Hi. change (s_count (enqueued q s)) with (s_count s + 1) in Hi. rewrite enqueued_slot by (done || lia).
      destruct (Z.eqb_spec i (s_count s)); [cbn; by rewrite lookup_insert_eq|]. apply (po_slot _ _ _ P1). change (y_sched y1) with s. lia.
    + destruct (po_wait _ _ _ P1) as (W & HW & HR). exists W. split; [by apply (queues_ext W y1)|done].
  - destruct Hr as (rp & Hrp & He). exists rp. cbn. rewrite lookup_insert_ne; [done|]. intros ->. congruence.
  - cbn. by rewrite dom_insert_L, Hd.
  - change (s_count s + 1 + room <= s_capacity s). lia.
  - exists j. split_and!; [|done|].
    + unfold place. cbn [set_sched y_sched]. change (s_count (enqueued q s)) with (s_count s + 1). split; [lia|].
      rewrite enqueued_slot by (done || lia). by rewrite (proj2 (Z.eqb_neq _ _)) by lia.
    + revert HB. unfold wait_bound. cbn [set_sched y_sched]. change (s_count (enqueued q s)) with (s_count s + 1).
      change (s_current_idx (enqueued q s)) with (s_current_idx s). change (s_tick_count (enqueued q s)) with (s_tick_count s).
      change SCHED_TICKS_PER_QUANTUM with 6. unfold dist. zcase; lia.
Qed.

(** ** Bounded waiting *)

(** What happens on the machine while [p] waits: interrupts, and what the running
    processes do. *)
Inductive event :=
  | Irq0 (esp : Z)
  | Yield (esp : Z)
  | Exit_ (esp : Z)
  | Kill (q esp : Z)
  | Spawn (q : Z) (r : process_t)
  | Sleep (ticks : Z)
  | Wait_
  | Queue (o : wait_op).

Definition exec (e : event) : M sys unit :=
  match e with
  | Irq0 esp => irq0_handler_main L esp
  | Yield esp => sched_yield_now L esp
  | Exit_ esp => sched_exit_current L release esp
  | Kill q esp => sched_kill L release q esp
  | Spawn q r => spawn q r
  | Sleep ticks => sys_sleep_impl ticks ;;; ret tt
  | Wait_ => wait_current
  | Queue o => wait_step o ;;; ret tt
  end.

Fixpoint exec_all (es : list event) : M sys unit :=
  match es with
  | [] => ret tt
  | e :: es => exec e ;;; exec_all es
  end.

(** Interrupts and calls that bring [p] nearer; what others can take from it. *)
Definition chance (e : event) : Z := match e with Irq0 _ | Yield _ | Exit_ _ => 1 | _ => 0 end.
Definition delay (e : event) : Z := match e with Kill _ _ => SCHED_TICKS_PER_QUANTUM - 1 | Spawn _ _ => SCHED_TICKS_PER_QUANTUM | _ => 0 end.
Definition births (e : event) : Z := match e with Spawn _ _ => 1 | _ => 0 end.
Fixpoint sum_of (f : event -> Z) (es : list event) : Z := match es with [] => 0 | e :: es => f e + sum_of f es end.

(** [p] is not killed, addresses of new processes are new, and the processes and queues
    that are named exist; [A] are the processes that exist. *)
Definition event_ok (D A : gset Z) (p : Z) (e : event) : Prop :=
  match e with
  | Kill q _ => q ∈ A /\ q <> p
  | Spawn q r => q <> 0 /\ (q ∉ A) /\ stack_ok r /\ timers_ok D r
  | Queue o => wait_op_ok D A o
  | _ => True
  end.
Definition after (e : event) (A : gset Z) : gset Z := match e with Spawn q _ => {[q]} ∪ A | _ => A end.
Fixpoint events_ok (D A : gset Z) (p : Z) (es : list event) : Prop :=
  match es with
  | [] => True
  | e :: es => event_ok D A p e /\ events_ok D (after e A) p es
  end.

Lemma births_nonneg es : 0 <= sum_of births es.
Proof. induction es as [|[] es IH]; cbn; lia. Qed.

Lemma exec_pending D A p B e es y :
  pending D A p (births e + sum_of births es) B y -> event_ok D A p e ->
  runs (exec e) y (fun _ y' => got p y' \/ pending D (after e A) p (sum_of births es) (B + delay e - chance e) y').
Proof.
  intros Pe Ho. pose proof (births_nonneg es) as Hb.
  destruct e as [esp|esp|esp|q esp|q r|n| |o]; cbn [exec event_ok births after delay chance] in *; rewrite ?Z.add_0_l, ?Z.add_0_r, ?Z.sub_0_r in *.
  - by apply irq0_pending.
  - by apply yield_pending.
  - by apply exit_pending.
  - destruct Ho. by apply kill_pending.
  - destruct Ho as (? & ? & ? & ?). eapply runs_mono; [by apply (spawn_pending D A p (sum_of births es) B); try done; rewrite Z.add_comm|]. intros ? y' ?. by right.
  - apply runs_bind. eapply runs_mono; [by apply sleep_pending|]. intros ? y' ?. apply runs_ret. by right.
  - eapply runs_mono; [by apply wait_current_pending|]. intros ? y' ?. by right.
  - apply runs_bind. eapply runs_mono; [by apply wait_pending|]. intros ? y' ?. apply runs_ret. by right.
Qed.

Lemma pending_bound D A p room B y : pending D A p room B y -> 0 < B.
Proof.
  intros [[Q P T] Hr Hd Hroom (j & [Hj _] & Hne & HB)]. pose proof (dist_pos _ _ j (qo_cur _ Q) Hj ltac:(congruence)).
  revert HB T. unfold wait_bound. change SCHED_TICKS_PER_QUANTUM with 6. lia.
Qed.

Lemma pending_reached D p es : forall A B y,
  pending D A p (sum_of births es) B y -> events_ok D A p es -> B + sum_of delay es <= sum_of chance es ->
  exists es1 es2, es = es1 ++ es2 /\ runs (exec_all es1) y (fun _ y' => got p y').
Proof.
  induction es as [|e es IH]; intros A B y Pe Ho HB; cbn [sum_of events_ok] in *.
  - apply pending_bound in Pe. lia.
  - destruct Ho as [Ho Hos]. destruct (runs_elim _ _ _ (exec_pending D A p B e es y Pe Ho)) as ([] & y' & E & [Hgot|Pe']).
    + exists [e], es. split; [done|]. unfold runs. cbn. unfold bind. by rewrite E.
    + destruct (IH _ _ y' Pe' Hos) as (es1 & es2 & -> & Hrun); [lia|]. exists (e :: es1), es2. split; [done|].
      unfold runs in *. cbn [exec_all]. unfold bind. by rewrite E.
Qed.
End Ending.
End Switching.

(** C15: bounded waiting.  A runnable process in the run queue gets the processor, with
    its own stack, page directory and kernel stack loaded, whatever the timer and the
    other processes do: at the latest when the number of timer interrupts, yields and
    exits reaches six per place between the current process and it, less the ticks the
    current quantum has run, plus six per process created and five per process killed
    meanwhile.  No event before that stops the machine. *)
Theorem sched_bounded_waiting L (release : Z -> M sys unit) `{!ExitResources release} D y p j es :
  inv D y -> place y p j -> j <> s_current_idx (y_sched y) -> ready p (y_procs y) ->
  events_ok D (dom (y_procs y)) p es -> s_count (y_sched y) + sum_of births es <= s_capacity (y_sched y) ->
  wait_bound (y_sched y) j + sum_of delay es <= sum_of chance es ->
  exists es1 es2, es = es1 ++ es2 /\ runs (exec_all L release es1) y (fun _ y' => got L p y').
Proof.
  intros I Hpl Hne Hr Ho Hroom HB. apply (pending_reached L release D p es (dom (y_procs y)) (wait_bound (y_sched y) j)); try done.
  constructor; try done. by exists j.
Qed.

(** Three runnable processes, the first of them current, and two wait queues. *)
Definition runner (n : Z) : process_t := Process 0 0 0 n 0 0 0x1000 0 PROCESS_STATE_RUNNING 0 0 [] 0 0 0 0.
Definition sched_example : sys :=
  Sys (y_kernel sys_example) {[ 100 := runner 1; 200 := runner 2; 300 := runner 3 ]} (y_nodes sys_example) (y_heads sys_example) None
    (Sched 0x5000 ([100; 200; 300] ++ replicate 29 0) 3 32 0 0 0) (Timer 0 300 0) (Context_ 0 0 0).

#[export] Instance ret_exit_resources : ExitResources (fun _ => ret tt).
Proof. constructor. intros D y p Q P Hp. by apply runs_ret. Qed.

Lemma runner_ok D n : stack_ok (runner n) /\ timers_ok D (runner n).
Proof. split; [by left|]. intros H. discriminate H. Qed.

Lemma sched_example_inv : inv {[10; 20]} sched_example.
Proof.
  assert (Hlt : forall i, 0 <= i < 3 -> i = 0 \/ i = 1 \/ i = 2) by lia. constructor; [constructor; try done| |done].
  - intros i [->|[->| ->]]%Hlt; discriminate.
  - intros i j [->|[->| ->]]%Hlt [->|[->| ->]]%Hlt; done.
  - constructor; try done.
    + intros i [->|[->| ->]]%Hlt; vm_compute; eexists; reflexivity.
    + intros p r H. cut (exists n, r = runner n); [intros [n ->]; apply runner_ok|]. unfold sched_example in H. cbn [y_procs] in H.
      apply lookup_insert_Some in H as [[_ <-]|[_ H]]; [by exists 1|].
      apply lookup_insert_Some in H as [[_ <-]|[_ H]]; [by exists 2|]. apply lookup_singleton_Some in H as [_ <-]. by exists 3.
    + exists queues_example. split_and!; [by apply (queues_ext _ sys_example); [..|apply sys_example_queues]| |by vm_compute|].
      * intros q l p E Hp. unfold queues_example in E. apply lookup_insert_Some in E as [[_ <-]|[_ [_ <-]%lookup_singleton_Some]]; by apply elem_of_nil in Hp.
      * intros x q l Hx. by apply not_elem_of_empty in Hx.
Qed.

Lemma sched_bounded_waiting_witness :
  let es := [Spawn 400 (runner 4); Queue (WAdd 10 200); Kill 200 7; Wait_; Exit_ 7; Sleep 30; Yield 8] ++ replicate 21 (Irq0 9) in
  exists es1 es2, es = es1 ++ es2 /\
    runs (exec_all layout_example (fun _ => ret tt) es1) sched_example (fun _ y' => got layout_example 300 y').
Proof.
  intros es. apply (sched_bounded_waiting layout_example (fun _ => ret tt) {[10; 20]} sched_example 300 2 es).
  - apply sched_example_inv.
  - split; [vm_compute; split; [discriminate|reflexivity]|reflexivity].
  - discriminate.
  - exists (runner 3). split; vm_compute; reflexivity.
  - assert (Hirq : forall A n, events_ok {[10; 20]} A 300 (replicate n (Irq0 9))) by (intros A n; induction n; by split).
    assert (Hin : forall (x : Z) (A : gset Z), bool_decide (x ∈ A) = true -> x ∈ A) by (intros x A; apply bool_decide_eq_true_1).
    unfold es. cbn [events_ok app event_ok after]. split_and!; try done; try apply (runner_ok {[10; 20]} 4).
    split; right; apply Hin; by vm_compute.
  - vm_compute. discriminate.
  - vm_compute. discriminate.
Defined.
