(* ===== verification/SleepProps.v ===== *)
(** * Sleeping, time conversion and growth of the run queue

    Built on the invariant of [SchedProps.v]: a timer interrupt never stops the machine,
    and it wakes a sleeping process at its deadline and not before, also when the tick
    counter wraps around. *)
From S2P Require Import Prelude BootInfo Pmm Memory Paging AddressProps Kalloc Klib Arrays VmArea Task Wait WaitProps Sched SchedProps.
From Stdlib Require Import ZArith Lia ZifyBool Bool.
From stdpp Require Import base numbers gmap list.
Local Open Scope Z_scope.
Local Open Scope kernel_scope.

(** ** A timer interrupt *)

(** What a sleeping process is waiting for. *)
Definition nap (r : process_t) : process_state_t * Z := (state r, sleep_until r).

Section Interrupt.
Context (L : layout) (X D : gset Z).

Lemma find_any y tries next (K : Z -> sys -> Prop) :
  let s := y_sched y in
  queue_ok s -> (forall i, 0 <= i < s_count s -> is_Some (y_procs y !! slot s i)) -> 0 <= next ->
  (forall i, i < 0 \/ 0 <= i < s_count s -> K i y) -> runs (find_runnable tries next) y K.
Proof.
  intros s Q Hs. revert next. induction tries as [|tries IH]; intros next Hn HK; cbn [find_runnable].
  { apply runs_ret, HK. lia. }
  apply runs_bind, runs_gets. fold s. cbv zeta. pose proof (qo_cur _ Q). set (from := if s_count s <=? next then 0 else next).
  assert (Hfrom : 0 <= from < s_count s) by (unfold from; destruct (Z.leb_spec (s_count s) next); lia).
  rewrite (proj2 (Z.eqb_neq (slot s from) 0)) by (by apply (qo_nz _ Q)). destruct (Hs from Hfrom) as [r Hr].
  apply runs_bind, runs_bind, (runs_get_proc _ r); [done|]. apply runs_ret. destruct (eligible r).
  - apply runs_ret, HK. lia.
  - apply IH; [lia|done].
Qed.

(** The same run queue, the same timer, and processes that differ in their stack pointers. *)
Record resumed (y y' : sys) : Prop := Resumed {
  re_queue : queue_ok (y_sched y');
  re_procs : procs_ok X D y';
  re_slots : s_slots (y_sched y') = s_slots (y_sched y) /\ s_count (y_sched y') = s_count (y_sched y);
  re_timer : y_timer y' = y_timer y;
  re_nap : forall x, nap <$> y_procs y' !! x = nap <$> y_procs y !! x
}.

Lemma esp_resumed y c r esp ticks : queue_ok (y_sched y) -> procs_ok X D y -> y_procs y !! c = Some r ->
  resumed y (set_procs (<[c := set_esp esp ticks r]> (y_procs y)) y).
Proof.
  intros Q P Hr. constructor; try done; [apply procs_ok_procs; [done|by eapply bare_insert]|].
  intros x. cbn. destruct (decide (x = c)) as [->|Hne]; [by rewrite lookup_insert_eq, Hr|by rewrite lookup_insert_ne].
Qed.

Lemma resumed_switch y y' next c : resumed y y' -> 0 <= next < s_count (y_sched y') ->
  resumed y (set_cpu c (set_sched (set_current next (y_sched y')) y')).
Proof.
  intros [Q P [S1 S2] T N] Hn. constructor; try done; [by apply queue_ok_current|].
  apply (procs_ok_misc _ _ _ (y_timer y')). apply procs_ok_sched; [done|]. intros i Hi. by exists i.
Qed.

Lemma do_switch_resumed y esp (K : unit -> sys -> Prop) :
  queue_ok (y_sched y) -> procs_ok X D y -> (forall y', resumed y y' -> K tt y') -> runs (sched_do_switch L esp) y K.
Proof.
  intros Q P HK. pose proof (qo_cur _ Q) as Hc. unfold sched_do_switch. apply runs_bind, runs_gets.
  rewrite (proj2 (orb_false_iff _ _)) by lia. destruct (po_slot _ _ _ P _ Hc) as [rc Hrc].
  apply runs_bind, (runs_upd_proc _ _ rc); [done|]. pose proof (esp_resumed y _ rc esp (cpu_ticks rc) Q P Hrc) as R1.
  set (y1 := set_procs _ y) in *. destruct (Z.leb_spec (s_count (y_sched y)) 1); [by apply runs_ret, HK|].
  apply runs_bind. unfold sched_find_next_runnable_from. apply runs_bind, runs_gets. change (y_sched y1) with (y_sched y).
  rewrite (proj2 (Z.leb_gt _ 0)) by lia. apply (find_any y1); [done|apply (po_slot _ _ _ (re_procs _ _ R1))|apply Z.rem_nonneg; lia|].
  change (y_sched y1) with (y_sched y). intros next Hn.
  destruct ((next <? 0) || (next =? s_current_idx (y_sched y))) eqn:E; [by apply runs_ret, HK|].
  assert (Hn' : 0 <= next < s_count (y_sched y)) by lia. apply runs_bind, runs_modify.
  destruct (po_slot _ _ _ (re_procs _ _ R1) next Hn') as [rn Hrn]. change (y_sched y1) with (y_sched y) in *.
  apply (switch_to_runs L _ _ rn); [by apply (qo_nz _ Q)|done|by eapply (po_proc _ _ _ (re_procs _ _ R1))|].
  apply HK. by apply (resumed_switch y y1).
Qed.

(** The interrupt for the tick [now]. *)
Record interrupted (y y' : sys) : Prop := Interrupted {
  ir_queue : queue_ok (y_sched y');
  ir_procs : procs_ok X D y';
  ir_slots : s_slots (y_sched y') = s_slots (y_sched y) /\ s_count (y_sched y') = s_count (y_sched y);
  ir_timer : y_timer y' = timer_handle_irq (y_timer y);
  ir_nap : forall x i, x ∈ X -> place y x i ->
    nap <$> y_procs y' !! x = nap ∘ due (u32 (timer_ticks (y_timer y) + 1)) <$> y_procs y !! x
}.

Lemma nap_due now r r' : nap r' = nap r -> nap (due now r') = nap (due now r).
Proof. unfold nap, due. intros [= E1 E2]. rewrite E1, E2. by destruct (_ && _); cbn; rewrite ?E1, ?E2. Qed.

Lemma due_below_all s now x i r : 0 <= i < s_count s -> slot s i = x -> due_below s now (s_count s) x r = due now r.
Proof.
  intros Hi E. unfold due_below. rewrite bool_decide_eq_true_2; [done|]. apply list_elem_of_fmap. exists i. split; [done|].
  apply elem_of_up_to; [lia|]. exists i. lia.
Qed.

(** The end of [sched_tick]. *)
Lemma tick_end_resumed y esp (K : unit -> sys -> Prop) :
  queue_ok (y_sched y) -> procs_ok X D y -> (forall y', resumed y y' -> K tt y') ->
  runs (s <- sch ;;
    blocked <- (if (0 <=? s_current_idx s) && (s_current_idx s <? s_count s) && negb (slot s (s_current_idx s) =? 0)
      then p <- get_proc (slot s (s_current_idx s)) ;; ret (negb (bool_decide (state p = PROCESS_STATE_RUNNING))) else ret false) ;;
    if blocked : bool then set_sch (set_tick_count 0) ;;; sched_do_switch L esp else
    if s_tick_count s <? SCHED_TICKS_PER_QUANTUM then ret tt else
    set_sch (set_tick_count 0) ;;;
    sched_do_switch L esp) y K.
Proof.
  intros Q P HK. pose proof (qo_cur _ Q) as Hc. destruct (po_slot _ _ _ P _ Hc) as [rc Hrc]. apply runs_bind, runs_gets.
  rewrite (proj2 (Z.eqb_neq _ 0)) by (by apply (qo_nz _ Q)). rewrite (proj2 (Z.leb_le _ _)), (proj2 (Z.ltb_lt _ _)) by lia.
  cbn [andb negb]. apply runs_bind, runs_bind, (runs_get_proc _ rc); [done|]. apply runs_ret.
  assert (Hswitch : runs (set_sch (set_tick_count 0) ;;; sched_do_switch L esp) y K).
  { apply runs_bind, runs_modify, do_switch_resumed; [by apply queue_ok_tick|by apply procs_ok_tick|].
    intros y' [? ? ? ? ?]. by apply HK. }
  destruct (negb _); [done|]. destruct (_ <? _); [|done]. apply runs_ret, HK. by constructor.
Qed.

Lemma irq0_runs y esp : queue_ok (y_sched y) -> procs_ok X D y -> runs (irq0_handler_main L esp) y (fun _ y' => interrupted y y').
Proof.
  intros Q P. unfold irq0_handler_main, sched_tick. apply runs_bind, runs_modify, runs_bind, runs_modify, runs_bind, runs_gets.
  set (y2 := set_sched _ _). assert (Q2 : queue_ok (y_sched y2)) by (by apply queue_ok_tick).
  assert (P2 : procs_ok X D y2) by (apply procs_ok_tick; by apply (procs_ok_misc _ _ _ _ (y_cpu y))).
  pose proof (qo_cur _ Q2) as Hc. destruct (po_slot _ _ _ P2 _ Hc) as [rc Hrc].
  rewrite (proj2 (Z.leb_le 0 _)), (proj2 (Z.ltb_lt _ _)) by lia. cbn [andb]. apply runs_bind, (runs_upd_proc _ _ rc); [done|].
  pose proof (esp_resumed y2 _ rc (u32 (esp - SCHED_RESUME_RETADDR_OFFSET)) (u32 (cpu_ticks rc + 1)) Q2 P2 Hrc) as [Q3 P3 _ _ N3].
  set (y3 := set_procs _ _) in *. apply runs_bind, runs_gets, runs_bind.
  apply (wake_sleepers_runs X D y3); [done|done|]. intros y4 P4 [W1 W2 W3 W4].
  destruct (waits_only_fields _ _ W1) as (Es & Et & _).
  apply tick_end_resumed; [by rewrite Es|done|]. intros y5 [Q5 P5 S5 T5 N5]. rewrite Es in S5. rewrite Et in T5.
  constructor; [done|done|done|done|]. intros x i Hx [Hi Hpl]. rewrite N5, (W4 x Hx).
  rewrite <- option_fmap_compose. specialize (N3 x). change (y_procs y2) with (y_procs y) in N3.
  destruct (y_procs y !! x) as [r|], (y_procs y3 !! x) as [r3|]; try done. cbn [fmap option_fmap option_map compose] in N3 |- *. f_equal.
  rewrite (due_below_all _ _ _ i) by done. apply nap_due. congruence.
Qed.
End Interrupt.

(** ** Sleeping *)

Fixpoint irqs (L : layout) (es : list Z) : M sys unit :=
  match es with
  | [] => ret tt
  | esp :: es => irq0_handler_main L esp ;;; irqs L es
  end.

(** The tick after which a sleep of [t] ticks ends. *)
Definition wake_tick (t : Z) : Z := if t <=? 2 ^ 31 + 1 then t else 1.

Definition asleep (t : Z) : process_state_t * Z := (PROCESS_STATE_SLEEPING, t).
Definition awake : process_state_t * Z := (PROCESS_STATE_RUNNING, 0).

(** One tick, [n] ticks after the start of the sleep. *)
Lemma due_step t0 t n r :
  0 < t < 2 ^ 32 -> 0 <= n -> nap r = (if n <? wake_tick t then asleep (u32 (t0 + t)) else awake) ->
  nap (due (u32 (u32 (t0 + n) + 1)) r) = (if n + 1 <? wake_tick t then asleep (u32 (t0 + t)) else awake).
Proof.
  intros Ht Hn E. unfold due. destruct (Z.ltb_spec n (wake_tick t)) as [Hw|Hw].
  - injection E as E1 E2. rewrite E1, E2. rewrite bool_decide_eq_true_2 by done. cbn [andb].
    assert (Hw' : n < t) by (unfold wake_tick in Hw; destruct (Z.leb_spec t (2 ^ 31 + 1)); lia).
    assert (Ei : u32 (u32 (u32 (t0 + n) + 1) - u32 (t0 + t)) = u32 (n + 1 - t)) by (unfold u32; dlia).
    assert (Hi : (0 <=? i32 (u32 (u32 (t0 + n) + 1) - u32 (t0 + t))) = negb (n + 1 <? wake_tick t)).
    { unfold i32. rewrite Ei. unfold wake_tick in *. assert (u32 (n + 1 - t) = if n + 1 =? t then 0 else n + 1 - t + 2 ^ 32).
      { unfold u32. destruct (Z.eqb_spec (n + 1) t); [subst; by rewrite Z.sub_diag|]. dlia. }
      rewrite H. revert Hw. destruct (Z.leb_spec t (2 ^ 31 + 1)), (Z.eqb_spec (n + 1) t); zcase; lia. }
    rewrite Hi. destruct (n + 1 <? wake_tick t); cbn [negb]; [|done]. unfold nap. by rewrite E1, E2.
  - injection E as E1 E2. rewrite E1. rewrite bool_decide_eq_false_2 by done. cbn [andb].
    rewrite (proj2 (Z.ltb_ge _ _)) by lia. unfold nap. by rewrite E1, E2.
Qed.

Lemma irqs_nap L D p t0 t r es : forall n y,
  queue_ok (y_sched y) -> procs_ok {[p]} D y -> (exists i, place y p i) -> timer_ticks (y_timer y) = u32 (t0 + n) -> 0 <= n ->
  0 < t < 2 ^ 32 -> y_procs y !! p = Some r -> nap r = (if n <? wake_tick t then asleep (u32 (t0 + t)) else awake) ->
  runs (irqs L es) y (fun _ y' => exists r', y_procs y' !! p = Some r' /\
    nap r' = (if n + zlen es <? wake_tick t then asleep (u32 (t0 + t)) else awake)).
Proof.
  revert r. induction es as [|esp es IH]; intros r n y Q P (i & Hpl) Et Hn Ht Hr Hnap; cbn [irqs].
  { apply runs_ret. exists r. split; [done|]. change (zlen []) with 0. by rewrite Z.add_0_r. }
  apply runs_bind. eapply runs_mono; [by apply (irq0_runs L {[p]} D)|]. intros _ y' [Q' P' [S1 S2] T' N'].
  specialize (N' p i ltac:(set_solver) Hpl). rewrite Hr, Et in N'. cbn [fmap option_fmap option_map compose] in N'.
  rewrite (due_step t0 t n) in N' by done. destruct (y_procs y' !! p) as [r'|] eqn:Er; [|done]. apply (inj Some) in N'.
  rewrite zlen_cons, Z.add_assoc. apply (IH r' (n + 1)); try done; [| |lia].
  - exists i. unfold place, slot. rewrite S1, S2. exact Hpl.
  - rewrite T'. cbn. rewrite Et. unfold u32. dlia.
Qed.

(** C22: a sleep of [t] ticks ends with the [t]-th timer interrupt after it began, not
    before and not later, whatever the tick counter reads when it begins (it may wrap
    around), for every [t] up to [2^31 + 1].  A longer sleep, which the call accepts,
    ends with the first interrupt. *)
Theorem sys_sleep_on_time L D y p t es :
  queue_ok (y_sched y) -> procs_ok {[p]} D y -> place y p (s_current_idx (y_sched y)) ->
  0 <= timer_ticks (y_timer y) < 2 ^ 32 -> 0 < t < 2 ^ 32 ->
  runs (sys_sleep_impl t ;;; irqs L es) y (fun _ y' => exists r, y_procs y' !! p = Some r /\
    state r = if zlen es <? (if t <=? 2 ^ 31 + 1 then t else 1) then PROCESS_STATE_SLEEPING else PROCESS_STATE_RUNNING).
Proof.
  intros Q P Hpl T Ht. pose proof Hpl as [Hc Ep]. unfold sys_sleep_impl. rewrite (proj2 (Z.eqb_neq t 0)) by lia.
  apply runs_bind, runs_bind, current_runs; [done|]. rewrite Ep. rewrite (proj2 (Z.eqb_neq p 0)) by (rewrite <- Ep; by apply (qo_nz _ Q)).
  apply runs_bind, runs_gets, runs_bind. destruct (po_slot _ _ _ P _ Hc) as [r Hr]. rewrite Ep in Hr.
  apply (runs_upd_proc p _ r); [done|]. apply runs_ret. set (r1 := set_run _ _ r).
  eapply runs_mono; [apply (irqs_nap L D p (timer_ticks (y_timer y)) t r1 es 0)|]; try done.
  - apply procs_ok_procs; [done|]. by eapply bare_insert.
  - by eexists.
  - rewrite Z.add_0_r. unfold u32. by rewrite Z.mod_small.
  - cbn. apply lookup_insert_eq.
  - rewrite (proj2 (Z.ltb_lt 0 (wake_tick t))); [done|]. unfold wake_tick. zcase; lia.
  - intros _ y' (r' & Hr' & N). exists r'. split; [done|]. rewrite Z.add_0_l in N. unfold wake_tick in N.
    by destruct (zlen es <? _); injection N.
Qed.

Lemma sys_sleep_on_time_witness :
  let y := set_timer (Timer (2 ^ 32 - 2) 300 0) sched_example in
  runs (sys_sleep_impl 3 ;;; irqs layout_example [7; 7; 7]) y (fun _ y' => exists r, y_procs y' !! 100 = Some r /\
    state r = PROCESS_STATE_RUNNING).
Proof.
  intros y. apply (sys_sleep_on_time layout_example {[10; 20]} y 100 3 [7; 7; 7]).
  - apply sched_example_inv.
  - destruct sched_example_inv as [_ [P1 P2 (W & HW & Ha & Hd & _) P4] _]. constructor; try done.
    exists queues_example. split_and!; [by apply (queues_ext _ sys_example); [..|apply sys_example_queues]| |by vm_compute|].
    + intros q l x E Hx. unfold queues_example in E. apply lookup_insert_Some in E as [[_ <-]|[_ [_ <-]%lookup_singleton_Some]]; by apply elem_of_nil in Hx.
    + intros x q l _ E Hx. unfold queues_example in E. apply lookup_insert_Some in E as [[_ <-]|[_ [_ <-]%lookup_singleton_Some]]; by apply elem_of_nil in Hx.
  - split; [vm_compute; split; [discriminate|reflexivity]|reflexivity].
  - vm_compute. split; [discriminate|reflexivity].
  - vm_compute. split; reflexivity.
Defined.

(** ** Milliseconds *)

(** A time in milliseconds is converted to the least number of ticks that lasts at
    least as long, for every 32-bit time and every timer frequency up to 1000 Hz (the
    kernel runs at 300): the computation by seconds and remainder does not overflow. *)
Theorem timer_ms_to_ticks_exact t ms :
  0 <= ms < 2 ^ 32 -> 0 < timer_hz t <= 1000 ->
  let n := timer_ms_to_ticks_round_up ms t in
  ms * timer_hz t <= n * SMALLOS_MS_PER_SECOND < ms * timer_hz t + SMALLOS_MS_PER_SECOND /\ 0 <= n < 2 ^ 32.
Proof.
  intros Hm Hz. unfold timer_ms_to_ticks_round_up, SMALLOS_MS_PER_SECOND. rewrite (proj2 (Z.eqb_neq (timer_hz t) 0)) by lia.
  destruct (Z.eqb_spec ms 0) as [->|Hne]; [lia|]. set (hz := timer_hz t) in *. cbv zeta.
  pose proof (Z.div_mod ms 1000 ltac:(lia)) as E. pose proof (Z.mod_pos_bound ms 1000 ltac:(lia)) as Hr.
  set (q := ms / 1000) in *. set (r := ms mod 1000) in *. clearbody q r hz.
  assert (Hq : 0 <= q <= 4294967) by lia. assert (0 <= q * hz <= 4294967 * 1000) by nia. assert (0 <= r * hz <= 999 * 1000) by nia.
  rewrite (u32_small (q * hz)), (u32_small (r * hz)) by lia. rewrite (u32_small (r * hz + (1000 - 1))) by lia.
  assert (Hms : ms * hz = 1000 * (q * hz) + r * hz) by (rewrite E; ring).
  assert (ms * hz <= (2 ^ 32 - 1) * 1000) by nia. set (x := r * hz) in *. set (w := q * hz) in *. clearbody x w.
  assert (0 <= (x + (1000 - 1)) / 1000 /\ x <= 1000 * ((x + (1000 - 1)) / 1000) < x + 1000) by dlia.
  rewrite u32_small by lia. lia.
Qed.

Lemma timer_ms_to_ticks_exact_witness :
  let n := timer_ms_to_ticks_round_up (2 ^ 32 - 1) (Timer 0 300 0) in
  (2 ^ 32 - 1) * 300 <= n * 1000 < (2 ^ 32 - 1) * 300 + 1000 /\ 0 <= n < 2 ^ 32.
Proof. apply (timer_ms_to_ticks_exact (Timer 0 300 0) (2 ^ 32 - 1)); cbn; lia. Defined.
