(* ===== verification/Input.v ===== *)
(** * Input queue

    Models [src/src/kernel/input.c]: the ring of key and mouse events, the merging of
    mouse motion, and the process that waits for input.  [irq_save] and [irq_restore]
    are gone: the calls do not interleave here.  The ring refines a list of at most 256
    events. *)
From S2P Require Import Prelude BootInfo Pmm Memory Paging Kalloc Task Wait WaitProps Sched.
From Stdlib Require Import ZArith Lia ZifyBool Bool.
From stdpp Require Import base numbers gmap list.
Local Open Scope Z_scope.
Local Open Scope kernel_scope.

Definition INPUT_QUEUE_SIZE : Z := 256.
Definition SYS_INPUT_TYPE_KEY : Z := 1.
Definition SYS_INPUT_TYPE_MOUSE : Z := 2.
Definition SYS_INPUT_KEY_PRESSED : Z := 0x0001.
Definition SYS_INPUT_KEY_SHIFT : Z := 0x0002.
Definition SYS_INPUT_KEY_CTRL : Z := 0x0004.
Definition SYS_INPUT_KEY_ALT : Z := 0x0008.
Definition SYS_INPUT_KEY_CAPS_LOCK : Z := 0x0010.
Definition SYS_INPUT_KEY_NUM_LOCK : Z := 0x0020.
Definition SYS_INPUT_KEY_SCROLL_LOCK : Z := 0x0040.
Definition SYS_INPUT_MOUSE_ABSOLUTE : Z := 0x00010000.
Definition KEY_NONE : Z := 0.

Record sys_input_event_t := InputEvent {
  ev_type : Z;
  ev_flags : Z;
  ev_ticks : Z;
  ev_sequence : Z;
  ev_key : Z;
  ev_ascii : Z;
  ev_dx : Z;
  ev_dy : Z;
  ev_wheel : Z;
  ev_abs_x : Z;
  ev_abs_y : Z;
  ev_buttons : Z;
  ev_button_changes : Z
}.
Definition zero_event : sys_input_event_t := InputEvent 0 0 0 0 0 0 0 0 0 0 0 0 0.

Record key_event_t := KeyEvent {
  k_key : Z;
  k_pressed : bool;
  k_shift : bool;
  k_ctrl : bool;
  k_alt : bool;
  k_caps_lock : bool;
  k_num_lock : bool;
  k_scroll_lock : bool;
  k_ascii : Z
}.

(** The static variables, and the processes and the timer. *)
Record input := Input {
  q_slots : list sys_input_event_t;
  q_head : Z;
  q_tail : Z;
  q_count : Z;
  q_sequence : Z;
  q_waiting : Z;
  q_sys : sys
}.
Definition set_ring (slots : list sys_input_event_t) (head tail count : Z) (i : input) : input :=
  Input slots head tail count (q_sequence i) (q_waiting i) (q_sys i).
Definition set_sequence (n : Z) (i : input) : input := Input (q_slots i) (q_head i) (q_tail i) (q_count i) n (q_waiting i) (q_sys i).
Definition set_waiting (p : Z) (i : input) : input := Input (q_slots i) (q_head i) (q_tail i) (q_count i) (q_sequence i) p (q_sys i).
Definition with_sys (y : sys) (i : input) : input := Input (q_slots i) (q_head i) (q_tail i) (q_count i) (q_sequence i) (q_waiting i) y.
Definition on_sys {A} (m : M sys A) : M input A := fun i =>
  match m (q_sys i) with Some (a, y) => Some (a, with_sys y i) | None => None end.

(** [proc->state == PROCESS_STATE_WAITING || proc->state == PROCESS_STATE_SLEEPING] *)
Definition blocked (st : process_state_t) : bool :=
  match st with PROCESS_STATE_WAITING | PROCESS_STATE_SLEEPING => true | _ => false end.

Definition input_wake_waiter : M input unit :=
  proc <- gets q_waiting ;;
  (if proc =? 0 then ret tt else
   p <- on_sys (get_proc proc) ;;
   if blocked (state p) then on_sys (upd_proc proc (set_run PROCESS_STATE_RUNNING 0)) else ret tt) ;;;
  modify (set_waiting 0).

Definition input_is_mergeable_mouse_motion (ev : sys_input_event_t) : bool :=
  (ev_type ev =? SYS_INPUT_TYPE_MOUSE) && (ev_button_changes ev =? 0).

(** The motion of [ev] added to the event [last]. *)
Definition merge_motion (last ev : sys_input_event_t) : sys_input_event_t :=
  InputEvent (ev_type last) (ev_flags last) (ev_ticks ev) (ev_sequence ev) (ev_key last) (ev_ascii last)
    (i32 (ev_dx last + ev_dx ev)) (i32 (ev_dy last + ev_dy ev)) (i32 (ev_wheel last + ev_wheel ev))
    (ev_abs_x ev) (ev_abs_y ev) (ev_buttons ev) (ev_button_changes last).

Definition may_merge (last ev : sys_input_event_t) : bool :=
  input_is_mergeable_mouse_motion last && (ev_buttons last =? ev_buttons ev)
  && (Z.land (Z.lxor (ev_flags last) (ev_flags ev)) SYS_INPUT_MOUSE_ABSOLUTE =? 0).

Definition input_try_merge_mouse_motion (ev : sys_input_event_t) : M input bool :=
  i <- gets id ;;
  if negb (input_is_mergeable_mouse_motion ev) || (q_count i =? 0) then ret false else
  let prev := u32 (q_head i + INPUT_QUEUE_SIZE - 1) mod INPUT_QUEUE_SIZE in
  let last := zget zero_event (q_slots i) prev in
  if negb (may_merge last ev) then ret false else
  modify (fun i => set_ring (zset (q_slots i) prev (merge_motion last ev)) (q_head i) (q_tail i) (q_count i) i) ;;;
  input_wake_waiter ;;;
  ret true.

Definition input_push_event (ev : sys_input_event_t) : M input unit :=
  merged <- input_try_merge_mouse_motion ev ;;
  if merged : bool then ret tt else
  i <- gets id ;;
  (if INPUT_QUEUE_SIZE <=? q_count i
   then modify (fun i => set_ring (q_slots i) (q_head i) (u32 (q_tail i + 1) mod INPUT_QUEUE_SIZE) (u32 (q_count i - 1)) i)
   else ret tt) ;;;
  modify (fun i => set_ring (zset (q_slots i) (q_head i) ev) (u32 (q_head i + 1) mod INPUT_QUEUE_SIZE) (q_tail i) (u32 (q_count i + 1)) i) ;;;
  input_wake_waiter.

Definition input_init : M input unit :=
  modify (fun i => Input (replicate (Z.to_nat INPUT_QUEUE_SIZE) zero_event) 0 0 0 0 0 (q_sys i)).

Definition input_clear_events : M input unit := modify (fun i => set_ring (q_slots i) 0 0 0 i).

(** [timer_get_ticks()] and [++s_sequence]. *)
Definition stamp : M input (Z * Z) :=
  i <- gets id ;;
  modify (set_sequence (u32 (q_sequence i + 1))) ;;;
  ret (timer_get_ticks (y_timer (q_sys i)), u32 (q_sequence i + 1)).

Definition key_flags (ev : key_event_t) : Z :=
  let bit (b : bool) (m fl : Z) := if b then Z.lor fl m else fl in
  bit (k_scroll_lock ev) SYS_INPUT_KEY_SCROLL_LOCK (bit (k_num_lock ev) SYS_INPUT_KEY_NUM_LOCK
    (bit (k_caps_lock ev) SYS_INPUT_KEY_CAPS_LOCK (bit (k_alt ev) SYS_INPUT_KEY_ALT (bit (k_ctrl ev) SYS_INPUT_KEY_CTRL
    (bit (k_shift ev) SYS_INPUT_KEY_SHIFT (bit (k_pressed ev) SYS_INPUT_KEY_PRESSED 0)))))).

Definition input_push_key_event (ev : key_event_t) : M input unit :=
  if k_key ev =? KEY_NONE then ret tt else
  s <- stamp ;;
  input_push_event (InputEvent SYS_INPUT_TYPE_KEY (key_flags ev) (fst s) (snd s) (u32 (k_key ev)) (u8 (k_ascii ev)) 0 0 0 0 0 0 0).

Definition input_push_mouse_abs_event (dx dy wheel abs_x abs_y buttons button_changes : Z) : M input unit :=
  if (dx =? 0) && (dy =? 0) && (wheel =? 0) && (button_changes =? 0) then ret tt else
  s <- stamp ;;
  input_push_event (InputEvent SYS_INPUT_TYPE_MOUSE SYS_INPUT_MOUSE_ABSOLUTE (fst s) (snd s) 0 0 dx dy wheel abs_x abs_y buttons button_changes).

Definition input_push_mouse_event (dx dy wheel buttons button_changes : Z) : M input unit :=
  if (dx =? 0) && (dy =? 0) && (wheel =? 0) && (button_changes =? 0) then ret tt else
  s <- stamp ;;
  input_push_event (InputEvent SYS_INPUT_TYPE_MOUSE 0 (fst s) (snd s) 0 0 dx dy wheel 0 0 buttons button_changes).

Definition input_available : M input Z := gets (fun i => i32 (q_count i)).

Definition input_pop_event : M input (option sys_input_event_t) :=
  i <- gets id ;;
  if q_count i =? 0 then ret None else
  modify (fun i => set_ring (q_slots i) (q_head i) (u32 (q_tail i + 1) mod INPUT_QUEUE_SIZE) (u32 (q_count i - 1)) i) ;;;
  ret (Some (zget zero_event (q_slots i) (q_tail i))).

Definition input_set_waiting_process (p : Z) : M input unit := modify (set_waiting p).
Definition input_get_waiting_process : M input Z := gets q_waiting.
Definition input_forget_waiting_process (p : Z) : M input unit :=
  w <- gets q_waiting ;; if w =? p then modify (set_waiting 0) else ret tt.

(** ** The ring as a list *)

Record ring_rep (slots : list sys_input_event_t) (head tail count : Z) (l : list sys_input_event_t) : Prop := RingRep {
  rr_len : zlen slots = 256;
  rr_tail : 0 <= tail < 256;
  rr_count : count = zlen l;
  rr_max : zlen l <= 256;
  rr_head : head = (tail + count) mod 256;
  rr_get : forall j, 0 <= j < count -> zget zero_event slots ((tail + j) mod 256) = zget zero_event l j
}.

Lemma zlen_snoc {A} (l : list A) x : zlen (l ++ [x]) = zlen l + 1.
Proof. unfold zlen. rewrite length_app. cbn. lia. Qed.

Lemma zget_snoc {A} (d : A) l x j : 0 <= j <= zlen l -> zget d (l ++ [x]) j = if j =? zlen l then x else zget d l j.
Proof.
  unfold zlen, zget. intros Hj. destruct (Z.eqb_spec j (Z.of_nat (length l))) as [->|].
  - by rewrite Nat2Z.id, list_lookup_middle.
  - rewrite lookup_app_l by lia. done.
Qed.

Lemma ring_pop slots head tail count x l :
  ring_rep slots head tail count (x :: l) ->
  zget zero_event slots tail = x /\ ring_rep slots head (u32 (tail + 1) mod 256) (u32 (count - 1)) l.
Proof.
  intros [H1 H2 H3 H4 H5 H6]. unfold zlen in *. cbn [length] in *. rewrite !u32_small by lia. split.
  - specialize (H6 0 ltac:(lia)). by rewrite Z.add_0_r, Z.mod_small in H6 by lia.
  - constructor; unfold zlen; [done|dlia|lia|lia|dlia|]. intros j Hj. rewrite Zplus_mod_idemp_l. replace (tail + 1 + j) with (tail + (j + 1)) by lia.
    rewrite H6 by lia. unfold zget. by replace (Z.to_nat (j + 1)) with (S (Z.to_nat j)) by lia.
Qed.

Lemma ring_push slots head tail count l ev :
  ring_rep slots head tail count l -> count < 256 ->
  ring_rep (zset slots head ev) (u32 (head + 1) mod 256) tail (u32 (count + 1)) (l ++ [ev]).
Proof.
  intros [H1 H2 H3 H4 H5 H6] Hc. assert (0 <= zlen l) by (unfold zlen; lia). rewrite !u32_small by dlia.
  constructor; rewrite ?zlen_zset, ?zlen_snoc; [done|done|lia|lia|dlia|].
  intros j Hj. rewrite zget_snoc, zget_zset by dlia. destruct (Z.eqb_spec head ((tail + j) mod 256)) as [E|E].
  - rewrite (proj2 (Z.eqb_eq j (zlen l))); [done|]. dlia.
  - rewrite (proj2 (Z.eqb_neq j (zlen l))) by (intros ->; dlia). apply H6. assert (j <> zlen l) by (intros ->; dlia). lia.
Qed.

Lemma ring_last slots head tail count l x :
  ring_rep slots head tail count (l ++ [x]) ->
  let prev := u32 (head + 256 - 1) mod 256 in
  zget zero_event slots prev = x /\ forall y, ring_rep (zset slots prev y) head tail count (l ++ [y]).
Proof.
  intros [H1 H2 H3 H4 H5 H6] prev. rewrite zlen_snoc in *. assert (0 <= zlen l) by (unfold zlen; lia).
  assert (Ep : prev = (tail + zlen l) mod 256) by (unfold prev; rewrite u32_small by dlia; dlia).
  split; [rewrite Ep, H6, zget_snoc, Z.eqb_refl by lia; done|]. intros y. constructor; rewrite ?zlen_zset, ?zlen_snoc; try done.
  intros j Hj. rewrite zget_zset, zget_snoc by dlia. destruct (Z.eqb_spec prev ((tail + j) mod 256)) as [E|E].
  - rewrite (proj2 (Z.eqb_eq j (zlen l))); [done|]. dlia.
  - rewrite (proj2 (Z.eqb_neq j (zlen l))) by (intros ->; dlia). rewrite H6, zget_snoc by lia.
    by rewrite (proj2 (Z.eqb_neq j (zlen l))) by (intros ->; dlia).
Qed.

(** ** The specification *)

Record spec_input := SpecInput {
  si_events : list sys_input_event_t;
  si_sequence : Z;
  si_waiting : Z;
  si_sys : sys
}.

(** A process that waits is made runnable, and waits no longer. *)
Definition wake_proc (p : Z) (y : sys) : sys :=
  match y_procs y !! p with
  | Some r => if blocked (state r) then set_procs (<[p := set_run PROCESS_STATE_RUNNING 0 r]> (y_procs y)) y else y
  | None => y
  end.
Definition spec_wake (s : spec_input) : spec_input :=
  SpecInput (si_events s) (si_sequence s) 0 (if si_waiting s =? 0 then si_sys s else wake_proc (si_waiting s) (si_sys s)).

(** The queue with a new event: mouse motion is added to motion at its end, otherwise
    the event is appended and the oldest one of 256 is dropped. *)
Definition enqueue (ev : sys_input_event_t) (l : list sys_input_event_t) : list sys_input_event_t :=
  match last l with
  | Some x => if input_is_mergeable_mouse_motion ev && may_merge x ev then removelast l ++ [merge_motion x ev]
              else (if zlen l =? 256 then tail l else l) ++ [ev]
  | None => [ev]
  end.

(** A new event with the next sequence number and the time. *)
Definition spec_push (mk : Z -> Z -> sys_input_event_t) (s : spec_input) : spec_input :=
  let n := u32 (si_sequence s + 1) in
  spec_wake (SpecInput (enqueue (mk (timer_get_ticks (y_timer (si_sys s))) n) (si_events s)) n (si_waiting s) (si_sys s)).

Inductive input_op :=
| PushKey (ev : key_event_t)
| PushMouse (dx dy wheel buttons button_changes : Z)
| PushMouseAbs (dx dy wheel abs_x abs_y buttons button_changes : Z)
| PopEvent
| Available
| ClearEvents
| InitInput
| SetWaiting (p : Z)
| ForgetWaiting (p : Z)
| TimerIrq.

(** The result is the popped event or the number of events. *)
Definition input_step (op : input_op) : M input (option sys_input_event_t * Z) :=
  match op with
  | PushKey ev => input_push_key_event ev ;;; ret (None, 0)
  | PushMouse dx dy wh b bc => input_push_mouse_event dx dy wh b bc ;;; ret (None, 0)
  | PushMouseAbs dx dy wh ax ay b bc => input_push_mouse_abs_event dx dy wh ax ay b bc ;;; ret (None, 0)
  | PopEvent => r <- input_pop_event ;; ret (r, 0)
  | Available => n <- input_available ;; ret (None, n)
  | ClearEvents => input_clear_events ;;; ret (None, 0)
  | InitInput => input_init ;;; ret (None, 0)
  | SetWaiting p => input_set_waiting_process p ;;; ret (None, 0)
  | ForgetWaiting p => input_forget_waiting_process p ;;; ret (None, 0)
  | TimerIrq => modify (fun i => with_sys (set_timer (timer_handle_irq (y_timer (q_sys i))) (q_sys i)) i) ;;; ret (None, 0)
  end.

Definition spec_step_input (op : input_op) (s : spec_input) : option sys_input_event_t * Z * spec_input :=
  let idle (dx dy wh bc : Z) := (dx =? 0) && (dy =? 0) && (wh =? 0) && (bc =? 0) in
  match op with
  | PushKey ev => (None, 0, if k_key ev =? KEY_NONE then s else
      spec_push (fun t n => InputEvent SYS_INPUT_TYPE_KEY (key_flags ev) t n (u32 (k_key ev)) (u8 (k_ascii ev)) 0 0 0 0 0 0 0) s)
  | PushMouse dx dy wh b bc => (None, 0, if idle dx dy wh bc then s else
      spec_push (fun t n => InputEvent SYS_INPUT_TYPE_MOUSE 0 t n 0 0 dx dy wh 0 0 b bc) s)
  | PushMouseAbs dx dy wh ax ay b bc => (None, 0, if idle dx dy wh bc then s else
      spec_push (fun t n => InputEvent SYS_INPUT_TYPE_MOUSE SYS_INPUT_MOUSE_ABSOLUTE t n 0 0 dx dy wh ax ay b bc) s)
  | PopEvent => (head (si_events s), 0, SpecInput (tail (si_events s)) (si_sequence s) (si_waiting s) (si_sys s))
  | Available => (None, zlen (si_events s), s)
  | ClearEvents => (None, 0, SpecInput [] (si_sequence s) (si_waiting s) (si_sys s))
  | InitInput => (None, 0, SpecInput [] 0 0 (si_sys s))
  | SetWaiting p => (None, 0, SpecInput (si_events s) (si_sequence s) p (si_sys s))
  | ForgetWaiting p => (None, 0, SpecInput (si_events s) (si_sequence s) (if si_waiting s =? p then 0 else si_waiting s) (si_sys s))
  | TimerIrq => (None, 0, SpecInput (si_events s) (si_sequence s) (si_waiting s) (set_timer (timer_handle_irq (y_timer (si_sys s))) (si_sys s)))
  end.

Fixpoint input_run (ops : list input_op) : M input (list (option sys_input_event_t * Z)) :=
  match ops with
  | [] => ret []
  | op :: ops => r <- input_step op ;; rs <- input_run ops ;; ret (r :: rs)
  end.
Fixpoint spec_run_input (ops : list input_op) (s : spec_input) : list (option sys_input_event_t * Z) * spec_input :=
  match ops with
  | [] => ([], s)
  | op :: ops => let '(r, s) := spec_step_input op s in let '(rs, s) := spec_run_input ops s in (r :: rs, s)
  end.

(** [p] is null or a process. *)
Definition waits_ok (p : Z) (y : sys) : Prop := p = 0 \/ is_Some (y_procs y !! p).

Record input_rep (i : input) (s : spec_input) : Prop := InputRep {
  ir_ring : ring_rep (q_slots i) (q_head i) (q_tail i) (q_count i) (si_events s);
  ir_sequence : q_sequence i = si_sequence s;
  ir_waiting : q_waiting i = si_waiting s;
  ir_sys : q_sys i = si_sys s;
  ir_ok : waits_ok (si_waiting s) (si_sys s)
}.

(** Only processes of the system wait. *)
Definition op_waits (y : sys) (op : input_op) : Prop := match op with SetWaiting p => waits_ok p y | _ => True end.

Lemma runs_on_sys {A} (m : M sys A) i (Q : A -> input -> Prop) :
  runs m (q_sys i) (fun a y => Q a (with_sys y i)) -> runs (on_sys m) i Q.
Proof. unfold runs, on_sys. by destruct (m (q_sys i)) as [[a y]|]. Qed.

Lemma waits_wake p q y : waits_ok p y -> waits_ok p (wake_proc q y).
Proof.
  intros [->|Hp]; [by left|]. right. unfold wake_proc. destruct (y_procs y !! q) as [r|] eqn:E; [|done].
  destruct (blocked (state r)); [|done]. cbn. destruct (decide (q = p)) as [->|]; [rewrite lookup_insert_eq|rewrite lookup_insert_ne by done]; done.
Qed.

Lemma wake_waiter_runs i s : input_rep i s -> runs input_wake_waiter i (fun _ i' => input_rep i' (spec_wake s)).
Proof.
  intros [R1 R2 R3 R4 R5]. unfold input_wake_waiter, spec_wake. apply runs_bind, runs_gets. rewrite R3. apply runs_bind.
  destruct (Z.eqb_spec (si_waiting s) 0) as [E|E].
  { apply runs_ret, runs_modify. constructor; try done. by left. }
  destruct R5 as [|[r Hr]]; [done|]. rewrite <- R4 in Hr. apply runs_bind, runs_on_sys, (runs_get_proc _ r); [done|].
  replace (with_sys (q_sys i) i) with i by (by destruct i). unfold wake_proc. rewrite <- R4, Hr. destruct (blocked (state r)).
  - apply runs_on_sys, (runs_upd_proc _ _ r); [done|]. apply runs_modify. constructor; try done. by left.
  - apply runs_ret, runs_modify. constructor; try done. by left.
Qed.

Lemma removelast_snoc {A} (l : list A) x : removelast (l ++ [x]) = l.
Proof. rewrite removelast_app by done. by rewrite app_nil_r. Qed.

Lemma try_merge_runs i s ev :
  input_rep i s ->
  runs (input_try_merge_mouse_motion ev) i (fun b i' =>
    if b : bool then exists l x, si_events s = l ++ [x] /\ input_is_mergeable_mouse_motion ev && may_merge x ev = true /\
      input_rep i' (spec_wake (SpecInput (l ++ [merge_motion x ev]) (si_sequence s) (si_waiting s) (si_sys s)))
    else i' = i /\ forall l x, si_events s = l ++ [x] -> input_is_mergeable_mouse_motion ev && may_merge x ev = false).
Proof.
  intros R. pose proof R as [R1 R2 R3 R4 R5]. unfold input_try_merge_mouse_motion. apply runs_bind, runs_gets. unfold id.
  destruct (input_is_mergeable_mouse_motion ev) eqn:Em; cbn [negb orb andb]; [|by apply runs_ret].
  destruct (si_events s) as [|y l0 _] eqn:El using rev_ind.
  { rewrite (rr_count _ _ _ _ _ R1). cbn. apply runs_ret. split; [done|]. intros l x H. by destruct l. }
  assert (Hc : q_count i <> 0) by (rewrite (rr_count _ _ _ _ _ R1), zlen_snoc; unfold zlen; lia).
  rewrite (proj2 (Z.eqb_neq _ 0)) by done. destruct (ring_last _ _ _ _ _ _ R1) as [Hl Hset]. change INPUT_QUEUE_SIZE with 256. rewrite Hl.
  destruct (may_merge y ev) eqn:Ey; cbn [negb].
  - apply runs_bind, runs_modify, runs_bind. eapply runs_mono; [apply (wake_waiter_runs _ (SpecInput (l0 ++ [merge_motion y ev]) (si_sequence s) (si_waiting s) (si_sys s)))|].
    + constructor; cbn; [apply Hset|done..].
    + intros ? i' R'. apply runs_ret. by exists l0, y.
  - apply runs_ret. split; [done|]. intros l x H. apply app_inj_tail in H as [_ <-]. done.
Qed.

Lemma push_event_runs i s ev :
  input_rep i s ->
  runs (input_push_event ev) i (fun _ i' =>
    input_rep i' (spec_wake (SpecInput (enqueue ev (si_events s)) (si_sequence s) (si_waiting s) (si_sys s)))).
Proof.
  intros R. unfold input_push_event. apply runs_bind. eapply runs_mono; [by apply (try_merge_runs i s ev)|]. intros [] i'.
  - intros (l & x & El & Em & R'). apply runs_ret. unfold enqueue. by rewrite El, last_snoc, Em, removelast_snoc.
  - intros [-> Hno]. pose proof R as [R1 R2 R3 R4 R5].
    assert (En : enqueue ev (si_events s) = (if zlen (si_events s) =? 256 then tail (si_events s) else si_events s) ++ [ev]).
    { unfold enqueue. destruct (si_events s) as [|y l0 _] using rev_ind; [done|]. rewrite last_snoc. by rewrite (Hno l0 y). }
    rewrite En. apply runs_bind, runs_gets. unfold id. change INPUT_QUEUE_SIZE with 256. pose proof (rr_max _ _ _ _ _ R1) as Hmax.
    assert (Hgo : forall i1 l, q_sequence i1 = si_sequence s -> q_waiting i1 = si_waiting s -> q_sys i1 = si_sys s ->
      ring_rep (q_slots i1) (q_head i1) (q_tail i1) (q_count i1) l -> zlen l < 256 ->
      runs (modify (fun i => set_ring (zset (q_slots i) (q_head i) ev) (u32 (q_head i + 1) mod 256) (q_tail i) (u32 (q_count i + 1)) i) ;;;
            input_wake_waiter) i1 (fun _ i' => input_rep i' (spec_wake (SpecInput (l ++ [ev]) (si_sequence s) (si_waiting s) (si_sys s))))).
    { intros i1 l E1 E2 E3 Hr Hlt. apply runs_bind, runs_modify, wake_waiter_runs. constructor; cbn; try done.
      apply ring_push; [done|]. by rewrite (rr_count _ _ _ _ _ Hr). }
    apply runs_bind. rewrite (rr_count _ _ _ _ _ R1). destruct (Z.leb_spec 256 (zlen (si_events s))).
    + rewrite (proj2 (Z.eqb_eq _ 256)) by lia. apply runs_modify. destruct (si_events s) as [|x l] eqn:El; [by vm_compute in H|].
      destruct (ring_pop _ _ _ _ _ _ R1) as [_ R1']. apply Hgo; try done. cbn [tail]. unfold zlen in *. cbn [length] in *. lia.
    + rewrite (proj2 (Z.eqb_neq _ 256)) by lia. apply runs_ret. by apply Hgo.
Qed.

Lemma stamped_runs i s mk :
  input_rep i s ->
  runs (st <- stamp ;; input_push_event (mk (fst st) (snd st))) i (fun _ i' => input_rep i' (spec_push mk s)).
Proof.
  intros [R1 R2 R3 R4 R5]. apply runs_bind, runs_bind, runs_gets, runs_bind, runs_modify, runs_ret. unfold id. cbn [fst snd].
  rewrite R2, R4. unfold spec_push. apply (push_event_runs _ (SpecInput (si_events s) (u32 (si_sequence s + 1)) (si_waiting s) (si_sys s))).
  by constructor.
Qed.

Lemma input_step_runs i s op :
  input_rep i s -> op_waits (si_sys s) op ->
  runs (input_step op) i (fun r i' => r = fst (spec_step_input op s) /\ input_rep i' (snd (spec_step_input op s))).
Proof.
  intros R Hop. pose proof R as [R1 R2 R3 R4 R5]. destruct op; cbn [input_step spec_step_input fst snd].
  - apply runs_bind. unfold input_push_key_event. destruct (_ =? KEY_NONE); [by apply runs_ret, runs_ret|].
    eapply runs_mono; [by apply (stamped_runs i s (fun t n => InputEvent SYS_INPUT_TYPE_KEY (key_flags ev) t n (u32 (k_key ev)) (u8 (k_ascii ev)) 0 0 0 0 0 0 0))|].
    intros ? i' R'. by apply runs_ret.
  - apply runs_bind. unfold input_push_mouse_event. destruct (_ && _ && _ && _); [by apply runs_ret, runs_ret|].
    eapply runs_mono; [by apply (stamped_runs i s (fun t n => InputEvent SYS_INPUT_TYPE_MOUSE 0 t n 0 0 dx dy wheel 0 0 buttons button_changes))|].
    intros ? i' R'. by apply runs_ret.
  - apply runs_bind. unfold input_push_mouse_abs_event. destruct (_ && _ && _ && _); [by apply runs_ret, runs_ret|].
    eapply runs_mono; [by apply (stamped_runs i s (fun t n => InputEvent SYS_INPUT_TYPE_MOUSE SYS_INPUT_MOUSE_ABSOLUTE t n 0 0 dx dy wheel abs_x abs_y buttons button_changes))|].
    intros ? i' R'. by apply runs_ret.
  - apply runs_bind. unfold input_pop_event. apply runs_bind, runs_gets. unfold id. rewrite (rr_count _ _ _ _ _ R1).
    destruct (si_events s) as [|x l] eqn:El.
    + cbn. apply runs_ret, runs_ret. split; [done|]. by constructor.
    + rewrite (proj2 (Z.eqb_neq _ 0)) by (unfold zlen; cbn; lia). destruct (ring_pop _ _ _ _ _ _ R1) as [Hx R1'].
      apply runs_bind, runs_modify, runs_ret, runs_ret. change INPUT_QUEUE_SIZE with 256. rewrite Hx. split; [done|]. by constructor.
  - apply runs_bind, runs_gets, runs_ret. split; [|done]. cbn. pose proof (rr_max _ _ _ _ _ R1). rewrite (rr_count _ _ _ _ _ R1).
    unfold i32. rewrite u32_small by (unfold zlen in *; lia). by rewrite (proj2 (Z.ltb_lt _ _)) by lia.
  - apply runs_bind, runs_modify, runs_ret. split; [done|]. constructor; try done. constructor; cbn; try done; [apply R1|lia].
  - apply runs_bind, runs_modify, runs_ret. split; [done|]. constructor; try done; [|by left]. constructor; cbn; try done; lia.
  - apply runs_bind, runs_modify, runs_ret. split; [done|]. by constructor.
  - apply runs_bind. unfold input_forget_waiting_process. apply runs_bind, runs_gets. rewrite R3.
    destruct (si_waiting s =? p); [apply runs_modify, runs_ret|apply runs_ret, runs_ret]; (split; [done|]); constructor; try done. by left.
  - apply runs_bind, runs_modify, runs_ret. split; [done|]. constructor; try done. cbn. by rewrite R4.
Qed.

Lemma step_waits op s p : op_waits (si_sys s) op -> waits_ok p (si_sys s) -> waits_ok p (si_sys (snd (spec_step_input op s))).
Proof.
  intros _ Hp. assert (Hpush : forall mk, waits_ok p (si_sys (spec_push mk s))).
  { intros mk. unfold spec_push, spec_wake. cbn. destruct (_ =? 0); [done|by apply waits_wake]. }
  destruct op; cbn [spec_step_input snd si_sys]; try done; match goal with |- context [if ?b then _ else _] => destruct b end; done || apply Hpush.
Qed.

Lemma input_run_runs ops i s :
  input_rep i s -> Forall (op_waits (si_sys s)) ops ->
  runs (input_run ops) i (fun rs i' => rs = fst (spec_run_input ops s) /\ input_rep i' (snd (spec_run_input ops s))).
Proof.
  revert i s. induction ops as [|op ops IH]; intros i s R Hops; [by apply runs_ret|].
  apply Forall_cons in Hops as [Hop Hops]. cbn [input_run spec_run_input]. apply runs_bind.
  eapply runs_mono; [by apply (input_step_runs i s op)|]. intros r i1 [-> R1]. apply runs_bind.
  assert (Hops1 : Forall (op_waits (si_sys (snd (spec_step_input op s)))) ops).
  { eapply Forall_impl; [done|]. intros [] H; try done. by apply step_waits. }
  eapply runs_mono; [by apply (IH i1)|]. intros rs i2 [-> R2]. apply runs_ret.
  destruct (spec_step_input op s) as [r s1]. cbn [fst snd] in *. by destruct (spec_run_input ops s1).
Qed.

(** ** Properties *)

Definition input_boot (y : sys) : input := Input (replicate 256 zero_event) 0 0 0 0 0 y.

(** C19: the input queue.  Every sequence of key and mouse events, reads, resets, waiting
    processes and timer interrupts behaves as on a list of events: events are read in
    the order they came, each with the next sequence number and the time it came; mouse
    motion without a change of the buttons is added to motion of the same kind at the
    end of the list; of more than 256 events the oldest is lost; every event makes the
    process that waits runnable, and the call never reads outside of the ring. *)
Theorem input_queue_refines i s ops :
  input_rep i s -> Forall (op_waits (si_sys s)) ops ->
  exists i', input_run ops i = Some (fst (spec_run_input ops s), i') /\ input_rep i' (snd (spec_run_input ops s)).
Proof.
  intros R H. destruct (runs_elim _ _ _ (input_run_runs ops i s R H)) as (rs & i' & E & -> & R'). by exists i'.
Qed.

Lemma input_queue_refines_witness :
  let y := sys_example in
  let ops := [SetWaiting 0; PushKey (KeyEvent 5 true false false false false false false 97); TimerIrq;
    PushMouse 3 4 0 1 0; PushMouse (-1) 2 0 1 0; Available; PopEvent; PopEvent; PopEvent] in
  exists i', input_run ops (input_boot y) = Some (fst (spec_run_input ops (SpecInput [] 0 0 y)), i') /\
    (fst <$> drop 6 (fst (spec_run_input ops (SpecInput [] 0 0 y)))) =
      [Some (InputEvent 1 1 0 1 5 97 0 0 0 0 0 0 0); Some (InputEvent 2 0 1 3 0 0 2 6 0 0 0 1 0); None].
Proof.
  intros y ops. assert (R : input_rep (input_boot y) (SpecInput [] 0 0 y)).
  { constructor; [|done..|by left]. constructor; cbn; done || lia. }
  assert (H : Forall (op_waits y) ops) by (repeat constructor).
  destruct (input_queue_refines (input_boot y) (SpecInput [] 0 0 y) ops R H) as (i' & E & _).
  exists i'. split; [exact E|]. vm_compute. reflexivity.
Defined.
