(* ===== verification/CompilerRt.v ===== *)
(** * 64-bit division for 32-bit programs

    Models [src/src/user/libc/compiler_rt.c], the routines the compiler calls for the
    division of 64-bit integers.  The two loops run on a fuel of 65 rounds each;
    [None] stands for a loop that has not ended by then, which never happens. *)
From S2P Require Import Prelude.
From Stdlib Require Import ZArith Lia ZifyBool Bool.
From stdpp Require Import base numbers list.
Local Open Scope Z_scope.
Local Open Scope kernel_scope.

(** [(s64) z]: two's complement. *)
Definition s64 (z : Z) : Z := if u64 z <? 2 ^ 63 then u64 z else u64 z - 2 ^ 64.

Definition loop_fuel : nat := 65.

(** The loop that lines the divisor up with the dividend. *)
Fixpoint align_loop (fuel : nat) (num den bit : Z) : option (Z * Z) :=
  match fuel with
  | O => None
  | S fuel =>
    if (Z.land den (2 ^ 63) =? 0) && (den <? num)
    then align_loop fuel num (u64 (Z.shiftl den 1)) (u64 (Z.shiftl bit 1))
    else Some (den, bit)
  end.

(** The loop that subtracts; the result is the remainder and the quotient. *)
Fixpoint divide_loop (fuel : nat) (num den bit quot : Z) : option (Z * Z) :=
  match fuel with
  | O => None
  | S fuel =>
    if bit =? 0 then Some (num, quot) else
    let '(num, quot) := if den <=? num then (u64 (num - den), Z.lor quot bit) else (num, quot) in
    divide_loop fuel num (Z.shiftr den 1) (Z.shiftr bit 1) quot
  end.

(** The returned quotient and [*rem]. *)
Definition udivmod64 (num den : Z) : option (Z * Z) :=
  if den =? 0 then Some (0, 0) else
  '(den, bit) ← align_loop loop_fuel num den 1;
  '(rem, quot) ← divide_loop loop_fuel num den bit 0;
  Some (quot, rem).

Definition __udivdi3 (num den : Z) : option Z := fst <$> udivmod64 num den.
Definition __umoddi3 (num den : Z) : option Z := snd <$> udivmod64 num den.
Definition __udivmoddi4 (num den : Z) : option (Z * Z) := udivmod64 num den.

Definition __divdi3 (num den : Z) : option Z :=
  let neg := false in
  let '(neg, unum) := if num <? 0 then (negb neg, u64 (s64 (- num))) else (neg, u64 num) in
  let '(neg, uden) := if den <? 0 then (negb neg, u64 (s64 (- den))) else (neg, u64 den) in
  '(q, _) ← udivmod64 unum uden;
  Some (if neg : bool then s64 (- s64 q) else s64 q).

Definition __moddi3 (num den : Z) : option Z :=
  let '(neg, unum) := if num <? 0 then (true, u64 (s64 (- num))) else (false, u64 num) in
  let uden := if den <? 0 then u64 (s64 (- den)) else u64 den in
  '(_, rem) ← udivmod64 unum uden;
  Some (if neg : bool then s64 (- s64 rem) else s64 rem).

(** ** Lemmas *)

Lemma top_bit_clear d : 0 <= d < 2 ^ 64 -> (Z.land d (2 ^ 63) =? 0) = (d <? 2 ^ 63).
Proof.
  intros Hd. replace (2 ^ 63) with (Z.shiftl 1 63) at 1 by reflexivity.
  assert (E : Z.land d (Z.shiftl 1 63) = Z.shiftl (Z.b2z (Z.testbit d 63)) 63).
  { apply Z.bits_inj'. intros n Hn. rewrite Z.land_spec, !Z.shiftl_spec by done.
    destruct (Z.eq_dec n 63) as [->|Hne]; [cbn [Z.sub Z.add]; by destruct (Z.testbit d 63)|].
    destruct (Z.ltb_spec n 63); [rewrite !(Z.testbit_neg_r _ (n - 63)) by lia; apply andb_false_r|].
    assert (Ht : Z.testbit 1 (n - 63) = false) by (apply Z.bits_above_log2; cbn; lia).
    assert (Hb : Z.testbit (Z.b2z (Z.testbit d 63)) (n - 63) = false) by (destruct (Z.testbit d 63); [done|apply Z.bits_0]).
    by rewrite Ht, Hb, andb_false_r. }
  rewrite E, Z.testbit_odd, Z.shiftr_div_pow2 by lia. destruct (Z.ltb_spec d (2 ^ 63)).
  - rewrite Z.div_small by lia. done.
  - replace (d / 2 ^ 63) with 1 by dlia. done.
Qed.

Lemma lor_multiple q k : 0 <= k -> q mod 2 ^ (k + 1) = 0 -> Z.lor q (2 ^ k) = q + 2 ^ k.
Proof.
  intros Hk Hq. assert (E : Z.land q (2 ^ k) = 0).
  { apply Z.bits_inj'. intros n Hn. rewrite Z.land_spec, Z.bits_0. destruct (Z.eq_dec n k) as [->|Hne].
    - replace q with (q / 2 ^ (k + 1) * 2 ^ (k + 1)) by (pose proof (Z.div_mod q (2 ^ (k + 1)) ltac:(lia)); lia).
      by rewrite Z.mul_pow2_bits_low by lia.
    - rewrite Z.pow2_bits_false by lia. apply andb_false_r. }
  rewrite <- Z.lxor_lor by done. symmetry. by apply Z.add_nocarry_lxor.
Qed.

Section Division.
Variable d : Z.
Hypothesis Hd : 0 < d < 2 ^ 64.

(** The divisor is shifted until it has the dividend's size, without losing a bit. *)
Lemma align_loop_spec num fuel j :
  0 <= num < 2 ^ 64 -> 0 <= j -> d * 2 ^ j < 2 ^ 64 -> 64 - j < Z.of_nat fuel ->
  exists k, 0 <= k < 64 /\ d * 2 ^ k < 2 ^ 64 /\ num < 2 * (d * 2 ^ k) /\
    align_loop fuel num (d * 2 ^ j) (2 ^ j) = Some (d * 2 ^ k, 2 ^ k).
Proof.
  intros Hn. revert j. induction fuel as [|fuel IH]; intros j Hj Hlt Hf.
  { assert (2 ^ 64 <= 2 ^ j) by (apply Z.pow_le_mono_r; lia). nia. }
  assert (Hp : 0 < 2 ^ j) by lia.
  assert (Hj' : j < 64) by (apply (Z.pow_lt_mono_r_iff 2); nia). cbn [align_loop]. rewrite top_bit_clear by nia.
  destruct (Z.ltb_spec (d * 2 ^ j) (2 ^ 63)) as [Ht|Ht]; cbn [andb].
  2:{ exists j. split_and!; try done. lia. }
  destruct (Z.ltb_spec (d * 2 ^ j) num) as [Hlt'|Hge].
  2:{ exists j. split_and!; try done. nia. }
  rewrite !Z.shiftl_mul_pow2 by lia. assert (Es : 2 ^ (j + 1) = 2 ^ j * 2 ^ 1) by (apply Z.pow_add_r; lia).
  assert (2 ^ j < 2 ^ 63) by nia. unfold u64. rewrite !Z.mod_small by nia.
  replace (d * 2 ^ j * 2 ^ 1) with (d * 2 ^ (j + 1)) by nia. rewrite <- Es. apply IH; nia.
Qed.

Lemma divide_loop_spec k : forall fuel num quot,
  (S k < fuel)%nat -> 0 <= num < 2 ^ 64 -> d * 2 ^ Z.of_nat k < 2 ^ 64 -> num < 2 * (d * 2 ^ Z.of_nat k) -> quot mod 2 ^ (Z.of_nat k + 1) = 0 ->
  divide_loop fuel num (d * 2 ^ Z.of_nat k) (2 ^ Z.of_nat k) quot = Some (num mod d, quot + num / d).
Proof.
  induction k as [|k IH]; intros fuel num quot Hf Hn Hlt H2 Hq; destruct fuel as [|fuel]; try lia; cbn [divide_loop].
  - change (2 ^ Z.of_nat 0) with 1 in *. rewrite Z.mul_1_r in *. cbn [Z.eqb]. destruct fuel as [|fuel]; [lia|].
    destruct (Z.leb_spec d num) as [Hle|Hgt].
    + pose proof (lor_multiple quot 0 ltac:(lia) Hq) as El. change (2 ^ 0) with 1 in El. rewrite El. cbn [divide_loop]. change (Z.shiftr 1 1) with 0. cbn [Z.eqb].
      unfold u64. rewrite Z.mod_small by lia. replace (num / d) with 1 by (apply Z.div_unique with (num - d); lia).
      by replace (num mod d) with (num - d) by (apply Z.mod_unique with 1; lia).
    + cbn [divide_loop]. change (Z.shiftr 1 1) with 0. cbn [Z.eqb]. rewrite Z.div_small, Z.mod_small by lia. by rewrite Z.add_0_r.
  - rewrite Nat2Z.inj_succ, <- Z.add_1_r in *. assert (Es : 2 ^ (Z.of_nat k + 1) = 2 ^ Z.of_nat k * 2) by (apply (Z.pow_add_r 2 _ 1); lia).
    assert (Hpos : 0 < 2 ^ Z.of_nat k) by lia. rewrite (proj2 (Z.eqb_neq _ 0)) by lia.
    assert (E1 : Z.shiftr (d * 2 ^ (Z.of_nat k + 1)) 1 = d * 2 ^ Z.of_nat k).
    { rewrite Z.shiftr_div_pow2 by lia. change (2 ^ 1) with 2. rewrite Es. replace (d * (2 ^ Z.of_nat k * 2)) with (d * 2 ^ Z.of_nat k * 2) by ring.
      by apply Z.div_mul. }
    assert (E2 : Z.shiftr (2 ^ (Z.of_nat k + 1)) 1 = 2 ^ Z.of_nat k).
    { rewrite Z.shiftr_div_pow2 by lia. change (2 ^ 1) with 2. rewrite Es. by apply Z.div_mul. }
    rewrite E1, E2. assert (Hq' : quot mod 2 ^ (Z.of_nat k + 1) = 0).
    { assert (Es2 : 2 ^ (Z.of_nat k + 1 + 1) = 2 ^ (Z.of_nat k + 1) * 2) by (apply (Z.pow_add_r 2 _ 1); lia).
      apply Z.mod_divide in Hq as [c Hc]; [|lia]. apply Z.mod_divide; [lia|]. exists (c * 2). rewrite Hc, Es2. ring. }
    destruct (Z.leb_spec (d * 2 ^ (Z.of_nat k + 1)) num) as [Hle|Hgt].
    + rewrite lor_multiple by (done || lia). unfold u64. rewrite (Z.mod_small (num - _)) by nia. rewrite IH; [|lia|nia|nia|nia|].
      * rewrite (Z.add_comm quot), <- Z.add_assoc. f_equal.
        replace (num - d * 2 ^ (Z.of_nat k + 1)) with (num + (- 2 ^ (Z.of_nat k + 1)) * d) by ring.
        rewrite Z.mod_add, Z.div_add by lia. f_equal. lia.
      * rewrite <- (Z.mul_1_l (2 ^ (Z.of_nat k + 1))) at 1. by rewrite Z.mod_add by lia.
    + rewrite IH; [done|lia|done|nia|nia|done].
Qed.

Lemma udivmod64_eq num : 0 <= num < 2 ^ 64 -> udivmod64 num d = Some (num / d, num mod d).
Proof.
  intros Hn. unfold udivmod64. rewrite (proj2 (Z.eqb_neq d 0)) by lia.
  destruct (align_loop_spec num loop_fuel 0) as (k & Hk & Hlt & H2 & E); try (done || lia).
  rewrite Z.pow_0_r, Z.mul_1_r in E. rewrite E. cbn [mbind option_bind].
  replace k with (Z.of_nat (Z.to_nat k)) in * by lia. rewrite divide_loop_spec; try done; [unfold loop_fuel; lia].
Qed.
End Division.

Lemma s64_range z : -2 ^ 63 <= s64 z < 2 ^ 63.
Proof. unfold s64, u64. pose proof (Z.mod_pos_bound z (2 ^ 64) ltac:(lia)). destruct (Z.ltb_spec (z mod 2 ^ 64) (2 ^ 63)); lia. Qed.

Lemma s64_small z : -2 ^ 63 <= z < 2 ^ 63 -> s64 z = z.
Proof. intros Hz. unfold s64, u64. destruct (Z.ltb_spec (z mod 2 ^ 64) (2 ^ 63)); dlia. Qed.

(** The magnitude of a 64-bit integer, also of the least one. *)
Lemma u64_magnitude z : -2 ^ 63 <= z < 2 ^ 63 -> (if z <? 0 then u64 (s64 (- z)) else u64 z) = Z.abs z.
Proof. intros Hz. unfold s64, u64. destruct (Z.ltb_spec z 0); [|dlia]. destruct (Z.ltb_spec ((- z) mod 2 ^ 64) (2 ^ 63)); dlia. Qed.

Lemma s64_neg q : s64 (- s64 q) = s64 (- q).
Proof.
  unfold s64. assert (E : u64 (- (if u64 q <? 2 ^ 63 then u64 q else u64 q - 2 ^ 64)) = u64 (- q)); [|by rewrite E].
  unfold u64. destruct (_ <? _); dlia.
Qed.

(** C36: the division routines are division.  For every 64-bit dividend and every
    divisor other than zero, the shift-and-subtract loops end and give the exact
    quotient and remainder; the signed routines truncate toward zero as C requires,
    with the quotient of the least integer by minus one wrapping around. *)
Theorem compiler_rt_divides num den :
  (0 <= num < 2 ^ 64 -> 0 < den < 2 ^ 64 -> __udivmoddi4 num den = Some (num / den, num mod den)
     /\ __udivdi3 num den = Some (num / den) /\ __umoddi3 num den = Some (num mod den)) /\
  (-2 ^ 63 <= num < 2 ^ 63 -> -2 ^ 63 <= den < 2 ^ 63 -> den <> 0 ->
     __divdi3 num den = Some (s64 (Z.quot num den)) /\ __moddi3 num den = Some (Z.rem num den)).
Proof.
  split.
  - intros Hn Hd. unfold __udivmoddi4, __udivdi3, __umoddi3. by rewrite (udivmod64_eq den Hd num Hn).
  - intros Hn Hd Hne. pose proof (u64_magnitude num Hn) as Mn. pose proof (u64_magnitude den Hd) as Md.
    assert (E : udivmod64 (Z.abs num) (Z.abs den) = Some (Z.abs num / Z.abs den, Z.abs num mod Z.abs den)) by (apply udivmod64_eq; lia).
    pose proof (Z.quot_div num den Hne) as Hq. pose proof (Z.rem_mod num den Hne) as Hr. unfold __divdi3, __moddi3.
    set (q := Z.abs num / Z.abs den) in *. set (r := Z.abs num mod Z.abs den) in *.
    assert (Hr' : 0 <= r < 2 ^ 63).
    { assert (0 <= r < Z.abs den) by (apply Z.mod_pos_bound; lia). lia. }
    assert (H0 : num = 0 -> q = 0 /\ r = 0) by (intros ->; unfold q, r; rewrite Z.div_0_l, Z.mod_0_l; lia).
    assert (Hq' : Z.quot num den = if num <? 0 then (if den <? 0 then q else - q) else (if den <? 0 then - q else q)).
    { rewrite Hq. destruct (Z.ltb_spec num 0), (Z.ltb_spec den 0), (Z.eq_dec num 0) as [Hz|Hz];
        try (destruct (H0 Hz) as [-> _]); rewrite ?(Z.sgn_neg num), ?(Z.sgn_pos num), ?(Z.sgn_neg den), ?(Z.sgn_pos den) by lia; lia. }
    assert (Hr2 : Z.rem num den = if num <? 0 then - r else r).
    { rewrite Hr. destruct (Z.ltb_spec num 0), (Z.eq_dec num 0) as [Hz|Hz];
        try (destruct (H0 Hz) as [_ ->]); rewrite ?(Z.sgn_neg num), ?(Z.sgn_pos num) by lia; lia. }
    clearbody q r. rewrite Hq', Hr2. destruct (Z.ltb_spec num 0), (Z.ltb_spec den 0); cbn [negb]; rewrite Mn, Md, E; cbn [mbind option_bind];
      rewrite ?s64_neg; split; try done; f_equal; apply s64_small; lia.
Qed.

Lemma compiler_rt_divides_witness :
  __udivmoddi4 (2 ^ 64 - 1) 1000000007 = Some ((2 ^ 64 - 1) / 1000000007, (2 ^ 64 - 1) mod 1000000007)
  /\ __divdi3 (-2 ^ 63) (-1) = Some (-2 ^ 63) /\ __moddi3 (-7) 2 = Some (-1).
Proof.
  split_and!.
  - apply (compiler_rt_divides (2 ^ 64 - 1) 1000000007); lia.
  - apply (compiler_rt_divides (-2 ^ 63) (-1)); lia.
  - apply (compiler_rt_divides (-7) 2); lia.
Defined.
