(* ===== verification/LibcTime.v ===== *)
(** * Calendar time in the user C library

    Models [src/src/user/libc/time.c]: the conversions between seconds since 1970
    ([time_t], an unsigned 32-bit integer) and broken-down UTC time, and the textual
    forms [strftime] and [strptime].  A [const char*] cursor is the list of the bytes
    from the cursor to the terminator. *)
From S2P Require Import Prelude Klib.
From Stdlib Require Import ZArith Lia ZifyBool Bool String.
From stdpp Require Import base numbers list.
Local Open Scope Z_scope.

Record tm := Tm {
  tm_sec : Z;
  tm_min : Z;
  tm_hour : Z;
  tm_mday : Z;
  tm_mon : Z;
  tm_year : Z;
  tm_wday : Z;
  tm_yday : Z;
  tm_isdst : Z
}.

Definition s_months : list cstring :=
  [bytes "Jan"; bytes "Feb"; bytes "Mar"; bytes "Apr"; bytes "May"; bytes "Jun";
   bytes "Jul"; bytes "Aug"; bytes "Sep"; bytes "Oct"; bytes "Nov"; bytes "Dec"].

Definition s_weekdays : list cstring :=
  [bytes "Sun"; bytes "Mon"; bytes "Tue"; bytes "Wed"; bytes "Thu"; bytes "Fri"; bytes "Sat"].

Definition is_leap (year : Z) : bool :=
  ((Z.rem year 4 =? 0) && negb (Z.rem year 100 =? 0)) || (Z.rem year 400 =? 0).

Definition month_days : list Z := [31; 28; 31; 30; 31; 30; 31; 31; 30; 31; 30; 31].

Definition year_days (year : Z) : Z := if is_leap year then 366 else 365.

(** The [while (1)] loop of [gmtime_r]: the day within the year, and the year. *)
Fixpoint year_loop (fuel : nat) (days year : Z) : option (Z * Z) :=
  match fuel with
  | O => None
  | S fuel =>
    let yd := year_days year in
    if days <? yd then Some (days, year) else year_loop fuel (days - yd) (year + 1)
  end.

(** [md] of the month loop. *)
Definition month_len (year mon : Z) : Z :=
  zget 0 month_days mon + (if (mon =? 1) && is_leap year then 1 else 0).

(** The [while (mon < 12)] loop, [n] months being left. *)
Fixpoint month_loop (n : nat) (year days mon : Z) : Z * Z :=
  match n with
  | O => (days, mon)
  | S n =>
    let md := month_len year mon in
    if days <? md then (days, mon) else month_loop n year (days - md) (mon + 1)
  end.

(** Every year takes at least 365 days off, so this many rounds are enough. *)
Definition year_fuel (days : Z) : nat := S (Z.to_nat (days / 365)).

Definition gmtime_r (v : Z) : option tm :=
  let days := v / 86400 in
  let rem := v mod 86400 in
  match year_loop (year_fuel days) days 1970 with
  | None => None
  | Some (yday, year) =>
    let '(days', mon) := month_loop 12 year yday 0 in
    Some (Tm (rem mod 60) ((rem / 60) mod 60) (rem / 3600) (days' + 1) mon (year - 1900)
            ((days + 4) mod 7) yday 0)
  end.

Definition timegm (t : tm) : Z :=
  let year := tm_year t + 1900 in
  if year <? 1970 then 0 else
  let days := foldl (fun d y => u32 (d + year_days y)) 0 (up_to 1970 year 1) in
  let days := foldl (fun d m =>
    let d := u32 (d + zget 0 month_days m) in
    if (m =? 1) && is_leap year then u32 (d + 1) else d) days (up_to 0 (Z.min (tm_mon t) 12) 1) in
  let days := if 0 <? tm_mday t then u32 (days + (tm_mday t - 1)) else days in
  u32 (u32 (days * 86400) + u32 (tm_hour t * 3600) + u32 (tm_min t * 60) + tm_sec t).

(** The value returned and the updated argument. *)
Definition mktime (t : tm) : option (Z * tm) :=
  let value := timegm t in
  match gmtime_r value with
  | None => None
  | Some n => Some (value, Tm (tm_sec t) (tm_min t) (tm_hour t) (tm_mday t) (tm_mon t) (tm_year t)
                             (tm_wday n) (tm_yday n) (tm_isdst t))
  end.

(** ** Parsing *)

(** [a[i] != b[i]] over the first [n] bytes, reading 0 at a terminator; the loop stops
    at the first difference. *)
Fixpoint str_eq_n (n : nat) (a b : cstring) : bool :=
  match n with
  | O => true
  | S n => if negb (hd 0 a =? hd 0 b) then false else str_eq_n n (tl a) (tl b)
  end.

Fixpoint str_eq (a b : cstring) : bool :=
  match a, b with
  | x :: a', y :: b' => if x =? y then str_eq a' b' else false
  | _, _ => hd 0 a =? hd 0 b
  end.

Definition is_digit (c : Z) : bool := (48 <=? c) && (c <=? 57).

(** Up to [digits] decimal digits: the value and the rest of the input. *)
Fixpoint parse_digits (digits : nat) (value : Z) (p : cstring) : Z * cstring * nat :=
  match digits, p with
  | S digits, c :: p' =>
    if is_digit c then
      let '(v, r, k) := parse_digits digits (value * 10 + (c - 48)) p' in (v, r, S k)
    else (value, p, O)
  | _, _ => (value, p, O)
  end.

Definition parse_u2 (p : cstring) : option (Z * cstring) :=
  let '(v, r, k) := parse_digits 2 0 p in
  if (k =? 0)%nat then None else Some (v, r).

Definition parse_u4 (p : cstring) : option (Z * cstring) :=
  let '(v, r, k) := parse_digits 4 0 p in
  if (k =? 4)%nat then Some (v, r) else None.

Fixpoint parse_name (i : Z) (p : cstring) (names : list cstring) : option (Z * cstring) :=
  match names with
  | [] => None
  | name :: names => if str_eq_n 3 p name then Some (i, drop 3 p) else parse_name (i + 1) p names
  end.

(** [*p++ == c]. *)
Definition expect (c : Z) (p : cstring) : option cstring :=
  match p with
  | x :: p' => if x =? c then Some p' else None
  | [] => None
  end.

Definition set_wday (v : Z) (t : tm) : tm :=
  Tm (tm_sec t) (tm_min t) (tm_hour t) (tm_mday t) (tm_mon t) (tm_year t) v (tm_yday t) (tm_isdst t).
Definition set_mday (v : Z) (t : tm) : tm :=
  Tm (tm_sec t) (tm_min t) (tm_hour t) v (tm_mon t) (tm_year t) (tm_wday t) (tm_yday t) (tm_isdst t).
Definition set_mon (v : Z) (t : tm) : tm :=
  Tm (tm_sec t) (tm_min t) (tm_hour t) (tm_mday t) v (tm_year t) (tm_wday t) (tm_yday t) (tm_isdst t).
Definition set_year (v : Z) (t : tm) : tm :=
  Tm (tm_sec t) (tm_min t) (tm_hour t) (tm_mday t) (tm_mon t) v (tm_wday t) (tm_yday t) (tm_isdst t).
Definition set_hour (v : Z) (t : tm) : tm :=
  Tm (tm_sec t) (tm_min t) v (tm_mday t) (tm_mon t) (tm_year t) (tm_wday t) (tm_yday t) (tm_isdst t).
Definition set_min (v : Z) (t : tm) : tm :=
  Tm (tm_sec t) v (tm_hour t) (tm_mday t) (tm_mon t) (tm_year t) (tm_wday t) (tm_yday t) (tm_isdst t).
Definition set_sec (v : Z) (t : tm) : tm :=
  Tm v (tm_min t) (tm_hour t) (tm_mday t) (tm_mon t) (tm_year t) (tm_wday t) (tm_yday t) (tm_isdst t).

(** A failed step returns 0 and leaves the fields stored so far. *)
Definition or_fail {A} (o : option A) (t : tm) (k : A -> option cstring * tm) : option cstring * tm :=
  match o with
  | Some a => k a
  | None => (None, t)
  end.

Definition http_format : cstring := bytes "%a, %d %b %Y %H:%M:%S GMT".

Definition strptime (buf fmt : cstring) (t : tm) : option cstring * tm :=
  if negb (str_eq fmt http_format) then (None, t) else
  or_fail (parse_name 0 buf s_weekdays) t (fun '(wday, p) =>
  or_fail (expect 44 p) t (fun p =>
  or_fail (expect 32 p) t (fun p =>
  let t := set_wday wday t in
  or_fail (parse_u2 p) t (fun '(v, p) => let t := set_mday v t in
  or_fail (expect 32 p) t (fun p =>
  or_fail (parse_name 0 p s_months) t (fun '(mon, p) =>
  or_fail (expect 32 p) t (fun p =>
  let t := set_mon mon t in
  or_fail (parse_u4 p) t (fun '(year, p) =>
  or_fail (expect 32 p) t (fun p =>
  let t := set_year (year - 1900) t in
  or_fail (parse_u2 p) t (fun '(v, p) => let t := set_hour v t in
  or_fail (expect 58 p) t (fun p =>
  or_fail (parse_u2 p) t (fun '(v, p) => let t := set_min v t in
  or_fail (expect 58 p) t (fun p =>
  or_fail (parse_u2 p) t (fun '(v, p) => let t := set_sec v t in
  or_fail (expect 32 p) t (fun p =>
  if negb (str_eq_n 3 p (bytes "GMT")) then (None, t)
  else (Some (drop 3 p), t)))))))))))))))).

(** ** Formatting *)

(** The bytes stored in [out] and the position, which counts the dropped ones too.  The
    position is a [size_t] in the code; it would wrap around after [2^32] characters. *)
Definition sink : Type := (cstring * Z)%type.

Definition append_ch (max : Z) (o : sink) (c : Z) : sink :=
  (if o.2 + 1 <? max then o.1 ++ [c] else o.1, o.2 + 1).

Definition append_str (max : Z) (o : sink) (s : cstring) : sink := foldl (append_ch max) o s.

(** The [do ... while] of [append_u32]: decimal digits, least significant first. *)
Fixpoint dec_digits (room : nat) (v : Z) : cstring :=
  match room with
  | O => []
  | S room => (48 + v mod 10) :: (if 0 <? v / 10 then dec_digits room (v / 10) else [])
  end.

Definition pad_zeros (width : Z) (buf : cstring) : cstring :=
  buf ++ replicate (Z.to_nat (Z.min width 16 - zlen buf)) 48.

Definition append_u32 (max : Z) (o : sink) (v width : Z) : sink :=
  append_str max o (rev (pad_zeros width (dec_digits 16 v))).

Definition name_of (names : list cstring) (n i : Z) : cstring :=
  zget [] names (if (0 <=? i) && (i <? n) then i else 0).

Definition convert (max : Z) (t : tm) (o : sink) (c : Z) : sink :=
  if c =? 37 then append_ch max o 37
  else if c =? 98 then append_str max o (name_of s_months 12 (tm_mon t))
  else if c =? 97 then append_str max o (name_of s_weekdays 7 (tm_wday t))
  else if c =? 100 then append_u32 max o (u32 (tm_mday t)) 2
  else if c =? 72 then append_u32 max o (u32 (tm_hour t)) 2
  else if c =? 77 then append_u32 max o (u32 (tm_min t)) 2
  else if c =? 83 then append_u32 max o (u32 (tm_sec t)) 2
  else if c =? 89 then append_u32 max o (u32 (tm_year t + 1900)) 4
  else append_ch max o c.

(** [None]: the format ends after a percent sign, and the loop steps over its
    terminator and reads on beyond the string. *)
Fixpoint strftime_loop (max : Z) (t : tm) (p : cstring) (o : sink) : option sink :=
  match p with
  | [] => Some o
  | c :: p' =>
    if negb (c =? 37) then strftime_loop max t p' (append_ch max o c)
    else match p' with
         | [] => None
         | d :: p'' => strftime_loop max t p'' (convert max t o d)
         end
  end.

(** The value returned and the string left in the buffer. *)
Definition strftime (max : Z) (format : cstring) (t : tm) : option (Z * cstring) :=
  if max =? 0 then Some (0, []) else
  match strftime_loop max t format ([], 0) with
  | None => None
  | Some (out, pos) => if max <=? pos then Some (0, out) else Some (pos, out)
  end.

(** ** Specification *)

(** Days from 1970 to the start of the [n]-th year after it, and days of a year before
    its month [n]. *)
Fixpoint days_before_year (n : nat) : Z :=
  match n with
  | O => 0
  | S n => days_before_year n + year_days (1970 + Z.of_nat n)
  end.

Fixpoint days_before_month (year : Z) (n : nat) : Z :=
  match n with
  | O => 0
  | S n => days_before_month year n + month_len year (Z.of_nat n)
  end.

(** Seconds since 1970 of a broken-down time, without wrap-around. *)
Definition seconds_of (t : tm) : Z :=
  (days_before_year (Z.to_nat (tm_year t - 70))
   + days_before_month (tm_year t + 1900) (Z.to_nat (tm_mon t)) + (tm_mday t - 1)) * 86400
  + tm_hour t * 3600 + tm_min t * 60 + tm_sec t.

(** A calendar date and time of day, with the day of the week and of the year that
    belong to it. *)
Record tm_valid (t : tm) : Prop := TmValid {
  tv_year : 70 <= tm_year t;
  tv_mon : 0 <= tm_mon t < 12;
  tv_mday : 1 <= tm_mday t <= month_len (tm_year t + 1900) (tm_mon t);
  tv_hour : 0 <= tm_hour t < 24;
  tv_min : 0 <= tm_min t < 60;
  tv_sec : 0 <= tm_sec t < 60;
  tv_yday : tm_yday t = days_before_month (tm_year t + 1900) (Z.to_nat (tm_mon t)) + (tm_mday t - 1);
  tv_wday : tm_wday t = (days_before_year (Z.to_nat (tm_year t - 70)) + tm_yday t + 4) mod 7;
  tv_isdst : tm_isdst t = 0
}.

(** ** Lemmas *)

Lemma year_days_range y : 365 <= year_days y <= 366.
Proof. unfold year_days. destruct (is_leap y); lia. Qed.

Lemma month_cases m : 0 <= m < 12 ->
  m = 0 \/ m = 1 \/ m = 2 \/ m = 3 \/ m = 4 \/ m = 5 \/ m = 6 \/ m = 7 \/ m = 8 \/ m = 9 \/ m = 10 \/ m = 11.
Proof. lia. Qed.

Lemma month_len_range y m : 0 <= m < 12 -> 28 <= month_len y m <= 31.
Proof.
  intros Hm%month_cases. unfold month_len.
  destruct_or! Hm; subst; destruct (is_leap y); vm_compute; split; discriminate.
Qed.

Lemma days_before_month_year y : days_before_month y 12 = year_days y.
Proof. unfold year_days. cbn [days_before_month]. unfold month_len. destruct (is_leap y); reflexivity. Qed.

Lemma days_before_month_S y m :
  0 <= m -> days_before_month y (Z.to_nat (m + 1)) = days_before_month y (Z.to_nat m) + month_len y m.
Proof.
  intros Hm. replace (Z.to_nat (m + 1)) with (S (Z.to_nat m)) by lia.
  cbn [days_before_month]. by rewrite Z2Nat.id by lia.
Qed.

Lemma days_before_year_S y :
  1970 <= y ->
  days_before_year (Z.to_nat (y + 1 - 1970)) = days_before_year (Z.to_nat (y - 1970)) + year_days y.
Proof.
  intros Hy. replace (Z.to_nat (y + 1 - 1970)) with (S (Z.to_nat (y - 1970))) by lia.
  cbn [days_before_year]. do 2 f_equal. lia.
Qed.

Lemma days_before_month_mono y m m' :
  0 <= m <= m' -> m' <= 12 ->
  days_before_month y (Z.to_nat m) <= days_before_month y (Z.to_nat m').
Proof.
  intros Hm Hm'. replace m' with (m + Z.of_nat (Z.to_nat (m' - m))) by lia.
  assert (Hn : m + Z.of_nat (Z.to_nat (m' - m)) <= 12) by lia. revert Hn.
  generalize (Z.to_nat (m' - m)) as n. induction n as [|n IH]; intros Hn.
  - rewrite Z.add_0_r. lia.
  - replace (m + Z.of_nat (S n)) with (m + Z.of_nat n + 1) by lia.
    rewrite days_before_month_S by lia. pose proof (month_len_range y (m + Z.of_nat n)). lia.
Qed.

Lemma days_before_year_mono a b :
  (a <= b)%nat -> days_before_year a + 365 * (Z.of_nat b - Z.of_nat a) <= days_before_year b.
Proof.
  intros Hab. induction Hab as [|b Hab IH]; [lia|]. cbn [days_before_year].
  pose proof (year_days_range (1970 + Z.of_nat b)). lia.
Qed.

Lemma year_loop_spec fuel days year :
  0 <= days -> 1970 <= year -> (Z.to_nat (days / 365) < fuel)%nat ->
  exists d y, year_loop fuel days year = Some (d, y) /\ 0 <= d < year_days y /\ year <= y
    /\ days + days_before_year (Z.to_nat (year - 1970)) = d + days_before_year (Z.to_nat (y - 1970)).
Proof.
  revert days year. induction fuel as [|fuel IH]; intros days year Hd Hy Hf; [lia|].
  cbn [year_loop]. cbv zeta. destruct (Z.ltb_spec days (year_days year)).
  - exists days, year. split_and!; try done; lia.
  - pose proof (year_days_range year).
    destruct (IH (days - year_days year) (year + 1)) as (d & y & He & Hr & Hle & Hs); [lia|lia|dlia|].
    exists d, y. rewrite days_before_year_S in Hs by lia. split_and!; [done|lia|lia|lia|lia].
Qed.

Lemma month_loop_spec n y days m :
  0 <= days -> 0 <= m -> m + Z.of_nat n = 12 ->
  days + days_before_month y (Z.to_nat m) < year_days y ->
  exists d k, month_loop n y days m = (d, k) /\ 0 <= k < 12 /\ 0 <= d < month_len y k
    /\ days + days_before_month y (Z.to_nat m) = d + days_before_month y (Z.to_nat k).
Proof.
  revert days m. induction n as [|n IH]; intros days m Hd Hm Hn Hlt.
  - replace m with 12 in Hlt by lia. change (Z.to_nat 12) with 12%nat in Hlt.
    rewrite days_before_month_year in Hlt. lia.
  - cbn [month_loop]. cbv zeta. destruct (Z.ltb_spec days (month_len y m)).
    + exists days, m. split_and!; try done; lia.
    + destruct (IH (days - month_len y m) (m + 1)) as (d & k & He & Hk & Hr & Hs); try lia.
      { rewrite days_before_month_S by lia. lia. }
      exists d, k. rewrite days_before_month_S in Hs by lia. split_and!; [done|lia|lia|lia|lia|lia].
Qed.

Lemma gmtime_r_valid v :
  0 <= v -> exists t, gmtime_r v = Some t /\ tm_valid t /\ seconds_of t = v.
Proof.
  intros Hv. unfold gmtime_r.
  destruct (year_loop_spec (year_fuel (v / 86400)) (v / 86400) 1970)
    as (d & y & -> & Hd & Hy & Hs); [dlia|lia|unfold year_fuel; lia|].
  change (days_before_year (Z.to_nat (1970 - 1970))) with 0 in Hs.
  destruct (month_loop_spec 12 y d 0) as (d' & k & -> & Hk & Hd' & Hs'); try lia.
  { change (days_before_month y (Z.to_nat 0)) with 0. lia. }
  change (days_before_month y (Z.to_nat 0)) with 0 in Hs'.
  eexists; split; [done|].
  assert (Hyy : y - 1900 - 70 = y - 1970) by lia. assert (Hyz : y - 1900 + 1900 = y) by lia.
  split.
  - constructor; cbn; rewrite ?Hyy, ?Hyz; try lia; try dlia.
  - unfold seconds_of. cbn. rewrite Hyy, Hyz. dlia.
Qed.

Lemma timegm_eq t :
  70 <= tm_year t -> 0 <= tm_mon t <= 12 -> 1 <= tm_mday t -> timegm t = u32 (seconds_of t).
Proof.
  intros Hy Hm Hd. unfold timegm. cbv zeta.
  destruct (Z.ltb_spec (tm_year t + 1900) 1970); [lia|].
  pose proof (foldl_range (fun y d => d = u32 (days_before_year (Z.to_nat (y - 1970))))
    (fun d y => u32 (d + year_days y)) 1970 (tm_year t + 1900) 0 ltac:(lia) eq_refl) as Hyears.
  rewrite Hyears.
  2:{ intros k x Hk ->. rewrite days_before_year_S by lia. u32_norm. lia. }
  rewrite Z.min_l by lia. set (year := tm_year t + 1900). set (dy := days_before_year _).
  pose proof (foldl_range (fun m d => d = u32 (dy + days_before_month year (Z.to_nat m)))
    (fun d m => let d := u32 (d + zget 0 month_days m) in
                if (m =? 1) && is_leap year then u32 (d + 1) else d) 0 (tm_mon t) (u32 dy)) as Hmonths.
  cbv beta zeta in Hmonths. rewrite Hmonths; [|lia| |].
  3:{ intros k x Hk ->. rewrite days_before_month_S by lia. unfold month_len.
      destruct ((k =? 1) && is_leap year); u32_norm; lia. }
  2:{ change (days_before_month year (Z.to_nat 0)) with 0. f_equal. lia. }
  destruct (Z.ltb_spec 0 (tm_mday t)); [|lia].
  unfold seconds_of. replace (tm_year t - 70) with (tm_year t + 1900 - 1970) by lia.
  fold year dy. u32_norm. lia.
Qed.

(** The date determines the day number, and the other way round. *)
Lemma day_number_inj t t' :
  tm_valid t -> tm_valid t' ->
  days_before_year (Z.to_nat (tm_year t - 70)) + tm_yday t
  = days_before_year (Z.to_nat (tm_year t' - 70)) + tm_yday t' ->
  tm_year t = tm_year t' /\ tm_mon t = tm_mon t' /\ tm_mday t = tm_mday t'.
Proof.
  assert (Hrange : forall t, tm_valid t -> 0 <= tm_yday t < year_days (tm_year t + 1900)
    /\ 0 <= tm_yday t - days_before_month (tm_year t + 1900) (Z.to_nat (tm_mon t))
         < month_len (tm_year t + 1900) (tm_mon t)).
  { intros u Hu. destruct Hu as [Hy Hm Hd _ _ _ Hyd _ _]. rewrite Hyd.
    pose proof (days_before_month_mono (tm_year u + 1900) 0 (tm_mon u) ltac:(lia) ltac:(lia)) as H0.
    pose proof (days_before_month_mono (tm_year u + 1900) (tm_mon u + 1) 12 ltac:(lia) ltac:(lia)) as H1.
    rewrite days_before_month_S in H1 by lia. change (Z.to_nat 12) with 12%nat in H1.
    rewrite days_before_month_year in H1. change (days_before_month (tm_year u + 1900) (Z.to_nat 0)) with 0 in H0. lia. }
  intros Ht Ht' Heq. destruct (Hrange t Ht) as [Hr Hr2]; destruct (Hrange t' Ht') as [Hr' Hr2'].
  pose proof (tv_year t Ht); pose proof (tv_year t' Ht').
  assert (Hyear : forall a b, tm_valid a -> tm_valid b -> tm_year a < tm_year b ->
    days_before_year (Z.to_nat (tm_year a - 70)) + tm_yday a
    < days_before_year (Z.to_nat (tm_year b - 70)) + tm_yday b).
  { intros a b Ha Hb Hab. destruct (Hrange a Ha) as [Hra _]; destruct (Hrange b Hb) as [Hrb _].
    pose proof (tv_year a Ha).
    pose proof (days_before_year_mono (S (Z.to_nat (tm_year a - 70))) (Z.to_nat (tm_year b - 70)) ltac:(lia)) as Hm.
    cbn [days_before_year] in Hm. replace (1970 + Z.of_nat (Z.to_nat (tm_year a - 70)))
      with (tm_year a + 1900) in Hm by lia. lia. }
  assert (Hy : tm_year t = tm_year t').
  { pose proof (Hyear t t' Ht Ht'); pose proof (Hyear t' t Ht' Ht). lia. }
  split; [done|]. rewrite <- Hy in *.
  assert (Hyd : tm_yday t = tm_yday t') by lia.
  assert (Hmon : forall m m', 0 <= m < 12 -> 0 <= m' < 12 -> m < m' ->
    days_before_month (tm_year t + 1900) (Z.to_nat m) + month_len (tm_year t + 1900) m
    <= days_before_month (tm_year t + 1900) (Z.to_nat m')).
  { intros m m' Hm Hm' Hlt. rewrite <- days_before_month_S by lia. apply days_before_month_mono; lia. }
  pose proof (tv_mon t Ht); pose proof (tv_mon t' Ht').
  assert (Hm : tm_mon t = tm_mon t').
  { pose proof (Hmon (tm_mon t) (tm_mon t')); pose proof (Hmon (tm_mon t') (tm_mon t)). lia. }
  split; [done|]. pose proof (tv_yday t Ht) as Hd; pose proof (tv_yday t' Ht') as Hd'.
  rewrite <- Hy, <- Hm in Hd'. lia.
Qed.

Lemma seconds_of_inj t t' : tm_valid t -> tm_valid t' -> seconds_of t = seconds_of t' -> t = t'.
Proof.
  intros Ht Ht' Heq. pose proof Ht as [Hy Hm Hd Hh Hi Hs Hyd Hw Hdst].
  pose proof Ht' as [Hy' Hm' Hd' Hh' Hi' Hs' Hyd' Hw' Hdst'].
  unfold seconds_of in Heq. rewrite <- !Z.add_assoc in Heq.
  rewrite <- Hyd, <- Hyd' in Heq. rewrite !Z.add_assoc in Heq.
  destruct (day_number_inj t t' Ht Ht') as (E1 & E2 & E3); [lia|].
  destruct t, t'; cbn in *. subst. f_equal; lia.
Qed.

Lemma seconds_of_nonneg t : tm_valid t -> 0 <= seconds_of t.
Proof.
  intros [Hy Hm Hd Hh Hi Hs _ _ _]. unfold seconds_of.
  pose proof (days_before_year_mono 0 (Z.to_nat (tm_year t - 70)) ltac:(lia)) as H1.
  pose proof (days_before_month_mono (tm_year t + 1900) 0 (tm_mon t) ltac:(lia) ltac:(lia)) as H2.
  change (days_before_month (tm_year t + 1900) (Z.to_nat 0)) with 0 in H2.
  change (days_before_year 0) with 0 in H1. lia.
Qed.

(** ** Formatted text *)

Definition decimal (width v : Z) : cstring := rev (pad_zeros width (dec_digits 16 v)).

(** The text of one conversion. *)
Definition conversion (t : tm) (c : Z) : cstring :=
  if c =? 37 then [37]
  else if c =? 98 then name_of s_months 12 (tm_mon t)
  else if c =? 97 then name_of s_weekdays 7 (tm_wday t)
  else if c =? 100 then decimal 2 (u32 (tm_mday t))
  else if c =? 72 then decimal 2 (u32 (tm_hour t))
  else if c =? 77 then decimal 2 (u32 (tm_min t))
  else if c =? 83 then decimal 2 (u32 (tm_sec t))
  else if c =? 89 then decimal 4 (u32 (tm_year t + 1900))
  else [c].

(** The whole text, without a bound; [None] for a format that ends in a percent sign. *)
Fixpoint expand (t : tm) (p : cstring) : option cstring :=
  match p with
  | [] => Some []
  | c :: p' =>
    if negb (c =? 37) then cons c <$> expand t p'
    else match p' with
         | [] => None
         | d :: p'' => app (conversion t d) <$> expand t p''
         end
  end.

(** The sink after [full] has been appended to an empty one. *)
Definition sink_of (max : Z) (full : cstring) : sink := (take (Z.to_nat (max - 1)) full, zlen full).

Lemma append_ch_sink max full c :
  1 <= max -> append_ch max (sink_of max full) c = sink_of max (full ++ [c]).
Proof.
  intros Hm. unfold append_ch, sink_of. cbn [fst snd].
  assert (Hz : zlen (full ++ [c]) = zlen full + 1) by (unfold zlen; rewrite length_app; cbn; lia).
  rewrite Hz. f_equal. unfold zlen in *. destruct (Z.ltb_spec (Z.of_nat (length full) + 1) max).
  - rewrite !take_ge; [done| |]; rewrite ?length_app; cbn; lia.
  - by rewrite take_app_le by lia.
Qed.

Lemma append_str_sink max full s :
  1 <= max -> append_str max (sink_of max full) s = sink_of max (full ++ s).
Proof.
  intros Hm. unfold append_str. revert full. induction s as [|c s IH]; intros full; cbn [foldl].
  - by rewrite app_nil_r.
  - rewrite append_ch_sink, IH by done. by rewrite <- app_assoc.
Qed.

Lemma convert_sink max t full c :
  1 <= max -> convert max t (sink_of max full) c = sink_of max (full ++ conversion t c).
Proof.
  intros Hm. unfold convert, conversion, append_u32, decimal.
  repeat match goal with |- context [?a =? ?b] => destruct (a =? b) end;
    first [by apply append_ch_sink | by apply append_str_sink].
Qed.

Lemma strftime_loop_sink max t p full :
  1 <= max ->
  strftime_loop max t p (sink_of max full)
  = match expand t p with Some s => Some (sink_of max (full ++ s)) | None => None end.
Proof.
  intros Hm. remember (length p) as n eqn:Hn. revert p full Hn.
  induction (lt_wf n) as [n _ IH]. intros p full ->.
  destruct p as [|c p]; cbn [strftime_loop expand]; [by rewrite app_nil_r|].
  destruct (negb (c =? 37)).
  - rewrite append_ch_sink by done. rewrite (IH (length p)) by (cbn; lia).
    destruct (expand t p); cbn; [|done]. by rewrite <- app_assoc.
  - destruct p as [|d p]; [done|]. rewrite convert_sink by done.
    rewrite (IH (length p)) by (cbn; lia). destruct (expand t p); cbn; [|done]. by rewrite <- app_assoc.
Qed.

Lemma strftime_expand max format t :
  1 <= max ->
  strftime max format t =
  match expand t format with
  | None => None
  | Some s => if zlen s <? max then Some (zlen s, s) else Some (0, take (Z.to_nat (max - 1)) s)
  end.
Proof.
  intros Hm. unfold strftime. destruct (Z.eqb_spec max 0); [lia|].
  replace ([], 0) with (sink_of max []) by (unfold sink_of; by rewrite take_nil).
  rewrite strftime_loop_sink by done. destruct (expand t format) as [s|]; [|done]. cbn [app sink_of].
  unfold zlen. destruct (Z.ltb_spec (Z.of_nat (length s)) max), (Z.leb_spec max (Z.of_nat (length s))); try lia; [|done].
  rewrite take_ge by lia. done.
Qed.

Local Ltac pad_eval :=
  unfold pad_zeros, zlen; cbn [length];
  match goal with
  | |- context [Z.to_nat ?e] => let n := eval vm_compute in (Z.to_nat e) in change (Z.to_nat e) with n
  end; cbn [replicate app rev].

Lemma decimal_2 v : 0 <= v < 100 -> decimal 2 v = [48 + v / 10; 48 + v mod 10].
Proof.
  intros Hv. unfold decimal. cbn [dec_digits]. destruct (Z.ltb_spec 0 (v / 10)).
  - destruct (Z.ltb_spec 0 (v / 10 / 10)); [dlia|]. pad_eval.
    by replace ((v / 10) mod 10) with (v / 10) by dlia.
  - replace (v / 10) with 0 by dlia. by pad_eval.
Qed.

Lemma decimal_4 v :
  0 <= v < 10000 -> decimal 4 v = [48 + v / 1000; 48 + v / 100 mod 10; 48 + v / 10 mod 10; 48 + v mod 10].
Proof.
  intros Hv. unfold decimal. cbn [dec_digits].
  replace (v / 10 / 10) with (v / 100) by dlia. replace (v / 100 / 10) with (v / 1000) by dlia.
  destruct (Z.ltb_spec 0 (v / 10)); [destruct (Z.ltb_spec 0 (v / 100));
    [destruct (Z.ltb_spec 0 (v / 1000))|]|].
  - destruct (Z.ltb_spec 0 (v / 1000 / 10)); [dlia|]. pad_eval.
    by replace ((v / 1000) mod 10) with (v / 1000) by dlia.
  - replace (v / 1000) with 0 by dlia. by pad_eval.
  - replace (v / 1000) with 0 by dlia. replace (v / 100) with 0 by dlia. by pad_eval.
  - replace (v / 1000) with 0 by dlia. replace (v / 100) with 0 by dlia.
    replace (v / 10) with 0 by dlia. by pad_eval.
Qed.

Lemma parse_u2_decimal v rest : 0 <= v < 100 -> parse_u2 (decimal 2 v ++ rest) = Some (v, rest).
Proof.
  intros Hv. rewrite decimal_2 by done. unfold parse_u2. cbn [app parse_digits].
  unfold is_digit. repeat match goal with |- context [?a <=? ?b] => destruct (Z.leb_spec a b); [|dlia] end.
  cbn. do 2 f_equal. dlia.
Qed.

Lemma parse_u4_decimal v rest : 0 <= v < 10000 -> parse_u4 (decimal 4 v ++ rest) = Some (v, rest).
Proof.
  intros Hv. rewrite decimal_4 by done. unfold parse_u4. cbn [app parse_digits].
  unfold is_digit. repeat match goal with |- context [?a <=? ?b] => destruct (Z.leb_spec a b); [|dlia] end.
  cbn. do 2 f_equal. dlia.
Qed.

Lemma parse_weekday i rest :
  0 <= i < 7 -> parse_name 0 (name_of s_weekdays 7 i ++ rest) s_weekdays = Some (i, rest).
Proof.
  intros Hi. assert (H : i = 0 \/ i = 1 \/ i = 2 \/ i = 3 \/ i = 4 \/ i = 5 \/ i = 6) by lia.
  destruct_or! H; subst; reflexivity.
Qed.

Lemma parse_month i rest :
  0 <= i < 12 -> parse_name 0 (name_of s_months 12 i ++ rest) s_months = Some (i, rest).
Proof. intros H%month_cases. destruct_or! H; subst; reflexivity. Qed.

(** The fields [strptime] sets are those of [t]; the others are those of [t0]. *)
Definition parsed (t t0 : tm) : tm :=
  Tm (tm_sec t) (tm_min t) (tm_hour t) (tm_mday t) (tm_mon t) (tm_year t) (tm_wday t)
     (tm_yday t0) (tm_isdst t0).

Definition http_text (t : tm) : cstring :=
  name_of s_weekdays 7 (tm_wday t) ++ 44 :: 32 :: decimal 2 (u32 (tm_mday t)) ++ 32 ::
  name_of s_months 12 (tm_mon t) ++ 32 :: decimal 4 (u32 (tm_year t + 1900)) ++ 32 ::
  decimal 2 (u32 (tm_hour t)) ++ 58 :: decimal 2 (u32 (tm_min t)) ++ 58 ::
  decimal 2 (u32 (tm_sec t)) ++ 32 :: bytes "GMT".

Lemma expand_http t : expand t http_format = Some (http_text t).
Proof. reflexivity. Qed.

Lemma strptime_http t t0 :
  0 <= tm_wday t < 7 -> 0 <= tm_mon t < 12 -> 0 <= tm_mday t < 100 ->
  0 <= tm_year t + 1900 < 10000 -> 0 <= tm_hour t < 100 -> 0 <= tm_min t < 100 -> 0 <= tm_sec t < 100 ->
  strptime (http_text t) http_format t0 = (Some [], parsed t t0).
Proof.
  intros. unfold strptime. change (negb (str_eq http_format http_format)) with false. cbv iota.
  unfold http_text. rewrite !u32_small by lia.
  rewrite parse_weekday by done. cbn [or_fail expect Z.eqb Pos.eqb].
  rewrite parse_u2_decimal by done. cbn [or_fail expect Z.eqb Pos.eqb].
  rewrite parse_month by done. cbn [or_fail expect Z.eqb Pos.eqb].
  rewrite parse_u4_decimal by done. cbn [or_fail expect Z.eqb Pos.eqb].
  rewrite !parse_u2_decimal by done. cbn [or_fail expect Z.eqb Pos.eqb].
  rewrite !parse_u2_decimal by done. cbn [or_fail expect Z.eqb Pos.eqb].
  rewrite !parse_u2_decimal by done. cbn [or_fail expect Z.eqb Pos.eqb].
  change (negb (str_eq_n 3 (bytes "GMT") (bytes "GMT"))) with false. cbv iota.
  unfold parsed, set_sec, set_min, set_hour, set_year, set_mon, set_mday, set_wday. cbn.
  do 2 f_equal. lia.
Qed.

Lemma http_text_length t :
  tm_valid t -> tm_year t + 1900 < 10000 -> zlen (http_text t) = 29.
Proof.
  intros [Hy Hm Hd Hh Hi Hs _ Hw _] Hlt. unfold http_text.
  pose proof (month_len_range (tm_year t + 1900) (tm_mon t) Hm).
  rewrite !u32_small, !decimal_2, decimal_4 by lia.
  assert (H7 : forall i, 0 <= i < 7 -> length (name_of s_weekdays 7 i) = 3%nat).
  { intros i Hi7. assert (Hc : i = 0 \/ i = 1 \/ i = 2 \/ i = 3 \/ i = 4 \/ i = 5 \/ i = 6) by lia.
    destruct_or! Hc; subst; reflexivity. }
  assert (H12 : length (name_of s_months 12 (tm_mon t)) = 3%nat).
  { apply month_cases in Hm. destruct_or! Hm; rewrite Hm; reflexivity. }
  unfold zlen. rewrite length_app, H7 by (rewrite Hw; dlia).
  cbn [length app]. rewrite length_app, H12. reflexivity.
Qed.

(** ** Properties *)

(** C34: Broken-down UTC time and seconds since 1970 convert into each other without
    loss.  For every 32-bit time, [gmtime_r] terminates with a valid calendar date
    (month lengths, leap years, day of week and of year) and [timegm] maps it back; and
    for every valid date whose seconds fit 32 bits, [mktime] returns them, leaves the
    date unchanged and [gmtime_r] of the result is the date. *)
Theorem calendar_roundtrip :
  (forall v, 0 <= v < 2 ^ 32 -> exists t, gmtime_r v = Some t /\ tm_valid t /\ timegm t = v)
  /\ (forall t, tm_valid t -> seconds_of t < 2 ^ 32 ->
        mktime t = Some (seconds_of t, t) /\ gmtime_r (seconds_of t) = Some t).
Proof.
  assert (Hgm : forall t, tm_valid t -> timegm t = u32 (seconds_of t)).
  { intros t Ht. pose proof Ht as [? ? ? _ _ _ _ _ _]. apply timegm_eq; lia. }
  split.
  - intros v Hv. destruct (gmtime_r_valid v) as (t & Ht & Hval & Hs); [lia|].
    exists t. split_and!; [done|done|]. rewrite Hgm, Hs by done. by apply u32_small.
  - intros t Ht Hlt. pose proof (seconds_of_nonneg t Ht) as H0.
    destruct (gmtime_r_valid (seconds_of t) H0) as (t' & Ht' & Hval & Hs).
    apply seconds_of_inj in Hs as ->; [|done|done].
    split; [|done]. unfold mktime. rewrite Hgm by done. rewrite u32_small by lia. rewrite Ht'.
    by destruct t.
Qed.

Lemma calendar_roundtrip_witness :
  exists t, gmtime_r 1709209815 = Some t /\ tm_valid t /\ timegm t = 1709209815.
Proof. apply (proj1 calendar_roundtrip). lia. Defined.

(** C38: [strftime] stores exactly the expansion of its format when it fits the buffer
    and returns its length, otherwise stores the longest prefix that fits with the
    terminator and returns 0; it never writes past [max].  The only inputs on which it
    leaves the format string are formats that end in a lone percent sign. *)
Theorem strftime_correct max format t :
  1 <= max ->
  strftime max format t =
  match expand t format with
  | None => None
  | Some s => if zlen s <? max then Some (zlen s, s) else Some (0, take (Z.to_nat (max - 1)) s)
  end.
Proof. apply strftime_expand. Qed.

Lemma strftime_correct_witness :
  strftime 4 (bytes "%H:%M") (Tm 5 4 23 1 0 126 4 0 0) = Some (0, bytes "23:")
  /\ strftime 8 (bytes "100%") (Tm 5 4 23 1 0 126 4 0 0) = None.
Proof. split; rewrite strftime_correct by lia; reflexivity. Defined.

(** C37: The HTTP date of any valid time up to the year 9999, written by [strftime] into
    a buffer of at least 30 bytes, is 29 bytes long, and [strptime] reads it back
    completely, giving the same date, time and weekday. *)
Theorem http_date_roundtrip max t t0 :
  30 <= max -> tm_valid t -> tm_year t + 1900 < 10000 ->
  exists s, strftime max http_format t = Some (29, s)
    /\ strptime s http_format t0 = (Some [], parsed t t0).
Proof.
  intros Hmax Ht Hy. exists (http_text t). pose proof (http_text_length t Ht Hy) as Hl.
  rewrite strftime_expand, expand_http, Hl by lia. destruct (Z.ltb_spec 29 max); [|lia].
  split; [done|]. destruct Ht as [? Hm Hd ? ? ? _ Hw _].
  pose proof (month_len_range (tm_year t + 1900) (tm_mon t) Hm).
  apply strptime_http; try lia. rewrite Hw. dlia.
Qed.

(** 29 February 2024, 12:30:15, a Thursday. *)
Definition tm_example : tm := Tm 15 30 12 29 1 124 4 59 0.

Lemma http_date_roundtrip_witness :
  exists s, strftime 64 http_format tm_example = Some (29, s)
    /\ strptime s http_format tm_example = (Some [], parsed tm_example tm_example).
Proof.
  apply http_date_roundtrip; [lia| |vm_compute; reflexivity].
  constructor; vm_compute; intuition discriminate.
Defined.
