(* ===== verification/Unicode.v ===== *)
(** * UTF-8 decoding and the console character set

    Models [src/src/drivers/unicode.c]: the byte-at-a-time UTF-8 decoder of the terminal
    and the translation of code points to the code page 437 glyphs of the text screen. *)
From S2P Require Import Prelude.
From Stdlib Require Import ZArith Lia ZifyBool Bool.
From stdpp Require Import base numbers list.
Local Open Scope Z_scope.

Definition UNICODE_REPLACEMENT_CHAR : Z := 0xFFFD.

Record utf8_decoder := Utf8Decoder {
  codepoint : Z;
  min_codepoint : Z;
  remaining : Z
}.

Inductive utf8_decode_result := UTF8_DECODE_WAIT | UTF8_DECODE_ACCEPT | UTF8_DECODE_REJECT
  | UTF8_DECODE_REJECT_RETRY.

Definition utf8_decoder_reset : utf8_decoder := Utf8Decoder 0 0 0.

(** The result, the code point (0 when none is stored) and the new decoder state. *)
Definition utf8_decoder_feed (dec : utf8_decoder) (byte : Z) : utf8_decode_result * Z * utf8_decoder :=
  if 0 <? remaining dec then
    if negb (Z.land byte 0xC0 =? 0x80) then
      (UTF8_DECODE_REJECT_RETRY, UNICODE_REPLACEMENT_CHAR, utf8_decoder_reset)
    else
      let cp := Z.lor (u32 (Z.shiftl (codepoint dec) 6)) (Z.land byte 0x3F) in
      let rem := u8 (remaining dec - 1) in
      if 0 <? rem then (UTF8_DECODE_WAIT, 0, Utf8Decoder cp (min_codepoint dec) rem)
      else
        let cp := if (cp <? min_codepoint dec) || ((0xD800 <=? cp) && (cp <=? 0xDFFF)) || (0x10FFFF <? cp)
                  then UNICODE_REPLACEMENT_CHAR else cp in
        (UTF8_DECODE_ACCEPT, cp, utf8_decoder_reset)
  else if byte <? 0x80 then (UTF8_DECODE_ACCEPT, byte, dec)
  else if (0xC2 <=? byte) && (byte <=? 0xDF) then
    (UTF8_DECODE_WAIT, 0, Utf8Decoder (Z.land byte 0x1F) 0x80 1)
  else if (0xE0 <=? byte) && (byte <=? 0xEF) then
    (UTF8_DECODE_WAIT, 0, Utf8Decoder (Z.land byte 0x0F) 0x800 2)
  else if (0xF0 <=? byte) && (byte <=? 0xF4) then
    (UTF8_DECODE_WAIT, 0, Utf8Decoder (Z.land byte 0x07) 0x10000 3)
  else (UTF8_DECODE_REJECT, UNICODE_REPLACEMENT_CHAR, dec).

(** The [switch] of [unicode_to_cp437]. *)
Definition cp437_table : list (Z * Z) :=
  [(0x00A1, 0xAD); (0x00A2, 0x9B); (0x00A3, 0x9C); (0x00A5, 0x9D); (0x00AA, 0xA6);
   (0x00AB, 0xAE); (0x00AC, 0xAA); (0x00B0, 0xF8); (0x00B1, 0xF1); (0x00B2, 0xFD);
   (0x00B5, 0xE6); (0x00B7, 0xFA); (0x00BA, 0xA7); (0x00BB, 0xAF); (0x00BC, 0xAC);
   (0x00BD, 0xAB); (0x00BF, 0xA8); (0x00C4, 0x8E); (0x00C5, 0x8F); (0x00C6, 0x92);
   (0x00C7, 0x80); (0x00C9, 0x90); (0x00D1, 0xA5); (0x00D6, 0x99); (0x00DC, 0x9A);
   (0x00DF, 0xE1); (0x00E0, 0x85); (0x00E1, 0xA0); (0x00E2, 0x83); (0x00E4, 0x84);
   (0x00E5, 0x86); (0x00E6, 0x91); (0x00E7, 0x87); (0x00E8, 0x8A); (0x00E9, 0x82);
   (0x00EA, 0x88); (0x00EB, 0x89); (0x00EC, 0x8D); (0x00ED, 0xA1); (0x00EE, 0x8C);
   (0x00EF, 0x8B); (0x00F1, 0xA4); (0x00F2, 0x95); (0x00F3, 0xA2); (0x00F4, 0x93);
   (0x00F6, 0x94); (0x00F7, 0xF6); (0x00F9, 0x97); (0x00FA, 0xA3); (0x00FB, 0x96);
   (0x00FC, 0x81); (0x00FF, 0x98); (0x0192, 0x9F); (0x203C, 0x13); (0x20A7, 0x9E);
   (0x25AC, 0x16); (0x25B2, 0x1E); (0x25BA, 0x10); (0x25BC, 0x1F); (0x25C4, 0x11);
   (0x263A, 0x01); (0x263B, 0x02); (0x263C, 0x0F); (0x2640, 0x0C); (0x2642, 0x0B);
   (0x2660, 0x06); (0x2663, 0x05); (0x2665, 0x03); (0x2666, 0x04); (0x266A, 0x0D);
   (0x266B, 0x0E); (0x0393, 0xE2); (0x0398, 0xE9); (0x03A3, 0xE4); (0x03A6, 0xE8);
   (0x03A9, 0xEA); (0x03B1, 0xE0); (0x03B4, 0xEB); (0x03B5, 0xEE); (0x03C0, 0xE3);
   (0x03C3, 0xE5); (0x03C4, 0xE7); (0x03C6, 0xED); (0x2022, 0x07); (0x2190, 0x1B);
   (0x2191, 0x18); (0x2192, 0x1A); (0x2193, 0x19); (0x2194, 0x1D); (0x2195, 0x12);
   (0x21A8, 0x17); (0x221A, 0xFB); (0x221E, 0xEC); (0x2229, 0xEF); (0x2248, 0xF7);
   (0x2261, 0xF0); (0x2264, 0xF3); (0x2265, 0xF2); (0x2302, 0x7F); (0x2310, 0xA9);
   (0x2320, 0xF4); (0x2321, 0xF5); (0x2500, 0xC4); (0x2502, 0xB3); (0x250C, 0xDA);
   (0x2510, 0xBF); (0x2514, 0xC0); (0x2518, 0xD9); (0x251C, 0xC3); (0x2524, 0xB4);
   (0x252C, 0xC2); (0x2534, 0xC1); (0x253C, 0xC5); (0x2550, 0xCD); (0x2551, 0xBA);
   (0x2554, 0xC9); (0x2557, 0xBB); (0x255A, 0xC8); (0x255D, 0xBC); (0x2560, 0xCC);
   (0x2563, 0xB9); (0x2566, 0xCB); (0x2569, 0xCA); (0x256C, 0xCE); (0x2580, 0xDF);
   (0x2584, 0xDC); (0x2588, 0xDB); (0x258C, 0xDD); (0x2590, 0xDE); (0x2591, 0xB0);
   (0x2592, 0xB1); (0x2593, 0xB2); (0x25A0, 0xFE)].

Definition unicode_to_cp437 (cp : Z) : Z :=
  if cp <? 0x80 then u8 cp else
  match find (fun e => e.1 =? cp) cp437_table with
  | Some e => e.2
  | None => 63
  end.

(** ** Specification *)

(** Unicode scalar values, and their UTF-8 encoding. *)
Definition scalar (cp : Z) : Prop := 0 <= cp < 0xD800 \/ 0xDFFF < cp <= 0x10FFFF.

Definition utf8_encode (cp : Z) : list Z :=
  if cp <? 0x80 then [cp]
  else if cp <? 0x800 then [0xC0 + cp / 64; 0x80 + cp mod 64]
  else if cp <? 0x10000 then [0xE0 + cp / 4096; 0x80 + cp / 64 mod 64; 0x80 + cp mod 64]
  else [0xF0 + cp / 262144; 0x80 + cp / 4096 mod 64; 0x80 + cp / 64 mod 64; 0x80 + cp mod 64].

(** What a decoder can look like between two bytes: idle, or [k] bytes away from the
    end of a sequence with a partial code point that cannot overflow. *)
Record decoder_ok (dec : utf8_decoder) : Prop := DecoderOk {
  do_rem : 0 <= remaining dec <= 3;
  do_cp : 0 <= codepoint dec < 2 ^ (21 - 6 * remaining dec);
  do_idle : remaining dec = 0 -> dec = utf8_decoder_reset
}.

(** ** Lemmas *)

Lemma continuation_test b : 0 <= b < 256 -> (Z.land b 0xC0 =? 0x80) = (128 <=? b) && (b <? 192).
Proof.
  intros Hb. pose proof (forall_bits_spec (fun b => eqb (Z.land b 0xC0 =? 0x80) ((128 <=? b) && (b <? 192))) 8 0
    ltac:(vm_compute; reflexivity) b ltac:(lia)) as H. by apply eqb_prop in H.
Qed.

Lemma land_mod b k : 0 <= k -> Z.land b (2 ^ k - 1) = b mod 2 ^ k.
Proof. intros Hk. rewrite <- Z.land_ones by lia. f_equal. rewrite Z.ones_equiv. lia. Qed.

Lemma append_six c b : 0 <= c < 2 ^ 26 -> Z.lor (u32 (Z.shiftl c 6)) (Z.land b 0x3F) = c * 64 + b mod 64.
Proof.
  intros Hc. rewrite Z.shiftl_mul_pow2 by lia. rewrite u32_small by lia.
  change 0x3F with (2 ^ 6 - 1). rewrite land_mod by lia. change (2 ^ 6) with 64.
  rewrite <- Z.lxor_lor, <- Z.add_nocarry_lxor; [done| |];
    (apply Z.bits_inj'; intros n Hn; rewrite Z.land_spec, Z.bits_0;
     change 64 with (2 ^ 6); destruct (Z.lt_ge_cases n 6);
     [rewrite Z.mul_pow2_bits_low by lia; done
     |rewrite Z.mod_pow2_bits_high by lia; apply andb_false_r]).
Qed.

Lemma feed_continuation dec b :
  decoder_ok dec -> 0 < remaining dec -> 128 <= b < 192 ->
  utf8_decoder_feed dec b =
  let cp := codepoint dec * 64 + (b - 128) in
  if remaining dec =? 1 then
    (UTF8_DECODE_ACCEPT,
     if (cp <? min_codepoint dec) || ((0xD800 <=? cp) && (cp <=? 0xDFFF)) || (0x10FFFF <? cp)
     then UNICODE_REPLACEMENT_CHAR else cp, utf8_decoder_reset)
  else (UTF8_DECODE_WAIT, 0, Utf8Decoder cp (min_codepoint dec) (remaining dec - 1)).
Proof.
  intros [Hr Hc _] H0 Hb. unfold utf8_decoder_feed. destruct (Z.ltb_spec 0 (remaining dec)); [|lia].
  rewrite continuation_test by lia. destruct (Z.leb_spec 128 b); [|lia]. destruct (Z.ltb_spec b 192); [|lia].
  cbn [andb negb]. cbv zeta.
  assert (2 ^ (21 - 6 * remaining dec) <= 2 ^ 15) by (apply Z.pow_le_mono_r; lia).
  rewrite append_six by lia. replace (b mod 64) with (b - 128) by dlia.
  rewrite u8_small by lia.
  destruct (Z.eqb_spec (remaining dec) 1) as [->|]; [done|].
  by destruct (Z.ltb_spec 0 (remaining dec - 1)); [|lia].
Qed.

Lemma feed_interrupted dec b :
  0 < remaining dec -> 0 <= b < 128 \/ 192 <= b < 256 ->
  utf8_decoder_feed dec b = (UTF8_DECODE_REJECT_RETRY, UNICODE_REPLACEMENT_CHAR, utf8_decoder_reset).
Proof.
  intros H0 Hb. unfold utf8_decoder_feed. destruct (Z.ltb_spec 0 (remaining dec)); [|lia].
  rewrite continuation_test by lia. destruct (Z.leb_spec 128 b), (Z.ltb_spec b 192); (done || lia).
Qed.

(** The first byte of a sequence. *)
Lemma feed_lead b :
  0 <= b < 256 ->
  utf8_decoder_feed utf8_decoder_reset b =
  if b <? 0x80 then (UTF8_DECODE_ACCEPT, b, utf8_decoder_reset)
  else if (0xC2 <=? b) && (b <=? 0xDF) then (UTF8_DECODE_WAIT, 0, Utf8Decoder (b - 0xC0) 0x80 1)
  else if (0xE0 <=? b) && (b <=? 0xEF) then (UTF8_DECODE_WAIT, 0, Utf8Decoder (b - 0xE0) 0x800 2)
  else if (0xF0 <=? b) && (b <=? 0xF4) then (UTF8_DECODE_WAIT, 0, Utf8Decoder (b - 0xF0) 0x10000 3)
  else (UTF8_DECODE_REJECT, UNICODE_REPLACEMENT_CHAR, utf8_decoder_reset).
Proof.
  intros Hb. unfold utf8_decoder_feed. cbn [remaining utf8_decoder_reset Z.ltb Z.compare].
  change 0x1F with (2 ^ 5 - 1). change 0x0F with (2 ^ 4 - 1). change 0x07 with (2 ^ 3 - 1).
  rewrite !land_mod by lia. zcase; cbn [andb]; try done; try lia; repeat f_equal; dlia.
Qed.

Lemma feed_ok dec b :
  decoder_ok dec -> 0 <= b < 256 ->
  let '(r, cp, dec') := utf8_decoder_feed dec b in
  decoder_ok dec' /\ scalar UNICODE_REPLACEMENT_CHAR
  /\ (r <> UTF8_DECODE_WAIT -> scalar cp)
  /\ (r = UTF8_DECODE_REJECT_RETRY -> dec' = utf8_decoder_reset).
Proof.
  intros Hok Hb. assert (Hres : decoder_ok utf8_decoder_reset) by (constructor; cbn; lia || done).
  assert (Hrep : scalar UNICODE_REPLACEMENT_CHAR) by (unfold scalar, UNICODE_REPLACEMENT_CHAR; lia).
  destruct (Z.lt_ge_cases 0 (remaining dec)).
  - destruct (decide (128 <= b < 192)).
    + rewrite feed_continuation by done. cbv zeta. pose proof Hok as [Hr Hc _].
      destruct (Z.eqb_spec (remaining dec) 1) as [E|E]; split_and!; try done.
      * intros _. destruct (_ || _) eqn:Hbad; [done|]. rewrite E in Hc. change (2 ^ (21 - 6 * 1)) with 32768 in Hc.
        unfold scalar. lia.
      * constructor; cbn; [lia| |lia].
        replace (21 - 6 * (remaining dec - 1)) with (21 - 6 * remaining dec + 6) by lia.
        rewrite Z.pow_add_r by lia. change (2 ^ 6) with 64. lia.
    + rewrite feed_interrupted by lia. done.
  - destruct Hok as [Hr _ Hi]. rewrite Hi by lia. rewrite feed_lead by done.
    zcase; cbn [andb]; split_and!; try done; try (intros _; unfold scalar; lia);
      constructor; cbn; lia || done.
Qed.
