(* ===== verification/Terminal.v ===== *)
(** * Terminal

    Models [src/src/drivers/terminal.c]: the layer between the bytes programs write and a
    display.  It interprets escape sequences, decodes UTF-8, expands tabs and drives a
    back end through the table of functions [terminal_backend_t], here the class
    [Backend].  [BackendLaws] is what the terminal relies on; [Screen.v] proves it of the
    VGA text screen.  The optional copy of the output to the serial port is not part of
    the model.  Back ends are monadic: a back end that would store outside of its memory
    halts. *)
From S2P Require Import Prelude Klib Unicode.
From Stdlib Require Import ZArith Lia ZifyBool Bool String.
From stdpp Require Import base numbers list.
Local Open Scope Z_scope.
Local Open Scope kernel_scope.

(** [terminal_backend_t]. *)
Class Backend (B : Type) := {
  be_clear : M B unit;
  be_putc : Z -> M B unit;
  be_begin_update : M B unit;
  be_end_update : M B unit;
  be_rows : B -> Z;
  be_cols : B -> Z;
  be_row : B -> Z;
  be_col : B -> Z;
  be_set_cursor : Z -> Z -> M B unit;
  be_write_at : Z -> Z -> Z -> M B unit
}.

(** The file's static variables.  [hook_bytes] is what the output hook was called with,
    [line_prefix_hook] the string the prefix hook returns. *)
Record terminal (B : Type) := Terminal {
  backend : B;
  esc_state : Z;
  csi_args : list Z;
  csi_arg_count : Z;
  csi_value : Z;
  csi_has_value : bool;
  csi_private : bool;
  decoder : utf8_decoder;
  output_hook : bool;
  hook_bytes : list Z;
  line_prefix_hook : option cstring;
  line_prefix_line_start : bool;
  display_enabled : bool
}.
Arguments Terminal {B}.
Arguments backend {B}. Arguments esc_state {B}. Arguments csi_args {B}. Arguments csi_arg_count {B}.
Arguments csi_value {B}. Arguments csi_has_value {B}. Arguments csi_private {B}. Arguments decoder {B}.
Arguments output_hook {B}. Arguments hook_bytes {B}. Arguments line_prefix_hook {B}.
Arguments line_prefix_line_start {B}. Arguments display_enabled {B}.

Section Terminal.
Context {B : Type} `{Backend B}.

Definition set_backend (b : B) (t : terminal B) : terminal B :=
  Terminal b (esc_state t) (csi_args t) (csi_arg_count t) (csi_value t) (csi_has_value t)
    (csi_private t) (decoder t) (output_hook t) (hook_bytes t) (line_prefix_hook t)
    (line_prefix_line_start t) (display_enabled t).
Definition set_esc_state (v : Z) (t : terminal B) : terminal B :=
  Terminal (backend t) v (csi_args t) (csi_arg_count t) (csi_value t) (csi_has_value t)
    (csi_private t) (decoder t) (output_hook t) (hook_bytes t) (line_prefix_hook t)
    (line_prefix_line_start t) (display_enabled t).
Definition set_csi (args : list Z) (count value : Z) (has private : bool) (t : terminal B) : terminal B :=
  Terminal (backend t) (esc_state t) args count value has private (decoder t) (output_hook t)
    (hook_bytes t) (line_prefix_hook t) (line_prefix_line_start t) (display_enabled t).
Definition set_decoder (d : utf8_decoder) (t : terminal B) : terminal B :=
  Terminal (backend t) (esc_state t) (csi_args t) (csi_arg_count t) (csi_value t) (csi_has_value t)
    (csi_private t) d (output_hook t) (hook_bytes t) (line_prefix_hook t)
    (line_prefix_line_start t) (display_enabled t).
Definition set_line_start (v : bool) (t : terminal B) : terminal B :=
  Terminal (backend t) (esc_state t) (csi_args t) (csi_arg_count t) (csi_value t) (csi_has_value t)
    (csi_private t) (decoder t) (output_hook t) (hook_bytes t) (line_prefix_hook t) v (display_enabled t).
Definition call_hook (c : Z) (t : terminal B) : terminal B :=
  Terminal (backend t) (esc_state t) (csi_args t) (csi_arg_count t) (csi_value t) (csi_has_value t)
    (csi_private t) (decoder t) (output_hook t)
    (if output_hook t then hook_bytes t ++ [c] else hook_bytes t) (line_prefix_hook t)
    (line_prefix_line_start t) (display_enabled t).

(** A call through the function table; nothing happens while the display is disabled. *)
Definition on_backend {A} (m : M B A) : M (terminal B) A := fun t =>
  match m (backend t) with
  | Some (a, b) => Some (a, set_backend b t)
  | None => None
  end.
Definition if_display (m : M (terminal B) unit) : M (terminal B) unit :=
  d <- gets display_enabled ;; if d then m else ret tt.

Definition clamp_int (value min max : Z) : Z :=
  if value <? min then min else if max <? value then max else value.

Definition backend_rows : M (terminal B) Z := gets (fun t => be_rows (backend t)).
Definition backend_cols : M (terminal B) Z := gets (fun t => be_cols (backend t)).
Definition backend_row : M (terminal B) Z := gets (fun t => be_row (backend t)).
Definition backend_col : M (terminal B) Z := gets (fun t => be_col (backend t)).

Definition backend_set_cursor (row col : Z) : M (terminal B) unit :=
  if_display (on_backend (be_set_cursor row col)).

Definition terminal_write_at (row col c : Z) : M (terminal B) unit :=
  if_display (on_backend (be_write_at row col c)).

Definition clear_line_from_cursor : M (terminal B) unit :=
  row <- backend_row ;;
  col <- backend_col ;;
  cols <- backend_cols ;;
  for_each (up_to col cols 1) (fun x => terminal_write_at row x 32) ;;;
  backend_set_cursor row col.

Definition csi_push_arg : M (terminal B) unit :=
  modify (fun t =>
    if 4 <=? csi_arg_count t then t
    else set_csi (zset (csi_args t) (csi_arg_count t) (if csi_has_value t then csi_value t else 0))
           (csi_arg_count t + 1) 0 false (csi_private t) t).

Definition csi_arg_or (index fallback : Z) : M (terminal B) Z :=
  gets (fun t =>
    if (csi_arg_count t <=? index) || (zget 0 (csi_args t) index =? 0) then fallback
    else zget 0 (csi_args t) index).

Definition terminal_clear : M (terminal B) unit :=
  if_display (on_backend be_clear) ;;;
  modify (set_line_start true).

(** The end of [csi_dispatch]: move the cursor, clamped to the screen. *)
Definition move_clamped (row col rows cols : Z) : M (terminal B) unit :=
  backend_set_cursor (clamp_int row 0 (rows - 1)) (clamp_int col 0 (cols - 1)).

(** [int] arithmetic on the parameters wraps; the compiler may assume it does not. *)
Definition csi_dispatch (cmd : Z) : M (terminal B) unit :=
  row <- backend_row ;;
  col <- backend_col ;;
  rows <- backend_rows ;;
  cols <- backend_cols ;;
  csi_push_arg ;;;
  a0 <- csi_arg_or 0 1 ;;
  a1 <- csi_arg_or 1 1 ;;
  j0 <- csi_arg_or 0 0 ;;
  if cmd =? 65 then move_clamped (i32 (row - a0)) col rows cols
  else if cmd =? 66 then move_clamped (i32 (row + a0)) col rows cols
  else if cmd =? 67 then move_clamped row (i32 (col + a0)) rows cols
  else if cmd =? 68 then move_clamped row (i32 (col - a0)) rows cols
  else if (cmd =? 72) || (cmd =? 102) then move_clamped (i32 (a0 - 1)) (i32 (a1 - 1)) rows cols
  else if cmd =? 74 then
    if j0 =? 2 then terminal_clear else move_clamped row col rows cols
  else if cmd =? 75 then clear_line_from_cursor
  else ret tt.

Definition terminal_handle_escape (c : Z) : M (terminal B) bool :=
  e <- gets esc_state ;;
  if e =? 0 then
    if c =? 27 then modify (set_esc_state 1) ;;; ret true else ret false
  else if e =? 1 then
    if c =? 91 then
      modify (fun t => set_csi [0; 0; 0; 0] 0 0 false false (set_esc_state 2 t)) ;;; ret true
    else modify (set_esc_state 0) ;;; ret true
  else if e =? 2 then
    if c =? 63 then
      modify (fun t => set_csi (csi_args t) (csi_arg_count t) (csi_value t) (csi_has_value t) true t) ;;;
      ret true
    else if (48 <=? c) && (c <=? 57) then
      modify (fun t => set_csi (csi_args t) (csi_arg_count t) (i32 (i32 (csi_value t * 10) + (c - 48))) true
                         (csi_private t) t) ;;;
      ret true
    else if c =? 59 then csi_push_arg ;;; ret true
    else csi_dispatch c ;;; modify (set_esc_state 0) ;;; ret true
  else modify (set_esc_state 0) ;;; ret false.

Definition terminal_emit_codepoint (cp : Z) : M (terminal B) unit :=
  if_display (on_backend (be_putc (unicode_to_cp437 cp))).

(** The [for (;;)] loop; two rounds are enough, because a retry starts from a reset
    decoder and a reset decoder never asks for a retry. *)
Fixpoint emit_loop (fuel : nat) (b : Z) : M (terminal B) unit :=
  match fuel with
  | O => halt
  | S fuel =>
    dec <- gets decoder ;;
    let '(result, cp, dec') := utf8_decoder_feed dec b in
    modify (set_decoder dec') ;;;
    match result with
    | UTF8_DECODE_WAIT => ret tt
    | UTF8_DECODE_REJECT_RETRY => terminal_emit_codepoint cp ;;; emit_loop fuel b
    | _ => terminal_emit_codepoint cp
    end
  end.

Definition terminal_emit_utf8_byte (b : Z) : M (terminal B) unit := emit_loop 2 b.

Definition terminal_emit_raw_char (c : Z) : M (terminal B) unit := terminal_emit_utf8_byte c.

Definition terminal_emit_display_char (c : Z) : M (terminal B) unit :=
  if c =? 9 then
    col <- backend_col ;;
    let spaces := 8 - Z.land col 7 in
    modify (set_decoder utf8_decoder_reset) ;;;
    let spaces := if spaces <=? 0 then 8 else spaces in
    for_each (up_to 0 spaces 1) (fun _ => terminal_emit_utf8_byte 32)
  else terminal_emit_utf8_byte c.

Definition terminal_emit_raw_string (s : cstring) : M (terminal B) unit :=
  for_each s terminal_emit_raw_char.

Definition terminal_emit_line_prefix_if_needed (c : Z) : M (terminal B) unit :=
  hook <- gets line_prefix_hook ;;
  start <- gets line_prefix_line_start ;;
  match hook with
  | None => ret tt
  | Some prefix =>
    if negb start then ret tt
    else if (c =? 10) || (c =? 13) then ret tt
    else terminal_emit_raw_string prefix
  end.

Definition terminal_note_visible_char (c : Z) : M (terminal B) unit :=
  if c =? 10 then modify (set_line_start true)
  else if negb (c =? 13) then modify (set_line_start false) else ret tt.

Definition terminal_set_backend (b : B) : M (terminal B) unit :=
  modify (fun t => set_decoder utf8_decoder_reset (set_esc_state 0 (set_backend b t))).

Definition terminal_set_display_enabled (enabled : bool) : M (terminal B) unit :=
  modify (fun t =>
    Terminal (backend t) 0 (csi_args t) (csi_arg_count t) (csi_value t) (csi_has_value t)
      (csi_private t) utf8_decoder_reset (output_hook t) (hook_bytes t) (line_prefix_hook t)
      (line_prefix_line_start t) enabled).

Definition terminal_set_output_hook (hook : bool) : M (terminal B) unit :=
  modify (fun t =>
    Terminal (backend t) (esc_state t) (csi_args t) (csi_arg_count t) (csi_value t) (csi_has_value t)
      (csi_private t) (decoder t) hook (hook_bytes t) (line_prefix_hook t)
      (line_prefix_line_start t) (display_enabled t)).

Definition terminal_set_line_prefix_hook (hook : option cstring) : M (terminal B) unit :=
  modify (fun t =>
    Terminal (backend t) (esc_state t) (csi_args t) (csi_arg_count t) (csi_value t) (csi_has_value t)
      (csi_private t) (decoder t) (output_hook t) (hook_bytes t) hook true (display_enabled t)).

(** One byte: the body shared by [terminal_putc] and the loop of [terminal_write]. *)
Definition terminal_putc (c : Z) : M (terminal B) unit :=
  terminal_emit_line_prefix_if_needed c ;;;
  esc <- terminal_handle_escape c ;;
  (if (esc : bool) then modify (set_decoder utf8_decoder_reset) else terminal_emit_display_char c) ;;;
  modify (call_hook c) ;;;
  terminal_note_visible_char c.

Definition terminal_write (s : list Z) : M (terminal B) unit :=
  if bool_decide (s = []) then ret tt else
  if_display (on_backend be_begin_update) ;;;
  for_each s terminal_putc ;;;
  if_display (on_backend be_end_update).

Definition terminal_puts (s : cstring) : M (terminal B) unit := for_each s terminal_putc.

(** The digits [terminal_put_uint] leaves in its buffer, [pos] places being free. *)
Fixpoint uint_digits (pos : nat) (value : Z) (buf : cstring) : cstring :=
  match pos with
  | O => buf
  | S pos => if 0 <? value then uint_digits pos (value / 10) ((48 + value mod 10) :: buf) else buf
  end.

Definition terminal_put_uint (value : Z) : M (terminal B) unit :=
  if value =? 0 then terminal_putc 48 else terminal_puts (uint_digits 11 value []).

Definition hex_digit (v : Z) : Z := if v <? 10 then 48 + v else 55 + v.

Fixpoint hex_digits (pos : nat) (value : Z) (buf : cstring) : cstring :=
  match pos with
  | O => buf
  | S pos => if 0 <? value then hex_digits pos (Z.shiftr value 4) (hex_digit (Z.land value 0xF) :: buf) else buf
  end.

Definition terminal_put_hex (value : Z) : M (terminal B) unit :=
  if value =? 0 then terminal_puts (bytes "0x0")
  else terminal_puts (48 :: 120 :: hex_digits 8 value []).

End Terminal.

(** ** What the terminal relies on, and its invariant *)

Class BackendLaws (B : Type) `{Backend B} := {
  be_ok : B -> Prop;
  be_ok_size b : be_ok b -> 0 < be_rows b /\ 0 < be_cols b;
  be_ok_cursor b : be_ok b -> 0 <= be_row b < be_rows b /\ 0 <= be_col b < be_cols b;
  be_clear_ok : keeps be_ok be_clear;
  be_putc_ok c : is_byte c -> keeps be_ok (be_putc c);
  be_begin_update_ok : keeps be_ok be_begin_update;
  be_end_update_ok : keeps be_ok be_end_update;
  be_set_cursor_ok r c b :
    be_ok b -> 0 <= r < be_rows b -> 0 <= c < be_cols b ->
    runs (be_set_cursor r c) b (fun _ b' => be_ok b' /\ be_row b' = r /\ be_col b' = c);
  be_write_at_ok r c ch b :
    be_ok b -> 0 <= r < be_rows b -> 0 <= c < be_cols b -> is_byte ch ->
    runs (be_write_at r c ch) b (fun _ b' => be_ok b'
      /\ be_rows b' = be_rows b /\ be_cols b' = be_cols b)
}.

Section TerminalLaws.
Context {B : Type} `{BackendLaws B}.

Record term_ok (t : terminal B) : Prop := TermOk {
  to_backend : be_ok (backend t);
  to_decoder : decoder_ok (decoder t);
  to_esc : esc_state t = 0 \/ esc_state t = 1 \/ esc_state t = 2;
  to_args : length (csi_args t) = 4%nat;
  to_count : 0 <= csi_arg_count t <= 4;
  to_prefix : forall p, line_prefix_hook t = Some p -> Forall is_byte p
}.

Lemma term_ok_backend t b : term_ok t -> be_ok b -> term_ok (set_backend b t).
Proof. by intros [] Hb. Qed.

Lemma term_ok_decoder t d : term_ok t -> decoder_ok d -> term_ok (set_decoder d t).
Proof. by intros []. Qed.

Lemma reset_ok : decoder_ok utf8_decoder_reset.
Proof. constructor; cbn; lia || done. Qed.

Lemma runs_on_backend {A} (m : M B A) t (Q : A -> terminal B -> Prop) :
  runs m (backend t) (fun a b => Q a (set_backend b t)) -> runs (on_backend m) t Q.
Proof. unfold runs, on_backend. by destruct (m (backend t)) as [[a b]|]. Qed.

Lemma keeps_on_backend {A} (m : M B A) : keeps be_ok m -> keeps term_ok (on_backend m).
Proof.
  intros Hm t Ht. apply runs_on_backend. eapply keeps_runs; [done|apply Ht|].
  intros a b Hb. by apply term_ok_backend.
Qed.

Lemma keeps_if_display m : keeps term_ok m -> keeps term_ok (if_display m).
Proof. intros Hm. apply keeps_bind; [apply keeps_gets|]. intros [|]; [done|apply keeps_ret]. Qed.

Lemma set_cursor_keeps r c t :
  term_ok t -> 0 <= r < be_rows (backend t) -> 0 <= c < be_cols (backend t) ->
  runs (backend_set_cursor r c) t (fun _ t' => term_ok t').
Proof.
  intros Ht Hr Hc. apply runs_bind, runs_gets. destruct (display_enabled t); [|by apply runs_ret].
  apply runs_on_backend. eapply runs_mono; [apply be_set_cursor_ok; [apply Ht|done|done]|].
  intros _ b [Hb _]. by apply term_ok_backend.
Qed.

Lemma move_clamped_keeps r c t :
  term_ok t -> runs (move_clamped r c (be_rows (backend t)) (be_cols (backend t))) t (fun _ t' => term_ok t').
Proof.
  intros Ht. destruct (be_ok_size _ (to_backend t Ht)).
  apply set_cursor_keeps; [done| |]; unfold clamp_int; zcase; lia.
Qed.

Lemma clear_line_keeps : keeps term_ok clear_line_from_cursor.
Proof.
  intros t Ht. do 3 apply runs_bind, runs_gets. apply runs_bind.
  destruct (be_ok_cursor _ (to_backend t Ht)) as [Hr Hc].
  set (rows := be_rows (backend t)) in *. set (cols := be_cols (backend t)) in *.
  apply (runs_for_each (fun _ u => term_ok u /\ be_rows (backend u) = rows /\ be_cols (backend u) = cols));
    [lia|done| |].
  - intros i u Hi (Hu & Er & Ec). apply runs_bind, runs_gets.
    destruct (display_enabled u); [|by apply runs_ret]. apply runs_on_backend.
    eapply runs_mono; [apply be_write_at_ok; [apply Hu|lia|lia|unfold is_byte; lia]|].
    intros _ b (Hb & Hbr & Hbc). split; [by apply term_ok_backend|]. cbn. lia.
  - intros u (Hu & Er & Ec). apply set_cursor_keeps; [done|lia|lia].
Qed.

Lemma csi_push_arg_keeps : keeps term_ok csi_push_arg.
Proof.
  apply keeps_modify. intros t Ht. destruct (Z.leb_spec 4 (csi_arg_count t)); [done|].
  destruct Ht. constructor; cbn; try done; [|lia]. unfold zset. by rewrite length_insert.
Qed.

Lemma clear_keeps : keeps term_ok terminal_clear.
Proof.
  apply keeps_bind; [apply keeps_if_display, keeps_on_backend, be_clear_ok|]. intros _.
  apply keeps_modify. by intros t [].
Qed.

Lemma csi_dispatch_keeps c : keeps term_ok (csi_dispatch c).
Proof.
  intros t Ht. do 4 apply runs_bind, runs_gets. apply runs_bind, runs_modify.
  pose proof (csi_push_arg_keeps t Ht) as Hp. unfold csi_push_arg, runs, modify in Hp. cbv beta iota in Hp.
  set (u := if 4 <=? csi_arg_count t then t else _) in *.
  assert (Hb : backend u = backend t) by (unfold u; by destruct (4 <=? csi_arg_count t)).
  rewrite <- Hb. do 3 apply runs_bind, runs_gets.
  repeat match goal with
  | |- runs (if _ then clear_line_from_cursor else _) _ _ => idtac
  | |- runs (if ?b then _ else _) _ _ => destruct b
  end; try (by apply move_clamped_keeps); [by apply clear_keeps|].
  destruct (c =? 75); [by apply clear_line_keeps|by apply runs_ret].
Qed.

Lemma handle_escape_keeps c : keeps term_ok (terminal_handle_escape c).
Proof.
  unfold terminal_handle_escape. apply keeps_bind; [apply keeps_gets|]. intros e.
  repeat match goal with |- keeps _ (if ?b then _ else _) => destruct b end;
    try apply keeps_ret; apply keeps_bind; try (intros _; apply keeps_ret);
    first [apply csi_push_arg_keeps | apply csi_dispatch_keeps
          | apply keeps_modify; intros t []; constructor; cbn; solve [done | lia | auto] | idtac].
  intros _. apply keeps_bind; [|intros _; apply keeps_ret]. apply keeps_modify.
  intros t []; constructor; cbn; auto.
Qed.

Lemma cp437_byte cp : 0 <= cp -> is_byte (unicode_to_cp437 cp).
Proof.
  intros Hcp. unfold unicode_to_cp437, is_byte. destruct (Z.ltb_spec cp 128).
  { rewrite u8_small; lia. }
  destruct (find _ cp437_table) as [e|] eqn:Hf; [|lia]. apply find_some in Hf as [Hin _].
  assert (Hall : forallb (fun e => (0 <=? e.2) && (e.2 <? 256)) cp437_table = true) by reflexivity.
  rewrite forallb_forall in Hall. specialize (Hall e Hin). lia.
Qed.

Lemma scalar_nonneg cp : scalar cp -> 0 <= cp.
Proof. unfold scalar. lia. Qed.

Lemma emit_codepoint_keeps cp : 0 <= cp -> keeps term_ok (terminal_emit_codepoint cp).
Proof. intros Hcp. apply keeps_if_display, keeps_on_backend, be_putc_ok. by apply cp437_byte. Qed.

Lemma emit_loop_S n b :
  emit_loop (B := B) (S n) b =
  (dec <- gets decoder ;;
   let '(result, cp, dec') := utf8_decoder_feed dec b in
   modify (set_decoder dec') ;;;
   match result with
   | UTF8_DECODE_WAIT => ret tt
   | UTF8_DECODE_REJECT_RETRY => terminal_emit_codepoint cp ;;; emit_loop n b
   | _ => terminal_emit_codepoint cp
   end).
Proof. reflexivity. Qed.

Lemma emit_utf8_byte_keeps b : is_byte b -> keeps term_ok (terminal_emit_utf8_byte b).
Proof.
  intros Hb t Ht. unfold terminal_emit_utf8_byte.
  assert (Hidle : forall u, term_ok u -> decoder u = utf8_decoder_reset ->
    runs (emit_loop 1 b) u (fun _ t' => term_ok t')).
  { intros u Hu Hd. rewrite emit_loop_S. apply runs_bind, runs_gets. rewrite Hd, feed_lead by done.
    repeat match goal with |- context [if ?c then _ else _] => destruct c eqn:? end;
      apply runs_bind, runs_modify;
      match goal with
      | |- runs (ret _) _ _ => apply runs_ret
      | _ => apply emit_codepoint_keeps; [unfold is_byte, UNICODE_REPLACEMENT_CHAR in *; lia|]
      end; apply term_ok_decoder; try done; constructor; cbn; lia || done. }
  rewrite emit_loop_S.
  apply runs_bind, runs_gets. pose proof (feed_ok (decoder t) b (to_decoder t Ht) Hb) as Hf.
  destruct (utf8_decoder_feed (decoder t) b) as [[r cp] dec']. destruct Hf as (Hd & _ & Hcp & Hr).
  apply runs_bind, runs_modify. pose proof (term_ok_decoder t dec' Ht Hd) as Hu.
  destruct r; [by apply runs_ret|..];
    try (apply emit_codepoint_keeps; [by apply scalar_nonneg, Hcp|done]).
  apply runs_bind. eapply (runs_mono _ _ (fun _ u => term_ok u /\ decoder u = utf8_decoder_reset)).
  2:{ intros _ u [H1 H2]. by apply Hidle. }
  apply runs_bind, runs_gets. specialize (Hr eq_refl). subst dec'.
  destruct (display_enabled _); [|by apply runs_ret]. apply runs_on_backend.
  eapply keeps_runs; [apply be_putc_ok, cp437_byte, scalar_nonneg, Hcp; done|apply Hu|].
  intros _ b' Hb'. split; [by apply term_ok_backend|done].
Qed.

Lemma display_char_keeps c : is_byte c -> keeps term_ok (terminal_emit_display_char c).
Proof.
  intros Hc. unfold terminal_emit_display_char. destruct (c =? 9); [|by apply emit_utf8_byte_keeps].
  apply keeps_bind; [apply keeps_gets|]. intros col. cbv zeta.
  apply keeps_bind; [apply keeps_modify; intros t Ht; apply term_ok_decoder; [done|apply reset_ok]|].
  intros _. apply keeps_for_each. intros i _. apply emit_utf8_byte_keeps. unfold is_byte. lia.
Qed.

Lemma line_prefix_keeps c : keeps term_ok (terminal_emit_line_prefix_if_needed c).
Proof.
  intros t Ht. do 2 apply runs_bind, runs_gets.
  destruct (line_prefix_hook t) as [p|] eqn:Hp; [|by apply runs_ret].
  destruct (negb _); [by apply runs_ret|]. destruct (_ || _); [by apply runs_ret|].
  eapply keeps_runs; [|exact Ht|auto]. apply keeps_for_each. intros i Hi. apply emit_utf8_byte_keeps.
  pose proof (to_prefix t Ht p Hp) as Hall. rewrite Forall_forall in Hall. by apply Hall.
Qed.

Lemma putc_keeps c : is_byte c -> keeps term_ok (terminal_putc c).
Proof.
  intros Hc. unfold terminal_putc. apply keeps_bind; [apply line_prefix_keeps|]. intros _.
  apply keeps_bind; [apply handle_escape_keeps|]. intros esc. apply keeps_bind.
  { destruct esc; [|by apply display_char_keeps]. apply keeps_modify. intros t Ht.
    apply term_ok_decoder; [done|apply reset_ok]. }
  intros _. apply keeps_bind; [apply keeps_modify; by intros t []|]. intros _.
  unfold terminal_note_visible_char.
  repeat match goal with |- keeps _ (if ?b then _ else _) => destruct b end;
    try apply keeps_ret; apply keeps_modify; by intros t [].
Qed.

Lemma write_keeps s : Forall is_byte s -> keeps term_ok (terminal_write s).
Proof.
  intros Hs. unfold terminal_write. destruct (bool_decide _); [apply keeps_ret|].
  apply keeps_bind; [apply keeps_if_display, keeps_on_backend, be_begin_update_ok|]. intros _.
  apply keeps_bind; [|intros _; apply keeps_if_display, keeps_on_backend, be_end_update_ok].
  apply keeps_for_each. intros i Hi. apply putc_keeps. rewrite Forall_forall in Hs. by apply Hs.
Qed.

End TerminalLaws.

(** ** Text reaches the back end as glyphs

    A back end that records the glyphs it is given; the terminal's code is the same for
    every back end. *)
#[export] Instance recorder : Backend (list Z) := {
  be_clear := ret tt;
  be_putc c := modify (fun out => out ++ [c]);
  be_begin_update := ret tt;
  be_end_update := ret tt;
  be_rows _ := 25;
  be_cols _ := 80;
  be_row _ := 0;
  be_col _ := 0;
  be_set_cursor _ _ := ret tt;
  be_write_at _ _ _ := ret tt
}.

(** A terminal between two characters, with its display on and no line prefix. *)
Record quiet (out : list Z) (t : terminal (list Z)) : Prop := Quiet {
  qt_out : backend t = out;
  qt_esc : esc_state t = 0;
  qt_dec : decoder t = utf8_decoder_reset;
  qt_prefix : line_prefix_hook t = None;
  qt_display : display_enabled t = true
}.

(** The same with a sequence partly decoded. *)
Definition midway (out : list Z) (d : utf8_decoder) (t : terminal (list Z)) : Prop :=
  exists u, quiet out u /\ t = set_decoder d u.

Lemma quiet_midway out t : quiet out t -> midway out utf8_decoder_reset t.
Proof. intros Ht. exists t. split; [done|]. destruct t, Ht. cbn in *. by subst. Qed.

Lemma midway_quiet out t : midway out utf8_decoder_reset t -> quiet out t.
Proof. intros (u & Hu & ->). by destruct Hu. Qed.

(** One byte of text that is neither an escape character nor a tab. *)
Lemma putc_text out dec c t (dec' : utf8_decoder) (glyphs : list Z) :
  c <> 27 -> c <> 9 -> midway out dec t ->
  match utf8_decoder_feed dec c with
  | (UTF8_DECODE_WAIT, _, d) => dec' = d /\ glyphs = []
  | (UTF8_DECODE_ACCEPT, cp, d) => dec' = d /\ glyphs = [unicode_to_cp437 cp]
  | _ => False
  end ->
  runs (terminal_putc c) t (fun _ t' => midway (out ++ glyphs) dec' t').
Proof.
  intros H27 H9 (u & Hu & ->) Hfeed. destruct Hu as [Ho He Hd Hp Hdis].
  unfold terminal_putc. apply runs_bind. do 2 apply runs_bind, runs_gets. cbn. rewrite Hp. apply runs_ret.
  apply runs_bind, runs_bind, runs_gets. cbn. rewrite He. cbn [Z.eqb].
  destruct (Z.eqb_spec c 27); [done|]. apply runs_ret.
  apply runs_bind. unfold terminal_emit_display_char. destruct (Z.eqb_spec c 9); [done|].
  unfold terminal_emit_utf8_byte. rewrite emit_loop_S. apply runs_bind, runs_gets. cbn [decoder set_decoder].
  destruct (utf8_decoder_feed dec c) as [[r cp] d]. apply runs_bind, runs_modify.
  assert (Hend : forall t', (exists v, quiet (out ++ glyphs) v /\ t' = set_decoder dec' v) ->
    runs (modify (call_hook c) ;;; terminal_note_visible_char c) t' (fun _ t' => midway (out ++ glyphs) dec' t')).
  { clear. intros t' (v & Hv & ->). apply runs_bind, runs_modify. unfold terminal_note_visible_char.
    destruct (c =? 10); [|destruct (negb _)].
    - apply runs_modify. exists (set_line_start true (call_hook c v)). split; [by destruct Hv|done].
    - apply runs_modify. exists (set_line_start false (call_hook c v)). split; [by destruct Hv|done].
    - apply runs_ret. exists (call_hook c v). split; [by destruct Hv|done]. }
  destruct r; try done; destruct Hfeed as [-> ->].
  - apply runs_ret. apply Hend. exists u. rewrite app_nil_r. destruct u; cbn in *. by subst.
  - apply runs_bind, runs_gets. cbn. rewrite Hdis. apply runs_on_backend, runs_modify.
    apply Hend. exists (set_backend (out ++ [unicode_to_cp437 cp]) u). split; [by constructor|].
    by rewrite <- Ho.
Qed.

(** The first byte, a middle byte and the last byte of the encoding of [cp]. *)
Lemma text_lead b d rest out t Q :
  b <> 9 -> b <> 27 -> midway out utf8_decoder_reset t ->
  utf8_decoder_feed utf8_decoder_reset b = (UTF8_DECODE_WAIT, 0, d) ->
  (forall t', midway out d t' -> runs (for_each rest terminal_putc) t' Q) ->
  runs (for_each (b :: rest) terminal_putc) t Q.
Proof.
  intros H9 H27 Hm Hf Hk. cbn [for_each]. apply runs_bind.
  eapply runs_mono; [apply (putc_text out utf8_decoder_reset b t d []); [done|done|done|by rewrite Hf]|].
  intros [] t'' H'. rewrite app_nil_r in H'. by apply Hk.
Qed.

Lemma text_next d b rest out t Q :
  decoder_ok d -> 1 < remaining d -> 128 <= b < 192 -> midway out d t ->
  (forall t', midway out (Utf8Decoder (codepoint d * 64 + (b - 128)) (min_codepoint d) (remaining d - 1)) t' ->
     runs (for_each rest terminal_putc) t' Q) ->
  runs (for_each (b :: rest) terminal_putc) t Q.
Proof.
  intros Hd Hr Hb Hm Hk. cbn [for_each]. apply runs_bind.
  eapply runs_mono; [apply (putc_text out d b t (Utf8Decoder (codepoint d * 64 + (b - 128)) (min_codepoint d)
    (remaining d - 1)) []); [lia|lia|done|]|].
  - rewrite feed_continuation by (done || lia). cbv zeta. by destruct (Z.eqb_spec (remaining d) 1); [lia|].
  - intros [] t'' H'. rewrite app_nil_r in H'. by apply Hk.
Qed.

Lemma text_last d b cp out t :
  scalar cp -> decoder_ok d -> remaining d = 1 -> 128 <= b < 192 ->
  codepoint d * 64 + (b - 128) = cp -> min_codepoint d <= cp -> midway out d t ->
  runs (for_each [b] terminal_putc) t (fun _ => quiet (out ++ [unicode_to_cp437 cp])).
Proof.
  intros Hs Hd Hr Hb Hcp Hmin Hm. cbn [for_each]. apply runs_bind.
  eapply runs_mono; [apply (putc_text out d b t utf8_decoder_reset [unicode_to_cp437 cp]); [lia|lia|done|]|].
  - rewrite feed_continuation by (done || lia). cbv zeta. rewrite Hr, Hcp. cbn [Z.eqb Pos.eqb].
    unfold scalar in Hs. destruct (_ || _) eqn:E; [lia|]. done.
  - intros [] t'' H'. apply runs_ret. by apply midway_quiet.
Qed.

Local Ltac lead_byte :=
  eapply text_lead; [dlia|dlia|done|rewrite feed_lead by dlia; zcase; try dlia; cbn [andb]; reflexivity|].
Local Ltac decoder_fields :=
  cbn [codepoint min_codepoint remaining]; try dlia; try (constructor; cbn; try lia; dlia).

Lemma encode_text cp out t :
  scalar cp -> cp <> 9 -> cp <> 27 -> quiet out t ->
  runs (for_each (utf8_encode cp) terminal_putc) t (fun _ => quiet (out ++ [unicode_to_cp437 cp])).
Proof.
  intros Hs H9 H27 Hq%quiet_midway. unfold utf8_encode. pose proof Hs as Hs'. unfold scalar in Hs'.
  destruct (Z.ltb_spec cp 128); [|destruct (Z.ltb_spec cp 2048); [|destruct (Z.ltb_spec cp 65536)]].
  - cbn [for_each]. apply runs_bind.
    eapply runs_mono; [apply (putc_text out utf8_decoder_reset cp t utf8_decoder_reset [unicode_to_cp437 cp]);
      [done|done|done|]|].
    + rewrite feed_lead by lia. destruct (Z.ltb_spec cp 128); [done|lia].
    + intros [] t' H'. apply runs_ret. by apply midway_quiet.
  - lead_byte. intros t1 Ht1. eapply text_last; [done| | | | | |exact Ht1]; decoder_fields.
  - lead_byte. intros t1 Ht1. eapply text_next; [| | |exact Ht1|]; decoder_fields.
    intros t2 Ht2. eapply text_last; [done| | | | | |exact Ht2]; decoder_fields.
  - lead_byte. intros t1 Ht1. eapply text_next; [| | |exact Ht1|]; decoder_fields.
    intros t2 Ht2. eapply text_next; [| | |exact Ht2|]; decoder_fields.
    intros t3 Ht3. eapply text_last; [done| | | | | |exact Ht3]; decoder_fields.
Qed.

Lemma text_runs cps out t :
  Forall (fun cp => scalar cp /\ cp <> 9 /\ cp <> 27) cps -> quiet out t ->
  runs (for_each (concat (map utf8_encode cps)) terminal_putc) t
    (fun _ => quiet (out ++ map unicode_to_cp437 cps)).
Proof.
  revert out t. induction cps as [|cp cps IH]; intros out t Hall Hq; cbn [map concat].
  - rewrite app_nil_r. by apply runs_ret.
  - inversion Hall as [|? ? (Hs & H9 & H27) Hall']; subst. apply runs_for_each_app.
    eapply runs_mono; [by apply encode_text|]. intros [] t' Hq'.
    eapply runs_mono; [by apply IH|]. intros [] t'' Hq''. by rewrite <- app_assoc in Hq''.
Qed.

(** ASCII text is its own encoding. *)
Lemma ascii_runs s out t :
  Forall (fun c => 0 <= c < 128 /\ c <> 9 /\ c <> 27) s -> quiet out t ->
  runs (terminal_puts s) t (fun _ => quiet (out ++ s)).
Proof.
  intros Hs Hq.
  assert (He : concat (map utf8_encode s) = s /\ map unicode_to_cp437 s = s).
  { induction Hs as [|c s (Hc & _) _ (IH1 & IH2)]; [done|]. cbn [map concat]. rewrite IH1, IH2.
    unfold utf8_encode, unicode_to_cp437. destruct (Z.ltb_spec c 128); [|lia]. by rewrite u8_small by lia. }
  destruct He as [He1 He2]. pose proof (text_runs s out t) as Ht. rewrite He1, He2 in Ht.
  apply Ht; [|done]. eapply Forall_impl; [done|]. cbn. unfold scalar. lia.
Qed.

Lemma ascii_char_runs c out t :
  0 <= c < 128 -> c <> 9 -> c <> 27 -> quiet out t -> runs (terminal_putc c) t (fun _ => quiet (out ++ [c])).
Proof.
  intros Hc H9 H27 Hq. pose proof (ascii_runs [c] out t ltac:(constructor; [done|constructor]) Hq) as H.
  unfold runs, terminal_puts, for_each, bind, ret in H. unfold runs.
  by destruct (terminal_putc c t) as [[[] t']|].
Qed.

(** ** Numbers *)

(** The value of a list of decimal digits. *)
Definition dec_value (s : cstring) : Z := foldl (fun a c => a * 10 + (c - 48)) 0 s.
Definition hex_value (s : cstring) : Z :=
  foldl (fun a c => a * 16 + (if c <? 58 then c - 48 else c - 55)) 0 s.

Lemma foldl_base (base : Z) (f : Z -> Z) s a :
  foldl (fun a c => a * base + f c) a s = a * base ^ zlen s + foldl (fun a c => a * base + f c) 0 s.
Proof.
  revert a. induction s as [|c s IH]; intros a; cbn [foldl].
  - unfold zlen. cbn. lia.
  - rewrite IH, (IH (0 * base + f c)). unfold zlen. cbn [length].
    rewrite Nat2Z.inj_succ, Z.pow_succ_r by lia. lia.
Qed.

Lemma uint_digits_value pos v buf :
  0 <= v < 10 ^ Z.of_nat pos ->
  dec_value (uint_digits pos v buf) = v * 10 ^ zlen buf + dec_value buf
  /\ (Forall (fun c => 48 <= c <= 57) buf -> Forall (fun c => 48 <= c <= 57) (uint_digits pos v buf)).
Proof.
  revert v buf. induction pos as [|pos IH]; intros v buf Hv; cbn [uint_digits].
  - replace v with 0 by lia. split; [lia|done].
  - rewrite Nat2Z.inj_succ, Z.pow_succ_r in Hv by lia. destruct (Z.ltb_spec 0 v).
    + destruct (IH (v / 10) ((48 + v mod 10) :: buf)) as [IH1 IH2]; [dlia|]. split.
      * rewrite IH1. unfold dec_value at 1. cbn [foldl]. rewrite (foldl_base 10 (fun c => c - 48)).
        fold (dec_value buf). unfold zlen. cbn [length]. rewrite Nat2Z.inj_succ, Z.pow_succ_r by lia.
        pose proof (Z.div_mod v 10 ltac:(lia)) as Hdm. rewrite Hdm at 3. ring.
      * intros Hb. apply IH2. constructor; [dlia|done].
    + replace v with 0 by lia. split; [lia|done].
Qed.

Lemma hex_digits_value pos v buf :
  0 <= v < 16 ^ Z.of_nat pos ->
  hex_value (hex_digits pos v buf) = v * 16 ^ zlen buf + hex_value buf
  /\ (Forall (fun c => 48 <= c <= 70) buf -> Forall (fun c => 48 <= c <= 70) (hex_digits pos v buf)).
Proof.
  revert v buf. induction pos as [|pos IH]; intros v buf Hv; cbn [hex_digits].
  - replace v with 0 by lia. split; [lia|done].
  - rewrite Nat2Z.inj_succ, Z.pow_succ_r in Hv by lia. destruct (Z.ltb_spec 0 v).
    + rewrite Z.shiftr_div_pow2 by lia. change (2 ^ 4) with 16.
      change 0xF with (2 ^ 4 - 1). rewrite land_mod by lia. change (2 ^ 4) with 16.
      assert (Hd : (if hex_digit (v mod 16) <? 58 then hex_digit (v mod 16) - 48
        else hex_digit (v mod 16) - 55) = v mod 16).
      { unfold hex_digit. destruct (Z.ltb_spec (v mod 16) 10).
        - destruct (Z.ltb_spec (48 + v mod 16) 58); lia.
        - destruct (Z.ltb_spec (55 + v mod 16) 58); lia. }
      destruct (IH (v / 16) (hex_digit (v mod 16) :: buf)) as [IH1 IH2]; [dlia|]. split.
      * rewrite IH1. unfold hex_value at 1. cbn [foldl].
        rewrite (foldl_base 16 (fun c => if c <? 58 then c - 48 else c - 55)), Hd.
        fold (hex_value buf). unfold zlen. cbn [length]. rewrite Nat2Z.inj_succ, Z.pow_succ_r by lia.
        pose proof (Z.div_mod v 16 ltac:(lia)) as Hdm. rewrite Hdm at 3. ring.
      * intros Hb. apply IH2. constructor; [|done]. unfold hex_digit.
        destruct (Z.ltb_spec (v mod 16) 10); dlia.
    + replace v with 0 by lia. split; [lia|done].
Qed.

(** ** Properties *)

(** C35: Text is displayed faithfully: on a terminal between two characters, with its
    display on and no line prefix, writing the UTF-8 encoding of any Unicode scalar
    values other than tab and escape hands the back end exactly one glyph per
    character, the code page 437 glyph of that character, in order, and leaves the
    terminal ready for the next character. *)
Theorem terminal_write_text cps out t :
  Forall (fun cp => scalar cp /\ cp <> 9 /\ cp <> 27) cps -> quiet out t ->
  runs (terminal_write (concat (map utf8_encode cps))) t
    (fun _ => quiet (out ++ map unicode_to_cp437 cps)).
Proof.
  intros Hcps Hq. unfold terminal_write. destruct (bool_decide_reflect (concat (map utf8_encode cps) = [])) as [E|E].
  - assert (cps = []) as ->; [|rewrite app_nil_r; by apply runs_ret].
    destruct cps as [|cp cps]; [done|]. cbn in E. apply app_eq_nil in E as [E _].
    unfold utf8_encode in E. by repeat case_match.
  - assert (Hid : forall u o, quiet o u -> runs (if_display (on_backend (ret tt))) u (fun _ => quiet o)).
    { intros u o Hu. apply runs_bind, runs_gets. destruct (display_enabled u); [|by apply runs_ret].
      apply runs_on_backend, runs_ret. destruct u, Hu; cbn in *; by subst. }
    apply runs_bind. eapply runs_mono; [by apply Hid|]. intros [] u Hu.
    apply runs_bind. eapply runs_mono; [by apply text_runs|]. intros [] v Hv. by apply Hid.
Qed.

(** A terminal just after boot, recording its output. *)
Definition terminal_example : terminal (list Z) :=
  Terminal [] 0 [0; 0; 0; 0] 0 0 false false utf8_decoder_reset false [] None true true.

Lemma terminal_write_text_witness :
  runs (terminal_write (concat (map utf8_encode [0x48; 0xE9; 0x2500; 0x1F600]))) terminal_example
    (fun _ => quiet ([] ++ map unicode_to_cp437 [0x48; 0xE9; 0x2500; 0x1F600])).
Proof.
  apply terminal_write_text; [|by constructor].
  repeat constructor; unfold scalar; try lia; by right.
Defined.

(** Numbers are printed correctly: for every 32-bit value [terminal_put_uint] prints
    a non-empty string of decimal digits whose value it is, and [terminal_put_hex]
    prints [0x] and hexadecimal digits whose value it is; neither overflows its
    stack buffer. *)
Theorem terminal_put_number v out t :
  0 <= v < 2 ^ 32 -> quiet out t ->
  runs (terminal_put_uint v) t (fun _ t' => exists s, quiet (out ++ s) t' /\ dec_value s = v
    /\ s <> [] /\ Forall (fun c => 48 <= c <= 57) s)
  /\ runs (terminal_put_hex v) t (fun _ t' => exists s, quiet (out ++ bytes "0x" ++ s) t' /\ hex_value s = v
    /\ s <> [] /\ Forall (fun c => 48 <= c <= 70) s).
Proof.
  intros Hv Hq. unfold terminal_put_uint, terminal_put_hex. destruct (Z.eqb_spec v 0) as [->|Hv0].
  - split.
    + eapply runs_mono; [by apply (ascii_char_runs 48 out t)|].
      intros [] t' Ht'. exists [48]. split_and!; try done. constructor; [lia|constructor].
    + eapply runs_mono; [apply (ascii_runs (bytes "0x0") out t); [|done]|].
      { change (bytes "0x0") with [48; 120; 48]. do 3 (constructor; [lia|]). constructor. }
      intros [] t' Ht'. exists [48]. split_and!; try done. constructor; [lia|constructor].
  - destruct (uint_digits_value 11 v []) as [Hu1 Hu2]; [lia|]. specialize (Hu2 (Forall_nil_2 _)).
    destruct (hex_digits_value 8 v []) as [Hh1 Hh2]; [lia|]. specialize (Hh2 (Forall_nil_2 _)).
    unfold zlen in Hu1, Hh1. cbn [length Z.of_nat] in Hu1, Hh1.
    change (dec_value []) with 0 in Hu1. change (hex_value []) with 0 in Hh1. split.
    + eapply runs_mono; [apply (ascii_runs (uint_digits 11 v []) out t); [|done]|].
      { eapply Forall_impl; [done|]. cbn. lia. }
      intros [] t' Ht'. eexists; split_and!; [done|lia| |done].
      intros E. rewrite E in Hu1. change (dec_value []) with 0 in Hu1. lia.
    + eapply runs_mono; [apply (ascii_runs (48 :: 120 :: hex_digits 8 v []) out t); [|done]|].
      { constructor; [lia|]. constructor; [lia|]. eapply Forall_impl; [done|]. cbn. lia. }
      intros [] t' Ht'. exists (hex_digits 8 v []). split_and!; [done|lia| |done].
      intros E. rewrite E in Hh1. change (hex_value []) with 0 in Hh1. lia.
Qed.

Lemma terminal_put_number_witness :
  runs (terminal_put_uint 4294967295) terminal_example
    (fun _ t' => exists s, quiet ([] ++ s) t' /\ dec_value s = 4294967295
      /\ s <> [] /\ Forall (fun c => 48 <= c <= 57) s).
Proof.
  refine (proj1 (terminal_put_number 4294967295 [] terminal_example _ _)); [lia|by constructor].
Defined.
