(* ===== verification/Screen.v ===== *)
(** * VGA text screen

    Models [src/src/drivers/screen.c], the text-mode back end of the terminal.  The
    frame buffer at 0xB8000 is the list of its 80 x 25 cells; a load or store outside of
    it halts.  [move_hw_cursor]'s four port writes are the cursor position register. *)
From S2P Require Import Prelude Klib Unicode Terminal.
From Stdlib Require Import ZArith Lia ZifyBool Bool.
From stdpp Require Import base numbers list.
Local Open Scope Z_scope.
Local Open Scope kernel_scope.

Definition VGA_TEXT_COLS : Z := 80.
Definition VGA_TEXT_ROWS : Z := 25.

Record screen := Screen {
  vga : list Z;
  srow : Z;
  scol : Z;
  color : Z;
  hw_cursor : Z
}.

Definition set_vga (v : list Z) (s : screen) : screen := Screen v (srow s) (scol s) (color s) (hw_cursor s).
Definition set_pos (r c : Z) (s : screen) : screen := Screen (vga s) r c (color s) (hw_cursor s).

Definition in_vga (idx : Z) (s : screen) : bool := (0 <=? idx) && (idx <? zlen (vga s)).

(** [VGA_MEMORY[idx]] and [VGA_MEMORY[idx] = v]. *)
Definition vga_load (idx : Z) : M screen Z :=
  ok <- gets (in_vga idx) ;; if (ok : bool) then gets (fun s => zget 0 (vga s) idx) else halt.
Definition vga_store (idx v : Z) : M screen unit :=
  ok <- gets (in_vga idx) ;;
  if (ok : bool) then modify (fun s => set_vga (zset (vga s) idx v) s) else halt.

(** [((unsigned short)color << 8) | ch]. *)
Definition cell (s : screen) (ch : Z) : Z := Z.lor (u16 (Z.shiftl (color s) 8)) ch.

Definition move_hw_cursor : M screen unit :=
  modify (fun s =>
    let pos := u16 (srow s * VGA_TEXT_COLS + scol s) in
    Screen (vga s) (srow s) (scol s) (color s)
      (Z.lor (Z.land pos 0xFF) (Z.shiftl (Z.land (Z.shiftr pos 8) 0xFF) 8))).

Definition scroll : M screen unit :=
  for_each (up_to 1 VGA_TEXT_ROWS 1) (fun y =>
    for_each (up_to 0 VGA_TEXT_COLS 1) (fun x =>
      v <- vga_load (y * VGA_TEXT_COLS + x) ;;
      vga_store ((y - 1) * VGA_TEXT_COLS + x) v)) ;;;
  for_each (up_to 0 VGA_TEXT_COLS 1) (fun x =>
    v <- gets (fun s => cell s 32) ;;
    vga_store ((VGA_TEXT_ROWS - 1) * VGA_TEXT_COLS + x) v) ;;;
  modify (set_pos (VGA_TEXT_ROWS - 1) 0).

Definition screen_clear : M screen unit :=
  for_each (up_to 0 VGA_TEXT_ROWS 1) (fun y =>
    for_each (up_to 0 VGA_TEXT_COLS 1) (fun x =>
      v <- gets (fun s => cell s 32) ;;
      vga_store (y * VGA_TEXT_COLS + x) v)) ;;;
  modify (set_pos 0 0) ;;;
  move_hw_cursor.

(** The four cases of [screen_putc], before the scroll. *)
Definition put_cell (c : Z) : M screen unit :=
  if c =? 10 then modify (fun s => set_pos (srow s + 1) 0 s)
  else if c =? 13 then modify (fun s => set_pos (srow s) 0 s)
  else if c =? 8 then
    col <- gets scol ;;
    if 0 <? col then
      modify (fun s => set_pos (srow s) (scol s - 1) s) ;;;
      idx <- gets (fun s => srow s * VGA_TEXT_COLS + scol s) ;;
      v <- gets (fun s => cell s 32) ;;
      vga_store idx v
    else ret tt
  else
    idx <- gets (fun s => srow s * VGA_TEXT_COLS + scol s) ;;
    v <- gets (fun s => cell s c) ;;
    vga_store idx v ;;;
    modify (fun s => set_pos (srow s) (scol s + 1) s) ;;;
    col <- gets scol ;;
    if VGA_TEXT_COLS <=? col then modify (fun s => set_pos (srow s + 1) 0 s) else ret tt.

Definition screen_putc (c : Z) : M screen unit :=
  put_cell c ;;;
  row <- gets srow ;;
  (if VGA_TEXT_ROWS <=? row then scroll else ret tt) ;;;
  move_hw_cursor.

Definition screen_puts (s : cstring) : M screen unit := for_each s screen_putc.

Definition screen_get_row (s : screen) : Z := srow s.
Definition screen_get_col (s : screen) : Z := scol s.
Definition screen_rows (s : screen) : Z := VGA_TEXT_ROWS.
Definition screen_cols (s : screen) : Z := VGA_TEXT_COLS.

Definition screen_set_cursor (new_row new_col : Z) : M screen unit :=
  let new_row := if new_row <? 0 then 0 else new_row in
  let new_row := if VGA_TEXT_ROWS <=? new_row then VGA_TEXT_ROWS - 1 else new_row in
  let new_col := if new_col <? 0 then 0 else new_col in
  let new_col := if VGA_TEXT_COLS <=? new_col then VGA_TEXT_COLS - 1 else new_col in
  modify (set_pos new_row new_col) ;;;
  move_hw_cursor.

Definition screen_write_at (r c ch : Z) : M screen unit :=
  if (r <? 0) || (VGA_TEXT_ROWS <=? r) || (c <? 0) || (VGA_TEXT_COLS <=? c) then ret tt else
  v <- gets (fun s => cell s ch) ;;
  vga_store (r * VGA_TEXT_COLS + c) v.

(** The table has no [begin_update] and [end_update]. *)
#[export] Instance vga_text_backend : Backend screen := {
  be_clear := screen_clear;
  be_putc := screen_putc;
  be_begin_update := ret tt;
  be_end_update := ret tt;
  be_rows := screen_rows;
  be_cols := screen_cols;
  be_row := screen_get_row;
  be_col := screen_get_col;
  be_set_cursor := screen_set_cursor;
  be_write_at := screen_write_at
}.

(** ** Specification *)

(** The character cell at row [r], column [c]. *)
Definition grid (s : screen) (r c : Z) : Z := zget 0 (vga s) (r * VGA_TEXT_COLS + c).

Record screen_ok (s : screen) : Prop := ScreenOk {
  so_vga : zlen (vga s) = VGA_TEXT_ROWS * VGA_TEXT_COLS;
  so_row : 0 <= srow s < VGA_TEXT_ROWS;
  so_col : 0 <= scol s < VGA_TEXT_COLS
}.

Definition on_grid (r c : Z) : Prop := 0 <= r < VGA_TEXT_ROWS /\ 0 <= c < VGA_TEXT_COLS.

(** The cells of [s'] are given by [g]; the page has its size and the colour of [s]. *)
Definition shows (s : screen) (g : Z -> Z -> Z) (s' : screen) : Prop :=
  zlen (vga s') = VGA_TEXT_ROWS * VGA_TEXT_COLS /\ color s' = color s
  /\ forall r c, on_grid r c -> grid s' r c = g r c.

(** ** Lemmas *)

Local Ltac vga_consts := unfold on_grid, VGA_TEXT_ROWS, VGA_TEXT_COLS in *.

Lemma store_runs r c v s (Q : unit -> screen -> Prop) :
  zlen (vga s) = VGA_TEXT_ROWS * VGA_TEXT_COLS -> on_grid r c ->
  Q tt (set_vga (zset (vga s) (r * VGA_TEXT_COLS + c) v) s) ->
  runs (vga_store (r * VGA_TEXT_COLS + c) v) s Q.
Proof.
  intros Hl Hg HQ. apply runs_bind, runs_gets. unfold in_vga. rewrite Hl.
  vga_consts. destruct (_ && _) eqn:E; [by apply runs_modify|lia].
Qed.

Lemma load_runs r c s (Q : Z -> screen -> Prop) :
  zlen (vga s) = VGA_TEXT_ROWS * VGA_TEXT_COLS -> on_grid r c ->
  Q (grid s r c) s -> runs (vga_load (r * VGA_TEXT_COLS + c)) s Q.
Proof.
  intros Hl Hg HQ. apply runs_bind, runs_gets. unfold in_vga. rewrite Hl.
  vga_consts. destruct (_ && _) eqn:E; [by apply runs_gets|lia].
Qed.

Lemma shows_store s s' g r c v :
  shows s g s' -> on_grid r c ->
  shows s (fun r' c' => if (r' =? r) && (c' =? c) then v else g r' c')
    (set_vga (zset (vga s') (r * VGA_TEXT_COLS + c) v) s').
Proof.
  intros (Hl & Hc & Hg) Hon. split_and!; [by cbn; rewrite zlen_zset|done|].
  intros r' c' Hon'. unfold grid. cbn. vga_consts. destruct (_ && _) eqn:E.
  - replace (r' * 80 + c') with (r * 80 + c) by lia. apply zget_zset_eq. lia.
  - rewrite zget_zset_ne by lia. by apply Hg.
Qed.

Lemma shows_ext s s' g g' : (forall r c, on_grid r c -> g' r c = g r c) -> shows s g s' -> shows s g' s'.
Proof. intros He (Hl & Hc & Hg). split_and!; try done. intros r c Hon. rewrite He by done. by apply Hg. Qed.

Lemma shows_refl s : zlen (vga s) = VGA_TEXT_ROWS * VGA_TEXT_COLS -> shows s (grid s) s.
Proof. done. Qed.

Lemma shows_pos s s' g r c : shows s g s' -> shows s g (set_pos r c s').
Proof. done. Qed.

Lemma cell_color s s' ch : color s' = color s -> cell s' ch = cell s ch.
Proof. unfold cell. by intros ->. Qed.

(** Filling row [r] with blanks. *)
Lemma blank_row_runs s g r t (Q : unit -> screen -> Prop) :
  shows s g t -> 0 <= r < VGA_TEXT_ROWS ->
  (forall t', shows s (fun r' c' => if r' =? r then cell s 32 else g r' c') t' -> Q tt t') ->
  runs (for_each (up_to 0 VGA_TEXT_COLS 1) (fun x =>
    v <- gets (fun s => cell s 32) ;; vga_store (r * VGA_TEXT_COLS + x) v)) t Q.
Proof.
  intros Ht Hr HQ.
  apply (runs_for_each (fun x u => shows s (fun r' c' => if (r' =? r) && (c' <? x) then cell s 32 else g r' c') u)).
  - vga_consts. lia.
  - eapply shows_ext; [|exact Ht]. intros r' c' Hon. vga_consts. destruct (_ && _) eqn:E; [lia|done].
  - intros x u Hx Hu. apply runs_bind, runs_gets.
    apply store_runs; [apply Hu|vga_consts; lia|]. rewrite (cell_color s u) by apply Hu.
    eapply shows_ext; [|apply shows_store; [exact Hu|vga_consts; lia]].
    intros r' c' Hon. cbv beta. zcase; cbn [andb]; try done; lia.
  - intros u Hu. apply HQ. eapply shows_ext; [|exact Hu]. intros r' c' Hon. vga_consts. cbv beta.
    destruct (Z.eqb_spec r' r), (Z.ltb_spec c' 80); cbn [andb]; done || lia.
Qed.

Lemma scroll_runs s :
  zlen (vga s) = VGA_TEXT_ROWS * VGA_TEXT_COLS ->
  runs scroll s (fun _ s' =>
    shows s (fun r c => if r =? VGA_TEXT_ROWS - 1 then cell s 32 else grid s (r + 1) c) s'
    /\ srow s' = VGA_TEXT_ROWS - 1 /\ scol s' = 0).
Proof.
  intros Hl. unfold scroll. apply runs_bind.
  apply (runs_for_each (fun y u => shows s (fun r c => if r + 1 <? y then grid s (r + 1) c else grid s r c) u)).
  - vga_consts. lia.
  - eapply shows_ext; [|by apply shows_refl]. intros r c Hon. vga_consts. cbv beta.
    destruct (Z.ltb_spec (r + 1) 1); [lia|done].
  - intros y u Hy Hu.
    apply (runs_for_each (fun x u => shows s (fun r c => if (r + 1 <? y) || ((r + 1 =? y) && (c <? x))
      then grid s (r + 1) c else grid s r c) u)).
    + vga_consts. lia.
    + eapply shows_ext; [|exact Hu]. intros r c Hon. vga_consts. cbv beta. zcase; cbn [andb orb]; done || lia.
    + intros x v Hx Hv. apply runs_bind. apply load_runs; [apply Hv|vga_consts; lia|].
      apply store_runs; [apply Hv|vga_consts; lia|].
      pose proof Hv as (_ & _ & Hg). rewrite Hg by (vga_consts; lia). cbv beta.
      eapply shows_ext; [|apply shows_store; [exact Hv|vga_consts; lia]].
      intros r c Hon. cbv beta. vga_consts. zcase; cbn [andb orb]; try done; try lia; f_equal; lia.
    + intros v Hv. eapply shows_ext; [|exact Hv]. intros r c Hon. vga_consts. cbv beta.
      zcase; cbn [andb orb]; try done; lia.
  - intros u Hu. apply runs_bind. eapply blank_row_runs; [exact Hu|vga_consts; lia|].
    intros t Ht. apply runs_modify. split; [|done]. apply shows_pos.
    eapply shows_ext; [|exact Ht]. intros r c Hon. vga_consts. cbv beta. zcase; done || lia.
Qed.

Lemma hw_cursor_runs s (Q : unit -> screen -> Prop) :
  (forall h, Q tt (Screen (vga s) (srow s) (scol s) (color s) h)) -> runs move_hw_cursor s Q.
Proof. intros HQ. apply runs_modify. apply HQ. Qed.

(** The screen after a character at [(r, c)] has been put: the cells, and where the
    cursor goes before scrolling. *)
Definition put_grid (s : screen) (ch : Z) (r c : Z) : Z :=
  if (ch =? 10) || (ch =? 13) then grid s r c
  else if ch =? 8 then
    if (0 <? scol s) && (r =? srow s) && (c =? scol s - 1) then cell s 32 else grid s r c
  else if (r =? srow s) && (c =? scol s) then cell s ch else grid s r c.

Definition put_pos (s : screen) (ch : Z) : Z * Z :=
  if ch =? 10 then (srow s + 1, 0)
  else if ch =? 13 then (srow s, 0)
  else if ch =? 8 then (srow s, if 0 <? scol s then scol s - 1 else 0)
  else if scol s + 1 =? VGA_TEXT_COLS then (srow s + 1, 0) else (srow s, scol s + 1).

Lemma put_cell_runs s ch :
  screen_ok s ->
  runs (put_cell ch) s (fun _ s' => shows s (put_grid s ch) s' /\ (srow s', scol s') = put_pos s ch).
Proof.
  intros [Hl Hr Hc]. unfold put_cell, put_grid, put_pos.
  destruct (Z.eqb_spec ch 10); [by apply runs_modify|]. destruct (Z.eqb_spec ch 13); [by apply runs_modify|].
  cbn [orb]. destruct (Z.eqb_spec ch 8).
  - apply runs_bind, runs_gets. destruct (Z.ltb_spec 0 (scol s)); cbn [andb].
    + apply runs_bind, runs_modify. do 2 apply runs_bind, runs_gets. cbn [srow scol set_pos].
      apply store_runs; [done|vga_consts; lia|]. split; [|done].
      change (cell (set_pos (srow s) (scol s - 1) s) 32) with (cell s 32).
      apply (shows_store s (set_pos (srow s) (scol s - 1) s)); [|vga_consts; lia].
      apply shows_pos. by apply shows_refl.
    + apply runs_ret. split; [by apply shows_refl|]. f_equal. lia.
  - do 2 apply runs_bind, runs_gets. apply runs_bind. apply store_runs; [done|vga_consts; lia|].
    apply runs_bind, runs_modify, runs_bind, runs_gets. cbn [srow scol set_pos set_vga].
    assert (Hs : shows s (fun r c => if (r =? srow s) && (c =? scol s) then cell s ch else grid s r c)
      (set_vga (zset (vga s) (srow s * VGA_TEXT_COLS + scol s) (cell s ch)) s)).
    { apply shows_store; [by apply shows_refl|vga_consts; lia]. }
    destruct (Z.leb_spec VGA_TEXT_COLS (scol s + 1)), (Z.eqb_spec (scol s + 1) VGA_TEXT_COLS); try (vga_consts; lia).
    + by apply runs_modify.
    + by apply runs_ret.
Qed.

(** ** Functional behaviour *)

(** The screen after [screen_putc]: scrolled by one row when the cursor left the page. *)
Definition putc_result (s : screen) (ch : Z) (s' : screen) : Prop :=
  let '(r, c) := put_pos s ch in
  if r <? VGA_TEXT_ROWS then shows s (put_grid s ch) s' /\ srow s' = r /\ scol s' = c
  else shows s (fun r c => if r =? VGA_TEXT_ROWS - 1 then cell s 32 else put_grid s ch (r + 1) c) s'
       /\ srow s' = VGA_TEXT_ROWS - 1 /\ scol s' = 0.

Lemma screen_putc_runs s ch : screen_ok s -> runs (screen_putc ch) s (fun _ s' => putc_result s ch s').
Proof.
  intros Hok. unfold screen_putc. apply runs_bind.
  eapply runs_mono; [by apply put_cell_runs|]. intros _ t [Ht Hp]. apply runs_bind, runs_gets, runs_bind.
  unfold putc_result. rewrite <- Hp.
  destruct (Z.leb_spec VGA_TEXT_ROWS (srow t)), (Z.ltb_spec (srow t) VGA_TEXT_ROWS); try lia.
  - eapply runs_mono; [apply scroll_runs, Ht|]. intros _ u (Hu & Hur & Huc). apply hw_cursor_runs. intros h.
    split; [|done]. destruct Hu as (Hl & Hcol & Hg). destruct Ht as (_ & Htc & Htg).
    split_and!; [done|cbn; congruence|]. intros r c Hon. change (grid u r c = if r =? VGA_TEXT_ROWS - 1
      then cell s 32 else put_grid s ch (r + 1) c). rewrite Hg by done.
    destruct (Z.eqb_spec r (VGA_TEXT_ROWS - 1)); [by apply cell_color|]. apply Htg. vga_consts. lia.
  - apply runs_ret. by apply hw_cursor_runs.
Qed.

Lemma put_pos_ok s ch : screen_ok s ->
  0 <= (put_pos s ch).1 <= VGA_TEXT_ROWS /\ 0 <= (put_pos s ch).2 < VGA_TEXT_COLS.
Proof. intros [_ Hr Hc]. unfold put_pos. vga_consts. zcase; cbn; lia. Qed.

Lemma putc_result_ok s ch s' : screen_ok s -> putc_result s ch s' -> screen_ok s'.
Proof.
  intros Hok Hp. pose proof (put_pos_ok s ch Hok) as [Hr Hc]. unfold putc_result in Hp.
  destruct (put_pos s ch) as [r c]. cbn in Hr, Hc. destruct (Z.ltb_spec r VGA_TEXT_ROWS).
  - destruct Hp as ((Hl & _) & E1 & E2). constructor; [done|lia|lia].
  - destruct Hp as ((Hl & _) & E1 & E2). constructor; [done|rewrite E1; vga_consts; lia|rewrite E2; vga_consts; lia].
Qed.

Lemma screen_clear_runs s :
  zlen (vga s) = VGA_TEXT_ROWS * VGA_TEXT_COLS ->
  runs screen_clear s (fun _ s' => shows s (fun _ _ => cell s 32) s' /\ srow s' = 0 /\ scol s' = 0).
Proof.
  intros Hl. unfold screen_clear. apply runs_bind.
  apply (runs_for_each (fun y u => shows s (fun r c => if r <? y then cell s 32 else grid s r c) u)).
  - vga_consts. lia.
  - eapply shows_ext; [|by apply shows_refl]. intros r c Hon. vga_consts. cbv beta. zcase; done || lia.
  - intros y u Hy Hu. eapply blank_row_runs; [exact Hu|done|]. intros t Ht.
    eapply shows_ext; [|exact Ht]. intros r c Hon. cbv beta. zcase; done || lia.
  - intros u Hu. apply runs_bind, runs_modify, hw_cursor_runs. intros h. split; [|done].
    eapply (shows_ext s u) in Hu as (? & ? & Hg); [|reflexivity]. split_and!; [done..|]. intros r c Hon.
    specialize (Hg r c Hon). cbv beta in Hg. vga_consts. destruct (Z.ltb_spec r 25); [done|lia].
Qed.

(** The VGA screen is a back end the terminal can rely on. *)
#[export, refine] Instance vga_text_laws : BackendLaws screen := {
  be_ok := screen_ok
}.
Proof.
  - intros b _. cbn. unfold screen_rows, screen_cols. vga_consts. lia.
  - by intros b [_ Hr Hc].
  - intros s Hs. eapply runs_mono; [apply screen_clear_runs, Hs|]. intros [] s' ((Hl & _) & E1 & E2).
    constructor; [done|rewrite E1; vga_consts; lia|rewrite E2; vga_consts; lia].
  - intros c _ s Hs. eapply runs_mono; [by apply screen_putc_runs|]. intros [] s'. by apply putc_result_ok.
  - apply keeps_ret.
  - apply keeps_ret.
  - intros r c s [Hl _ _] Hr Hc. cbn in *. unfold screen_rows, screen_cols in *.
    assert (E : (r <? 0) = false /\ (VGA_TEXT_ROWS <=? r) = false /\ (c <? 0) = false
      /\ (VGA_TEXT_COLS <=? c) = false) by lia.
    destruct E as (E1 & E2 & E3 & E4). unfold screen_set_cursor. rewrite E1, E3, E2, E4. cbv zeta.
    split; [by constructor|done].
  - intros r c ch s [Hl Hr' Hc'] Hr Hc Hch. cbn in *. unfold screen_rows, screen_cols in *. unfold screen_write_at.
    vga_consts. destruct (_ || _) eqn:E; [lia|]. apply runs_bind, runs_gets. apply store_runs; [done|vga_consts; lia|].
    split; [|done]. constructor; [|done..]. cbn. rewrite zlen_zset. done.
Defined.

(** ** Properties *)

(** Bytes handed to a terminal in successive writes. *)
Definition write_all (chunks : list (list Z)) : M (terminal screen) unit :=
  foldr (fun chunk k => terminal_write chunk ;;; k) (ret tt) chunks.

(** C33: No output can corrupt memory or lose the cursor.  From any consistent terminal on
    the VGA screen (escape state, parameter array, decoder, cursor on the page), any
    sequence of writes of arbitrary bytes, complete or broken escape sequences and
    UTF-8 included, completes without a store outside of the 80 x 25 text page and
    leaves the terminal consistent with the cursor on the page. *)
Theorem terminal_stays_on_screen chunks t :
  Forall (Forall is_byte) chunks -> term_ok t ->
  runs (write_all chunks) t (fun _ t' => term_ok t' /\ screen_ok (backend t')).
Proof.
  intros Hc Ht. eapply (keeps_runs term_ok); [|exact Ht|].
  - clear t Ht. induction Hc as [|chunk chunks Hchunk _ IH]; [apply keeps_ret|].
    cbn [write_all foldr]. apply keeps_bind; [by apply write_keeps|]. intros _. apply IH.
  - intros [] t' Ht'. split; [done|]. exact (to_backend t' Ht').
Qed.

(** The screen and the terminal at boot. *)
Definition screen_boot : screen := Screen (replicate 2000 0) 0 0 0x0F 0.
Definition terminal_boot : terminal screen :=
  Terminal screen_boot 0 [0; 0; 0; 0] 0 0 false false utf8_decoder_reset false [] None true true.

(** An escape sequence with a huge parameter, a stray continuation byte, a tab and a
    truncated sequence. *)
Lemma terminal_stays_on_screen_witness :
  runs (write_all [[27; 91; 57; 57; 57; 57; 57; 57; 57; 57; 57; 57; 66]; [0x80; 9; 0xE2; 0x94]]) terminal_boot
    (fun _ t' => term_ok t' /\ screen_ok (backend t')).
Proof.
  apply terminal_stays_on_screen.
  - repeat constructor; unfold is_byte; lia.
  - constructor; cbn; try lia; try done; by constructor.
Defined.

(** [screen_putc] behaves as a text screen: newline, carriage return and backspace
    move the cursor (backspace also blanks the cell it moves to), any other character
    is stored at the cursor with the current colour and advances it, wrapping to the
    next row; when the cursor leaves the last row every row moves up by one, the last
    row is blank and the cursor is at its start; no other cell changes. *)
Theorem screen_putc_correct s ch :
  screen_ok s -> runs (screen_putc ch) s (fun _ s' => putc_result s ch s' /\ screen_ok s').
Proof.
  intros Hok. eapply runs_mono; [by apply screen_putc_runs|]. intros [] s' Hp.
  split; [done|]. by eapply putc_result_ok.
Qed.

Lemma screen_putc_correct_witness :
  runs (screen_putc 10) (Screen (replicate 2000 0) 24 7 0x0F 0)
    (fun _ s' => putc_result (Screen (replicate 2000 0) 24 7 0x0F 0) 10 s' /\ screen_ok s').
Proof. apply screen_putc_correct. constructor; cbn; vga_consts; try lia. reflexivity. Defined.
