(* ===== verification/Net.v ===== *)
(** * Network: ARP, IPv4 and the receive dispatcher

    Models [src/src/drivers/arp.c], [src/src/drivers/ipv4.c] (without the ping loop) and
    [src/src/drivers/net.c].  A frame is the list of its bytes.  A received frame is read
    with [byte_at], which halts outside the frame: a computation that returns has read
    nothing but the frame.  The network card, the clock, the file system and the protocol
    handlers that are not modelled are the fields of [environment]. *)
From S2P Require Import Prelude Klib VmArea.
From Stdlib Require Import ZArith Lia ZifyBool Bool String.
From stdpp Require Import base numbers list.
Local Open Scope Z_scope.
Local Open Scope kernel_scope.

Definition ARP_ETHERTYPE : Z := 0x0806.
Definition ARP_HTYPE_ETHERNET : Z := 0x0001.
Definition ARP_PTYPE_IPV4 : Z := 0x0800.
Definition ARP_OP_REQUEST : Z := 0x0001.
Definition ARP_OP_REPLY : Z := 0x0002.
Definition ARP_FRAME_SIZE : Z := 42.
Definition ARP_MAX_POLL_COUNT : Z := 200.
Definition ARP_LOG_PATH : cstring := bytes "/var/log/net.log".

Definition IPV4_ETHERTYPE : Z := 0x0800.
Definition IPV4_VERSION_IHL : Z := 0x45.
Definition IPV4_TTL : Z := 64.
Definition IPV4_PROTO_ICMP : Z := 1.
Definition IPV4_ECHO_REQUEST : Z := 8.
Definition IPV4_ECHO_REPLY : Z := 0.
Definition IPV4_PACKET_SIZE : Z := 60.

Definition NET_ETHERTYPE_ARP : Z := 0x0806.
Definition NET_ETHERTYPE_IPV4 : Z := 0x0800.
Definition NET_IPV4_PROTO_ICMP : Z := 1.
Definition NET_IPV4_PROTO_TCP : Z := 6.
Definition NET_IPV4_PROTO_UDP : Z := 17.
Definition NET_MAX_FRAME : Z := 1600.

Definition EIO : Z := 5.
Definition EMSGSIZE : Z := 90.
Definition EHOSTUNREACH : Z := 113.

Record net_ipv4_config_t := Config {
  configured : bool;
  cfg_ip : Z;
  netmask : Z;
  gateway : Z;
  dns : Z;
  dhcp_server : Z;
  lease_seconds : Z
}.

(** [s_arp_cache_*]. *)
Record arp_cache := ArpCache {
  cache_valid : bool;
  cache_sender_ip : Z;
  cache_target_ip : Z;
  cache_mac : list Z
}.

(** [s_ping_*]. *)
Record ping := Ping {
  ping_waiting : bool;
  ping_got_reply : bool;
  ping_sender_ip : Z;
  ping_target_ip : Z;
  ping_ident : Z;
  ping_seq : Z
}.

(** The static variables of the three files; [n_world] is the rest of the machine. *)
Record net (W : Type) := Net {
  n_cache : arp_cache;
  n_ping : ping;
  n_config : net_ipv4_config_t;
  n_poll_locked : bool;
  n_world : W
}.
Arguments Net {W}.
Arguments n_cache {W}.
Arguments n_ping {W}.
Arguments n_config {W}.
Arguments n_poll_locked {W}.
Arguments n_world {W}.

(** What the three files call: the card ([nic.c] and its driver), the clock, the file
    system, the sockets and the other protocols.  [wait_interrupt] is [arp_wait]: until
    the next interrupt is over other code runs, which may change all of the state. *)
Record environment (W : Type) := Environment {
  nic_mac : W -> list Z;
  nic_send : list Z -> W -> bool * W;
  nic_recv : W -> option (list Z) * W;
  timer_get_ticks : W -> Z;
  wait_interrupt : M (net W) unit;
  ext2_is_read_only : W -> bool;
  ext2_stat : cstring -> W -> Z * W;
  ext2_write_at_path : cstring -> Z -> list Z -> W -> W;
  socket_raw_icmp_deliver : list Z -> Z -> M (net W) unit;
  socket_udp_deliver : Z -> Z -> Z -> Z -> list Z -> M (net W) bool;
  tcp_handle_ipv4_frame : list Z -> M (net W) unit;
  dhcp_handle_ipv4_frame : list Z -> M (net W) bool;
  ntp_handle_ipv4_frame : list Z -> M (net W) unit
}.
Arguments nic_mac {W}.
Arguments nic_send {W}.
Arguments nic_recv {W}.
Arguments timer_get_ticks {W}.
Arguments wait_interrupt {W}.
Arguments ext2_is_read_only {W}.
Arguments ext2_stat {W}.
Arguments ext2_write_at_path {W}.
Arguments socket_raw_icmp_deliver {W}.
Arguments socket_udp_deliver {W}.
Arguments tcp_handle_ipv4_frame {W}.
Arguments dhcp_handle_ipv4_frame {W}.
Arguments ntp_handle_ipv4_frame {W}.

(** ** Big-endian fields *)

Definition write_u16_be (buf : list Z) (off value : Z) : list Z :=
  zset (zset buf off (u8 (Z.shiftr value 8))) (off + 1) (u8 (Z.land value 0xFF)).

Definition write_u32_be (buf : list Z) (off value : Z) : list Z :=
  zset (zset (zset (zset buf off (u8 (Z.land (Z.shiftr value 24) 0xFF)))
    (off + 1) (u8 (Z.land (Z.shiftr value 16) 0xFF)))
    (off + 2) (u8 (Z.land (Z.shiftr value 8) 0xFF)))
    (off + 3) (u8 (Z.land value 0xFF)).

Definition be16 (a b : Z) : Z := u16 (Z.lor (Z.shiftl a 8) b).
Definition be32 (a b c d : Z) : Z :=
  Z.lor (Z.lor (Z.lor (u32 (Z.shiftl a 24)) (Z.shiftl b 16)) (Z.shiftl c 8)) d.

(** [for (i = 0; i < 6; i++) dst[doff + i] = src[i]]. *)
Definition put_mac (dst : list Z) (doff : Z) (src : list Z) : list Z :=
  foldl (fun d i => zset d (doff + i) (zget 0 src i)) dst (up_to 0 6 1).

Section network.
Context {W : Type} (o : environment W).

Definition set_cache (c : arp_cache) (s : net W) : net W := Net c (n_ping s) (n_config s) (n_poll_locked s) (n_world s).
Definition set_ping (p : ping) (s : net W) : net W := Net (n_cache s) p (n_config s) (n_poll_locked s) (n_world s).
Definition set_config (c : net_ipv4_config_t) (s : net W) : net W := Net (n_cache s) (n_ping s) c (n_poll_locked s) (n_world s).
Definition set_locked (b : bool) (s : net W) : net W := Net (n_cache s) (n_ping s) (n_config s) b (n_world s).
Definition set_world (w : W) (s : net W) : net W := Net (n_cache s) (n_ping s) (n_config s) (n_poll_locked s) w.

(** An operation of the rest of the machine. *)
Definition on_environment {A} (f : W -> A * W) : M (net W) A :=
  lift (fun s => let '(a, w) := f (n_world s) in (a, set_world w s)).

(** [frame[i]]. *)
Definition byte_at (frame : list Z) (i : Z) : M (net W) Z :=
  if (0 <=? i) && (i <? zlen frame) then ret (zget 0 frame i) else halt.

Definition read_u16_be (frame : list Z) (off : Z) : M (net W) Z :=
  a <- byte_at frame off ;;
  b <- byte_at frame (off + 1) ;;
  ret (be16 a b).

Definition read_u32_be (frame : list Z) (off : Z) : M (net W) Z :=
  a <- byte_at frame off ;;
  b <- byte_at frame (off + 1) ;;
  c <- byte_at frame (off + 2) ;;
  d <- byte_at frame (off + 3) ;;
  ret (be32 a b c d).

(** [dst[i] = frame[off + i]] for six bytes. *)
Definition read_mac (frame : list Z) (off : Z) : M (net W) (list Z) :=
  for_acc (up_to 0 6 1) (replicate 6 0) (fun mac i => b <- byte_at frame (off + i) ;; ret (zset mac i b)).

(** ** Configuration *)

Definition net_ipv4_clear_config : M (net W) unit := modify (set_config (Config false 0 0 0 0 0 0)).

Definition net_ipv4_configure (ip mask gw dns server lease : Z) : M (net W) unit :=
  modify (set_config (Config (negb (ip =? 0)) ip mask gw dns server lease)).

Definition net_ipv4_is_configured : M (net W) bool := gets (fun s => configured (n_config s)).
Definition net_ipv4_local_ip : M (net W) Z := gets (fun s => cfg_ip (n_config s)).
Definition net_ipv4_netmask : M (net W) Z := gets (fun s => netmask (n_config s)).
Definition net_ipv4_gateway : M (net W) Z := gets (fun s => gateway (n_config s)).
Definition net_ipv4_dns : M (net W) Z := gets (fun s => dns (n_config s)).

(** ** ARP *)

Definition arp_reply (frame : list Z) : M (net W) unit :=
  src_mac <- gets (fun s => nic_mac o (n_world s)) ;;
  local_ip <- net_ipv4_local_ip ;;
  let reply := replicate (Z.to_nat ARP_FRAME_SIZE) 0 in
  reply <- for_acc (up_to 0 6 1) reply (fun reply i =>
    b <- byte_at frame (6 + i) ;;
    ret (zset (zset reply i b) (6 + i) (zget 0 src_mac i))) ;;
  let reply := write_u16_be reply 12 ARP_ETHERTYPE in
  let reply := write_u16_be reply 14 ARP_HTYPE_ETHERNET in
  let reply := write_u16_be reply 16 ARP_PTYPE_IPV4 in
  let reply := zset reply 18 6 in
  let reply := zset reply 19 4 in
  let reply := write_u16_be reply 20 ARP_OP_REPLY in
  let reply := put_mac reply 22 src_mac in
  let reply := write_u32_be reply 28 local_ip in
  reply <- for_acc (up_to 0 6 1) reply (fun reply i =>
    b <- byte_at frame (22 + i) ;; ret (zset reply (32 + i) b)) ;;
  ip <- read_u32_be frame 28 ;;
  let reply := write_u32_be reply 38 ip in
  on_environment (nic_send o reply) ;;;
  ret tt.

(** The log line: the characters in [buf], of which at most [cap - 1] are kept. *)
Definition arp_log_append_char (cap : Z) (buf : cstring) (ch : Z) : cstring :=
  if cap <=? zlen buf + 1 then buf else buf ++ [ch].

Definition arp_log_append_str (cap : Z) (buf s : cstring) : cstring := foldl (arp_log_append_char cap) buf s.

(** The digits of [value], the most significant first. *)
Fixpoint log_digits (n : nat) (value : Z) (digits : cstring) : cstring :=
  match n with
  | O => digits
  | S n => if 0 <? value then log_digits n (value / 10) ((48 + value mod 10) :: digits) else digits
  end.

Definition arp_log_append_uint (cap : Z) (buf : cstring) (value : Z) : cstring :=
  if value =? 0 then arp_log_append_char cap buf 48
  else foldl (arp_log_append_char cap) buf (log_digits 10 value []).

Definition arp_log_append_ip (cap : Z) (buf : cstring) (ip : Z) : cstring :=
  let buf := arp_log_append_uint cap buf (Z.land (Z.shiftr ip 24) 0xFF) in
  let buf := arp_log_append_char cap buf 46 in
  let buf := arp_log_append_uint cap buf (Z.land (Z.shiftr ip 16) 0xFF) in
  let buf := arp_log_append_char cap buf 46 in
  let buf := arp_log_append_uint cap buf (Z.land (Z.shiftr ip 8) 0xFF) in
  let buf := arp_log_append_char cap buf 46 in
  arp_log_append_uint cap buf (Z.land ip 0xFF).

Definition arp_log_line (remote_ip : Z) : cstring :=
  let line := arp_log_append_str 48 [] (bytes "arp: reply to ") in
  let line := arp_log_append_ip 48 line remote_ip in
  arp_log_append_char 48 line 10.

Definition arp_log_reply (remote_ip : Z) : M (net W) unit :=
  read_only <- gets (fun s => ext2_is_read_only o (n_world s)) ;;
  if read_only then ret tt
  else
    size <- on_environment (ext2_stat o ARP_LOG_PATH) ;;
    modify (fun s => set_world (ext2_write_at_path o ARP_LOG_PATH size (arp_log_line remote_ip) (n_world s)) s).

(** [None] is the failed lookup. *)
Definition arp_lookup (sender_ip target_ip : Z) : M (net W) (option (list Z)) :=
  c <- gets n_cache ;;
  ret (if negb (cache_valid c) then None
       else if negb (cache_sender_ip c =? sender_ip) || negb (cache_target_ip c =? target_ip) then None
       else Some (cache_mac c)).

Definition arp_cache_get : M (net W) (option (Z * Z * list Z)) :=
  c <- gets n_cache ;;
  ret (if negb (cache_valid c) then None else Some (cache_sender_ip c, cache_target_ip c, cache_mac c)).

(** The frame [arp_send_request] builds. *)
Definition arp_request (src_mac : list Z) (sender_ip target_ip : Z) : list Z :=
  let frame := replicate (Z.to_nat ARP_FRAME_SIZE) 0 in
  let frame := foldl (fun f i => zset f i 0xFF) frame (up_to 0 6 1) in
  let frame := put_mac frame 6 src_mac in
  let frame := write_u16_be frame 12 ARP_ETHERTYPE in
  let frame := write_u16_be frame 14 ARP_HTYPE_ETHERNET in
  let frame := write_u16_be frame 16 ARP_PTYPE_IPV4 in
  let frame := zset frame 18 6 in
  let frame := zset frame 19 4 in
  let frame := write_u16_be frame 20 ARP_OP_REQUEST in
  let frame := put_mac frame 22 src_mac in
  let frame := write_u32_be frame 28 sender_ip in
  write_u32_be frame 38 target_ip.

Definition arp_send_request (sender_ip target_ip : Z) : M (net W) bool :=
  src_mac <- gets (fun s => nic_mac o (n_world s)) ;;
  on_environment (nic_send o (arp_request src_mac sender_ip target_ip)).

Definition arp_handle_frame (frame : list Z) (len : Z) : M (net W) bool :=
  if len <? ARP_FRAME_SIZE then ret false
  else
    ether_type <- read_u16_be frame 12 ;;
    if negb (ether_type =? ARP_ETHERTYPE) then ret false
    else
      htype <- read_u16_be frame 14 ;;
      if negb (htype =? ARP_HTYPE_ETHERNET) then ret false
      else
        ptype <- read_u16_be frame 16 ;;
        if negb (ptype =? ARP_PTYPE_IPV4) then ret false
        else
          hlen <- byte_at frame 18 ;;
          plen <- byte_at frame 19 ;;
          if negb (hlen =? 6) || negb (plen =? 4) then ret false
          else
            op <- read_u16_be frame 20 ;;
            if op =? ARP_OP_REPLY then
              sender <- read_u32_be frame 38 ;;
              target <- read_u32_be frame 28 ;;
              mac <- read_mac frame 22 ;;
              modify (set_cache (ArpCache true sender target mac)) ;;;
              ret true
            else if negb (op =? ARP_OP_REQUEST) then ret false
            else
              up <- net_ipv4_is_configured ;;
              target <- read_u32_be frame 38 ;;
              local_ip <- net_ipv4_local_ip ;;
              if negb up || negb (target =? local_ip) then ret false
              else
                arp_reply frame ;;;
                remote_ip <- read_u32_be frame 28 ;;
                arp_log_reply remote_ip ;;;
                ret true.

(** ** IPv4 *)

(** The first loop of [ipv4_checksum16] at [data = &frame[off]]: what remains and the sum.
    Each turn reads two bytes of the frame, so the frame's length bounds the turns. *)
Fixpoint checksum_words (fuel : nat) (frame : list Z) (off len sum : Z) : M (net W) (Z * Z * Z) :=
  if 1 <? len then
    match fuel with
    | O => halt
    | S fuel =>
        a <- byte_at frame off ;;
        b <- byte_at frame (off + 1) ;;
        checksum_words fuel frame (off + 2) (len - 2) (u32 (sum + be16 a b))
    end
  else ret (off, len, sum).

(** [while (sum >> 16) sum = (sum & 0xFFFF) + (sum >> 16)]: a 32-bit sum takes at most two
    turns. *)
Fixpoint fold_carries (fuel : nat) (sum : Z) : Z :=
  match fuel with
  | O => sum
  | S fuel => if Z.shiftr sum 16 =? 0 then sum else fold_carries fuel (u32 (Z.land sum 0xFFFF + Z.shiftr sum 16))
  end.

Definition ipv4_checksum16 (frame : list Z) (off len : Z) : M (net W) Z :=
  rest <- checksum_words (S (length frame)) frame off len 0 ;;
  let '(off, len, sum) := rest in
  sum <- (if 0 <? len then a <- byte_at frame off ;; ret (u32 (sum + u16 (Z.shiftl a 8))) else ret sum) ;;
  ret (u16 (Z.lnot (fold_carries 3 sum))).

(** The loop of [ipv4_parse_ip]: the parts found so far, the part being read and whether it
    has a digit.  The end of the list is the terminator. *)
Fixpoint parse_parts (text : cstring) (parts : list Z) (value : Z) (saw_digit : bool) : option (list Z) :=
  match text with
  | [] => if negb saw_digit || (4 <=? zlen parts) then None else Some (parts ++ [value])
  | c :: p =>
      if (48 <=? c) && (c <=? 57) then
        let value := u32 (value * 10 + (c - 48)) in
        if 255 <? value then None else parse_parts p parts value true
      else if (c =? 46) || (c =? 0) then
        if negb saw_digit || (4 <=? zlen parts) then None
        else if c =? 0 then Some (parts ++ [value]) else parse_parts p (parts ++ [value]) 0 false
      else None
  end.

Definition ipv4_parse_ip (text : cstring) : option Z :=
  match parse_parts text [] 0 false with
  | Some parts =>
      if negb (zlen parts =? 4) then None
      else Some (Z.lor (Z.lor (Z.lor (u32 (Z.shiftl (zget 0 parts 0) 24)) (u32 (Z.shiftl (zget 0 parts 1) 16)))
                              (u32 (Z.shiftl (zget 0 parts 2) 8))) (zget 0 parts 3))
  | None => None
  end.

Definition ping_payload : list Z := bytes "SmallOS ping".

(** [k_memcpy(&frame[off], payload, len)]. *)
Definition copy_bytes (frame : list Z) (off : Z) (payload : list Z) : list Z :=
  foldl (fun f i => zset f (off + i) (zget 0 payload i)) frame (up_to 0 (zlen payload) 1).

Definition ipv4_build_echo_request (src_mac dst_mac : list Z) (sender_ip target_ip ident seq : Z) : M (net W) (list Z) :=
  let total_len := u16 (20 + 8 + zlen ping_payload) in
  let icmp_len := u16 (8 + zlen ping_payload) in
  let frame := replicate (Z.to_nat IPV4_PACKET_SIZE) 0 in
  let frame := foldl (fun f i => zset (zset f i (zget 0 dst_mac i)) (6 + i) (zget 0 src_mac i)) frame (up_to 0 6 1) in
  let frame := write_u16_be frame 12 IPV4_ETHERTYPE in
  let frame := zset frame 14 IPV4_VERSION_IHL in
  let frame := zset frame 15 0 in
  let frame := write_u16_be frame 16 total_len in
  let frame := write_u16_be frame 18 ident in
  let frame := write_u16_be frame 20 0x4000 in
  let frame := zset frame 22 IPV4_TTL in
  let frame := zset frame 23 IPV4_PROTO_ICMP in
  let frame := write_u16_be frame 24 0 in
  let frame := write_u32_be frame 26 sender_ip in
  let frame := write_u32_be frame 30 target_ip in
  header_sum <- ipv4_checksum16 frame 14 20 ;;
  let frame := write_u16_be frame 24 header_sum in
  let frame := zset frame 34 IPV4_ECHO_REQUEST in
  let frame := zset frame 35 0 in
  let frame := write_u16_be frame 36 0 in
  let frame := write_u16_be frame 38 ident in
  let frame := write_u16_be frame 40 seq in
  let frame := copy_bytes frame 42 ping_payload in
  icmp_sum <- ipv4_checksum16 frame 34 icmp_len ;;
  ret (write_u16_be frame 36 icmp_sum).

Definition ipv4_parse_echo_reply (frame : list Z) (len sender_ip target_ip ident seq : Z) : M (net W) bool :=
  if len <? 42 then ret false
  else
    ether_type <- read_u16_be frame 12 ;;
    if negb (ether_type =? IPV4_ETHERTYPE) then ret false
    else
      b <- byte_at frame 14 ;;
      let ihl := u8 (Z.land b 0x0F) in
      let header_len := ihl * 4 in
      if (ihl <? 5) || (len <? 14 + header_len + 8) then ret false
      else
        field <- read_u16_be frame 16 ;;
        let total_len := if len <? field + 14 then u16 (len - 14) else field in
        protocol <- byte_at frame 23 ;;
        if negb (protocol =? IPV4_PROTO_ICMP) then ret false
        else
          src <- read_u32_be frame 26 ;;
          if negb (src =? target_ip) then ret false
          else
            dst <- read_u32_be frame 30 ;;
            if negb (dst =? sender_ip) then ret false
            else
              type <- byte_at frame (14 + header_len) ;;
              if negb (type =? IPV4_ECHO_REPLY) then ret false
              else
                header_sum <- ipv4_checksum16 frame 14 header_len ;;
                if negb (header_sum =? 0) then ret false
                else
                  icmp_sum <- ipv4_checksum16 frame (14 + header_len) (u32 (total_len - header_len)) ;;
                  if negb (icmp_sum =? 0) then ret false
                  else
                    id <- read_u16_be frame (14 + header_len + 4) ;;
                    if negb (id =? ident) then ret false
                    else
                      sq <- read_u16_be frame (14 + header_len + 6) ;;
                      if negb (sq =? seq) then ret false else ret true.

Definition ipv4_handle_frame (frame : list Z) (len : Z) : M (net W) bool :=
  p <- gets n_ping ;;
  if negb (ping_waiting p) then ret false
  else
    ok <- ipv4_parse_echo_reply frame len (ping_sender_ip p) (ping_target_ip p) (ping_ident p) (ping_seq p) ;;
    if negb ok then ret false
    else
      modify (fun s => let p := n_ping s in
        set_ping (Ping (ping_waiting p) true (ping_sender_ip p) (ping_target_ip p) (ping_ident p) (ping_seq p)) s) ;;;
      ret true.

(** ** Receiving *)

(** The bytes [frame[off]] to [frame[off + len - 1]]. *)
Definition frame_slice (frame : list Z) (off len : Z) : list Z := take (Z.to_nat len) (drop (Z.to_nat off) frame).

(** [&frame[off]] and [len], handed to another component, which reads all of the [len]
    bytes: it halts when they do not lie in the frame. *)
Definition frame_range (frame : list Z) (off len : Z) : M (net W) (list Z) :=
  if (0 <=? off) && (0 <=? len) && (off + len <=? zlen frame) then ret (frame_slice frame off len) else halt.

(** The frame is an IPv4 datagram whose header and 8 bytes of payload are inside it. *)
Definition datagram_fits (ihl total_len len : Z) : bool :=
  (20 <=? ihl) && (ihl + 8 <=? total_len) && (14 + total_len <=? len).

Definition net_receive_icmp (frame : list Z) (len : Z) : M (net W) unit :=
  b <- byte_at frame 14 ;;
  let ihl := Z.land b 0x0F * 4 in
  total_len <- read_u16_be frame 16 ;;
  (if datagram_fits ihl total_len len then
     src_ip <- read_u32_be frame 26 ;;
     datagram <- frame_range frame 14 total_len ;;
     socket_raw_icmp_deliver o datagram src_ip
   else ret tt) ;;;
  ipv4_handle_frame frame len ;;;
  ret tt.

Definition net_receive_udp (frame : list Z) (len : Z) : M (net W) unit :=
  b <- byte_at frame 14 ;;
  let ihl := Z.land b 0x0F * 4 in
  total_len <- read_u16_be frame 16 ;;
  delivered <-
    (if datagram_fits ihl total_len len then
       let udp_off := 14 + ihl in
       src_port <- read_u16_be frame udp_off ;;
       dst_port <- read_u16_be frame (udp_off + 2) ;;
       udp_len <- read_u16_be frame (udp_off + 4) ;;
       if (8 <=? udp_len) && (udp_off + udp_len <=? len) then
         src_ip <- read_u32_be frame 26 ;;
         dst_ip <- read_u32_be frame 30 ;;
         data <- frame_range frame (udp_off + 8) (udp_len - 8) ;;
         socket_udp_deliver o src_ip src_port dst_ip dst_port data
       else ret false
     else ret false) ;;
  if negb delivered then
    handled <- dhcp_handle_ipv4_frame o frame ;;
    if negb handled then ntp_handle_ipv4_frame o frame else ret tt
  else ret tt.

(** The dispatch of [net_poll_once] on the received frame. *)
Definition net_dispatch (frame : list Z) (len : Z) : M (net W) unit :=
  ether_type <- read_u16_be frame 12 ;;
  if ether_type =? NET_ETHERTYPE_ARP then arp_handle_frame frame len ;;; ret tt
  else if (ether_type =? NET_ETHERTYPE_IPV4) && (34 <=? len) then
    protocol <- byte_at frame 23 ;;
    if protocol =? NET_IPV4_PROTO_ICMP then net_receive_icmp frame len
    else if protocol =? NET_IPV4_PROTO_TCP then tcp_handle_ipv4_frame o frame
    else if protocol =? NET_IPV4_PROTO_UDP then net_receive_udp frame len
    else ret tt
  else ret tt.

Definition net_poll_once : M (net W) bool :=
  locked <- gets n_poll_locked ;;
  if locked then ret false
  else
    modify (set_locked true) ;;;
    received <- on_environment (nic_recv o) ;;
    match received with
    | None => modify (set_locked false) ;;; ret false
    | Some frame =>
        let len := zlen frame in
        if len <? 14 then modify (set_locked false) ;;; ret true
        else
          net_dispatch frame len ;;;
          modify (set_locked false) ;;;
          ret true
    end.

(** [frames] frames were received, of at most [frames + budget]. *)
Fixpoint drain_frames (budget : nat) (frames : Z) : M (net W) Z :=
  match budget with
  | O => ret frames
  | S budget =>
      more <- net_poll_once ;;
      if more then drain_frames budget (frames + 1) else ret frames
  end.

Definition net_poll_drain_budget (max_frames : Z) : M (net W) Z := drain_frames (Z.to_nat max_frames) 0.

(** ** Sending *)

Definition arp_resolve (sender_ip target_ip : Z) : M (net W) (option (list Z)) :=
  cached <- arp_lookup sender_ip target_ip ;;
  match cached with
  | Some mac => ret (Some mac)
  | None =>
      sent <- arp_send_request sender_ip target_ip ;;
      if negb sent then ret None
      else
        for_return (up_to 0 ARP_MAX_POLL_COUNT 1) (fun _ =>
          found <- arp_lookup sender_ip target_ip ;;
          match found with
          | Some mac => ret (Some mac)
          | None =>
              polled <- net_poll_once ;;
              if negb polled then
                wait_interrupt o ;;; ret None
              else arp_lookup sender_ip target_ip
          end)
  end.

(** [None] is the null pointer as [payload]. *)
Definition ipv4_send_payload (sender_ip target_ip next_hop_ip protocol : Z) (payload : option (list Z)) : M (net W) Z :=
  match payload with
  | None => ret (- EINVAL)
  | Some payload =>
  let payload_len := zlen payload in
  if (sender_ip =? 0) || (target_ip =? 0) || (next_hop_ip =? 0) then ret (- EINVAL)
  else if 1480 <? payload_len then ret (- EMSGSIZE)
  else
    resolved <- arp_resolve sender_ip next_hop_ip ;;
    match resolved with
    | None => ret (- EHOSTUNREACH)
    | Some target_mac =>
        let total_len := 20 + payload_len in
        let frame_len := 14 + total_len in
        let frame_len := if frame_len <? IPV4_PACKET_SIZE then IPV4_PACKET_SIZE else frame_len in
        let frame := replicate (Z.to_nat frame_len) 0 in
        src_mac <- gets (fun s => nic_mac o (n_world s)) ;;
        let frame := foldl (fun f i => zset (zset f i (zget 0 target_mac i)) (6 + i) (zget 0 src_mac i)) frame (up_to 0 6 1) in
        let frame := write_u16_be frame 12 IPV4_ETHERTYPE in
        let frame := zset frame 14 IPV4_VERSION_IHL in
        let frame := zset frame 15 0 in
        let frame := write_u16_be frame 16 (u16 total_len) in
        ticks <- gets (fun s => timer_get_ticks o (n_world s)) ;;
        let frame := write_u16_be frame 18 (u16 (Z.land ticks 0xFFFF)) in
        let frame := write_u16_be frame 20 0x4000 in
        let frame := zset frame 22 IPV4_TTL in
        let frame := zset frame 23 protocol in
        let frame := write_u16_be frame 24 0 in
        let frame := write_u32_be frame 26 sender_ip in
        let frame := write_u32_be frame 30 target_ip in
        header_sum <- ipv4_checksum16 frame 14 20 ;;
        let frame := write_u16_be frame 24 header_sum in
        let frame := copy_bytes frame 34 payload in
        sent <- on_environment (nic_send o frame) ;;
        ret (if sent then 0 else - EIO)
    end
  end.

End network.
