(* ===== verification/NetChecksum.v ===== *)
(** * The Internet checksum

    [ipv4_checksum16] against the definition of RFC 1071: the complement of the
    one's-complement sum of the 16-bit words, and the reads that leave the frame. *)
From S2P Require Import Prelude Arrays Klib Net.
From Stdlib Require Import ZArith Lia ZifyBool Bool.
From stdpp Require Import base numbers list.
Local Open Scope Z_scope.
Local Open Scope kernel_scope.

(** The big-endian words of a byte string; a last odd byte is padded with a zero. *)
Fixpoint words (l : list Z) : list Z :=
  match l with
  | a :: b :: r => a * 256 + b :: words r
  | [a] => [a * 256]
  | [] => []
  end.

(** One's-complement addition: the carry out of bit 15 comes back in at bit 0. *)
Definition oc_add (a b : Z) : Z := if a + b <? 65536 then a + b else a + b - 65535.
Definition internet_sum (l : list Z) : Z := foldr oc_add 0 (words l).

Definition word_total (ws : list Z) : Z := foldr Z.add 0 ws.

(** [v] is the 16-bit residue of [t] that is 0 only for [t = 0]. *)
Definition residue (t v : Z) : Prop := 0 <= v <= 65535 /\ v mod 65535 = t mod 65535 /\ (v = 0 <-> t = 0).

Lemma residue_unique t v v' : residue t v -> residue t v' -> v = v'.
Proof. unfold residue. intros (H1 & H2 & H3) (H4 & H5 & H6). dlia. Qed.

Lemma residue_refl v : 0 <= v <= 65535 -> residue v v.
Proof. by unfold residue. Qed.

Lemma residue_oc_add w t v : 0 <= t -> 0 <= w <= 65535 -> residue t v -> residue (w + t) (oc_add w v).
Proof.
  unfold residue, oc_add. intros Ht Hw (H1 & H2 & H3). destruct (Z.ltb_spec (w + v) 65536); split_and!; try dlia.
Qed.

Lemma land_ffff a : Z.land a 0xFFFF = a mod 65536.
Proof. change 0xFFFF with (Z.ones 16). by rewrite Z.land_ones. Qed.

Lemma carry_mod v : (v mod 65536 + v / 65536) mod 65535 = v mod 65535.
Proof.
  rewrite (Z.div_mod v 65536) at 3 by lia.
  replace (65536 * (v / 65536) + v mod 65536) with (v mod 65536 + v / 65536 + v / 65536 * 65535) by lia.
  by rewrite Z_mod_plus_full.
Qed.

(** One turn of the loop keeps the residue. *)
Lemma carry_step t v :
  0 <= v < 2 ^ 32 -> v mod 65535 = t mod 65535 -> (v = 0 <-> t = 0) ->
  let v' := u32 (Z.land v 0xFFFF + Z.shiftr v 16) in
  v' = v mod 65536 + v / 65536 /\ v' mod 65535 = t mod 65535 /\ (v' = 0 <-> t = 0).
Proof.
  intros Hv E Hz v'. subst v'. rewrite land_ffff, Z.shiftr_div_pow2 by lia. change (2 ^ 16) with 65536.
  rewrite u32_small by dlia. split; [done|]. rewrite carry_mod. split; [done|]. rewrite <- Hz. dlia.
Qed.

Lemma shiftr_small v : 0 <= v -> (Z.shiftr v 16 =? 0) = (v <=? 65535).
Proof. intros Hv. rewrite Z.shiftr_div_pow2 by lia. change (2 ^ 16) with 65536. dlia. Qed.

Lemma residue_fold sum : 0 <= sum < 2 ^ 32 -> residue sum (fold_carries 3 sum).
Proof.
  intros Hs. cbn [fold_carries]. rewrite shiftr_small by lia.
  destruct (Z.leb_spec sum 65535); [apply residue_refl; lia|].
  destruct (carry_step sum sum) as (E1 & M1 & Z1); [lia..|]. set (v1 := u32 _) in *. clearbody v1.
  assert (0 <= v1 <= 131070) by (clear M1; dlia). rewrite shiftr_small by lia.
  destruct (Z.leb_spec v1 65535); [by unfold residue; split_and!; lia|].
  destruct (carry_step sum v1) as (E2 & M2 & Z2); [lia..|]. set (v2 := u32 _) in *. clearbody v2.
  assert (0 <= v2 <= 65535) by (clear E1 M1 M2; dlia). rewrite shiftr_small by lia.
  by rewrite (proj2 (Z.leb_le v2 65535)) by lia.
Qed.

Lemma words_bounded l : Forall is_byte l -> Forall (fun w => 0 <= w <= 65535) (words l).
Proof.
  revert l. fix IH 1. intros [|a [|b r]] H; cbn; [constructor| |].
  - inversion_clear H. repeat constructor; unfold is_byte in *; lia.
  - inversion_clear H as [|?? Ha Hr]. inversion_clear Hr as [|?? Hb Hr']. constructor; [unfold is_byte in *; lia|by apply IH].
Qed.

Lemma total_bounds ws : Forall (fun w => 0 <= w <= 65535) ws -> 0 <= word_total ws <= 65535 * zlen ws.
Proof. unfold word_total. induction 1; cbn [foldr]; [by unfold zlen|]. rewrite zlen_cons. lia. Qed.

Lemma residue_internet l : Forall is_byte l -> residue (word_total (words l)) (internet_sum l).
Proof.
  intros H%words_bounded. unfold internet_sum. induction H as [|w ws Hw Hws IH]; [by apply residue_refl|].
  cbn [foldr word_total]. apply residue_oc_add; [apply (total_bounds ws Hws)|done|done].
Qed.

Lemma words_len l : 2 * zlen (words l) <= zlen l + 1.
Proof.
  revert l. fix IH 1. intros [|a [|b r]]; cbn [words]; [by unfold zlen|by unfold zlen|].
  rewrite !zlen_cons. specialize (IH r). lia.
Qed.

Lemma lor_shift a b n : 0 <= n -> 0 <= b < 2 ^ n -> Z.lor (Z.shiftl a n) b = a * 2 ^ n + b.
Proof.
  intros Hn Hb. rewrite Z.shiftl_mul_pow2 by lia.
  assert (Z.land (a * 2 ^ n) b = 0) as H0.
  { replace b with (Z.land (Z.ones n) b) by (rewrite Z.land_comm, Z.land_ones, Z.mod_small by lia; done).
    rewrite Z.land_assoc, Z.land_ones, Z.mod_mul by lia. apply Z.land_0_l. }
  rewrite <- Z.lxor_lor by done. symmetry. by apply Z.add_nocarry_lxor.
Qed.

Lemma be16_value a b : is_byte a -> is_byte b -> be16 a b = a * 256 + b.
Proof.
  unfold is_byte. intros Ha Hb. unfold be16. rewrite lor_shift by lia. change (2 ^ 8) with 256.
  rewrite u16_small by lia. done.
Qed.

Lemma be32_value a b c d :
  is_byte a -> is_byte b -> is_byte c -> is_byte d -> be32 a b c d = ((a * 256 + b) * 256 + c) * 256 + d.
Proof.
  unfold is_byte. intros Ha Hb Hc Hd. unfold be32.
  rewrite u32_small by (rewrite Z.shiftl_mul_pow2 by lia; lia).
  replace (Z.shiftl a 24) with (Z.shiftl (Z.shiftl a 8) 16) by (by rewrite Z.shiftl_shiftl).
  rewrite <- Z.shiftl_lor, (lor_shift a b 8) by lia.
  set (ab := a * 2 ^ 8 + b). replace (Z.shiftl ab 16) with (Z.shiftl (Z.shiftl ab 8) 8) by (by rewrite Z.shiftl_shiftl).
  rewrite <- Z.shiftl_lor, (lor_shift ab c 8), lor_shift by lia. subst ab. lia.
Qed.

(** The value of a 16-bit word and of its complement. *)
Lemma complement_value v : 0 <= v <= 65535 -> u16 (Z.lnot v) = 65535 - v.
Proof. intros Hv. unfold u16, Z.lnot. change (2 ^ 16) with 65536. dlia. Qed.

Section checksum.
Context {W : Type}.
Implicit Types s : net W.

Lemma runs_byte_at frame i s Q : 0 <= i < zlen frame -> Q (zget 0 frame i) s -> runs (byte_at frame i) s Q.
Proof.
  intros Hi HQ. unfold byte_at. rewrite (proj2 (Z.leb_le 0 i)), (proj2 (Z.ltb_lt i (zlen frame))) by lia.
  by apply runs_ret.
Qed.

Lemma byte_at_out frame i s : ~ 0 <= i < zlen frame -> byte_at frame i s = None.
Proof. intros Hi. unfold byte_at. destruct (Z.leb_spec 0 i), (Z.ltb_spec i (zlen frame)); try done; lia. Qed.

Lemma zget_middle (pre l post : list Z) i :
  0 <= i < zlen l -> zget 0 (pre ++ l ++ post) (zlen pre + i) = zget 0 l i.
Proof.
  intros Hi. rewrite zget_app_r by lia. replace (zlen pre + i - zlen pre) with i by lia. by apply zget_app_l.
Qed.

(** What the word loop leaves: nothing, or one byte of the frame. *)
Definition words_left (frame : list Z) (t : Z) (rest : Z * Z * Z) : Prop :=
  let '(off, len, sum) := rest in
  (len = 0 /\ sum = t) \/
  (len = 1 /\ 0 <= off < zlen frame /\ is_byte (zget 0 frame off) /\ 0 <= sum /\ sum + zget 0 frame off * 256 = t).

Lemma checksum_words_end fuel pre l post sum s :
  Forall is_byte l -> zlen l <= 1 -> 0 <= sum ->
  runs (checksum_words fuel (pre ++ l ++ post) (zlen pre) (zlen l) sum) s
    (fun rest s' => s' = s /\ words_left (pre ++ l ++ post) (sum + word_total (words l)) rest).
Proof.
  intros Hl Hn H0. assert (E : checksum_words (W := W) fuel (pre ++ l ++ post) (zlen pre) (zlen l) sum = ret (zlen pre, zlen l, sum)).
  { destruct fuel; cbn [checksum_words]; by rewrite (proj2 (Z.ltb_ge 1 (zlen l))) by lia. }
  rewrite E. apply runs_ret. split; [done|]. destruct l as [|a [|b l]]; [by left; cbn; rewrite Z.add_0_r| |].
  - right. split; [done|]. inversion_clear Hl. pose proof (zget_middle pre [a] post 0) as Eg. rewrite Z.add_0_r in Eg.
    rewrite Eg by by unfold zlen. rewrite !zlen_app. pose proof (zlen_nonneg pre). pose proof (zlen_nonneg post).
    change (zget 0 [a] 0) with a. change (zlen [a]) with 1. cbn [words word_total foldr]. split_and!; try done; lia.
  - rewrite !zlen_cons in Hn. pose proof (zlen_nonneg l). lia.
Qed.

(** The words of [l], which the frame holds at [off]. *)
Lemma checksum_words_in fuel pre l post sum s :
  Forall is_byte l -> zlen l <= 2 * Z.of_nat fuel + 1 -> 0 <= sum -> sum + word_total (words l) < 2 ^ 32 ->
  runs (checksum_words fuel (pre ++ l ++ post) (zlen pre) (zlen l) sum) s
    (fun rest s' => s' = s /\ words_left (pre ++ l ++ post) (sum + word_total (words l)) rest).
Proof.
  revert pre l sum. induction fuel as [|fuel IH]; intros pre l sum Hl Hf H0 Hs; [by apply checksum_words_end|].
  destruct l as [|a [|b l]]; [by apply checksum_words_end..|].
  inversion_clear Hl as [|?? Ha Hl']. inversion_clear Hl' as [|?? Hb Hl].
  pose proof (zlen_nonneg l). pose proof (zlen_nonneg pre). pose proof (zlen_nonneg post).
  pose proof (total_bounds _ (words_bounded l Hl)). cbn [words word_total foldr] in Hs |- *. fold (word_total (words l)) in Hs |- *.
  assert (En : zlen (a :: b :: l) = zlen l + 2) by (rewrite !zlen_cons; lia). cbn [checksum_words]. rewrite En in Hf |- *.
  rewrite (proj2 (Z.ltb_lt 1 (zlen l + 2))) by lia.
  apply runs_bind, runs_byte_at; [rewrite !zlen_app; lia|].
  apply runs_bind, runs_byte_at; [rewrite !zlen_app; lia|].
  pose proof (zget_middle pre (a :: b :: l) post 0 ltac:(lia)) as G0. rewrite Z.add_0_r in G0.
  rewrite G0, (zget_middle pre (a :: b :: l) post 1 ltac:(lia)). change (zget 0 (a :: b :: l) 0) with a. change (zget 0 (a :: b :: l) 1) with b.
  rewrite be16_value by done. unfold is_byte in Ha, Hb. rewrite u32_small by lia.
  replace (zlen l + 2 - 2) with (zlen l) by lia. replace (zlen pre + 2) with (zlen (pre ++ [a; b])) by (rewrite zlen_app; done).
  replace (pre ++ (a :: b :: l) ++ post) with ((pre ++ [a; b]) ++ l ++ post) by (by rewrite <- app_assoc).
  replace (sum + (a * 256 + b + word_total (words l))) with (sum + (a * 256 + b) + word_total (words l)) by lia.
  apply IH; lia || done.
Qed.

(** Inside the frame the result is the complement of the one's-complement sum. *)
Lemma checksum16_runs frame off len s Q :
  Forall is_byte frame -> 0 <= off -> 0 <= len <= 131072 -> off + len <= zlen frame ->
  Q (65535 - internet_sum (frame_slice frame off len)) s ->
  runs (ipv4_checksum16 frame off len) s Q.
Proof.
  intros Hb Ho Hn Hf HQ. set (l := frame_slice frame off len) in *.
  set (pre := take (Z.to_nat off) frame). set (post := drop (Z.to_nat len) (drop (Z.to_nat off) frame)).
  assert (Ef : frame = pre ++ l ++ post) by (unfold pre, l, post, frame_slice; by rewrite !take_drop).
  assert (Hpre : zlen pre = off) by (apply zlen_take; lia).
  assert (Hl : zlen l = len).
  { unfold l, frame_slice. apply zlen_take. unfold zlen in *. rewrite length_drop. lia. }
  assert (Hlb : Forall is_byte l) by (by apply Forall_take, Forall_drop).
  pose proof (total_bounds _ (words_bounded l Hlb)) as Ht. pose proof (words_len l) as Hw.
  pose proof (residue_internet l Hlb) as Hres.
  unfold ipv4_checksum16. apply runs_bind. rewrite Ef at 2. rewrite <- Hpre, <- Hl at 1.
  eapply runs_mono; [apply checksum_words_in; try done; try lia|].
  { unfold zlen in *. lia. }
  rewrite <- Ef. intros [[off' len'] sum] ? [-> Hleft]. rewrite Z.add_0_l in Hleft. cbn beta iota.
  assert (Hfin : forall t, t = word_total (words l) -> Q (u16 (Z.lnot (fold_carries 3 t))) s).
  { intros t ->. pose proof (residue_fold (word_total (words l)) ltac:(lia)) as Hr.
    rewrite (residue_unique _ _ _ Hr Hres), complement_value by apply Hres. done. }
  apply runs_bind. destruct Hleft as [[-> ->]|(-> & Hoff & Hbyte & H0 & E)]; cbn [Z.ltb Z.compare].
  - apply runs_ret, runs_ret, Hfin. done.
  - apply runs_bind, runs_byte_at; [done|]. apply runs_ret, runs_ret, Hfin. unfold is_byte in Hbyte.
    rewrite Z.shiftl_mul_pow2 by lia. change (2 ^ 8) with 256. rewrite u16_small, u32_small by lia. done.
Qed.

(** A length that leaves the frame halts. *)
Lemma checksum_words_returns fuel frame off len sum s rest s' :
  0 <= off <= zlen frame -> 0 <= len -> checksum_words fuel frame off len sum s = Some (rest, s') ->
  s' = s /\ exists off' len' sum', rest = (off', len', sum') /\ off' + len' = off + len /\ 0 <= len' <= 1 /\ 0 <= off' <= zlen frame.
Proof.
  revert off len sum. induction fuel as [|fuel IH]; intros off len sum Ho Hn; cbn [checksum_words];
    (destruct (Z.ltb_spec 1 len); [|intros [= <- <-]; split; [done|]; exists off, len, sum; split_and!; lia || done]); [done|].
  unfold bind at 1. destruct (decide (off < zlen frame)); [|rewrite byte_at_out by lia; done].
  destruct (runs_elim (byte_at frame off) s (fun _ s' => s' = s)) as (a & ? & -> & ->); [apply runs_byte_at; [lia|done]|].
  unfold bind at 1. destruct (decide (off + 1 < zlen frame)); [|rewrite byte_at_out by lia; done].
  destruct (runs_elim (byte_at frame (off + 1)) s (fun _ s' => s' = s)) as (b & ? & -> & ->); [apply runs_byte_at; [lia|done]|].
  intros H'. apply IH in H' as (-> & off' & len' & sum' & -> & ? & ? & ?); [|lia..].
  split; [done|]. exists off', len', sum'. split_and!; lia || done.
Qed.

Lemma checksum16_overrun frame off len s :
  0 <= off <= zlen frame -> 0 <= len -> zlen frame < off + len -> ipv4_checksum16 frame off len s = None.
Proof.
  intros Ho Hn Hf. unfold ipv4_checksum16, bind at 1.
  destruct (checksum_words _ frame off len 0 s) as [[rest s']|] eqn:E; [|done].
  destruct (checksum_words_returns _ _ _ _ _ _ _ _ Ho Hn E) as (-> & off' & len' & sum' & -> & ? & ? & ?).
  cbn beta iota. unfold bind at 1. rewrite (proj2 (Z.ltb_lt 0 len')) by lia.
  unfold bind at 1. by rewrite byte_at_out by lia.
Qed.

End checksum.
