(* ===== verification/NetProps.v ===== *)
(** * ARP and IPv4 frames: lemmas

    What the frame handlers of [Net] read and write: the fields of a received frame, the
    packets they build, and when they return at all. *)
From S2P Require Import Prelude Arrays Klib VmArea Net NetChecksum.
From Stdlib Require Import ZArith Lia ZifyBool Bool.
From stdpp Require Import base numbers list.
Local Open Scope Z_scope.
Local Open Scope kernel_scope.

(** ** Fields *)

Definition get16 (frame : list Z) (off : Z) : Z := be16 (zget 0 frame off) (zget 0 frame (off + 1)).
Definition get32 (frame : list Z) (off : Z) : Z :=
  be32 (zget 0 frame off) (zget 0 frame (off + 1)) (zget 0 frame (off + 2)) (zget 0 frame (off + 3)).

(** The bytes of an address, the most significant first. *)
Definition ip_bytes (ip : Z) : list Z :=
  [u8 (Z.land (Z.shiftr ip 24) 0xFF); u8 (Z.land (Z.shiftr ip 16) 0xFF); u8 (Z.land (Z.shiftr ip 8) 0xFF); u8 (Z.land ip 0xFF)].

(** An ARP packet for Ethernet and IPv4 in its frame. *)
Definition arp_packet (dst src : list Z) (op : Z) (sha : list Z) (spa : Z) (tha : list Z) (tpa : Z) : list Z :=
  dst ++ src ++ [8; 6; 0; 1; 8; 0; 6; 4; 0; op] ++ sha ++ ip_bytes spa ++ tha ++ ip_bytes tpa.

Lemma land_ff a : Z.land a 0xFF = a mod 256.
Proof. change 0xFF with (Z.ones 8). by rewrite Z.land_ones. Qed.

Lemma u8_byte a : is_byte (u8 a).
Proof. apply u8_range. Qed.

Lemma u8_land a : u8 (Z.land a 0xFF) = a mod 256.
Proof. rewrite land_ff. apply u8_small. dlia. Qed.

Lemma be32_bytes ip :
  0 <= ip < 2 ^ 32 ->
  be32 (u8 (Z.land (Z.shiftr ip 24) 0xFF)) (u8 (Z.land (Z.shiftr ip 16) 0xFF)) (u8 (Z.land (Z.shiftr ip 8) 0xFF)) (u8 (Z.land ip 0xFF)) = ip.
Proof.
  intros H. rewrite be32_value by apply u8_byte. rewrite !u8_land, !Z.shiftr_div_pow2 by lia.
  change (2 ^ 24) with 16777216. change (2 ^ 16) with 65536. change (2 ^ 8) with 256. dlia.
Qed.

Lemma be16_bytes v : 0 <= v < 65536 -> be16 (u8 (Z.shiftr v 8)) (u8 (Z.land v 0xFF)) = v.
Proof.
  intros H. rewrite be16_value by apply u8_byte. rewrite u8_land, Z.shiftr_div_pow2 by lia.
  change (2 ^ 8) with 256. rewrite u8_small by dlia. dlia.
Qed.

(** Six bytes of a frame. *)
Lemma slice6 frame off :
  0 <= off -> off + 6 <= zlen frame ->
  frame_slice frame off 6 = [zget 0 frame off; zget 0 frame (off + 1); zget 0 frame (off + 2);
                             zget 0 frame (off + 3); zget 0 frame (off + 4); zget 0 frame (off + 5)].
Proof.
  intros Ho Hl. assert (Hn : zlen (frame_slice frame off 6) = 6).
  { apply zlen_take. unfold zlen in *. rewrite length_drop. lia. }
  apply (zlist_eq 0); [done|]. rewrite Hn. intros k Hk. unfold frame_slice. rewrite zget_take by done.
  assert (E : zget 0 (drop (Z.to_nat off) frame) k = zget 0 frame (off + k)).
  { unfold zget. rewrite lookup_drop. f_equal. f_equal. lia. }
  rewrite E. assert (k = 0 \/ k = 1 \/ k = 2 \/ k = 3 \/ k = 4 \/ k = 5) as Hc by lia.
  destruct Hc as [->|[->|[->|[->|[->| ->]]]]]; try done. by rewrite Z.add_0_r.
Qed.

Lemma six_bytes (mac : list Z) :
  zlen mac = 6 -> mac = [zget 0 mac 0; zget 0 mac 1; zget 0 mac 2; zget 0 mac 3; zget 0 mac 4; zget 0 mac 5].
Proof.
  destruct mac as [|a [|b [|c [|d [|e [|f [|g mac]]]]]]]; unfold zlen; cbn [length]; try lia. done.
Qed.

Section reads.
Context {W : Type}.
Implicit Types s : net W.

Lemma runs_read16 frame off s Q :
  0 <= off -> off + 2 <= zlen frame -> Q (get16 frame off) s -> runs (read_u16_be frame off) s Q.
Proof.
  intros. unfold read_u16_be. do 2 (apply runs_bind, runs_byte_at; [lia|]). by apply runs_ret.
Qed.

Lemma runs_read32 frame off s Q :
  0 <= off -> off + 4 <= zlen frame -> Q (get32 frame off) s -> runs (read_u32_be frame off) s Q.
Proof.
  intros. unfold read_u32_be. do 4 (apply runs_bind, runs_byte_at; [lia|]). by apply runs_ret.
Qed.

Lemma runs_read_mac frame off s Q :
  0 <= off -> off + 6 <= zlen frame -> Q (frame_slice frame off 6) s -> runs (read_mac frame off) s Q.
Proof.
  intros Ho Hl HQ. unfold read_mac. change (up_to 0 6 1) with [0; 1; 2; 3; 4; 5]. cbn [for_acc].
  do 6 (apply runs_bind, runs_bind, runs_byte_at; [lia|]; apply runs_ret).
  apply runs_ret. rewrite slice6 in HQ by done. rewrite Z.add_0_r. exact HQ.
Qed.

End reads.

(** ** ARP *)

Lemma arp_request_packet mac sender target :
  zlen mac = 6 -> arp_request mac sender target = arp_packet (replicate 6 0xFF) mac 1 mac sender (replicate 6 0) target.
Proof. intros ->%six_bytes. reflexivity. Qed.

Section arp.
Context {W : Type} (o : environment W).
Implicit Types s : net W.

(** The frame with which the host answers. *)
Definition arp_answer (s : net W) (frame : list Z) : list Z :=
  let mac := nic_mac o (n_world s) in
  arp_packet (frame_slice frame 6 6) mac 2 mac (cfg_ip (n_config s)) (frame_slice frame 22 6) (get32 frame 28).

(** The world after a line about [ip] in the log. *)
Definition arp_logged (ip : Z) (w : W) : W :=
  if ext2_is_read_only o w then w
  else let '(size, w) := ext2_stat o ARP_LOG_PATH w in ext2_write_at_path o ARP_LOG_PATH size (arp_log_line ip) w.

(** The answer has gone out and is in the log. *)
Definition arp_answered (s : net W) (frame : list Z) : net W :=
  set_world (arp_logged (get32 frame 28) (snd (nic_send o (arp_answer s frame) (n_world s)))) s.

Definition arp_well_formed (frame : list Z) : bool :=
  (get16 frame 12 =? ARP_ETHERTYPE) && (get16 frame 14 =? ARP_HTYPE_ETHERNET) && (get16 frame 16 =? ARP_PTYPE_IPV4)
  && (zget 0 frame 18 =? 6) && (zget 0 frame 19 =? 4).

(** What a received ARP frame does. *)
Definition arp_effect (frame : list Z) (s : net W) : bool * net W :=
  if negb (arp_well_formed frame) then (false, s)
  else if get16 frame 20 =? ARP_OP_REPLY then
    (true, set_cache (ArpCache true (get32 frame 38) (get32 frame 28) (frame_slice frame 22 6)) s)
  else if (get16 frame 20 =? ARP_OP_REQUEST) && configured (n_config s) && (get32 frame 38 =? cfg_ip (n_config s)) then
    (true, arp_answered s frame)
  else (false, s).

Lemma arp_reply_runs frame s Q :
  42 <= zlen frame -> zlen (nic_mac o (n_world s)) = 6 ->
  Q tt (set_world (snd (nic_send o (arp_answer s frame) (n_world s))) s) ->
  runs (arp_reply o frame) s Q.
Proof.
  intros Hl Hm HQ. unfold arp_reply. apply runs_bind, runs_gets, runs_bind, runs_gets.
  change (up_to 0 6 1) with [0; 1; 2; 3; 4; 5]. cbn [for_acc].
  apply runs_bind. do 6 (apply runs_bind, runs_bind, runs_byte_at; [lia|]; apply runs_ret). apply runs_ret. cbv beta zeta.
  apply runs_bind. do 6 (apply runs_bind, runs_bind, runs_byte_at; [lia|]; apply runs_ret). apply runs_ret.
  apply runs_bind, runs_read32; [lia..|]. apply runs_bind, runs_lift. cbv beta zeta.
  match goal with |- context [nic_send o ?f] => assert (Ef : f = arp_answer s frame) end.
  { unfold arp_answer. rewrite !slice6 by lia. clear HQ. revert Hm. generalize (nic_mac o (n_world s)).
    intros mac Hm. rewrite (six_bytes mac Hm). reflexivity. }
  rewrite Ef. destruct (nic_send o _ _). by apply runs_ret.
Qed.
Lemma arp_handle_runs frame s Q :
  zlen (nic_mac o (n_world s)) = 6 ->
  (zlen frame < 42 -> Q false s) ->
  (42 <= zlen frame -> Q (fst (arp_effect frame s)) (snd (arp_effect frame s))) ->
  runs (arp_handle_frame o frame (zlen frame)) s Q.
Proof.
  intros Hm Hshort HQ. unfold arp_handle_frame. change ARP_FRAME_SIZE with 42.
  destruct (Z.ltb_spec (zlen frame) 42) as [Hl|Hl]; [by apply runs_ret, Hshort|]. specialize (HQ Hl). clear Hshort.
  unfold arp_effect, arp_well_formed in HQ.
  apply runs_bind, runs_read16; [lia..|]. destruct (get16 frame 12 =? _); [|by apply runs_ret].
  apply runs_bind, runs_read16; [lia..|]. destruct (get16 frame 14 =? _); [|by apply runs_ret].
  apply runs_bind, runs_read16; [lia..|]. destruct (get16 frame 16 =? _); [|by apply runs_ret].
  do 2 (apply runs_bind, runs_byte_at; [lia|]).
  destruct (zget 0 frame 18 =? 6); [|by apply runs_ret]. destruct (zget 0 frame 19 =? 4); [|by apply runs_ret].
  cbn [negb andb orb] in HQ |- *. apply runs_bind, runs_read16; [lia..|]. destruct (get16 frame 20 =? ARP_OP_REPLY).
  - do 2 (apply runs_bind, runs_read32; [lia..|]). apply runs_bind, runs_read_mac; [lia..|].
    apply runs_bind, runs_modify. by apply runs_ret.
  - destruct (get16 frame 20 =? ARP_OP_REQUEST); [|by apply runs_ret]. cbn [negb].
    apply runs_bind, runs_gets, runs_bind, runs_read32; [lia..|]. apply runs_bind, runs_gets.
    destruct (configured _); [|by apply runs_ret]. destruct (get32 frame 38 =? _); [|by apply runs_ret].
    cbn [negb andb orb fst snd] in HQ |- *. apply runs_bind, (arp_reply_runs _ _ _ Hl Hm).
    apply runs_bind, runs_read32; [lia..|]. apply runs_bind. unfold arp_log_reply. apply runs_bind, runs_gets.
    unfold arp_answered, arp_logged in HQ. cbn [set_world n_world]. destruct (ext2_is_read_only o _); [by apply runs_ret, runs_ret|].
    apply runs_bind, runs_lift. cbn [set_world n_world]. destruct (ext2_stat o _ _) as [size w].
    cbn [fst snd]. apply runs_modify. by apply runs_ret.
Qed.

End arp.

(** ** Echo replies *)

Definition header_len (frame : list Z) : Z := Z.land (zget 0 frame 14) 0x0F * 4.

(** The tests up to the header checksum: the frame is an ICMP echo reply for [sender] from
    [target], with a valid IPv4 header. *)
Definition echo_header (frame : list Z) (sender target : Z) : bool :=
  (42 <=? zlen frame) && (get16 frame 12 =? IPV4_ETHERTYPE) &&
  (20 <=? header_len frame) && (14 + header_len frame + 8 <=? zlen frame) &&
  (zget 0 frame 23 =? IPV4_PROTO_ICMP) && (get32 frame 26 =? target) && (get32 frame 30 =? sender) &&
  (zget 0 frame (14 + header_len frame) =? IPV4_ECHO_REPLY) &&
  (internet_sum (frame_slice frame 14 (header_len frame)) =? 65535).

(** The datagram claims to be shorter than its header. *)
Definition echo_overrun (frame : list Z) (sender target : Z) : bool :=
  echo_header frame sender target && (get16 frame 16 <? header_len frame).

Definition echo_accepted (frame : list Z) (sender target ident seq : Z) : bool :=
  let hl := header_len frame in
  echo_header frame sender target && (hl <=? get16 frame 16) &&
  (internet_sum (frame_slice frame (14 + hl) (Z.min (get16 frame 16) (zlen frame - 14) - hl)) =? 65535) &&
  (get16 frame (14 + hl + 4) =? ident) && (get16 frame (14 + hl + 6) =? seq).

Lemma get16_range frame off : 0 <= get16 frame off < 65536.
Proof. unfold get16, be16, u16. change (2 ^ 16) with 65536. dlia. Qed.

Lemma land_0f b : 0 <= Z.land b 0x0F < 16.
Proof. change 0x0F with (Z.ones 4). rewrite Z.land_ones by lia. change (2 ^ 4) with 16. dlia. Qed.

(** The rest of a computation halts. *)
Lemma halts_bind {S A B} (m : M S A) (f : A -> M S B) s :
  runs m s (fun a s' => f a s' = None) -> bind m f s = None.
Proof. unfold runs, bind. by destruct (m s) as [[]|]. Qed.

Lemma halts_first {S A B} (m : M S A) (f : A -> M S B) s : m s = None -> bind m f s = None.
Proof. unfold bind. by intros ->. Qed.

Section echo.
Context {W : Type}.
Implicit Types s : net W.

(** A step of the parser: the branch that does not return [false] gives the next test. *)
Ltac next_test := apply runs_bind; first [apply runs_byte_at|apply runs_read16|apply runs_read32]; [lia..|].

Lemma echo_reply_runs frame sender target ident seq s Q :
  Forall is_byte frame -> zlen frame <= NET_MAX_FRAME ->
  echo_overrun frame sender target = false ->
  Q (echo_accepted frame sender target ident seq) s ->
  runs (ipv4_parse_echo_reply frame (zlen frame) sender target ident seq) s Q.
Proof.
  change NET_MAX_FRAME with 1600. intros Hb Hmax Hov HQ. unfold ipv4_parse_echo_reply, echo_overrun, echo_accepted, echo_header in *.
  pose proof (land_0f (zget 0 frame 14)) as H4. pose proof (get16_range frame 16) as H16.
  destruct (Z.ltb_spec (zlen frame) 42); [rewrite (proj2 (Z.leb_gt 42 (zlen frame))) in HQ by lia; by apply runs_ret|].
  rewrite (proj2 (Z.leb_le 42 (zlen frame))) in Hov, HQ by lia. cbn [andb] in Hov, HQ.
  next_test. destruct (get16 frame 12 =? _); [|by apply runs_ret]. cbn [andb negb] in Hov, HQ |- *.
  next_test. rewrite u8_small by lia. fold (header_len frame) in *.
  assert (Eh : (Z.land (zget 0 frame 14) 15 <? 5) = negb (20 <=? header_len frame)) by (unfold header_len; lia).
  rewrite Eh. destruct (Z.leb_spec 20 (header_len frame)); [|by apply runs_ret]. cbn [andb negb orb] in Hov, HQ |- *.
  rewrite Z.ltb_antisym. destruct (Z.leb_spec (14 + header_len frame + 8) (zlen frame)); [|by apply runs_ret].
  assert (header_len frame <= 60) by (unfold header_len; lia). cbn [andb negb orb] in Hov, HQ |- *.
  next_test. next_test. destruct (_ =? IPV4_PROTO_ICMP); [|by apply runs_ret]. cbn [andb negb] in Hov, HQ |- *.
  next_test. destruct (get32 frame 26 =? _); [|by apply runs_ret]. cbn [andb negb] in Hov, HQ |- *.
  next_test. destruct (get32 frame 30 =? _); [|by apply runs_ret]. cbn [andb negb] in Hov, HQ |- *.
  next_test. destruct (_ =? IPV4_ECHO_REPLY); [|by apply runs_ret]. cbn [andb negb] in Hov, HQ |- *.
  apply runs_bind, checksum16_runs; [done|lia..|].
  replace (65535 - internet_sum (frame_slice frame 14 (header_len frame)) =? 0)
    with (internet_sum (frame_slice frame 14 (header_len frame)) =? 65535) by lia.
  destruct (internet_sum _ =? 65535); [|by apply runs_ret]. cbn [andb negb] in Hov, HQ |- *.
  rewrite (proj2 (Z.leb_le (header_len frame) (get16 frame 16))) in HQ by lia. cbn [andb] in HQ.
  assert (Et : (if zlen frame <? get16 frame 16 + 14 then u16 (zlen frame - 14) else get16 frame 16) = Z.min (get16 frame 16) (zlen frame - 14)).
  { destruct (Z.ltb_spec (zlen frame) (get16 frame 16 + 14)); [rewrite u16_small by lia|]; lia. }
  rewrite Et, u32_small by lia. apply runs_bind, checksum16_runs; [done|lia..|].
  set (l := frame_slice _ _ _) in *. replace (65535 - internet_sum l =? 0) with (internet_sum l =? 65535) by lia.
  destruct (internet_sum l =? 65535); [|by apply runs_ret]. cbn [andb negb] in HQ |- *.
  next_test. destruct (_ =? ident); [|by apply runs_ret]. cbn [andb negb] in HQ |- *.
  next_test. destruct (_ =? seq); by apply runs_ret.
Qed.

Lemma echo_reply_overrun frame sender target ident seq s :
  Forall is_byte frame -> zlen frame <= NET_MAX_FRAME ->
  echo_overrun frame sender target = true ->
  ipv4_parse_echo_reply frame (zlen frame) sender target ident seq s = None.
Proof.
  change NET_MAX_FRAME with 1600. intros Hb Hmax. unfold echo_overrun, echo_header. rewrite !andb_true_iff.
  intros [[[[[[[[[Hlen He] H20] Hfit] Hp] Hsrc] Hdst] Hty] Hsum] Hov].
  pose proof (land_0f (zget 0 frame 14)) as H4. pose proof (get16_range frame 16) as H16.
  assert (header_len frame <= 60) by (unfold header_len; lia). unfold ipv4_parse_echo_reply.
  rewrite (proj2 (Z.ltb_ge (zlen frame) 42)) by lia.
  apply halts_bind, runs_read16; [lia..|]. rewrite He. cbn [negb].
  apply halts_bind, runs_byte_at; [lia|]. rewrite u8_small by lia. fold (header_len frame).
  rewrite (proj2 (Z.ltb_ge (Z.land (zget 0 frame 14) 15) 5)) by (unfold header_len in *; lia).
  rewrite (proj2 (Z.ltb_ge (zlen frame) (14 + header_len frame + 8))) by lia. cbn [orb].
  apply halts_bind, runs_read16; [lia..|]. apply halts_bind, runs_byte_at; [lia|]. rewrite Hp. cbn [negb].
  apply halts_bind, runs_read32; [lia..|]. rewrite Hsrc. cbn [negb].
  apply halts_bind, runs_read32; [lia..|]. rewrite Hdst. cbn [negb].
  apply halts_bind, runs_byte_at; [lia|]. rewrite Hty. cbn [negb].
  apply halts_bind, checksum16_runs; [done|lia..|]. apply Z.eqb_eq in Hsum. rewrite Hsum. cbn [Z.sub Z.eqb negb].
  rewrite (proj2 (Z.ltb_ge (zlen frame) (get16 frame 16 + 14))) by lia.
  cbv beta iota zeta. apply halts_first, checksum16_overrun; [lia|apply u32_range|]. unfold u32. dlia.
Qed.

End echo.

(** ** The echo handler *)

(** The ping that the awaited answer has reached. *)
Definition answered (p : ping) : ping := Ping (ping_waiting p) true (ping_sender_ip p) (ping_target_ip p) (ping_ident p) (ping_seq p).

(** The frame takes the parser out of its bounds. *)
Definition overruns (p : ping) (frame : list Z) : bool :=
  ping_waiting p && echo_overrun frame (ping_sender_ip p) (ping_target_ip p).

(** The frame is the answer to the awaited ping. *)
Definition answers (p : ping) (frame : list Z) : bool :=
  ping_waiting p && echo_accepted frame (ping_sender_ip p) (ping_target_ip p) (ping_ident p) (ping_seq p).

(** The ping variables after the frame. *)
Definition heard (p : ping) (frame : list Z) : ping := if answers p frame then answered p else p.

Lemma set_ping_same {W} (s : net W) : set_ping (n_ping s) s = s.
Proof. by destruct s. Qed.

(** The handler on a frame it can read. *)
Lemma handle_frame_eq {W} frame (s : net W) :
  Forall is_byte frame -> zlen frame <= NET_MAX_FRAME -> overruns (n_ping s) frame = false ->
  ipv4_handle_frame frame (zlen frame) s = Some (answers (n_ping s) frame, set_ping (heard (n_ping s) frame) s).
Proof.
  intros Hb Hm Hov.
  assert (runs (ipv4_handle_frame frame (zlen frame)) s (fun r s' =>
    r = answers (n_ping s) frame /\ s' = set_ping (heard (n_ping s) frame) s)) as R.
  { unfold ipv4_handle_frame, heard, answers, overruns in *. apply runs_bind, runs_gets.
    destruct (ping_waiting (n_ping s)) eqn:Ew; cbn [andb negb] in *; [|apply runs_ret; by rewrite set_ping_same].
    apply runs_bind, echo_reply_runs; [done..|].
    destruct (echo_accepted _ _ _ _ _); [by apply runs_bind, runs_modify, runs_ret|apply runs_ret; by rewrite set_ping_same]. }
  apply runs_elim in R as (r & s' & E & -> & ->). exact E.
Qed.

(** ** What a frame is for *)

Definition delivers_datagram (frame : list Z) : bool := datagram_fits (header_len frame) (get16 frame 16) (zlen frame).

(** The components that a frame is handed on to. *)
Inductive delivery :=
| ToNobody
| ToRaw (datagram : list Z) (src_ip : Z)
| ToTcp
| ToUdp (src_ip src_port dst_ip dst_port : Z) (data : list Z)
| ToServices.

Definition delivery_of (frame : list Z) : delivery :=
  let udp_off := 14 + header_len frame in
  let udp_len := get16 frame (udp_off + 4) in
  if negb ((get16 frame 12 =? IPV4_ETHERTYPE) && (34 <=? zlen frame)) then ToNobody
  else if zget 0 frame 23 =? IPV4_PROTO_ICMP then
    if delivers_datagram frame then ToRaw (frame_slice frame 14 (get16 frame 16)) (get32 frame 26) else ToNobody
  else if zget 0 frame 23 =? NET_IPV4_PROTO_TCP then ToTcp
  else if zget 0 frame 23 =? NET_IPV4_PROTO_UDP then
    if delivers_datagram frame && (8 <=? udp_len) && (udp_off + udp_len <=? zlen frame)
    then ToUdp (get32 frame 26) (get16 frame udp_off) (get32 frame 30) (get16 frame (udp_off + 2))
           (frame_slice frame (udp_off + 8) (udp_len - 8))
    else ToServices
  else ToNobody.

(** [frame] is an IPv4 frame of the protocol, with a header of at least 20 bytes and at
    least 8 bytes of payload behind it, all of it received. *)
Definition whole_datagram (frame : list Z) (protocol : Z) : Prop :=
  get16 frame 12 = 0x0800 /\ zget 0 frame 23 = protocol /\
  20 <= header_len frame /\ header_len frame + 8 <= get16 frame 16 /\ 14 + get16 frame 16 <= zlen frame.

(** The datagram is the part of the frame between the Ethernet header and the padding. *)
Definition raw_datagram (frame datagram : list Z) (src_ip : Z) : Prop :=
  whole_datagram frame 1 /\ src_ip = get32 frame 26 /\
  exists ethernet padding, frame = ethernet ++ datagram ++ padding /\ zlen ethernet = 14 /\ zlen datagram = get16 frame 16.

(** The data is the part of the frame behind the UDP header, as long as that header says. *)
Definition udp_datagram (frame : list Z) (src_ip src_port dst_ip dst_port : Z) (data : list Z) : Prop :=
  let udp_off := 14 + header_len frame in
  whole_datagram frame 17 /\ src_ip = get32 frame 26 /\ dst_ip = get32 frame 30 /\
  src_port = get16 frame udp_off /\ dst_port = get16 frame (udp_off + 2) /\
  exists headers rest, frame = headers ++ data ++ rest /\ zlen headers = udp_off + 8 /\ zlen data = get16 frame (udp_off + 4) - 8.

(** A slice inside of the frame is the part of it at that place. *)
Lemma slice_part (frame l : list Z) off len :
  0 <= off -> 0 <= len -> off + len <= zlen frame ->
  l = frame_slice frame off len <-> exists pre post, frame = pre ++ l ++ post /\ zlen pre = off /\ zlen l = len.
Proof.
  intros Ho Hl Hf. split.
  - intros ->. exists (take (Z.to_nat off) frame), (drop (Z.to_nat len) (drop (Z.to_nat off) frame)).
    unfold frame_slice. rewrite !take_drop. split; [done|]. unfold zlen in *. rewrite !length_take, length_drop. lia.
  - intros (pre & post & -> & <- & <-). unfold frame_slice, zlen. rewrite !Nat2Z.id, drop_app_length. by rewrite take_app_length.
Qed.

Lemma delivers_whole frame : delivers_datagram frame = true <->
  20 <= header_len frame /\ header_len frame + 8 <= get16 frame 16 /\ 14 + get16 frame 16 <= zlen frame.
Proof. unfold delivers_datagram, datagram_fits. lia. Qed.

Lemma delivery_raw frame d ip : delivery_of frame = ToRaw d ip <-> raw_datagram frame d ip.
Proof.
  pose proof (get16_range frame 16) as H16. unfold raw_datagram, whole_datagram, delivery_of. cbv zeta. rewrite <- delivers_whole.
  change IPV4_ETHERTYPE with 0x0800. change IPV4_PROTO_ICMP with 1. pose proof (delivers_whole frame) as Hd.
  destruct (Z.eqb_spec (get16 frame 12) 0x0800); cbn [andb negb]; [|split; [done|by intros ((? & _) & _)]].
  destruct (Z.eqb_spec (zget 0 frame 23) 1); [|split; [by repeat case_match|by intros ((_ & ? & _) & _)]].
  destruct (delivers_datagram frame) eqn:Ed.
  2:{ split; [by repeat case_match|by intros ((_ & _ & ?) & _)]. }
  destruct (proj1 Hd eq_refl) as (H1 & H2 & H3). rewrite (proj2 (Z.leb_le 34 (zlen frame))) by lia. cbn [negb].
  rewrite <- (slice_part frame d 14 (get16 frame 16)) by lia. split; [intros [= <- <-]; by split_and!|]. by intros (_ & -> & ->).
Qed.

Lemma delivery_udp frame a b c e data : delivery_of frame = ToUdp a b c e data <-> udp_datagram frame a b c e data.
Proof.
  pose proof (get16_range frame 16) as H16. unfold udp_datagram, whole_datagram, delivery_of. cbv zeta. rewrite <- delivers_whole.
  change IPV4_ETHERTYPE with 0x0800. change NET_IPV4_PROTO_UDP with 17. pose proof (delivers_whole frame) as Hd.
  destruct (Z.eqb_spec (get16 frame 12) 0x0800); cbn [andb negb]; [|split; [done|by intros ((? & _) & _)]].
  destruct (Z.eqb_spec (zget 0 frame 23) 17) as [Ep|]; [|split; [by repeat case_match|by intros ((_ & ? & _) & _)]].
  rewrite Ep. change (17 =? IPV4_PROTO_ICMP) with false. change (17 =? NET_IPV4_PROTO_TCP) with false. cbv iota.
  destruct (delivers_datagram frame) eqn:Ed; cbn [andb].
  2:{ split; [by repeat case_match|by intros ((_ & _ & ?) & _)]. }
  destruct (proj1 Hd eq_refl) as (H1 & H2 & H3). rewrite (proj2 (Z.leb_le 34 (zlen frame))) by lia. cbn [negb].
  set (off := 14 + header_len frame) in *. set (n := get16 frame (off + 4)).
  destruct ((8 <=? n) && (off + n <=? zlen frame)) eqn:Ef.
  - rewrite <- (slice_part frame data (off + 8) (n - 8)) by lia. split; [intros [= <- <- <- <- <-]; by split_and!|]. by intros (_ & -> & -> & -> & -> & ->).
  - split; [done|]. intros (_ & _ & _ & _ & _ & pre & post & E & E1 & E2). exfalso. fold n in E2.
    assert (zlen frame = zlen pre + (zlen data + zlen post)) by (rewrite E at 1; by rewrite !zlen_app).
    pose proof (zlen_nonneg data). pose proof (zlen_nonneg post). lia.
Qed.

(** ** Polling *)

(** [s_arp_cache_mac] is an array of six bytes. *)
Definition mac_ok (mac : list Z) : Prop := zlen mac = 6 /\ Forall is_byte mac.

Definition cache_ok {W} (s : net W) : Prop := mac_ok (cache_mac (n_cache s)).

(** The poll lock is still held, and the ARP cache, which is private to [arp.c] and
    written by the holder of the lock only, is as it was. *)
Definition lock_kept {W} (s s' : net W) : Prop := n_poll_locked s' = true /\ n_cache s' = n_cache s.

(** A received IPv4 frame. *)
Definition datagram_frame_ok (frame : list Z) : Prop := Forall is_byte frame /\ 34 <= zlen frame <= NET_MAX_FRAME.

(** What the network code relies on: the card gives byte strings that fit the receive
    buffer; the other components, which are called with the poll lock held, return and
    do not release the lock; waiting for an interrupt ends. *)
Class NetworkLaws {W} (o : environment W) := {
  mac_len : forall w, zlen (nic_mac o w) = 6;
  mac_bytes : forall w, Forall is_byte (nic_mac o w);
  recv_frame : forall w frame w', nic_recv o w = (Some frame, w') -> Forall is_byte frame /\ zlen frame <= NET_MAX_FRAME;
  icmp_runs : forall datagram ip s, n_poll_locked s = true ->
    runs (socket_raw_icmp_deliver o datagram ip) s (fun _ s' => lock_kept s s');
  udp_runs : forall src sport dst dport data s, n_poll_locked s = true ->
    runs (socket_udp_deliver o src sport dst dport data) s (fun _ s' => lock_kept s s');
  tcp_runs : forall frame s, n_poll_locked s = true -> datagram_frame_ok frame ->
    runs (tcp_handle_ipv4_frame o frame) s (fun _ s' => lock_kept s s');
  dhcp_runs : forall frame s, n_poll_locked s = true -> datagram_frame_ok frame ->
    runs (dhcp_handle_ipv4_frame o frame) s (fun _ s' => lock_kept s s');
  ntp_runs : forall frame s, n_poll_locked s = true -> datagram_frame_ok frame ->
    runs (ntp_handle_ipv4_frame o frame) s (fun _ s' => lock_kept s s');
  wait_runs : forall s, runs (wait_interrupt o) s (fun _ s' => cache_ok s -> cache_ok s')
}.

(** The ARP cache after the frame. *)
Definition learned (c : arp_cache) (frame : list Z) : arp_cache :=
  if (42 <=? zlen frame) && arp_well_formed frame && (get16 frame 20 =? ARP_OP_REPLY) then
    ArpCache true (get32 frame 38) (get32 frame 28) (frame_slice frame 22 6)
  else c.

Lemma learned_other c frame : (get16 frame 12 =? ARP_ETHERTYPE) && (42 <=? zlen frame) = false -> learned c frame = c.
Proof. unfold learned, arp_well_formed. intros E. destruct (_ && _) eqn:E' in |- *; [|done]. exfalso. lia. Qed.

Lemma learned_ok c frame : Forall is_byte frame -> mac_ok (cache_mac c) -> mac_ok (cache_mac (learned c frame)).
Proof.
  intros Hb Hc. unfold learned. destruct (_ && _) eqn:E; [|done]. split; [|by apply Forall_take, Forall_drop].
  apply zlen_take. unfold zlen in *. rewrite length_drop. lia.
Qed.

(** Only IPv4 frames with the ICMP protocol are echo replies. *)
Lemma heard_other p frame :
  (get16 frame 12 =? IPV4_ETHERTYPE) && (42 <=? zlen frame) && (zget 0 frame 23 =? IPV4_PROTO_ICMP) = false -> heard p frame = p.
Proof.
  unfold heard, answers, echo_accepted, echo_header. intros E. destruct (ping_waiting p && _) eqn:E'; [|done].
  exfalso. lia.
Qed.

(** A datagram that is handed to the sockets is long enough for the parser. *)
Lemma delivers_no_overrun p frame : delivers_datagram frame = true -> overruns p frame = false.
Proof. rewrite delivers_whole. unfold overruns, echo_overrun. intros H. destruct (ping_waiting p), (echo_header _ _ _); cbn; lia. Qed.

Section polling.
Context {W : Type} (o : environment W).
Implicit Types s : net W.

(** The services on UDP ports without a socket. *)
Definition serve (frame : list Z) : M (net W) unit :=
  handled <- dhcp_handle_ipv4_frame o frame ;;
  if negb handled then ntp_handle_ipv4_frame o frame else ret tt.

(** The frame is handed on. *)
Definition hand_on (frame : list Z) (d : delivery) : M (net W) unit :=
  match d with
  | ToNobody => ret tt
  | ToRaw datagram src_ip => socket_raw_icmp_deliver o datagram src_ip
  | ToTcp => tcp_handle_ipv4_frame o frame
  | ToUdp src_ip src_port dst_ip dst_port data =>
      delivered <- socket_udp_deliver o src_ip src_port dst_ip dst_port data ;;
      if negb delivered then serve frame else ret tt
  | ToServices => serve frame
  end.

(** What [arp.c] and [ipv4.c] themselves do with the frame. *)
Definition received (frame : list Z) (s : net W) : net W :=
  if (get16 frame 12 =? ARP_ETHERTYPE) && (42 <=? zlen frame) then snd (arp_effect o frame s)
  else set_ping (heard (n_ping s) frame) s.

Lemma received_other frame s :
  (get16 frame 12 =? ARP_ETHERTYPE) && (42 <=? zlen frame) = false ->
  (get16 frame 12 =? IPV4_ETHERTYPE) && (42 <=? zlen frame) && (zget 0 frame 23 =? IPV4_PROTO_ICMP) = false ->
  received frame s = s.
Proof. intros Ha He. unfold received. rewrite Ha, heard_other by done. apply set_ping_same. Qed.

Lemma received_effect frame s :
  n_ping (received frame s) = heard (n_ping s) frame /\ n_cache (received frame s) = learned (n_cache s) frame.
Proof.
  unfold received. destruct ((get16 frame 12 =? ARP_ETHERTYPE) && (42 <=? zlen frame)) eqn:E; [|by rewrite learned_other].
  apply andb_true_iff in E as [E1%Z.eqb_eq E2]. rewrite heard_other by (rewrite E1; done). unfold learned, arp_effect. rewrite E2.
  destruct (arp_well_formed frame), (get16 frame 20 =? ARP_OP_REPLY); cbn [andb negb]; repeat case_match; done.
Qed.

Context `{!NetworkLaws o}.

(** [s'] is the state after the frame, which other components have been given first. *)
Definition processed (frame : list Z) (s s' : net W) : Prop :=
  exists s1, hand_on frame (delivery_of frame) s = Some (tt, s1) /\ lock_kept s s1 /\ s' = received frame s1.

Lemma runs_frame_range frame off len s Q :
  0 <= off -> 0 <= len -> off + len <= zlen frame -> Q (frame_slice frame off len) s -> runs (frame_range frame off len) s Q.
Proof. intros. unfold frame_range. replace (_ && _) with true by lia. by apply runs_ret. Qed.

(** A component given the frame, and nothing else to do. *)
Lemma runs_component frame s (m : M (net W) unit) d :
  delivery_of frame = d -> hand_on frame d = m -> (forall s1, received frame s1 = s1) ->
  runs m s (fun _ s' => lock_kept s s') -> runs m s (fun _ s' => processed frame s s').
Proof.
  intros Ed Em Hr H. eapply runs_call; [exact H|]. intros [] s1 E Hk. exists s1. by rewrite Ed, Em, Hr.
Qed.

Lemma nobody_processed frame s :
  n_poll_locked s = true -> delivery_of frame = ToNobody -> (forall s1, received frame s1 = s1) -> processed frame s s.
Proof. intros Hl Ed Hr. exists s. by rewrite Ed, Hr. Qed.

Lemma receive_icmp_runs frame s :
  n_poll_locked s = true -> datagram_frame_ok frame -> overruns (n_ping s) frame = false ->
  get16 frame 12 = IPV4_ETHERTYPE -> zget 0 frame 23 = IPV4_PROTO_ICMP ->
  runs (net_receive_icmp o frame (zlen frame)) s (fun _ s' => processed frame s s').
Proof.
  intros Hl [Hb Hm] Hov He Hp. unfold net_receive_icmp. apply runs_bind, runs_byte_at; [lia|]. apply runs_bind, runs_read16; [lia..|].
  fold (header_len frame). fold (delivers_datagram frame).
  assert (Hd : delivery_of frame = if delivers_datagram frame then ToRaw (frame_slice frame 14 (get16 frame 16)) (get32 frame 26) else ToNobody).
  { unfold delivery_of. rewrite He, Hp, Z.eqb_refl, (proj2 (Z.leb_le 34 (zlen frame))) by lia. done. }
  assert (Hrest : forall s1, hand_on frame (delivery_of frame) s = Some (tt, s1) -> lock_kept s s1 -> overruns (n_ping s1) frame = false ->
    runs (ipv4_handle_frame frame (zlen frame) ;;; ret tt) s1 (fun _ s' => processed frame s s')).
  { intros s1 E1 Hk Ho. apply runs_bind. unfold runs at 1. rewrite handle_frame_eq by (done || lia). apply runs_ret.
    exists s1. split_and!; [done..|]. unfold received. by rewrite He. }
  apply runs_bind. destruct (delivers_datagram frame) eqn:Ed; rewrite Hd in Hrest; [|by apply runs_ret, Hrest].
  pose proof (proj1 (delivers_whole frame) Ed). apply runs_bind, runs_read32; [lia..|]. apply runs_bind, runs_frame_range; [lia..|].
  eapply runs_call; [by apply icmp_runs|]. intros [] s1 E1 Hk. apply Hrest; [done..|by apply delivers_no_overrun].
Qed.

Lemma serve_runs frame s :
  n_poll_locked s = true -> datagram_frame_ok frame -> runs (serve frame) s (fun _ s' => lock_kept s s').
Proof.
  intros Hl Hf. apply runs_bind. eapply runs_mono; [by apply dhcp_runs|]. intros [] s1 [H1 H2]; cbn [negb]; [by apply runs_ret|].
  eapply runs_mono; [by apply ntp_runs|]. unfold lock_kept. intros ? s2 [H3 H4]. split; congruence.
Qed.

Lemma receive_udp_runs frame s :
  n_poll_locked s = true -> datagram_frame_ok frame -> get16 frame 12 = IPV4_ETHERTYPE -> zget 0 frame 23 = NET_IPV4_PROTO_UDP ->
  runs (net_receive_udp o frame (zlen frame)) s (fun _ s' => processed frame s s').
Proof.
  intros Hl Hf He Hp. pose proof Hf as [Hb Hm].
  assert (Hr : forall s1, received frame s1 = s1) by (intros; apply received_other; rewrite He, ?Hp; [done|by rewrite andb_false_r]).
  unfold net_receive_udp. apply runs_bind, runs_byte_at; [lia|]. apply runs_bind, runs_read16; [lia..|].
  fold (header_len frame). fold (delivers_datagram frame). set (off := 14 + header_len frame). cbv zeta.
  assert (Hd : delivery_of frame = if delivers_datagram frame && (8 <=? get16 frame (off + 4)) && (off + get16 frame (off + 4) <=? zlen frame)
    then ToUdp (get32 frame 26) (get16 frame off) (get32 frame 30) (get16 frame (off + 2)) (frame_slice frame (off + 8) (get16 frame (off + 4) - 8))
    else ToServices).
  { unfold delivery_of. rewrite He, Hp, Z.eqb_refl, (proj2 (Z.leb_le 34 (zlen frame))) by lia. done. }
  pose proof (delivers_whole frame) as Hw. apply runs_bind.
  destruct (delivers_datagram frame); cbn [andb] in Hd; [|by apply runs_ret, (runs_component _ _ _ _ Hd), serve_runs].
  specialize (proj1 Hw eq_refl) as (H1 & H2 & H3). do 3 (apply runs_bind, runs_read16; [lia..|]).
  destruct (_ && _) eqn:Ef; [|by apply runs_ret, (runs_component _ _ _ _ Hd), serve_runs].
  do 2 (apply runs_bind, runs_read32; [lia..|]). apply runs_bind, runs_frame_range; [lia..|].
  eapply runs_call; [by apply udp_runs|]. intros delivered s1 E1 [K1 K2].
  assert (Hs : runs (if negb delivered then serve frame else ret tt) s1 (fun _ s' => lock_kept s s')).
  { destruct delivered; cbn [negb]; [by apply runs_ret|]. eapply runs_mono; [by apply serve_runs|].
    unfold lock_kept. intros ? s2 [K3 K4]. split; congruence. }
  eapply runs_call; [exact Hs|]. intros [] s2 E2 Hk. exists s2. rewrite Hr, Hd. split_and!; [|done..].
  cbn [hand_on]. unfold bind at 1. by rewrite E1.
Qed.

Lemma dispatch_runs frame s :
  n_poll_locked s = true -> Forall is_byte frame -> 14 <= zlen frame <= NET_MAX_FRAME -> overruns (n_ping s) frame = false ->
  runs (net_dispatch o frame (zlen frame)) s (fun _ s' => processed frame s s').
Proof.
  intros Hl Hb Hm Hov. unfold net_dispatch. apply runs_bind, runs_read16; [lia..|].
  change NET_ETHERTYPE_ARP with ARP_ETHERTYPE. change NET_ETHERTYPE_IPV4 with IPV4_ETHERTYPE. change NET_IPV4_PROTO_ICMP with IPV4_PROTO_ICMP.
  destruct (Z.eqb_spec (get16 frame 12) ARP_ETHERTYPE) as [Ea|Ea].
  { assert (Ed : delivery_of frame = ToNobody) by (unfold delivery_of; by rewrite Ea).
    apply runs_bind, arp_handle_runs; [apply mac_len|..]; intros Hlen; apply runs_ret; exists s; rewrite Ed; split_and!; try done;
      unfold received; rewrite Ea.
    - rewrite (proj2 (Z.leb_gt 42 (zlen frame))), heard_other by (rewrite ?Ea; done || lia). by rewrite set_ping_same.
    - by rewrite (proj2 (Z.leb_le 42 (zlen frame))) by lia. }
  assert (Hr : (get16 frame 12 =? IPV4_ETHERTYPE) && (42 <=? zlen frame) && (zget 0 frame 23 =? IPV4_PROTO_ICMP) = false ->
    forall s1, received frame s1 = s1) by (intros; apply received_other; [lia|done]).
  destruct (Z.eqb_spec (get16 frame 12) IPV4_ETHERTYPE) as [Ei|Ei]; cbn [andb] in *.
  2:{ apply runs_ret, nobody_processed; [done| |by apply Hr]. unfold delivery_of. by rewrite (proj2 (Z.eqb_neq _ _)) by done. }
  destruct (Z.leb_spec 34 (zlen frame)) as [H34|H34].
  2:{ apply runs_ret, nobody_processed; [done| |apply Hr; lia]. unfold delivery_of. rewrite (proj2 (Z.leb_gt 34 _)) by done. by rewrite andb_false_r. }
  apply runs_bind, runs_byte_at; [lia|]. destruct (Z.eqb_spec (zget 0 frame 23) IPV4_PROTO_ICMP) as [|Hi]; [by apply receive_icmp_runs; [|split; [|lia]|..]|].
  rewrite andb_false_r in Hr. specialize (Hr eq_refl).
  destruct (Z.eqb_spec (zget 0 frame 23) NET_IPV4_PROTO_TCP) as [Et|Et].
  { apply (runs_component _ _ _ ToTcp); [|done..|by apply tcp_runs; [|split; [|lia]]].
    unfold delivery_of. by rewrite Ei, Et, (proj2 (Z.leb_le 34 (zlen frame))) by done. }
  destruct (Z.eqb_spec (zget 0 frame 23) NET_IPV4_PROTO_UDP) as [Eu|Eu]; [by apply receive_udp_runs; [|split; [|lia]|..]|].
  apply runs_ret, nobody_processed; [done| |done]. unfold delivery_of. rewrite Ei, (proj2 (Z.leb_le 34 (zlen frame))) by done.
  by rewrite (proj2 (Z.eqb_neq _ IPV4_PROTO_ICMP)), (proj2 (Z.eqb_neq _ NET_IPV4_PROTO_TCP)), (proj2 (Z.eqb_neq _ NET_IPV4_PROTO_UDP)) by done.
Qed.

Lemma dispatch_overrun frame s :
  Forall is_byte frame -> zlen frame <= NET_MAX_FRAME -> overruns (n_ping s) frame = true ->
  net_dispatch o frame (zlen frame) s = None.
Proof.
  intros Hb Hm Hov. unfold overruns in Hov. apply andb_true_iff in Hov as [Hw Hov]. pose proof Hov as Hov'.
  unfold echo_overrun, echo_header in Hov'. rewrite !andb_true_iff in Hov'. destruct_and! Hov'.
  change IPV4_ETHERTYPE with 0x0800 in *. change IPV4_PROTO_ICMP with 1 in *.
  unfold net_dispatch. apply halts_bind, runs_read16; [lia..|].
  rewrite (proj2 (Z.eqb_neq (get16 frame 12) NET_ETHERTYPE_ARP)) by (unfold NET_ETHERTYPE_ARP; lia).
  rewrite (proj2 (Z.eqb_eq (get16 frame 12) NET_ETHERTYPE_IPV4)), (proj2 (Z.leb_le 34 (zlen frame))) by (unfold NET_ETHERTYPE_IPV4; lia).
  cbn [andb]. apply halts_bind, runs_byte_at; [lia|]. rewrite (proj2 (Z.eqb_eq (zget 0 frame 23) NET_IPV4_PROTO_ICMP)) by (unfold NET_IPV4_PROTO_ICMP; lia).
  unfold net_receive_icmp. apply halts_bind, runs_byte_at; [lia|]. apply halts_bind, runs_read16; [lia..|].
  fold (header_len frame). destruct (datagram_fits _ _ _) eqn:Ef; [unfold datagram_fits in Ef; lia|].
  apply halts_bind, runs_ret, halts_first. unfold ipv4_handle_frame. apply halts_bind, runs_gets. rewrite Hw. cbn [negb].
  by apply halts_first, echo_reply_overrun.
Qed.

Lemma poll_received frame w s :
  n_poll_locked s = false -> nic_recv o (n_world s) = (Some frame, w) -> overruns (n_ping s) frame = false ->
  runs (net_poll_once o) s (fun r s' => r = true /\ exists s2, processed frame (set_locked true (set_world w s)) s2 /\ s' = set_locked false s2).
Proof.
  intros Hl Hr Hov. destruct (recv_frame _ _ _ Hr) as [Hb Hm]. unfold net_poll_once.
  apply runs_bind, runs_gets. rewrite Hl. apply runs_bind, runs_modify, runs_bind, runs_lift. cbn [set_locked n_world].
  rewrite Hr. cbn [fst snd]. change (set_world w (set_locked true s)) with (set_locked true (set_world w s)).
  destruct (Z.ltb_spec (zlen frame) 14).
  - apply runs_bind, runs_modify, runs_ret. split; [done|]. eexists. split; [|done]. apply nobody_processed; [done| |].
    + unfold delivery_of. rewrite (proj2 (Z.leb_gt 34 (zlen frame))) by lia. by rewrite andb_false_r.
    + intros. apply received_other; lia.
  - apply runs_bind. eapply runs_mono; [by apply dispatch_runs; [|..|]|]. intros ? s' H'.
    apply runs_bind, runs_modify, runs_ret. split; [done|]. by exists s'.
Qed.

Lemma poll_overrun frame w s :
  n_poll_locked s = false -> nic_recv o (n_world s) = (Some frame, w) -> overruns (n_ping s) frame = true ->
  net_poll_once o s = None.
Proof.
  intros Hl Hr Hov. destruct (recv_frame _ _ _ Hr) as [Hb Hm]. unfold net_poll_once.
  apply halts_bind, runs_gets. rewrite Hl. apply halts_bind, runs_modify, halts_bind, runs_lift. cbn [set_locked n_world].
  rewrite Hr. cbn [fst snd]. pose proof Hov as Hov'. unfold overruns, echo_overrun, echo_header in Hov'. rewrite !andb_true_iff in Hov'.
  destruct_and! Hov'. rewrite (proj2 (Z.ltb_ge (zlen frame) 14)) by lia. by apply halts_first, dispatch_overrun.
Qed.

Lemma poll_idle w s :
  n_poll_locked s = false -> nic_recv o (n_world s) = (None, w) -> net_poll_once o s = Some (false, set_world w s).
Proof.
  intros Hl Hr. unfold net_poll_once, bind, gets, modify, on_environment, lift, ret. rewrite Hl. cbn [set_locked n_world]. rewrite Hr.
  destruct s. cbn in *. by subst.
Qed.

Lemma poll_locked s : n_poll_locked s = true -> net_poll_once o s = Some (false, s).
Proof. intros Hl. unfold net_poll_once, bind, gets, ret. by rewrite Hl. Qed.

End polling.
