(* ===== verification/NetSpec.v ===== *)
(** * ARP and IPv4: contracts

    The packets as their standards lay them out, and the theorems: the Internet checksum,
    one poll of the card, the ARP exchange of two hosts, ping, and the sending of a
    datagram. *)
From S2P Require Import Prelude Arrays Klib VmArea Net NetChecksum NetProps.
From Stdlib Require Import ZArith Lia ZifyBool Bool.
From stdpp Require Import base relations numbers list.
Local Open Scope Z_scope.
Local Open Scope kernel_scope.

(** ** Packets *)

Definition field16 (v : Z) : list Z := [u8 (Z.shiftr v 8); u8 (Z.land v 0xFF)].

(** An IPv4 header without options, not fragmented, with 64 hops to live. *)
Definition ipv4_header (total_len ident protocol sum sender target : Z) : list Z :=
  [0x45; 0] ++ field16 total_len ++ field16 ident ++ [0x40; 0; 64; protocol] ++ field16 sum ++ ip_bytes sender ++ ip_bytes target.

(** The header with its checksum. *)
Definition sealed_header (total_len ident protocol sender target : Z) : list Z :=
  ipv4_header total_len ident protocol (65535 - internet_sum (ipv4_header total_len ident protocol 0 sender target)) sender target.

Definition icmp_echo (type sum ident seq : Z) (data : list Z) : list Z :=
  [type; 0] ++ field16 sum ++ field16 ident ++ field16 seq ++ data.

Definition sealed_echo (type ident seq : Z) (data : list Z) : list Z :=
  icmp_echo type (65535 - internet_sum (icmp_echo type 0 ident seq data)) ident seq data.

(** An ICMP echo message in its frame. *)
Definition echo_frame (dst src : list Z) (type id sender target ident seq : Z) (data : list Z) : list Z :=
  dst ++ src ++ [8; 0] ++ sealed_header (28 + zlen data) id 1 sender target ++ sealed_echo type ident seq data.

(** An IPv4 datagram in its frame, padded to the kernel's smallest frame. *)
Definition datagram_frame (dst src : list Z) (id protocol sender target : Z) (payload : list Z) : list Z :=
  dst ++ src ++ [8; 0] ++ sealed_header (20 + zlen payload) id protocol sender target ++ payload
  ++ replicate (Z.to_nat (26 - zlen payload)) 0.

(** ** Checksum fields *)

Lemma words_app l1 l2 : zlen l1 mod 2 = 0 -> words (l1 ++ l2) = words l1 ++ words l2.
Proof.
  revert l1. fix IH 1. intros [|a [|b r]]; [done|by intros|]. intros H. cbn. f_equal. apply IH.
  rewrite !zlen_cons in H. dlia.
Qed.

Lemma total_app a b : word_total (a ++ b) = word_total a + word_total b.
Proof. unfold word_total. induction a; cbn [app foldr]; lia. Qed.

Lemma field16_bytes v : Forall is_byte (field16 v).
Proof. repeat constructor; apply u8_range. Qed.

Lemma words_field16 v l : 0 <= v < 65536 -> words (field16 v ++ l) = v :: words l.
Proof. intros H. cbn. rewrite <- be16_value, be16_bytes by (done || apply u8_byte). done. Qed.

Lemma total_field pre v post :
  zlen pre mod 2 = 0 -> 0 <= v < 65536 ->
  word_total (words (pre ++ field16 v ++ post)) = word_total (words pre) + v + word_total (words post).
Proof. intros. rewrite words_app, words_field16, total_app by done. unfold word_total. cbn [foldr]. lia. Qed.

(** The complement of the sum makes the sum of all words zero in one's complement. *)
Lemma sealed_sum pre post :
  Forall is_byte pre -> Forall is_byte post -> zlen pre mod 2 = 0 ->
  internet_sum (pre ++ field16 (65535 - internet_sum (pre ++ field16 0 ++ post)) ++ post) = 65535.
Proof.
  intros H1 H2 He. set (c := 65535 - _).
  assert (H0 : Forall is_byte (pre ++ field16 0 ++ post)) by (rewrite !Forall_app; split_and!; [done|apply field16_bytes|done]).
  pose proof (residue_internet _ H0) as [Hr0 [Hr1 Hr2]].
  assert (Hc : 0 <= c < 65536) by lia.
  assert (Hb : Forall is_byte (pre ++ field16 c ++ post)) by (rewrite !Forall_app; split_and!; [done|apply field16_bytes|done]).
  pose proof (residue_internet _ Hb) as Hr. apply (residue_unique _ _ _ Hr).
  rewrite total_field in Hr1, Hr2 |- * by (done || lia).
  pose proof (total_bounds _ (words_bounded _ H1)). pose proof (total_bounds _ (words_bounded _ H2)).
  unfold residue. split_and!; [lia..| |lia]. subst c. dlia.
Qed.

Lemma ip_bytes_bytes ip : Forall is_byte (ip_bytes ip).
Proof. repeat constructor; apply u8_range. Qed.

Lemma sealed_header_sum total_len id protocol sender target :
  is_byte protocol -> internet_sum (sealed_header total_len id protocol sender target) = 65535.
Proof.
  intros Hp. apply (sealed_sum ([0x45; 0] ++ field16 total_len ++ field16 id ++ [0x40; 0; 64; protocol]) (ip_bytes sender ++ ip_bytes target)).
  - rewrite !Forall_app. split_and!; try apply field16_bytes; repeat constructor; unfold is_byte in *; lia.
  - rewrite Forall_app. split; apply ip_bytes_bytes.
  - reflexivity.
Qed.

Lemma sealed_echo_sum type ident seq data :
  is_byte type -> Forall is_byte data -> internet_sum (sealed_echo type ident seq data) = 65535.
Proof.
  intros Ht Hd. apply (sealed_sum [type; 0] (field16 ident ++ field16 seq ++ data)).
  - repeat constructor; unfold is_byte in *; lia.
  - rewrite !Forall_app. split_and!; try apply field16_bytes. done.
  - reflexivity.
Qed.

Lemma sealed_echo_len type ident seq data : zlen (sealed_echo type ident seq data) = 8 + zlen data.
Proof. unfold zlen. cbn. lia. Qed.

Lemma sealed_header_len total_len id protocol sender target : zlen (sealed_header total_len id protocol sender target) = 20.
Proof. reflexivity. Qed.

(** The bytes from [zlen pre] on. *)
Lemma slice_middle (pre l post : list Z) : frame_slice (pre ++ l ++ post) (zlen pre) (zlen l) = l.
Proof.
  unfold frame_slice, zlen. rewrite !Nat2Z.id, drop_app_length. apply take_app_length.
Qed.

(** ** Echo replies in the format of the standard *)

Section echo.
Variables (dst src : list Z) (type id sender target ident seq : Z) (data pad : list Z).
Hypotheses (Hdst : zlen dst = 6) (Hsrc : zlen src = 6) (Hty : is_byte type) (Hdata : Forall is_byte data) (Hlen : zlen data < 65000)
  (Hsender : 0 <= sender < 2 ^ 32) (Htarget : 0 <= target < 2 ^ 32) (Hident : 0 <= ident < 65536) (Hseq : 0 <= seq < 65536).

Let frame : list Z := echo_frame dst src type id sender target ident seq data ++ pad.

Lemma echo_frame_layout :
  zlen frame = 42 + zlen data + zlen pad /\ header_len frame = 20 /\ get16 frame 12 = IPV4_ETHERTYPE /\
  get16 frame 16 = 28 + zlen data /\ zget 0 frame 23 = 1 /\ get32 frame 26 = sender /\ get32 frame 30 = target /\
  zget 0 frame 34 = type /\ get16 frame 38 = ident /\ get16 frame 40 = seq /\
  frame_slice frame 14 20 = sealed_header (28 + zlen data) id 1 sender target /\
  frame_slice frame 34 (8 + zlen data) = sealed_echo type ident seq data.
Proof.
  pose proof (zlen_nonneg data). unfold frame.
  rewrite (six_bytes dst Hdst), (six_bytes src Hsrc). split_and!.
  - unfold echo_frame. rewrite !zlen_app, sealed_header_len, sealed_echo_len. unfold zlen. cbn [length]. lia.
  - reflexivity.
  - reflexivity.
  - rewrite <- (be16_bytes (28 + zlen data)) by lia. reflexivity.
  - reflexivity.
  - rewrite <- (be32_bytes sender) at 2 by done. reflexivity.
  - rewrite <- (be32_bytes target) at 2 by done. reflexivity.
  - reflexivity.
  - rewrite <- (be16_bytes ident) at 2 by done. reflexivity.
  - rewrite <- (be16_bytes seq) at 2 by done. reflexivity.
  - reflexivity.
  - rewrite <- (sealed_echo_len type ident seq data). unfold echo_frame. rewrite <- !app_assoc.
    match goal with |- frame_slice (?a ++ ?b ++ ?c ++ ?d ++ ?e) _ _ = _ =>
      change (a ++ b ++ c ++ d ++ e) with ((a ++ b ++ c ++ d) ++ e); change 34 with (zlen (a ++ b ++ c ++ d)) end.
    apply slice_middle.
Qed.

(** Addresses, identifier and sequence number decide. *)
Lemma echo_frame_accepted s t i q :
  echo_accepted frame s t i q
  = (type =? IPV4_ECHO_REPLY) && (sender =? t) && (target =? s) && (ident =? i) && (seq =? q).
Proof.
  destruct echo_frame_layout as (E1 & E2 & E3 & E4 & E5 & E6 & E7 & E8 & E9 & E10 & E11 & E12).
  unfold echo_accepted, echo_header. rewrite E2. change (14 + 20) with 34. change (34 + 4) with 38. change (34 + 6) with 40. rewrite E1, E3, E4, E5, E6, E7, E8, E9, E10, E11.
  pose proof (zlen_nonneg data). pose proof (zlen_nonneg pad). rewrite sealed_header_sum by by unfold is_byte.
  replace (Z.min (28 + zlen data) (42 + zlen data + zlen pad - 14) - 20) with (8 + zlen data) by lia.
  rewrite E12, sealed_echo_sum by done.
  rewrite (proj2 (Z.leb_le 42 (42 + zlen data + zlen pad))), (proj2 (Z.leb_le 20 (28 + zlen data))) by lia.
  rewrite (proj2 (Z.leb_le (34 + 8) (42 + zlen data + zlen pad))) by lia.
  cbn [andb Z.eqb Z.leb Z.compare Pos.eqb Pos.compare Pos.compare_cont]. rewrite !andb_true_r. destruct (type =? _), (sender =? t), (target =? s); reflexivity.
Qed.

Lemma echo_frame_overrun s t : echo_overrun frame s t = false.
Proof.
  destruct echo_frame_layout as (E1 & E2 & E3 & E4 & _). unfold echo_overrun. rewrite E2, E4. pose proof (zlen_nonneg data). lia.
Qed.

End echo.

(** ** Building frames *)

Lemma copy_bytes_get frame off p i :
  0 <= off -> off + zlen p <= zlen frame -> 0 <= i ->
  zlen (copy_bytes frame off p) = zlen frame /\
  zget 0 (copy_bytes frame off p) i = if (off <=? i) && (i <? off + zlen p) then zget 0 p (i - off) else zget 0 frame i.
Proof.
  intros Ho Hl Hi. unfold copy_bytes.
  apply (foldl_range (fun k f => zlen f = zlen frame /\
    zget 0 f i = if (off <=? i) && (i <? off + k) then zget 0 p (i - off) else zget 0 frame i) _ 0 (zlen p)).
  - apply zlen_nonneg.
  - split; [done|]. destruct (_ && _) eqn:E; [lia|done].
  - intros k f Hk [E1 E2]. split; [by rewrite zlen_zset|]. rewrite zget_zset by lia.
    destruct (Z.eqb_spec (off + k) i) as [E|E].
    + subst i. replace ((off <=? off + k) && (off + k <? off + (k + 1))) with true by lia. f_equal. lia.
    + rewrite E2. replace (i <? off + (k + 1)) with (i <? off + k) by lia. done.
Qed.

Lemma copy_bytes_app a b p :
  zlen p <= zlen b -> copy_bytes (a ++ b) (zlen a) p = a ++ p ++ drop (length p) b.
Proof.
  intros Hl. pose proof (zlen_nonneg a). pose proof (zlen_nonneg p).
  assert (Hd : zlen (drop (length p) b) = zlen b - zlen p) by (unfold zlen in *; rewrite length_drop; lia).
  apply (zlist_eq 0).
  - rewrite (proj1 (copy_bytes_get (a ++ b) (zlen a) p 0 ltac:(lia) ltac:(rewrite zlen_app; lia) ltac:(lia))).
    rewrite !zlen_app, Hd. lia.
  - intros k Hk. rewrite (proj2 (copy_bytes_get (a ++ b) (zlen a) p k ltac:(lia) ltac:(rewrite zlen_app; lia) ltac:(lia))).
    destruct (Z.leb_spec (zlen a) k); cbn [andb]; [|by rewrite !zget_app_l by lia].
    rewrite !(zget_app_r 0 a) by lia. destruct (Z.ltb_spec k (zlen a + zlen p)); [by rewrite zget_app_l by lia|].
    rewrite zget_app_r by lia. unfold zget. rewrite lookup_drop. f_equal. f_equal. unfold zlen in *. lia.
Qed.

Lemma cons_len n (x : Z) l : n - 1 <= zlen l -> n <= zlen (x :: l).
Proof. rewrite zlen_cons. lia. Qed.

Ltac literal_bytes := repeat (apply Forall_nil_2 || apply Forall_cons_2); first [assumption|apply u8_byte|by unfold is_byte].

Section building.
Context {W : Type} (o : environment W).
Implicit Types s : net W.

Lemma build_echo_runs src dst sender target ident seq s Q :
  zlen src = 6 -> zlen dst = 6 -> Forall is_byte src -> Forall is_byte dst ->
  Q (echo_frame dst src 8 ident sender target ident seq ping_payload ++ replicate 6 0) s ->
  runs (ipv4_build_echo_request src dst sender target ident seq) s Q.
Proof.
  intros Hs Hd Bs Bd HQ. rewrite (six_bytes src Hs) in Bs |- *. rewrite (six_bytes dst Hd) in Bd |- *.
  rewrite (six_bytes src Hs), (six_bytes dst Hd) in HQ. unfold ipv4_build_echo_request. cbv zeta.
  repeat match goal with H : Forall is_byte (_ :: _) |- _ => inversion_clear H end.
  apply runs_bind, checksum16_runs; [literal_bytes|done..|].
  apply runs_bind, checksum16_runs; [literal_bytes|done..|].
  apply runs_ret. exact HQ.
Qed.
(** The frame before the payload is copied. *)
Lemma blank_frame n : 34 <= n -> replicate (Z.to_nat n) 0 = replicate 34 0 ++ replicate (Z.to_nat (n - 34)) 0.
Proof. intros H. rewrite <- replicate_add. f_equal. lia. Qed.

(** From the resolved address on. *)
Lemma send_resolved sender target hop protocol payload mac s s1 :
  sender <> 0 -> target <> 0 -> hop <> 0 -> zlen payload <= 1480 -> is_byte protocol ->
  arp_resolve o sender hop s = Some (Some mac, s1) ->
  zlen mac = 6 -> Forall is_byte mac -> zlen (nic_mac o (n_world s1)) = 6 -> Forall is_byte (nic_mac o (n_world s1)) ->
  let frame := datagram_frame mac (nic_mac o (n_world s1)) (u16 (Z.land (timer_get_ticks o (n_world s1)) 0xFFFF)) protocol sender target payload in
  ipv4_send_payload o sender target hop protocol (Some payload) s
  = Some (if fst (nic_send o frame (n_world s1)) then 0 else - EIO, set_world (snd (nic_send o frame (n_world s1))) s1).
Proof.
  intros Hs Ht Hh Hl Hp Hr Hm Bm Hn Bn frame.
  enough (runs (ipv4_send_payload o sender target hop protocol (Some payload)) s (fun r s' =>
    r = (if fst (nic_send o frame (n_world s1)) then 0 else - EIO) /\ s' = set_world (snd (nic_send o frame (n_world s1))) s1)) as R.
  { apply runs_elim in R as (r & s' & -> & -> & ->). done. }
  unfold ipv4_send_payload. cbv zeta. rewrite !(proj2 (Z.eqb_neq _ 0)) by done. cbn [orb].
  rewrite (proj2 (Z.ltb_ge 1480 (zlen payload))) by lia. pose proof (zlen_nonneg payload) as H0.
  apply runs_bind. unfold runs at 1. rewrite Hr. apply runs_bind, runs_gets, runs_bind, runs_gets.
  set (n := if _ <? _ then _ else _). assert (En : n = Z.max 60 (34 + zlen payload)) by (subst n; unfold IPV4_PACKET_SIZE; case_match; lia).
  rewrite (blank_frame n) by lia.
  assert (Ht2 : drop (length payload) (replicate (Z.to_nat (n - 34)) 0) = replicate (Z.to_nat (26 - zlen payload)) 0).
  { rewrite drop_replicate. f_equal. unfold zlen in *. lia. }
  assert (Hlt : zlen payload <= zlen (replicate (Z.to_nat (n - 34)) 0)) by (rewrite zlen_replicate; lia).
  assert (Bt : Forall is_byte (replicate (Z.to_nat (n - 34)) 0)) by (by apply Forall_replicate; unfold is_byte).
  revert Ht2 Hlt Bt. generalize (replicate (Z.to_nat (n - 34)) 0). intros tl Ht2 Hlt Bt. clear n En.
  revert frame. generalize dependent (nic_mac o (n_world s1)). intros src Hn Bn.
  rewrite (six_bytes src Hn) in Bn |- *. rewrite (six_bytes mac Hm) in Bm |- *.
  repeat match goal with H : Forall is_byte (_ :: _) |- _ => inversion_clear H end.
  rewrite (u16_small (20 + zlen payload)) by lia. intros frame. cbv zeta.
  pose proof (zlen_nonneg tl).
  apply runs_bind, checksum16_runs; [|lia|lia| |].
  { repeat apply Forall_cons_2; first [assumption|apply u8_byte|by unfold is_byte]. }
  { do 34 apply cons_len. lia. }
  match goal with |- context [nic_send o ?f] => assert (Ef : f = frame) end.
  { unfold datagram_frame in frame. match goal with frame := ?a ++ ?b ++ ?c ++ ?d ++ _ |- _ =>
      transitivity (copy_bytes ((a ++ b ++ c ++ d) ++ tl) (zlen (a ++ b ++ c ++ d)) payload) end; [reflexivity|].
    rewrite copy_bytes_app, Ht2 by done. reflexivity. }
  rewrite Ef. apply runs_bind, runs_lift. destruct (nic_send o frame (n_world s1)). by apply runs_ret.
Qed.
End building.

Lemma datagram_frame_facts dst src id protocol sender target payload :
  zlen dst = 6 -> Forall is_byte dst -> zlen src = 6 -> Forall is_byte src -> is_byte protocol -> Forall is_byte payload -> zlen payload <= 1480 ->
  let frame := datagram_frame dst src id protocol sender target payload in
  Forall is_byte frame /\ 60 <= zlen frame <= 1514 /\ internet_sum (frame_slice frame 14 20) = 65535.
Proof.
  intros Ld Bd Ls Bs Hp Hb Hl frame. pose proof (zlen_nonneg payload). split_and!.
  - unfold frame, datagram_frame, sealed_header, ipv4_header. rewrite !Forall_app.
    split_and!; try done; try apply field16_bytes; try apply ip_bytes_bytes; try (by apply Forall_replicate); literal_bytes.
  - unfold frame, datagram_frame. rewrite !zlen_app, sealed_header_len, zlen_replicate, Ld, Ls. unfold zlen at 1. cbn [length]. lia.
  - unfold frame, datagram_frame. rewrite !zlen_app, sealed_header_len, zlen_replicate, Ld, Ls. unfold zlen at 1. cbn [length]. lia.
  - assert (E : frame_slice frame 14 20 = sealed_header (20 + zlen payload) id protocol sender target).
    { subst frame. rewrite (six_bytes dst Ld), (six_bytes src Ls). reflexivity. }
    rewrite E. by apply sealed_header_sum.
Qed.

(** ** Resolving an address *)

Section resolving.
Context {W : Type} (o : environment W) `{!NetworkLaws o}.
Implicit Types s : net W.

(** The cache entry for the pair of addresses. *)
Definition entry (s : net W) (sender target : Z) (mac : list Z) : Prop :=
  n_cache s = ArpCache true sender target mac.

(** Between two lookups the card is polled or an interrupt is awaited. *)
Definition resolve_step (s s' : net W) : Prop :=
  (exists b, net_poll_once o s = Some (b, s')) \/ wait_interrupt o s = Some (tt, s').

(** A poll, now or after some more steps, meets the echo reply that leaves its bounds. *)
Definition meets_overrun (s : net W) : Prop :=
  exists s1 frame w, rtc resolve_step s s1 /\ n_poll_locked s1 = false /\
    nic_recv o (n_world s1) = (Some frame, w) /\ overruns (n_ping s1) frame = true.

Lemma meets_later s s' : rtc resolve_step s s' -> meets_overrun s' -> meets_overrun s.
Proof. intros Hs (s1 & frame & w & Hr & H). exists s1, frame, w. split; [by etransitivity|done]. Qed.

Lemma poll_cache s : cache_ok s -> runs_or (meets_overrun s) (net_poll_once o) s (fun b s' => resolve_step s s' /\ cache_ok s').
Proof.
  intros Hc. assert (Hgo : runs (net_poll_once o) s (fun _ s' => cache_ok s') ->
    runs_or (meets_overrun s) (net_poll_once o) s (fun b s' => resolve_step s s' /\ cache_ok s')).
  { unfold runs, runs_or, resolve_step. destruct (net_poll_once o s) as [[b s']|] eqn:E; [|done]. split; [left; by exists b|done]. }
  destruct (n_poll_locked s) eqn:Hl; [apply Hgo; unfold runs; by rewrite poll_locked|].
  destruct (nic_recv o (n_world s)) as [[frame|] w] eqn:Er; [|apply Hgo; unfold runs; by rewrite (poll_idle o w s Hl Er)].
  destruct (overruns (n_ping s) frame) eqn:Ev.
  - unfold runs_or. rewrite (poll_overrun o frame w s Hl Er Ev). exists s, frame, w. by split_and!.
  - apply Hgo. eapply runs_mono; [by apply (poll_received o frame w)|]. cbv beta. intros _ s' (_ & s2 & (s1 & _ & [_ Hk] & ->) & ->).
    unfold cache_ok in *. cbn [set_locked n_cache]. rewrite (proj2 (received_effect o frame s1)), Hk. apply learned_ok; [|done].
    by destruct (recv_frame _ _ _ Er).
Qed.

Lemma lookup_runs sender target s Q :
  (forall mac, entry s sender target mac -> Q (Some mac) s) -> Q None s -> runs (arp_lookup sender target) s Q.
Proof.
  intros H1 H2. unfold arp_lookup. apply runs_bind, runs_gets, runs_ret. unfold entry in H1.
  destruct (n_cache s) as [[] a b mac]; cbn; [|done].
  destruct (Z.eqb_spec a sender) as [->|]; [|done]. destruct (Z.eqb_spec b target) as [->|]; [|done]. by apply H1.
Qed.

(** The address found is the one in the cache. *)
Definition resolve_post (sender target : Z) (r : option (list Z)) (s' : net W) : Prop :=
  cache_ok s' /\ forall mac, r = Some mac -> entry s' sender target mac.

(** A turn of the loop of [arp_resolve]. *)
Definition resolve_turn (sender target : Z) (_ : Z) : M (net W) (option (list Z)) :=
  found <- arp_lookup sender target ;;
  match found with
  | Some mac => ret (Some mac)
  | None =>
      polled <- net_poll_once o ;;
      if negb polled then wait_interrupt o ;;; ret None else arp_lookup sender target
  end.

Lemma resolve_loop l sender target s :
  cache_ok s ->
  runs_or (meets_overrun s) (for_return l (resolve_turn sender target)) s (resolve_post sender target).
Proof.
  revert s. induction l as [|x l IH]; intros s Hs; cbn [for_return]; [by apply runs_runs_or, runs_ret|].
  apply runs_or_bind_or, runs_or_bind, lookup_runs.
  { intros mac He. apply runs_runs_or, runs_ret, runs_runs_or, runs_ret. split; [done|by intros ? [= <-]]. }
  apply runs_or_bind_or. eapply runs_or_mono; [by apply poll_cache|done|]. intros polled s1 [H1 Hc1].
  assert (Hnext : forall s2, rtc resolve_step s s2 -> cache_ok s2 -> runs_or (meets_overrun s) (for_return l (resolve_turn sender target)) s2 (resolve_post sender target)).
  { intros s2 Hr Hc2. eapply runs_or_mono; [by apply IH|by apply meets_later|done]. }
  destruct polled; cbn [negb].
  - apply runs_runs_or, lookup_runs; [|by apply Hnext; [apply rtc_once|]].
    intros mac He. apply runs_runs_or, runs_ret. split; [done|by intros ? [= <-]].
  - apply runs_or_bind. eapply runs_call; [apply wait_runs|]. intros [] s2 E2 Hc2. apply runs_runs_or, runs_ret.
    apply Hnext; [|by apply Hc2]. eapply rtc_l; [exact H1|]. apply rtc_once. by right.
Qed.

(** The request has been sent. *)
Definition request_sent (sender target : Z) (s : net W) : net W :=
  set_world (snd (nic_send o (arp_request (nic_mac o (n_world s)) sender target) (n_world s))) s.

Lemma resolve_runs sender target s :
  cache_ok s -> runs_or (meets_overrun (request_sent sender target s)) (arp_resolve o sender target) s (resolve_post sender target).
Proof.
  intros Hs. unfold arp_resolve. apply runs_or_bind, lookup_runs.
  { intros mac He. apply runs_runs_or, runs_ret. split; [done|by intros ? [= <-]]. }
  unfold arp_send_request. apply runs_or_bind, runs_bind, runs_gets, runs_lift.
  unfold request_sent. destruct (nic_send o _ _) as [sent w]. cbn [fst snd].
  destruct sent; cbn [negb]; [by apply resolve_loop|by apply runs_runs_or, runs_ret].
Qed.
End resolving.

(** ** ARP packets *)

Lemma arp_packet_layout dst src op sha spa tha tpa :
  zlen dst = 6 -> zlen src = 6 -> zlen sha = 6 -> zlen tha = 6 -> 0 <= spa < 2 ^ 32 -> 0 <= tpa < 2 ^ 32 ->
  let frame := arp_packet dst src op sha spa tha tpa in
  zlen frame = 42 /\ arp_well_formed frame = true /\ get16 frame 20 = be16 0 op /\
  get32 frame 28 = spa /\ get32 frame 38 = tpa /\ frame_slice frame 6 6 = src /\ frame_slice frame 22 6 = sha.
Proof.
  intros ->%six_bytes ->%six_bytes ->%six_bytes ->%six_bytes Hs Ht frame. subst frame.
  split_and!; try reflexivity; [transitivity (be32 (u8 (Z.land (Z.shiftr spa 24) 0xFF)) (u8 (Z.land (Z.shiftr spa 16) 0xFF)) (u8 (Z.land (Z.shiftr spa 8) 0xFF)) (u8 (Z.land spa 0xFF)))
  |transitivity (be32 (u8 (Z.land (Z.shiftr tpa 24) 0xFF)) (u8 (Z.land (Z.shiftr tpa 16) 0xFF)) (u8 (Z.land (Z.shiftr tpa 8) 0xFF)) (u8 (Z.land tpa 0xFF)))];
    reflexivity || by apply be32_bytes.
Qed.

(** The handler does what its effect says. *)
Lemma arp_handled {W} (o : environment W) frame s r :
  zlen (nic_mac o (n_world s)) = 6 -> 42 <= zlen frame -> arp_effect o frame s = r -> arp_handle_frame o frame (zlen frame) s = Some r.
Proof.
  intros Hm Hl <-. assert (runs (arp_handle_frame o frame (zlen frame)) s (fun b s' => (b, s') = arp_effect o frame s)) as R.
  { apply arp_handle_runs; [done|lia|]. intros _. by destruct (arp_effect o frame s). }
  apply runs_elim in R as (b & s' & -> & ->). done.
Qed.

(** ** A card with a queue of received frames and a list of sent ones *)

Definition frame_ok (frame : list Z) : bool := forallb (fun b => (0 <=? b) && (b <? 256)) frame && (zlen frame <=? NET_MAX_FRAME).

Definition wire : Type := list (list Z) * list (list Z).

Definition wire_recv (w : wire) : option (list Z) * wire :=
  match w with
  | (frame :: inbox, sent) => if frame_ok frame then (Some frame, (inbox, sent)) else (None, (inbox, sent))
  | ([], sent) => (None, w)
  end.

Definition wire_environment (mac : list Z) : environment wire :=
  Environment wire (fun _ => mac) (fun frame w => (true, (w.1, w.2 ++ [frame]))) wire_recv (fun _ => 0) (ret tt)
    (fun _ => true) (fun _ w => (0, w)) (fun _ _ _ w => w) (fun _ _ => ret tt) (fun _ _ _ _ _ => ret false)
    (fun _ => ret tt) (fun _ => ret true) (fun _ => ret tt).

Lemma wire_laws mac : mac_ok mac -> NetworkLaws (wire_environment mac).
Proof.
  intros [Hm Hb]. constructor; try done; try (intros; by apply runs_ret).
  intros [[|f inbox] sent] frame w'; cbn; [done|].
  destruct (frame_ok f) eqn:E; [|done]. intros [= <- <-]. unfold frame_ok in E. apply andb_true_iff in E as [E1 E2].
  split; [|lia]. rewrite Forall_forall. intros x Hx. apply list_elem_of_In in Hx. rewrite forallb_forall in E1. specialize (E1 x Hx). unfold is_byte. lia.
Qed.

Definition demo_mac_a : list Z := [2; 0; 0; 0; 0; 1].
Definition demo_mac_b : list Z := [2; 0; 0; 0; 0; 2].
Definition demo_host (ip : Z) (p : ping) (inbox : list (list Z)) : net wire :=
  Net (ArpCache false 0 0 (replicate 6 0)) p (Config true ip 0 0 0 0 0) false (inbox, []).
Definition demo_idle : ping := Ping false false 0 0 0 0.

Lemma demo_mac_a_ok : mac_ok demo_mac_a.
Proof. split; [done|]. repeat constructor; done. Qed.
Lemma demo_mac_b_ok : mac_ok demo_mac_b.
Proof. split; [done|]. repeat constructor; done. Qed.

(** ** Theorems *)

(** [ipv4_checksum16] is the Internet checksum of RFC 1071: on bytes inside the frame
    it returns the complement of the one's-complement sum of the 16-bit words, an odd last
    byte padded with zero, and changes nothing. *)
Theorem ipv4_checksum16_correct {W} frame off len (s : net W) :
  Forall is_byte frame -> 0 <= off -> 0 <= len <= 131072 -> off + len <= zlen frame ->
  ipv4_checksum16 frame off len s = Some (65535 - internet_sum (frame_slice frame off len), s).
Proof.
  intros Hb Ho Hl Hf. assert (runs (ipv4_checksum16 frame off len) s (fun c s' => c = 65535 - internet_sum (frame_slice frame off len) /\ s' = s)) as R
    by by apply checksum16_runs.
  apply runs_elim in R as (c & s' & -> & -> & ->). done.
Qed.

Lemma ipv4_checksum16_correct_witness :
  ipv4_checksum16 [0; 1; 0xf2; 3; 0xf4; 0xf5; 0xf6; 0xf7; 9] 0 9 (demo_host 0 demo_idle []) = Some (0x190d, demo_host 0 demo_idle []).
Proof.
  rewrite (ipv4_checksum16_correct [0; 1; 0xf2; 3; 0xf4; 0xf5; 0xf6; 0xf7; 9] 0 9 (demo_host 0 demo_idle [])); [reflexivity|..];
    [repeat constructor; done|done..].
Defined.

(** C17: one poll of the card.  While another poll is under way, or with no frame, it
    reports that and changes nothing else.  A received frame is handled without a read
    outside of it by [net.c], [arp.c] and [ipv4.c]: the raw sockets are given exactly the
    datagram of an ICMP frame that holds all of it, the UDP sockets exactly the data of a
    UDP datagram that lies in the frame, as long as its header says; TCP frames and UDP
    frames without a socket go to their handlers.  The ARP cache changes exactly for a
    well-formed ARP reply, to what the reply says, the awaited ping is answered exactly by
    an echo reply with valid checksums for its addresses, identifier and sequence number,
    a request for the own address is answered, and the poll lock is free afterwards.
    The only exception is an awaited echo reply whose total length is smaller than its
    header: its handler computes a length near [2^32] and leaves the frame. *)
Theorem net_poll_once_correct {W} (o : environment W) (s : net W) :
  NetworkLaws o ->
  if n_poll_locked s then net_poll_once o s = Some (false, s)
  else match nic_recv o (n_world s) with
  | (None, w) => net_poll_once o s = Some (false, set_world w s)
  | (Some frame, w) =>
      (forall datagram ip, delivery_of frame = ToRaw datagram ip <-> raw_datagram frame datagram ip) /\
      (forall src sport dst dport data, delivery_of frame = ToUdp src sport dst dport data <-> udp_datagram frame src sport dst dport data) /\
      if overruns (n_ping s) frame then net_poll_once o s = None
      else exists s1, let s' := set_locked false (received o frame s1) in
             hand_on o frame (delivery_of frame) (set_locked true (set_world w s)) = Some (tt, s1) /\
             net_poll_once o s = Some (true, s') /\
             n_ping s' = heard (n_ping s1) frame /\ n_cache s' = learned (n_cache s) frame
  end.
Proof.
  intros L. destruct (n_poll_locked s) eqn:Hl; [by apply poll_locked|].
  destruct (nic_recv o (n_world s)) as [[frame|] w] eqn:Er; [|by apply poll_idle].
  split; [intros; apply delivery_raw|]. split; [intros; apply delivery_udp|].
  destruct (overruns (n_ping s) frame) eqn:Ev; [by eapply poll_overrun|].
  destruct (runs_elim _ _ _ (poll_received o frame w s Hl Er Ev)) as (r & s' & E & -> & s2 & (s1 & H1 & [_ H2] & ->) & ->).
  exists s1. destruct (received_effect o frame s1) as [P1 P2]. split_and!; [done..|]. cbn [set_locked n_cache]. by rewrite P2, H2.
Qed.

(** An awaited echo reply whose IPv4 header claims a total length of zero. *)
Definition runt_reply : list Z := demo_mac_a ++ demo_mac_b ++ [8; 0] ++ sealed_header 0 0 1 0x0A000002 0x0A000001 ++ replicate 8 0.

Definition pinging_host : net wire := demo_host 0x0A000001 (Ping true false 0x0A000001 0x0A000002 1 1) [runt_reply].

Lemma net_poll_once_correct_witness : net_poll_once (wire_environment demo_mac_a) pinging_host = None.
Proof.
  pose proof (net_poll_once_correct (wire_environment demo_mac_a) pinging_host (wire_laws _ demo_mac_a_ok)) as H.
  assert (El : n_poll_locked pinging_host = false) by reflexivity.
  assert (Er : nic_recv (wire_environment demo_mac_a) (n_world pinging_host) = (Some runt_reply, ([], []))) by (vm_compute; reflexivity).
  assert (Eo : overruns (n_ping pinging_host) runt_reply = true) by (vm_compute; reflexivity).
  rewrite El, Er, Eo in H. exact (proj2 (proj2 H)).
Defined.

(** C20: the ARP exchange of two hosts.  The request that [a] broadcasts for [b]'s address
    makes [b] send exactly one frame, the reply to [a]'s hardware address, and log it; every
    host with another address, or none, ignores the request; and the reply enters [b]'s
    hardware address into [a]'s cache, where the lookup for the pair finds it. *)
Theorem arp_exchange {WA WB WC} (oa : environment WA) (ob : environment WB) (oc : environment WC) (a : net WA) (b : net WB) (c : net WC) ipa ipb :
  mac_ok (nic_mac oa (n_world a)) -> mac_ok (nic_mac ob (n_world b)) -> mac_ok (nic_mac oc (n_world c)) ->
  0 <= ipa < 2 ^ 32 -> 0 <= ipb < 2 ^ 32 ->
  configured (n_config b) = true -> cfg_ip (n_config b) = ipb ->
  let ma := nic_mac oa (n_world a) in
  let mb := nic_mac ob (n_world b) in
  let request := arp_request ma ipa ipb in
  let reply := arp_packet ma mb 2 mb ipb ma ipa in
  arp_handle_frame ob request (zlen request) b
    = Some (true, set_world (arp_logged ob ipa (snd (nic_send ob reply (n_world b)))) b) /\
  (configured (n_config c) = false \/ cfg_ip (n_config c) <> ipb -> arp_handle_frame oc request (zlen request) c = Some (false, c)) /\
  arp_handle_frame oa reply (zlen reply) a = Some (true, set_cache (ArpCache true ipa ipb mb) a) /\
  arp_lookup ipa ipb (set_cache (ArpCache true ipa ipb mb) a) = Some (Some mb, set_cache (ArpCache true ipa ipb mb) a).
Proof.
  intros [Ha _] [Hb _] [Hc _] Hia Hib Hup Hip ma mb request reply. subst request. rewrite arp_request_packet by done.
  destruct (arp_packet_layout (replicate 6 255) ma 1 ma ipa (replicate 6 0) ipb) as (L1 & L2 & L3 & L4 & L5 & L6 & L7); [done..|].
  destruct (arp_packet_layout ma mb 2 mb ipb ma ipa) as (R1 & R2 & R3 & R4 & R5 & R6 & R7); [done..|]. fold reply in R1, R2, R3, R4, R5, R6, R7.
  set (request := arp_packet _ _ 1 _ _ _ _) in *. split_and!.
  - apply arp_handled; [done|lia|]. unfold arp_effect. rewrite L2, L3, L5, Hup, Hip, (Z.eqb_refl ipb).
    change (be16 0 1 =? ARP_OP_REPLY) with false. change (be16 0 1 =? ARP_OP_REQUEST) with true. cbn [negb andb].
    unfold arp_answered, arp_answer. rewrite L4, L6, L7, Hip. reflexivity.
  - intros Hno. apply arp_handled; [done|lia|]. unfold arp_effect. rewrite L2, L3, L5.
    change (be16 0 1 =? ARP_OP_REPLY) with false. change (be16 0 1 =? ARP_OP_REQUEST) with true. cbn [negb andb].
    destruct (configured (n_config c)) eqn:Ec; [|reflexivity]. destruct Hno as [|Hno]; [done|]. by rewrite (proj2 (Z.eqb_neq ipb _)) by congruence.
  - apply arp_handled; [done|lia|]. unfold arp_effect. rewrite R2, R3, R4, R5, R7. done.
  - unfold arp_lookup, bind, gets, ret. cbn. by rewrite !Z.eqb_refl.
Qed.

Lemma arp_exchange_witness :
  let a := demo_host 0x0A000001 demo_idle [] in
  let b := demo_host 0x0A000002 demo_idle [] in
  let s := set_cache (ArpCache true 0x0A000001 0x0A000002 demo_mac_b) a in
  arp_lookup 0x0A000001 0x0A000002 s = Some (Some demo_mac_b, s).
Proof.
  intros a b s.
  apply (arp_exchange (wire_environment demo_mac_a) (wire_environment demo_mac_b) (wire_environment demo_mac_b) a b b 0x0A000001 0x0A000002);
    first [apply demo_mac_a_ok|apply demo_mac_b_ok|done].
Defined.

Lemma echo_frame_bytes dst src type id sender target ident seq data :
  Forall is_byte dst -> Forall is_byte src -> is_byte type -> Forall is_byte data ->
  Forall is_byte (echo_frame dst src type id sender target ident seq data).
Proof.
  intros. unfold echo_frame, sealed_header, ipv4_header, sealed_echo, icmp_echo.
  rewrite !Forall_app. split_and!; try done; try apply field16_bytes; try apply ip_bytes_bytes; literal_bytes.
Qed.

(** C21: ping.  The echo request is a 60-byte frame whose IPv4 header and ICMP message both
    have sums that verify.  Any echo reply in the standard format, with any payload and
    padding, is taken for the answer exactly when a ping is awaited with the reply's
    addresses, identifier and sequence number; otherwise it changes nothing. *)
Theorem ping_exchange {W} (s : net W) src dst sender target ident seq id data pad :
  mac_ok src -> mac_ok dst -> 0 <= sender < 2 ^ 32 -> 0 <= target < 2 ^ 32 -> 0 <= ident < 65536 -> 0 <= seq < 65536 ->
  Forall is_byte data -> Forall is_byte pad -> 42 + zlen data + zlen pad <= NET_MAX_FRAME ->
  (exists request, ipv4_build_echo_request src dst sender target ident seq s = Some (request, s) /\
     request = echo_frame dst src 8 ident sender target ident seq ping_payload ++ replicate 6 0 /\ zlen request = 60 /\
     internet_sum (frame_slice request 14 20) = 65535 /\ internet_sum (frame_slice request 34 20) = 65535) /\
  let answer := echo_frame src dst 0 id target sender ident seq data ++ pad in
  let p := n_ping s in
  ipv4_handle_frame answer (zlen answer) s
  = Some (if ping_waiting p && (target =? ping_target_ip p) && (sender =? ping_sender_ip p) && (ident =? ping_ident p) && (seq =? ping_seq p)
          then (true, set_ping (answered p) s) else (false, s)).
Proof.
  intros [Ls Bs] [Ld Bd] Hs Ht Hi Hq Hd Hp Hl. pose proof (zlen_nonneg data). pose proof (zlen_nonneg pad). split.
  - exists (echo_frame dst src 8 ident sender target ident seq ping_payload ++ replicate 6 0). split.
    + assert (runs (ipv4_build_echo_request src dst sender target ident seq) s (fun f s' =>
        f = echo_frame dst src 8 ident sender target ident seq ping_payload ++ replicate 6 0 /\ s' = s)) as R by by apply build_echo_runs.
      apply runs_elim in R as (f & s' & -> & -> & ->). done.
    + assert (Forall is_byte ping_payload) by (repeat constructor; done).
      destruct (echo_frame_layout dst src 8 ident sender target ident seq ping_payload (replicate 6 0))
        as (E1 & _ & _ & _ & _ & _ & _ & _ & _ & _ & E11 & E12); [done..|].
      split_and!; [done|rewrite E1; done|rewrite E11; by apply sealed_header_sum|].
      change 20 with (8 + zlen ping_payload). rewrite E12. by apply sealed_echo_sum.
  - intros answer p. change NET_MAX_FRAME with 1600 in Hl.
    destruct (echo_frame_layout src dst 0 id target sender ident seq data pad) as [Hz _]; [done || lia..|].
    rewrite handle_frame_eq; [| |unfold answer; rewrite Hz; unfold NET_MAX_FRAME; lia|].
    + unfold heard, answers, answer. fold p. rewrite echo_frame_accepted by (done || lia). cbn [andb Z.eqb IPV4_ECHO_REPLY].
      rewrite !andb_assoc. destruct (_ && (seq =? ping_seq p)); [done|]. unfold p. by rewrite set_ping_same.
    + unfold answer. rewrite Forall_app. split; [|done]. by apply echo_frame_bytes.
    + unfold overruns, answer. rewrite echo_frame_overrun by (done || lia). apply andb_false_r.
Qed.

Lemma ping_exchange_witness :
  let s := demo_host 0x0A000001 (Ping true false 0x0A000001 0x0A000002 0x4A50 1) [] in
  let answer := echo_frame demo_mac_a demo_mac_b 0 7 0x0A000002 0x0A000001 0x4A50 1 [1; 2; 3] ++ [0; 0] in
  ipv4_handle_frame answer (zlen answer) s = Some (true, set_ping (Ping true true 0x0A000001 0x0A000002 0x4A50 1) s).
Proof.
  intros s answer.
  destruct (ping_exchange s demo_mac_a demo_mac_b 0x0A000001 0x0A000002 0x4A50 1 7 [1; 2; 3] [0; 0]) as [_ H];
    [apply demo_mac_a_ok|apply demo_mac_b_ok|done|done|done|done|repeat constructor; done|repeat constructor; done|done|].
  exact H.
Defined.

(** C18: sending a datagram.  A zero address or a null payload is refused with [-EINVAL]
    and a payload of more than 1480 bytes with [-EMSGSIZE], before anything is sent; an
    unresolved next hop gives [-EHOSTUNREACH].  Otherwise exactly one more frame goes out,
    from this card to the address the ARP cache holds for the next hop: a byte string of
    60 to 1514 bytes with an IPv4 header whose checksum verifies, the payload and zero
    padding; the result is 0, or [-EIO] when the card refuses it.  The call does not
    return only if a poll while the next hop is resolved meets an awaited echo reply
    that is shorter than its header (see [net_poll_once_correct]). *)
Theorem ipv4_send_payload_correct {W} (o : environment W) sender target hop protocol payload (s : net W) :
  NetworkLaws o -> cache_ok s -> is_byte protocol -> Forall is_byte (default [] payload) ->
  let send := ipv4_send_payload o sender target hop protocol payload s in
  match payload with
  | None => send = Some (- EINVAL, s)
  | Some data =>
      if (sender =? 0) || (target =? 0) || (hop =? 0) then send = Some (- EINVAL, s)
      else if 1480 <? zlen data then send = Some (- EMSGSIZE, s)
      else match arp_resolve o sender hop s with
      | None => send = None /\ meets_overrun o (request_sent o sender hop s)
      | Some (None, s1) => send = Some (- EHOSTUNREACH, s1)
      | Some (Some mac, s1) =>
          n_cache s1 = ArpCache true sender hop mac /\
          exists id, let frame := datagram_frame mac (nic_mac o (n_world s1)) id protocol sender target data in
          let '(sent, w) := nic_send o frame (n_world s1) in
          send = Some (if sent then 0 else - EIO, set_world w s1) /\
          Forall is_byte frame /\ 60 <= zlen frame <= 1514 /\ internet_sum (frame_slice frame 14 20) = 65535
      end
  end.
Proof.
  intros L Hc Hp Hb send. destruct payload as [data|]; [|done]. cbn [default] in Hb.
  destruct (_ || _) eqn:Ez; [unfold send, ipv4_send_payload; by rewrite Ez|].
  destruct (Z.ltb_spec 1480 (zlen data)) as [Hl|Hl].
  { unfold send, ipv4_send_payload. rewrite Ez. cbv zeta. by rewrite (proj2 (Z.ltb_lt 1480 (zlen data))). }
  pose proof (resolve_runs o sender hop s Hc) as H. unfold runs_or in H.
  assert (Hsend : forall r, arp_resolve o sender hop s = r -> (r = None \/ exists s1, r = Some (None, s1)) ->
    send = match r with Some (_, s1) => Some (- EHOSTUNREACH, s1) | None => None end).
  { intros r Er Hr. unfold send, ipv4_send_payload. rewrite Ez. cbv zeta. rewrite (proj2 (Z.ltb_ge 1480 (zlen data))) by lia.
    unfold bind at 1. rewrite Er. by destruct Hr as [->|[s1 ->]]. }
  destruct (arp_resolve o sender hop s) as [[[mac|] s1]|] eqn:Er; [|by rewrite (Hsend _ eq_refl) by eauto..].
  destruct H as [[Lm Bm] He]. specialize (He mac eq_refl). split; [done|]. rewrite He in Lm, Bm. cbn [cache_mac] in Lm, Bm.
  pose proof (mac_len (o := o) (n_world s1)) as Ln. pose proof (mac_bytes (o := o) (n_world s1)) as Bn.
  exists (u16 (Z.land (timer_get_ticks o (n_world s1)) 0xFFFF)).
  pose proof (send_resolved o sender target hop protocol data mac s s1 ltac:(lia) ltac:(lia) ltac:(lia) Hl Hp Er Lm Bm Ln Bn) as E.
  cbv zeta in E |- *. fold send in E. destruct (nic_send o _ _) as [sent w]. split; [exact E|]. by apply datagram_frame_facts.
Qed.

Lemma ipv4_send_payload_correct_witness :
  let s := set_cache (ArpCache true 1 2 demo_mac_b) (demo_host 1 demo_idle []) in
  cache_ok s /\ exists id, ipv4_send_payload (wire_environment demo_mac_a) 1 3 2 17 (Some [9; 8]) s
    = Some (0, set_world ([], [datagram_frame demo_mac_b demo_mac_a id 17 1 3 [9; 8]]) s).
Proof.
  intros s. assert (cache_ok s) as Hc by apply demo_mac_b_ok. split; [done|].
  pose proof (ipv4_send_payload_correct (wire_environment demo_mac_a) 1 3 2 17 (Some [9; 8]) s (wire_laws _ demo_mac_a_ok) Hc) as H.
  destruct H as (_ & id & H & _); [done|repeat constructor; done|]. exists id. exact H.
Defined.
