(* ===== verification/NetText.v ===== *)
(** * Dotted addresses

    [arp_print_ip] ([src/src/drivers/arp.c]) and [ipv4_parse_ip] ([src/src/drivers/ipv4.c])
    against the dotted-decimal notation: the parser accepts exactly the notation, the
    printer produces it, and the log line of [arp.c] holds it. *)
From S2P Require Import Prelude Arrays Klib VmArea Net NetChecksum NetProps Unicode Terminal.
From Stdlib Require Import ZArith Lia ZifyBool Bool String.
From stdpp Require Import base numbers list.
Local Open Scope Z_scope.
Local Open Scope kernel_scope.

Section printing.
Context {B : Type} `{Backend B}.

Definition arp_print_ip (ip : Z) : M (terminal B) unit :=
  terminal_put_uint (Z.land (Z.shiftr ip 24) 0xFF) ;;;
  terminal_putc 46 ;;;
  terminal_put_uint (Z.land (Z.shiftr ip 16) 0xFF) ;;;
  terminal_putc 46 ;;;
  terminal_put_uint (Z.land (Z.shiftr ip 8) 0xFF) ;;;
  terminal_putc 46 ;;;
  terminal_put_uint (Z.land ip 0xFF).

Definition ipv4_print_ip (ip : Z) : M (terminal B) unit := arp_print_ip ip.
End printing.

(** ** The notation *)

Definition decimal_digit (c : Z) : Prop := 48 <= c <= 57.

(** A decimal number up to 255; leading zeros are allowed. *)
Definition octet (d : cstring) : Prop := d <> [] /\ Forall decimal_digit d /\ dec_value d <= 255.

(** The parts with dots between them. *)
Fixpoint join (ds : list cstring) : cstring :=
  match ds with
  | [] => []
  | [d] => d
  | d :: ds => d ++ 46 :: join ds
  end.

(** The notation of [ip]: four octets, the most significant first. *)
Definition dotted (s : cstring) (ip : Z) : Prop := exists a b c d,
  octet a /\ octet b /\ octet c /\ octet d /\ s = join [a; b; c; d] /\
  ip = ((dec_value a * 256 + dec_value b) * 256 + dec_value c) * 256 + dec_value d.

(** ** Reading a number *)

Definition dec_from (v : Z) (d : cstring) : Z := foldl (fun a c => a * 10 + (c - 48)) v d.

Lemma dec_from_ge v d : 0 <= v -> Forall decimal_digit d -> v <= dec_from v d.
Proof.
  intros Hv Hd. revert v Hv. induction Hd as [|c d Hc Hd IH]; intros v Hv; cbn; [lia|]. unfold decimal_digit in Hc.
  specialize (IH (v * 10 + (c - 48)) ltac:(lia)). unfold dec_from in *. lia.
Qed.

Lemma parse_octet_digits d rest parts v saw :
  Forall decimal_digit d -> 0 <= v <= 255 ->
  parse_parts (d ++ rest) parts v saw
  = if 255 <? dec_from v d then None else parse_parts rest parts (dec_from v d) (saw || negb (bool_decide (d = []))).
Proof.
  intros Hd. revert v saw. induction Hd as [|c d Hc Hd IH]; intros v saw Hv.
  - cbn [app dec_from foldl]. rewrite (proj2 (Z.ltb_ge 255 v)) by lia. by rewrite orb_false_r.
  - cbn [app parse_parts]. unfold decimal_digit in Hc. rewrite (proj2 (Z.leb_le 48 c)), (proj2 (Z.leb_le c 57)) by lia. cbn [andb].
    rewrite u32_small by lia. cbn [dec_from foldl]. fold (dec_from (v * 10 + (c - 48)) d).
    pose proof (dec_from_ge (v * 10 + (c - 48)) d ltac:(lia) Hd) as Hge. destruct (Z.ltb_spec 255 (v * 10 + (c - 48))).
    + by rewrite (proj2 (Z.ltb_lt 255 (dec_from (v * 10 + (c - 48)) d))) by lia.
    + rewrite IH by lia. cbn [negb bool_decide]. by rewrite orb_true_r.
Qed.

(** The digits at the start of a string. *)
Lemma digits_split s : exists d rest, s = d ++ rest /\ Forall decimal_digit d /\ (forall c r, rest = c :: r -> ~ decimal_digit c).
Proof.
  induction s as [|c s (d & rest & -> & Hd & Hr)]; [by exists [], []|].
  destruct (decide (48 <= c <= 57)) as [Hc|Hc].
  - exists (c :: d), rest. split_and!; [done|by constructor|done].
  - exists [], (c :: d ++ rest). split_and!; [done|constructor|]. by intros ? ? [= <- <-].
Qed.

Lemma parse_complete ds parts :
  ds <> [] -> Forall octet ds -> zlen parts + zlen ds <= 4 -> parse_parts (join ds) parts 0 false = Some (parts ++ map dec_value ds).
Proof.
  intros Hne Hds. revert parts Hne. induction Hds as [|d ds (Hd0 & Hd & Hv) Hds IH]; [done|]. intros parts _ Hl.
  rewrite zlen_cons in Hl. pose proof (zlen_nonneg ds).
  assert (Hrest : forall rest, parse_parts (d ++ rest) parts 0 false = parse_parts rest parts (dec_value d) true).
  { intros rest. rewrite parse_octet_digits by (done || lia). change (dec_from 0 d) with (dec_value d).
    rewrite (proj2 (Z.ltb_ge 255 (dec_value d))) by lia. by rewrite bool_decide_false by done. }
  destruct ds as [|e ds].
  - cbn [join map]. rewrite <- (app_nil_r d) at 1. rewrite Hrest. cbn [parse_parts negb orb].
    by rewrite (proj2 (Z.leb_gt 4 (zlen parts))) by lia.
  - change (join (d :: e :: ds)) with (d ++ 46 :: join (e :: ds)). rewrite Hrest. cbn [parse_parts]. cbn [Z.leb Z.compare Pos.compare Pos.compare_cont andb orb Z.eqb Pos.eqb negb].
    rewrite (proj2 (Z.leb_gt 4 (zlen parts))) by lia. rewrite IH; [by rewrite <- app_assoc|done|].
    rewrite zlen_app. change (zlen [dec_value d]) with 1. lia.
Qed.

Lemma parse_sound n s parts ps :
  (length s < n)%nat -> cstr_ok s -> parse_parts s parts 0 false = Some ps ->
  exists ds, ds <> [] /\ Forall octet ds /\ s = join ds /\ ps = parts ++ map dec_value ds.
Proof.
  revert s parts. induction n as [|n IH]; intros s parts Hn Hs Hp; [lia|].
  destruct (digits_split s) as (d & rest & -> & Hd & Hr). rewrite parse_octet_digits in Hp by (done || lia).
  change (dec_from 0 d) with (dec_value d) in Hp. destruct (Z.ltb_spec 255 (dec_value d)) as [|Hv]; [done|]. cbn [orb] in Hp.
  destruct rest as [|c rest]; cbn [parse_parts] in Hp.
  - rewrite app_nil_r. destruct (bool_decide_reflect (d = [])) as [|Hd0]; cbn [negb orb] in Hp; [done|].
    destruct (4 <=? zlen parts); [done|]. injection Hp as <-. exists [d]. by repeat constructor.
  - specialize (Hr c rest eq_refl). unfold decimal_digit in Hr. apply Forall_app in Hs as [_ Hs]. inversion_clear Hs as [|?? Hc0 Hs'].
    replace ((48 <=? c) && (c <=? 57)) with false in Hp by lia. rewrite (proj2 (Z.eqb_neq c 0)), orb_false_r in Hp by done.
    destruct (Z.eqb_spec c 46) as [->|]; [|done].
    destruct (bool_decide_reflect (d = [])) as [|Hd0]; cbn [negb orb] in Hp; [done|].
    destruct (4 <=? zlen parts); [done|]. rewrite length_app in Hn. cbn [length] in Hn.
    destruct (IH rest (parts ++ [dec_value d]) ltac:(lia) Hs' Hp) as (ds & H1 & H2 & -> & ->).
    exists (d :: ds). split_and!; [done|by repeat constructor| |by rewrite <- app_assoc].
    by destruct ds.
Qed.

Lemma dec_value_nonneg d : Forall decimal_digit d -> 0 <= dec_value d.
Proof. apply (dec_from_ge 0). lia. Qed.

Lemma octet_byte d : octet d -> is_byte (dec_value d).
Proof. intros (_ & Hd & Hv). pose proof (dec_value_nonneg d Hd). unfold is_byte. lia. Qed.

Lemma parse_dotted s ip : cstr_ok s -> ipv4_parse_ip s = Some ip <-> dotted s ip.
Proof.
  intros Hs. assert (Hip : forall a b c d, octet a -> octet b -> octet c -> octet d ->
    Z.lor (Z.lor (Z.lor (u32 (Z.shiftl (dec_value a) 24)) (u32 (Z.shiftl (dec_value b) 16))) (u32 (Z.shiftl (dec_value c) 8))) (dec_value d)
    = ((dec_value a * 256 + dec_value b) * 256 + dec_value c) * 256 + dec_value d).
  { intros a b c d Ha%octet_byte Hb%octet_byte Hc%octet_byte Hd%octet_byte. rewrite <- be32_value by done. unfold be32, is_byte in *.
    rewrite (u32_small (Z.shiftl (dec_value b) 16)), (u32_small (Z.shiftl (dec_value c) 8)) by (rewrite Z.shiftl_mul_pow2 by lia; lia). done. }
  unfold ipv4_parse_ip. split.
  - destruct (parse_parts s [] 0 false) as [ps|] eqn:Ep; [|done].
    destruct (parse_sound (S (length s)) s [] ps ltac:(lia) Hs Ep) as (ds & _ & H2 & -> & ->). cbn [app].
    destruct ds as [|a [|b [|c [|d [|e ds]]]]]; try done.
    + inversion_clear H2 as [|?? Ha H2']. inversion_clear H2' as [|?? Hb H3]. inversion_clear H3 as [|?? Hc H4]. inversion_clear H4 as [|?? Hd _].
      intros [= <-]. exists a, b, c, d. split_and!; try done. by rewrite <- Hip.
    + cbn [map]. rewrite !zlen_cons. pose proof (zlen_nonneg (map dec_value ds)).
      by rewrite (proj2 (Z.eqb_neq _ 4)) by lia.
  - intros (a & b & c & d & Ha & Hb & Hc & Hd & -> & ->). rewrite parse_complete by (done || by repeat (apply Forall_cons_2 || apply Forall_nil_2)).
    cbn [app map]. by rewrite <- Hip.
Qed.

(** ** Printing *)

(** One number. *)
Lemma put_octet v out t (Q : unit -> terminal (list Z) -> Prop) :
  0 <= v <= 255 -> quiet out t ->
  (forall d t', octet d -> dec_value d = v -> quiet (out ++ d) t' -> Q tt t') -> runs (terminal_put_uint v) t Q.
Proof.
  intros Hv Hq HQ. eapply runs_mono; [apply (terminal_put_number v out t); [lia|done]|].
  intros [] t' (d & Hd & Ev & Hne & Hdig). apply (HQ d); [|done..]. split_and!; [done|done|lia].
Qed.

Lemma put_dot out t (Q : unit -> terminal (list Z) -> Prop) :
  quiet out t -> (forall t', quiet (out ++ [46]) t' -> Q tt t') -> runs (terminal_putc 46) t Q.
Proof. intros Hq HQ. eapply runs_mono; [apply (ascii_char_runs 46 out t); lia || done|]. intros []. apply HQ. Qed.

Lemma print_runs ip out t :
  0 <= ip < 2 ^ 32 -> quiet out t ->
  runs (arp_print_ip ip) t (fun _ t' => exists s, quiet (out ++ s) t' /\ dotted s ip).
Proof.
  intros Hip Hq. unfold arp_print_ip. rewrite !land_ff, !Z.shiftr_div_pow2 by lia.
  change (2 ^ 24) with 16777216. change (2 ^ 16) with 65536. change (2 ^ 8) with 256.
  apply runs_bind, (put_octet _ out); [dlia|done|]. intros a t1 Ha Va Q1.
  apply runs_bind, (put_dot _ _ _ Q1). intros t1' Q1'.
  apply runs_bind. eapply put_octet; [dlia|exact Q1'|]. intros b t2 Hb Vb Q2.
  apply runs_bind, (put_dot _ _ _ Q2). intros t2' Q2'.
  apply runs_bind. eapply put_octet; [dlia|exact Q2'|]. intros c t3 Hc Vc Q3.
  apply runs_bind, (put_dot _ _ _ Q3). intros t3' Q3'.
  eapply put_octet; [dlia|exact Q3'|]. intros d t4 Hd Vd Q4.
  exists (join [a; b; c; d]). split.
  - replace (out ++ join [a; b; c; d]) with (((((((out ++ a) ++ [46]) ++ b) ++ [46]) ++ c) ++ [46]) ++ d); [done|].
    cbn [join]. by rewrite <- !app_assoc.
  - exists a, b, c, d. split_and!; try done. rewrite Va, Vb, Vc, Vd. dlia.
Qed.

Lemma dotted_ok s ip : dotted s ip -> cstr_ok s.
Proof.
  assert (Ho : forall d, octet d -> cstr_ok d).
  { intros d (_ & Hd & _). eapply Forall_impl; [done|]. unfold decimal_digit. lia. }
  intros (a & b & c & d & Ha & Hb & Hc & Hd & -> & _). cbn [join]. unfold cstr_ok in *.
  repeat (apply Forall_app_2; [by apply Ho|]; apply Forall_cons_2; [done|]). by apply Ho.
Qed.

(** ** The log line *)

Lemma append_char_fits cap buf c : zlen buf + 1 < cap -> arp_log_append_char cap buf c = buf ++ [c].
Proof. intros Hc. unfold arp_log_append_char. by rewrite (proj2 (Z.leb_gt cap (zlen buf + 1))). Qed.

Lemma append_fits cap buf l : zlen buf + zlen l < cap -> foldl (arp_log_append_char cap) buf l = buf ++ l.
Proof.
  revert buf. induction l as [|c l IH]; intros buf Hc; cbn [foldl]; [by rewrite app_nil_r|].
  rewrite zlen_cons in Hc. pose proof (zlen_nonneg l). rewrite append_char_fits by lia.
  rewrite IH; [by rewrite <- app_assoc|]. rewrite zlen_app. change (zlen [c]) with 1. lia.
Qed.

Lemma log_digits_value n v buf : log_digits n v buf = uint_digits n v buf.
Proof. revert v buf. induction n as [|n IH]; intros v buf; cbn; [done|]. by rewrite IH. Qed.

(** At most three digits. *)
Lemma digits_of_byte v : 0 < v <= 255 -> exists d, uint_digits 10 v [] = d /\ octet d /\ dec_value d = v /\ zlen d <= 3.
Proof.
  intros Hv. destruct (uint_digits_value 10 v []) as [E Hd]; [lia|]. change (dec_value []) with 0 in E. change (zlen []) with 0 in E.
  exists (uint_digits 10 v []). assert (Ev : dec_value (uint_digits 10 v []) = v) by lia. split; [done|].
  split; [split; [|split; [by apply Hd|lia]]|split; [done|]].
  - intros E0. rewrite E0 in Ev. change (dec_value []) with 0 in Ev. lia.
  - clear E Hd Ev. cbn [uint_digits]. do 3 (case_match; [|unfold zlen; cbn; lia]).
    rewrite (proj2 (Z.ltb_ge 0 (v / 10 / 10 / 10))) by dlia. done.
Qed.

Lemma append_octet buf v :
  0 <= v <= 255 -> zlen buf < 44 ->
  exists d, arp_log_append_uint 48 buf v = buf ++ d /\ octet d /\ dec_value d = v /\ zlen d <= 3.
Proof.
  intros Hv Hb. unfold arp_log_append_uint. destruct (Z.eqb_spec v 0) as [->|Hv0].
  - exists [48]. rewrite append_char_fits by lia. split; [done|]. split; [|done]. split_and!; [done| |done]. by repeat constructor.
  - destruct (digits_of_byte v ltac:(lia)) as (d & <- & Hd & Ev & Hl). exists (uint_digits 10 v []). rewrite log_digits_value.
    by rewrite append_fits by lia.
Qed.

Ltac fits := rewrite ?zlen_app; change (zlen [46]) with 1; lia.

Lemma log_line_text ip :
  0 <= ip < 2 ^ 32 -> exists s, arp_log_line ip = bytes "arp: reply to " ++ s ++ [10] /\ dotted s ip.
Proof.
  intros Hip. unfold arp_log_line, arp_log_append_str, arp_log_append_ip. rewrite !land_ff, !Z.shiftr_div_pow2 by lia.
  change (2 ^ 24) with 16777216. change (2 ^ 16) with 65536. change (2 ^ 8) with 256.
  rewrite append_fits by done. cbn [app]. set (hd := bytes _). assert (Hh : zlen hd = 14) by done.
  destruct (append_octet hd (ip / 16777216 mod 256)) as (a & -> & Ha & Va & La); [dlia|fits|].
  rewrite (append_char_fits 48 (hd ++ a) 46) by fits.
  destruct (append_octet ((hd ++ a) ++ [46]) (ip / 65536 mod 256)) as (b & -> & Hb & Vb & Lb); [dlia|fits|].
  rewrite (append_char_fits 48 (((hd ++ a) ++ [46]) ++ b) 46) by fits.
  destruct (append_octet ((((hd ++ a) ++ [46]) ++ b) ++ [46]) (ip / 256 mod 256)) as (c & -> & Hc & Vc & Lc); [dlia|fits|].
  rewrite (append_char_fits 48 (((((hd ++ a) ++ [46]) ++ b) ++ [46]) ++ c) 46) by fits.
  destruct (append_octet ((((((hd ++ a) ++ [46]) ++ b) ++ [46]) ++ c) ++ [46]) (ip mod 256)) as (d & -> & Hd & Vd & Ld); [dlia|fits|].
  rewrite append_char_fits by fits. exists (join [a; b; c; d]). split.
  - cbn [join]. by repeat (rewrite <- !app_assoc; cbn [app]).
  - exists a, b, c, d. split_and!; try done. rewrite Va, Vb, Vc, Vd. dlia.
Qed.

(** ** Theorem *)

(** C32: dotted addresses.  [ipv4_parse_ip] accepts exactly four decimal numbers up to 255
    with dots between them, and returns the address they denote; [arp_print_ip] prints
    every address so that the parser reads it back; and the line that [arp_log_reply]
    writes holds the whole address, its buffer of 48 bytes being large enough. *)
Theorem ipv4_text_roundtrip :
  (forall s ip, cstr_ok s -> ipv4_parse_ip s = Some ip <-> dotted s ip) /\
  (forall ip out t, 0 <= ip < 2 ^ 32 -> quiet out t ->
     runs (arp_print_ip ip) t (fun _ t' => exists s, quiet (out ++ s) t' /\ ipv4_parse_ip s = Some ip)) /\
  (forall ip, 0 <= ip < 2 ^ 32 -> exists s, arp_log_line ip = bytes "arp: reply to " ++ s ++ [10] /\ ipv4_parse_ip s = Some ip).
Proof.
  split_and!.
  - apply parse_dotted.
  - intros ip out t Hip Hq. eapply runs_mono; [by apply print_runs|]. intros _ t' (s & Hs & Hd). exists s. split; [done|].
    apply parse_dotted; [by eapply dotted_ok|done].
  - intros ip Hip. destruct (log_line_text ip Hip) as (s & E & Hd). exists s. split; [done|].
    apply parse_dotted; [by eapply dotted_ok|done].
Qed.

Lemma ipv4_text_roundtrip_witness :
  ipv4_parse_ip (bytes "192.168.001.5") = Some 0xC0A80105.
Proof.
  apply (proj1 ipv4_text_roundtrip (bytes "192.168.001.5") 0xC0A80105); [by repeat constructor|].
  exists (bytes "192"), (bytes "168"), (bytes "001"), (bytes "5"). split_and!; done || by repeat constructor.
Defined.
