(* ===== verification/UserHeap.v ===== *)
(** * The heap of user programs

    Models [src/src/user/libc/malloc.c]: a list of blocks in the heap of the process, grown
    with [sys_brk].  The memory of the process is a map from addresses to bytes; an access
    outside of the heap, between its base and the break, halts.  The kernel is what the
    class [BrkService] says about it. *)
From S2P Require Import Prelude Paging MemCalls.
From Stdlib Require Import ZArith Lia ZifyBool Bool.
From stdpp Require Import base numbers list.
Local Open Scope Z_scope.
Local Open Scope kernel_scope.

(** What the C library relies on: the break stays inside of the heap region, and a call
    returns the break in force, which is the requested one or the old one.  The library
    only asks for the break and for a larger one. *)
Class BrkService (K : Type) := {
  sys_brk : Z -> M K Z;
  brk_of : K -> Z;
  brk_ok : K -> Prop;
  brk_ok_range : forall k, brk_ok k -> USER_HEAP_BASE <= brk_of k < USER_STACK_TOP - USER_STACK_SIZE;
  sys_brk_query : forall k, brk_ok k -> runs (sys_brk 0) k (fun r k' => brk_ok k' /\ r = brk_of k' /\ brk_of k' = brk_of k);
  sys_brk_grow : forall n k, brk_ok k -> brk_of k <= n < 2 ^ 32 ->
    runs (sys_brk n) k (fun r k' => brk_ok k' /\ r = brk_of k' /\ (brk_of k' = n \/ brk_of k' = brk_of k))
}.

Definition SIZEOF_HEAP_BLOCK : Z := 16.

Definition align8 (n : Z) : Z := Z.land (u32 (n + 7)) (Z.lnot 7).
Definition align_page (n : Z) : Z := Z.land (u32 (n + 4095)) (Z.lnot 4095).

(** [s_heap_head] and [s_heap_brk] with the memory and the kernel. *)
Record uheap (K : Type) := UHeap {
  u_mem : Z -> Z;
  s_heap_head : Z;
  s_heap_brk : Z;
  u_kernel : K
}.
Arguments UHeap {K}.
Arguments u_mem {K}.
Arguments s_heap_head {K}.
Arguments s_heap_brk {K}.
Arguments u_kernel {K}.

(** A little-endian word. *)
Definition word_at (m : Z -> Z) (a : Z) : Z := m a + 256 * (m (a + 1) + 256 * (m (a + 2) + 256 * m (a + 3))).
Definition set_byte (m : Z -> Z) (a v : Z) : Z -> Z := fun x => if x =? a then v else m x.
Definition set_word (m : Z -> Z) (a v : Z) : Z -> Z :=
  set_byte (set_byte (set_byte (set_byte m a (u8 v)) (a + 1) (u8 (v / 256))) (a + 2) (u8 (v / 65536))) (a + 3) (u8 (v / 16777216)).

Section heap.
Context {K : Type} `{BrkService K}.

Definition set_mem_of (m : Z -> Z) (u : uheap K) : uheap K := UHeap m (s_heap_head u) (s_heap_brk u) (u_kernel u).
Definition set_head_of (h : Z) (u : uheap K) : uheap K := UHeap (u_mem u) h (s_heap_brk u) (u_kernel u).
Definition set_brk_of (b : Z) (u : uheap K) : uheap K := UHeap (u_mem u) (s_heap_head u) b (u_kernel u).

Definition on_brk {A} (m : M K A) : M (uheap K) A := fun u =>
  match m (u_kernel u) with
  | Some (a, k) => Some (a, UHeap (u_mem u) (s_heap_head u) (s_heap_brk u) k)
  | None => None
  end.

(** The [n] bytes at [a] are in the heap. *)
Definition mapped_at (u : uheap K) (a n : Z) : bool := (USER_HEAP_BASE <=? a) && (a + n <=? brk_of (u_kernel u)).

Definition load (a : Z) : M (uheap K) Z := fun u => if mapped_at u a 4 then Some (word_at (u_mem u) a, u) else None.
Definition store (a v : Z) : M (uheap K) unit := fun u =>
  if mapped_at u a 4 then Some (tt, set_mem_of (set_word (u_mem u) a v) u) else None.
Definition load_byte (a : Z) : M (uheap K) Z := fun u => if mapped_at u a 1 then Some (u_mem u a, u) else None.
Definition store_byte (a v : Z) : M (uheap K) unit := fun u =>
  if mapped_at u a 1 then Some (tt, set_mem_of (set_byte (u_mem u) a v) u) else None.

(** The fields of [heap_block_t]. *)
Definition F_size (b : Z) : Z := b.
Definition F_free (b : Z) : Z := b + 4.
Definition F_next (b : Z) : Z := b + 8.
Definition F_prev (b : Z) : Z := b + 12.

Definition block_payload (b : Z) : Z := u32 (b + SIZEOF_HEAP_BLOCK).

Definition block_end (b : Z) : M (uheap K) Z :=
  size <- load (F_size b) ;;
  ret (u32 (block_payload b + size)).

(** More than the blocks of any list between the base and the break. *)
Definition list_fuel : M (uheap K) nat :=
  gets (fun u => S (Z.to_nat ((brk_of (u_kernel u) - USER_HEAP_BASE) / SIZEOF_HEAP_BLOCK))).

Fixpoint last_loop (fuel : nat) (block : Z) : M (uheap K) Z :=
  match fuel with
  | O => halt
  | S fuel =>
      next <- load (F_next block) ;;
      if negb (next =? 0) then last_loop fuel next else ret block
  end.

Definition heap_last_block : M (uheap K) Z :=
  block <- gets s_heap_head ;;
  if block =? 0 then ret 0
  else fuel <- list_fuel ;; last_loop fuel block.

Definition heap_init : M (uheap K) unit :=
  brk <- gets s_heap_brk ;;
  if negb (brk =? 0) then ret tt
  else
    b <- on_brk (sys_brk 0) ;;
    modify (set_brk_of b) ;;;
    if b <? USER_HEAP_BASE then modify (set_brk_of USER_HEAP_BASE) else ret tt.

Definition heap_extend (min_payload : Z) : M (uheap K) Z :=
  heap_init ;;;
  old_end <- gets s_heap_brk ;;
  let grow_bytes := align_page (u32 (SIZEOF_HEAP_BLOCK + min_payload)) in
  let grow_bytes := if grow_bytes <? 4096 then 4096 else grow_bytes in
  let new_end := u32 (old_end + grow_bytes) in
  if new_end <? old_end then ret 0
  else
    r <- on_brk (sys_brk new_end) ;;
    if negb (r =? new_end) then ret 0
    else
      modify (set_brk_of new_end) ;;;
      last <- heap_last_block ;;
      merge <- (if last =? 0 then ret false
                else
                  free <- load (F_free last) ;;
                  if free =? 0 then ret false
                  else e <- block_end last ;; ret (e =? old_end)) ;;
      if (merge : bool) then
        size <- load (F_size last) ;;
        store (F_size last) (u32 (size + grow_bytes)) ;;;
        ret last
      else
        let block := old_end in
        store (F_size block) (u32 (grow_bytes - SIZEOF_HEAP_BLOCK)) ;;;
        store (F_free block) 1 ;;;
        store (F_next block) 0 ;;;
        store (F_prev block) last ;;;
        (if negb (last =? 0) then store (F_next last) block else modify (set_head_of block)) ;;;
        ret block.

Fixpoint fit_loop (fuel : nat) (size block : Z) : M (uheap K) Z :=
  if block =? 0 then ret 0
  else match fuel with
  | O => halt
  | S fuel =>
      free <- load (F_free block) ;;
      bsize <- (if free =? 0 then ret 0 else load (F_size block)) ;;
      if negb (free =? 0) && (size <=? bsize) then ret block
      else
        next <- load (F_next block) ;;
        fit_loop fuel size next
  end.

Definition heap_find_fit (size : Z) : M (uheap K) Z :=
  block <- gets s_heap_head ;;
  fuel <- list_fuel ;;
  fit_loop fuel size block.

Definition heap_split_block (block size : Z) : M (uheap K) unit :=
  bsize <- load (F_size block) ;;
  if bsize <=? u32 (size + SIZEOF_HEAP_BLOCK + 8) then ret tt
  else
    let remaining := u32 (bsize - size - SIZEOF_HEAP_BLOCK) in
    let next := u32 (block_payload block + size) in
    store (F_size next) remaining ;;;
    store (F_free next) 1 ;;;
    bnext <- load (F_next block) ;;
    store (F_next next) bnext ;;;
    store (F_prev next) block ;;;
    nnext <- load (F_next next) ;;
    (if negb (nnext =? 0) then store (F_prev nnext) next else ret tt) ;;;
    store (F_next block) next ;;;
    store (F_size block) size.

(** [a && b->free && block_end(a) == b] for two linked blocks. *)
Definition free_and_adjacent (left right tested : Z) : M (uheap K) bool :=
  if tested =? 0 then ret false
  else
    free <- load (F_free tested) ;;
    if free =? 0 then ret false
    else e <- block_end left ;; ret (e =? right).

(** [left] takes over [right]: the two bodies of [heap_coalesce], which test the pointer
    [next] of [from]. *)
Definition absorb (left right from : Z) : M (uheap K) unit :=
  lsize <- load (F_size left) ;;
  rsize <- load (F_size right) ;;
  store (F_size left) (u32 (lsize + SIZEOF_HEAP_BLOCK + rsize)) ;;;
  rnext <- load (F_next right) ;;
  store (F_next left) rnext ;;;
  next <- load (F_next from) ;;
  if negb (next =? 0) then store (F_prev next) left else ret tt.

Fixpoint coalesce_loop (fuel : nat) (block : Z) : M (uheap K) unit :=
  next <- load (F_next block) ;;
  adjacent <- free_and_adjacent block next next ;;
  if (adjacent : bool) then
    match fuel with
    | O => halt
    | S fuel => absorb block next block ;;; coalesce_loop fuel block
    end
  else ret tt.

Definition heap_coalesce (block : Z) : M (uheap K) unit :=
  if block =? 0 then ret tt
  else
    prev <- load (F_prev block) ;;
    adjacent <- free_and_adjacent prev block prev ;;
    block <- (if (adjacent : bool) then absorb prev block block ;;; ret prev else ret block) ;;
    fuel <- list_fuel ;;
    coalesce_loop fuel block.

Definition malloc (size : Z) : M (uheap K) Z :=
  if size =? 0 then ret 0
  else
    let need := align8 size in
    block <- heap_find_fit need ;;
    block <- (if negb (block =? 0) then ret block
              else
                extended <- heap_extend need ;;
                if extended =? 0 then ret 0 else heap_find_fit need) ;;
    if block =? 0 then ret 0
    else
      heap_split_block block need ;;;
      store (F_free block) 0 ;;;
      ret (block_payload block).

Definition free (ptr : Z) : M (uheap K) unit :=
  if ptr =? 0 then ret tt
  else
    heap_init ;;;
    brk <- gets s_heap_brk ;;
    if (ptr <? USER_HEAP_BASE) || (brk <=? ptr) then ret tt
    else
      let block := u32 (ptr - SIZEOF_HEAP_BLOCK) in
      store (F_free block) 1 ;;;
      heap_coalesce block.

(** [memcpy] and [memset] of stdio.c; their result, the first argument, is not used here. *)
Definition memcpy (dst src n : Z) : M (uheap K) unit :=
  for_each (up_to 0 n 1) (fun i => b <- load_byte (src + i) ;; store_byte (dst + i) b).

Definition memset (dst v n : Z) : M (uheap K) unit :=
  for_each (up_to 0 n 1) (fun i => store_byte (dst + i) (u8 v)).

Definition realloc (ptr size : Z) : M (uheap K) Z :=
  if ptr =? 0 then malloc size
  else if size =? 0 then free ptr ;;; ret 0
  else
    heap_init ;;;
    brk <- gets s_heap_brk ;;
    if (ptr <? USER_HEAP_BASE) || (brk <=? ptr) then ret 0
    else
      let need := align8 size in
      let block := u32 (ptr - SIZEOF_HEAP_BLOCK) in
      bsize <- load (F_size block) ;;
      if need <=? bsize then heap_split_block block need ;;; ret ptr
      else
        new_ptr <- malloc size ;;
        if new_ptr =? 0 then ret 0
        else
          bsize <- load (F_size block) ;;
          memcpy new_ptr ptr bsize ;;;
          free ptr ;;;
          ret new_ptr.

Definition calloc (nmemb size : Z) : M (uheap K) Z :=
  if (nmemb =? 0) || (size =? 0) then malloc 1
  else if 0xFFFFFFFF / size <? nmemb then ret 0
  else
    let total := u32 (nmemb * size) in
    ptr <- malloc total ;;
    if ptr =? 0 then ret 0
    else
      memset ptr 0 total ;;;
      ret ptr.

End heap.
