(* ===== verification/UserHeapRep.v ===== *)
(** * The blocks of the user heap

    The list of blocks in memory as a list of sizes and flags: the blocks tile the heap
    from its base to the break, and their headers link them in both directions. *)
From S2P Require Import Prelude Paging MemCalls UserHeap.
From Stdlib Require Import ZArith Lia ZifyBool Bool.
From stdpp Require Import base numbers list.
Local Open Scope Z_scope.
Local Open Scope kernel_scope.

(** ** Words *)

Lemma set_word_other m a v x : ~ a <= x < a + 4 -> set_word m a v x = m x.
Proof.
  intros Hx. unfold set_word, set_byte. destruct (Z.eqb_spec x (a + 3)), (Z.eqb_spec x (a + 2)), (Z.eqb_spec x (a + 1)), (Z.eqb_spec x a); lia || done.
Qed.

Lemma word_set_eq m a v : 0 <= v < 2 ^ 32 -> word_at (set_word m a v) a = v.
Proof.
  intros Hv. unfold word_at, set_word, set_byte.
  rewrite ?Z.eqb_refl, ?(proj2 (Z.eqb_neq a (a + 3))), ?(proj2 (Z.eqb_neq a (a + 2))), ?(proj2 (Z.eqb_neq a (a + 1))),
    ?(proj2 (Z.eqb_neq (a + 1) (a + 3))), ?(proj2 (Z.eqb_neq (a + 1) (a + 2))), ?(proj2 (Z.eqb_neq (a + 2) (a + 3))) by lia.
  unfold u8. change (2 ^ 8) with 256. dlia.
Qed.

Lemma word_at_ext m m' a : (forall x, a <= x < a + 4 -> m' x = m x) -> word_at m' a = word_at m a.
Proof. intros E. unfold word_at. by rewrite !E by lia. Qed.

Lemma word_set_ne m a b v : a + 4 <= b \/ b + 4 <= a -> word_at (set_word m a v) b = word_at m b.
Proof. intros Hd. apply word_at_ext. intros x Hx. apply set_word_other. lia. Qed.

(** ** Blocks *)

(** Size and whether the block is free. *)
Abbreviation ublock := (Z * bool)%type.

Fixpoint end_of (a : Z) (bs : list ublock) : Z :=
  match bs with
  | [] => a
  | b :: bs => end_of (a + 16 + b.1) bs
  end.

(** The address of the last block, [p] if there is none. *)
Fixpoint last_of (a p : Z) (bs : list ublock) : Z :=
  match bs with
  | [] => p
  | b :: bs => last_of (a + 16 + b.1) a bs
  end.

(** The pointer to the blocks [bs] at [a], [nxt] if there are none. *)
Definition first_of (a : Z) (bs : list ublock) (nxt : Z) : Z := match bs with [] => nxt | _ => a end.

(** The header of a block. *)
Definition header (m : Z -> Z) (a : Z) (b : ublock) (prev next : Z) : Prop :=
  word_at m a = b.1 /\ word_at m (a + 4) = (if b.2 then 1 else 0) /\ word_at m (a + 8) = next /\ word_at m (a + 12) = prev.

Fixpoint seg (m : Z -> Z) (a prev : Z) (bs : list ublock) (nxt : Z) : Prop :=
  match bs with
  | [] => True
  | b :: bs => header m a b prev (first_of (a + 16 + b.1) bs nxt) /\ seg m (a + 16 + b.1) a bs nxt
  end.

Definition sizes_ok (bs : list ublock) : Prop := Forall (fun b => 0 <= b.1 /\ b.1 mod 8 = 0) bs.

(** Block [p] of [n] bytes is in use. *)
Fixpoint in_use (a : Z) (bs : list ublock) (p n : Z) : Prop :=
  match bs with
  | [] => False
  | b :: bs => (b.2 = false /\ p = a + 16 /\ n = b.1) \/ in_use (a + 16 + b.1) bs p n
  end.

Lemma end_of_app a l1 l2 : end_of a (l1 ++ l2) = end_of (end_of a l1) l2.
Proof. revert a. induction l1 as [|b l1 IH]; intros a; cbn; [done|apply IH]. Qed.

Lemma last_of_app a p l1 l2 : last_of a p (l1 ++ l2) = last_of (end_of a l1) (last_of a p l1) l2.
Proof. revert a p. induction l1 as [|b l1 IH]; intros a p; cbn; [done|apply IH]. Qed.

Lemma link_app a l1 l2 nxt : first_of a (l1 ++ l2) nxt = first_of a l1 (first_of a l2 nxt).
Proof. by destruct l1. Qed.

Lemma seg_app m a p l1 l2 nxt :
  seg m a p (l1 ++ l2) nxt <-> seg m a p l1 (first_of (end_of a l1) l2 nxt) /\ seg m (end_of a l1) (last_of a p l1) l2 nxt.
Proof.
  revert a p. induction l1 as [|b l1 IH]; intros a p; cbn; [tauto|]. rewrite IH.
  replace (first_of (a + 16 + b.1) (l1 ++ l2) nxt) with (first_of (a + 16 + b.1) l1 (first_of (end_of (a + 16 + b.1) l1) l2 nxt)); [tauto|].
  by destruct l1.
Qed.

Lemma in_use_app a l1 l2 p n : in_use a (l1 ++ l2) p n <-> in_use a l1 p n \/ in_use (end_of a l1) l2 p n.
Proof. revert a. induction l1 as [|b l1 IH]; intros a; cbn; [tauto|]. rewrite IH. tauto. Qed.

Lemma end_of_ge a bs : sizes_ok bs -> a + 16 * Z.of_nat (length bs) <= end_of a bs.
Proof.
  intros Hs. revert a. induction Hs as [|b bs [Hb _] Hs IH]; intros a; cbn [end_of length]; [lia|].
  specialize (IH (a + 16 + b.1)). lia.
Qed.

Lemma end_of_mod a bs : sizes_ok bs -> a mod 8 = 0 -> end_of a bs mod 8 = 0.
Proof.
  intros Hs. revert a. induction Hs as [|b bs [Hb Hm] Hs IH]; intros a Ha; cbn; [done|]. apply IH. dlia.
Qed.

Lemma in_use_range a bs p n : sizes_ok bs -> in_use a bs p n -> a + 16 <= p /\ 0 <= n /\ p + n <= end_of a bs.
Proof.
  intros Hs. revert a. induction Hs as [|b bs [Hb _] Hs IH]; intros a; cbn [in_use end_of]; [done|].
  pose proof (end_of_ge (a + 16 + b.1) bs Hs). intros [(_ & -> & ->)|H']; [lia|]. specialize (IH _ H'). lia.
Qed.

Lemma in_use_inv a bs p n : in_use a bs p n -> exists l1 l2, bs = l1 ++ (n, false) :: l2 /\ p = end_of a l1 + 16.
Proof.
  revert a. induction bs as [|[n' f] bs IH]; intros a; cbn [in_use fst snd]; [done|]. intros [(-> & -> & ->)|H'].
  - by exists [], bs.
  - destruct (IH _ H') as (l1 & l2 & -> & ->). by exists ((n', f) :: l1), l2.
Qed.

(** Blocks in use do not overlap, and a pointer belongs to one block. *)
Lemma in_use_disjoint a bs p n q k :
  sizes_ok bs -> in_use a bs p n -> in_use a bs q k -> (p = q /\ n = k) \/ p + n + 16 <= q \/ q + k + 16 <= p.
Proof.
  intros Hs. revert a. induction Hs as [|b bs [Hb _] Hs IH]; intros a; cbn [in_use]; [done|].
  intros [(_ & -> & ->)|Hp] [(_ & -> & ->)|Hq]; [by left| | |by eapply IH].
  - destruct (in_use_range _ _ _ _ Hs Hq). lia.
  - destruct (in_use_range _ _ _ _ Hs Hp). lia.
Qed.

(** ** What a change of memory leaves *)

Definition agrees (m m' : Z -> Z) (lo hi : Z) : Prop := forall x, lo <= x < hi -> m' x = m x.

Lemma header_agrees m m' a b p n lo hi : agrees m m' lo hi -> lo <= a -> a + 16 <= hi -> header m a b p n -> header m' a b p n.
Proof.
  intros Ha Hl Hh (H1 & H2 & H3 & H4). unfold header. rewrite !(word_at_ext m m') by (intros; apply Ha; lia). done.
Qed.

Lemma seg_agrees m m' a p bs nxt : sizes_ok bs -> agrees m m' a (end_of a bs) -> seg m a p bs nxt -> seg m' a p bs nxt.
Proof.
  intros Hs. revert a p. induction Hs as [|b bs [Hb _] Hs IH]; intros a p Ha; cbn [seg]; [done|]. cbn [end_of] in Ha.
  pose proof (end_of_ge (a + 16 + b.1) bs Hs). intros [Hh Hr]. split.
  - eapply header_agrees; [done|lia..|done].
  - apply IH; [|done]. intros x Hx. apply Ha. lia.
Qed.

(** The first block gets another predecessor. *)
Lemma seg_prev m m' a p p' bs nxt :
  sizes_ok bs -> agrees m m' a (a + 12) -> agrees m m' (a + 16) (end_of a bs) -> (bs <> [] -> word_at m' (a + 12) = p') ->
  seg m a p bs nxt -> seg m' a p' bs nxt.
Proof.
  intros Hs H1 H2 Hp. destruct bs as [|b bs]; cbn [seg]; [done|]. inversion_clear Hs as [|?? [Hb _] Hs']. cbn [end_of] in H2.
  pose proof (end_of_ge (a + 16 + b.1) bs Hs'). intros [(E1 & E2 & E3 & E4) Hr]. split.
  - unfold header. rewrite !(word_at_ext m m' a), (word_at_ext m m' (a + 4)), (word_at_ext m m' (a + 8)) by (intros; apply H1; lia).
    split_and!; try done. by apply Hp.
  - apply (seg_agrees m); [done| |done]. intros x Hx. apply H2. lia.
Qed.

Lemma last_of_range a p bs : sizes_ok bs -> bs <> [] -> a <= last_of a p bs /\ last_of a p bs + 16 <= end_of a bs.
Proof.
  intros Hs. revert a p. induction Hs as [|b bs [Hb _] Hs IH]; intros a p Hne; [done|]. cbn [last_of end_of].
  pose proof (end_of_ge (a + 16 + b.1) bs Hs). destruct bs as [|b' bs]; [cbn; lia|].
  destruct (IH (a + 16 + b.1) a ltac:(done)). lia.
Qed.

(** The last block gets another successor. *)
Lemma seg_next m m' a p bs nxt nxt' :
  sizes_ok bs -> bs <> [] -> (forall x, a <= x < end_of a bs -> ~ last_of a p bs + 8 <= x < last_of a p bs + 12 -> m' x = m x) ->
  word_at m' (last_of a p bs + 8) = nxt' -> seg m a p bs nxt -> seg m' a p bs nxt'.
Proof.
  intros Hs. revert a p. induction Hs as [|b bs [Hb _] Hs IH]; intros a p Hne Ha Hw; [done|]. cbn [end_of last_of seg] in *.
  pose proof (end_of_ge (a + 16 + b.1) bs Hs). destruct bs as [|b' bs]; cbn [first_of] in *.
  - cbn [last_of end_of] in *. intros [(E1 & E2 & E3 & E4) _]. split; [|done]. unfold header.
    rewrite (word_at_ext m m' a), (word_at_ext m m' (a + 4)), (word_at_ext m m' (a + 12)) by (intros; apply Ha; lia). done.
  - intros [Hh Hr]. destruct (last_of_range (a + 16 + b.1) a (b' :: bs) Hs) as [Hl1 Hl2]; [done|]. split.
    + eapply (header_agrees m m' a b p _ a (a + 16)); [|lia..|done]. intros x Hx. apply Ha; lia.
    + apply (IH _ _ ltac:(done)); [|done|done]. intros x Hx Hn. apply Ha; [lia|done].
Qed.

(** ** The invariant *)

Section rep.
Context {K : Type} `{BrkService K}.
Implicit Types u : uheap K.

(** The last block is not empty. *)
Definition last_pos (bs : list ublock) : Prop := forall l b, bs = l ++ [b] -> 0 < b.1.

(** The blocks [bs] tile the heap from [base] to the break. *)
Record heap_ok (u : uheap K) (base : Z) (bs : list ublock) : Prop := HeapOk {
  ho_kernel : brk_ok (u_kernel u);
  ho_brk : s_heap_brk u = brk_of (u_kernel u) \/ s_heap_brk u = 0 /\ bs = [];
  ho_base : USER_HEAP_BASE <= base /\ base mod 8 = 0;
  ho_end : end_of base bs = brk_of (u_kernel u);
  ho_head : s_heap_head u = first_of base bs 0;
  ho_seg : seg (u_mem u) base 0 bs 0;
  ho_sizes : sizes_ok bs;
  ho_last : last_pos bs
}.

Lemma ho_range u base bs : heap_ok u base bs -> USER_HEAP_BASE <= base <= end_of base bs /\ end_of base bs < USER_STACK_TOP - USER_STACK_SIZE.
Proof.
  intros [Hk _ [Hb _] He _ _ Hs _]. pose proof (brk_ok_range _ Hk). pose proof (end_of_ge base bs Hs). lia.
Qed.

Lemma runs_load u a (Q : Z -> uheap K -> Prop) :
  USER_HEAP_BASE <= a -> a + 4 <= brk_of (u_kernel u) -> Q (word_at (u_mem u) a) u -> runs (load a) u Q.
Proof.
  intros Ha He HQ. unfold runs, load, mapped_at. by rewrite (proj2 (Z.leb_le USER_HEAP_BASE a)), (proj2 (Z.leb_le (a + 4) _)).
Qed.

Lemma runs_store u a v (Q : unit -> uheap K -> Prop) :
  USER_HEAP_BASE <= a -> a + 4 <= brk_of (u_kernel u) -> Q tt (set_mem_of (set_word (u_mem u) a v) u) -> runs (store a v) u Q.
Proof.
  intros Ha He HQ. unfold runs, store, mapped_at. by rewrite (proj2 (Z.leb_le USER_HEAP_BASE a)), (proj2 (Z.leb_le (a + 4) _)).
Qed.

Lemma set_mem_twice m m' u : set_mem_of m (set_mem_of m' u) = set_mem_of m u.
Proof. done. Qed.

(** Some blocks are replaced by others that fill the same space. *)
Lemma replace_ok u base l1 mid mid' l2 m' :
  let A := end_of base l1 in let B := end_of A mid in let P := last_of base 0 l1 in
  heap_ok u base (l1 ++ mid ++ l2) -> mid <> [] -> mid' <> [] -> end_of A mid' = B -> sizes_ok mid' ->
  (l2 = [] -> last_pos mid') ->
  agrees (u_mem u) m' base A -> seg m' A P mid' (first_of B l2 0) -> seg m' B (last_of A P mid') l2 0 ->
  heap_ok (set_mem_of m' u) base (l1 ++ mid' ++ l2).
Proof.
  intros A B P [Hk Hb Hba He Hh Hs Hz Hl] Hm Hm' EB Hz' Hlp Ha Hs1 Hs2.
  apply Forall_app in Hz as [Hz1 Hz23]. apply Forall_app in Hz23 as [Hz2 Hz3].
  apply seg_app in Hs as [S1 S23]. constructor; try done; cbn [set_mem_of u_mem u_kernel s_heap_brk s_heap_head].
  - destruct Hb as [Hb|[_ Hb]]; [by left|]. by destruct l1, mid.
  - rewrite !end_of_app. fold A. rewrite EB. rewrite !end_of_app in He. exact He.
  - rewrite Hh. destruct l1; [|done]. by destruct mid, mid'.
  - apply seg_app. fold A P. split.
    + apply (seg_agrees (u_mem u)); [done|exact Ha|]. replace (first_of A (mid' ++ l2) 0) with (first_of A (mid ++ l2) 0); [done|]. by destruct mid, mid'.
    + apply seg_app. rewrite EB. done.
  - by repeat apply Forall_app_2.
  - intros l b E. destruct (decide (l2 = [])) as [->|Hne].
    + rewrite app_nil_r in E. destruct (exists_last Hm') as (l' & b' & ->). rewrite app_assoc in E.
      apply app_inj_tail in E as [_ <-]. by apply (Hlp eq_refl l').
    + destruct (exists_last Hne) as (l' & b' & ->). apply (Hl (l1 ++ mid ++ l')).
      rewrite !app_assoc in E. apply app_inj_tail in E as [_ <-]. by rewrite <- !app_assoc.
Qed.

End rep.
