(* ===== verification/UserHeapOps.v ===== *)
(** * The operations on blocks of the user heap

    Each helper of [malloc.c] on the list of blocks: what becomes of the blocks, and which
    bytes of memory stay as they were. *)
From S2P Require Import Prelude Paging MemCalls UserHeap UserHeapRep.
From Stdlib Require Import ZArith Lia ZifyBool Bool.
From stdpp Require Import base relations numbers list.
Local Open Scope Z_scope.
Local Open Scope kernel_scope.

Ltac heap_consts := change SIZEOF_HEAP_BLOCK with 16 in *; unfold F_size, F_free, F_next, F_prev, block_payload in *;
  change SIZEOF_HEAP_BLOCK with 16 in *; change USER_HEAP_BASE with 268435456 in *.

(** An address between the base and the break. *)
Ltac in_heap := cbn [set_mem_of set_brk_of set_head_of u_kernel]; heap_consts; lia.

(** Words of a memory after some stores. *)
Ltac words := repeat first [rewrite word_set_eq by (repeat case_match; lia)|rewrite word_set_ne by lia].

(** The value [v] that a load finds after some stores. *)
Ltac finds v := match goal with |- context [word_at ?m ?a] =>
  let E := fresh in assert (E : word_at m a = v) by (words; first [done|lia]); rewrite E; clear E end.

Lemma heap_limit : USER_STACK_TOP - USER_STACK_SIZE < 2 ^ 32.
Proof. done. Qed.

Section ops.
Context {K : Type} `{BrkService K}.
Implicit Types u : uheap K.

(** The list of blocks is in the heap, which may go on after it. *)
Record listed (u : uheap K) (base : Z) (bs : list ublock) : Prop := Listed {
  li_base : 268435456 <= base /\ base mod 8 = 0;
  li_end : end_of base bs <= brk_of (u_kernel u) < 2 ^ 32;
  li_head : s_heap_head u = first_of base bs 0;
  li_seg : seg (u_mem u) base 0 bs 0;
  li_sizes : sizes_ok bs
}.

Lemma heap_listed u base bs : heap_ok u base bs -> listed u base bs.
Proof.
  intros O. pose proof (ho_range _ _ _ O) as [Hr1 Hr2]. pose proof heap_limit. destruct O as [Hk _ Hb He Hh Hs Hz _].
  constructor; try done. lia.
Qed.

(** A block and its surroundings. *)
Lemma focus_listed u base l1 b l2 :
  listed u base (l1 ++ b :: l2) ->
  let A := end_of base l1 in
  header (u_mem u) A b (last_of base 0 l1) (first_of (A + 16 + b.1) l2 0) /\ seg (u_mem u) (A + 16 + b.1) A l2 0 /\
  268435456 <= base <= A /\ 0 <= b.1 /\ b.1 mod 8 = 0 /\ A + 16 + b.1 <= end_of (A + 16 + b.1) l2 /\
  end_of (A + 16 + b.1) l2 <= brk_of (u_kernel u) /\ brk_of (u_kernel u) < 2 ^ 32 /\ A mod 8 = 0 /\ sizes_ok l1 /\ sizes_ok l2.
Proof.
  intros [[Hb Hm] [He Hl] _ Hs Hz] A. apply Forall_app in Hz as [Hz1 Hz2]. inversion_clear Hz2 as [|?? [Hb0 Hb8] Hz3].
  apply seg_app in Hs as [_ [Hh Hs]]. rewrite end_of_app in He. cbn [end_of] in He. fold A in He, Hh, Hs.
  pose proof (end_of_ge base l1 Hz1). pose proof (end_of_ge (A + 16 + b.1) l2 Hz3).
  split_and!; try done; try lia. by apply end_of_mod.
Qed.

Lemma focus u base l1 b l2 :
  heap_ok u base (l1 ++ b :: l2) ->
  let A := end_of base l1 in
  header (u_mem u) A b (last_of base 0 l1) (first_of (A + 16 + b.1) l2 0) /\ seg (u_mem u) (A + 16 + b.1) A l2 0 /\
  268435456 <= base <= A /\ 0 <= b.1 /\ b.1 mod 8 = 0 /\ A + 16 + b.1 <= end_of (A + 16 + b.1) l2 /\
  end_of (A + 16 + b.1) l2 = brk_of (u_kernel u) /\ brk_of (u_kernel u) < 2 ^ 32 /\ A mod 8 = 0 /\ sizes_ok l1 /\ sizes_ok l2.
Proof.
  intros O A. destruct (focus_listed _ _ _ _ _ (heap_listed _ _ _ O)) as (H1 & H2 & H3 & H4 & H5 & H6 & H7 & H8 & H9 & H10 & H11).
  split_and!; try done; try lia. rewrite <- (ho_end _ _ _ O), end_of_app. done.
Qed.

(** The flag of a block. *)
Lemma mark_runs u base l1 n f l2 v (Q : unit -> uheap K -> Prop) :
  heap_ok u base (l1 ++ (n, f) :: l2) ->
  let A := end_of base l1 in
  (forall m', heap_ok (set_mem_of m' u) base (l1 ++ (n, v) :: l2) -> (forall x, ~ A <= x < A + 16 -> m' x = u_mem u x) -> Q tt (set_mem_of m' u)) ->
  runs (store (F_free A) (if v then 1 else 0)) u Q.
Proof.
  intros O A HQ. destruct (focus _ _ _ _ _ O) as ((H1 & H2 & H3 & H4) & Hs & Hr & Hn & H8 & Hle & He & Hm & HA & Hz1 & Hz2).
  fold A in H1, H2, H3, H4, Hs, Hr, Hle, He, HA. cbn [fst snd] in *. apply runs_store; [in_heap..|].
  apply HQ; [|intros x Hx; apply set_word_other; heap_consts; lia].
  apply (replace_ok u base l1 [(n, f)] [(n, v)] l2); cbn [end_of last_of fst snd]; fold A; try done; heap_consts.
  - by repeat constructor.
  - intros -> l b E. destruct l as [|? [|]]; try done. injection E as <-. exact (ho_last _ _ _ O l1 (n, f) eq_refl).
  - intros x Hx. apply set_word_other. lia.
  - split; [|done]. unfold header. cbn [fst snd first_of]. by split_and!; words.
  - apply (seg_agrees (u_mem u)); [done| |done]. intros x Hx. apply set_word_other. lia.
Qed.
(** [block_end] of a block of the list. *)
Lemma block_end_runs u base l1 b l2 (Q : Z -> uheap K -> Prop) :
  listed u base (l1 ++ b :: l2) -> Q (end_of base l1 + 16 + b.1) u -> runs (block_end (end_of base l1)) u Q.
Proof.
  intros O HQ. destruct (focus_listed _ _ _ _ _ O) as ((H1 & _) & _ & Hr & Hn & _ & Hle & He & Hm & _).
  apply runs_bind, runs_load; [in_heap..|]. apply runs_ret. heap_consts.
  rewrite H1, (u32_small (end_of base l1 + 16)), u32_small by lia. done.
Qed.

(** [heap_split_block]: a rest of more than 8 bytes becomes a free block. *)
Lemma split_block_runs u base l1 n f l2 s (Q : unit -> uheap K -> Prop) :
  heap_ok u base (l1 ++ (n, f) :: l2) -> 0 <= s <= n -> s mod 8 = 0 ->
  let A := end_of base l1 in
  (n <= s + 24 -> Q tt u) ->
  (forall m', s + 24 < n -> heap_ok (set_mem_of m' u) base (l1 ++ (s, f) :: (n - s - 16, true) :: l2) ->
     (forall x, x < A \/ A + 16 <= x < A + 16 + s \/ A + 16 + n + 16 <= x -> m' x = u_mem u x) -> Q tt (set_mem_of m' u)) ->
  runs (heap_split_block A s) u Q.
Proof.
  intros O Hs Hs8 A Hshort HQ.
  destruct (focus _ _ _ _ _ O) as ((H1 & H2 & H3 & H4) & Hseg & Hr & Hn & H8 & Hle & He & Hm & HA & Hz1 & Hz2).
  fold A in H1, H2, H3, H4, Hseg, Hr, Hle, He, HA. cbn [fst snd] in *. unfold heap_split_block. heap_consts.
  apply runs_bind, runs_load; [in_heap..|]. rewrite H1, u32_small by lia.
  destruct (Z.leb_spec n (s + 16 + 8)); [by apply runs_ret, Hshort; lia|].
  rewrite (u32_small (A + 16)), (u32_small (A + 16 + s)), (u32_small (n - s - 16)) by lia. cbv zeta. remember (A + 16 + s) as N eqn:EN.
  assert (HB : l2 <> [] -> A + 16 + n + 16 <= brk_of (u_kernel u)).
  { intros Hne. pose proof (end_of_ge (A + 16 + n) l2 Hz2). destruct l2; [done|]. cbn [length] in *. lia. }
  assert (HL : first_of (A + 16 + n) l2 0 = 0 /\ l2 = [] \/ first_of (A + 16 + n) l2 0 = A + 16 + n /\ l2 <> []) by (destruct l2; [by left|by right]).
  do 2 (apply runs_bind, runs_store; [in_heap..|]). rewrite !set_mem_twice. cbn [set_mem_of u_mem].
  apply runs_bind, runs_load; [in_heap..|]. cbn [set_mem_of u_mem]. finds (first_of (A + 16 + n) l2 0).
  do 2 (apply runs_bind, runs_store; [in_heap..|]). rewrite !set_mem_twice. cbn [set_mem_of u_mem].
  apply runs_bind, runs_load; [in_heap..|]. cbn [set_mem_of u_mem]. finds (first_of (A + 16 + n) l2 0).
  set (m1 := set_word (set_word _ _ _) _ _). remember (A + 16 + n) as B eqn:EB.
  assert (Hfin : forall m2, (forall x, ~ B + 12 <= x < B + 16 -> m2 x = m1 x) -> (l2 <> [] -> word_at m2 (B + 12) = N) ->
    runs (store (A + 8) N ;;; store A s) (set_mem_of m2 u) Q).
  { intros m2 H21 H2p. assert (Hw : forall a, a + 4 <= B + 12 -> word_at m2 a = word_at m1 a) by (intros; apply word_at_ext; intros; apply H21; lia).
    apply runs_bind, runs_store; [in_heap..|]. apply runs_store; [in_heap..|]. rewrite !set_mem_twice. cbn [set_mem_of u_mem].
    assert (Hx : forall x, x < A \/ A + 16 <= x < N \/ N + 16 <= x < B + 12 \/ B + 16 <= x ->
      set_word (set_word m2 (A + 8) N) A s x = u_mem u x).
    { intros x Hx. rewrite !set_word_other by lia. rewrite H21 by lia. unfold m1. by rewrite !set_word_other by lia. }
    apply HQ; [lia| |intros x Hx'; apply Hx; lia].
    apply (replace_ok u base l1 [(n, f)] [(s, f); (n - s - 16, true)] l2); cbn [end_of last_of seg first_of fst snd]; fold A; rewrite <- ?EN, <- ?EB; try done.
    - lia.
    - repeat constructor; cbn [fst]; lia || dlia.
    - intros _ l b E. destruct l as [|? [|? [|]]]; try done. injection E as _ <-. cbn. lia.
    - intros x Hx'. apply Hx. lia.
    - replace (N + 16 + (n - s - 16)) with B by lia. unfold header. cbn [fst snd]. split_and!; try done; words; rewrite ?Hw by lia; unfold m1; words; done.
    - replace (N + 16 + (n - s - 16)) with B by lia. apply (seg_prev (u_mem u) _ B A); [done| | | |done].
      + intros x Hx'. apply Hx. lia.
      + intros x Hx'. apply Hx. lia.
      + intros Hne. words. by apply H2p. }
  apply runs_bind. destruct HL as [[-> ->]|[-> Hne]].
  - apply runs_ret. apply Hfin; done.
  - rewrite (proj2 (Z.eqb_neq B 0)) by lia. cbn [negb]. specialize (HB Hne). apply runs_store; [in_heap..|]. rewrite set_mem_twice.
    cbn [set_mem_of u_mem]. apply Hfin.
    + intros x Hx. apply set_word_other. lia.
    + intros _. words. done.
Qed.

(** [absorb]: two neighbours become one block. *)
Lemma absorb_runs u base l1 n1 f n2 g l2 from (Q : unit -> uheap K -> Prop) :
  heap_ok u base (l1 ++ (n1, f) :: (n2, g) :: l2) ->
  let A := end_of base l1 in let C := A + 16 + n1 in
  from = A \/ from = C ->
  (forall m', heap_ok (set_mem_of m' u) base (l1 ++ (n1 + 16 + n2, f) :: l2) ->
     (forall x, x < A \/ A + 16 <= x < C \/ C + 16 + n2 + 16 <= x -> m' x = u_mem u x) -> Q tt (set_mem_of m' u)) ->
  runs (absorb A C from) u Q.
Proof.
  intros O A C Hfrom HQ. destruct (focus _ _ _ _ _ O) as ((H1 & H2 & H3 & H4) & Hseg & Hr & Hn & H8 & Hle & He & Hm & HA & Hz1 & Hz2).
  fold A in H1, H2, H3, H4, Hseg, Hr, Hle, He, HA. cbn [fst snd first_of] in *. fold C in Hseg, Hle, He, H3. inversion_clear Hz2 as [|b0 l0 [Hn2 H82] Hz3].
  cbn [seg end_of fst snd] in *. destruct Hseg as [(C1 & C2 & C3 & C4) Hseg]. cbn [fst snd] in *. remember (C + 16 + n2) as B eqn:EB.
  assert (EC : C = A + 16 + n1) by done. clearbody C. pose proof (end_of_ge B l2 Hz3) as HeB.
  assert (HB : l2 <> [] -> B + 16 <= brk_of (u_kernel u)) by (intros Hne; destruct l2; [done|]; cbn [length] in *; lia).
  assert (HL : first_of B l2 0 = 0 /\ l2 = [] \/ first_of B l2 0 = B /\ l2 <> []) by (destruct l2; [by left|by right]).
  unfold absorb. heap_consts.
  apply runs_bind, runs_load; [in_heap..|]. apply runs_bind, runs_load; [in_heap..|]. rewrite H1, C1, u32_small by lia.
  apply runs_bind, runs_store; [in_heap..|]. apply runs_bind, runs_load; [in_heap..|]. cbn [set_mem_of u_mem]. finds (first_of B l2 0).
  apply runs_bind, runs_store; [in_heap..|]. rewrite set_mem_twice. cbn [set_mem_of u_mem].
  apply runs_bind, runs_load; [in_heap..|]. cbn [set_mem_of u_mem].
  match goal with |- context [word_at ?m ?a] => assert (Ew : word_at m a = first_of B l2 0) by (destruct Hfrom as [->| ->]; words; done); rewrite Ew end.
  set (m1 := set_word (set_word _ _ _) _ _) in *.
  assert (Hfin : forall m2, (forall x, ~ B + 12 <= x < B + 16 -> m2 x = m1 x) -> (l2 <> [] -> word_at m2 (B + 12) = A) -> Q tt (set_mem_of m2 u)).
  { intros m2 H21 H2p. assert (Hw : forall a, a + 4 <= B + 12 -> word_at m2 a = word_at m1 a) by (intros; apply word_at_ext; intros; apply H21; lia).
    assert (Hx : forall x, x < A \/ A + 12 <= x < B + 12 \/ B + 16 <= x -> m2 x = u_mem u x).
    { intros x Hx. rewrite H21 by lia. unfold m1. by rewrite !set_word_other by lia. }
    apply HQ; [|intros x Hx'; apply Hx; lia].
    apply (replace_ok u base l1 [(n1, f); (n2, g)] [(n1 + 16 + n2, f)] l2); cbn [end_of last_of seg first_of fst snd]; fold A; rewrite <- ?EC, <- ?EB; try done.
    - lia.
    - repeat constructor; cbn [fst]; lia || dlia.
    - intros -> l b E. destruct l as [|? [|]]; try done. injection E as <-. cbn. lia.
    - intros x Hx'. apply Hx. lia.
    - unfold header. cbn [fst snd]. split_and!; try done; rewrite ?Hw by lia; unfold m1; words; done.
    - apply (seg_prev (u_mem u) _ B C); [done| | | |done].
      + intros x Hx'. apply Hx. lia.
      + intros x Hx'. apply Hx. lia.
      + done. }
  destruct HL as [[-> ->]|[-> Hne]].
  - apply runs_ret. apply Hfin; done.
  - rewrite (proj2 (Z.eqb_neq B 0)) by lia. cbn [negb]. specialize (HB Hne). apply runs_store; [in_heap..|]. rewrite set_mem_twice.
    cbn [set_mem_of u_mem]. apply Hfin.
    + intros x Hx. apply set_word_other. lia.
    + intros _. words. done.
Qed.

(** ** Loops over the list *)

Lemma fuel_runs u base bs (Q : nat -> uheap K -> Prop) :
  listed u base bs -> (forall fuel, (length bs < fuel)%nat -> Q fuel u) -> runs list_fuel u Q.
Proof.
  intros O HQ. apply runs_gets, HQ. pose proof (end_of_ge base bs (li_sizes _ _ _ O)). pose proof (li_base _ _ _ O) as [Hb _].
  pose proof (li_end _ _ _ O). heap_consts. dlia.
Qed.

(** The blocks that [heap_find_fit] passes over do not fit. *)
Definition no_fit (s : Z) (bs : list ublock) : Prop := Forall (fun b => b.2 = true -> b.1 < s) bs.

Lemma fit_loop_runs fuel u base l1 l2 s :
  heap_ok u base (l1 ++ l2) -> (length l2 <= fuel)%nat ->
  let A := end_of base l1 in
  runs (fit_loop fuel s (first_of A l2 0)) u (fun r u' => u' = u /\
    ((r = 0 /\ no_fit s l2) \/ exists k n l3, l2 = k ++ (n, true) :: l3 /\ s <= n /\ r = end_of A k /\ r <> 0)).
Proof.
  revert l1 l2. induction fuel as [|fuel IH]; intros l1 l2 O Hf A.
  { destruct l2; [|cbn in Hf; lia]. apply runs_ret. split; [done|]. left. by split; [|constructor]. }
  destruct l2 as [|[n f] l2]; [apply runs_ret; split; [done|]; left; by split; [|constructor]|]. cbn [first_of fit_loop].
  destruct (focus _ _ _ _ _ O) as ((H1 & H2 & H3 & H4) & Hseg & Hr & Hn & H8 & Hle & He & Hm & HA & Hz1 & Hz2).
  fold A in H1, H2, H3, H4, Hr, Hle, He. cbn [fst snd] in *. rewrite (proj2 (Z.eqb_neq A 0)) by lia.
  apply runs_bind, runs_load; [in_heap..|]. heap_consts. rewrite H2.
  assert (Hrest : (f = true -> n < s) -> runs (next <- load (A + 8) ;; fit_loop fuel s next) u (fun r u' => u' = u /\
    ((r = 0 /\ no_fit s ((n, f) :: l2)) \/ exists k n' l3, (n, f) :: l2 = k ++ (n', true) :: l3 /\ s <= n' /\ r = end_of A k /\ r <> 0))).
  { intros Hno. apply runs_bind, runs_load; [in_heap..|]. rewrite H3. pose proof (IH (l1 ++ [(n, f)]) l2) as IH'.
    rewrite <- app_assoc, end_of_app in IH'. cbn [app end_of fst] in IH'. fold A in IH'.
    eapply runs_mono; [apply IH'; [done|cbn in Hf; lia]|]. cbv beta.
    intros r u' (-> & [(-> & Hall)|(k & n' & l3 & -> & Hs & -> & Hnz)]); split; try done.
    - left. split; [done|]. by constructor.
    - right. by exists ((n, f) :: k), n', l3. }
  destruct f; cbn [Z.eqb].
  - apply runs_bind, runs_load; [in_heap..|]. rewrite H1. destruct (Z.leb_spec s n); cbn [negb andb]; [|by apply Hrest].
    apply runs_ret. split; [done|]. right. exists [], n, l2. split_and!; try done. cbn. lia.
  - apply runs_bind, runs_ret. cbn [negb andb]. by apply Hrest.
Qed.

Lemma find_fit_runs u base bs s :
  heap_ok u base bs ->
  runs (heap_find_fit s) u (fun r u' => u' = u /\
    ((r = 0 /\ no_fit s bs) \/ exists l1 n l2, bs = l1 ++ (n, true) :: l2 /\ s <= n /\ r = end_of base l1 /\ r <> 0)).
Proof.
  intros O. apply runs_bind, runs_gets, runs_bind, (fuel_runs u base bs _ (heap_listed _ _ _ O)). intros fuel Hf. rewrite (ho_head _ _ _ O).
  apply (fit_loop_runs fuel u base [] bs s O). lia.
Qed.

Lemma last_loop_runs fuel u base l1 b l2 :
  listed u base (l1 ++ b :: l2) -> (length l2 < fuel)%nat ->
  runs (last_loop fuel (end_of base l1)) u (fun r u' => u' = u /\ r = last_of base 0 (l1 ++ b :: l2)).
Proof.
  revert l1 b l2. induction fuel as [|fuel IH]; intros l1 b l2 O Hf; [lia|]. cbn [last_loop].
  destruct (focus_listed _ _ _ _ _ O) as ((H1 & H2 & H3 & H4) & Hseg & Hr & Hn & H8 & Hle & He & Hm & HA & Hz1 & Hz2).
  apply runs_bind, runs_load; [in_heap..|]. heap_consts. rewrite H3. destruct l2 as [|b' l2]; cbn [first_of].
  - apply runs_ret. split; [done|]. rewrite last_of_app. done.
  - rewrite (proj2 (Z.eqb_neq _ 0)) by lia. cbn [negb]. pose proof (IH (l1 ++ [b]) b' l2) as IH'.
    rewrite <- app_assoc, end_of_app in IH'. cbn [app end_of] in IH'. apply IH'; [done|cbn in Hf; lia].
Qed.

Lemma last_block_runs u base bs :
  listed u base bs -> runs heap_last_block u (fun r u' => u' = u /\ r = last_of base 0 bs).
Proof.
  intros O. apply runs_bind, runs_gets. rewrite (li_head _ _ _ O). destruct bs as [|b bs]; cbn [first_of]; [by apply runs_ret|].
  pose proof (li_base _ _ _ O) as [Hb _]. rewrite (proj2 (Z.eqb_neq base 0)) by (heap_consts; lia).
  apply runs_bind, (fuel_runs u base _ _ O). intros fuel Hf. cbn in Hf. apply (last_loop_runs fuel u base [] b bs O). lia.
Qed.

(** The kernel after some queries of the break, which do not move it. *)
Definition queried : K -> K -> Prop := rtc (fun k k' => exists r, sys_brk 0 k = Some (r, k')).

Lemma init_runs u base bs (Q : unit -> uheap K -> Prop) :
  heap_ok u base bs ->
  (forall u', heap_ok u' base bs -> s_heap_brk u' = end_of base bs -> u_mem u' = u_mem u -> queried (u_kernel u) (u_kernel u') -> Q tt u') ->
  runs heap_init u Q.
Proof.
  intros O HQ. pose proof (ho_range _ _ _ O) as [Hr _]. apply runs_bind, runs_gets. destruct (ho_brk _ _ _ O) as [E|[E ->]]; rewrite E.
  - rewrite <- (ho_end _ _ _ O), (proj2 (Z.eqb_neq _ 0)) by (heap_consts; lia). apply runs_ret, HQ; [done| |done|apply rtc_refl].
    by rewrite E, (ho_end _ _ _ O).
  - cbn [Z.eqb negb]. destruct O as [Hk Hb Hba He Hh Hs Hz Hl]. cbn [end_of] in He. apply runs_bind. unfold runs at 1, on_brk.
    pose proof (sys_brk_query _ Hk) as Hq. unfold runs in Hq. destruct (sys_brk 0 (u_kernel u)) as [[r k']|] eqn:Eq; [|done].
    destruct Hq as (Hk' & -> & Eb). apply runs_bind, runs_modify. cbn [set_brk_of].
    rewrite (proj2 (Z.ltb_ge (brk_of k') USER_HEAP_BASE)) by lia. apply runs_ret, HQ; cbn; [|congruence|done|apply rtc_once; by eexists].
    constructor; cbn; try done; [by left|congruence].
Qed.

End ops.
