(* ===== verification/UserHeapProps.v ===== *)
(** * Allocation and release on the user heap

    [heap_extend], [heap_coalesce], [malloc], [free], [realloc] and [calloc] on the blocks
    in use: which blocks there are afterwards and which bytes keep their value. *)
From S2P Require Import Prelude Paging MemCalls UserHeap UserHeapRep UserHeapOps.
From Stdlib Require Import ZArith Lia ZifyBool Bool.
From stdpp Require Import base relations numbers list.
Local Open Scope Z_scope.
Local Open Scope kernel_scope.

(** The contents of the blocks in use. *)
Definition kept (base : Z) (bs : list ublock) (m m' : Z -> Z) : Prop :=
  forall p n, in_use base bs p n -> agrees m m' p (p + n).

Definition same_use (base : Z) (bs bs' : list ublock) : Prop := forall p n, in_use base bs p n <-> in_use base bs' p n.

Lemma kept_refl base bs m : kept base bs m m.
Proof. by intros p n _ x _. Qed.

Lemma kept_trans base bs bs' m m' m'' :
  same_use base bs bs' -> kept base bs m m' -> kept base bs' m' m'' -> kept base bs m m''.
Proof.
  intros Hs H1 H2 p n Hu x Hx. rewrite (H2 p n); [by apply (H1 p n)|by apply Hs|done].
Qed.

(** ** Sizes *)

Lemma align8_value n : align8 n = u32 (n + 7) / 8 * 8.
Proof.
  unfold align8. change (Z.lnot 7) with (Z.lnot (Z.ones 3)). rewrite <- Z.ldiff_land, Z.ldiff_ones_r, Z.shiftr_div_pow2, Z.shiftl_mul_pow2 by lia. done.
Qed.

Lemma align_page_value n : align_page n = u32 (n + 4095) / 4096 * 4096.
Proof.
  unfold align_page. change (Z.lnot 4095) with (Z.lnot (Z.ones 12)). rewrite <- Z.ldiff_land, Z.ldiff_ones_r, Z.shiftr_div_pow2, Z.shiftl_mul_pow2 by lia. done.
Qed.

Lemma align8_facts n : 0 <= n < 2 ^ 32 -> let a := align8 n in 0 <= a < 2 ^ 32 /\ a mod 8 = 0 /\ (n <= 2 ^ 32 - 8 -> n <= a < n + 8).
Proof. intros Hn a. subst a. rewrite align8_value. unfold u32. dlia. Qed.

(** What [heap_extend] adds for a payload. *)
Definition growth (need : Z) : Z := let g := align_page (u32 (SIZEOF_HEAP_BLOCK + need)) in if g <? 4096 then 4096 else g.

Lemma growth_facts need :
  0 <= need < 2 ^ 32 -> let g := growth need in 4096 <= g < 2 ^ 32 /\ g mod 8 = 0 /\ (need <= 2 ^ 32 - 4112 -> need + 16 <= g).
Proof.
  intros Hn g. subst g. unfold growth. rewrite align_page_value. change SIZEOF_HEAP_BLOCK with 16.
  destruct (Z.ltb_spec (u32 (u32 (16 + need) + 4095) / 4096 * 4096) 4096) as [Hlt|Hge]; unfold u32 in *; dlia.
Qed.

(** The list after the heap has grown by [g]. *)
Inductive grown (g : Z) : list ublock -> list ublock -> Prop :=
| grown_last l n : grown g (l ++ [(n, true)]) (l ++ [(n + g, true)])
| grown_new bs : grown g bs (bs ++ [(g - 16, true)]).

Lemma grown_use g base bs bs' : grown g bs bs' -> same_use base bs bs'.
Proof. intros [l n|l] p k; rewrite !in_use_app; cbn [in_use fst snd]; intuition congruence. Qed.

(** A payload lies before the header of the last block or after it. *)
Lemma in_use_last a q bs p n :
  sizes_ok bs -> bs <> [] -> in_use a bs p n -> p + n <= last_of a q bs \/ last_of a q bs + 16 <= p.
Proof.
  intros Hz Hne Hu. destruct (exists_last Hne) as (l & b & ->). apply Forall_app in Hz as [Hz _]. rewrite last_of_app. cbn [last_of].
  apply in_use_app in Hu as [Hu|[(_ & -> & _)|[]]]; [|right; lia]. left. by destruct (in_use_range _ _ _ _ Hz Hu) as (_ & _ & ?).
Qed.

Section grow.
Context {K : Type} `{BrkService K}.
Implicit Types u : uheap K.

(** The heap is longer than the list by [g] bytes. *)
Record stretched (u : uheap K) (base : Z) (bs : list ublock) (g : Z) : Prop := Stretched {
  st_listed : listed u base bs;
  st_kernel : brk_ok (u_kernel u);
  st_brk : s_heap_brk u = end_of base bs + g;
  st_end : brk_of (u_kernel u) = end_of base bs + g;
  st_g : 4096 <= g /\ g mod 8 = 0;
  st_last : last_pos bs
}.

Definition extended (u : uheap K) (base : Z) (bs : list ublock) (g r : Z) (u' : uheap K) : Prop :=
  r <> 0 /\ exists bs', heap_ok u' base bs' /\ grown g bs bs' /\ kept base bs (u_mem u) (u_mem u').

(** The last block is free: it takes the new space. *)
Lemma extend_last u base l n g :
  stretched u base (l ++ [(n, true)]) g ->
  runs (size <- load (F_size (end_of base l)) ;; store (F_size (end_of base l)) (u32 (size + g)) ;;; ret (end_of base l)) u
    (extended u base (l ++ [(n, true)]) g).
Proof.
  intros [L Hk Hb He [Hg Hg8] Hlp]. destruct (focus_listed _ _ _ _ _ L) as ((H1 & H2 & H3 & H4) & _ & Hr & Hn & H8 & Hle & Hend & Hm & HA & Hz1 & _).
  set (A := end_of base l) in *. cbn [fst snd first_of end_of] in *. rewrite end_of_app in Hb, He. cbn [end_of fst] in Hb, He. fold A in Hb, He.
  apply runs_bind, runs_load; [in_heap..|]. heap_consts. rewrite H1, u32_small by lia.
  apply runs_bind, runs_store; [in_heap..|]. apply runs_ret. split; [lia|].
  exists (l ++ [(n + g, true)]). split; [|split; [constructor|]].
  - destruct L as [Lb _ Lh Ls Lz]. apply seg_app in Ls as [S1 _]. fold A in S1. cbn [first_of] in S1. constructor; cbn [set_mem_of u_mem u_kernel s_heap_brk s_heap_head]; try done.
    + left. lia.
    + rewrite end_of_app. cbn [end_of fst]. fold A. lia.
    + rewrite Lh. by destruct l.
    + apply seg_app. fold A. cbn [first_of seg]. split; [|split; [|done]].
      * apply (seg_agrees (u_mem u)); [done| |done]. intros x Hx. apply set_word_other. unfold A. lia.
      * unfold header. cbn [fst snd first_of]. by split_and!; words.
    + apply Forall_app_2; [done|]. repeat constructor; cbn [fst]; lia || dlia.
    + intros l' b' E. apply app_inj_tail in E as [_ <-]. cbn. lia.
  - intros p k Hu x Hx. cbn [set_mem_of u_mem]. apply set_word_other. apply in_use_app in Hu as [Hu|[(? & _)|[]]]; [|done].
    apply in_use_range in Hu; [fold A in Hu; lia|done].
Qed.

(** Otherwise the new space is a block of its own. *)
Lemma extend_new u base bs g :
  stretched u base bs g ->
  let B := end_of base bs in let last := last_of base 0 bs in
  runs (store (F_size B) (u32 (g - 16)) ;;; store (F_free B) 1 ;;; store (F_next B) 0 ;;; store (F_prev B) last ;;;
        (if negb (last =? 0) then store (F_next last) B else modify (set_head_of B)) ;;; ret B) u (extended u base bs g).
Proof.
  intros [L Hk Hb He [Hg Hg8] Hlp] B last. pose proof (li_base _ _ _ L) as [Hb1 Hb8]. pose proof (li_end _ _ _ L) as [He1 He2].
  pose proof (end_of_ge base bs (li_sizes _ _ _ L)) as Hge. fold B in Hb, He, He1, Hge. rewrite u32_small by lia. heap_consts.
  do 4 (apply runs_bind, runs_store; [in_heap..|]). rewrite !set_mem_twice. cbn [set_mem_of u_mem].
  set (m1 := set_word (set_word (set_word (set_word (u_mem u) B _) _ _) _ _) _ _).
  assert (Hm1 : forall x, x < B -> m1 x = u_mem u x) by (intros x Hx; unfold m1; by rewrite !set_word_other by lia).
  assert (Hlr : 0 <= last < 2 ^ 32).
  { destruct (decide (bs = [])) as [E|Hne]; [unfold last; by rewrite E|]. destruct (last_of_range base 0 bs (li_sizes _ _ _ L) Hne) as [Hl1 Hl2].
    fold B last in Hl1, Hl2. lia. }
  assert (Hh : header m1 B (g - 16, true) last 0) by (unfold header, m1; cbn [fst snd]; by split_and!; words).
  assert (Hz : sizes_ok (bs ++ [(g - 16, true)])) by (apply Forall_app_2; [apply L|]; repeat constructor; cbn [fst]; dlia).
  assert (Hlast : last_pos (bs ++ [(g - 16, true)])) by (intros l' b' E; apply app_inj_tail in E as [_ <-]; cbn; lia).
  destruct (decide (bs = [])) as [->|Hne].
  - cbn [last_of end_of] in *. subst last. cbn [Z.eqb negb]. apply runs_bind, runs_modify, runs_ret. split; [subst B; lia|].
    exists [(g - 16, true)]. split; [|split; [apply (grown_new g [])|by intros p k []]].
    constructor; cbn [set_mem_of set_head_of u_mem u_kernel s_heap_brk s_heap_head app]; try done; [left; lia|cbn; subst B; lia].
  - destruct (last_of_range base 0 bs (li_sizes _ _ _ L) Hne) as [Hl1 Hl2]. fold B last in Hl1, Hl2.
    rewrite (proj2 (Z.eqb_neq last 0)) by lia. cbn [negb]. apply runs_bind, runs_store; [in_heap..|]. rewrite set_mem_twice. cbn [set_mem_of u_mem].
    apply runs_ret. split; [lia|]. exists (bs ++ [(g - 16, true)]). split; [|split; [constructor|]].
    + constructor; cbn [set_mem_of u_mem u_kernel s_heap_brk s_heap_head]; try done; [left; lia|rewrite end_of_app; cbn; fold B; lia|..].
      * rewrite (li_head _ _ _ L). by destruct bs.
      * apply seg_app. fold B last. cbn [first_of seg]. split; [|split; [|done]].
        -- apply (seg_next (u_mem u) _ base 0 bs 0); [apply L|done| | |apply L].
           ++ intros x Hx Hnx. fold last B in Hx, Hnx. rewrite set_word_other by lia. apply Hm1. lia.
           ++ fold last. by words.
        -- apply (header_agrees m1 _ B _ last 0 B (B + 16)); [|lia..|done]. intros x Hx. apply set_word_other. lia.
    + intros p k Hu x Hx. cbn [set_mem_of u_mem]. pose proof (in_use_range _ _ _ _ (li_sizes _ _ _ L) Hu) as (_ & _ & Hpe). fold B in Hpe.
      destruct (in_use_last base 0 bs p k (li_sizes _ _ _ L) Hne Hu) as [Hp|Hp]; fold last in Hp; rewrite set_word_other by lia; apply Hm1; lia.
Qed.

(** The kernel was asked for the growth of the heap that a payload needs, and refused;
    a break beyond the address space is not asked for. *)
Definition growth_refused (need : Z) (k k' : K) : Prop :=
  exists k1, queried k k1 /\ let new := brk_of k + growth need in
    (2 ^ 32 <= new /\ k' = k1) \/ exists r, sys_brk new k1 = Some (r, k') /\ r <> new.

Lemma growth_refused_after need k k1 k' : queried k k1 -> brk_of k1 = brk_of k -> growth_refused need k1 k' -> growth_refused need k k'.
Proof. intros Hq E (k2 & Hq2 & Hc). exists k2. split; [etransitivity; [exact Hq|exact Hq2]|]. by rewrite <- E. Qed.

(** [heap_extend]: refused without a change of the list, or the list has grown. *)
Lemma extend_runs u base bs need :
  heap_ok u base bs -> 0 <= need < 2 ^ 32 ->
  runs (heap_extend need) u (fun r u' =>
    (r = 0 /\ heap_ok u' base bs /\ u_mem u' = u_mem u /\ growth_refused need (u_kernel u) (u_kernel u')) \/ extended u base bs (growth need) r u').
Proof.
  intros O Hn. destruct (growth_facts need Hn) as (Hg & Hg8 & _). set (g := growth need) in *.
  apply runs_bind, (init_runs u base bs _ O). intros u1 O1 Eb Em Hqu. apply runs_bind, runs_gets. rewrite Eb. cbv zeta.
  match goal with |- context [if ?x <? 4096 then 4096 else ?x] => change (if x <? 4096 then 4096 else x) with g end.
  pose proof (ho_range _ _ _ O1) as [Hr1 Hr2]. pose proof heap_limit. change USER_HEAP_BASE with 268435456 in Hr1. set (B := end_of base bs) in *.
  assert (Eold : brk_of (u_kernel u) = B) by (symmetry; apply O).
  destruct (Z.ltb_spec (u32 (B + g)) B) as [Hlt|Hge].
  { apply runs_ret. left. split_and!; [done..|]. exists (u_kernel u1). split; [done|]. rewrite Eold. fold g. left. split; [unfold u32 in *; dlia|done]. }
  assert (En : u32 (B + g) = B + g) by (unfold u32 in *; dlia). rewrite En in *. clear Hge. assert (Hlt : B + g < 2 ^ 32) by (unfold u32 in En; dlia).
  apply runs_bind. unfold runs at 1, on_brk. pose proof (ho_end _ _ _ O1) as He. fold B in He.
  pose proof (sys_brk_grow (B + g) (u_kernel u1) (ho_kernel _ _ _ O1) ltac:(lia)) as Hq. unfold runs in Hq.
  destruct (sys_brk (B + g) (u_kernel u1)) as [[r k']|] eqn:Eq; [|done]. destruct Hq as (Hk & -> & Hcase).
  destruct (Z.eqb_spec (brk_of k') (B + g)) as [E|E]; cbn [negb].
  - apply runs_bind, runs_modify. match goal with |- runs _ ?s _ => set (u2 := s) end.
    assert (S : stretched u2 base bs g).
    { destruct (heap_listed _ _ _ O1) as [L1 L2 L3 L4 L5]. constructor; [|exact Hk|done|exact E|split; [lia|exact Hg8]|apply O1].
      constructor; cbn; try done. fold B. lia. }
    apply runs_bind. eapply runs_mono; [apply (last_block_runs u2 base bs), S|]. intros last ? [-> ->]. cbn beta.
    assert (Hmono : forall r u', extended u2 base bs g r u' -> extended u base bs g r u').
    { intros r u' (H1 & bs' & H2 & H3 & H4). split; [done|]. exists bs'. split_and!; [done..|]. cbn in H4. by rewrite <- Em. }
    apply runs_bind. destruct (decide (bs = [])) as [Enil|Hne].
    + subst bs. apply runs_ret. eapply runs_mono; [apply (extend_new u2 base [] g S)|]. intros r u' Hx. right. by apply Hmono.
    + destruct (exists_last Hne) as (l & [n f] & ->). rewrite last_of_app in *. cbn [last_of].
      destruct (focus_listed _ _ _ _ _ (st_listed _ _ _ _ S)) as ((H1 & H2 & _) & _ & Hr & Hn0 & _ & _ & Hend & _). cbn [fst snd end_of] in *.
      rewrite (proj2 (Z.eqb_neq (end_of base l) 0)) by lia. apply runs_bind, runs_load; [in_heap..|]. heap_consts. rewrite H2.
      pose proof (extend_new u2 base (l ++ [(n, f)]) g S) as Hnew. cbv zeta in Hnew. rewrite last_of_app in Hnew. cbn [last_of] in Hnew. heap_consts.
      rewrite (proj2 (Z.eqb_neq (end_of base l) 0)) in Hnew by lia.
      destruct f; cbn [Z.eqb].
      * apply runs_bind, (block_end_runs u2 base l (n, true) []); [apply S|]. apply runs_ret. cbn [fst].
        assert (EB : end_of base l + 16 + n = B) by (unfold B; by rewrite end_of_app). rewrite EB, Z.eqb_refl.
        eapply runs_mono; [apply (extend_last u2 base l n g S)|]. intros r u' Hx. right. by apply Hmono.
      * apply runs_ret. eapply runs_mono; [exact Hnew|]. intros r u' Hx. right. by apply Hmono.
  - apply runs_ret. cbv beta. left. split; [done|]. split; [|split; [exact Em|]].
    2:{ exists (u_kernel u1). split; [done|]. rewrite Eold. fold g. right. by eexists. }
    destruct Hcase as [?|Ek]; [done|]. destruct O1 as [O1a O1b O1c O1d O1e O1f O1g O1h]. constructor; cbn; try done; [left; lia|fold B; lia].
Qed.

End grow.

(** ** Release *)

(** Free blocks in the middle hold nothing that has to be kept. *)
Lemma kept_around base l1 mid l2 m m' :
  sizes_ok (l1 ++ mid ++ l2) -> Forall (fun b => b.2 = true) mid ->
  (forall x, x < end_of base l1 \/ end_of (end_of base l1) mid + 16 <= x -> m' x = m x) ->
  kept base (l1 ++ mid ++ l2) m m'.
Proof.
  intros Hz Hf Hm p n Hu x Hx. apply Forall_app in Hz as [Hz1 Hz]. apply Forall_app in Hz as [_ Hz2].
  assert (Hnone : forall a, ~ in_use a mid p n).
  { clear -Hf. induction Hf as [|b mid Hb Hf IH]; intros a; cbn; [tauto|]. intros [(E & _)|Hu]; [congruence|by apply IH in Hu]. }
  apply in_use_app in Hu as [Hu|Hu].
  - destruct (in_use_range _ _ _ _ Hz1 Hu) as (_ & _ & ?). apply Hm. lia.
  - apply in_use_app in Hu as [Hu|Hu]; [by apply Hnone in Hu|]. destruct (in_use_range _ _ _ _ Hz2 Hu) as (? & _). apply Hm. lia.
Qed.

Section release.
Context {K : Type} `{BrkService K}.
Implicit Types u : uheap K.

(** The heap has other blocks, but the same in use with the same contents. *)
Definition rearranged (u : uheap K) (base : Z) (bs : list ublock) (u' : uheap K) : Prop :=
  exists bs', heap_ok u' base bs' /\ same_use base bs bs' /\ kept base bs (u_mem u) (u_mem u').

Lemma rearranged_refl u base bs : heap_ok u base bs -> rearranged u base bs u.
Proof. intros O. exists bs. split_and!; [done|by intros|apply kept_refl]. Qed.

Lemma rearranged_trans u base bs u1 bs1 u2 :
  same_use base bs bs1 -> kept base bs (u_mem u) (u_mem u1) -> rearranged u1 base bs1 u2 -> rearranged u base bs u2.
Proof.
  intros Hs Hk (bs2 & O & Hs2 & Hk2). exists bs2. split_and!; [done| |by eapply kept_trans].
  intros p n. rewrite (Hs p n). apply Hs2.
Qed.

(** Two free neighbours become one. *)
Lemma absorb_free u base l1 n1 n2 l2 from (Q : unit -> uheap K -> Prop) :
  heap_ok u base (l1 ++ (n1, true) :: (n2, true) :: l2) ->
  let A := end_of base l1 in
  from = A \/ from = A + 16 + n1 ->
  (forall u', heap_ok u' base (l1 ++ (n1 + 16 + n2, true) :: l2) ->
     (forall u'', rearranged u' base (l1 ++ (n1 + 16 + n2, true) :: l2) u'' -> rearranged u base (l1 ++ (n1, true) :: (n2, true) :: l2) u'') -> Q tt u') ->
  runs (absorb A (A + 16 + n1) from) u Q.
Proof.
  intros O A Hfrom HQ. apply (absorb_runs u base l1 n1 true n2 true l2 from _ O Hfrom). intros m' O' Hm. apply HQ; [done|].
  intros u''. apply rearranged_trans.
  - intros p k. rewrite !in_use_app. cbn [in_use fst snd]. fold A. replace (A + 16 + (n1 + 16 + n2)) with (A + 16 + n1 + 16 + n2) by lia. intuition congruence.
  - apply (kept_around base l1 [(n1, true); (n2, true)] l2); [apply O|by repeat constructor|]. cbn [end_of fst]. fold A. intros x Hx. apply Hm. lia.
Qed.

Lemma adjacent_runs u base l1 b b' l2 tested (Q : bool -> uheap K -> Prop) :
  heap_ok u base (l1 ++ b :: b' :: l2) ->
  let A := end_of base l1 in let B := A + 16 + b.1 in
  (tested = A /\ Q b.2 u) \/ (tested = B /\ Q b'.2 u) -> runs (free_and_adjacent A B tested) u Q.
Proof.
  intros O A B HQ. destruct (focus _ _ _ _ _ O) as ((_ & H2 & _) & Hseg & Hr & Hn & _ & Hle & He & Hm & _ & _ & Hz). cbn [seg end_of] in *.
  destruct Hseg as [(_ & H2' & _) _]. fold A in H2, H2', Hr, Hle, He. fold B in H2', Hle, He. inversion_clear Hz as [|?? [Hb' _] Hz'].
  pose proof (end_of_ge (B + 16 + b'.1) l2 Hz'). unfold free_and_adjacent.
  assert (Hend : forall R, R true u -> runs (e <- block_end A ;; ret (e =? B)) u R).
  { intros R HR. apply runs_bind, (block_end_runs u base l1 b (b' :: l2) _ (heap_listed _ _ _ O)). apply runs_ret. fold A B. by rewrite Z.eqb_refl. }
  destruct HQ as [[-> HQ]|[-> HQ]].
  - rewrite (proj2 (Z.eqb_neq A 0)) by lia. apply runs_bind, runs_load; [in_heap..|]. heap_consts. rewrite H2. destruct b.2; [by apply Hend|by apply runs_ret].
  - rewrite (proj2 (Z.eqb_neq B 0)) by lia. apply runs_bind, runs_load; [in_heap..|]. heap_consts. rewrite H2'. destruct b'.2; [by apply Hend|by apply runs_ret].
Qed.

Lemma coalesce_loop_runs fuel u base l1 n l2 :
  heap_ok u base (l1 ++ (n, true) :: l2) -> (length l2 <= fuel)%nat ->
  runs (coalesce_loop fuel (end_of base l1)) u (fun _ u' => rearranged u base (l1 ++ (n, true) :: l2) u').
Proof.
  revert u n l2. induction fuel as [|fuel IH]; intros u n l2 O Hf.
  all: destruct (focus _ _ _ _ _ O) as ((H1 & H2 & H3 & H4) & _ & Hr & Hn & _ & Hle & He & Hm & _); cbn [fst snd coalesce_loop] in *.
  all: apply runs_bind, runs_load; [in_heap..|]; heap_consts; rewrite H3.
  all: destruct l2 as [|[n2 f2] l2]; [by apply runs_bind, runs_ret, runs_ret, rearranged_refl|]; cbn [first_of].
  { cbn in Hf. lia. }
  apply runs_bind. apply (adjacent_runs u base l1 (n, true) (n2, f2) l2 _ _ O). right. split; [done|]. cbn [fst snd].
  destruct f2; [|by apply runs_ret, rearranged_refl].
  apply runs_bind. apply (absorb_free u base l1 n n2 l2 _ _ O); [by left|]. intros u1 O1 Hre.
  eapply runs_mono; [apply (IH u1 _ l2 O1); cbn in Hf; lia|]. intros ? u2. apply Hre.
Qed.

Lemma coalesce_runs u base l1 n l2 :
  heap_ok u base (l1 ++ (n, true) :: l2) ->
  runs (heap_coalesce (end_of base l1)) u (fun _ u' => rearranged u base (l1 ++ (n, true) :: l2) u').
Proof.
  intros O. destruct (focus _ _ _ _ _ O) as ((H1 & H2 & H3 & H4) & _ & Hr & Hn & _ & Hle & He & Hm & _). cbn [fst snd] in *.
  unfold heap_coalesce. rewrite (proj2 (Z.eqb_neq (end_of base l1) 0)) by lia.
  apply runs_bind, runs_load; [in_heap..|]. heap_consts. rewrite H4.
  assert (Hloop : forall u1 k nn, heap_ok u1 base (k ++ (nn, true) :: l2) ->
    runs (fuel <- list_fuel ;; coalesce_loop fuel (end_of base k)) u1 (fun _ u' => rearranged u1 base (k ++ (nn, true) :: l2) u')).
  { intros u1 k nn O1. apply runs_bind, (fuel_runs u1 base _ _ (heap_listed _ _ _ O1)). intros fuel Hf. apply (coalesce_loop_runs fuel u1 base k nn l2 O1).
    rewrite length_app in Hf. cbn in Hf. lia. }
  destruct (decide (l1 = [])) as [->|Hne]; [by apply runs_bind, runs_ret, runs_bind, runs_ret, (Hloop u [] n)|].
  destruct (exists_last Hne) as (k & [n0 f0] & ->). rewrite last_of_app, end_of_app, <- app_assoc in *. cbn [last_of end_of app fst] in *.
  apply runs_bind. apply (adjacent_runs u base k (n0, f0) (n, true) l2 _ _ O). left. split; [done|]. cbn [snd].
  destruct f0.
  - apply runs_bind, runs_bind. apply (absorb_free u base k n0 n l2 _ _ O); [by right|]. intros u1 O1 Hre. apply runs_ret.
    eapply runs_mono; [apply (Hloop u1 k _ O1)|]. intros ? u2. apply Hre.
  - apply runs_bind, runs_ret. pose proof (Hloop u (k ++ [(n0, false)]) n) as Hl. rewrite <- app_assoc, end_of_app in Hl. cbn [app end_of fst] in Hl. by apply Hl.
Qed.

End release.

(** ** Allocation *)

Section allocation.
Context {K : Type} `{BrkService K}.
Implicit Types u : uheap K.

(** [p] is a new block of [n] bytes. *)
Record allocated_block (u : uheap K) (base : Z) (bs : list ublock) (p n : Z) (u' : uheap K) : Prop := AllocatedBlock {
  al_pos : 0 < p;
  al_heap : exists bs', heap_ok u' base bs' /\ forall q k, in_use base bs' q k <-> in_use base bs q k \/ (q = p /\ k = n);
  al_new : forall k, ~ in_use base bs p k;
  al_kept : kept base bs (u_mem u) (u_mem u')
}.

Lemma allocated_after u base bs u1 bs1 p n u2 :
  same_use base bs bs1 -> kept base bs (u_mem u) (u_mem u1) -> allocated_block u1 base bs1 p n u2 -> allocated_block u base bs p n u2.
Proof.
  intros Hs Hk [H1 (bs' & O & H2) H3 H4]. constructor; [done| | |by eapply kept_trans].
  - exists bs'. split; [done|]. intros q k. rewrite H2, (Hs q k). done.
  - intros k Hu. apply (H3 k). by apply Hs.
Qed.

(** A free block is taken. *)
Lemma take_runs u base l1 n l2 need :
  heap_ok u base (l1 ++ (n, true) :: l2) -> 0 <= need <= n -> need mod 8 = 0 ->
  runs (heap_split_block (end_of base l1) need ;;; store (F_free (end_of base l1)) 0 ;;; ret (block_payload (end_of base l1))) u
    (fun p u' => exists k, need <= k /\ allocated_block u base (l1 ++ (n, true) :: l2) p k u').
Proof.
  intros O Hn H8. pose proof (focus _ _ _ _ _ O) as (_ & _ & Hr & Hn0 & _ & Hle & He & Hm & _ & Hz1 & Hz2). cbn [fst snd] in *. set (A := end_of base l1) in *.
  assert (Hnew : forall k, ~ in_use base (l1 ++ (n, true) :: l2) (A + 16) k).
  { intros k. rewrite in_use_app. cbn [in_use fst snd]. fold A. intros [Hu|[[? _]|Hu]]; [|done|].
    - destruct (in_use_range _ _ _ _ Hz1 Hu) as (_ & ? & Hq). fold A in Hq. lia.
    - destruct (in_use_range _ _ _ _ Hz2 Hu) as (? & _). lia. }
  assert (Ep : block_payload A = A + 16) by (heap_consts; by rewrite u32_small by lia).
  apply runs_bind, (split_block_runs u base l1 n true l2 need _ O Hn H8).
  - intros _. apply runs_bind. apply (mark_runs u base l1 n true l2 false _ O).
    intros m' O' Hm'. apply runs_ret. exists n. split; [lia|]. fold A. rewrite Ep. constructor; [lia| |done|].
    + exists (l1 ++ (n, false) :: l2). split; [done|]. intros q k. rewrite !in_use_app. cbn [in_use fst snd]. fold A. intuition congruence.
    + apply (kept_around base l1 [(n, true)] l2); [apply O|by repeat constructor|]. cbn [end_of fst]. fold A. intros x Hx. apply Hm'. fold A. lia.
  - intros m1 Hlt O1 Hm1. fold A in Hm1. apply runs_bind.
    apply (mark_runs _ base l1 need true _ false _ O1). intros m' O' Hm'. rewrite set_mem_twice in O' |- *.
    apply runs_ret. exists need. split; [lia|]. fold A. rewrite Ep. constructor; [lia| |done|].
    + exists (l1 ++ (need, false) :: (n - need - 16, true) :: l2). split; [done|]. intros q k. rewrite !in_use_app. cbn [in_use fst snd]. fold A.
      replace (A + 16 + need + 16 + (n - need - 16)) with (A + 16 + n) by lia. intuition congruence.
    + apply (kept_around base l1 [(n, true)] l2); [apply O|by repeat constructor|]. cbn [end_of fst set_mem_of u_mem]. fold A. intros x Hx.
      cbn [set_mem_of u_mem] in Hm'. rewrite Hm' by (fold A; lia). apply Hm1. lia.
Qed.
(** The free block at the end of a list that has grown fits. *)
Lemma grown_fits g bs bs' s : 0 <= g -> sizes_ok bs -> grown g bs bs' -> s + 16 <= g -> ~ no_fit s bs'.
Proof.
  intros Hg Hz G Hs Hno. destruct G as [l n|bs]; apply Forall_app in Hno as [_ Hno]; inversion_clear Hno as [|?? Hb _]; cbn [fst snd] in Hb.
  - apply Forall_app in Hz as [_ Hz]. inversion_clear Hz as [|?? [Hn _] _]. cbn in Hn. specialize (Hb eq_refl). lia.
  - specialize (Hb eq_refl). lia.
Qed.

(** [malloc]: a failure leaves the blocks in use alone and, except for sizes close to
    [2^32], means that no free block fits and the kernel refused more memory. *)
Definition malloc_post (u : uheap K) (base : Z) (bs : list ublock) (size p : Z) (u' : uheap K) : Prop :=
  (p = 0 /\ rearranged u base bs u' /\ (0 < size <= 2 ^ 32 - 4119 -> no_fit (align8 size) bs /\ growth_refused (align8 size) (u_kernel u) (u_kernel u'))) \/
  (size <> 0 /\ exists n, align8 size <= n /\ allocated_block u base bs p n u').

Lemma malloc_runs u base bs size :
  heap_ok u base bs -> 0 <= size < 2 ^ 32 -> runs (malloc size) u (malloc_post u base bs size).
Proof.
  intros O Hs. unfold malloc. destruct (Z.eqb_spec size 0) as [->|Hs0].
  { apply runs_ret. left. split_and!; [done|by apply rearranged_refl|intros ?; lia]. }
  destruct (align8_facts size Hs) as (Ha & Ha8 & Hale). set (need := align8 size) in *.
  assert (Htake : forall u1 bs1 l1 n l2, heap_ok u1 base bs1 -> bs1 = l1 ++ (n, true) :: l2 -> need <= n -> end_of base l1 <> 0 ->
    same_use base bs bs1 -> kept base bs (u_mem u) (u_mem u1) ->
    runs (if end_of base l1 =? 0 then ret 0 else heap_split_block (end_of base l1) need ;;; store (F_free (end_of base l1)) 0 ;;; ret (block_payload (end_of base l1)))
      u1 (malloc_post u base bs size)).
  { intros u1 bs1 l1 n l2 O1 -> Hn Hnz Hsu Hk. rewrite (proj2 (Z.eqb_neq _ 0)) by done.
    eapply runs_mono; [apply (take_runs u1 base l1 n l2 need O1); [lia|done]|]. intros p u' (k & Hnk & Hal). right. split; [done|].
    exists k. split; [done|]. by eapply allocated_after. }
  apply runs_bind. eapply runs_mono; [apply (find_fit_runs u base bs need O)|]. cbv beta.
  intros r ? [-> [(-> & Hno)|(l1 & n & l2 & Eb & Hn & -> & Hnz)]].
  - cbn [Z.eqb negb]. apply runs_bind, runs_bind. eapply runs_mono; [apply (extend_runs u base bs need O); lia|]. cbv beta.
    intros r u1 [(-> & O1 & Em & Href)|(Hr & bs1 & O1 & G & Hk)].
    + cbn [Z.eqb]. apply runs_ret, runs_ret. left. split_and!; [done| |].
      * exists bs. split_and!; [done|by intros|]. rewrite Em. apply kept_refl.
      * by intros _.
    + rewrite (proj2 (Z.eqb_neq r 0)) by done. pose proof (grown_use _ base _ _ G) as Hsu.
      eapply runs_mono; [apply (find_fit_runs u1 base bs1 need O1)|]. cbv beta.
      intros r' ? [-> [(-> & Hno')|(l1 & n & l2 & Eb & Hn & -> & Hnz)]]; [|by eapply Htake].
      cbn [Z.eqb]. apply runs_ret. left. split_and!; [done|by exists bs1|]. intros Hsm. exfalso.
      destruct (growth_facts need Ha) as (Hg & _ & Hgn). apply (grown_fits (growth need) bs bs1 need); [lia|exact (ho_sizes _ _ _ O)|exact G|apply Hgn; lia|exact Hno'].
  - rewrite (proj2 (Z.eqb_neq _ 0)) by done. cbn [negb]. apply runs_bind, runs_ret. by eapply Htake.
Qed.

(** [free] of a block in use. *)
Definition free_post (u : uheap K) (base : Z) (bs : list ublock) (p : Z) (u' : uheap K) : Prop :=
  exists bs', heap_ok u' base bs' /\ (forall q k, in_use base bs' q k <-> in_use base bs q k /\ q <> p) /\
    forall q k, in_use base bs q k -> q <> p -> agrees (u_mem u) (u_mem u') q (q + k).

(** The pointer of a block in use lies in the heap. *)
Lemma in_use_pointer u base bs p n :
  heap_ok u base bs -> in_use base bs p n -> USER_HEAP_BASE <= p < end_of base bs /\ p < 2 ^ 32.
Proof.
  intros O Hu. pose proof (ho_range _ _ _ O) as [Hr1 Hr2]. pose proof heap_limit. pose proof (in_use_range _ _ _ _ (ho_sizes _ _ _ O) Hu) as (H1 & H2 & H3).
  assert (p <> end_of base bs); [|lia]. intros E. apply in_use_inv in Hu as (l1 & l2 & -> & ->).
  rewrite end_of_app in E. cbn [end_of fst] in E. pose proof (ho_sizes _ _ _ O) as Hz. apply Forall_app in Hz as [_ Hz]. inversion_clear Hz as [|?? [Hn _] Hz'].
  pose proof (end_of_ge (end_of base l1 + 16 + n) l2 Hz'). destruct l2 as [|b l2]; [|cbn [length fst] in *; lia].
  pose proof (ho_last _ _ _ O l1 (n, false) eq_refl). cbn in *. lia.
Qed.

Lemma free_runs u base bs p n :
  heap_ok u base bs -> in_use base bs p n -> runs (free p) u (fun _ u' => free_post u base bs p u').
Proof.
  intros O Hu. destruct (in_use_pointer _ _ _ _ _ O Hu) as [Hp Hp32]. unfold free. rewrite (proj2 (Z.eqb_neq p 0)) by (heap_consts; lia).
  apply runs_bind, (init_runs u base bs _ O). intros u1 O1 Eb Em Hqu. apply runs_bind, runs_gets. rewrite Eb.
  rewrite (proj2 (Z.ltb_ge p USER_HEAP_BASE)), (proj2 (Z.leb_gt (end_of base bs) p)) by lia. cbn [orb]. cbv zeta.
  destruct (in_use_inv _ _ _ _ Hu) as (l1 & l2 & -> & Ep). change SIZEOF_HEAP_BLOCK with 16.
  pose proof (focus _ _ _ _ _ O1) as (_ & _ & Hr & _). rewrite u32_small by lia. replace (p - 16) with (end_of base l1) by lia.
  apply runs_bind. apply (mark_runs u1 base l1 n false l2 true _ O1). intros m' O' Hm'.
  eapply runs_mono; [apply (coalesce_runs _ base l1 n l2 O')|]. intros ? u' (bs' & O'' & Hs & Hk).
  assert (Hiff : forall q k, in_use base (l1 ++ (n, true) :: l2) q k <-> in_use base (l1 ++ (n, false) :: l2) q k /\ q <> p).
  { intros q k. split.
    - intros Hq. assert (Hin : in_use base (l1 ++ (n, false) :: l2) q k) by (rewrite in_use_app in Hq |- *; cbn [in_use fst snd] in *; intuition congruence).
      split; [done|]. intros ->. pose proof (ho_sizes _ _ _ O) as Hz. apply Forall_app in Hz as [Hz1 Hz]. inversion_clear Hz as [|?? [Hn _] Hz2]. cbn [fst] in Hn.
      apply in_use_app in Hq as [Hq|[[? _]|Hq]]; [|done|].
      + destruct (in_use_range _ _ _ _ Hz1 Hq) as (_ & ? & ?). lia.
      + destruct (in_use_range _ _ _ _ Hz2 Hq) as (? & _). cbn [fst] in *. lia.
    - rewrite !in_use_app. cbn [in_use fst snd]. intuition congruence. }
  exists bs'. split_and!; [done| |].
  - intros q k. rewrite <- (Hs q k). apply Hiff.
  - intros q k Hq Hne. assert (Hq' : in_use base (l1 ++ (n, true) :: l2) q k) by (by apply Hiff).
    intros x Hx. rewrite (Hk q k Hq' x Hx). cbn [set_mem_of u_mem]. rewrite Hm', Em; [done|].
    destruct (in_use_disjoint _ _ _ _ _ _ (ho_sizes _ _ _ O) Hq Hu) as [[? _]|Hd]; [done|].
    pose proof (in_use_range _ _ _ _ (ho_sizes _ _ _ O) Hu). lia.
Qed.
End allocation.
