(* ===== verification/UserHeapCopy.v ===== *)
(** * Copying and clearing blocks of the user heap

    [memcpy] and [memset] inside of blocks in use, [realloc] and [calloc]. *)
From S2P Require Import Prelude Paging MemCalls UserHeap UserHeapRep UserHeapOps UserHeapProps.
From Stdlib Require Import ZArith Lia ZifyBool Bool.
From stdpp Require Import base relations numbers list.
Local Open Scope Z_scope.
Local Open Scope kernel_scope.

Section copying.
Context {K : Type} `{BrkService K}.
Implicit Types u : uheap K.

Lemma runs_load_byte u a (Q : Z -> uheap K -> Prop) :
  USER_HEAP_BASE <= a < brk_of (u_kernel u) -> Q (u_mem u a) u -> runs (load_byte a) u Q.
Proof.
  intros Ha HQ. unfold runs, load_byte, mapped_at. by rewrite (proj2 (Z.leb_le USER_HEAP_BASE a)), (proj2 (Z.leb_le (a + 1) _)) by lia.
Qed.

Lemma runs_store_byte u a v (Q : unit -> uheap K -> Prop) :
  USER_HEAP_BASE <= a < brk_of (u_kernel u) -> Q tt (set_mem_of (set_byte (u_mem u) a v) u) -> runs (store_byte a v) u Q.
Proof.
  intros Ha HQ. unfold runs, store_byte, mapped_at. by rewrite (proj2 (Z.leb_le USER_HEAP_BASE a)), (proj2 (Z.leb_le (a + 1) _)) by lia.
Qed.

(** [n] bytes at [dst] get the values [f 0], [f 1], ... *)
Definition filled (m : Z -> Z) (dst n : Z) (f : Z -> Z) (m' : Z -> Z) : Prop :=
  forall x, m' x = if (dst <=? x) && (x <? dst + n) then f (x - dst) else m x.

Lemma filled_step m dst i f m' : 0 <= i -> filled m dst i f m' -> filled m dst (i + 1) f (set_byte m' (dst + i) (f i)).
Proof.
  intros Hi Hf x. unfold set_byte. destruct (Z.eqb_spec x (dst + i)) as [->|Hne].
  - replace ((dst <=? dst + i) && (dst + i <? dst + (i + 1))) with true by lia. f_equal. lia.
  - rewrite Hf. by replace (x <? dst + (i + 1)) with (x <? dst + i) by lia.
Qed.

Lemma fill_bytes_runs u dst n f (body : Z -> M (uheap K) unit) (Q : unit -> uheap K -> Prop) :
  0 <= n -> (forall m' i R, 0 <= i < n -> filled (u_mem u) dst i f m' ->
    R tt (set_mem_of (set_byte m' (dst + i) (f i)) u) -> runs (body i) (set_mem_of m' u) R) ->
  (forall m', filled (u_mem u) dst n f m' -> Q tt (set_mem_of m' u)) -> runs (for_each (up_to 0 n 1) body) u Q.
Proof.
  intros Hn Hb HQ. apply (runs_for_each (fun i u' => exists m', u' = set_mem_of m' u /\ filled (u_mem u) dst i f m')).
  - done.
  - exists (u_mem u). split; [by destruct u|]. intros x. by replace ((dst <=? x) && (x <? dst + 0)) with false by lia.
  - intros i u' Hi (m' & -> & Hf). apply (Hb m' i); [lia|done|]. eexists. split; [done|]. apply filled_step; [lia|done].
  - intros ? (m' & -> & Hf). by apply HQ.
Qed.

Lemma memset_runs u dst v n (Q : unit -> uheap K -> Prop) :
  0 <= n -> USER_HEAP_BASE <= dst -> dst + n <= brk_of (u_kernel u) ->
  (forall m', filled (u_mem u) dst n (fun _ => u8 v) m' -> Q tt (set_mem_of m' u)) -> runs (memset dst v n) u Q.
Proof.
  intros Hn Hd He HQ. apply (fill_bytes_runs u dst n (fun _ => u8 v)); [done| |done]. intros m' i R Hi Hf HR.
  apply runs_store_byte; [cbn; lia|]. done.
Qed.

Lemma memcpy_runs u dst src n (Q : unit -> uheap K -> Prop) :
  0 <= n -> USER_HEAP_BASE <= dst -> dst + n <= brk_of (u_kernel u) -> USER_HEAP_BASE <= src -> src + n <= brk_of (u_kernel u) ->
  dst + n <= src \/ src + n <= dst ->
  (forall m', filled (u_mem u) dst n (fun i => u_mem u (src + i)) m' -> Q tt (set_mem_of m' u)) -> runs (memcpy dst src n) u Q.
Proof.
  intros Hn Hd He Hs Hse Hdis HQ. apply (fill_bytes_runs u dst n (fun i => u_mem u (src + i))); [done| |done]. intros m' i R Hi Hf HR.
  apply runs_bind, runs_load_byte; [cbn; lia|]. cbn [set_mem_of u_mem]. apply runs_store_byte; [cbn; lia|]. cbn [set_mem_of u_mem].
  assert (E : m' (src + i) = u_mem u (src + i)).
  { rewrite Hf. by replace ((dst <=? src + i) && (src + i <? dst + i)) with false by lia. }
  by rewrite E.
Qed.

(** ** Writing into a block in use *)

Lemma payload_ok u base bs q k m' :
  heap_ok u base bs -> in_use base bs q k -> (forall x, ~ q <= x < q + k -> m' x = u_mem u x) -> heap_ok (set_mem_of m' u) base bs.
Proof.
  intros O Hu Hm. destruct (in_use_inv _ _ _ _ Hu) as (l1 & l2 & -> & ->).
  destruct (focus _ _ _ _ _ O) as (Hh & Hseg & Hr & Hn & H8 & Hle & He & _ & _ & Hz1 & Hz2). cbn [fst snd] in *.
  apply (replace_ok u base l1 [(k, false)] [(k, false)] l2); cbn [end_of last_of seg fst snd]; try done.
  - by repeat constructor.
  - intros -> l b E. destruct l as [|? [|]]; try done. injection E as <-. exact (ho_last _ _ _ O l1 (k, false) eq_refl).
  - intros x Hx. apply Hm. lia.
  - split; [|done]. apply (header_agrees (u_mem u) _ _ _ _ _ (end_of base l1) (end_of base l1 + 16)); [|lia..|done]. intros x Hx. apply Hm. lia.
  - apply (seg_agrees (u_mem u)); [done| |done]. intros x Hx. apply Hm. lia.
Qed.

(** The other blocks do not notice. *)
Lemma payload_apart base bs q k p n x :
  sizes_ok bs -> in_use base bs q k -> in_use base bs p n -> p <> q -> p <= x < p + n -> ~ q <= x < q + k.
Proof. intros Hz Hq Hp Hne Hx. destruct (in_use_disjoint _ _ _ _ _ _ Hz Hp Hq) as [[? _]|?]; lia. Qed.

(** The header of a block in use. *)
Lemma size_runs u base bs p n (Q : Z -> uheap K -> Prop) :
  heap_ok u base bs -> in_use base bs p n -> Q n u -> runs (load (F_size (u32 (p - SIZEOF_HEAP_BLOCK)))) u Q.
Proof.
  intros O Hu HQ. destruct (in_use_inv _ _ _ _ Hu) as (l1 & l2 & -> & ->).
  destruct (focus _ _ _ _ _ O) as ((H1 & _) & _ & Hr & Hn & _ & Hle & He & Hm & _). cbn [fst snd] in *. heap_consts.
  replace (end_of base l1 + 16 - 16) with (end_of base l1) by lia. rewrite u32_small by lia. apply runs_load; [in_heap..|]. by rewrite H1.
Qed.

Lemma use_bounds u base bs p n :
  heap_ok u base bs -> in_use base bs p n -> USER_HEAP_BASE <= p /\ 0 <= n /\ p + n <= brk_of (u_kernel u).
Proof.
  intros O Hu. pose proof (in_use_range _ _ _ _ (ho_sizes _ _ _ O) Hu) as (H1 & H2 & H3). rewrite <- (ho_end _ _ _ O).
  pose proof (ho_base _ _ _ O) as [? _]. lia.
Qed.
(** ** [realloc] and [calloc] *)

(** Block [p] is replaced by the block [r] of [k] bytes, of which the first [c] are those
    of [p]; the other blocks are as they were. *)
Record replaced (u : uheap K) (base : Z) (bs : list ublock) (p r k c : Z) (u' : uheap K) : Prop := Replaced {
  rp_heap : exists bs', heap_ok u' base bs' /\ forall q j, in_use base bs' q j <-> (in_use base bs q j /\ q <> p) \/ (q = r /\ j = k);
  rp_kept : forall q j, in_use base bs q j -> q <> p -> agrees (u_mem u) (u_mem u') q (q + j);
  rp_copy : forall i, 0 <= i < c -> u_mem u' (r + i) = u_mem u (p + i)
}.

Definition realloc_post (u : uheap K) (base : Z) (bs : list ublock) (p n size r : Z) (u' : uheap K) : Prop :=
  (r = 0 /\ rearranged u base bs u' /\ (size <= 2 ^ 32 - 4119 -> no_fit (align8 size) bs /\ growth_refused (align8 size) (u_kernel u) (u_kernel u'))) \/
  (r = p /\ exists k, align8 size <= k <= n /\ replaced u base bs p p k k u') \/
  (0 < r /\ (forall j, ~ in_use base bs r j) /\ exists k, align8 size <= k /\ n <= k /\ replaced u base bs p r k n u').

(** The block is large enough: it is cut. *)
Lemma shrink_runs u base bs p n need :
  heap_ok u base bs -> in_use base bs p n -> 0 <= need <= n -> need mod 8 = 0 ->
  runs (heap_split_block (u32 (p - SIZEOF_HEAP_BLOCK)) need) u (fun _ u' => exists k, need <= k <= n /\ replaced u base bs p p k k u').
Proof.
  intros O Hu Hn H8. destruct (in_use_inv _ _ _ _ Hu) as (l1 & l2 & -> & ->).
  pose proof (focus _ _ _ _ _ O) as (_ & _ & Hr & _ & _ & Hle & He & Hm & _ & Hz1 & Hz2). cbn [fst snd] in *. set (A := end_of base l1) in *.
  change SIZEOF_HEAP_BLOCK with 16. replace (A + 16 - 16) with A by lia. rewrite u32_small by lia.
  assert (Hother : forall q j, in_use base (l1 ++ (n, false) :: l2) q j /\ q <> A + 16 <-> in_use base l1 q j \/ in_use (A + 16 + n) l2 q j).
  { intros q j. rewrite in_use_app. cbn [in_use fst snd]. fold A. split; [tauto|]. intros [Hq|Hq]; (split; [tauto|]).
    - destruct (in_use_range _ _ _ _ Hz1 Hq) as (_ & ? & Hx). fold A in Hx. lia.
    - destruct (in_use_range _ _ _ _ Hz2 Hq) as (Hx & _). lia. }
  apply (split_block_runs u base l1 n false l2 need _ O Hn H8).
  - intros _. exists n. split; [lia|]. constructor; [|by intros|done]. exists (l1 ++ (n, false) :: l2). split; [done|].
    intros q j. rewrite Hother, in_use_app. cbn [in_use fst snd]. fold A. intuition congruence.
  - intros m' Hlt O' Hm'. fold A in Hm'. exists need. split; [lia|]. constructor.
    + exists (l1 ++ (need, false) :: (n - need - 16, true) :: l2). split; [done|]. intros q j. rewrite Hother, in_use_app. cbn [in_use fst snd]. fold A.
      replace (A + 16 + need + 16 + (n - need - 16)) with (A + 16 + n) by lia. intuition congruence.
    + intros q j Hq Hne x Hx. cbn [set_mem_of u_mem]. apply Hm'. destruct (proj1 (Hother q j) (conj Hq Hne)) as [Hq'|Hq'].
      * destruct (in_use_range _ _ _ _ Hz1 Hq') as (_ & _ & Hy). fold A in Hy. lia.
      * destruct (in_use_range _ _ _ _ Hz2 Hq') as (Hy & _). lia.
    + intros i Hi. cbn [set_mem_of u_mem]. apply Hm'. lia.
Qed.

(** A new block is allocated, filled and the old one released. *)
Lemma move_runs u base bs p n size :
  heap_ok u base bs -> in_use base bs p n -> 0 < size < 2 ^ 32 -> n < align8 size ->
  runs (new_ptr <- malloc size ;;
        if new_ptr =? 0 then ret 0
        else bsize <- load (F_size (u32 (p - SIZEOF_HEAP_BLOCK))) ;; memcpy new_ptr p bsize ;;; free p ;;; ret new_ptr) u
    (realloc_post u base bs p n size).
Proof.
  intros O Hu Hs Hlt. apply runs_bind. eapply runs_mono; [apply (malloc_runs u base bs size O); lia|].
  intros q u1 [(-> & Hre & Href)|(_ & k & Hk & [Hq (bs1 & O1 & Hin) Hnew Hkept])].
  { apply runs_ret. left. split_and!; [done..|]. intros ?. apply Href. lia. }
  rewrite (proj2 (Z.eqb_neq q 0)) by lia.
  assert (Hu1 : in_use base bs1 p n) by (apply Hin; by left). assert (Hq1 : in_use base bs1 q k) by (apply Hin; by right).
  assert (Hpq : p <> q) by (intros ->; by apply (Hnew n)).
  apply runs_bind, (size_runs u1 base bs1 p n _ O1 Hu1).
  destruct (use_bounds _ _ _ _ _ O1 Hu1) as (B1 & B2 & B3). destruct (use_bounds _ _ _ _ _ O1 Hq1) as (B4 & B5 & B6).
  pose proof (in_use_disjoint _ _ _ _ _ _ (ho_sizes _ _ _ O1) Hu1 Hq1) as Hd.
  apply runs_bind, memcpy_runs; [lia..|]. intros m2 Hm2.
  assert (Hout : forall x, ~ q <= x < q + k -> m2 x = u_mem u1 x) by (intros x Hx; rewrite Hm2; by replace ((q <=? x) && (x <? q + n)) with false by lia).
  pose proof (payload_ok u1 base bs1 q k m2 O1 Hq1 Hout) as O2.
  apply runs_bind. eapply runs_mono; [apply (free_runs _ base bs1 p n O2 Hu1)|]. cbv beta. intros _ u3 (bs3 & O3 & Hin3 & Hk3).
  apply runs_ret. right. right. split; [done|]. split; [done|]. exists k. split_and!; [done|lia|]. constructor.
  - exists bs3. split; [done|]. intros a j. rewrite Hin3, (Hin a j). intuition congruence.
  - intros a j Ha Hne x Hx. rewrite (Hk3 a j); [|apply Hin; by left|done|done]. cbn [set_mem_of u_mem]. rewrite Hout.
    + by apply (Hkept a j).
    + apply (payload_apart base bs1 q k a j x); [apply O1|done|apply Hin; by left| |done]. intros ->. by apply (Hnew j).
  - intros i Hi. rewrite (Hk3 q k Hq1) by (done || lia). cbn [set_mem_of u_mem]. rewrite Hm2.
    replace ((q <=? q + i) && (q + i <? q + n)) with true by lia. replace (q + i - q) with i by lia. apply (Hkept p n Hu). lia.
Qed.

Lemma realloc_runs u base bs p n size :
  heap_ok u base bs -> in_use base bs p n -> 0 < size < 2 ^ 32 -> runs (realloc p size) u (realloc_post u base bs p n size).
Proof.
  intros O Hu Hs. destruct (in_use_pointer _ _ _ _ _ O Hu) as [Hp Hp32]. unfold realloc.
  rewrite (proj2 (Z.eqb_neq p 0)), (proj2 (Z.eqb_neq size 0)) by (heap_consts; lia).
  apply runs_bind, (init_runs u base bs _ O). intros u1 O1 Eb Em Hqu. apply runs_bind, runs_gets. rewrite Eb.
  rewrite (proj2 (Z.ltb_ge p USER_HEAP_BASE)), (proj2 (Z.leb_gt (end_of base bs) p)) by lia. cbn [orb]. cbv zeta.
  assert (Hpost : forall r u', realloc_post u1 base bs p n size r u' -> realloc_post u base bs p n size r u').
  { intros r u'. unfold realloc_post, rearranged. rewrite Em. intros [(-> & Hre & Href)|[(-> & k & Hk & [R1 R2 R3])|(Hr & Hno & k & Hk1 & Hk2 & [R1 R2 R3])]].
    - left. split_and!; [done..|]. intros Hle. destruct (Href Hle) as [Hno Hr]. split; [done|]. eapply growth_refused_after; [done| |done].
      by rewrite <- (ho_end _ _ _ O), <- (ho_end _ _ _ O1).
    - right. left. split; [done|]. exists k. split; [done|]. constructor; [done|by rewrite <- Em|by rewrite <- Em].
    - right. right. split_and!; [done..|]. exists k. split_and!; [done..|]. constructor; [done|by rewrite <- Em|by rewrite <- Em]. }
  destruct (align8_facts size) as (Ha & Ha8 & _); [lia|].
  apply runs_bind, (size_runs u1 base bs p n _ O1 Hu). destruct (Z.leb_spec (align8 size) n).
  - apply runs_bind. eapply runs_mono; [apply (shrink_runs u1 base bs p n); try done; lia|]. intros _ u' (k & Hk & R). apply runs_ret, Hpost.
    right. left. split; [done|]. by exists k.
  - eapply runs_mono; [by apply (move_runs u1 base bs p n size)|]. intros r u'. apply Hpost.
Qed.

End copying.
