(* ===== verification/UserHeapSpec.v ===== *)
(** * The user heap as a map from pointers to blocks

    The calls of [malloc.c] refine operations on a finite map from pointers to the bytes
    of their blocks, over every kernel that satisfies [BrkService]; the memory calls of
    [MemCalls] are such a kernel. *)
From S2P Require Import Prelude BootInfo Pmm Memory Paging AddressSpace AddressProps Kalloc KernelVm VmArea VmTable VmOps VmSpec MemCalls MemCallsProps MemCallsSpec.
From S2P Require Import UserHeap UserHeapRep UserHeapOps UserHeapProps UserHeapCopy Arrays.
From Stdlib Require Import ZArith Lia ZifyBool Bool.
From stdpp Require Import base relations numbers gmap list.
Local Open Scope Z_scope.
Local Open Scope kernel_scope.

(** ** Specification *)

Abbreviation abstract_heap := (gmap Z (list Z)).

Inductive heap_call :=
| Malloc (size : Z)
| Calloc (nmemb size : Z)
| Realloc (p size : Z)
| Free (p : Z)
| Write (p i v : Z).

(** A block can hold what was asked for; sizes above [2^32 - 8] wrap around. *)
Definition capacity (size n : Z) : Prop := size <= 2 ^ 32 - 8 -> size <= n.

(** A block [l] appears at a pointer [r] that is not in use. *)
Definition fresh_block (h : abstract_heap) (r : Z) (l : list Z) (h' : abstract_heap) : Prop :=
  r <> 0 /\ h !! r = None /\ h' = <[r := l]> h.

(** The result of a call and the heap after it. *)
Definition heap_spec (h : abstract_heap) (c : heap_call) (r : Z) (h' : abstract_heap) : Prop :=
  match c with
  | Malloc size => (r = 0 /\ h' = h) \/ (size <> 0 /\ exists l, capacity size (zlen l) /\ fresh_block h r l h')
  | Calloc nmemb size =>
      (r = 0 /\ h' = h) \/ exists l, Z.max 1 (nmemb * size) <= zlen l /\ (forall i, 0 <= i < nmemb * size -> zget 0 l i = 0) /\ fresh_block h r l h'
  | Realloc p size =>
      if p =? 0 then (r = 0 /\ h' = h) \/ (size <> 0 /\ exists l, capacity size (zlen l) /\ fresh_block h r l h')
      else if size =? 0 then r = 0 /\ h' = delete p h
      else exists l, h !! p = Some l /\
        ((r = 0 /\ h' = h) \/ (r = p /\ exists l', l' `prefix_of` l /\ capacity size (zlen l') /\ h' = <[p := l']> h) \/
         (exists l', l `prefix_of` l' /\ capacity size (zlen l') /\ r <> 0 /\ h !! r = None /\ h' = <[r := l']> (delete p h)))
  | Free p => r = 0 /\ h' = delete p h
  | Write p i v => exists l, h !! p = Some l /\ r = 0 /\ h' = <[p := zset l i v]> h
  end.

(** What a correct program passes: pointers to blocks in use, or null. *)
Definition pointer_ok (h : abstract_heap) (p : Z) : Prop := p = 0 \/ is_Some (h !! p).

Definition size_ok (size : Z) : Prop := 0 <= size < 2 ^ 32.

Definition call_ok (h : abstract_heap) (c : heap_call) : Prop :=
  match c with
  | Malloc size => size_ok size
  | Calloc nmemb size => size_ok nmemb /\ size_ok size /\ ~ (2 ^ 32 - 8 < nmemb * size < 2 ^ 32)
  | Realloc p size => size_ok size /\ pointer_ok h p
  | Free p => pointer_ok h p
  | Write p i v => exists l, h !! p = Some l /\ 0 <= i < zlen l
  end.

(** The blocks are aligned, in the heap region and disjoint. *)
Definition well_placed (h : abstract_heap) : Prop :=
  (forall p l, h !! p = Some l -> USER_HEAP_BASE <= p /\ p mod 8 = 0 /\ p + zlen l < USER_STACK_TOP - USER_STACK_SIZE) /\
  (forall p l q k, h !! p = Some l -> h !! q = Some k -> p <> q -> p + zlen l <= q \/ q + zlen k <= p).

(** ** The heap in memory *)

Definition contents (m : Z -> Z) (p n : Z) : list Z := (fun i => m (p + i)) <$> seqZ 0 n.

Lemma contents_len m p n : 0 <= n -> zlen (contents m p n) = n.
Proof. intros Hn. unfold contents, zlen. rewrite length_fmap, length_seqZ. lia. Qed.

Lemma contents_get m p n i : 0 <= i < n -> zget 0 (contents m p n) i = m (p + i).
Proof.
  intros Hi. unfold zget, contents. rewrite list_lookup_fmap, lookup_seqZ_lt by lia. cbn. f_equal. lia.
Qed.

Lemma contents_ext m m' p q n : (forall i, 0 <= i < n -> m' (q + i) = m (p + i)) -> contents m' q n = contents m p n.
Proof.
  intros E. destruct (Z.le_gt_cases n 0) as [Hn|Hn].
  { unfold contents. by rewrite seqZ_nil by lia. }
  apply (zlist_eq 0); [by rewrite !contents_len by lia|]. rewrite contents_len by lia. intros k Hk. rewrite !contents_get by lia. by apply E.
Qed.

Lemma contents_agrees m m' p n : agrees m m' p (p + n) -> contents m' p n = contents m p n.
Proof. intros Ha. apply contents_ext. intros i Hi. apply Ha. lia. Qed.

Lemma contents_prefix m p k n : 0 <= k <= n -> contents m p k `prefix_of` contents m p n.
Proof.
  intros Hk. unfold contents. replace n with (k + (n - k)) by lia. rewrite seqZ_app, fmap_app by lia. by eexists.
Qed.

Section refinement.
Context {K : Type} `{BrkService K}.
Implicit Types u : uheap K.

Definition exec_heap (c : heap_call) : M (uheap K) Z :=
  match c with
  | Malloc size => malloc size
  | Calloc nmemb size => calloc nmemb size
  | Realloc p size => realloc p size
  | Free p => free p ;;; ret 0
  | Write p i v => store_byte (p + i) v ;;; ret 0
  end.

(** The blocks of [h] are those in use, with their contents. *)
Definition holds (m : Z -> Z) (base : Z) (bs : list ublock) (h : abstract_heap) : Prop :=
  forall p l, h !! p = Some l <-> in_use base bs p (zlen l) /\ l = contents m p (zlen l).

Definition heap_map (u : uheap K) (h : abstract_heap) : Prop :=
  exists base bs, heap_ok u base bs /\ holds (u_mem u) base bs h.

(** ** Changes of the blocks in use *)

Lemma holds_in m base bs h p l : holds m base bs h -> h !! p = Some l -> in_use base bs p (zlen l) /\ l = contents m p (zlen l).
Proof. intros Hh. apply Hh. Qed.

Lemma holds_none m base bs h p : sizes_ok bs -> holds m base bs h -> (forall k, ~ in_use base bs p k) -> h !! p = None.
Proof. intros Hz Hh Hno. destruct (h !! p) as [l|] eqn:E; [|done]. apply Hh in E as [Hu _]. by apply Hno in Hu. Qed.

Lemma holds_same m m' base bs bs' h : same_use base bs bs' -> kept base bs m m' -> holds m base bs h -> holds m' base bs' h.
Proof.
  intros Hs Hk Hh p l. rewrite (Hh p l), (Hs p (zlen l)). split; intros [Hu Hl]; (split; [done|]); apply Hs in Hu.
  - by rewrite (contents_agrees m m' p (zlen l)) by (by apply Hk).
  - by rewrite <- (contents_agrees m m' p (zlen l)) by (by apply Hk).
Qed.

(** Block [p] goes, block [r] of [n] bytes comes. *)
Lemma holds_replace m m' base bs bs' p r n h :
  sizes_ok bs -> holds m base bs h -> 0 <= n -> (r = p \/ forall k, ~ in_use base bs r k) ->
  (forall q k, in_use base bs' q k <-> (in_use base bs q k /\ q <> p) \/ (q = r /\ k = n)) ->
  (forall q k, in_use base bs q k -> q <> p -> agrees m m' q (q + k)) ->
  holds m' base bs' (<[r := contents m' r n]> (delete p h)).
Proof.
  intros Hz Hh Hn Hr Hu Hk q l. rewrite (Hu q (zlen l)). destruct (decide (q = r)) as [->|Hne].
  - rewrite lookup_insert_eq. split.
    + intros [= <-]. rewrite contents_len by done. split; [by right|done].
    + intros [[[Hu1 Hu2]|[_ Hu2]] Hl]; [|congruence]. destruct Hr as [->|Hr]; [done|by apply Hr in Hu1].
  - rewrite lookup_insert_ne by done. destruct (decide (q = p)) as [->|Hnp].
    + rewrite lookup_delete_eq. split; [done|]. intros [[[_ ?]|[? _]] _]; done.
    + rewrite lookup_delete_ne, (Hh q l) by done. split.
      * intros [Hq Hl]. split; [by left|]. by rewrite (contents_agrees m m' q (zlen l)) by (by apply Hk).
      * intros [[[Hq _]|[? _]] Hl]; [|done]. split; [done|]. by rewrite <- (contents_agrees m m' q (zlen l)) by (by apply Hk).
Qed.

Lemma holds_delete m m' base bs bs' p h :
  holds m base bs h -> (forall q k, in_use base bs' q k <-> in_use base bs q k /\ q <> p) ->
  (forall q k, in_use base bs q k -> q <> p -> agrees m m' q (q + k)) -> holds m' base bs' (delete p h).
Proof.
  intros Hh Hu Hk q l. rewrite (Hu q (zlen l)). destruct (decide (q = p)) as [->|Hne].
  - rewrite lookup_delete_eq. split; [done|]. by intros [[_ ?] _].
  - rewrite lookup_delete_ne, (Hh q l) by done. split; intros [Hq Hl].
    + split; [done|]. by rewrite (contents_agrees m m' q (zlen l)) by (by apply Hk).
    + destruct Hq as [Hq _]. split; [done|]. by rewrite <- (contents_agrees m m' q (zlen l)) by (by apply Hk).
Qed.

Lemma heap_map_placed u h : heap_map u h -> well_placed h.
Proof.
  intros (base & bs & O & Hh). pose proof (ho_range _ _ _ O) as [Hr1 Hr2]. split.
  - intros p l Hl. apply Hh in Hl as [Hu _]. pose proof (in_use_range _ _ _ _ (ho_sizes _ _ _ O) Hu) as (H1 & H2 & H3).
    split_and!; [lia| |lia]. destruct (in_use_inv _ _ _ _ Hu) as (l1 & l2 & E & ->). pose proof (ho_sizes _ _ _ O) as Hz. rewrite E in Hz.
    apply Forall_app in Hz as [Hz _]. pose proof (end_of_mod base l1 Hz (proj2 (ho_base _ _ _ O))). dlia.
  - intros p l q k Hp Hq Hne. apply Hh in Hp as [Hp _]. apply Hh in Hq as [Hq _].
    destruct (in_use_disjoint _ _ _ _ _ _ (ho_sizes _ _ _ O) Hp Hq) as [[? _]|?]; [done|lia].
Qed.

(** ** The calls *)

(** What a call establishes. *)
Definition refines (h : abstract_heap) (c : heap_call) (r : Z) (u' : uheap K) : Prop := exists h', heap_spec h c r h' /\ heap_map u' h'.

(** The bytes a call asks for. *)
Definition requested (c : heap_call) : Z :=
  match c with
  | Malloc size | Realloc _ size => size
  | Calloc nmemb size => Z.max 1 (nmemb * size)
  | Free _ | Write _ _ _ => 0
  end.

(** An allocation, except of sizes close to [2^32], fails only when no free block is large
    enough and the kernel refuses the space it is asked for. *)
Definition refused_by_kernel (u : uheap K) (c : heap_call) (r : Z) (u' : uheap K) : Prop :=
  r = 0 -> 0 < requested c <= 2 ^ 32 - 4119 ->
  exists base bs, heap_ok u base bs /\ no_fit (align8 (requested c)) bs /\ growth_refused (align8 (requested c)) (u_kernel u) (u_kernel u').

(** A call keeps its contract. *)
Definition served (u : uheap K) (h : abstract_heap) (c : heap_call) (r : Z) (u' : uheap K) : Prop := refines h c r u' /\ refused_by_kernel u c r u'.

Lemma rearranged_map u base bs h u' : holds (u_mem u) base bs h -> rearranged u base bs u' -> heap_map u' h.
Proof. intros Hh (bs' & O & Hs & Hk). exists base, bs'. split; [done|]. by eapply holds_same. Qed.

(** A block that was allocated and then written. *)
Lemma allocated_map u base bs h r n u1 m2 :
  heap_ok u base bs -> holds (u_mem u) base bs h -> 0 <= n -> allocated_block u base bs r n u1 ->
  (forall x, ~ r <= x < r + n -> m2 x = u_mem u1 x) ->
  heap_map (set_mem_of m2 u1) (<[r := contents m2 r n]> h) /\ h !! r = None.
Proof.
  intros O Hh Hn [Hr (bs1 & O1 & Hin) Hnew Hk] Hm2. pose proof (holds_none _ _ _ _ _ (ho_sizes _ _ _ O) Hh Hnew) as Hnone. split; [|done].
  assert (Hu : in_use base bs1 r n) by (apply Hin; by right). exists base, bs1. split; [by apply (payload_ok u1 base bs1 r n)|].
  cbn [set_mem_of u_mem]. rewrite <- (delete_id h r) by done. apply (holds_replace (u_mem u) m2 base bs bs1 r r n); try done.
  - apply O.
  - by left.
  - intros q k. rewrite Hin. split; [|tauto]. intros [Hq|?]; [|by right]. left. split; [done|]. intros ->. by apply (Hnew k).
  - intros q k Hq Hne x Hx. rewrite Hm2; [by apply (Hk q k)|]. apply (payload_apart base bs1 r n q k); [apply O1|done|apply Hin; by left|done|done].
Qed.

Lemma align8_capacity size n : size_ok size -> align8 size <= n -> capacity size n.
Proof. unfold size_ok, capacity. intros Hs Hn Hle. destruct (align8_facts size Hs) as (_ & _ & Ha). lia. Qed.

Lemma malloc_refines u h size :
  heap_map u h -> size_ok size -> runs (malloc size) u (served u h (Malloc size)).
Proof.
  intros (base & bs & O & Hh) Hs. eapply runs_mono; [by apply (malloc_runs u base bs size O)|].
  intros r u' [(-> & Hre & Hb)|(Hnz & n & Hn & Hal)].
  - split; [|intros _ Hr; exists base, bs; split; [done|by apply Hb]]. exists h. split; [by left|]. by eapply rearranged_map.
  - assert (0 <= n) by (destruct (align8_facts size Hs) as ([? _] & _); lia). pose proof (al_pos _ _ _ _ _ _ Hal).
    destruct (allocated_map u base bs h r n u' (u_mem u') O Hh ltac:(done) Hal ltac:(done)) as [Hmap Hnone].
    split; [|intros ?; lia]. exists (<[r := contents (u_mem u') r n]> h). split; [|by destruct u'].
    right. split; [done|]. eexists. split; [|split_and!; [lia|done|done]]. rewrite contents_len by done. by apply align8_capacity.
Qed.

Lemma free_refines u h p : heap_map u h -> pointer_ok h p -> runs (free p ;;; ret 0) u (refines h (Free p)).
Proof.
  intros (base & bs & O & Hh) Hp. apply runs_bind. destruct Hp as [->|[l Hl]].
  - apply runs_ret, runs_ret. exists h. split; [split; [done|]|by exists base, bs]. destruct (h !! 0) as [l|] eqn:E; [|by rewrite delete_id].
    apply Hh in E as [Hu _]. destruct (in_use_pointer _ _ _ _ _ O Hu) as [Hp _]. change USER_HEAP_BASE with 268435456 in Hp. lia.
  - destruct (proj1 (Hh p l) Hl) as [Hu _]. eapply runs_mono; [apply (free_runs u base bs p _ O Hu)|]. intros _ u' (bs' & O' & Hin & Hk).
    apply runs_ret. exists (delete p h). split; [done|]. exists base, bs'. split; [done|]. by apply (holds_delete (u_mem u) _ base bs).
Qed.

Lemma replaced_map u base bs h p l r k c u' :
  heap_ok u base bs -> holds (u_mem u) base bs h -> h !! p = Some l -> 0 <= k -> (r = p \/ forall j, ~ in_use base bs r j) ->
  replaced u base bs p r k c u' -> heap_map u' (<[r := contents (u_mem u') r k]> (delete p h)).
Proof.
  intros O Hh Hl Hk Hr [(bs' & O' & Hin) Hkept _]. exists base, bs'. split; [done|].
  apply (holds_replace (u_mem u) _ base bs bs' p r k); try done. apply O.
Qed.

Lemma realloc_refines u h p size :
  heap_map u h -> size_ok size -> pointer_ok h p -> runs (realloc p size) u (served u h (Realloc p size)).
Proof.
  intros Hm Hs Hp. destruct (Z.eqb_spec p 0) as [->|Hp0].
  { unfold realloc. cbn [Z.eqb]. eapply runs_mono; [by apply malloc_refines|]. intros r u' H'. exact H'. }
  destruct Hp as [?|[l Hl]]; [done|]. destruct (Z.eqb_spec size 0) as [->|Hs0].
  { unfold realloc. rewrite (proj2 (Z.eqb_neq p 0)) by done. cbn [Z.eqb]. eapply runs_mono; [by apply (free_refines u h p Hm); right; exists l|].
    intros r u' (h' & H' & Hm'). split; [|intros _ Hr; cbn in Hr; lia]. exists h'. split; [|done]. cbn [heap_spec]. by rewrite (proj2 (Z.eqb_neq p 0)) by done. }
  destruct Hm as (base & bs & O & Hh). destruct (proj1 (Hh p l) Hl) as [Hu El].
  pose proof (in_use_range _ _ _ _ (ho_sizes _ _ _ O) Hu) as (_ & Hn & _). unfold size_ok in Hs. destruct (align8_facts size Hs) as ([Ha _] & _ & _).
  eapply runs_mono; [apply (realloc_runs u base bs p (zlen l) size O Hu); lia|]. unfold served, refines, heap_spec.
  rewrite (proj2 (Z.eqb_neq p 0)), (proj2 (Z.eqb_neq size 0)) by done.
  intros r u' [(-> & Hre & Href)|[(-> & k & Hk & R)|(Hr & Hnew & k & Hk & Hnk & R)]]; (split; [|intros Er Hq]); [|exists base, bs; split; [done|apply Href, Hq]| |done| |lia].
  - exists h. split; [|by eapply rearranged_map]. exists l. split; [done|]. by left.
  - exists (<[p := contents (u_mem u') p k]> (delete p h)). split; [|eapply (replaced_map u base bs h p l p k k); try done; [lia|by left]].
    exists l. split; [done|]. right. left. split; [done|]. exists (contents (u_mem u') p k). split_and!; [| |by rewrite insert_delete_eq].
    + rewrite El, (contents_ext (u_mem u) (u_mem u') p p k) by (by apply R). apply contents_prefix. lia.
    + rewrite contents_len by lia. apply align8_capacity; [done|lia].
  - exists (<[r := contents (u_mem u') r k]> (delete p h)). split; [|eapply (replaced_map u base bs h p l r k (zlen l)); try done; [lia|by right]].
    exists l. split; [done|]. right. right. exists (contents (u_mem u') r k). split_and!; [| |lia| |done].
    + rewrite El, <- (contents_ext (u_mem u) (u_mem u') p r (zlen l)) by (by apply R). apply contents_prefix. lia.
    + rewrite contents_len by lia. by apply align8_capacity.
    + by eapply holds_none; [apply O|done|].
Qed.

Lemma calloc_refines u h nmemb size :
  heap_map u h -> call_ok h (Calloc nmemb size) -> runs (calloc nmemb size) u (served u h (Calloc nmemb size)).
Proof.
  intros (base & bs & O & Hh) (Hn & Hs & Hno). unfold size_ok in *. unfold calloc. destruct ((nmemb =? 0) || (size =? 0)) eqn:E0.
  { assert (Ez : nmemb * size = 0) by (assert (nmemb = 0 \/ size = 0) as [->| ->] by lia; lia).
    eapply runs_mono; [apply (malloc_refines u h 1); [by exists base, bs|done]|]. intros r u' [(h' & Hsp & Hm) Href].
    split; [|unfold refused_by_kernel, requested in *; by rewrite Ez]. exists h'. split; [|done].
    destruct Hsp as [?|(_ & l & Hc & Hf)]; [by left|]. right. exists l. rewrite Ez. split_and!; [|lia|done]. unfold capacity in Hc. lia. }
  destruct (Z.ltb_spec (0xFFFFFFFF / size) nmemb).
  { apply runs_ret. split; [exists h; split; [by left|by exists base, bs]|]. intros _ Hq. unfold requested in Hq.
    assert (0xFFFFFFFF < nmemb * size) by (pose proof (Z.mul_succ_div_gt 0xFFFFFFFF size ltac:(lia)); nia). lia. }
  assert (Ht : 0 < nmemb * size < 2 ^ 32) by (clear Hno; split; [nia|]; pose proof (Z.mul_div_le 0xFFFFFFFF size ltac:(lia)); nia).
  rewrite u32_small by lia. set (t := nmemb * size) in *. cbv zeta.
  apply runs_bind. eapply runs_mono; [apply (malloc_runs u base bs t O); lia|]. intros r u1 [(-> & Hre & Href)|(_ & n & Hcap & Hal)].
  { apply runs_ret. split; [exists h; split; [by left|by eapply rearranged_map]|]. intros _. unfold requested. fold t. rewrite Z.max_r by lia.
    intros Hq. exists base, bs. split; [done|by apply Href]. }
  pose proof (al_pos _ _ _ _ _ _ Hal) as Hpos. rewrite (proj2 (Z.eqb_neq r 0)) by lia.
  assert (Htn : t <= n) by (destruct (align8_facts t) as (_ & _ & Ha); lia).
  pose proof Hal as [_ (bs1 & O1 & Hin) _ _]. destruct (use_bounds u1 base bs1 r n O1) as (B1 & B2 & B3); [apply Hin; by right|].
  apply runs_bind, memset_runs; [lia..|]. intros m2 Hm2. apply runs_ret.
  destruct (allocated_map u base bs h r n u1 m2 O Hh B2 Hal) as [Hmap Hnone].
  { intros x Hx. rewrite Hm2. by replace ((r <=? x) && (x <? r + t)) with false by lia. }
  split; [|intros ?; lia]. exists (<[r := contents m2 r n]> h). split; [|done]. right. exists (contents m2 r n). rewrite contents_len by done. split_and!; [lia| |split_and!; [lia|done|done]].
  intros i Hi. rewrite contents_get by (fold t in Hi; lia). rewrite Hm2. fold t in Hi. by replace ((r <=? r + i) && (r + i <? r + t)) with true by lia.
Qed.

Lemma write_refines u h p i v :
  heap_map u h -> call_ok h (Write p i v) -> runs (store_byte (p + i) v ;;; ret 0) u (refines h (Write p i v)).
Proof.
  intros (base & bs & O & Hh) (l & Hl & Hi). destruct (proj1 (Hh p l) Hl) as [Hu El].
  destruct (use_bounds u base bs p (zlen l) O Hu) as (B1 & B2 & B3). apply runs_bind, runs_store_byte; [lia|]. apply runs_ret.
  exists (<[p := zset l i v]> h). split; [by exists l|]. exists base, bs. split.
  { apply (payload_ok u base bs p (zlen l)); [done|done|]. intros x Hx. unfold set_byte. by rewrite (proj2 (Z.eqb_neq x (p + i))) by lia. }
  cbn [set_mem_of u_mem]. set (m2 := set_byte (u_mem u) (p + i) v).
  assert (E : zset l i v = contents m2 p (zlen l)).
  { apply (zlist_eq 0); [by rewrite zlen_zset, contents_len|]. rewrite zlen_zset. intros k Hk. rewrite zget_zset, contents_get by lia.
    unfold m2, set_byte. rewrite El at 1. destruct (Z.eqb_spec i k) as [->|]; [by rewrite Z.eqb_refl|].
    rewrite contents_get, (proj2 (Z.eqb_neq (p + k) (p + i))) by lia. done. }
  rewrite E, <- insert_delete_eq. apply (holds_replace (u_mem u) m2 base bs bs p p (zlen l)); try done.
  - apply O.
  - by left.
  - intros q k. split.
    + intros Hq. destruct (in_use_disjoint _ _ _ _ _ _ (ho_sizes _ _ _ O) Hq Hu) as [?|Hd]; [by right|]. left. split; [done|].
      intros ->. pose proof (in_use_range _ _ _ _ (ho_sizes _ _ _ O) Hq). lia.
    + by intros [[? _]|[-> ->]].
  - intros q k Hq Hne x Hx. unfold m2, set_byte. pose proof (payload_apart base bs p (zlen l) q k x (ho_sizes _ _ _ O) Hu Hq Hne Hx).
    by rewrite (proj2 (Z.eqb_neq x (p + i))) by lia.
Qed.

Lemma heap_map_initial m k : brk_ok k -> brk_of k mod 8 = 0 -> heap_map (UHeap m 0 0 k) ∅.
Proof.
  intros Hk Hm. exists (brk_of k), []. split.
  - pose proof (brk_ok_range k Hk). constructor; [done|by right|split; [lia|done]|done|done|done|by constructor|by intros []].
  - intros p l. rewrite lookup_empty. split; [done|]. by intros [[] _].
Qed.

End refinement.

(** ** The kernel *)

(** The system call of [MemCalls] is a service as the C library expects it. *)
Definition kernel_brk (L : layout) (pds : gset Z) (HL : layout_ok L) : BrkService caller.
Proof.
  refine {| sys_brk := sys_brk_impl L; brk_of := heap_brk; brk_ok := caller_ok L pds |}.
  - intros k C. apply C.
  - intros k C. unfold sys_brk_impl. apply runs_bind, runs_gets. unfold id. rewrite (caller_pd L pds k C). cbn [Z.eqb]. by apply runs_ret.
  - intros n k C Hn. eapply runs_mono; [apply (brk_runs L HL pds k n C); intros ?; lia|]. intros r k' (S & Er & _ & Hcase).
    split_and!; [apply S|done|]. destruct Hcase as [R|(E & _)]; [left; apply R|by right].
Defined.

(** ** A size that wraps *)

(** A break that moves as far as asked inside of the heap region. *)
Definition counter_brk : BrkService Z.
Proof.
  refine {| sys_brk n := fun k => Some (if (k <=? n) && (n <? USER_STACK_TOP - USER_STACK_SIZE) then (n, n) else (k, k));
            brk_of k := k; brk_ok k := USER_HEAP_BASE <= k < USER_STACK_TOP - USER_STACK_SIZE |}.
  - done.
  - intros k Hk. unfold runs. change USER_HEAP_BASE with 268435456 in *. rewrite (proj2 (Z.leb_gt k 0)) by lia. cbn [andb fst snd]. done.
  - intros n k Hk Hn. unfold runs. change USER_HEAP_BASE with 268435456 in *.
    destruct ((k <=? n) && (n <? USER_STACK_TOP - USER_STACK_SIZE)) eqn:E; cbn [fst snd].
    + split_and!; [lia|lia|done|by left].
    + split_and!; [lia|lia|done|by right].
Defined.

(** The sizes above [2^32 - 8] are rounded up to 0: [malloc] succeeds with an empty block. *)
Theorem malloc_size_wraps :
  let u := UHeap (K := Z) (fun _ => 0) 0 0 USER_HEAP_BASE in
  match @malloc Z counter_brk 0xFFFFFFFF u with
  | Some (r, u') => r = USER_HEAP_BASE + 16 /\ word_at (u_mem u') (r - 16) = 0
  | None => False
  end.
Proof. vm_compute. by split. Qed.

(** ** Theorem *)

(** C24: the heap of user programs.  Before the first call the heap is empty.  From then on
    every call of [malloc], [calloc], [realloc] and [free] with pointers it was given, and
    every store of the program into its blocks, returns without an access outside of the
    heap, and acts on the map from pointers to blocks as specified: a new block has a
    pointer that was not in use and the requested capacity ([calloc]: zero bytes;
    [realloc]: the bytes of the old block), and no other block changes.  The blocks are
    aligned to 8 bytes, lie in the heap region and do not overlap.  Except for sizes close
    to [2^32], an allocation fails only when no free block is large enough and the kernel
    refuses the space it is asked for. *)
Theorem user_heap_refines {K} `{BrkService K} :
  (forall m (k : K), brk_ok k -> brk_of k mod 8 = 0 -> heap_map (UHeap m 0 0 k) ∅) /\
  (forall (u : uheap K) h c, heap_map u h -> well_placed h /\
     (call_ok h c -> exists r u' h', exec_heap c u = Some (r, u') /\ heap_spec h c r h' /\ heap_map u' h' /\ refused_by_kernel u c r u')).
Proof.
  split; [apply heap_map_initial|]. intros u h c Hm. split; [by eapply heap_map_placed|]. intros Hc.
  assert (runs (exec_heap c) u (served u h c)) as R.
  { destruct c; cbn [exec_heap call_ok] in *; [by apply malloc_refines|by apply calloc_refines|by destruct Hc; apply realloc_refines|..].
    - eapply runs_mono; [by apply free_refines|]. intros r u' H1. split; [done|]. intros _ Hq. cbn in Hq. lia.
    - eapply runs_mono; [by apply write_refines|]. intros r u' H1. split; [done|]. intros _ Hq. cbn in Hq. lia. }
  apply runs_elim in R as (r & u' & E & (h' & H1 & H2) & H3). by exists r, u', h'.
Qed.

(** The first allocation of a program on the modelled kernel. *)
Lemma user_heap_refines_witness :
  let S := kernel_brk layout_example fresh_pds layout_example_ok in
  let u := UHeap (fun _ => 0) 0 0 demo_caller in
  heap_map u ∅ /\ exists r u' h', exec_heap (Malloc 100) u = Some (r, u') /\ heap_spec ∅ (Malloc 100) r h' /\ heap_map u' h'.
Proof.
  intros S u. destruct (@user_heap_refines caller S) as [H0 H1].
  assert (Hm : heap_map u ∅) by (apply H0; [exact demo_caller_ok|vm_compute; reflexivity]). split; [exact Hm|].
  assert (Hc : call_ok ∅ (Malloc 100)) by (unfold call_ok, size_ok; lia).
  destruct (proj2 (H1 u ∅ (Malloc 100) Hm) Hc) as (r & u' & h' & E & Hs & Hm' & _).
  exists r, u', h'. exact (conj E (conj Hs Hm')).
Defined.
